(* ===== verification/_CoqProject ===== *)
-Q . S2P
Prelude.v
Bytes.v
Primality.v
Fr.v
Lagrange.v
Types.v
Gnark.v
Toy.v
Crypto.v
CryptoFacts.v
Recover.v
Merkle.v
Dkg.v
Reshare.v
KeyStore.v
Persistence.v
Session.v
NodeCore.v
AutoHeal.v
GoText.v
Platform.v
NodeOps.v
Agreement.v
Messages.v
NodeRun.v
NodeReshare.v
RunFacts.v
DkgRunFacts.v
ReshareRunFacts.v
RunWitness.v
Cluster.v
DealerSplit.v
Lifecycle.v
Handlers.v
Attestation.v
Encryption.v
Secrets.v
Ibe.v
Client.v
Stores.v
Layout.v
Badger.v
Redis.v
BlockLookup.v
Config.v
Base64.v
InitData.v
Snp.v
SnpSecrets.v
Tpm.v
Evidence.v
EnvCache.v
Helper.v
Transport.v
ContractCaller.v
Peering.v
ChainFeed.v
PlatformClient.v
Web3Client.v
TxSigner.v
Registration.v
Router.v
Cli.v
ServerMain.v
Bls.v
FakeKms.v
KeyGen.v
