(* ===== verification/Prelude.v ===== *)
(** * Verification of the distributed key-management node

    ** The program

    A set of operators holds one BLS12-381 key in shares.  A distributed key generation
    creates it, resharing rounds refresh the shares and hand them to a changed operator set
    without changing the key, and applications obtain the key of their own identity: each
    operator that accepts an application's attestation answers with a partial signature,
    and any threshold of partial signatures gives the application's private key, which
    opens what was encrypted for it under the master public key.

    The parts, and how they meet:
    - the curve and threshold arithmetic ([pkg/bls], [pkg/crypto]) is used by everything;
    - [pkg/dkg] and [pkg/reshare] are the arithmetic of one round, [pkg/merkle] the trees over
      the acknowledgements of a round;
    - [pkg/node] runs the rounds.  A run is started by the scheduler when a block of the chain
      arrives, waits while the HTTP handlers deliver messages to its session, reads the
      dealer set from the commitment registry, and commits a key version to the key store
      ([pkg/keystore]) and to the persistence ([pkg/persistence]).  Aborts are counted and lead
      to a rollback (auto-heal);
    - the application endpoints of [pkg/node] check attestations ([pkg/attestation]), encrypt
      the answer ([pkg/encryption]) and keep a replay cache;
    - [pkg/clients/kmsClient] is the other side: it asks the operators, collects partial
      signatures, recovers keys, encrypts and decrypts;
    - [cmd/kmsCDHHelper] runs inside a SEV-SNP guest: it attests the guest, recovers the key of
      its stack with the client and opens the secrets of the platform for the workload;
    - [pkg/transport] with [pkg/transportSigner] sends what a run has to say,
      [pkg/contractCaller] reads the chain for everybody, [pkg/blockHandler] hands its blocks and
      logs to the node, [pkg/config] is what a server starts from;
    - [pkg/transactionSigner] and [pkg/clients/web3signer] sign transactions, the second with a
      remote key; [cmd/registerOperator] with [internal/operator] registers an operator with them,
      [cmd/kmsClient] is the client on a command line, [pkg/clients/platformClient] asks the
      platform which release a stack runs.

    ** The files

    Foundations:
    - [Prelude]: Go results as [res], loops over slices, machine integers, shared lemmas;
      [Bytes]: big-endian encodings, [sort.Slice]; [GoText]: the text functions of the Go
      standard library, with what scanning says of printing.
    - [Primality]: the scalar modulus is prime (a Pocklington certificate); [Fr]: the scalar
      field as an interface and as integers modulo the modulus; [Lagrange]: interpolation.
    - [Gnark]: the curve library as an interface with its laws; [Toy]: an implementation of
      it that witnesses compute with.
    - [Types]: the records of [pkg/types] and [pkg/peering].

    The arithmetic of a round:
    - [Crypto]: [pkg/bls/*.go] and the point operations, hashes, recovery and verification of
      [pkg/crypto/bls.go]; [CryptoFacts] reduces them to scalars; [Recover]: the retrying
      search over subsets of signatures ([recoverAppPrivateKeyWithRetry], [binomial], [gcd]);
      [Ibe]: [EncryptForApp], [DecryptForApp] and the ciphertext format; [Bls]: the keys,
      signatures, aggregates, random polynomials and encodings of [pkg/bls].
    - [Merkle]: [pkg/merkle/merkle.go]; [Dkg]: [pkg/dkg/dkg.go]; [Reshare]: [pkg/reshare/reshare.go].

    The state of a node:
    - [KeyStore]: [pkg/keystore/keystore.go] with the sharing of its pointers;
      [Persistence]: the interface of [pkg/persistence] as a type class with the contract the
      node relies on, and the in-memory store, which meets it; [Stores], [Layout], [Badger] and
      [Redis]: the operations of a store as a language, the layout of keys that the two durable
      stores share, and [pkg/persistence/badger] and [pkg/persistence/redis] as refinements of
      the in-memory store.
    - [Session]: the [ProtocolSession] of [node.go]; [NodeCore]: the node's fields, the state
      and error monad of its methods, the chain parameters of [pkg/config].

    The node:
    - [AutoHeal]: [autoheal.go]; [Platform]: the platform endpoint taken from the chain;
      [NodeOps]: construction, restart, the scheduler's decision for a block, operator lists,
      retained shares; [Agreement]: the dealer set read from two chains; [BlockLookup]: the
      binary search that [Agreement] takes as a parameter; [Messages]: what is checked of a
      message, an acknowledgement, a broadcast, a fetched share.
    - [NodeRun] ([RunDKG]) and [NodeReshare] ([RunReshareAsExistingOperator],
      [RunReshareAsNewOperator]): the runs, phase by phase.  [RunFacts], [DkgRunFacts],
      [ReshareRunFacts]: what they guarantee; [RunWitness]: concrete runs; [Cluster]: several
      nodes in one round; [DealerSplit]: nodes that received different commitments in one round.
      [Lifecycle]: [Start], and everything a node does, in any order, as a step relation with a
      history.
    - [Handlers]: the node-to-node endpoints of [handlers.go]; [Secrets]: [/secrets],
      [/app/sign] and the replay cache of [server.go]; [Router]: the routes of [server.go] with
      their limits, and requests in flight.

    Around the node:
    - [Attestation]: the manager, the challenge-response and the token methods; [Tpm]: the TPM
      method; [Base64], [InitData] and [Snp]: the [eigenx-snp] method, its document and its
      evidence; [SnpSecrets] joins it to [/secrets].
    - [Encryption]: [rsa.go]; [Client]: [kmsClient/client.go].
    - [Evidence], [EnvCache], [Helper]: the guest's side, [cmd/kmsCDHHelper]: the evidence it
      makes of the agent's, the cache of the environment, and a whole run.
    - [Transport]: the HTTP client of a node and its signers; [ContractCaller]: the contract
      caller; [Peering]: the sources of the operator set; [Config]: configuration, from the flags to what the server makes of them.
    - [ChainFeed]: the channels between the chain poller and the node, and the adapter that
      keeps the poller's cursor in the node's store; [PlatformClient]; [Web3Client]: the remote
      signer's client; [TxSigner]: the two transaction signers; [Registration]:
      [internal/operator] and [cmd/registerOperator]; [Cli]: [cmd/kmsClient]; [KeyGen]: the key
      generators of [internal/keyGenerator], local and of AWS KMS.
    - [ServerMain]: [cmd/kmsServer], from the flags to a node that answers; [FakeKms]:
      [cmd/fakeKMS], the server of one process that stands in for a cluster.

    Definitions have the names of the source.  Where two packages use one name, the files
    are separate and a prefix tells which is meant ([bls_ScalarMulG1], [client_Encrypt]).

    ** How the program is modelled

    A Go function returning a value and an error is a function into [res]; the payload of
    [Err] is the format string of the message.  A method of the node is a function in the
    monad [M] of [NodeCore]: it threads the state, and what it changed before an error stays
    changed.  The mutexes make methods atomic, so what happens while a run waits is a batch
    of events, an argument of the run; the theorems hold for all batches.  Clocks,
    randomness, the answers of peers and of the chain, and the iteration order of maps where
    it shows are arguments too.  Integers are [Z]; conversions that wrap are written
    ([uint64], [int64], [put_uint64]); theorems that need a width say so.  Pointers are
    modelled where aliasing shows: the key store's versions.

    Code that is not in the repository is a parameter with laws that state its documented
    behaviour: the curve library ([GnarkLaws]), HKDF and AES-GCM ([SymLaws]), ECDSA and JWT
    libraries, RSA and X.509, the Merkle tree library, the signature schemes of the
    acknowledgements, JSON, TOML and gzip, the databases, the verifiers of hardware reports, the
    contract bindings.  Every class of laws has an instance that is used
    by the witnesses, so no theorem holds for want of a model.

    ** What the theorems show

    - The key survives: the shares of a key generation recover the key of the committed
      polynomials ([dkg_end_to_end]); a reshare keeps it ([reshare_preserves_secret]), the check
      of the master key accepts exactly that ([validate_reshare_mpk]), and the nodes that
      finish a round on one dealer set hold shares of one polynomial through the old key
      ([cluster_reshare_recovers]).  It takes as many shares as the longest commitment vector
      has entries, and the code does not check that this is the threshold.
    - A run changes a node only by committing: [run_dkg], [run_reshare_existing],
      [run_reshare_new] say what the key store, the persistence and the counters are after
      every outcome, errors included; and over a whole life, with runs, messages, crashes and
      restarts in any order, every version descends from what the scheduler started
      ([every_version_descends]).
    - Nodes agree: on the operators ([same_operators]) and on the dealers
      ([dealer_set_agreement], with the block search behind it, [first_block_search]); the
      source versions are those on the chain ([source_version_binding],
      [select_majority_source_version]).
    - Messages bind: an accepted acknowledgement, share, broadcast or master key is what its
      signer, its commitments or its voters made it ([verified_ack_binds],
      [fetched_share_sound], [mpk_vote_unique]); the endpoints cause the events the runs
      assume and no others ([endpoints_refine_events]); the first message of a sender wins
      ([session_first_write_wins]).
    - The state is consistent: [keystore_flag_invariant], [keystore_refuses_poisoned],
      [rollback_heals_or_halts], [restore_state]; the Badger store behaves as the in-memory one
      through every program and restart ([badger_refines_memory]), and so does the Redis store
      when its pipelines are not torn ([redis_refines_memory]).
    - A server starts from what validation accepts ([validated_config], [server_start_safe]), and
      is then the one of its flags ([server_as_configured], [running_server_releases]);
      whatever the interleaving of its requests, the router lets no more through than its limits
      say, and what it lets through are steps of the endpoints ([router_limits]).
    - Secrets are released when the attestation and the authorisation allow it and only
      then ([secrets_released_when_authorised], [jti_single_use], [gcp_attestation_sound],
      [ecdsa_attestation_sound], [snp_secrets_released], [tpm_secrets_released]); SEV-SNP
      evidence is good for one key and one document ([snp_evidence_binds]), and the document
      names the image ([init_data_reference]); where the platform decides, it was asked under the
      node's name at the address the chain gives ([platform_authorisation_asked]).  The stand-in
      server answers what a real server with its share answers ([fake_stands_in],
      [fake_jti_once]), and its commands and the client meet ([fake_seals_and_opens]).
    - Keys and signatures are what they should be: [signatures_unique], [aggregate_verifies],
      [point_encodings], [secret_recovered]; a signature of AWS KMS becomes one of Ethereum
      ([kms_signature]), a local key signs under its identifier ([loaded_key_signs],
      [unprefixed_key]).
    - The guest and the server fit: evidence that the helper makes is accepted
      ([helper_evidence_accepted], [tcb_packing]); the measured document and not the caller
      decides where the helper goes ([init_data_decides]), the root key is checked and not stored
      ([root_key_checked]), one attestation serves a boot ([one_attestation], [env_cache]), and what
      was sealed for the stack is what the workload reads ([sealed_env_opened]).
    - What is sent arrives as the sender's ([signers_accepted], [share_delivered],
      [broadcast_proofs]); what is read of the chain is what it holds ([latest_release_served],
      [peers_are_members]); every block of the poller is delivered once, in order, or counted
      ([feed_delivers]), and its cursor survives in the store ([adapter_cursor]).
    - Transactions are the ones asked for, as far as the theorems say
      ([private_key_transaction], [remote_signer_transaction]); the remote signer's answers are
      taken as they come ([signature_answered], [request_ids_increase], [key_wait],
      [tls_as_configured]); an operator joins its sets after its keys are registered and with
      signatures over what the chain asks ([keys_then_operator], [registration_command]).
    - The client gets what it asked for: recovery tolerates invalid signatures
      ([recover_with_retry_correct], [client_decrypts]), the master key is the one a threshold
      reports ([master_key_agreement]), encryption is undone by any threshold of shares
      ([threshold_decryption]), and what is returned was checked as far as it says
      ([retrieved_secrets_checked]); on the command line too ([commands_meet]), whose files are
      the owner's alone ([secret_file_private], [prepared_path]).
    - Where the code does otherwise than its comments say, a theorem shows it:
      [received_commitments_split_the_dealers], [ecdsa_attestation_replays],
      [broadcast_marks_acknowledged], [master_key_fallback], [torn_save], [last_reference_wins],
      [signing_unchecked], [admin_never_accepted], [body_limit_below_fields], [seed_keys],
      [late_goroutine_replaces_the_key].

    ** Bounds and fuel

    The loops of the source that are not structural carry fuel, and a lemma shows that it
    suffices: [gcd_loop] runs at most [|b| + 1] rounds; the search for a valid subset visits
    the subsets in lexicographic order and stops at the limit of 1000 attempts, which is the
    program's own ([DefaultMaxRecoveryAttempts]); [poll] has one round for every second to its
    deadline ([poll_total]); [search_block] has 64 rounds for a 64-bit range
    ([first_block_search]); printing has 20 digits, enough for 64 bits; trimming and skipping
    of spaces, the repair of UTF-8 and the search for an image reference have one round for
    every character.  The retries of a share fetch and of a submission (three) and of a post
    (five) are the program's own.

    ** Not modelled

    - Generated code, contract bindings and mocks; the developers' tools ([hack],
      [cmd/debugAvsOperators]), test helpers and examples, and the loading of the AWS
      configuration; logging and metrics.
    - HTTP itself: requests are answers of peers, handlers take decoded bodies, a body longer
      than its limit is an unreadable one; the timeouts of the HTTP server are left out.
    - The verifiers of hardware reports, the Ethereum client, gRPC and TLS, which are outside the
      repository.
    - Timing: a wait that runs into its timeout is its test failing; what happens while it
      waits is any batch of events.  Data races outside the mutexes are not modelled. *)

From stdpp Require Export base list gmap strings sorting.
From Stdlib Require Export ZArith Lia.
#[global] Open Scope Z_scope.

(** ** Go results

    A Go function returning [(T, error)] is a function into [res T].  The payload
    of [Err] is the format string of the [fmt.Errorf] call without its arguments;
    [%w] wrapping is [wrap]. *)

Inductive res (A : Type) : Type :=
| Ok (a : A)
| Err (e : string).
Arguments Ok {A} a.
Arguments Err {A} e.

#[export] Instance res_eq_dec {A} `{EqDecision A} : EqDecision (res A).
Proof. solve_decision. Defined.

#[export] Instance res_ret : MRet res := fun A a => Ok a.
#[export] Instance res_bind : MBind res := fun A B f m =>
  match m with Ok a => f a | Err e => Err e end.
#[export] Instance res_fmap : FMap res := fun A B f m =>
  match m with Ok a => Ok (f a) | Err e => Err e end.

(** [fmt.Errorf("msg: %w", err)] around a failing call. *)
Definition wrap {A} (msg : string) (m : res A) : res A :=
  match m with Ok a => Ok a | Err e => Err (msg +:+ ": " +:+ e) end.

Definition is_ok {A} (m : res A) : bool := match m with Ok _ => true | Err _ => false end.

(** [v, ok := ...; if !ok { return err }]. *)
Definition from_opt {A} (msg : string) (o : option A) : res A :=
  match o with Some a => Ok a | None => Err msg end.

(** [if cond { return err }]. *)
Definition fail_if (b : bool) (msg : string) : res unit := if b then Err msg else Ok tt.

Lemma res_bind_ok {A B} (m : res A) (f : A -> res B) b :
  (m ≫= f) = Ok b <-> exists a, m = Ok a /\ f a = Ok b.
Proof.
  destruct m as [a|e]; simpl; split.
  - eauto.
  - by intros (? & [=->] & ?).
  - done.
  - by intros (? & ? & ?).
Qed.

Lemma res_bind_err {A B} (m : res A) (f : A -> res B) e :
  (m ≫= f) = Err e <-> m = Err e \/ exists a, m = Ok a /\ f a = Err e.
Proof.
  destruct m as [a|e']; simpl; split.
  - eauto.
  - intros [H|(x & H & H')]; [discriminate|congruence].
  - intros [= ->]. auto.
  - intros [H|(x & H & H')]; [congruence|discriminate].
Qed.

Lemma wrap_ok {A} msg (m : res A) a : wrap msg m = Ok a <-> m = Ok a.
Proof. destruct m; simpl; split; congruence. Qed.

Lemma fail_if_ok b msg u : fail_if b msg = Ok u <-> b = false.
Proof. destruct b, u; simpl; split; congruence. Qed.

Lemma fail_if_bind {A} (b : bool) msg (k : res A) a : (fail_if b msg ≫= fun _ => k) = Ok a <-> b = false /\ k = Ok a.
Proof. destruct b; cbn; split; [done|by intros []|done|by intros []]. Qed.

Lemma from_opt_ok {A} msg (o : option A) a : from_opt msg o = Ok a <-> o = Some a.
Proof. destruct o; simpl; split; congruence. Qed.

(** [res_ok] opens every successful monadic step of the hypotheses. *)
Ltac res_ok :=
  repeat match goal with
  | H : (_ ≫= _) = Ok _ |- _ => apply res_bind_ok in H; destruct H as (? & ? & H)
  | H : wrap _ _ = Ok _ |- _ => apply wrap_ok in H
  | H : fail_if _ _ = Ok _ |- _ => apply fail_if_ok in H
  | H : from_opt _ _ = Ok _ |- _ => apply from_opt_ok in H
  | H : Ok _ = Ok _ |- _ => injection H as H; try subst
  | H : Err _ = Ok _ |- _ => discriminate H
  | H : mret _ = Ok _ |- _ => injection H as H; try subst
  end.

(** [for_each f l s] is a [for range] loop whose body updates [s] and may return
    early with an error. *)
Fixpoint for_each {A S} (f : A -> S -> res S) (l : list A) (s : S) : res S :=
  match l with
  | [] => Ok s
  | x :: l => f x s ≫= for_each f l
  end.

Lemma for_each_app {A S} (f : A -> S -> res S) l1 l2 s :
  for_each f (l1 ++ l2) s = for_each f l1 s ≫= for_each f l2.
Proof.
  revert s. induction l1 as [|x l1 IH]; intros s; simpl; [done|].
  destruct (f x s); simpl; [apply IH|done].
Qed.

Lemma for_each_inv {A S} (P : S -> Prop) (f : A -> S -> res S) l s s' :
  (forall x s s', x ∈ l -> P s -> f x s = Ok s' -> P s') -> P s -> for_each f l s = Ok s' -> P s'.
Proof.
  revert s. induction l as [|x l IH]; intros s Hf Hs; simpl; [congruence|].
  intros (s1 & H1 & H2)%res_bind_ok. eapply (IH s1); eauto using list_elem_of_here, list_elem_of_further.
Qed.

(** Pure [for range] accumulation, in iteration order. *)
Definition for_acc {A S} (f : A -> S -> S) (l : list A) (s : S) : S :=
  foldl (fun s x => f x s) s l.

(** A loop of map assignments. *)
Lemma lookup_foldl_insert {V} (f : Z -> V) l (m : gmap Z V) b :
  foldl (fun m a => <[a := f a]> m) m l !! b = if decide (b ∈ l) then Some (f b) else m !! b.
Proof.
  revert m. induction l as [|a l IH]; intros m; [done|]. cbn [foldl]. rewrite IH.
  destruct (decide (b ∈ l)), (decide (b ∈ a :: l)); try done.
  - by destruct n; right.
  - assert (b = a) as -> by (by apply elem_of_cons in e as []). by rewrite lookup_insert_eq.
  - rewrite lookup_insert_ne; [done|]. intros ->. by destruct n0; left.
Qed.

(** Filtering what is all kept, or all dropped. *)
Lemma filter_all {A} (P : A -> Prop) `{forall x, Decision (P x)} l : Forall P l -> filter P l = l.
Proof. induction 1 as [|x l Hx _ IH]; [done|]. by rewrite filter_cons_True, IH. Qed.
Lemma filter_none {A} (P : A -> Prop) `{forall x, Decision (P x)} l : Forall (fun x => ~ P x) l -> filter P l = [].
Proof. induction 1 as [|x l Hx _ IH]; [done|]. by rewrite filter_cons_False. Qed.

(** The keys of a map, in the iteration order of [map_to_list]. *)
Lemma elem_of_keys {V} (m : gmap Z V) a : a ∈ (map_to_list m).*1 <-> is_Some (m !! a).
Proof.
  rewrite list_elem_of_fmap. split.
  - intros ([b v] & -> & Hv). apply elem_of_map_to_list in Hv. eauto.
  - intros [v Hv]. exists (a, v). split; [done|]. by apply elem_of_map_to_list.
Qed.

Lemma keys_permutation {V} (m : gmap Z V) l :
  NoDup l -> (forall a, is_Some (m !! a) <-> a ∈ l) -> (map_to_list m).*1 ≡ₚ l.
Proof.
  intros Hnd Hm. apply NoDup_Permutation; [apply NoDup_fst_map_to_list|done|].
  intros a. by rewrite elem_of_keys, Hm.
Qed.

Lemma keys_same_dom {V W} (m : gmap Z V) (m' : gmap Z W) :
  (forall a, is_Some (m !! a) <-> is_Some (m' !! a)) -> (map_to_list m).*1 ≡ₚ (map_to_list m').*1.
Proof.
  intros Hm. apply keys_permutation; [apply NoDup_fst_map_to_list|].
  intros a. by rewrite elem_of_keys.
Qed.

Lemma values_of_keys {V} (d : V) (m : gmap Z V) :
  (map_to_list m).*2 = (fun a => default d (m !! a)) <$> (map_to_list m).*1.
Proof.
  rewrite <- list_fmap_compose. apply list_fmap_ext. intros i [a v] Hi.
  apply list_elem_of_lookup_2, elem_of_map_to_list in Hi. simpl. by rewrite Hi.
Qed.

(** Choice over the elements of a list. *)
Lemma list_choice {B} (b0 : B) (R : Z -> B -> Prop) (l : list Z) :
  (forall a, a ∈ l -> exists b, R a b) -> exists f, forall a, a ∈ l -> R a (f a).
Proof.
  induction l as [|a l IH]; intros Hl.
  - exists (fun _ => b0). by intros ? ?%not_elem_of_nil.
  - destruct IH as [f Hf]; [intros; apply Hl; by right|].
    destruct (Hl a) as [b Hb]; [by left|].
    exists (fun x => if decide (x = a) then b else f x). intros x Hx.
    case_decide as Hxa; [by subst|]. apply Hf. by apply elem_of_cons in Hx as [|].
Qed.

(** A pointer dereference of a value known to be non-nil by construction. *)
Definition opt_or {A} (d : A) (o : option A) : A := default d o.

(** ** Machine integers *)

Definition uint64 (z : Z) : Z := z mod 2 ^ 64.
Definition int64 (z : Z) : Z := let u := z mod 2 ^ 64 in if u <? 2 ^ 63 then u else u - 2 ^ 64.
Definition is_int64 (z : Z) : Prop := - 2 ^ 63 <= z < 2 ^ 63.
Definition is_uint64 (z : Z) : Prop := 0 <= z < 2 ^ 64.

Lemma uint64_small z : is_uint64 z -> uint64 z = z.
Proof. unfold is_uint64, uint64. intros Hz. by apply Z.mod_small. Qed.

Lemma int64_id z : is_int64 z -> int64 z = z.
Proof.
  unfold is_int64, int64. intros Hz. destruct (Z_lt_dec z 0).
  - replace (z mod 2 ^ 64) with (z + 2 ^ 64).
    + destruct (Z.ltb_spec (z + 2 ^ 64) (2 ^ 63)); lia.
    + apply Z.mod_unique with (-1); lia.
  - rewrite Z.mod_small by lia. destruct (Z.ltb_spec z (2 ^ 63)); lia.
Qed.

Lemma uint64_inj z z' : is_int64 z -> is_int64 z' -> uint64 z = uint64 z' -> z = z'.
Proof.
  intros H H' Heq. rewrite <- (int64_id z), <- (int64_id z') by done.
  unfold int64. unfold uint64 in Heq. by rewrite Heq.
Qed.

(** Closes a decidable closed goal by evaluation. *)
Ltac by_compute := refine (@bool_decide_unpack _ _ _); vm_compute; exact I.

(** Splits a lookup in a literal map into its entries. *)
Ltac map_cases H :=
  first [ apply lookup_insert_Some in H; destruct H as [[<- <-]|[_ H]]; [|map_cases H]
        | rewrite lookup_empty in H; discriminate H ].
