(* ===== verification/Bytes.v ===== *)
(** * Bytes, fixed-width encodings, addresses and [sort.Slice]

    Byte strings are lists of integers in [0, 255].  [be_bytes n z] is the [n]-byte
    big-endian encoding ([binary.BigEndian.PutUint64] is [be_bytes 8] of the
    [uint64] conversion, [fr.Element.Bytes] is [be_bytes 32]).  A [common.Address]
    is its 160-bit integer; [addr_bytes] is its [Bytes()] method.  [go_sort] models
    [sort.Slice] with a [less] callback. *)

From S2P Require Import Prelude.

Notation bytes := (list Z) (only parsing).
Notation Address := Z (only parsing).

Fixpoint be_bytes (n : nat) (z : Z) : bytes :=
  match n with
  | O => []
  | S n => (z / 256 ^ Z.of_nat n) mod 256 :: be_bytes n z
  end.

Definition be_val (l : bytes) : Z := foldl (fun acc b => acc * 256 + b) 0 l.

Definition put_uint64 (z : Z) : bytes := be_bytes 8 (uint64 z).

Definition addr_bytes (a : Address) : bytes := be_bytes 20 a.
Definition valid_addr (a : Address) : Prop := 0 <= a < 2 ^ 160.

Lemma length_be_bytes n z : length (be_bytes n z) = n.
Proof. induction n; simpl; congruence. Qed.

Lemma length_addr_bytes a : length (addr_bytes a) = 20%nat.
Proof. apply length_be_bytes. Qed.

Lemma length_put_uint64 z : length (put_uint64 z) = 8%nat.
Proof. apply length_be_bytes. Qed.

Lemma be_val_acc l acc : foldl (fun acc b => acc * 256 + b) acc l = acc * 256 ^ Z.of_nat (length l) + be_val l.
Proof.
  unfold be_val. revert acc. induction l as [|b l IH]; intros acc; [simpl; lia|].
  cbn [foldl length]. rewrite IH, (IH (0 * 256 + b)).
  rewrite Nat2Z.inj_succ, Z.pow_succ_r by lia. ring.
Qed.

Lemma be_val_cons b l : be_val (b :: l) = b * 256 ^ Z.of_nat (length l) + be_val l.
Proof. unfold be_val. cbn [foldl]. by rewrite be_val_acc. Qed.

(** Decoding an encoding gives the value reduced to the width. *)
Lemma be_val_be_bytes n z : be_val (be_bytes n z) = z mod 256 ^ Z.of_nat n.
Proof.
  induction n as [|n IH]; [by rewrite Z.mod_1_r|].
  cbn [be_bytes]. rewrite be_val_cons, IH, length_be_bytes.
  rewrite Nat2Z.inj_succ, Z.pow_succ_r by lia.
  assert (Hp : 0 < 256 ^ Z.of_nat n) by lia.
  rewrite (Z.mul_comm 256), Z.rem_mul_r by lia. ring.
Qed.

Lemma be_bytes_inj n z z' :
  0 <= z < 256 ^ Z.of_nat n -> 0 <= z' < 256 ^ Z.of_nat n -> be_bytes n z = be_bytes n z' -> z = z'.
Proof.
  intros H H' Heq. rewrite <- (Z.mod_small z (256 ^ Z.of_nat n)), <- (Z.mod_small z' (256 ^ Z.of_nat n)) by lia.
  rewrite <- !be_val_be_bytes. by rewrite Heq.
Qed.

Lemma addr_bytes_inj a a' : valid_addr a -> valid_addr a' -> addr_bytes a = addr_bytes a' -> a = a'.
Proof. intros H H'. by apply be_bytes_inj. Qed.

Lemma put_uint64_inj z z' : is_int64 z -> is_int64 z' -> put_uint64 z = put_uint64 z' -> z = z'.
Proof.
  intros H H' Heq. apply uint64_inj; [done..|].
  eapply be_bytes_inj; [| |exact Heq]; apply Z.mod_pos_bound; done.
Qed.

(** Two concatenations whose heads have the same length split. *)
Lemma app_inj_len {A} (l1 l2 k1 k2 : list A) :
  length l1 = length l2 -> l1 ++ k1 = l2 ++ k2 -> l1 = l2 /\ k1 = k2.
Proof. intros. by apply app_inj_1. Qed.

(** ** Lexicographic comparison: [bytes.Compare(a, b) < 0] on equal lengths *)

Fixpoint bytes_ltb (a b : bytes) : bool :=
  match a, b with
  | [], [] => false
  | [], _ :: _ => true
  | _ :: _, [] => false
  | x :: a, y :: b => if x =? y then bytes_ltb a b else x <? y
  end.

(** On encodings of one width the comparison is the numeric one. *)
Lemma bytes_ltb_be_bytes n x y :
  bytes_ltb (be_bytes n x) (be_bytes n y) = (x mod 256 ^ Z.of_nat n <? y mod 256 ^ Z.of_nat n).
Proof.
  induction n as [|n IH]; [by rewrite !Z.mod_1_r|].
  cbn [be_bytes bytes_ltb]. rewrite IH.
  rewrite Nat2Z.inj_succ, Z.pow_succ_r, (Z.mul_comm 256), !Z.rem_mul_r by lia.
  set (P := 256 ^ Z.of_nat n). assert (HP : 0 < P) by (subst P; lia).
  pose proof (Z.mod_pos_bound x P HP). pose proof (Z.mod_pos_bound y P HP).
  destruct (Z.eqb_spec ((x / P) mod 256) ((y / P) mod 256)) as [->|Hne].
  - destruct (Z.ltb_spec (x mod P) (y mod P)); symmetry; [apply Z.ltb_lt|apply Z.ltb_ge]; lia.
  - destruct (Z.ltb_spec ((x / P) mod 256) ((y / P) mod 256)); symmetry;
      [apply Z.ltb_lt|apply Z.ltb_ge]; nia.
Qed.

Definition addr_ltb (a b : Address) : bool := bytes_ltb (addr_bytes a) (addr_bytes b).

Lemma addr_ltb_lt a b : valid_addr a -> valid_addr b -> addr_ltb a b = (a <? b).
Proof.
  unfold valid_addr. intros Ha Hb. unfold addr_ltb, addr_bytes.
  rewrite bytes_ltb_be_bytes. by rewrite !Z.mod_small.
Qed.

(** ** [sort.Slice] *)

Definition go_le {A} (less : A -> A -> bool) (a b : A) : Prop := negb (less b a) = true.

#[export] Instance go_le_dec {A} (less : A -> A -> bool) : RelDecision (go_le less).
Proof. intros a b. unfold go_le. apply _. Defined.

Definition go_sort {A} (less : A -> A -> bool) (l : list A) : list A :=
  merge_sort (go_le less) l.

Lemma go_sort_perm {A} (less : A -> A -> bool) l : go_sort less l ≡ₚ l.
Proof. apply merge_sort_Permutation. Qed.

Lemma go_sort_length {A} (less : A -> A -> bool) l : length (go_sort less l) = length l.
Proof. by rewrite go_sort_perm. Qed.

(** Addresses sorted by their bytes: the order every node computes. *)
Definition sort_addrs (l : list Address) : list Address := go_sort addr_ltb l.

Notation addr_le := (go_le addr_ltb) (only parsing).

Lemma addr_le_mod a b : addr_le a b <-> a mod 256 ^ 20 <= b mod 256 ^ 20.
Proof.
  unfold go_le, addr_ltb, addr_bytes. rewrite bytes_ltb_be_bytes.
  change (Z.of_nat 20) with 20. rewrite negb_true_iff, Z.ltb_ge. done.
Qed.

#[export] Instance addr_le_total : Total addr_le.
Proof. intros a b. rewrite !addr_le_mod. lia. Qed.

#[export] Instance addr_le_trans : Transitive addr_le.
Proof. intros a b c. rewrite !addr_le_mod. lia. Qed.

Lemma sort_addrs_perm l : sort_addrs l ≡ₚ l.
Proof. apply go_sort_perm. Qed.

Lemma sort_addrs_sorted l : StronglySorted addr_le (sort_addrs l).
Proof. apply (StronglySorted_merge_sort addr_le). Qed.

(** Whatever order the map iteration produced, the sorted list is the same. *)
Lemma sort_addrs_unique l l' :
  Forall valid_addr l -> l ≡ₚ l' -> sort_addrs l = sort_addrs l'.
Proof.
  intros Hv Hp.
  assert (Hin : forall x, x ∈ sort_addrs l -> valid_addr x).
  { intros x Hx. rewrite sort_addrs_perm in Hx. by eapply Forall_forall in Hv. }
  apply (StronglySorted_unique_strong addr_le).
  - intros x y Hx Hy. rewrite sort_addrs_perm in Hy. rewrite <- Hp in Hy.
    apply Hin in Hx. eapply Forall_forall in Hv; [|exact Hy].
    unfold valid_addr in *. rewrite !addr_le_mod, !Z.mod_small by lia. lia.
  - apply sort_addrs_sorted.
  - apply sort_addrs_sorted.
  - by rewrite !sort_addrs_perm.
Qed.

(** The same for records sorted by an address, one record per address. *)
Lemma go_sort_by_addr_unique {A} (key : A -> Address) (l l' : list A) :
  Forall valid_addr (key <$> l) -> NoDup (key <$> l) -> l ≡ₚ l' ->
  go_sort (fun a b => addr_ltb (key a) (key b)) l = go_sort (fun a b => addr_ltb (key a) (key b)) l'.
Proof.
  intros Hv Hnd Hp. set (less := fun a b => addr_ltb (key a) (key b)).
  assert (Hle : forall a b, go_le less a b <-> addr_le (key a) (key b)) by done.
  assert (Htot : Total (go_le less)) by (intros a b; rewrite !Hle; apply addr_le_total).
  assert (Htr : Transitive (go_le less)) by (intros a b c; rewrite !Hle; apply addr_le_trans).
  apply (StronglySorted_unique_strong (go_le less)).
  - intros a b Ha Hb. rewrite go_sort_perm in Ha, Hb.
    rewrite <- Hp in Hb. rewrite !Hle, !addr_le_mod.
    rewrite Forall_fmap, Forall_forall in Hv. pose proof (Hv a Ha) as Va. pose proof (Hv b Hb) as Vb.
    simpl in Va, Vb. unfold valid_addr in *. rewrite !Z.mod_small by lia. intros Hab Hba.
    assert (Heq : key a = key b) by lia.
    apply list_elem_of_lookup_1 in Ha as [i Hi], Hb as [j Hj].
    assert (i = j); [|congruence].
    eapply NoDup_lookup; [exact Hnd| |]; rewrite list_lookup_fmap; [by rewrite Hi|rewrite Hj; simpl; congruence].
  - by apply StronglySorted_merge_sort.
  - by apply StronglySorted_merge_sort.
  - by rewrite !go_sort_perm.
Qed.
