(* ===== verification/Primality.v ===== *)
(** * Primality of the BLS12-381 scalar-field modulus

    The scalars the program computes with ([fr.Element] of gnark-crypto) are the
    integers modulo the order [r] of the BLS12-381 groups.  Everything the
    protocol does with shares (Lagrange interpolation, the inverse of a
    denominator) needs that ring to be a field, so this file proves that [r] is
    prime: Pocklington's criterion with base 5 and the factored part
    [2^32 * 906349^2 * 254760293^2] of [r - 1].  It is plain number theory and
    models no source line; [Fr.v] builds the concrete field from it. *)

From Stdlib Require Import ZArith Znumtheory Zpow_facts Lia Bool List Permutation FinFun.
Import ListNotations.
Local Open Scope Z_scope.

(** ** Products and Fermat's little theorem *)

Definition zprod (l : list Z) : Z := fold_right Z.mul 1 l.

Lemma zprod_permutation (l l' : list Z) : Permutation l l' -> zprod l = zprod l'.
Proof. induction 1; simpl; lia. Qed.

Lemma zprod_map_mul (a p : Z) (l : list Z) :
  zprod (map (fun x => a * x mod p) l) mod p = a ^ Z.of_nat (length l) * zprod l mod p.
Proof.
  induction l as [|x l IH]; [reflexivity|].
  cbn [map zprod fold_right length]. fold (zprod l) (zprod (map (fun x => a * x mod p) l)).
  rewrite Nat2Z.inj_succ, Z.pow_succ_r by lia.
  rewrite Zmult_mod, IH, Zmod_mod, <- Zmult_mod.
  f_equal. ring.
Qed.

Lemma prime_not_divide_zprod (p : Z) (l : list Z) :
  prime p -> Forall (fun x => ~ (p | x)) l -> ~ (p | zprod l).
Proof.
  intros Hp. induction 1 as [|x l Hx _ IH]; simpl.
  - intros H1. apply Z.divide_1_r_nonneg in H1; [|destruct Hp; lia].
    destruct Hp; lia.
  - intros [H|H]%prime_mult; tauto.
Qed.

Lemma mod_eq_divide_sub (p a b : Z) : p <> 0 -> a mod p = b mod p <-> (p | a - b).
Proof.
  intros Hp. split; intros H.
  - apply Zmod_divide; [assumption|].
    rewrite Zminus_mod, H, Z.sub_diag. apply Zmod_0_l.
  - destruct H as [k Hk]. replace a with (b + k * p) by lia. apply Z_mod_plus_full.
Qed.

(** The non-zero residues modulo [p]. *)
Definition residues (p : Z) : list Z := map Z.of_nat (seq 1 (Z.to_nat (p - 1))).

Lemma in_residues (p x : Z) : 1 <= p -> In x (residues p) <-> 1 <= x < p.
Proof.
  intros Hp. unfold residues. rewrite in_map_iff. split.
  - intros (n & <- & Hn). apply in_seq in Hn. lia.
  - intros Hx. exists (Z.to_nat x). split; [lia|]. apply in_seq. lia.
Qed.

Lemma residues_not_divide (p x : Z) : 1 <= p -> In x (residues p) -> ~ (p | x).
Proof.
  intros Hp Hx%in_residues; [|assumption]. intros Hd.
  apply Z.divide_pos_le in Hd; lia.
Qed.

Lemma NoDup_residues (p : Z) : NoDup (residues p).
Proof. apply Injective_map_NoDup; [exact Nat2Z.inj|apply seq_NoDup]. Qed.

Lemma NoDup_map_in {A B} (f : A -> B) (l : list A) :
  (forall x y, In x l -> In y l -> f x = f y -> x = y) -> NoDup l -> NoDup (map f l).
Proof.
  intros Hf Hl. induction Hl as [|x l Hx Hl IH]; simpl; constructor.
  - rewrite in_map_iff. intros (y & Hy & Hin).
    assert (y = x) by (apply Hf; simpl; auto). congruence.
  - apply IH. intros u v Hu Hv. apply Hf; simpl; auto.
Qed.

Lemma residues_mul_permutation (p a : Z) :
  prime p -> ~ (p | a) -> Permutation (map (fun x => a * x mod p) (residues p)) (residues p).
Proof.
  intros Hp Ha. pose proof (prime_ge_2 p Hp) as Hp2.
  apply NoDup_Permutation_bis.
  - apply NoDup_map_in; [|apply NoDup_residues].
    intros x y Hx%in_residues Hy%in_residues Hxy; try lia.
    apply mod_eq_divide_sub in Hxy; [|lia].
    rewrite <- Z.mul_sub_distr_l in Hxy. apply prime_mult in Hxy; [|assumption].
    destruct Hxy as [|Hxy]; [tauto|].
    apply mod_eq_divide_sub in Hxy; [|lia]. now rewrite !Z.mod_small in Hxy by lia.
  - now rewrite length_map.
  - intros y Hy. apply in_map_iff in Hy as (x & <- & Hx).
    apply in_residues; [lia|]. pose proof (Z.mod_pos_bound (a * x) p ltac:(lia)).
    assert (a * x mod p <> 0); [|lia].
    intros H0. apply Zmod_divide in H0; [|lia].
    apply prime_mult in H0 as [?|Hd]; [tauto| |assumption].
    revert Hd. apply residues_not_divide; [lia|assumption].
Qed.

Lemma fermat_little (p a : Z) : prime p -> ~ (p | a) -> a ^ (p - 1) mod p = 1.
Proof.
  intros Hp Ha. pose proof (prime_ge_2 p Hp) as Hp2.
  pose proof (zprod_map_mul a p (residues p)) as H.
  rewrite (zprod_permutation _ _ (residues_mul_permutation p a Hp Ha)) in H.
  unfold residues in H at 2. rewrite length_map, length_seq, Z2Nat.id in H by lia.
  apply mod_eq_divide_sub in H; [|lia].
  replace (zprod (residues p) - a ^ (p - 1) * zprod (residues p))
    with ((1 - a ^ (p - 1)) * zprod (residues p)) in H by ring.
  apply prime_mult in H as [H|H]; [| |assumption].
  - apply mod_eq_divide_sub in H; [|lia]. rewrite <- H. apply Z.mod_small. lia.
  - exfalso. revert H. apply prime_not_divide_zprod; [assumption|].
    apply Forall_forall. intros x. apply residues_not_divide. lia.
Qed.

(** ** Exponents at which a power is 1 are closed under gcd *)

Lemma pow_sub_mod_1 (p a i j : Z) :
  prime p -> ~ (p | a) -> 0 <= j <= i ->
  a ^ i mod p = 1 -> a ^ j mod p = 1 -> a ^ (i - j) mod p = 1.
Proof.
  intros Hp Ha Hij Hi Hj. pose proof (prime_ge_2 p Hp).
  replace i with ((i - j) + j) in Hi by lia.
  rewrite Z.pow_add_r, Zmult_mod, Hj, Z.mul_1_r, Zmod_mod in Hi by lia. exact Hi.
Qed.

Lemma pow_gcd_mod_1 (p a : Z) :
  prime p -> ~ (p | a) ->
  forall i j, 0 <= i -> 0 <= j -> a ^ i mod p = 1 -> a ^ j mod p = 1 ->
  a ^ Z.gcd i j mod p = 1.
Proof.
  intros Hp Ha i j Hi Hj.
  remember (Z.to_nat (i + j)) as n eqn:Hn. revert i j Hi Hj Hn.
  induction n as [n IH] using lt_wf_ind. intros i j Hi Hj -> Pi Pj.
  destruct (Z.eq_dec i 0) as [->|Hi0]; [now rewrite Z.gcd_0_l, Z.abs_eq|].
  destruct (Z.eq_dec j 0) as [->|Hj0]; [now rewrite Z.gcd_0_r, Z.abs_eq|].
  destruct (Z_le_gt_dec j i) as [Hle|Hgt].
  - rewrite Z.gcd_comm, <- Z.gcd_sub_diag_r.
    apply (IH (Z.to_nat (j + (i - j)))); [lia..|reflexivity|assumption|].
    apply pow_sub_mod_1; auto; lia.
  - rewrite <- Z.gcd_sub_diag_r.
    apply (IH (Z.to_nat (i + (j - i)))); [lia..|reflexivity|assumption|].
    apply pow_sub_mod_1; auto; lia.
Qed.

(** ** Trial division, for the small prime factors of [r - 1] *)

Lemma prime_divisor_exists (n : Z) : 1 < n -> exists p, prime p /\ (p | n).
Proof.
  intros Hn. remember (Z.to_nat n) as k eqn:Hk. revert n Hn Hk.
  induction k as [k IH] using lt_wf_ind. intros n Hn ->.
  destruct (prime_dec n) as [Hp|Hp]; [exists n; split; [assumption|apply Z.divide_refl]|].
  apply not_prime_divide in Hp as (d & Hd & Hdn); [|assumption].
  destruct (IH (Z.to_nat d)) with (n := d) as (p & Hp & Hpd); [lia..|].
  exists p. split; [assumption|]. now transitivity d.
Qed.

Lemma composite_small_prime_divisor (n : Z) :
  1 < n -> ~ prime n -> exists p, prime p /\ (p | n) /\ p * p <= n.
Proof.
  intros Hn Hnp. apply not_prime_divide in Hnp as (d & Hd & c & Hc); [|assumption].
  assert (1 < c) by nia.
  destruct (Z_le_gt_dec d c) as [Hle|Hgt].
  - destruct (prime_divisor_exists d) as (p & Hp & Hpd); [lia|].
    exists p. split; [assumption|]. split; [transitivity d; [assumption|now exists c]|].
    apply Z.divide_pos_le in Hpd; [|lia]. pose proof (prime_ge_2 p Hp). nia.
  - destruct (prime_divisor_exists c) as (p & Hp & Hpc); [lia|].
    exists p. split; [assumption|].
    split; [transitivity c; [assumption|exists d; lia]|].
    apply Z.divide_pos_le in Hpc; [|lia]. pose proof (prime_ge_2 p Hp). nia.
Qed.

(** [no_divisor_from d fuel n]: none of [d], [d+1], ..., [d+fuel-1] divides [n]. *)
Fixpoint no_divisor_from (d : Z) (fuel : nat) (n : Z) : bool :=
  match fuel with
  | O => true
  | S fuel => negb (n mod d =? 0) && no_divisor_from (d + 1) fuel n
  end.

Lemma no_divisor_from_spec (fuel : nat) (d n x : Z) :
  no_divisor_from d fuel n = true -> 0 < d -> d <= x < d + Z.of_nat fuel -> ~ (x | n).
Proof.
  revert d. induction fuel as [|fuel IH]; intros d Hc Hd Hx; [lia|].
  cbn [no_divisor_from] in Hc. apply andb_prop in Hc as [H0 Hc].
  destruct (Z.eq_dec x d) as [->|Hne].
  - intros Hdiv. apply Zdivide_mod in Hdiv. rewrite Hdiv in H0. discriminate.
  - apply (IH (d + 1)); [assumption|lia..].
Qed.

Lemma trial_division_prime (n : Z) (fuel : nat) :
  1 < n -> n < (Z.of_nat fuel + 2) * (Z.of_nat fuel + 2) ->
  no_divisor_from 2 fuel n = true -> prime n.
Proof.
  intros Hn Hf Hc. destruct (prime_dec n) as [|Hnp]; [assumption|exfalso].
  apply composite_small_prime_divisor in Hnp as (p & Hp & Hpn & Hpp); [|assumption].
  pose proof (prime_ge_2 p Hp).
  apply (no_divisor_from_spec fuel 2 n p); [assumption|lia|nia|assumption].
Qed.

(** ** Pocklington's criterion *)

Lemma divide_drop_prime_power (q m : Z) (e : nat) (d : Z) :
  prime q -> (d | q ^ Z.of_nat (S e) * m) -> ~ (q ^ Z.of_nat (S e) | d) ->
  (d | q ^ Z.of_nat e * m).
Proof.
  intros Hq. pose proof (prime_ge_2 q Hq). revert d.
  induction e as [|e IH]; intros d Hd Hn.
  - rewrite Z.pow_1_r in *. rewrite Z.pow_0_r, Z.mul_1_l.
    apply Gauss with q; [assumption|].
    apply rel_prime_sym, prime_rel_prime; assumption.
  - rewrite (Nat2Z.inj_succ (S e)), Z.pow_succ_r in Hd, Hn by lia.
    destruct (Zdivide_dec q d) as [[d' ->]|Hqd].
    + destruct (IH d') as [k Hk].
      * apply Z.mul_divide_cancel_r with q; [lia|].
        now replace (q ^ Z.of_nat (S e) * m * q) with (q * q ^ Z.of_nat (S e) * m) by ring.
      * intros Hc. apply Hn. rewrite (Z.mul_comm d'). now apply Z.mul_divide_mono_l.
      * exists k. rewrite Nat2Z.inj_succ, Z.pow_succ_r by lia.
        rewrite <- Z.mul_assoc, Hk. ring.
    + apply Gauss with q; [now rewrite Z.mul_assoc|].
      apply rel_prime_sym, prime_rel_prime; assumption.
Qed.

Lemma mod_1_of_divide (p n x : Z) : 1 < p -> (p | n) -> 1 < n -> x mod n = 1 -> x mod p = 1.
Proof.
  intros Hp Hpn Hn Hx. rewrite <- (Z.mod_small 1 p) by lia.
  apply mod_eq_divide_sub; [lia|]. transitivity n; [assumption|].
  apply mod_eq_divide_sub; [lia|]. now rewrite Hx, Z.mod_small by lia.
Qed.

Lemma pocklington_step (n a q m p : Z) (e : nat) :
  1 < n -> prime q -> n - 1 = q ^ Z.of_nat (S e) * m ->
  a ^ (n - 1) mod n = 1 -> Z.gcd (a ^ (q ^ Z.of_nat e * m) - 1) n = 1 ->
  prime p -> (p | n) -> (q ^ Z.of_nat (S e) | p - 1).
Proof.
  intros Hn Hq Hm Ha Hg Hp Hpn. pose proof (prime_ge_2 p Hp) as Hp2.
  pose proof (prime_ge_2 q Hq) as Hq2.
  assert (Hap : a ^ (n - 1) mod p = 1) by (apply (mod_1_of_divide p n); auto; lia).
  assert (Hna : ~ (p | a)).
  { intros Hd. assert (Hz : a ^ (n - 1) mod p = 0); [|lia].
    apply Zdivide_mod. replace (n - 1) with (Z.succ (n - 2)) by lia.
    rewrite Z.pow_succ_r by lia. now apply Z.divide_mul_l. }
  destruct (Zdivide_dec (q ^ Z.of_nat (S e)) (p - 1)) as [|Hnd]; [assumption|exfalso].
  pose proof (pow_gcd_mod_1 p a Hp Hna (p - 1) (n - 1) ltac:(lia) ltac:(lia)
                (fermat_little p a Hp Hna) Hap) as Hd.
  set (d := Z.gcd (p - 1) (n - 1)) in *.
  assert (Hdm : (d | q ^ Z.of_nat e * m)).
  { apply divide_drop_prime_power; [assumption| |].
    - rewrite <- Hm. apply Z.gcd_divide_r.
    - intros Hc. apply Hnd. transitivity d; [assumption|apply Z.gcd_divide_l]. }
  assert (Hone : a ^ (q ^ Z.of_nat e * m) mod p = 1).
  { destruct Hdm as [k Hk]. rewrite Hk.
    assert (0 < d) by (pose proof (Z.gcd_nonneg (p-1) (n-1)); 
      assert (d <> 0) by (intros H0; apply Z.gcd_eq_0_l in H0; lia); lia).
    assert (0 <= k).
    { assert (0 < q ^ Z.of_nat (S e)) by (apply Z.pow_pos_nonneg; lia).
      assert (0 < q ^ Z.of_nat e) by (apply Z.pow_pos_nonneg; lia).
      assert (0 < m) by nia. nia. }
    rewrite Z.mul_comm, Z.pow_mul_r, Zpower_mod, Hd, Z.pow_1_l by lia.
    apply Z.mod_small; lia. }
  assert (Hdiv : (p | 1)).
  { rewrite <- Hg. apply Z.gcd_greatest; [|assumption].
    apply mod_eq_divide_sub; [lia|]. rewrite Hone, Z.mod_small by lia. reflexivity. }
  apply Z.divide_1_r_nonneg in Hdiv; lia.
Qed.

(** ** The modulus *)

(** The order of the BLS12-381 groups: [fr.Modulus()] of gnark-crypto. *)
Definition fr_modulus : Z :=
  0x73eda753299d7d483339d80809a1d80553bda402fffe5bfeffffffff00000001.

(** The certificate, computed: with [c = a^((n-1)/(q1 q2 q3))], the three powers
    [c^(q2 q3)], [c^(q1 q3)], [c^(q1 q2)] are [a^((n-1)/q)] for each [q]; they minus 1
    are coprime to [n], and [a^(n-1) = 1].  One long exponentiation serves all. *)
Definition pocklington_cert (n a k q1 q2 q3 : Z) : bool :=
  let c := Zpow_mod a k n in
  let c1 := Zpow_mod c (q2 * q3) n in
  let c2 := Zpow_mod c (q1 * q3) n in
  let c3 := Zpow_mod c (q1 * q2) n in
  (k * (q1 * q2 * q3) =? n - 1) && (Zpow_mod c1 q1 n =? 1) &&
  (Z.gcd (c1 - 1) n =? 1) && (Z.gcd (c2 - 1) n =? 1) && (Z.gcd (c3 - 1) n =? 1).

Lemma gcd_mod_sub_1 (x n : Z) : n <> 0 -> Z.gcd (x mod n - 1) n = Z.gcd (x - 1) n.
Proof.
  intros Hn. rewrite (Z.gcd_comm _ n), (Z.gcd_comm (x - 1) n).
  replace (x - 1) with (x mod n - 1 + x / n * n).
  - now rewrite Z.gcd_add_mult_diag_r.
  - pose proof (Z_div_mod_eq_full x n). lia.
Qed.

Lemma Zpow_mod_Zpow_mod (a i j n : Z) :
  0 < n -> 0 <= i -> 0 <= j -> Zpow_mod (Zpow_mod a i n) j n = a ^ (i * j) mod n.
Proof.
  intros Hn Hi Hj. rewrite !Zpow_mod_correct by lia.
  now rewrite <- Zpower_mod, <- Z.pow_mul_r by lia.
Qed.

Lemma pocklington_cert_spec (n a k q1 q2 q3 : Z) :
  pocklington_cert n a k q1 q2 q3 = true -> 1 < n -> 0 < k -> 1 < q1 -> 1 < q2 -> 1 < q3 ->
  a ^ (n - 1) mod n = 1 /\
  (forall q, In q [q1; q2; q3] -> Z.gcd (a ^ ((n - 1) / q) - 1) n = 1).
Proof.
  intros Hc Hn Hk H1 H2 H3. unfold pocklington_cert in Hc.
  rewrite !andb_true_iff, !Z.eqb_eq in Hc. destruct Hc as ((((Hk' & Hp) & G1) & G2) & G3).
  rewrite !Zpow_mod_Zpow_mod in G1, G2, G3 by lia.
  rewrite (Zpow_mod_correct (Zpow_mod _ _ _)) in Hp by lia.
  rewrite Zpow_mod_Zpow_mod, <- Zpower_mod, <- Z.pow_mul_r in Hp by lia.
  rewrite gcd_mod_sub_1 in G1, G2, G3 by lia.
  split; [replace (n - 1) with (k * (q2 * q3) * q1) by (rewrite <- Hk'; ring); exact Hp|].
  intros q [<-|[<-|[<-|[]]]].
  - replace ((n - 1) / q1) with (k * (q2 * q3)); [assumption|].
    rewrite <- Hk'. replace (k * (q1 * q2 * q3)) with (k * (q2 * q3) * q1) by ring.
    symmetry. apply Z.div_mul. lia.
  - replace ((n - 1) / q2) with (k * (q1 * q3)); [assumption|].
    rewrite <- Hk'. replace (k * (q1 * q2 * q3)) with (k * (q1 * q3) * q2) by ring.
    symmetry. apply Z.div_mul. lia.
  - replace ((n - 1) / q3) with (k * (q1 * q2)); [assumption|].
    rewrite <- Hk'. replace (k * (q1 * q2 * q3)) with (k * (q1 * q2) * q3) by ring.
    symmetry. apply Z.div_mul. lia.
Qed.

Lemma pocklington_factor (n a q k m p : Z) :
  a ^ (n - 1) mod n = 1 -> Z.gcd (a ^ ((n - 1) / q) - 1) n = 1 ->
  1 < n -> prime q -> 0 < k -> (n - 1 =? q ^ k * m) = true ->
  prime p -> (p | n) -> (q ^ k | p - 1).
Proof.
  intros H1 H2 Hn Hq Hk Hm Hp Hpn. apply Z.eqb_eq in Hm. pose proof (prime_ge_2 q Hq).
  assert (Hke : k = Z.of_nat (S (Z.to_nat (k - 1)))) by lia.
  remember (Z.to_nat (k - 1)) as e eqn:He. clear He. subst k.
  apply (pocklington_step n a q m p e); [assumption..| |assumption|assumption].
  replace (q ^ Z.of_nat e * m) with ((n - 1) / q); [assumption|].
  rewrite Hm, Nat2Z.inj_succ, Z.pow_succ_r by lia.
  rewrite <- Z.mul_assoc, (Z.mul_comm q), Z.div_mul by lia. reflexivity.
Qed.

Lemma prime_906349 : prime 906349.
Proof. apply (trial_division_prime _ 951); [lia|lia|vm_compute; reflexivity]. Qed.

Lemma prime_254760293 : prime 254760293.
Proof. apply (trial_division_prime _ (Z.to_nat 15960)); [lia|lia|vm_compute; reflexivity]. Qed.

Lemma rel_prime_of_gcd (a b : Z) : Z.gcd a b = 1 -> rel_prime a b.
Proof. apply Zgcd_1_rel_prime. Qed.

Definition fr_cofactor : Z := (fr_modulus - 1) / (2 * 906349 * 254760293).

Lemma fr_modulus_cert :
  pocklington_cert fr_modulus 5 fr_cofactor 2 906349 254760293 = true.
Proof. vm_compute. reflexivity. Qed.

Lemma fr_modulus_factor (p : Z) :
  prime p -> (p | fr_modulus) -> (2 ^ 32 * 906349 ^ 2 * 254760293 ^ 2 | p - 1).
Proof.
  intros Hp Hd.
  destruct (pocklington_cert_spec _ _ _ _ _ _ fr_modulus_cert) as [Hpow Hgcd];
    [reflexivity..|].
  assert (Hf : forall q k m, In q [2; 906349; 254760293] -> prime q -> 0 < k ->
                 (fr_modulus - 1 =? q ^ k * m) = true -> (q ^ k | p - 1)).
  { intros q k m Hin Hq Hk Hm.
    now apply (pocklington_factor fr_modulus 5 q k m p); [|apply Hgcd|..]. }
  assert (H2 : (2 ^ 32 | p - 1)).
  { apply (Hf _ _ ((fr_modulus - 1) / 2 ^ 32));
      [simpl; tauto|apply prime_2|reflexivity|vm_compute; reflexivity]. }
  assert (H3 : (906349 ^ 2 | p - 1)).
  { apply (Hf _ _ ((fr_modulus - 1) / 906349 ^ 2));
      [simpl; tauto|apply prime_906349|reflexivity|vm_compute; reflexivity]. }
  assert (H5 : (254760293 ^ 2 | p - 1)).
  { apply (Hf _ _ ((fr_modulus - 1) / 254760293 ^ 2));
      [simpl; tauto|apply prime_254760293|reflexivity|vm_compute; reflexivity]. }
  assert (Hmul : forall x y, (x | p - 1) -> (y | p - 1) -> rel_prime x y -> (x * y | p - 1)).
  { intros x y [k Hk] Hy Hr. rewrite Hk in Hy |- *. rewrite (Z.mul_comm x).
    apply Z.mul_divide_mono_r. apply Gauss with x; [now rewrite Z.mul_comm|].
    now apply rel_prime_sym. }
  apply Hmul; [apply Hmul; [assumption..|]|assumption|];
    apply rel_prime_of_gcd; vm_compute; reflexivity.
Qed.

(** The BLS12-381 group order is prime. *)
Theorem fr_modulus_prime : prime fr_modulus.
Proof.
  destruct (prime_dec fr_modulus) as [|Hnp]; [assumption|exfalso].
  apply composite_small_prime_divisor in Hnp as (p & Hp & Hd & Hpp); [|reflexivity].
  pose proof (prime_ge_2 p Hp). apply fr_modulus_factor in Hd; [|assumption].
  apply Z.divide_pos_le in Hd; [|lia].
  assert (Hb : 2 ^ 32 * 906349 ^ 2 * 254760293 ^ 2 * (2 ^ 32 * 906349 ^ 2 * 254760293 ^ 2) < p * p)
    by nia.
  assert (Hf : fr_modulus < 2 ^ 32 * 906349 ^ 2 * 254760293 ^ 2 * (2 ^ 32 * 906349 ^ 2 * 254760293 ^ 2))
    by reflexivity.
  lia.
Qed.
