(* ===== verification/Fr.v ===== *)
(** * The scalar field [fr.Element]

    gnark-crypto's [fr] package is not part of this repository.  [FrOps] lists the
    operations the program calls and [FrLaws] what it documents about them:
    [fr.Element] is the field of integers modulo the BLS12-381 group order,
    [Inverse] maps 0 to 0, [Bytes] is an injective 32-byte encoding, and
    [polynomial.Polynomial.Eval] evaluates a coefficient vector.  The integers
    modulo a prime implement the interface ([Zp]); [fr_instance] does it at the
    real modulus, using [Primality.fr_modulus_prime]. *)

From S2P Require Import Prelude Bytes Primality.
From Stdlib Require Import Znumtheory Zpow_facts Field.

Class FrOps (F : Type) := {
  fr_zero : F;
  fr_one : F;
  fr_add : F -> F -> F;
  fr_mul : F -> F -> F;
  fr_sub : F -> F -> F;
  fr_neg : F -> F;
  fr_inverse : F -> F;
  fr_eq_dec :: EqDecision F;
  fr_of_bytes : bytes -> F;      (* SetBytes *)
  fr_bytes : F -> bytes;         (* Bytes *)
  fr_bigint : F -> Z;            (* BigInt *)
  fr_eval : list F -> F -> F     (* polynomial.Polynomial.Eval *)
}.

Declare Scope fr_scope.
Delimit Scope fr_scope with fr.
Notation "0" := fr_zero : fr_scope.
Notation "1" := fr_one : fr_scope.
Infix "+" := fr_add : fr_scope.
Infix "*" := fr_mul : fr_scope.
Infix "-" := fr_sub : fr_scope.
Notation "- x" := (fr_neg x) : fr_scope.

(** The value of the polynomial with coefficients [c0; c1; ...] at [x]. *)
Fixpoint peval {F} `{FrOps F} (p : list F) (x : F) : F :=
  match p with
  | [] => fr_zero
  | c :: p => fr_add c (fr_mul x (peval p x))
  end.

Class FrLaws (F : Type) `{FrOps F} : Prop := {
  fr_field : field_theory fr_zero fr_one fr_add fr_mul fr_sub fr_neg
               (fun x y => fr_mul x (fr_inverse y)) fr_inverse (@eq F);
  fr_inverse_zero : fr_inverse fr_zero = fr_zero;
  fr_eval_spec p x : fr_eval p x = peval p x;
  fr_bytes_length x : length (fr_bytes x) = 32%nat;
  fr_bytes_inj x y : fr_bytes x = fr_bytes y -> x = y
}.

(** ** The integers modulo a prime *)

Record Zp (p : Z) : Type := mkZp { zp_val : Z; zp_range : Is_true (zp_val mod p =? zp_val) }.
Arguments mkZp {p} _ _.
Arguments zp_val {p} _.
Arguments zp_range {p} _.

Lemma zp_mod_range p z : Is_true (z mod p mod p =? z mod p).
Proof. apply Is_true_true, Z.eqb_eq, Zmod_mod. Qed.

Definition zp (p z : Z) : Zp p := mkZp (z mod p) (zp_mod_range p z).

Lemma zp_eq p (x y : Zp p) : zp_val x = zp_val y -> x = y.
Proof.
  destruct x as [x Hx], y as [y Hy]; simpl. intros ->.
  f_equal. apply proof_irrel.
Qed.

Lemma zp_val_mod p (x : Zp p) : zp_val x mod p = zp_val x.
Proof. apply Z.eqb_eq, Is_true_true, zp_range. Qed.

#[export] Instance zp_eq_dec p : EqDecision (Zp p).
Proof.
  intros x y. destruct (decide (zp_val x = zp_val y)) as [H|H].
  - left. by apply zp_eq.
  - right. congruence.
Defined.

#[export] Instance zp_ops p : FrOps (Zp p) := {
  fr_zero := zp p 0;
  fr_one := zp p 1;
  fr_add x y := zp p (zp_val x + zp_val y);
  fr_mul x y := zp p (zp_val x * zp_val y);
  fr_sub x y := zp p (zp_val x - zp_val y);
  fr_neg x := zp p (- zp_val x);
  fr_inverse x := zp p (Zpow_mod (zp_val x) (p - 2) p);
  fr_of_bytes l := zp p (be_val l);
  fr_bytes x := be_bytes 32 (zp_val x);
  fr_bigint x := zp_val x;
  fr_eval c x := foldr (fun c acc => zp p (zp_val c + zp_val x * zp_val acc)) (zp p 0) c
}.

(** [zp_norm] reduces an equation of the ring of residues to one of integers. *)
Ltac zp_norm :=
  apply zp_eq; simpl;
  rewrite ?Zplus_mod_idemp_l, ?Zplus_mod_idemp_r, ?Zmult_mod_idemp_l, ?Zmult_mod_idemp_r.

Section ZpField.
Context (p : Z) (Hp : prime p).

Lemma zp_ge_2 : 2 <= p.
Proof. by apply prime_ge_2. Qed.

Lemma zp_inverse_l (x : Zp p) : x <> fr_zero -> fr_mul (fr_inverse x) x = fr_one.
Proof.
  intros Hx. pose proof zp_ge_2. zp_norm.
  rewrite Zpow_mod_correct by lia. rewrite Zmult_mod_idemp_l.
  rewrite <- (Z.pow_1_r (zp_val x)) at 2. rewrite <- Z.pow_add_r by lia.
  replace (p - 2 + 1) with (p - 1) by lia.
  rewrite fermat_little; [by rewrite Z.mod_small by lia|done|].
  intros Hd. apply Hx, zp_eq. simpl. rewrite <- zp_val_mod, Zmod_0_l.
  by apply Zdivide_mod.
Qed.

Lemma zp_field_theory :
  field_theory (R := Zp p) fr_zero fr_one fr_add fr_mul fr_sub fr_neg
    (fun x y => fr_mul x (fr_inverse y)) fr_inverse eq.
Proof.
  pose proof zp_ge_2. constructor; [constructor| |done|apply zp_inverse_l].
  - intros x. zp_norm. by rewrite ?Z.add_0_l, zp_val_mod.
  - intros x y. zp_norm; f_equal; lia.
  - intros x y z. zp_norm; f_equal; lia.
  - intros x. zp_norm. by rewrite Z.mul_1_l, zp_val_mod.
  - intros x y. zp_norm; f_equal; lia.
  - intros x y z. zp_norm; f_equal; lia.
  - intros x y z. zp_norm; f_equal; lia.
  - intros x y. zp_norm; f_equal; lia.
  - intros x. zp_norm; f_equal; lia.
  - intros H1. apply (f_equal zp_val) in H1. simpl in H1.
    rewrite Zmod_0_l, Z.mod_small in H1 by lia. lia.
Qed.

Lemma zp_laws : 2 < p < 2 ^ 256 -> FrLaws (Zp p).
Proof.
  intros Hb. pose proof zp_ge_2. constructor.
  - apply zp_field_theory.
  - apply zp_eq. simpl. rewrite Zmod_0_l, Zpow_mod_correct by lia.
    rewrite Z.pow_0_l by lia. by rewrite !Zmod_0_l.
  - intros c x. induction c as [|c0 c IH]; [done|].
    simpl in *. rewrite IH. zp_norm; f_equal; lia.
  - intros x. apply length_be_bytes.
  - intros x y Hxy. apply zp_eq.
    pose proof (Z.mod_pos_bound (zp_val x) p). pose proof (Z.mod_pos_bound (zp_val y) p).
    rewrite zp_val_mod in *.
    apply (be_bytes_inj 32); [change (256 ^ Z.of_nat 32) with (2 ^ 256); lia..|done].
Qed.
End ZpField.

(** The field gnark-crypto implements. *)
#[export] Instance fr_instance_laws : FrLaws (Zp fr_modulus).
Proof. apply zp_laws; [apply fr_modulus_prime|split; reflexivity]. Qed.

(** A small field, for concrete evaluations. *)
Lemma prime_97 : prime 97.
Proof. apply (trial_division_prime _ 8); [lia|lia|reflexivity]. Qed.

#[export] Instance f97_laws : FrLaws (Zp 97).
Proof. apply zp_laws; [apply prime_97|split; reflexivity]. Qed.
