(* ===== verification/Lagrange.v ===== *)
(** * Polynomials over the scalar field and Lagrange interpolation

    The mathematics behind secret sharing, generic in the field interface of
    [Fr.v]: a polynomial is its coefficient list (as the program's
    [polynomial.Polynomial]), sums over participant lists do not depend on the
    order, a non-zero polynomial has fewer roots than coefficients, and the
    Lagrange combination of [length p] or more evaluations recovers [p] at 0.
    [Crypto.v] shows that the program's loops compute these expressions. *)

From S2P Require Import Prelude Fr.
From Stdlib Require Import Field.

Section Sums.
Context {F : Type} `{FrLaws F}.
Local Open Scope fr_scope.

Add Field fr_field_sums : (@fr_field F _ _).

(** [fsum f l] is [f x1 + (f x2 + ... + 0)]. *)
Definition fsum {A} (f : A -> F) (l : list A) : F := foldr (fun a acc => f a + acc) 0 l.
Definition fprod {A} (f : A -> F) (l : list A) : F := foldr (fun a acc => f a * acc) 1 l.

Lemma fsum_permutation {A} (f : A -> F) l l' : l ≡ₚ l' -> fsum f l = fsum f l'.
Proof. induction 1; simpl; [done|congruence|ring|congruence]. Qed.

Lemma fprod_permutation {A} (f : A -> F) l l' : l ≡ₚ l' -> fprod f l = fprod f l'.
Proof. induction 1; simpl; [done|congruence|ring|congruence]. Qed.

Lemma fsum_app {A} (f : A -> F) l l' : fsum f (l ++ l') = fsum f l + fsum f l'.
Proof. induction l as [|x l IH]; simpl; [ring|]. rewrite IH. ring. Qed.

Lemma fsum_ext {A} (f g : A -> F) l : (forall x, x ∈ l -> f x = g x) -> fsum f l = fsum g l.
Proof.
  induction l as [|x l IH]; intros Hfg; simpl; [done|].
  rewrite Hfg by set_solver. rewrite IH; [done|set_solver].
Qed.

Lemma fprod_ext {A} (f g : A -> F) l : (forall x, x ∈ l -> f x = g x) -> fprod f l = fprod g l.
Proof.
  induction l as [|x l IH]; intros Hfg; simpl; [done|].
  rewrite Hfg by set_solver. rewrite IH; [done|set_solver].
Qed.

Lemma fsum_zero {A} (l : list A) : fsum (fun _ => 0) l = 0.
Proof. induction l as [|x l IH]; simpl; [done|]. rewrite IH. ring. Qed.

Lemma fsum_add {A} (f g : A -> F) l : fsum (fun x => f x + g x) l = fsum f l + fsum g l.
Proof. induction l as [|x l IH]; simpl; [ring|]. rewrite IH. ring. Qed.

Lemma fsum_mul_l {A} (c : F) (f : A -> F) l : fsum (fun x => c * f x) l = c * fsum f l.
Proof. induction l as [|x l IH]; simpl; [ring|]. rewrite IH. ring. Qed.

Lemma fsum_mul_r {A} (c : F) (f : A -> F) l : fsum (fun x => f x * c) l = fsum f l * c.
Proof. induction l as [|x l IH]; simpl; [ring|]. rewrite IH. ring. Qed.

Lemma fsum_swap {A B} (f : A -> B -> F) l k :
  fsum (fun x => fsum (f x) k) l = fsum (fun y => fsum (fun x => f x y) l) k.
Proof.
  induction l as [|x l IH]; simpl; [by rewrite fsum_zero|].
  by rewrite IH, <- fsum_add.
Qed.

(** The loops accumulate on the left; they compute the same sums and products. *)
Lemma foldl_add_fsum {A} (f : A -> F) l acc : foldl (fun s a => s + f a) acc l = acc + fsum f l.
Proof. revert acc. induction l as [|x l IH]; intros acc; simpl; [ring|]. rewrite IH. ring. Qed.

Lemma foldl_mul_fprod {A} (f : A -> F) l acc : foldl (fun s a => s * f a) acc l = acc * fprod f l.
Proof. revert acc. induction l as [|x l IH]; intros acc; simpl; [ring|]. rewrite IH. ring. Qed.

Lemma fr_mul_eq_0 (x y : F) : x * y = 0 -> x = 0 \/ y = 0.
Proof.
  intros Hxy. destruct (decide (x = 0)) as [|Hx]; [by left|right].
  replace y with (fr_inverse x * (x * y)) by (field; done). rewrite Hxy. ring.
Qed.

Lemma fr_sub_eq_0 (x y : F) : x - y = 0 -> x = y.
Proof. intros Hxy. replace x with ((x - y) + y) by ring. rewrite Hxy. ring. Qed.

Lemma fprod_neq_0 {A} (f : A -> F) l : (forall x, x ∈ l -> f x <> 0) -> fprod f l <> 0.
Proof.
  induction l as [|x l IH]; intros Hf; simpl.
  - intros H1. destruct (fr_field (F := F)). done.
  - intros [Hx|Hx]%fr_mul_eq_0; [apply (Hf x); set_solver|].
    apply IH; [set_solver|done].
Qed.
End Sums.

Section Polynomials.
Context {F : Type} `{FrLaws F}.
Local Open Scope fr_scope.

Add Field fr_field_poly : (@fr_field F _ _).

Fixpoint padd (p q : list F) : list F :=
  match p, q with
  | [], q => q
  | p, [] => p
  | a :: p, b :: q => (a + b) :: padd p q
  end.

Definition pscale (c : F) (p : list F) : list F := (fun a => c * a) <$> p.

(** [(X - a) p] *)
Definition pmul_root (a : F) (p : list F) : list F := padd (0 :: p) (pscale (- a) p).

Definition pcomb {A} (c : A -> F) (f : A -> list F) (l : list A) : list F :=
  foldr (fun x acc => padd (pscale (c x) (f x)) acc) [] l.

Lemma peval_padd p q x : peval (padd p q) x = peval p x + peval q x.
Proof.
  revert q. induction p as [|a p IH]; intros [|b q]; simpl; try ring.
  rewrite IH. ring.
Qed.

Lemma peval_pscale c p x : peval (pscale c p) x = c * peval p x.
Proof. induction p as [|a p IH]; simpl; [ring|]. fold (pscale c p). rewrite IH. ring. Qed.

Lemma peval_pmul_root a p x : peval (pmul_root a p) x = (x - a) * peval p x.
Proof. unfold pmul_root. rewrite peval_padd, peval_pscale. simpl. ring. Qed.

Lemma peval_pcomb {A} (c : A -> F) f l x :
  peval (pcomb c f l) x = fsum (fun a => c a * peval (f a) x) l.
Proof. induction l as [|a l IH]; simpl; [done|]. by rewrite peval_padd, peval_pscale, IH. Qed.

Lemma length_padd p q : length (padd p q) = Nat.max (length p) (length q).
Proof. revert q. induction p as [|a p IH]; intros [|b q]; simpl; try lia. by rewrite IH. Qed.

Lemma length_pscale c p : length (pscale c p) = length p.
Proof. apply length_fmap. Qed.

Lemma length_pmul_root a p : length (pmul_root a p) = S (length p).
Proof. unfold pmul_root. rewrite length_padd, length_pscale. simpl. lia. Qed.

Lemma length_pcomb {A} (c : A -> F) f l n :
  (forall a, a ∈ l -> (length (f a) <= n)%nat) -> (length (pcomb c f l) <= n)%nat.
Proof.
  induction l as [|a l IH]; intros Hf; simpl; [lia|].
  rewrite length_padd, length_pscale.
  pose proof (Hf a ltac:(set_solver)). pose proof (IH ltac:(set_solver)). lia.
Qed.

Lemma peval_0 c p : peval (c :: p) 0 = c.
Proof. simpl. ring. Qed.

(** Synthetic division by [X - a]. *)
Fixpoint pdiv_root (a : F) (p : list F) : list F :=
  match p with
  | [] => []
  | _ :: p => match p with [] => [] | _ => peval p a :: pdiv_root a p end
  end.

Lemma length_pdiv_root a c p : length (pdiv_root a (c :: p)) = length p.
Proof. revert c. induction p as [|b p IH]; intros c; [done|]. cbn. f_equal. apply (IH b). Qed.

Lemma peval_pdiv_root a p x : peval p x = (x - a) * peval (pdiv_root a p) x + peval p a.
Proof.
  induction p as [|c p IH]; simpl; [ring|].
  destruct p as [|b p]; [simpl; ring|].
  rewrite IH. cbn [peval]. ring.
Qed.

(** A polynomial with as many distinct roots as coefficients vanishes. *)
Lemma roots_vanish (xs : list F) : forall p, NoDup xs -> (length p <= length xs)%nat ->
  (forall x, x ∈ xs -> peval p x = 0) -> forall z, peval p z = 0.
Proof.
  induction xs as [|a xs IH]; intros [|c p] Hnd Hlen Hroot z; simpl in Hlen; try done; [lia|].
  apply NoDup_cons in Hnd as [Ha Hnd].
  rewrite (peval_pdiv_root a), (Hroot a) by set_solver.
  rewrite (IH (pdiv_root a (c :: p))); [ring|done|rewrite length_pdiv_root; lia|].
  intros x Hx.
  assert (Hz : (x - a) * peval (pdiv_root a (c :: p)) x = 0).
  { pose proof (peval_pdiv_root a (c :: p) x) as Hd.
    rewrite (Hroot x), (Hroot a) in Hd by set_solver.
    rewrite Hd at 1. ring. }
  apply fr_mul_eq_0 in Hz as [Hz|Hz]; [|done].
  apply fr_sub_eq_0 in Hz. subst. done.
Qed.
End Polynomials.

(** ** Lagrange coefficients at 0 *)

Section Lagrange.
Context {F : Type} `{FrLaws F}.
Local Open Scope fr_scope.

Add Field fr_field_lagrange : (@fr_field F _ _).

Definition others (x : F) (xs : list F) : list F := filter (fun j => j <> x) xs.

Definition lag_num (x : F) (xs : list F) : F := fprod (fun j => - j) (others x xs).
Definition lag_den (x : F) (xs : list F) : F := fprod (fun j => x - j) (others x xs).
Definition lag (x : F) (xs : list F) : F := fr_inverse (lag_den x xs) * lag_num x xs.

(** The basis polynomial [L_x] of the points [xs]. *)
Definition lag_poly (x : F) (xs : list F) : list F :=
  pscale (fr_inverse (lag_den x xs)) (foldr pmul_root [1] (others x xs)).

Lemma peval_roots (l : list F) z :
  peval (foldr pmul_root [1] l) z = fprod (fun j => z - j) l.
Proof.
  induction l as [|a l IH]; cbn [foldr fprod]; [simpl; ring|].
  rewrite peval_pmul_root, IH. done.
Qed.

Lemma length_roots (l : list F) : length (foldr pmul_root [1] l) = S (length l).
Proof. induction l as [|a l IH]; cbn [foldr]; [done|]. rewrite length_pmul_root. simpl. lia. Qed.

Lemma peval_lag_poly_0 x xs : peval (lag_poly x xs) 0 = lag x xs.
Proof.
  unfold lag_poly, lag, lag_num. rewrite peval_pscale, peval_roots. f_equal.
  apply fprod_ext. intros j _. ring.
Qed.

Lemma lag_den_neq_0 x xs : lag_den x xs <> 0.
Proof.
  apply fprod_neq_0. intros j Hj Hz. apply fr_sub_eq_0 in Hz.
  apply list_elem_of_filter in Hj as [Hj _]. done.
Qed.

Lemma peval_lag_poly_self x xs : peval (lag_poly x xs) x = 1.
Proof.
  unfold lag_poly. rewrite peval_pscale, peval_roots. fold (lag_den x xs).
  field. apply lag_den_neq_0.
Qed.

Lemma fprod_zero {A} (f : A -> F) l a : a ∈ l -> f a = 0 -> fprod f l = 0.
Proof.
  induction l as [|b l IH]; intros Ha Hf; [set_solver|]; simpl.
  apply elem_of_cons in Ha as [->|Ha]; [rewrite Hf; ring|].
  rewrite IH by done. ring.
Qed.

Lemma peval_lag_poly_other x y xs : y ∈ xs -> y <> x -> peval (lag_poly x xs) y = 0.
Proof.
  intros Hy Hne. unfold lag_poly. rewrite peval_pscale, peval_roots.
  rewrite (fprod_zero _ _ y); [ring| |ring].
  apply list_elem_of_filter. done.
Qed.

Lemma others_notin x xs : x ∉ xs -> others x xs = xs.
Proof.
  unfold others. induction xs as [|y xs IH]; intros Hx; [done|].
  rewrite filter_cons_True by set_solver. f_equal. apply IH. set_solver.
Qed.

Lemma length_others x xs : NoDup xs -> x ∈ xs -> length xs = S (length (others x xs)).
Proof.
  induction 1 as [|y xs Hy Hnd IH]; intros Hmem; [by apply not_elem_of_nil in Hmem|].
  simpl. f_equal. unfold others in *. rewrite filter_cons.
  destruct (decide (y <> x)) as [Hne|Heq].
  - apply IH. by apply elem_of_cons in Hmem as [->|].
  - apply dec_stable in Heq. subst y. fold (others x xs). by rewrite others_notin.
Qed.

Lemma length_lag_poly x xs : NoDup xs -> x ∈ xs -> length (lag_poly x xs) = length xs.
Proof.
  intros Hnd Hx. unfold lag_poly. rewrite length_pscale, length_roots.
  by rewrite (length_others x xs).
Qed.

(** The interpolant through [(x, g x)] for [x] in [xs]. *)
Definition interpolant (g : F -> F) (xs : list F) : list F :=
  pcomb g (fun x => lag_poly x xs) xs.

Lemma peval_interpolant_0 g xs : peval (interpolant g xs) 0 = fsum (fun x => g x * lag x xs) xs.
Proof.
  unfold interpolant. rewrite peval_pcomb. apply fsum_ext. intros x _.
  by rewrite peval_lag_poly_0.
Qed.

Lemma fsum_single {A} `{EqDecision A} (f : A -> F) l a :
  NoDup l -> a ∈ l -> (forall b, b ∈ l -> b <> a -> f b = 0) -> fsum f l = f a.
Proof.
  induction 1 as [|b l Hb Hnd IH]; intros Ha Hf; [set_solver|]; simpl.
  apply elem_of_cons in Ha as [->|Ha].
  - rewrite (fsum_ext f (fun _ => 0)), fsum_zero; [ring|].
    intros c Hc. apply Hf; set_solver.
  - rewrite IH; [|done|set_solver]. rewrite (Hf b); [ring|set_solver|set_solver].
Qed.

Lemma peval_interpolant g xs x : NoDup xs -> x ∈ xs -> peval (interpolant g xs) x = g x.
Proof.
  intros Hnd Hx. unfold interpolant. rewrite peval_pcomb.
  rewrite (fsum_single _ _ x Hnd Hx).
  - rewrite peval_lag_poly_self. ring.
  - intros y Hy Hne. rewrite peval_lag_poly_other by done. ring.
Qed.

Lemma length_interpolant g xs : NoDup xs -> (length (interpolant g xs) <= length xs)%nat.
Proof. intros Hnd. apply length_pcomb. intros x Hx. by rewrite length_lag_poly. Qed.

(** Two polynomials that agree on enough points are the same function. *)
Lemma poly_agree p q xs :
  NoDup xs -> (length p <= length xs)%nat -> (length q <= length xs)%nat ->
  (forall x, x ∈ xs -> peval p x = peval q x) -> forall z, peval p z = peval q z.
Proof.
  intros Hnd Hp Hq Heq z. apply fr_sub_eq_0.
  assert (Hz : peval (padd p (pscale (fr_neg fr_one) q)) z = 0).
  { apply (roots_vanish xs); [done| |].
    - rewrite length_padd, length_pscale. lia.
    - intros x Hx. rewrite peval_padd, peval_pscale, Heq by done. ring. }
  rewrite peval_padd, peval_pscale in Hz. rewrite <- Hz. ring.
Qed.

(** Lagrange interpolation at 0: any [length p] distinct evaluations recover the
    constant term. *)
Lemma lagrange_at_0 p xs :
  NoDup xs -> (length p <= length xs)%nat ->
  fsum (fun x => lag x xs * peval p x) xs = peval p 0.
Proof.
  intros Hnd Hlen.
  rewrite <- (poly_agree (interpolant (peval p) xs) p xs);
    [|done|by apply length_interpolant|done|by intros; apply peval_interpolant].
  rewrite peval_interpolant_0. apply fsum_ext. intros x _. ring.
Qed.

Lemma others_permutation x xs ys : xs ≡ₚ ys -> others x xs ≡ₚ others x ys.
Proof. intros Hp. unfold others. by rewrite Hp. Qed.

Lemma lag_permutation x xs ys : xs ≡ₚ ys -> lag x xs = lag x ys.
Proof.
  intros Hp. unfold lag, lag_num, lag_den.
  by rewrite !(fprod_permutation _ _ _ (others_permutation x _ _ Hp)).
Qed.
End Lagrange.

#[export] Hint Rewrite @peval_padd @peval_pscale @peval_pcomb : peval.
