(* ===== verification/Types.v ===== *)
(** * Shared data: [pkg/types], [pkg/peering]

    The records exchanged between nodes and stored on disk, with the source's field
    names.  A [[32]byte] is a byte list; a Go pointer that may be [nil] is an
    [option].  The scalar type is a parameter because [fr.Element] is gnark's. *)

From S2P Require Import Prelude Bytes.

(** ** Curve points in serialised form *)

Record G1Point := mkG1Point { g1_compressed : bytes }.
Record G2Point := mkG2Point { g2_compressed : bytes }.

#[export] Instance G1Point_eq_dec : EqDecision G1Point.
Proof. solve_decision. Defined.
#[export] Instance G2Point_eq_dec : EqDecision G2Point.
Proof. solve_decision. Defined.

Definition G1Point_IsEqual (p other : G1Point) : bool :=
  bool_decide (g1_compressed p = g1_compressed other).
Definition G2Point_IsEqual (p other : G2Point) : bool :=
  bool_decide (g2_compressed p = g2_compressed other).

Lemma G2Point_IsEqual_eq p q : G2Point_IsEqual p q = true <-> p = q.
Proof. destruct p, q. unfold G2Point_IsEqual. rewrite bool_decide_eq_true. simpl. split; congruence. Qed.

(** ** Protocol data *)

Record KeyShareVersion (Fr : Type) := mkKeyShareVersion {
  Version : Z;
  PrivateShare : option Fr;
  Commitments : list G2Point;
  MasterPublicKey : option G2Point;
  IsActive : bool;
  ParticipantIDs : list Address
}.
Arguments mkKeyShareVersion {Fr} _ _ _ _ _ _.
Arguments Version {Fr} _.
Arguments PrivateShare {Fr} _.
Arguments Commitments {Fr} _.
Arguments MasterPublicKey {Fr} _.
Arguments IsActive {Fr} _.
Arguments ParticipantIDs {Fr} _.

Definition set_IsActive {Fr} (b : bool) (v : KeyShareVersion Fr) : KeyShareVersion Fr :=
  mkKeyShareVersion (Version v) (PrivateShare v) (Commitments v) (MasterPublicKey v) b (ParticipantIDs v).

Record Acknowledgement := mkAck {
  DealerAddress : Address;
  PlayerAddress : Address;
  ack_SessionTimestamp : Z;
  ShareHash : bytes;
  CommitmentHash : bytes;
  ack_Signature : bytes
}.

#[export] Instance Acknowledgement_eq_dec : EqDecision Acknowledgement.
Proof. solve_decision. Defined.

Record CompletionSignature := mkCompletionSignature {
  NodeAddress : Address;
  cs_SessionTimestamp : Z;
  cs_CommitmentHash : bytes;
  cs_Signature : bytes
}.

Record ContainerPolicy := mkContainerPolicy {
  Args : list string;
  CmdOverride : list string;
  Env : gmap string string;
  EnvOverride : gmap string string;
  RestartPolicy : string
}.

Record AttestationClaims := mkAttestationClaims {
  claims_AppID : string;
  claims_ImageDigest : string;
  claims_Nonce : string;
  claims_JTI : string;
  claims_IssuedAt : Z;
  claims_ExpiresAt : Z;
  claims_PublicKey : bytes;
  claims_ContainerPolicy : ContainerPolicy;
  claims_ExtraData : bytes;
  claims_Registry : string
}.

Record Release := mkRelease {
  rel_ImageDigest : string;
  rel_Registry : string;
  rel_EncryptedEnv : string;
  rel_PublicEnv : string;
  rel_Timestamp : Z;
  rel_ContainerPolicy : ContainerPolicy
}.

Record CommitmentBroadcast := mkCommitmentBroadcast {
  cb_FromOperatorAddress : Address;
  cb_SessionTimestamp : Z;
  cb_Commitments : list G2Point;
  cb_Acknowledgements : list Acknowledgement;
  cb_MerkleProof : list bytes
}.

(** [messages.go]: the JSON payloads; [Share] is the decimal string of the scalar. *)
Record ShareMessage := mkShareMessage {
  sm_From : Address; sm_To : Address; sm_SessionTimestamp : Z; sm_Share : option string
}.
Record ShareRequestMessage := mkShareRequestMessage {
  sr_From : Address; sr_To : Address; sr_SessionTimestamp : Z
}.
Record CommitmentMessage := mkCommitmentMessage {
  cm_From : Address; cm_To : Address; cm_SessionTimestamp : Z;
  cm_Commitments : list G2Point; cm_SourceVersion : Z
}.
Record AcknowledgementMessage := mkAcknowledgementMessage {
  am_From : Address; am_To : Address; am_SessionTimestamp : Z; am_Ack : option Acknowledgement
}.
Record CommitmentBroadcastMessage := mkCommitmentBroadcastMessage {
  cbm_From : Address; cbm_To : Address; cbm_SessionTimestamp : Z;
  cbm_Broadcast : option CommitmentBroadcast
}.
Record AuthenticatedMessage := mkAuthenticatedMessage {
  Payload : bytes; Hash : bytes; Signature : bytes
}.

(** [config.CurveType] is a string in the source: ECDSA, BN254 or anything else. *)
Inductive CurveType := CurveTypeECDSA | CurveTypeBN254 | CurveTypeUnknown.

#[export] Instance CurveType_eq_dec : EqDecision CurveType.
Proof. solve_decision. Defined.

(** [peering.OperatorSetPeer]; [PublicKey] is the serialised key of the peer, absent
    when it is not of the BN254 type the program asserts. *)
Record OperatorSetPeer := mkPeer {
  OperatorAddress : Address;
  SocketAddress : string;
  PublicKey : option bytes;
  ECDSAAddress : Address;
  peer_CurveType : CurveType
}.

#[export] Instance OperatorSetPeer_eq_dec : EqDecision OperatorSetPeer.
Proof. solve_decision. Defined.
