(* ===== verification/Gnark.v ===== *)
(** * The curve library: interface, documented laws and a model of them

    gnark-crypto's BLS12-381 package, the hash functions and go-ethereum's keccak are
    not part of the repository.  [Gnark] lists the operations the program calls,
    [GnarkLaws] what it relies on: the points that pass [IsInSubGroup] form an abelian
    group of prime order acted on by the scalars, [SetBytes]/[Bytes] round-trip on
    them, the pairing is bilinear and non-degenerate.  [toy_gnark] is a concrete
    implementation (points are their discrete logarithms) that satisfies every law;
    witnesses evaluate on it. *)

From S2P Require Import Prelude Bytes Primality Fr.
From Stdlib Require Import Znumtheory.

Class Gnark := {
  Fr : Type;
  gk_fr :: FrOps Fr;
  G1 : Type;
  G2 : Type;
  GT : Type;
  (* bls12381.G1Affine *)
  g1_infinity : G1;
  g1_gen : G1;
  g1_in_subgroup : G1 -> bool;
  g1_is_infinity : G1 -> bool;
  g1_add : G1 -> G1 -> G1;
  g1_neg : G1 -> G1;
  g1_mul : G1 -> Z -> G1;
  g1_bytes : G1 -> bytes;
  g1_set_bytes : bytes -> option G1;
  (* bls12381.G2Affine *)
  g2_infinity : G2;
  g2_gen : G2;
  g2_in_subgroup : G2 -> bool;
  g2_is_infinity : G2 -> bool;
  g2_add : G2 -> G2 -> G2;
  g2_mul : G2 -> Z -> G2;
  g2_equal : G2 -> G2 -> bool;
  g2_multiexp : list G2 -> list Fr -> option G2;
  g2_bytes : G2 -> bytes;
  g2_set_bytes : bytes -> option G2;
  (* target group and pairing *)
  gt_one : GT;
  gt_is_one : GT -> bool;
  gt_mul : GT -> GT -> GT;
  gt_exp : GT -> Z -> GT;
  gt_bytes : GT -> bytes;
  pairing : G1 -> G2 -> GT;
  Pair : list G1 -> list G2 -> option GT;
  PairingCheck : list G1 -> list G2 -> option bool;
  (* hashing *)
  hash_to_g1 : bytes -> option G1;
  Keccak256 : bytes -> bytes;
  sha256 : bytes -> bytes
}.

(** Multiplication by a scalar, as [ScalarMultiplication(p, s.BigInt())]. *)
Definition act1 `{Gnark} (P : G1) (s : Fr) : G1 := g1_mul P (fr_bigint s).
Definition act2 `{Gnark} (P : G2) (s : Fr) : G2 := g2_mul P (fr_bigint s).

Class GnarkLaws `{Gnark} : Prop := {
  gk_fr_laws :: FrLaws Fr;
  (* G1 *)
  g1_ok_infinity : g1_in_subgroup g1_infinity = true;
  g1_ok_add P Q : g1_in_subgroup P = true -> g1_in_subgroup Q = true -> g1_in_subgroup (g1_add P Q) = true;
  g1_ok_act P s : g1_in_subgroup P = true -> g1_in_subgroup (act1 P s) = true;
  g1_ok_neg P : g1_in_subgroup P = true -> g1_in_subgroup (g1_neg P) = true;
  g1_ok_hash m P : hash_to_g1 m = Some P -> g1_in_subgroup P = true;
  g1_add_0_l P : g1_in_subgroup P = true -> g1_add g1_infinity P = P;
  g1_add_comm P Q : g1_in_subgroup P = true -> g1_in_subgroup Q = true -> g1_add P Q = g1_add Q P;
  act1_zero P : g1_in_subgroup P = true -> act1 P fr_zero = g1_infinity;
  act1_one P : g1_in_subgroup P = true -> act1 P fr_one = P;
  act1_add P a b : g1_in_subgroup P = true -> act1 P (fr_add a b) = g1_add (act1 P a) (act1 P b);
  act1_mul P a b : g1_in_subgroup P = true -> act1 (act1 P a) b = act1 P (fr_mul a b);
  g1_is_infinity_spec P : g1_is_infinity P = true <-> P = g1_infinity;
  g1_set_bytes_bytes P : g1_in_subgroup P = true -> g1_set_bytes (g1_bytes P) = Some P;
  g1_set_bytes_ok b P : g1_set_bytes b = Some P -> g1_in_subgroup P = true;
  (* G2 *)
  g2_ok_infinity : g2_in_subgroup g2_infinity = true;
  g2_ok_gen : g2_in_subgroup g2_gen = true;
  g2_ok_add P Q : g2_in_subgroup P = true -> g2_in_subgroup Q = true -> g2_in_subgroup (g2_add P Q) = true;
  g2_ok_act P s : g2_in_subgroup P = true -> g2_in_subgroup (act2 P s) = true;
  g2_add_0_l P : g2_in_subgroup P = true -> g2_add g2_infinity P = P;
  g2_add_comm P Q : g2_in_subgroup P = true -> g2_in_subgroup Q = true -> g2_add P Q = g2_add Q P;
  act2_zero P : g2_in_subgroup P = true -> act2 P fr_zero = g2_infinity;
  act2_add P a b : g2_in_subgroup P = true -> act2 P (fr_add a b) = g2_add (act2 P a) (act2 P b);
  act2_mul P a b : g2_in_subgroup P = true -> act2 (act2 P a) b = act2 P (fr_mul a b);
  act2_gen_inj a b : act2 g2_gen a = act2 g2_gen b -> a = b;
  g2_gen_generates P : g2_in_subgroup P = true -> exists s, P = act2 g2_gen s;
  g2_is_infinity_spec P : g2_is_infinity P = true <-> P = g2_infinity;
  g2_equal_spec P Q : g2_equal P Q = true <-> P = Q;
  g2_multiexp_spec Ps ss :
    length Ps = length ss -> Forall (fun P => g2_in_subgroup P = true) Ps ->
    g2_multiexp Ps ss = Some (foldr g2_add g2_infinity (zip_with act2 Ps ss));
  g2_set_bytes_bytes P : g2_in_subgroup P = true -> g2_set_bytes (g2_bytes P) = Some P;
  g2_set_bytes_ok b P : g2_set_bytes b = Some P -> g2_in_subgroup P = true;
  g2_bytes_length P : length (g2_bytes P) = 96%nat;
  (* pairing *)
  Pair_spec P Q : Pair [P] [Q] = Some (pairing P Q);
  PairingCheck_spec P Q P' Q' :
    PairingCheck [P; P'] [Q; Q'] = Some (gt_is_one (gt_mul (pairing P Q) (pairing P' Q')));
  gt_is_one_spec x : gt_is_one x = true <-> x = gt_one;
  pairing_bilinear P Q a b :
    g1_in_subgroup P = true -> g2_in_subgroup Q = true ->
    pairing (act1 P a) (act2 Q b) = gt_exp (pairing P Q) (fr_bigint (fr_mul a b));
  pairing_neg P Q x :
    g1_in_subgroup P = true -> g2_in_subgroup Q = true ->
    gt_mul x (pairing (g1_neg P) Q) = gt_one <-> x = pairing P Q;
  pairing_nondegenerate P P' :
    g1_in_subgroup P = true -> g1_in_subgroup P' = true ->
    pairing P g2_gen = pairing P' g2_gen -> P = P'
}.

Lemma g2_bytes_inj `{GnarkLaws} P Q :
  g2_in_subgroup P = true -> g2_in_subgroup Q = true -> g2_bytes P = g2_bytes Q -> P = Q.
Proof.
  intros HP HQ Heq. pose proof (g2_set_bytes_bytes P HP) as H1.
  rewrite Heq, (g2_set_bytes_bytes Q HQ) in H1. congruence.
Qed.

Lemma act2_gen_surj_add `{GnarkLaws} P Q :
  g2_in_subgroup P = true -> g2_in_subgroup Q = true ->
  exists a b, P = act2 g2_gen a /\ Q = act2 g2_gen b /\ g2_add P Q = act2 g2_gen (fr_add a b).
Proof.
  intros HP HQ. destruct (g2_gen_generates P HP) as [a ->], (g2_gen_generates Q HQ) as [b ->].
  exists a, b. split_and!; [done..|]. by rewrite act2_add by apply g2_ok_gen.
Qed.
