(* ===== verification/Toy.v ===== *)
(** * A concrete implementation of the curve interface

    Points are their discrete logarithms modulo a prime [p]: [G1], [G2] and [GT] are
    [Zp p] written additively, the pairing is multiplication, serialisation is the
    fixed-width big-endian encoding.  It is cryptographically worthless and satisfies
    every law of [GnarkLaws], so it shows the laws consistent (at the real modulus too)
    and lets the witnesses of the other files evaluate the definitions. *)

From S2P Require Import Prelude Bytes Primality Fr Gnark.
From Stdlib Require Import Znumtheory.

Definition digest_modulus : Z := 16777213.
Definition toy_digest (m : bytes) : bytes :=
  be_bytes 32 (foldl (fun acc b => (acc * 257 + b + 1) mod digest_modulus) 7 m).

Definition toy_gnark (p : Z) : Gnark := {|
  Fr := Zp p; gk_fr := zp_ops p; G1 := Zp p; G2 := Zp p; GT := Zp p;
  g1_infinity := zp p 0; g1_gen := zp p 1;
  g1_in_subgroup _ := true;
  g1_is_infinity x := bool_decide (x = zp p 0);
  g1_add := fr_add; g1_neg := fr_neg;
  g1_mul x z := zp p (zp_val x * z);
  g1_bytes x := be_bytes 48 (zp_val x);
  g1_set_bytes b := if (length b =? 48)%nat then Some (zp p (be_val b)) else None;
  g2_infinity := zp p 0; g2_gen := zp p 1;
  g2_in_subgroup _ := true;
  g2_is_infinity x := bool_decide (x = zp p 0);
  g2_add := fr_add;
  g2_mul x z := zp p (zp_val x * z);
  g2_equal x y := bool_decide (x = y);
  g2_multiexp Ps ss :=
    if (length Ps =? length ss)%nat then Some (foldr fr_add (zp p 0) (zip_with fr_mul Ps ss)) else None;
  g2_bytes x := be_bytes 96 (zp_val x);
  g2_set_bytes b := if (length b =? 96)%nat then Some (zp p (be_val b)) else None;
  gt_one := zp p 0;
  gt_is_one x := bool_decide (x = zp p 0);
  gt_mul := fr_add;
  gt_exp x z := zp p (zp_val x * z);
  gt_bytes x := be_bytes 576 (zp_val x);
  pairing := fr_mul;
  Pair Ps Qs := if (length Ps =? length Qs)%nat
                then Some (foldr fr_add (zp p 0) (zip_with fr_mul Ps Qs)) else None;
  PairingCheck Ps Qs := if (length Ps =? length Qs)%nat
                then Some (bool_decide (foldr fr_add (zp p 0) (zip_with fr_mul Ps Qs) = zp p 0)) else None;
  hash_to_g1 m := Some (zp p (be_val (toy_digest m)));
  Keccak256 m := be_bytes 32 ((be_val m + Z.of_nat (length m)) mod 2 ^ 256);
  sha256 := toy_digest |}.


Section ToyLaws.
Context (p : Z) (Hp : prime p) (Hr : 2 < p < 2 ^ 256).

#[local] Instance toy_fr_laws : FrLaws (Zp p) := zp_laws p Hp Hr.

Add Field toy_field : (@fr_field (Zp p) _ _).

Lemma zp_of_val (x : Zp p) : zp p (zp_val x) = x.
Proof. apply zp_eq. simpl. apply zp_val_mod. Qed.

Lemma toy_mul_act (x s : Zp p) : zp p (zp_val x * zp_val s) = fr_mul x s.
Proof. done. Qed.

Lemma zp_val_bound (x : Zp p) : 0 <= zp_val x < p.
Proof. rewrite <- zp_val_mod. apply Z.mod_pos_bound. lia. Qed.

Lemma toy_decode n (x : Zp p) : (32 <= n)%nat -> zp p (be_val (be_bytes n (zp_val x))) = x.
Proof.
  intros Hn. rewrite be_val_be_bytes. pose proof (zp_val_bound x).
  rewrite Z.mod_small; [apply zp_of_val|].
  assert (2 ^ 256 <= 256 ^ Z.of_nat n); [|lia].
  change (2 ^ 256) with (256 ^ 32). apply Z.pow_le_mono_r; lia.
Qed.

Lemma toy_act1 (P s : Zp p) : @act1 (toy_gnark p) P s = fr_mul P s.
Proof. done. Qed.
Lemma toy_act2 (P s : Zp p) : @act2 (toy_gnark p) P s = fr_mul P s.
Proof. done. Qed.
Lemma toy_zero : zp p 0 = fr_zero.
Proof. done. Qed.
Lemma toy_one : zp p 1 = fr_one.
Proof. done. Qed.

Lemma toy_laws : @GnarkLaws (toy_gnark p).
Proof.
  constructor; intros; rewrite ?toy_act1, ?toy_act2 in *;
    cbn [Fr G1 G2 GT gk_fr g1_infinity g1_gen g1_in_subgroup g1_is_infinity g1_add g1_neg g1_mul
         g1_bytes g1_set_bytes g2_infinity g2_gen g2_in_subgroup g2_is_infinity g2_add g2_mul
         g2_equal g2_multiexp g2_bytes g2_set_bytes gt_one gt_is_one gt_mul gt_exp gt_bytes
         pairing Pair PairingCheck hash_to_g1 toy_gnark length Nat.eqb zip_with foldr] in *;
    rewrite ?bool_decide_eq_true, ?length_be_bytes, ?toy_zero, ?toy_one in *; try done.
  - apply toy_fr_laws.
  - ring.
  - ring.
  - ring.
  - ring.
  - ring.
  - ring.
  - cbn -[be_bytes be_val]. f_equal. apply toy_decode. lia.
  - ring.
  - ring.
  - ring.
  - ring.
  - ring.
  - assert (Hone : forall x : Zp p, fr_mul fr_one x = x) by (intros x; ring).
    by rewrite !Hone in *.
  - exists P. change (P = fr_mul fr_one P). ring.
  - match goal with Hl : length _ = length _ |- _ => rewrite Hl, Nat.eqb_refl end. done.
  - cbn -[be_bytes be_val]. f_equal. apply toy_decode. lia.
  - f_equal. ring.
  - replace (fr_add (fr_mul P Q) (fr_add (fr_mul P' Q') fr_zero))
      with (fr_add (fr_mul P Q) (fr_mul P' Q')) by ring. done.
  - change (fr_mul (fr_mul P a) (fr_mul Q b) = fr_mul (fr_mul P Q) (fr_mul a b)). ring.
  - split; intros Hx.
    + assert (Hx' : fr_add (fr_add x (fr_mul (fr_neg P) Q)) (fr_mul P Q) = fr_mul P Q)
        by (rewrite Hx; ring).
      rewrite <- Hx'. ring.
    + subst. ring.
  - assert (Hone : forall x : Zp p, fr_mul x fr_one = x) by (intros x; ring).
    by rewrite !Hone in *.
Qed.
End ToyLaws.

(** The laws hold at the modulus gnark-crypto uses, so they are consistent there. *)
Lemma toy_laws_bls : @GnarkLaws (toy_gnark fr_modulus).
Proof. apply toy_laws; [apply fr_modulus_prime|split; reflexivity]. Qed.

(** The instance the witnesses of the other files evaluate on. *)
Definition toy97 : Gnark := toy_gnark 97.
Lemma toy97_laws : @GnarkLaws toy97.
Proof. apply toy_laws; [apply prime_97|lia]. Qed.
#[export] Instance toy97_g1_dec : EqDecision (@G1 toy97) := zp_eq_dec 97.
#[export] Instance toy97_g2_dec : EqDecision (@G2 toy97) := zp_eq_dec 97.
(** A scalar of [toy97]. *)
Definition toy_fr (z : Z) : @Fr toy97 := zp 97 z.
Definition toy_g1 (z : Z) : @G1 toy97 := zp 97 z.
