(* ===== verification/Crypto.v ===== *)
(** * Curve operations and threshold arithmetic: [pkg/bls], [pkg/crypto/bls.go]

    Every function of [pkg/bls] on points works on decoded gnark points; the
    functions of [pkg/crypto] decode compressed points, call [pkg/bls] and encode the
    result.  The lemmas reduce point arithmetic to scalar arithmetic: [com a] is the
    encoding of [a * G2] and [sig Q a] that of [a * Q]. *)

From S2P Require Import Prelude Bytes Fr Lagrange Types Gnark.
From Stdlib Require Import Field.

Section Bls.
Context `{Gnark}.

(** ** [pkg/bls/types.go], [pkg/bls/operations.go] *)

Definition G1PointFromCompressedBytes (b : bytes) : res G1 := from_opt "invalid G1 bytes" (g1_set_bytes b).
Definition G2PointFromCompressedBytes (b : bytes) : res G2 := from_opt "invalid G2 bytes" (g2_set_bytes b).

Definition bls_ScalarMulG1 (point : option G1) (scalar : option Fr) : res G1 :=
  match point, scalar with
  | Some point, Some scalar =>
      if negb (g1_in_subgroup point) then Err "point is not in subgroup or curve"
      else Ok (g1_mul point (fr_bigint scalar))
  | _, _ => Err "invalid point or scalar"
  end.

Definition bls_ScalarMulG2 (point : option G2) (scalar : option Fr) : res G2 :=
  match point, scalar with
  | Some point, Some scalar =>
      if negb (g2_in_subgroup point) then Err "point is not in subgroup or curve"
      else Ok (g2_mul point (fr_bigint scalar))
  | _, _ => Err "invalid point or scalar"
  end.

Definition bls_AddG1 (a b : option G1) : res G1 :=
  match a, b with
  | Some a, Some b =>
      if negb (g1_in_subgroup a) then Err "a is not in subgroup or curve"
      else if negb (g1_in_subgroup b) then Err "b is not in subgroup or curve"
      else Ok (g1_add a b)
  | _, _ => Err "a or b G1 point passed in was nil"
  end.

Definition bls_AddG2 (a b : option G2) : res G2 :=
  match a, b with
  | Some a, Some b =>
      if negb (g2_in_subgroup a) then Err "a is not in subgroup or curve"
      else if negb (g2_in_subgroup b) then Err "b is not in subgroup or curve"
      else Ok (g2_add a b)
  | _, _ => Err "a or b G2 point passed in was nil"
  end.

(** [HashToG1] of [pkg/bls] is gnark's hash-to-curve with the BLS domain separator. *)
Definition bls_HashToG1 (msg : bytes) : res G1 := from_opt "failed to hash to G1" (hash_to_g1 msg).

(** ** [pkg/bls/polynomial.go] *)

Definition AddressToFr (addr : Address) : Fr := fr_of_bytes (Keccak256 (addr_bytes addr)).

Definition EvaluatePolynomial (poly : list Fr) (addr : Address) : Fr := fr_eval poly (AddressToFr addr).

(** The loop over the participants multiplies numerator and denominator. *)
Definition ComputeLagrangeCoefficient (i : Address) (participants : list Address) : Fr :=
  let iFr := AddressToFr i in
  let '(numerator, denominator) :=
    foldl (fun '(numerator, denominator) j =>
             if decide (i <> j) then
               let jFr := AddressToFr j in
               let negJ := fr_neg jFr in
               let numerator := fr_mul numerator negJ in
               let diff := fr_sub iFr jFr in
               let denominator := fr_mul denominator diff in
               (numerator, denominator)
             else (numerator, denominator))
          (fr_one, fr_one) participants in
  fr_mul (fr_inverse denominator) numerator.

Definition RecoverSecret (shares : gmap Address Fr) : res Fr :=
  let participants := (map_to_list shares).*1 in
  let secret :=
    foldl (fun secret '(addr, share) =>
             fr_add secret (fr_mul (ComputeLagrangeCoefficient addr participants) share))
          fr_zero (map_to_list shares) in
  if decide (secret = fr_zero) then Err "secret cannot be zero, this should not happen" else Ok secret.

Definition GenerateShares (poly : list Fr) (participants : list Address) : gmap Address Fr :=
  foldl (fun shares addr => <[addr := EvaluatePolynomial poly addr]> shares) ∅ participants.

Definition CreateCommitments (poly : list Fr) : res (list G2) :=
  mapM (M := res) (fun coeff => wrap "failed to create commitment" (bls_ScalarMulG2 (Some g2_gen) (Some coeff))) poly.

(** The powers [1, x, x^2, ...] of [VerifyShare]. *)
Fixpoint powers_from (cur x : Fr) (n : nat) : list Fr :=
  match n with O => [] | S n => cur :: powers_from (fr_mul cur x) x n end.

Definition bls_VerifyShare (addr : Address) (share : option Fr) (commitments : list (option G2)) : res bool :=
  if (length commitments =? 0)%nat then Err "no commitments provided" else
  match share with
  | None => Err "share is nil"
  | Some share =>
      shareCommitment ← wrap "failed to compute share commitment" (bls_ScalarMulG2 (Some g2_gen) (Some share));
      let powers := powers_from fr_one (AddressToFr addr) (length commitments) in
      commitmentPoints ← mapM (M := res) (from_opt "nil commitment at index") commitments;
      expectedCommitment ← from_opt "failed to compute expected commitment" (g2_multiexp commitmentPoints powers);
      Ok (g2_equal shareCommitment expectedCommitment)
  end.

(** ** [pkg/types/types.go]: serialised points *)

Definition ZeroG1Point : G1Point := mkG1Point (g1_bytes g1_infinity).
Definition ZeroG2Point : G2Point := mkG2Point (g2_bytes g2_infinity).

Definition G1Point_IsZero (p : G1Point) : res bool :=
  affinePoint ← G1PointFromCompressedBytes (g1_compressed p); Ok (g1_is_infinity affinePoint).
Definition G2Point_IsZero (p : G2Point) : res bool :=
  affinePoint ← G2PointFromCompressedBytes (g2_compressed p); Ok (g2_is_infinity affinePoint).

(** ** [pkg/crypto/bls.go] *)

Definition G1Generator : G1Point := mkG1Point (g1_bytes g1_gen).
Definition G2Generator : G2Point := mkG2Point (g2_bytes g2_gen).

Definition ScalarMulG1 (point : G1Point) (scalar : option Fr) : res G1Point :=
  g1Point ← G1PointFromCompressedBytes (g1_compressed point);
  result ← bls_ScalarMulG1 (Some g1Point) scalar;
  Ok (mkG1Point (g1_bytes result)).

Definition ScalarMulG2 (point : G2Point) (scalar : option Fr) : res G2Point :=
  g2Point ← G2PointFromCompressedBytes (g2_compressed point);
  result ← bls_ScalarMulG2 (Some g2Point) scalar;
  Ok (mkG2Point (g2_bytes result)).

Definition AddG1 (a b : G1Point) : res G1Point :=
  aPoint ← G1PointFromCompressedBytes (g1_compressed a);
  bPoint ← G1PointFromCompressedBytes (g1_compressed b);
  result ← bls_AddG1 (Some aPoint) (Some bPoint);
  Ok (mkG1Point (g1_bytes result)).

Definition AddG2 (a b : G2Point) : res G2Point :=
  aPoint ← G2PointFromCompressedBytes (g2_compressed a);
  bPoint ← G2PointFromCompressedBytes (g2_compressed b);
  result ← bls_AddG2 (Some aPoint) (Some bPoint);
  Ok (mkG2Point (g2_bytes result)).

Definition PointsEqualG2 (a b : G2Point) : res bool :=
  match G2PointFromCompressedBytes (g2_compressed a), G2PointFromCompressedBytes (g2_compressed b) with
  | Ok aPoint, Ok bPoint => Ok (g2_equal aPoint bPoint)
  | _, _ => Err "failed to convert one of the G2 points to BLS module points"
  end.

(** [string] to [[]byte]: one byte per character. *)
Fixpoint string_bytes (s : string) : bytes :=
  match s with
  | EmptyString => []
  | String c s => Z.of_N (Ascii.N_of_ascii c) :: string_bytes s
  end.

Definition HashToG1 (appID : string) : res G1Point :=
  g1Point ← bls_HashToG1 (string_bytes appID); Ok (mkG1Point (g1_bytes g1Point)).

(** The hashers write the compressed bytes in order, then sum. *)
Definition HashCommitment (commitments : list G2Point) : bytes :=
  sha256 (foldl (fun h c => h ++ g2_compressed c) [] commitments).

Definition HashReshareCommitment (commitments : list G2Point) (sourceVersion : Z) : bytes :=
  sha256 (foldl (fun h c => h ++ g2_compressed c) [] commitments ++ put_uint64 sourceVersion).

Definition GetAppPublicKey (appID : string) : res G1Point := HashToG1 appID.

(** The accumulation loop of [RecoverAppPrivateKey] over the chosen participants. *)
Definition recover_step (partialSigs : gmap Address G1Point) (participants : list Address)
    (addr : Address) (result : G1Point) : res G1Point :=
  let lambda := ComputeLagrangeCoefficient addr participants in
  scaledSig ← ScalarMulG1 (default (mkG1Point []) (partialSigs !! addr)) (Some lambda);
  AddG1 result scaledSig.

Definition RecoverAppPrivateKey (appID : string) (partialSigs : gmap Address G1Point) (threshold : Z) : res G1Point :=
  if Z.of_nat (size partialSigs) <? threshold then Err "insufficient partial signatures: got %d, need %d" else
  let participants := sort_addrs (map_to_list partialSigs).*1 in
  let participants :=
    if Z.of_nat (length participants) >? threshold then take (Z.to_nat threshold) participants
    else participants in
  result ← for_each (recover_step partialSigs participants) participants ZeroG1Point;
  isZero ← G1Point_IsZero result;
  if (isZero : bool) then Err "recovered app private key is zero" else Ok result.

Definition VerifyAppPrivateKey (appID : string) (appPrivKey : G1Point) (masterPubKey : G2Point) : res bool :=
  qID ← wrap "failed to hash appID to G1" (HashToG1 appID);
  privKeyAffine ← wrap "failed to convert app private key" (G1PointFromCompressedBytes (g1_compressed appPrivKey));
  g2GenAffine ← wrap "failed to convert G2 generator" (G2PointFromCompressedBytes (g2_compressed G2Generator));
  qIDAffine ← wrap "failed to convert H(appID)" (G1PointFromCompressedBytes (g1_compressed qID));
  masterPKAffine ← wrap "failed to convert master public key" (G2PointFromCompressedBytes (g2_compressed masterPubKey));
  let negQID := g1_neg qIDAffine in
  from_opt "failed to compute pairing check" (PairingCheck [privKeyAffine; negQID] [g2GenAffine; masterPKAffine]).

Definition ComputeMasterPublicKey (allCommitments : list (list G2Point)) : res G2Point :=
  masterPK ← for_each (fun commitments masterPK =>
      match commitments with
      | [] => Ok masterPK
      | c0 :: _ => wrap "failed to add commitment at index %d" (AddG2 masterPK c0)
      end) allCommitments ZeroG2Point;
  isMasterPKZero ← G2Point_IsZero masterPK;
  if (isMasterPKZero : bool) then Err "computed master public key is zero" else Ok masterPK.

Definition keccak256Hash (data : bytes) : bytes := Keccak256 data.

Definition HashShareForAck (share : Fr) : bytes := keccak256Hash (fr_bytes share).

Definition HashAcknowledgementForMerkle (ack : Acknowledgement) : bytes :=
  keccak256Hash (addr_bytes (PlayerAddress ack) ++ addr_bytes (DealerAddress ack)
                 ++ put_uint64 (ack_SessionTimestamp ack) ++ ShareHash ack ++ CommitmentHash ack).

Definition CreateAcknowledgement (playerAddress dealerAddress : Address) (epoch : Z) (share : Fr)
    (commitments : list G2Point)
    (signer : Address -> Address -> Z -> bytes -> bytes -> bytes) : Acknowledgement :=
  let commitmentHash := HashCommitment commitments in
  let shareHash := HashShareForAck share in
  let signature := signer dealerAddress playerAddress epoch shareHash commitmentHash in
  mkAck dealerAddress playerAddress epoch shareHash commitmentHash signature.
End Bls.
