(* ===== verification/CryptoFacts.v ===== *)
(** * Algebra of the encoded points

    The lemmas the protocol files use to reason about compressed points: a point
    that decodes is [a * G2] for one scalar [a] ([opens c a]), the operations of
    [pkg/crypto] act on these scalars, commitments to a polynomial open to its
    coefficients, the Lagrange loop computes the coefficient of [Lagrange.lag], and the
    BLS operations on partial signatures act on multiples of the hashed identity. *)

From S2P Require Import Prelude Bytes Fr Lagrange Types Gnark Crypto.
From Stdlib Require Import Field.

Section Points.
Context `{GnarkLaws}.
Local Open Scope fr_scope.

Add Field fr_field_points : (@fr_field Fr _ _).

(** [com a] is the compressed encoding of [a * G2]; [opens c a] says that the
    bytes of [c] decode to [a * G2]. *)
Definition com (a : Fr) : G2Point := mkG2Point (g2_bytes (act2 g2_gen a)).
Definition opens (c : G2Point) (a : Fr) : Prop :=
  g2_set_bytes (g2_compressed c) = Some (act2 g2_gen a).

Lemma gen_act_ok a : g2_in_subgroup (act2 g2_gen a) = true.
Proof. apply g2_ok_act, g2_ok_gen. Qed.
#[local] Hint Resolve gen_act_ok : core.

Lemma opens_com a b : opens (com a) b <-> a = b.
Proof.
  unfold opens, com; simpl. rewrite g2_set_bytes_bytes by done. split; [|congruence].
  intros [= Heq]. by apply act2_gen_inj.
Qed.

Lemma opens_fun c a b : opens c a -> opens c b -> a = b.
Proof. unfold opens. intros Ha Hb. rewrite Ha in Hb. injection Hb. apply act2_gen_inj. Qed.

Lemma com_inj a b : com a = com b -> a = b.
Proof. intros Heq. apply opens_com. rewrite Heq. by apply opens_com. Qed.

Lemma opens_decode c P : G2PointFromCompressedBytes (g2_compressed c) = Ok P ->
  exists a, P = act2 g2_gen a /\ opens c a.
Proof.
  unfold G2PointFromCompressedBytes, opens. rewrite from_opt_ok. intros HP.
  destruct (g2_gen_generates P) as [a ->]; [by eapply g2_set_bytes_ok|]. eauto.
Qed.

Lemma decode_opens c a : opens c a ->
  G2PointFromCompressedBytes (g2_compressed c) = Ok (act2 g2_gen a).
Proof. unfold opens, G2PointFromCompressedBytes. by intros ->. Qed.

Lemma zero_com : ZeroG2Point = com 0.
Proof. unfold ZeroG2Point, com. by rewrite act2_zero by apply g2_ok_gen. Qed.

Lemma bls_ScalarMulG2_gen a s :
  bls_ScalarMulG2 (Some (act2 g2_gen a)) (Some s) = Ok (act2 g2_gen (a * s)).
Proof.
  simpl. rewrite gen_act_ok. simpl. fold (act2 (act2 g2_gen a) s).
  by rewrite act2_mul by apply g2_ok_gen.
Qed.

Lemma bls_ScalarMulG2_base s : bls_ScalarMulG2 (Some g2_gen) (Some s) = Ok (act2 g2_gen s).
Proof. simpl. by rewrite g2_ok_gen. Qed.

Lemma ScalarMulG2_opens c a s : opens c a -> ScalarMulG2 c (Some s) = Ok (com (a * s)).
Proof.
  intros Hc. unfold ScalarMulG2. rewrite (decode_opens _ _ Hc). cbn [mbind res_bind].
  by rewrite bls_ScalarMulG2_gen.
Qed.

Lemma AddG2_opens c d a b : opens c a -> opens d b -> AddG2 c d = Ok (com (a + b)).
Proof.
  intros Hc Hd. unfold AddG2. rewrite (decode_opens _ _ Hc), (decode_opens _ _ Hd).
  simpl. rewrite !gen_act_ok. simpl. unfold com. by rewrite act2_add by apply g2_ok_gen.
Qed.

End Points.

#[export] Hint Resolve gen_act_ok : core.

(** [open_points] names the scalar of every point a hypothesis decodes. *)
Ltac open_points :=
  repeat match goal with
  | D : G2PointFromCompressedBytes (g2_compressed _) = Ok _ |- _ =>
      apply opens_decode in D; destruct D as (? & -> & ?)
  end.

Section PointOps.
Context `{GnarkLaws}.
Local Open Scope fr_scope.

Add Field fr_field_point_ops : (@fr_field Fr _ _).

(** A scalar multiplication or addition succeeds only on points that decode. *)
Lemma ScalarMulG2_ok c s d : ScalarMulG2 c (Some s) = Ok d -> exists a, opens c a /\ d = com (a * s).
Proof.
  intros Hm. pose proof Hm as Hm'. unfold ScalarMulG2 in Hm'. res_ok.
  open_points. eexists. split; [eassumption|].
  erewrite ScalarMulG2_opens in Hm by eassumption. congruence.
Qed.

Lemma AddG2_ok c d e : AddG2 c d = Ok e -> exists a b, opens c a /\ opens d b /\ e = com (a + b).
Proof.
  intros Hm. pose proof Hm as Hm'. unfold AddG2 in Hm'. res_ok.
  open_points. do 2 eexists. split_and!; [eassumption..|].
  erewrite AddG2_opens in Hm by eassumption. congruence.
Qed.

Lemma G2_IsZero_com a : G2Point_IsZero (com a) = Ok (bool_decide (a = 0)).
Proof.
  unfold G2Point_IsZero. rewrite (decode_opens _ a) by by apply opens_com. simpl. f_equal.
  apply eq_true_iff_eq. rewrite g2_is_infinity_spec, bool_decide_eq_true. split.
  - rewrite <- (act2_zero g2_gen) by apply g2_ok_gen. apply act2_gen_inj.
  - intros ->. apply act2_zero, g2_ok_gen.
Qed.

Lemma PointsEqualG2_com a b : PointsEqualG2 (com a) (com b) = Ok (bool_decide (a = b)).
Proof.
  unfold PointsEqualG2. rewrite (decode_opens _ a), (decode_opens _ b) by by apply opens_com.
  f_equal. apply eq_true_iff_eq. rewrite g2_equal_spec, bool_decide_eq_true. split.
  - apply act2_gen_inj.
  - by intros ->.
Qed.

(** [PointsEqualG2] with a point that need not be canonical. *)
Lemma PointsEqualG2_opens c a b : opens c b -> PointsEqualG2 (com a) c = Ok (bool_decide (a = b)).
Proof.
  intros Hc. rewrite <- PointsEqualG2_com. unfold PointsEqualG2.
  rewrite (decode_opens _ _ Hc). by rewrite (decode_opens (com b) b) by by apply opens_com.
Qed.

(** ** G1: multiples of a base point *)

Definition psig (Q : G1) (a : Fr) : G1Point := mkG1Point (g1_bytes (act1 Q a)).

Lemma decode_sig Q a : g1_in_subgroup Q = true ->
  G1PointFromCompressedBytes (g1_compressed (psig Q a)) = Ok (act1 Q a).
Proof.
  intros HQ. unfold G1PointFromCompressedBytes, psig; simpl.
  by rewrite g1_set_bytes_bytes by by apply g1_ok_act.
Qed.

Lemma zero_sig Q : g1_in_subgroup Q = true -> ZeroG1Point = psig Q 0.
Proof. intros HQ. unfold ZeroG1Point, psig. by rewrite act1_zero. Qed.

Lemma sig_1 Q : g1_in_subgroup Q = true -> mkG1Point (g1_bytes Q) = psig Q 1.
Proof. intros HQ. unfold psig. by rewrite act1_one. Qed.

Lemma ScalarMulG1_sig Q a s : g1_in_subgroup Q = true ->
  ScalarMulG1 (psig Q a) (Some s) = Ok (psig Q (a * s)).
Proof.
  intros HQ. unfold ScalarMulG1. rewrite decode_sig by done.
  cbn [mbind res_bind bls_ScalarMulG1]. rewrite g1_ok_act by done. cbn [negb].
  fold (act1 (act1 Q a) s). by rewrite act1_mul.
Qed.

Lemma AddG1_sig Q a b : g1_in_subgroup Q = true -> AddG1 (psig Q a) (psig Q b) = Ok (psig Q (a + b)).
Proof.
  intros HQ. unfold AddG1. rewrite !decode_sig by done. simpl.
  rewrite !g1_ok_act by done. simpl. unfold psig. by rewrite act1_add.
Qed.

Lemma act1_eq_infinity Q a : g1_in_subgroup Q = true -> Q <> g1_infinity ->
  act1 Q a = g1_infinity <-> a = 0.
Proof.
  intros HQ Hne. split; [|intros ->; by apply act1_zero].
  intros Ha. destruct (decide (a = 0)) as [|Hz]; [done|]. exfalso. apply Hne.
  rewrite <- (act1_one Q) by done. replace 1 with (a * fr_inverse a) by (field; done).
  rewrite <- act1_mul, Ha by done.
  rewrite <- (act1_zero Q), act1_mul by done. f_equal. ring.
Qed.

Lemma G1_IsZero_sig Q a : g1_in_subgroup Q = true -> Q <> g1_infinity ->
  G1Point_IsZero (psig Q a) = Ok (bool_decide (a = 0)).
Proof.
  intros HQ Hne. unfold G1Point_IsZero. rewrite decode_sig by done. simpl. f_equal.
  apply eq_true_iff_eq. rewrite g1_is_infinity_spec, bool_decide_eq_true.
  by apply act1_eq_infinity.
Qed.
End PointOps.

Section Polynomials.
Context `{GnarkLaws}.
Local Open Scope fr_scope.

Add Field fr_field_polys : (@fr_field Fr _ _).

(** ** Participants as field elements *)

(** The x-coordinates of a participant list: distinct unless Keccak collides modulo
    the group order. *)
Definition xcoords (participants : list Address) : list Fr := AddressToFr <$> participants.

Lemma NoDup_xcoords l : NoDup (xcoords l) -> NoDup l.
Proof. apply NoDup_fmap_1. Qed.

Lemma xcoords_inj l a b : NoDup (xcoords l) -> a ∈ l -> b ∈ l -> AddressToFr a = AddressToFr b -> a = b.
Proof.
  intros Hnd [i Hi]%list_elem_of_lookup_1 [j Hj]%list_elem_of_lookup_1 Heq.
  assert (i = j).
  { eapply NoDup_lookup; [exact Hnd| |]; unfold xcoords; rewrite list_lookup_fmap.
    - by rewrite Hi.
    - by rewrite Hj, Heq. }
  congruence.
Qed.

Lemma lagrange_loop f (g : Address -> Fr) (i : Address) l num den :
  foldl (fun '(numerator, denominator) j =>
      if decide (i <> j) then (numerator * f j, denominator * g j) else (numerator, denominator))
    (num, den) l =
  (num * fprod f (filter (fun j => i <> j) l), den * fprod g (filter (fun j => i <> j) l)).
Proof.
  revert num den. induction l as [|j l IH]; intros num den; simpl.
  - f_equal; ring.
  - rewrite filter_cons. destruct (decide (i <> j)) as [Hne|Heq]; rewrite IH; simpl; [|done].
    f_equal; ring.
Qed.

Lemma fprod_fmap {A B} (f : B -> Fr) (g : A -> B) l : fprod f (g <$> l) = fprod (fun a => f (g a)) l.
Proof. induction l as [|a l IH]; [done|]. rewrite fmap_cons. unfold fsum, fprod in *. cbn [foldr]. by rewrite IH. Qed.

Lemma fsum_fmap {A B} (f : B -> Fr) (g : A -> B) l : fsum f (g <$> l) = fsum (fun a => f (g a)) l.
Proof. induction l as [|a l IH]; [done|]. rewrite fmap_cons. unfold fsum, fprod in *. cbn [foldr]. by rewrite IH. Qed.

Lemma others_xcoords i l : NoDup (xcoords l) -> i ∈ l ->
  others (AddressToFr i) (xcoords l) = xcoords (filter (fun j => i <> j) l).
Proof.
  intros Hnd Hi. assert (Hdist : forall j, j ∈ l -> (AddressToFr j <> AddressToFr i <-> i <> j)).
  { intros j Hj. split; [congruence|]. intros Hne Heq. apply Hne.
    by apply (xcoords_inj l). }
  clear Hnd Hi. unfold others, xcoords. induction l as [|j l IH]; [done|].
  rewrite fmap_cons, !filter_cons, IH by (intros; apply Hdist; by right).
  destruct (decide (i <> j)) as [Hne|Hne], (decide (AddressToFr j <> AddressToFr i)) as [H'|H'];
    pose proof (Hdist j (list_elem_of_here _ _)); [done|tauto..|done].
Qed.

(** The program's double loop computes the Lagrange coefficient at 0. *)
Lemma ComputeLagrangeCoefficient_lag i l : NoDup (xcoords l) -> i ∈ l ->
  ComputeLagrangeCoefficient i l = lag (AddressToFr i) (xcoords l).
Proof.
  intros Hnd Hi. unfold ComputeLagrangeCoefficient, lag, lag_num, lag_den. cbv zeta.
  rewrite (lagrange_loop (fun j => - AddressToFr j) (fun j => AddressToFr i - AddressToFr j)).
  rewrite others_xcoords by done. unfold xcoords. rewrite !fprod_fmap.
  f_equal; [f_equal|]; ring.
Qed.

(** The Lagrange-weighted sum over a participant list, as the loops of the program
    accumulate it. *)
Definition lagrange_sum (f : Address -> Fr) (l : list Address) : Fr :=
  fsum (fun i => ComputeLagrangeCoefficient i l * f i) l.

Lemma lagrange_sum_eval p l : NoDup (xcoords l) -> (length p <= length l)%nat ->
  lagrange_sum (fun i => peval p (AddressToFr i)) l = peval p 0.
Proof.
  intros Hnd Hlen. unfold lagrange_sum.
  rewrite <- (lagrange_at_0 p (xcoords l)); [|done|unfold xcoords; by rewrite length_fmap].
  unfold xcoords at 2. rewrite fsum_fmap. apply fsum_ext. intros i Hi.
  by rewrite ComputeLagrangeCoefficient_lag.
Qed.

Lemma lagrange_coefficient_perm i l l' : NoDup (xcoords l) -> l ≡ₚ l' -> i ∈ l ->
  ComputeLagrangeCoefficient i l = ComputeLagrangeCoefficient i l'.
Proof.
  intros Hnd Hp Hi. assert (Hx : xcoords l ≡ₚ xcoords l') by (unfold xcoords; by rewrite Hp).
  rewrite !ComputeLagrangeCoefficient_lag; [by apply lag_permutation| | |done|done].
  - by rewrite <- Hx.
  - by rewrite <- Hp.
Qed.

(** ** Commitments *)

Lemma EvaluatePolynomial_peval p a : EvaluatePolynomial p a = peval p (AddressToFr a).
Proof. apply fr_eval_spec. Qed.

Lemma CreateCommitments_gen p : CreateCommitments p = Ok (act2 g2_gen <$> p).
Proof.
  unfold CreateCommitments. induction p as [|c p IH]; [done|].
  cbn [mapM]. rewrite bls_ScalarMulG2_base. cbn [wrap mbind res_bind].
  change (mapM _ p) with (mapM (M := res)
    (fun coeff => wrap "failed to create commitment" (bls_ScalarMulG2 (Some g2_gen) (Some coeff))) p).
  by rewrite IH.
Qed.

(** The multi-exponentiation of a committed polynomial with the powers of [x]. *)
Lemma multiexp_powers p x cur :
  foldr g2_add g2_infinity (zip_with act2 (act2 g2_gen <$> p) (powers_from cur x (length p)))
  = act2 g2_gen (cur * peval p x).
Proof.
  revert cur. induction p as [|c p IH]; intros cur; simpl.
  - rewrite <- (act2_zero g2_gen) by apply g2_ok_gen. f_equal. ring.
  - rewrite IH, act2_mul by apply g2_ok_gen. rewrite <- act2_add by apply g2_ok_gen.
    f_equal. ring.
Qed.

Lemma length_powers_from cur x n : length (powers_from cur x n) = n.
Proof. revert cur. induction n; intros cur; simpl; auto. Qed.

Lemma mapM_some {A} (l : list A) msg : mapM (M := res) (from_opt msg) (Some <$> l) = Ok l.
Proof.
  induction l as [|x l IH]; [done|]. rewrite fmap_cons. cbn [mapM from_opt mbind res_bind].
  by rewrite IH.
Qed.

(** [VerifyShare] compares the share with the value of the committed polynomial. *)
Lemma bls_VerifyShare_spec a s p : p <> [] ->
  bls_VerifyShare a (Some s) (Some <$> (act2 g2_gen <$> p))
  = Ok (bool_decide (s = peval p (AddressToFr a))).
Proof.
  intros Hp. unfold bls_VerifyShare.
  rewrite !length_fmap. destruct (Nat.eqb_spec (length p) 0) as [Hz|_].
  { by apply nil_length_inv in Hz. }
  rewrite bls_ScalarMulG2_base. cbn [wrap mbind res_bind].
  rewrite mapM_some. cbn [mbind res_bind].
  rewrite g2_multiexp_spec; [|by rewrite length_powers_from, length_fmap|].
  - rewrite multiexp_powers. simpl. f_equal. apply eq_true_iff_eq.
    rewrite g2_equal_spec, bool_decide_eq_true.
    replace (fr_one * peval p (AddressToFr a)) with (peval p (AddressToFr a)) by ring.
    split; [apply act2_gen_inj|congruence].
  - apply Forall_fmap, Forall_true. simpl. auto.
Qed.

(** [opens_list cs p] says that the commitments [cs] decode to those of [p]. *)
Definition opens_list (cs : list G2Point) (p : list Fr) : Prop := Forall2 opens cs p.

Lemma opens_list_fun cs p q : opens_list cs p -> opens_list cs q -> p = q.
Proof.
  intros Hp. revert q. induction Hp as [|c a cs p Hc Hcs IH]; intros q Hq; inversion Hq; subst; [done|].
  f_equal; [by eapply opens_fun|by apply IH].
Qed.

Lemma opens_list_com p : opens_list (com <$> p) p.
Proof. apply Forall2_fmap_l. apply Forall_Forall2_diag, Forall_true. intros a. by apply opens_com. Qed.

(** The constant coefficient a commitment vector announces; the empty vector
    contributes nothing to the sums of the program. *)
Definition head_coeff (p : list Fr) : Fr := match p with [] => 0 | c :: _ => c end.

Lemma head_coeff_peval p : head_coeff p = peval p 0.
Proof. destruct p; simpl; [done|ring]. Qed.

Lemma ComputeMasterPublicKey_step all polys acc : Forall2 opens_list all polys ->
  for_each (fun commitments masterPK =>
      match commitments with
      | [] => Ok masterPK
      | c0 :: _ => wrap "failed to add commitment at index %d" (AddG2 masterPK c0)
      end) all (com acc) = Ok (com (acc + fsum head_coeff polys)).
Proof.
  intros Hall. revert acc. induction Hall as [|cs p all polys Hcs Hall IH]; intros acc; simpl.
  - do 2 f_equal. ring.
  - destruct Hcs as [|c a cs p Hc Hcs]; simpl.
    + rewrite IH. do 2 f_equal. ring.
    + rewrite (AddG2_opens _ _ acc a) by (done || by apply opens_com). simpl.
      rewrite IH. do 2 f_equal. ring.
Qed.

Lemma ComputeMasterPublicKey_sum all polys : Forall2 opens_list all polys ->
  ComputeMasterPublicKey all =
  if bool_decide (fsum head_coeff polys = 0) then Err "computed master public key is zero"
  else Ok (com (fsum head_coeff polys)).
Proof.
  intros Hall. unfold ComputeMasterPublicKey. rewrite zero_com.
  rewrite (ComputeMasterPublicKey_step _ polys) by done. cbn [mbind res_bind].
  rewrite G2_IsZero_com. cbn [mbind res_bind].
  replace (0 + fsum head_coeff polys) with (fsum head_coeff polys) by ring. done.
Qed.

(** ** Partial signatures *)

(** The recovery loop over participants whose entry is [Q] times their share. *)
Lemma recover_loop Q (sigs : gmap Address G1Point) (shares : Address -> Fr) ps l acc :
  g1_in_subgroup Q = true ->
  (forall a, a ∈ l -> sigs !! a = Some (psig Q (shares a))) ->
  for_each (recover_step sigs ps) l (psig Q acc)
  = Ok (psig Q (acc + fsum (fun i => ComputeLagrangeCoefficient i ps * shares i) l)).
Proof.
  intros HQ. revert acc. induction l as [|a l IH]; intros acc Hs; cbn [for_each].
  - unfold fsum; cbn [foldr]. do 2 f_equal. ring.
  - assert (recover_step sigs ps a (psig Q acc)
      = Ok (psig Q (acc + shares a * ComputeLagrangeCoefficient a ps))) as ->.
    { unfold recover_step. rewrite (Hs a) by apply list_elem_of_here. cbn [from_option id].
      rewrite ScalarMulG1_sig by done. cbn [mbind res_bind]. by rewrite AddG1_sig. }
    cbn [mbind res_bind]. unfold fsum; cbn [foldr].
    rewrite IH by (intros; apply Hs; by right). unfold fsum. do 2 f_equal. ring.
Qed.

Lemma hash_to_g1_ok id Q : HashToG1 id = Ok Q ->
  exists P, hash_to_g1 (string_bytes id) = Some P /\ g1_in_subgroup P = true /\ Q = psig P 1.
Proof.
  unfold HashToG1, bls_HashToG1. intros HQ. res_ok. eexists. split_and!; [eassumption| |].
  - by eapply g1_ok_hash.
  - apply sig_1. by eapply g1_ok_hash.
Qed.
End Polynomials.
