(* ===== verification/Recover.v ===== *)
(** * Application keys: recovery from partial signatures and verification

    [RecoverAppPrivateKey] and [VerifyAppPrivateKey] are in [Crypto.v]; this file has
    the retrying search over threshold-sized subsets
    ([recoverAppPrivateKeyWithRetry] and its helpers [binomial], [gcd]) and the
    theorems on all of them. *)

From S2P Require Import Prelude Bytes Fr Lagrange Types Gnark Crypto CryptoFacts Toy.
From Stdlib Require Import Field.

(** ** The combination walk *)

(** [for b != 0 { a, b = b, a%b }]; the second argument decreases. *)
Fixpoint gcd_loop (fuel : nat) (a b : Z) : Z :=
  match fuel with
  | O => a
  | S fuel => if b =? 0 then a else gcd_loop fuel b (Z.rem a b)
  end.
Definition gcd (a b : Z) : Z := gcd_loop (S (Z.to_nat (Z.abs b))) a b.

(** The loop of [binomial] from index [i], [k - i] iterations left. *)
Fixpoint binomial_loop (rounds : nat) (n i result : Z) : Z :=
  match rounds with
  | O => result
  | S rounds =>
      let g := gcd result (i + 1) in
      let product := int64 (Z.quot result g * Z.quot (n - i) (Z.quot (i + 1) g)) in
      if product >? 1000000000 then 1000000000 else binomial_loop rounds n (i + 1) product
  end.

Definition binomial (n k : Z) : Z :=
  if (k >? n) || (k <? 0) then 0 else
  if (k =? 0) || (k =? n) then 1 else
  let k := if k >? n - k then n - k else k in
  binomial_loop (Z.to_nat k) n 0 1.

(** [i := threshold - 1; for i >= 0 && indices[i] == n-threshold+i { i-- }]. *)
Fixpoint last_movable (n threshold : Z) (indices : list Z) (i : nat) : option nat :=
  match i with
  | O => None
  | S i => if decide (indices !! i = Some (n - threshold + Z.of_nat i))
           then last_movable n threshold indices i else Some i
  end.

(** [for j := i + 1; j < threshold; j++ { indices[j] = indices[j-1] + 1 }]. *)
Fixpoint refill (prev : Z) (l : list Z) : list Z :=
  match l with [] => [] | _ :: l => (prev + 1) :: refill (prev + 1) l end.

(** Advance to the next combination; [None] sets [exhausted]. *)
Definition advance (n threshold : Z) (indices : list Z) : option (list Z) :=
  match last_movable n threshold indices (length indices) with
  | None => None
  | Some i =>
      let x := default 0 (indices !! i) + 1 in
      Some (take i indices ++ x :: refill x (drop (S i) indices))
  end.

Inductive search_result (A : Type) := Found (a : A) | Exhausted (attempts : Z) | CapReached (attempts : Z).
Arguments Found {A} a.
Arguments Exhausted {A} attempts.
Arguments CapReached {A} attempts.

(** The search loop; [fuel] attempts are left before the cap. *)
Fixpoint search {A} (next : list Z -> option (list Z)) (try : list Z -> option A)
    (fuel : nat) (indices : list Z) (attempts : Z) : search_result A :=
  match fuel with
  | O => CapReached attempts
  | S fuel =>
      let attempts := attempts + 1 in
      match try indices with
      | Some recovered => Found recovered
      | None =>
          match fuel with
          | O => CapReached attempts
          | S _ => match next indices with
                   | None => Exhausted attempts
                   | Some indices => search next try fuel indices attempts
                   end
          end
      end
  end.

Definition DefaultMaxRecoveryAttempts : Z := 1000.

Section Recover.
Context `{Gnark}.

(** [trySubset]: recovery from the chosen signatures, then the caller's check. *)
Definition trySubset (appID : string) (partialSigs : gmap Address G1Point) (threshold : Z)
    (validate : G1Point -> bool) (subset : list Address) : option G1Point :=
  let subsetSigs := foldl (fun m addr => <[addr := default (mkG1Point []) (partialSigs !! addr)]> m) ∅ subset in
  match RecoverAppPrivateKey appID subsetSigs threshold with
  | Err _ => None
  | Ok recovered => if validate recovered then Some recovered else None
  end.

Definition recoverAppPrivateKeyWithRetry (appID : string) (partialSigs : gmap Address G1Point)
    (threshold : Z) (validate : G1Point -> bool) (maxAttempts : Z) : res G1Point :=
  if Z.of_nat (size partialSigs) <? threshold then Err "insufficient partial signatures: got %d, need %d" else
  let allParticipants := sort_addrs (map_to_list partialSigs).*1 in
  let n := Z.of_nat (length allParticipants) in
  let try indices :=
    trySubset appID partialSigs threshold validate
      (omap (fun idx => allParticipants !! Z.to_nat idx) indices) in
  match search (advance n threshold) try (Z.to_nat (Z.max 1 maxAttempts))
          (seqZ 0 threshold) 0 with
  | Found recovered => Ok recovered
  | Exhausted _ => Err "failed to recover valid app private key: all combinations exhausted"
  | CapReached _ => Err "failed to recover valid app private key: attempt cap reached"
  end.

Definition RecoverAppPrivateKeyWithRetry (appID : string) (partialSigs : gmap Address G1Point)
    (threshold : Z) (validate : G1Point -> bool) : res G1Point :=
  recoverAppPrivateKeyWithRetry appID partialSigs threshold validate DefaultMaxRecoveryAttempts.
End Recover.

Section RecoverFacts.
Context `{GnarkLaws}.
Local Open Scope fr_scope.

Add Field fr_field_recover : (@fr_field Fr _ _).

Lemma length_dom_list {V} (m : gmap Address V) : length (sort_addrs (map_to_list m).*1) = size m.
Proof. by rewrite sort_addrs_perm, length_fmap, length_map_to_list. Qed.

(** The participants the recovery uses. *)
Definition chosen (partialSigs : gmap Address G1Point) (threshold : nat) : list Address :=
  take threshold (sort_addrs (map_to_list partialSigs).*1).

Lemma chosen_spec (sigs : gmap Address G1Point) t : (t <= size sigs)%nat ->
  NoDup (xcoords (map_to_list sigs).*1) ->
  length (chosen sigs t) = t /\ NoDup (xcoords (chosen sigs t)) /\
  forall a, a ∈ chosen sigs t -> is_Some (sigs !! a).
Proof.
  intros Ht Hnd. unfold chosen. split_and!.
  - rewrite length_take, length_dom_list. lia.
  - unfold xcoords in *. rewrite fmap_take. eapply sublist_NoDup; [|apply sublist_take].
    by rewrite sort_addrs_perm.
  - intros a Ha. apply elem_of_keys. rewrite <- sort_addrs_perm.
    eapply elem_of_sublist; [exact Ha|apply sublist_take].
Qed.

(** Recovery from multiples of one point computes the Lagrange sum of the
    multipliers. *)
Lemma recover_sum id Q (shares : Address -> Fr) (sigs : gmap Address G1Point) (t : nat) :
  g1_in_subgroup Q = true -> (t <= size sigs)%nat ->
  (forall a s, sigs !! a = Some s -> s = psig Q (shares a)) ->
  NoDup (xcoords (map_to_list sigs).*1) ->
  RecoverAppPrivateKey id sigs (Z.of_nat t) =
    result ← Ok (psig Q (lagrange_sum shares (chosen sigs t)));
    isZero ← G1Point_IsZero result;
    if (isZero : bool) then Err "recovered app private key is zero" else Ok result.
Proof.
  intros HQ Ht Hs Hnd. destruct (chosen_spec sigs t Ht Hnd) as (Hlen & Hndc & Hin).
  unfold RecoverAppPrivateKey. destruct (Z.ltb_spec (Z.of_nat (size sigs)) (Z.of_nat t)); [lia|].
  replace (if _ >? _ then _ else _) with (chosen sigs t).
  - rewrite (zero_sig Q) by done.
    rewrite (recover_loop Q sigs shares) by (done || (intros a [s Ha]%Hin; rewrite Ha; f_equal; by apply Hs)).
    cbn [mbind res_bind]. unfold lagrange_sum.
    by replace (0 + fsum (fun i => ComputeLagrangeCoefficient i (chosen sigs t) * shares i) (chosen sigs t))
      with (fsum (fun i => ComputeLagrangeCoefficient i (chosen sigs t) * shares i) (chosen sigs t)) by ring.
  - unfold chosen. rewrite Z.gtb_ltb, Nat2Z.id.
    destruct (Z.ltb_spec (Z.of_nat t) (Z.of_nat (length (sort_addrs (map_to_list sigs).*1)))); [done|].
    rewrite length_dom_list in *. rewrite take_ge; [done|]. rewrite length_dom_list. lia.
Qed.

Lemma recover_honest id Q p (sigs : gmap Address G1Point) (t : nat) :
  g1_in_subgroup Q = true -> (length p <= t <= size sigs)%nat ->
  (forall a s, sigs !! a = Some s -> s = psig Q (peval p (AddressToFr a))) ->
  NoDup (xcoords (map_to_list sigs).*1) ->
  act1 Q (peval p 0) <> g1_infinity ->
  RecoverAppPrivateKey id sigs (Z.of_nat t) = Ok (psig Q (peval p 0)).
Proof.
  intros HQ Ht Hs Hnd Hne. destruct (chosen_spec sigs t ltac:(lia) Hnd) as (Hlen & Hndc & _).
  rewrite (recover_sum id Q (fun a => peval p (AddressToFr a))) by (done || lia).
  cbn [mbind res_bind]. rewrite lagrange_sum_eval by (done || lia).
  assert (HQne : Q <> g1_infinity).
  { intros ->. apply Hne. rewrite <- (act1_zero g1_infinity) at 1 by done. rewrite act1_mul by done.
    replace (0 * peval p 0) with fr_zero by ring. by apply act1_zero. }
  rewrite G1_IsZero_sig by done. cbn [mbind res_bind].
  rewrite bool_decide_false; [done|]. intros Hz. apply Hne. rewrite Hz. by apply act1_zero.
Qed.

(** Any threshold number of honest partial signatures recovers the application key:
    if at least [t] operators sign [appID] with values of a polynomial with at most [t]
    coefficients, [RecoverAppPrivateKey] returns [p(0) * H(appID)], whichever operators
    they are and whatever order the map is iterated in. *)
Theorem recover_app_private_key (id : string) (Q : G1) (p : list Fr) (sigs : gmap Address G1Point) (t : nat) :
  hash_to_g1 (string_bytes id) = Some Q ->
  (length p <= t <= size sigs)%nat ->
  (forall a s, sigs !! a = Some s -> ScalarMulG1 (mkG1Point (g1_bytes Q)) (Some (peval p (AddressToFr a))) = Ok s) ->
  NoDup (xcoords (map_to_list sigs).*1) ->
  act1 Q (peval p 0) <> g1_infinity ->
  RecoverAppPrivateKey id sigs (Z.of_nat t) = ScalarMulG1 (mkG1Point (g1_bytes Q)) (Some (peval p 0)).
Proof.
  intros Hid Ht Hs Hnd Hne. assert (HQ : g1_in_subgroup Q = true) by by eapply g1_ok_hash.
  assert (Hmul : forall a, ScalarMulG1 (mkG1Point (g1_bytes Q)) (Some a) = Ok (psig Q a)).
  { intros a. rewrite sig_1, ScalarMulG1_sig by done. do 2 f_equal. ring. }
  rewrite Hmul. apply recover_honest; try done. intros a s Ha%Hs. rewrite Hmul in Ha. congruence.
Qed.

Lemma decode_g1 b P : g1_set_bytes b = Some P -> G1PointFromCompressedBytes b = Ok P.
Proof. unfold G1PointFromCompressedBytes. by intros ->. Qed.

Lemma decode_g2 b P : g2_set_bytes b = Some P -> G2PointFromCompressedBytes b = Ok P.
Proof. unfold G2PointFromCompressedBytes. by intros ->. Qed.

Lemma verify_app_key_spec (id : string) (Q key : G1) (k : G1Point) (mpk : G2Point) (s : Fr) :
  hash_to_g1 (string_bytes id) = Some Q ->
  g1_set_bytes (g1_compressed k) = Some key -> opens mpk s ->
  VerifyAppPrivateKey id k mpk = Ok (bool_decide (g1_bytes key = g1_bytes (act1 Q s))).
Proof.
  intros Hid Hk Hmpk. assert (HQ : g1_in_subgroup Q = true) by by eapply g1_ok_hash.
  assert (Hkey : g1_in_subgroup key = true) by by eapply g1_set_bytes_ok.
  unfold VerifyAppPrivateKey, HashToG1, bls_HashToG1. rewrite Hid. cbn [from_opt wrap mbind res_bind].
  rewrite (decode_g1 _ _ Hk). cbn [wrap mbind res_bind].
  rewrite (decode_g2 (g2_compressed G2Generator) g2_gen) by apply g2_set_bytes_bytes, g2_ok_gen.
  cbn [wrap mbind res_bind g1_compressed]. rewrite (decode_g1 (g1_bytes Q) Q) by by apply g1_set_bytes_bytes.
  cbn [wrap mbind res_bind]. rewrite (decode_opens _ _ Hmpk). cbn [wrap mbind res_bind].
  rewrite PairingCheck_spec. cbn [from_opt]. f_equal. apply eq_true_iff_eq.
  rewrite gt_is_one_spec, bool_decide_eq_true, pairing_neg by auto.
  assert (Hswap : pairing Q (act2 g2_gen s) = pairing (act1 Q s) g2_gen).
  { pose proof (pairing_bilinear Q g2_gen 1 s HQ g2_ok_gen) as H1.
    pose proof (pairing_bilinear Q g2_gen s 1 HQ g2_ok_gen) as H2.
    rewrite act1_one in H1 by done.
    replace (act2 g2_gen 1) with g2_gen in H2.
    - rewrite H1, H2. do 2 f_equal. ring.
    - destruct (g2_gen_generates g2_gen g2_ok_gen) as [u Hu].
      rewrite Hu at 2. rewrite act2_mul by apply g2_ok_gen. rewrite Hu at 1. f_equal. ring. }
  rewrite Hswap. split.
  - intros Hp. f_equal. apply pairing_nondegenerate; [done|by apply g1_ok_act|done].
  - intros Hb. apply (f_equal g1_set_bytes) in Hb.
    rewrite !g1_set_bytes_bytes in Hb by (done || by apply g1_ok_act). congruence.
Qed.

(** [VerifyAppPrivateKey] accepts exactly the right key: for a master public key
    [s * G2] and a candidate that decodes, it answers [true] iff the candidate is
    [s * H(appID)]. *)
Theorem verify_app_private_key (id : string) (Q key : G1) (k : G1Point) (mpk : G2Point) (s : Fr) :
  hash_to_g1 (string_bytes id) = Some Q ->
  g1_set_bytes (g1_compressed k) = Some key -> opens mpk s ->
  VerifyAppPrivateKey id k mpk = Ok (bool_decide (g1_bytes key = g1_bytes (act1 Q s))).
Proof. apply verify_app_key_spec. Qed.
End RecoverFacts.

(** ** The search visits every combination *)

(** The combinations of [t] values of [lo, lo + w), in lexicographic order. *)
Fixpoint combs (w : nat) (lo : Z) (t : nat) : list (list Z) :=
  match t, w with
  | O, _ => [[]]
  | S _, O => []
  | S t', S w => (cons lo <$> combs w (lo + 1) t') ++ combs w (lo + 1) t
  end.

(** Pascal's triangle. *)
Fixpoint choose (n k : nat) : nat :=
  match k, n with
  | O, _ => 1
  | S _, O => 0
  | S k', S n => choose n k' + choose n k
  end.

Lemma length_combs w lo t : length (combs w lo t) = choose w t.
Proof.
  revert lo t. induction w as [|w IH]; intros lo [|t]; simpl; [done..|].
  by rewrite length_app, length_fmap, !IH.
Qed.

Lemma combs_length w lo t c : c ∈ combs w lo t -> length c = t.
Proof.
  revert lo t c. induction w as [|w IH]; intros lo [|t] c; simpl;
    [by intros ->%list_elem_of_singleton|by intros ?%not_elem_of_nil
    |by intros ->%list_elem_of_singleton|].
  rewrite elem_of_app, list_elem_of_fmap. intros [(c' & -> & Hc)|Hc]; simpl; eauto.
Qed.

(** The structural reading of [advance]. *)
Fixpoint next (n : Z) (l : list Z) : option (list Z) :=
  match l with
  | [] => None
  | x :: l =>
      match next n l with
      | Some l' => Some (x :: l')
      | None => if decide (x = n - Z.of_nat (length l) - 1) then None
                else Some ((x + 1) :: refill (x + 1) l)
      end
  end.

Lemma last_movable_cons n t x l i :
  last_movable n t (x :: l) (S i) =
  match last_movable n (t - 1) l i with
  | Some j => Some (S j)
  | None => if decide (x = n - t) then None else Some O
  end.
Proof.
  induction i as [|i IH].
  - simpl. rewrite Z.add_0_r. destruct (decide (x = n - t)), (decide (Some x = Some (n - t)));
      congruence.
  - cbn [last_movable] in *. rewrite IH. simpl lookup.
    replace (n - t + Z.of_nat (S i)) with (n - (t - 1) + Z.of_nat i) by lia.
    by destruct (decide (l !! i = Some (n - (t - 1) + Z.of_nat i))).
Qed.

Lemma advance_next n l : advance n (Z.of_nat (length l)) l = next n l.
Proof.
  induction l as [|x l IH]; [done|]. unfold advance in *. cbn [length next].
  rewrite last_movable_cons, <- IH.
  replace (Z.of_nat (S (length l)) - 1) with (Z.of_nat (length l)) by lia.
  destruct (last_movable n (Z.of_nat (length l)) l (length l)) as [j|]; [done|].
  replace (n - Z.of_nat (S (length l))) with (n - Z.of_nat (length l) - 1) by lia.
  destruct (decide (x = n - Z.of_nat (length l) - 1)); [done|]. simpl. by rewrite drop_0.
Qed.

(** [chain nx L e] : [nx] steps through [L], and answers [e] on its last element. *)
Fixpoint chain (nx : list Z -> option (list Z)) (L : list (list Z)) (e : option (list Z)) : Prop :=
  match L with
  | [] => True
  | c :: L => nx c = match L with [] => e | c' :: _ => Some c' end /\ chain nx L e
  end.

Lemma chain_app nx L1 L2 e :
  chain nx L1 (match L2 with [] => e | c :: _ => Some c end) -> chain nx L2 e -> chain nx (L1 ++ L2) e.
Proof.
  intros H1 H2. induction L1 as [|c L1 IH]; [done|]. simpl in *. destruct H1 as [Hc H1].
  split; [|by apply IH]. rewrite Hc. by destruct L1, L2.
Qed.

Lemma refill_seq x l : x :: refill x l = seqZ x (Z.of_nat (S (length l))).
Proof.
  revert x. induction l as [|y l IH]; intros x; simpl.
  - done.
  - rewrite IH. simpl length. rewrite (seqZ_cons x) by lia.
    f_equal. replace (Z.succ x) with (x + 1) by lia. f_equal; lia.
Qed.

Lemma combs_head w lo t : (t <= w)%nat -> head (combs w lo t) = Some (seqZ lo (Z.of_nat t)).
Proof.
  revert lo t. induction w as [|w IH]; intros lo [|t] Ht; simpl; [done|lia|done|].
  specialize (IH (lo + 1) t ltac:(lia)).
  destruct (combs w (lo + 1) t) as [|c cs]; [done|]. simpl in *. injection IH as ->.
  rewrite (seqZ_cons lo) by lia. do 2 f_equal. f_equal; lia.
Qed.

Lemma combs_nil w lo t : (w < t)%nat -> combs w lo t = [].
Proof.
  revert lo t. induction w as [|w IH]; intros lo [|t] Ht; simpl; [lia|done|lia|].
  rewrite !IH by lia. done.
Qed.

Lemma next_cons_last w lo c t : c ∈ combs w (lo + 1) t -> next (lo + 1 + Z.of_nat w) c = None ->
  next (lo + 1 + Z.of_nat w) (lo :: c) = head (combs w (lo + 1) (S t)).
Proof.
  intros Hc Hn. assert (Hlen := combs_length _ _ _ _ Hc). cbn [next]. rewrite Hn, Hlen.
  destruct (decide (lo = lo + 1 + Z.of_nat w - Z.of_nat t - 1)).
  - rewrite combs_nil by lia. done.
  - destruct (le_lt_dec (S t) w) as [Hle|Hlt].
    + rewrite combs_head by done. by rewrite refill_seq, Hlen.
    + rewrite combs_nil in Hc by lia. set_solver.
Qed.

Lemma chain_cons n lo L e : chain (next n) L None ->
  (forall c, c ∈ L -> next n c = None -> next n (lo :: c) = e) -> chain (next n) (cons lo <$> L) e.
Proof.
  induction L as [|c L IH]; [done|]. rewrite fmap_cons. intros [Hc Hch] He. split.
  - destruct L as [|c' L]; [by apply He; [left|]|]. rewrite fmap_cons. cbn [next]. by rewrite Hc.
  - apply IH; [done|]. intros; apply He; [by right|done].
Qed.

Lemma combs_chain w lo t : chain (next (lo + Z.of_nat w)) (combs w lo t) None.
Proof.
  revert lo t. induction w as [|w IH]; intros lo [|t]; cbn [combs]; [done..|].
  replace (lo + Z.of_nat (S w)) with (lo + 1 + Z.of_nat w) by lia.
  apply chain_app; [|apply IH]. apply chain_cons; [apply IH|].
  intros c Hc Hn. rewrite (next_cons_last w lo c t) by done. by destruct (combs w (lo + 1) (S t)).
Qed.

Lemma combs_bound w lo t c : c ∈ combs w lo t -> (t <= w)%nat.
Proof.
  intros Hc. destruct (le_lt_dec t w) as [|Hlt]; [done|]. rewrite combs_nil in Hc by done.
  by apply not_elem_of_nil in Hc.
Qed.

(** The search returns the first success among the first [fuel] combinations. *)
Lemma search_chain {A} nx (try : list Z -> option A) fuel c L k : chain nx (c :: L) None ->
  forall a, search nx try fuel c k = Found a <-> head (omap try (take fuel (c :: L))) = Some a.
Proof.
  revert c L k. induction fuel as [|fuel IH]; intros c L k [Hc Hch] a; cbn [search take omap list_omap].
  - done.
  - destruct (try c) as [r|]; [simpl; split; congruence|].
    destruct fuel as [|fuel]; [done|]. destruct L as [|c' L]; rewrite Hc; [done|].
    apply IH. done.
Qed.

Lemma combs_in w lo t l : length l = t ->
  StronglySorted Z.lt l -> Forall (fun x => lo <= x < lo + Z.of_nat w) l -> l ∈ combs w lo t.
Proof.
  revert lo t l. induction w as [|w IH]; intros lo t l Hlen Hs Hall.
  - destruct l as [|x l]; subst; [by left|]. inversion Hall; subst. lia.
  - destruct l as [|x l]; simpl in Hlen; subst t; [by left|]. cbn [combs].
    inversion Hs as [|? ? Hs' Hlt]; subst. inversion Hall as [|? ? Hx Hall']; subst.
    apply elem_of_app. destruct (decide (x = lo)) as [->|Hne].
    + left. apply list_elem_of_fmap. exists l. split; [done|]. apply IH; try done.
      rewrite Forall_forall in *. intros y Hy. specialize (Hlt y Hy). specialize (Hall' y Hy). lia.
    + right. apply IH; try done. constructor; [lia|].
      rewrite Forall_forall in *. intros y Hy. specialize (Hlt y Hy). specialize (Hall' y Hy). lia.
Qed.

Lemma chain_ext nx nx' L e : (forall c, c ∈ L -> nx c = nx' c) -> chain nx L e -> chain nx' L e.
Proof.
  induction L as [|c L IH]; [done|]. intros Hnx [Hc Hch]. split.
  - rewrite <- Hnx by by left. done.
  - apply IH; [|done]. intros; apply Hnx. by right.
Qed.

(** The positions of a list at which [f] holds. *)
Fixpoint positions {A} (f : A -> bool) (off : Z) (l : list A) : list Z :=
  match l with
  | [] => []
  | a :: l => if f a then off :: positions f (off + 1) l else positions f (off + 1) l
  end.

Lemma positions_range {A} (f : A -> bool) off l :
  Forall (fun x => off <= x < off + Z.of_nat (length l)) (positions f off l).
Proof.
  revert off. induction l as [|a l IH]; intros off; simpl; [constructor|].
  specialize (IH (off + 1)). eapply Forall_impl in IH; [|intros x Hx; simpl in Hx; shelve].
  destruct (f a); [constructor; [lia|]|]; exact IH.
  Unshelve. simpl. lia.
Qed.

Lemma positions_sorted {A} (f : A -> bool) off l : StronglySorted Z.lt (positions f off l).
Proof.
  revert off. induction l as [|a l IH]; intros off; simpl; [constructor|].
  destruct (f a); [|done]. constructor; [done|].
  eapply Forall_impl; [apply positions_range|]. simpl. lia.
Qed.

Lemma positions_pick {A} (f : A -> bool) pre l :
  omap (fun i => (pre ++ l) !! Z.to_nat i) (positions f (Z.of_nat (length pre)) l)
  = filter (fun a => f a = true) l.
Proof.
  revert pre. induction l as [|a l IH]; intros pre; [done|]. rewrite filter_cons. simpl.
  specialize (IH (pre ++ [a])). rewrite <- app_assoc, length_app, Nat2Z.inj_add in IH.
  change (Z.of_nat (length [a])) with 1 in IH. cbn [app] in IH. destruct (f a); simpl.
  - rewrite Nat2Z.id, list_lookup_middle by done. f_equal. exact IH.
  - exact IH.
Qed.
Lemma length_positions {A} (f : A -> bool) off l :
  length (positions f off l) = length (filter (fun a => f a = true) l).
Proof.
  revert off. induction l as [|a l IH]; intros off; [done|]. rewrite filter_cons. simpl.
  destruct (f a); simpl; by rewrite IH.
Qed.

Section Retry.
Context `{GnarkLaws}.
Local Open Scope fr_scope.

(** The signers a combination of positions selects. *)
Definition pick (partialSigs : gmap Address G1Point) (c : list Z) : list Address :=
  omap (fun idx => sort_addrs (map_to_list partialSigs).*1 !! Z.to_nat idx) c.

Lemma retry_first_valid id (sigs : gmap Address G1Point) (t : nat) validate maxAttempts k :
  (t <= size sigs)%nat ->
  recoverAppPrivateKeyWithRetry id sigs (Z.of_nat t) validate maxAttempts = Ok k <->
  head (omap (fun c => trySubset id sigs (Z.of_nat t) validate (pick sigs c))
          (take (Z.to_nat (Z.max 1 maxAttempts)) (combs (size sigs) 0 t))) = Some k.
Proof.
  intros Ht. unfold recoverAppPrivateKeyWithRetry.
  destruct (Z.ltb_spec (Z.of_nat (size sigs)) (Z.of_nat t)); [lia|]. rewrite length_dom_list.
  set (nx := advance _ _). set (try := fun _ => _). set (fuel := Z.to_nat _).
  assert (Hch : chain nx (combs (size sigs) 0 t) None).
  { eapply chain_ext; [|apply combs_chain]. intros c Hc. unfold nx. simpl.
    by rewrite <- (combs_length _ _ _ _ Hc), advance_next. }
  pose proof (combs_head (size sigs) 0 t Ht) as Hhd.
  destruct (combs (size sigs) 0 t) as [|c L]; [done|]. injection Hhd as <-.
  pose proof (search_chain nx try fuel c L 0 Hch) as Hs. fold (pick sigs).
  change (fun c : list Z => trySubset id sigs (Z.of_nat t) validate (pick sigs c)) with try.
  rewrite <- (Hs k). destruct (search nx try fuel c 0); split; congruence.
Qed.

Lemma trySubset_honest id Q p (sigs : gmap Address G1Point) (t : nat) validate honest :
  g1_in_subgroup Q = true -> (length p <= t)%nat -> length honest = t ->
  (forall a, a ∈ honest -> sigs !! a = Some (psig Q (peval p (AddressToFr a)))) ->
  NoDup (xcoords honest) -> act1 Q (peval p 0) <> g1_infinity ->
  validate (psig Q (peval p 0)) = true ->
  trySubset id sigs (Z.of_nat t) validate honest = Some (psig Q (peval p 0)).
Proof.
  intros HQ Hp Hlen Hs Hnd Hne Hv. unfold trySubset.
  set (m := foldl _ _ _).
  assert (Hm : forall a, m !! a = if decide (a ∈ honest) then sigs !! a else None).
  { intros a. unfold m. rewrite lookup_foldl_insert. case_decide as Ha; [|done].
    by rewrite (Hs a Ha). }
  assert (Hkeys : (map_to_list m).*1 ≡ₚ honest).
  { apply keys_permutation; [by eapply NoDup_xcoords|]. intros a. rewrite Hm.
    case_decide as Ha; [|by split; [intros [? [=]]|]]. rewrite (Hs a Ha). by split; [|eauto]. }
  rewrite (recover_honest id Q p m t); try done.
  - by rewrite Hv.
  - split; [done|]. rewrite <- length_map_to_list, <- (length_fmap fst), Hkeys. lia.
  - intros a s Ha. rewrite Hm in Ha. case_decide as Hin; [|done]. rewrite (Hs a Hin) in Ha. congruence.
  - unfold xcoords. by rewrite Hkeys.
Qed.

Lemma honest_combination id Q p (sigs : gmap Address G1Point) (t : nat) validate honest :
  g1_in_subgroup Q = true -> (length p <= t)%nat -> length honest = t ->
  (forall a, a ∈ honest -> sigs !! a = Some (psig Q (peval p (AddressToFr a)))) ->
  NoDup (xcoords honest) -> act1 Q (peval p 0) <> g1_infinity ->
  validate (psig Q (peval p 0)) = true ->
  exists c, c ∈ combs (size sigs) 0 t /\
    trySubset id sigs (Z.of_nat t) validate (pick sigs c) = Some (psig Q (peval p 0)).
Proof.
  intros HQ Hp Hlen Hs Hnd Hne Hv. set (all := sort_addrs (map_to_list sigs).*1).
  set (f := fun a => bool_decide (a ∈ honest)). exists (positions f 0 all).
  assert (Hfil : filter (fun a => f a = true) all ≡ₚ honest).
  { apply NoDup_Permutation.
    - apply NoDup_filter. unfold all. rewrite sort_addrs_perm. apply NoDup_fst_map_to_list.
    - by eapply NoDup_xcoords.
    - intros a. rewrite list_elem_of_filter. unfold f. rewrite bool_decide_eq_true. split; [tauto|].
      intros Ha. split; [done|]. unfold all. rewrite sort_addrs_perm. apply elem_of_keys.
      rewrite Hs by done. eauto. }
  assert (Hpick : pick sigs (positions f 0 all) ≡ₚ honest).
  { rewrite <- Hfil. unfold pick. fold all. by apply (eq_ind _ (fun l => l ≡ₚ _) (reflexivity _) _ (eq_sym (positions_pick f [] all))). }
  split.
  - apply combs_in; [by rewrite length_positions, Hfil|apply positions_sorted|].
    rewrite <- length_dom_list. apply positions_range.
  - apply trySubset_honest; try done.
    + by rewrite Hpick.
    + intros a Ha. apply Hs. by rewrite <- Hpick.
    + unfold xcoords. by rewrite Hpick.
Qed.

Lemma AddG1_canonical a b c : AddG1 a b = Ok c -> exists P, g1_in_subgroup P = true /\ c = mkG1Point (g1_bytes P).
Proof.
  unfold AddG1. intros Hadd. res_ok. eexists. split; [|done].
  unfold bls_AddG1 in *. repeat case_match; simplify_eq. 
  apply g1_ok_add; by apply negb_false_iff.
Qed.

Lemma recover_canonical id sigs t k : RecoverAppPrivateKey id sigs t = Ok k ->
  exists P, g1_in_subgroup P = true /\ k = mkG1Point (g1_bytes P).
Proof.
  unfold RecoverAppPrivateKey. case_match; [done|]. intros Hk. res_ok. case_match; [done|].
  simplify_eq. revert select (for_each _ _ _ = Ok _).
  apply (for_each_inv (fun r => exists P, g1_in_subgroup P = true /\ r = mkG1Point (g1_bytes P)));
    [|exists g1_infinity; split; [apply g1_ok_infinity|done]].
  intros a s s' _ _ Hstep. unfold recover_step in Hstep. res_ok. by eapply AddG1_canonical.
Qed.

(** What [trySubset] returns passed the caller's check and is canonical. *)
Lemma trySubset_sound id sigs t validate l k : trySubset id sigs t validate l = Some k ->
  validate k = true /\ exists P, g1_in_subgroup P = true /\ k = mkG1Point (g1_bytes P).
Proof.
  unfold trySubset. case_match eqn:Hr; [|done]. case_match; [|done]. intros [= ->].
  split; [done|]. by eapply recover_canonical.
Qed.

End Retry.

Section RetryComplete.
Context `{GnarkLaws}.
Local Open Scope fr_scope.

(** The validation callback of the client: pairing check against the master key. *)
Definition validates (id : string) (mpk : G2Point) (k : G1Point) : bool :=
  match VerifyAppPrivateKey id k mpk with Ok b => b | Err _ => false end.

(** C24: The retrying recovery tolerates wrong signatures: if [t] of the collected
    signatures are honest values of one sharing polynomial, the master key is its
    commitment, and the attempt cap is at least the number [C(n, t)] of subsets, then
    the search returns exactly [p(0) * H(appID)], whatever the other entries are. *)
Theorem recover_with_retry_correct (id : string) (Q : G1) (p : list Fr) (sigs : gmap Address G1Point)
    (t : nat) (mpk : G2Point) (honest : list Address) (maxAttempts : Z) :
  hash_to_g1 (string_bytes id) = Some Q ->
  (length p <= t)%nat -> length honest = t -> NoDup (xcoords honest) ->
  (forall a, a ∈ honest -> sigs !! a = Some (mkG1Point (g1_bytes (act1 Q (peval p (AddressToFr a)))))) ->
  act1 Q (peval p 0) <> g1_infinity -> opens mpk (peval p 0) ->
  (Z.of_nat (choose (size sigs) t) <= maxAttempts)%Z ->
  recoverAppPrivateKeyWithRetry id sigs (Z.of_nat t) (validates id mpk) maxAttempts
  = Ok (mkG1Point (g1_bytes (act1 Q (peval p 0)))).
Proof.
  intros Hid Hp Hlen Hnd Hs Hne Hmpk Hmax.
  assert (HQ : g1_in_subgroup Q = true) by by eapply g1_ok_hash.
  assert (Hval : forall P, g1_in_subgroup P = true -> validates id mpk (mkG1Point (g1_bytes P)) = true
            <-> g1_bytes P = g1_bytes (act1 Q (peval p 0))).
  { intros P HP. unfold validates.
    rewrite (verify_app_key_spec id Q P (mkG1Point (g1_bytes P)) mpk (peval p 0)) by (done || by apply g1_set_bytes_bytes).
    by rewrite bool_decide_eq_true. }
  destruct (honest_combination id Q p sigs t (validates id mpk) honest) as (c & Hc & Htry); try done.
  { by apply Hval; [apply g1_ok_act|]. }
  apply retry_first_valid; [by eapply combs_bound|].
  rewrite take_ge by (rewrite length_combs; lia).
  destruct (head _) as [k|] eqn:Hhd.
  - assert (Hk : k ∈ omap (fun c => trySubset id sigs (Z.of_nat t) (validates id mpk) (pick sigs c))
                    (combs (size sigs) 0 t)) by by apply head_Some_elem_of.
    apply list_elem_of_omap in Hk as (c' & _ & Hk).
    apply trySubset_sound in Hk as (Hv & P & HP & ->). f_equal.
    apply (Hval P HP) in Hv. by rewrite Hv.
  - apply head_None in Hhd. exfalso. eapply not_elem_of_nil. rewrite <- Hhd.
    apply list_elem_of_omap. eauto.
Qed.
End RetryComplete.

(** ** Witnesses: three operators, a degree-one polynomial over the integers mod 97 *)

#[local] Existing Instances toy97 toy97_laws.

Definition toy_poly : list Fr := [toy_fr 5; toy_fr 7].
Definition toy_id : G1 := toy_g1 (be_val (toy_digest (string_bytes "app-1"))).
Definition toy_psig (a : Address) : G1Point := psig toy_id (peval toy_poly (AddressToFr a)).
Definition toy_sigs : gmap Address G1Point := <[1 := toy_psig 1]> (<[2 := toy_psig 2]> (<[3 := toy_psig 3]> ∅)).
(** The same map with the first signature replaced. *)
Definition toy_bad_sigs : gmap Address G1Point := <[1 := mkG1Point []]> toy_sigs.

Lemma recover_app_private_key_witness :
  RecoverAppPrivateKey "app-1" toy_sigs 2 = ScalarMulG1 (mkG1Point (g1_bytes toy_id)) (Some (peval toy_poly fr_zero)).
Proof.
  apply (recover_app_private_key "app-1" toy_id toy_poly toy_sigs 2).
  - reflexivity.
  - vm_compute. lia.
  - apply (map_Forall_lookup (fun a s => ScalarMulG1 _ (Some (peval toy_poly (AddressToFr a))) = Ok s)).
    by_compute.
  - by_compute.
  - by_compute.
Defined.

Lemma verify_app_private_key_witness :
  VerifyAppPrivateKey "app-1" (psig toy_id (toy_fr 5)) (com (toy_fr 5)) = Ok true.
Proof.
  rewrite (verify_app_private_key "app-1" toy_id (act1 toy_id (toy_fr 5)) _ _ (toy_fr 5)).
  - reflexivity.
  - reflexivity.
  - by_compute.
  - unfold opens. by_compute.
Defined.

Lemma recover_with_retry_correct_witness :
  recoverAppPrivateKeyWithRetry "app-1" toy_bad_sigs 2 (validates "app-1" (com (toy_fr 5))) 3
  = Ok (mkG1Point (g1_bytes (act1 toy_id (peval toy_poly fr_zero)))).
Proof.
  apply (recover_with_retry_correct "app-1" toy_id toy_poly toy_bad_sigs 2 _ [2; 3]).
  - reflexivity.
  - vm_compute. lia.
  - reflexivity.
  - by_compute.
  - apply Forall_forall. by_compute.
  - by_compute.
  - unfold opens. by_compute.
  - by_compute.
Defined.
