(* ===== verification/Merkle.v ===== *)
(** * Acknowledgement merkle trees: [pkg/merkle]

    go-merkletree is not part of the repository: [MerkleLib] lists the calls the
    program makes and [MerkleLibLaws] the documented round trip (a proof generated for
    a leaf of a tree of distinct leaves carries the leaf's index and verifies against the
    root).  The file defines the program's wrapper and shows that the tree does not
    depend on the order in which acknowledgements arrived and that every generated
    proof verifies. *)

From S2P Require Import Prelude Bytes Types Fr Gnark Crypto Toy.

Class MerkleLib := {
  Tree : Type;
  tree_new : list bytes -> option Tree;              (* NewUsing(leaves, keccak256, false) *)
  tree_root : Tree -> bytes;                          (* Root *)
  tree_proof : Tree -> bytes -> option (list bytes);  (* GenerateProof(leaf, 0).Hashes *)
  tree_verify : bytes -> list bytes -> Z -> bytes -> option bool  (* VerifyProofUsing *)
}.

Class MerkleLibLaws `{MerkleLib} : Prop := {
  tree_new_ok leaves : leaves <> [] -> is_Some (tree_new leaves);
  tree_roundtrip leaves t i leaf :
    tree_new leaves = Some t -> NoDup leaves -> leaves !! i = Some leaf ->
    exists hs, tree_proof t leaf = Some hs /\ tree_verify leaf hs (Z.of_nat i) (tree_root t) = Some true
}.

Section Merkle.
Context `{Gnark} `{MerkleLib}.

Record MerkleTree := mkMerkleTree { Leaves : list bytes; Root : bytes; internalTree : Tree }.
Record MerkleProof := mkMerkleProof { LeafIndex : Z; Leaf : bytes; Proof_ : list bytes }.

(** The comparison of [SortAcknowledgements]: the first differing byte decides. *)
Definition ack_less (a b : Acknowledgement) : bool := addr_ltb (PlayerAddress a) (PlayerAddress b).
Definition SortAcknowledgements (acks : list Acknowledgement) : list Acknowledgement := go_sort ack_less acks.

Definition BuildMerkleTree (acks : list Acknowledgement) : res MerkleTree :=
  if (length acks =? 0)%nat then Err "cannot build merkle tree from empty acknowledgement list" else
  let sortedAcks := SortAcknowledgements acks in
  let leafHashes := HashAcknowledgementForMerkle <$> sortedAcks in
  tree ← from_opt "failed to build merkle tree" (tree_new leafHashes);
  Ok (mkMerkleTree leafHashes (tree_root tree) tree).

Definition GenerateProof (mt : MerkleTree) (leafIndex : Z) : res MerkleProof :=
  if (leafIndex <? 0) || (leafIndex >=? Z.of_nat (length (Leaves mt)))
  then Err "leaf index %d out of bounds (tree has %d leaves)" else
  let leaf := default [] (Leaves mt !! Z.to_nat leafIndex) in
  proof ← from_opt "failed to generate proof" (tree_proof (internalTree mt) leaf);
  Ok (mkMerkleProof leafIndex leaf proof).

Definition VerifyProof (proof : option MerkleProof) (root : bytes) : bool :=
  match proof with
  | None => false
  | Some proof =>
      match tree_verify (Leaf proof) (Proof_ proof) (LeafIndex proof) root with
      | Some verified => verified
      | None => false
      end
  end.

(** [dkg.BuildAcknowledgementMerkleTree], to which [reshare] delegates: no tree for
    no acknowledgements. *)
Definition BuildAcknowledgementMerkleTree (acks : list Acknowledgement) : res (option MerkleTree) :=
  if (length acks =? 0)%nat then Ok None else tree ← BuildMerkleTree acks; Ok (Some tree).
End Merkle.

Section MerkleFacts.
Context `{GnarkLaws} `{MerkleLibLaws}.

Lemma SortAcknowledgements_unique acks acks' :
  Forall valid_addr (PlayerAddress <$> acks) -> NoDup (PlayerAddress <$> acks) -> acks ≡ₚ acks' ->
  SortAcknowledgements acks = SortAcknowledgements acks'.
Proof. exact (go_sort_by_addr_unique PlayerAddress acks acks'). Qed.

(** C40: Every node builds the same tree from the same acknowledgements: with one
    acknowledgement per player the tree does not depend on the order of arrival. *)
Theorem merkle_tree_order_independent acks acks' :
  Forall valid_addr (PlayerAddress <$> acks) -> NoDup (PlayerAddress <$> acks) -> acks ≡ₚ acks' ->
  BuildMerkleTree acks = BuildMerkleTree acks'.
Proof.
  intros Hv Hnd Hp. unfold BuildMerkleTree.
  by rewrite (SortAcknowledgements_unique acks acks'), Hp.
Qed.

(** Merkle round trip: a tree is built from every non-empty acknowledgement list
    and, when the leaf hashes are distinct, each acknowledgement has an index whose
    generated proof is accepted against the root. *)
Theorem merkle_proof_roundtrip acks :
  acks <> [] -> NoDup (HashAcknowledgementForMerkle <$> acks) ->
  exists t, BuildMerkleTree acks = Ok t /\
    forall ack, ack ∈ acks -> exists i proof,
      GenerateProof t i = Ok proof /\ Leaf proof = HashAcknowledgementForMerkle ack /\
      VerifyProof (Some proof) (Root t) = true.
Proof.
  intros Hne Hnd. unfold BuildMerkleTree. destruct (Nat.eqb_spec (length acks) 0) as [Hz|_].
  { by apply nil_length_inv in Hz. }
  set (leaves := HashAcknowledgementForMerkle <$> SortAcknowledgements acks).
  assert (Hperm : leaves ≡ₚ HashAcknowledgementForMerkle <$> acks).
  { unfold leaves, SortAcknowledgements. by rewrite go_sort_perm. }
  destruct (tree_new_ok leaves) as [t Ht].
  { intros Hl. rewrite Hl in Hperm. apply Permutation_nil_l in Hperm. by destruct acks. }
  rewrite Ht. eexists; split; [done|]. intros ack Hack. cbn [Leaves Root internalTree].
  assert (Hin : HashAcknowledgementForMerkle ack ∈ leaves) by (rewrite Hperm; by apply list_elem_of_fmap_2).
  apply list_elem_of_lookup_1 in Hin as [i Hi].
  destruct (tree_roundtrip leaves t i (HashAcknowledgementForMerkle ack) Ht) as (hs & Hhs & Hv); [by rewrite Hperm|done|].
  exists (Z.of_nat i). unfold GenerateProof. cbn [Leaves internalTree].
  pose proof (lookup_lt_Some _ _ _ Hi) as Hlt.
  destruct (Z.ltb_spec (Z.of_nat i) 0); [lia|]. rewrite Z.geb_leb.
  destruct (Z.leb_spec (Z.of_nat (length leaves)) (Z.of_nat i)); [lia|]. cbn [orb].
  rewrite Nat2Z.id, Hi. cbn [default from_option id]. rewrite Hhs. cbn.
  eexists. split_and!; [done..|]. cbn. by rewrite Hv.
Qed.
End MerkleFacts.

(** A tree library for the witnesses: the proof of a leaf is the list of all leaves
    and the root is their concatenation. *)
Definition toy_tree : MerkleLib := {|
  Tree := list bytes;
  tree_new l := if (length l =? 0)%nat then None else Some l;
  tree_root t := toy_digest (concat t);
  tree_proof t leaf := if decide (leaf ∈ t) then Some t else None;
  tree_verify leaf hs i root :=
    Some (bool_decide (hs !! Z.to_nat i = Some leaf) && bool_decide (toy_digest (concat hs) = root))
|}.

Lemma toy_tree_laws : @MerkleLibLaws toy_tree.
Proof.
  split.
  - intros [|x l] Hl; [done|]. simpl. eauto.
  - intros leaves t i leaf Hn _ Hi. simpl in *. destruct (length leaves =? 0)%nat; [done|].
    injection Hn as <-. exists leaves. destruct (decide (leaf ∈ leaves)) as [_|Hni].
    + split; [done|]. rewrite Nat2Z.id, !bool_decide_true by done. done.
    + exfalso. apply Hni. by eapply list_elem_of_lookup_2.
Qed.

#[local] Existing Instances toy97 toy97_laws toy_tree toy_tree_laws.

Definition toy_ack (player : Address) : Acknowledgement := mkAck 9 player 1000 [1; 2] [3] [].

Lemma merkle_tree_order_independent_witness :
  BuildMerkleTree [toy_ack 3; toy_ack 1; toy_ack 2] = BuildMerkleTree [toy_ack 1; toy_ack 2; toy_ack 3].
Proof.
  apply (merkle_tree_order_independent [toy_ack 3; toy_ack 1; toy_ack 2]).
  - repeat constructor; simpl; lia.
  - by_compute.
  - by_compute.
Defined.

Lemma merkle_proof_roundtrip_witness :
  exists t, BuildMerkleTree [toy_ack 3; toy_ack 1] = Ok t /\
    forall ack, ack ∈ [toy_ack 3; toy_ack 1] -> exists i proof,
      GenerateProof t i = Ok proof /\ Leaf proof = HashAcknowledgementForMerkle ack /\
      VerifyProof (Some proof) (Root t) = true.
Proof. apply (merkle_proof_roundtrip [toy_ack 3; toy_ack 1]); [done|by_compute]. Defined.
