(* ===== verification/Dkg.v ===== *)
(** * Distributed key generation: [pkg/dkg]

    One record per instance, one definition per method.  The coefficients drawn by
    [SetRandom] are an input of [GenerateShares].  The theorems: a dealt share verifies
    and only the committed value does, the finalized shares lie on the sum of the
    dealers' polynomials, whose constant term is the discrete logarithm of the master
    public key, and the threshold is [ceil(2n/3)]. *)

From S2P Require Import Prelude Bytes Fr Lagrange Types Gnark Crypto CryptoFacts Recover Toy.
From Stdlib Require Import Field.

(** The accumulation shared by [DKG.VerifyShare] and [Reshare.VerifyNewShare]: from
    index 1 on, multiply the power, scale the commitment and add. *)
Fixpoint commitment_sum `{Gnark} (jFr jPower : Fr) (rightSide : G2Point) (rest : list G2Point) : res G2Point :=
  match rest with
  | [] => Ok rightSide
  | c :: rest =>
      let jPower := fr_mul jPower jFr in
      term ← ScalarMulG2 c (Some jPower);
      tmpRightSide ← AddG2 rightSide term;
      commitment_sum jFr jPower tmpRightSide rest
  end.

(** The loop of [SetRandom] calls: [None] is a failure of the random source. *)
Definition draw {F} (rnd : nat -> option F) (indices : list nat) : res (list F) :=
  mapM (M := res) (fun i => from_opt "failed to read randomness" (rnd i)) indices.

Section Dkg.
Context `{Gnark}.

Record DKG := mkDKG {
  nodeAddress : Address;
  threshold : Z;
  operators : list OperatorSetPeer;
  poly : list Fr
}.

Definition NewDKG (nodeAddress : Address) (threshold : Z) (operators : list OperatorSetPeer) : DKG :=
  mkDKG nodeAddress threshold operators [].

Definition GenerateShares (rnd : nat -> option Fr) (d : DKG) : res (DKG * gmap Address Fr * list G2Point) :=
  coeffs ← draw rnd (seq 0 (Z.to_nat (threshold d)));
  let d := mkDKG (nodeAddress d) (threshold d) (operators d) coeffs in
  let shares := foldl (fun shares op =>
      <[OperatorAddress op := EvaluatePolynomial coeffs (OperatorAddress op)]> shares) ∅ (operators d) in
  commitments ← mapM (M := res) (fun coeff => ScalarMulG2 G2Generator (Some coeff)) coeffs;
  Ok (d, shares, commitments).

Definition VerifyShare (d : DKG) (share : option Fr) (commitments : list G2Point) : bool :=
  match share, commitments with
  | Some share, c0 :: rest =>
      match ScalarMulG2 G2Generator (Some share) with
      | Err _ => false
      | Ok leftSide =>
          match commitment_sum (AddressToFr (nodeAddress d)) fr_one c0 rest with
          | Err _ => false
          | Ok rightSide => G2Point_IsEqual leftSide rightSide
          end
      end
  | _, _ => false
  end.

(** [combinedCommitments[idx] += commitments[idx]], skipping what fails to add. *)
Definition combine (combinedCommitments commitments : list G2Point) : list G2Point :=
  zip_with (fun acc commitment => match AddG2 acc commitment with Ok sum => sum | Err _ => acc end)
    combinedCommitments commitments.

Definition GetReshareEpoch : Z := 0.

Definition FinalizeKeyShare (d : DKG) (shares : gmap Address Fr) (allCommitments : list (list G2Point))
    (participantIDs : list Address) : KeyShareVersion Fr :=
  let privateShare := foldl (fun acc '(_, share) => fr_add acc share) fr_zero (map_to_list shares) in
  let expectedLen := Z.to_nat (threshold d) in
  let combinedCommitments :=
    if (0 <? length allCommitments)%nat then
      foldl (fun acc commitments =>
               if (length commitments =? expectedLen)%nat then combine acc commitments else acc)
            (replicate expectedLen ZeroG2Point) allCommitments
    else [] in
  mkKeyShareVersion GetReshareEpoch (Some privateShare) combinedCommitments None true participantIDs.
End Dkg.

(** Go's integer division truncates. *)
Definition CalculateThreshold (n : Z) : Z := Z.quot (2 * n + 2) 3.

(** The threshold is [n - floor(n/3)]: the protocol tolerates [floor(n/3)]
    missing operators, any two quorums of the same [n] operators share at least a
    third of them, and it is never 0 for a non-empty set nor above [n]. *)
Theorem calculate_threshold_bounds n : 0 <= n ->
  CalculateThreshold n = n - n / 3 /\ n <= 3 * (2 * CalculateThreshold n - n) /\
  CalculateThreshold n <= n /\ (0 < n -> 1 <= CalculateThreshold n).
Proof.
  intros Hn. unfold CalculateThreshold. rewrite Z.quot_div_nonneg by lia.
  pose proof (Z.div_mod (2 * n + 2) 3 ltac:(lia)). pose proof (Z.mod_pos_bound (2 * n + 2) 3 ltac:(lia)).
  pose proof (Z.div_mod n 3 ltac:(lia)). pose proof (Z.mod_pos_bound n 3 ltac:(lia)). lia.
Qed.

Section DkgFacts.
Context `{GnarkLaws}.
Local Open Scope fr_scope.

Add Field fr_field_dkg : (@fr_field Fr _ _).

Lemma commitment_sum_opens cs p : opens_list cs p -> forall x pow right b, opens right b ->
  exists right', commitment_sum x pow right cs = Ok right' /\ opens right' (b + x * pow * peval p x)
    /\ (cs = [] -> right' = right) /\ (cs <> [] -> right' = com (b + x * pow * peval p x)).
Proof.
  induction 1 as [|c a cs p Hc Hcs IH]; intros x pow right b Hb; cbn [commitment_sum].
  - exists right. split_and!; [done| |done|done]. cbn. by replace (b + x * pow * 0) with b by ring.
  - rewrite (ScalarMulG2_opens _ _ _ Hc). cbn [mbind res_bind].
    rewrite (AddG2_opens _ _ b (a * (pow * x))) by (done || by apply opens_com). cbn [mbind res_bind].
    destruct (IH x (pow * x) (com (b + a * (pow * x))) (b + a * (pow * x))) as (r & -> & Hr & Hn & Hne);
      [by apply opens_com|].
    assert (Heq : b + x * pow * peval (a :: p) x = b + a * (pow * x) + x * (pow * x) * peval p x)
      by (cbn; ring).
    exists r. rewrite Heq. split_and!; [done..|]. intros _. destruct cs as [|c' cs].
    + rewrite Hn by done. inversion Hcs; subst. f_equal. cbn. ring.
    + by apply Hne.
Qed.

Lemma commitment_sum_ok cs x pow right r : commitment_sum x pow right cs = Ok r ->
  (cs = [] /\ r = right) \/ (exists b p, opens right b /\ opens_list cs p).
Proof.
  revert pow right. induction cs as [|c cs IH]; intros pow right; cbn [commitment_sum].
  - intros [= ->]. auto.
  - intros Hr. right. res_ok. 
    match goal with Hm : ScalarMulG2 _ _ = _ |- _ => apply ScalarMulG2_ok in Hm as (a & Ha & ->) end.
    match goal with Hm : AddG2 _ _ = _ |- _ => apply AddG2_ok in Hm as (b & a' & Hb & _ & ->) end.
    destruct (IH _ _ Hr) as [[-> ->]|(b' & p & Hb' & Hp)].
    + exists b, [a]. split; [done|]. by constructor.
    + exists b, (a :: p). split; [done|]. by constructor.
Qed.

Lemma G2Generator_com : G2Generator = com fr_one.
Proof.
  unfold G2Generator, com. do 2 f_equal. destruct (g2_gen_generates g2_gen g2_ok_gen) as [u Hu].
  rewrite Hu at 2. rewrite act2_mul by apply g2_ok_gen. rewrite Hu at 1. f_equal. ring.
Qed.

Lemma commit_scalar s : ScalarMulG2 G2Generator (Some s) = Ok (com s).
Proof.
  rewrite G2Generator_com, (ScalarMulG2_opens _ 1) by by apply opens_com. do 2 f_equal. ring.
Qed.

Lemma commit_list p : mapM (M := res) (fun c => ScalarMulG2 G2Generator (Some c)) p = Ok (com <$> p).
Proof.
  induction p as [|c p IH]; [done|]. cbn [mapM]. rewrite commit_scalar. cbn [mbind res_bind].
  by rewrite IH.
Qed.

(** [share_check a s cs] is the common body of the two verification methods. *)
Lemma VerifyShare_sound d s cs : VerifyShare d (Some s) cs = true ->
  exists p, opens_list cs p /\ p <> [] /\ s = peval p (AddressToFr (nodeAddress d)).
Proof.
  unfold VerifyShare. destruct cs as [|c0 rest]; [done|]. rewrite commit_scalar.
  destruct (commitment_sum _ _ _ _) as [r|] eqn:Hr; [|done]. rewrite G2Point_IsEqual_eq.
  intros <-. destruct (commitment_sum_ok _ _ _ _ _ Hr) as [[-> <-]|(b & p & Hb & Hp)].
  - exists [s]. split_and!; [|done|cbn; ring]. constructor; [by apply opens_com|constructor].
  - exists (b :: p). split_and!; [by constructor|done|].
    destruct (commitment_sum_opens _ _ Hp (AddressToFr (nodeAddress d)) 1 c0 b Hb) as (r & Hr' & Ho & _).
    rewrite Hr in Hr'. injection Hr' as <-. apply opens_com in Ho. rewrite Ho. cbn. ring.
Qed.

Lemma VerifyShare_complete d p : p <> [] ->
  VerifyShare d (Some (peval p (AddressToFr (nodeAddress d)))) (com <$> p) = true.
Proof.
  intros Hp. unfold VerifyShare. destruct p as [|c p]; [done|]. rewrite fmap_cons, commit_scalar.
  set (x := AddressToFr _).
  destruct (commitment_sum_opens _ _ (opens_list_com p) x 1 (com c) c) as (r & -> & _ & Hn & Hne);
    [by apply opens_com|].
  apply G2Point_IsEqual_eq. destruct p as [|c' p].
  - rewrite Hn by done. f_equal. cbn. ring.
  - rewrite Hne by done. f_equal. cbn. ring.
Qed.

(** Verifiable secret sharing: [DKG.VerifyShare] accepts a share exactly when it is
    the value, at the verifier's own coordinate, of the polynomial the commitments open
    to; an empty commitment vector, an absent share and undecodable commitments are
    rejected. *)
Theorem verify_share_spec (d : DKG) (p : list Fr) (share : option Fr) (commitments : list G2Point) :
  (commitments = com <$> p ->
     VerifyShare d share commitments = true <-> p <> [] /\ share = Some (peval p (AddressToFr (nodeAddress d)))) /\
  (VerifyShare d share commitments = true ->
     exists q, opens_list commitments q /\ q <> [] /\ share = Some (peval q (AddressToFr (nodeAddress d)))).
Proof.
  assert (Hsound : VerifyShare d share commitments = true -> exists q, opens_list commitments q /\ q <> []
            /\ share = Some (peval q (AddressToFr (nodeAddress d)))).
  { destruct share as [s|]; [|by destruct commitments]. intros (q & Hq & Hne & ->)%VerifyShare_sound. eauto. }
  split; [|done]. intros ->. split.
  - intros (q & Hq & Hne & ->)%Hsound.
    rewrite (opens_list_fun _ _ _ (opens_list_com p) Hq). done.
  - intros [Hp ->]. by apply VerifyShare_complete.
Qed.

(** ** The sum of the dealers' polynomials *)

Definition psum (polys : list (list Fr)) : list Fr := foldr padd [] polys.

Lemma peval_psum polys x : peval (psum polys) x = fsum (fun p => peval p x) polys.
Proof.
  induction polys as [|p polys IH]; [done|]. unfold psum, fsum in *. cbn [foldr].
  by rewrite peval_padd, IH.
Qed.

Lemma padd_comm p q : padd p q = padd q p.
Proof. revert q. induction p as [|a p IH]; intros [|b q]; cbn; [done..|]. rewrite IH. f_equal. ring. Qed.

Lemma padd_assoc p q r : padd p (padd q r) = padd (padd p q) r.
Proof.
  revert q r. induction p as [|a p IH]; intros [|b q] [|c r]; cbn; [done..|].
  rewrite IH. f_equal. ring.
Qed.

Lemma psum_permutation polys polys' : polys ≡ₚ polys' -> psum polys = psum polys'.
Proof.
  induction 1; unfold psum in *; cbn [foldr]; [done|congruence| |congruence].
  by rewrite !padd_assoc, (padd_comm y x).
Qed.

Lemma combine_opens p cs q : opens_list cs q -> length p = length cs ->
  combine (com <$> p) cs = com <$> padd p q.
Proof.
  intros Hcs. revert p. induction Hcs as [|c a cs q Hc Hcs IH]; intros [|b p] Hlen; try done.
  unfold combine in *. rewrite fmap_cons. cbn [zip_with padd]. rewrite fmap_cons.
  rewrite IH by (simpl in Hlen; lia).
  by rewrite (AddG2_opens _ _ b a) by (done || by apply opens_com).
Qed.

Lemma combine_all t all polys acc : Forall2 opens_list all polys ->
  Forall (fun cs => length cs = t) all -> length acc = t ->
  foldl (fun acc cs => if (length cs =? t)%nat then combine acc cs else acc) (com <$> acc) all
  = com <$> foldl padd acc polys.
Proof.
  intros Hall. revert acc. induction Hall as [|cs p all polys Hcs Hall IH]; intros acc Hf Hlen; [done|].
  inversion Hf as [|? ? Hl Hf']; subst. cbn [foldl]. rewrite Hl, Nat.eqb_refl.
  rewrite (combine_opens acc cs p) by (done || by rewrite Hl).
  apply IH; [done|]. pose proof (Forall2_length _ _ _ Hcs). rewrite length_padd. lia.
Qed.

Lemma foldl_padd acc polys : foldl padd acc polys = padd acc (psum polys).
Proof.
  revert acc. induction polys as [|p polys IH]; intros acc; cbn [foldl psum foldr].
  - by destruct acc.
  - rewrite IH. by rewrite <- padd_assoc.
Qed.

Lemma padd_zeros n p : length p = n -> padd (replicate n 0) p = p.
Proof.
  revert p. induction n as [|n IH]; intros [|a p] Hl; try done. cbn. rewrite IH by (simpl in Hl; lia).
  f_equal. ring.
Qed.

Lemma length_psum t polys : Forall (fun p => length p = t) polys -> polys <> [] -> length (psum polys) = t.
Proof.
  induction 1 as [|p polys Hp Hps IH]; [done|]. intros _. cbn [psum foldr]. rewrite length_padd, Hp.
  destruct polys as [|q polys]; [cbn; lia|]. fold (psum (q :: polys)). rewrite IH by done. lia.
Qed.

Lemma length_psum_le t polys : Forall (fun p => (length p <= t)%nat) polys -> (length (psum polys) <= t)%nat.
Proof. induction 1 as [|p polys Hp Hps IH]; cbn [psum foldr]; [cbn; lia|]. rewrite length_padd. fold (psum polys). lia. Qed.

Lemma foldl_add_snd {K} (l : list (K * Fr)) acc :
  foldl (fun acc '(_, share) => acc + share) acc l = acc + fsum snd l.
Proof.
  revert acc. induction l as [|[k s] l IH]; intros acc; cbn [foldl fsum foldr]; [unfold fsum; cbn; ring|].
  rewrite IH. unfold fsum. cbn [foldr snd]. ring.
Qed.

(** The share does not depend on the commitments. *)
Lemma finalized_share d shares all ids : PrivateShare (FinalizeKeyShare d shares all ids) = Some (fsum snd (map_to_list shares)).
Proof. unfold FinalizeKeyShare. cbn [PrivateShare]. f_equal. rewrite foldl_add_snd. ring. Qed.

(** Finalization with uniform commitment vectors. *)
Lemma FinalizeKeyShare_spec d shares all polys ids : all <> [] ->
  Forall2 opens_list all polys -> Forall (fun cs => length cs = Z.to_nat (threshold d)) all ->
  FinalizeKeyShare d shares all ids =
  mkKeyShareVersion 0 (Some (fsum snd (map_to_list shares))) (com <$> psum polys) None true ids.
Proof.
  intros Hne Hall Hlen. unfold FinalizeKeyShare. f_equal.
  - f_equal. rewrite foldl_add_snd. ring.
  - destruct all as [|cs all]; [done|]. cbn [length Nat.ltb Nat.leb].
    rewrite zero_com. rewrite <- (fmap_replicate com).
    rewrite (combine_all _ _ polys) by (done || by rewrite length_replicate).
    f_equal. rewrite foldl_padd, padd_zeros; [done|].
    apply length_psum; [|by inversion Hall].
    apply Forall_lookup_2. intros i p Hi.
    destruct (Forall2_lookup_r _ _ _ _ _ Hall Hi) as (c & Hc & Ho).
    rewrite <- (Forall2_length _ _ _ Ho). by eapply Forall_lookup_1 in Hlen.
Qed.

(** The polynomials behind a table of commitment vectors that all decode. *)
Lemma choose_polys (comms : gmap Address (list G2Point)) :
  (forall a cs, comms !! a = Some cs -> exists p, opens_list cs p) ->
  exists polys : gmap Address (list Fr), forall a, option_Forall2 opens_list (comms !! a) (polys !! a).
Proof.
  induction comms as [|a cs comms Ha IH] using map_ind; intros Hc.
  - exists ∅. intros a. rewrite !lookup_empty. constructor.
  - destruct (Hc a cs) as [p Hp]; [by rewrite lookup_insert_eq|].
    destruct IH as [polys Hpolys].
    { intros b cs' Hb. apply (Hc b). rewrite lookup_insert_ne; [done|congruence]. }
    exists (<[a := p]> polys). intros b. destruct (decide (a = b)) as [<-|Hne].
    + rewrite !lookup_insert_eq. by constructor.
    + rewrite !lookup_insert_ne by done. apply Hpolys.
Qed.

Lemma values_opens (comms : gmap Address (list G2Point)) (polys : gmap Address (list Fr)) :
  (forall a, option_Forall2 opens_list (comms !! a) (polys !! a)) ->
  Forall2 opens_list (map_to_list comms).*2
    ((fun a => default [] (polys !! a)) <$> (map_to_list comms).*1).
Proof.
  intros Hp. rewrite <- list_fmap_compose. apply Forall2_fmap, Forall_Forall2_diag, Forall_forall.
  intros [a cs] Ha%elem_of_map_to_list. specialize (Hp a). rewrite Ha in Hp.
  inversion Hp as [? p Ho Hx Heq|]; subst. simpl. by rewrite <- Heq.
Qed.

Lemma fsum_values (shares : gmap Address Fr) (f : Address -> Fr) :
  (forall a s, shares !! a = Some s -> s = f a) ->
  fsum snd (map_to_list shares) = fsum f (map_to_list shares).*1.
Proof.
  intros Hs. rewrite fsum_fmap. apply fsum_ext. intros [a s] Ha%elem_of_map_to_list. by apply Hs.
Qed.
End DkgFacts.

(** ** The protocol: what every honest operator ends up with

    [comms] is the agreed table of commitment vectors; each player [j] holds a share
    from every dealer of the table and accepted it with [VerifyShare].  Dealers may be
    malicious: nothing is assumed of how they chose shares and commitments; how many
    shares it takes to recover depends on the longest of their vectors. *)
Section DkgProtocol.
Context `{GnarkLaws}.
Local Open Scope fr_scope.

Add Field fr_field_dkg_protocol : (@fr_field Fr _ _).

Record dkg_run (t : nat) (comms : gmap Address (list G2Point)) (d : DKG) (shares : gmap Address Fr) : Prop := {
  run_threshold : threshold d = Z.of_nat t;
  run_same : forall a, is_Some (shares !! a) <-> is_Some (comms !! a);
  run_verified a s cs : shares !! a = Some s -> comms !! a = Some cs -> VerifyShare d (Some s) cs = true
}.

Lemma dkg_consistent t k comms (d0 : DKG) shares0 : comms <> ∅ ->
  map_Forall (fun _ cs => (length cs <= k)%nat) comms -> dkg_run t comms d0 shares0 ->
  exists S : list Fr, (length S <= k)%nat /\
    (forall all, all ≡ₚ (map_to_list comms).*2 ->
       ComputeMasterPublicKey all = if bool_decide (peval S 0 = 0) then Err "computed master public key is zero"
                                    else Ok (com (peval S 0))) /\
    (forall d shares all ids, dkg_run t comms d shares -> all ≡ₚ (map_to_list comms).*2 ->
       let v := FinalizeKeyShare d shares all ids in
       PrivateShare v = Some (peval S (AddressToFr (nodeAddress d))) /\
       (map_Forall (fun _ cs => length cs = t) comms -> length S = t /\ Commitments v = com <$> S)).
Proof.
  intros Hne Hlen Hrun0.
  destruct (choose_polys comms) as [polys Hpolys].
  { intros a cs Ha. destruct (proj2 (run_same _ _ _ _ Hrun0 a)) as [s Hs]; [by rewrite Ha|].
    destruct (VerifyShare_sound d0 s cs) as (p & Hp & _); [by eapply run_verified|eauto]. }
  set (keys := (map_to_list comms).*1). set (pol := fun a => default [] (polys !! a)).
  assert (Hopen : Forall2 opens_list (map_to_list comms).*2 (pol <$> keys)) by by apply values_opens.
  assert (Hlens : forall Q : nat -> Prop, map_Forall (fun _ cs => Q (length cs)) comms -> Forall (fun p => Q (length p)) (pol <$> keys)).
  { intros Q HQ. apply Forall_lookup_2. intros i p Hi. destruct (Forall2_lookup_r _ _ _ _ _ Hopen Hi) as (cs & Hcs & Ho).
    rewrite <- (Forall2_length _ _ _ Ho). apply list_elem_of_lookup_2, list_elem_of_fmap in Hcs as ([a cs'] & -> & Ha).
    apply elem_of_map_to_list in Ha. by apply (HQ a cs'). }
  assert (Hall : forall all, all ≡ₚ (map_to_list comms).*2 ->
    exists l, l ≡ₚ pol <$> keys /\ Forall2 opens_list all l).
  { intros all Hp. symmetry in Hp. destruct (Permutation_Forall2 Hp Hopen) as (l & Hl & Ho). exists l. by split; [symmetry|]. }
  exists (psum (pol <$> keys)). split_and!.
  - apply length_psum_le. by apply (Hlens (fun l => (l <= k)%nat)).
  - intros all Hp. destruct (Hall all Hp) as (l & Hl & Ho). rewrite (ComputeMasterPublicKey_sum _ l Ho).
    rewrite (fsum_permutation _ _ _ Hl), (fsum_ext head_coeff (fun p => peval p 0)) by (intros; apply head_coeff_peval).
    by rewrite peval_psum.
  - intros d shares all ids Hrun Hp. cbv zeta. destruct (Hall all Hp) as (l & Hl & Ho). split.
    + rewrite finalized_share. f_equal. rewrite (fsum_values _ (fun a => peval (pol a) (AddressToFr (nodeAddress d)))).
      * rewrite peval_psum, (fsum_fmap _ pol). apply fsum_permutation, keys_same_dom. apply Hrun.
      * intros a s Hs. destruct (proj1 (run_same _ _ _ _ Hrun a)) as [cs Hcs]; [by rewrite Hs|].
        destruct (VerifyShare_sound d s cs) as (p & Hp' & _ & ->); [by eapply run_verified|].
        unfold pol. pose proof (Hpolys a) as Ha. rewrite Hcs in Ha. inversion Ha as [? q Hq Hx Heq|]; subst.
        simpl. by rewrite (opens_list_fun _ _ _ Hp' Hq).
    + intros Hex. assert (Hnil : pol <$> keys <> []) by by intros ->%fmap_nil_inv%fmap_nil_inv%map_to_list_empty_iff.
      split; [apply length_psum; [by apply (Hlens (fun l => l = t))|done]|].
      rewrite (FinalizeKeyShare_spec _ _ _ l); [cbn [Commitments]; by rewrite (psum_permutation l (pol <$> keys))| |done|].
      * intros ->. symmetry in Hp. by apply Permutation_nil_r, fmap_nil_inv, map_to_list_empty_iff in Hp.
      * rewrite Hp. apply Forall_fmap, Forall_forall. intros [a cs] Ha%elem_of_map_to_list.
        rewrite (run_threshold _ _ _ _ Hrun), Nat2Z.id. by apply (Hex a cs).
Qed.

(** The recovered key of a sharing with a non-zero secret passes the pairing check. *)
Lemma recovered_key_verifies id Q p (sigs : gmap Address G1Point) (t : nat) mpk :
  hash_to_g1 (string_bytes id) = Some Q -> Q <> g1_infinity ->
  (length p <= t <= size sigs)%nat -> NoDup (xcoords (map_to_list sigs).*1) ->
  (forall a s, sigs !! a = Some s ->
     ScalarMulG1 (mkG1Point (g1_bytes Q)) (Some (peval p (AddressToFr a))) = Ok s) ->
  opens mpk (peval p 0) -> peval p 0 <> 0 ->
  exists k, RecoverAppPrivateKey id sigs (Z.of_nat t) = Ok k /\ VerifyAppPrivateKey id k mpk = Ok true.
Proof.
  intros Hid HQne Ht Hnd Hs Hmpk Hnz. assert (HQ : g1_in_subgroup Q = true) by by eapply g1_ok_hash.
  exists (psig Q (peval p 0)). split.
  - apply recover_honest; try done.
    + intros a s Ha%Hs. rewrite sig_1, ScalarMulG1_sig in Ha by done.
      replace (1 * peval p (AddressToFr a)) with (peval p (AddressToFr a)) in Ha by ring. congruence.
    + intros Hinf. apply Hnz. by apply (act1_eq_infinity Q).
  - rewrite (verify_app_key_spec id Q (act1 Q (peval p 0)) _ mpk (peval p 0)).
    + by rewrite bool_decide_true.
    + done.
    + apply g1_set_bytes_bytes. by apply g1_ok_act.
    + done.
Qed.

(** C3: End to end: after a key generation in which every honest player verified the
    share of every dealer against the same commitment table, whatever the dealers chose,
    the players' private shares are one sharing of the discrete logarithm of the computed
    master public key: any [k] of their partial signatures recover an application key
    that passes the pairing check against it, where [k] is any number that no dealer's
    commitment vector exceeds.  If every vector has [t] entries, [t] the threshold of the
    run, then [t] partial signatures are enough and every player publishes that master
    key at the head of its combined commitments; the code does not check the lengths. *)
Theorem dkg_end_to_end (t k : nat) (ops : list OperatorSetPeer) (comms : gmap Address (list G2Point))
    (all : list (list G2Point)) (ids : list Address) (id : string) (Q : G1) (mpk : G2Point)
    (players : gmap Address (gmap Address Fr)) (sigs : gmap Address G1Point) :
  comms <> ∅ -> map_Forall (fun _ cs => (length cs <= k)%nat) comms ->
  all ≡ₚ (map_to_list comms).*2 ->
  (forall j shares, players !! j = Some shares -> dkg_run t comms (NewDKG j (Z.of_nat t) ops) shares) ->
  hash_to_g1 (string_bytes id) = Some Q -> Q <> g1_infinity ->
  ComputeMasterPublicKey all = Ok mpk ->
  (0 < k <= size sigs)%nat -> NoDup (xcoords (map_to_list sigs).*1) ->
  (forall j s, sigs !! j = Some s -> exists shares, players !! j = Some shares /\
     ScalarMulG1 (mkG1Point (g1_bytes Q))
       (PrivateShare (FinalizeKeyShare (NewDKG j (Z.of_nat t) ops) shares all ids)) = Ok s) ->
  (exists key, RecoverAppPrivateKey id sigs (Z.of_nat k) = Ok key /\ VerifyAppPrivateKey id key mpk = Ok true) /\
  (map_Forall (fun _ cs => length cs = t) comms -> (0 < t)%nat -> forall j shares, players !! j = Some shares ->
     let v := FinalizeKeyShare (NewDKG j (Z.of_nat t) ops) shares all ids in
     length (Commitments v) = t /\ head (Commitments v) = Some mpk).
Proof.
  intros Hne Hlen Hall Hrun Hid HQne Hmpk Hsz Hnd Hsigs.
  destruct (map_choose sigs) as (j0 & s0 & Hj0); [intros ->; rewrite map_size_empty in Hsz; lia|].
  destruct (Hsigs j0 s0 Hj0) as (sh0 & Hp0 & _).
  destruct (dkg_consistent t k comms _ sh0 Hne Hlen (Hrun _ _ Hp0)) as (S & HlenS & Hpk & Hfin).
  rewrite (Hpk all Hall) in Hmpk. case_bool_decide as Hz; [done|]. injection Hmpk as <-. split.
  - apply (recovered_key_verifies id Q S sigs k); try done; [lia| |by apply opens_com].
    intros j s Hj. destruct (Hsigs j s Hj) as (sh & Hp & Hs).
    destruct (Hfin _ sh all ids (Hrun _ _ Hp) Hall) as [Hsh _]. by rewrite Hsh in Hs.
  - intros Hex Ht j sh Hp v. destruct (Hfin _ sh all ids (Hrun _ _ Hp) Hall) as [_ Hc].
    destruct (Hc Hex) as [Hl Hv]. subst v. rewrite Hv, length_fmap. split; [done|].
    destruct S as [|c S]; [cbn in Hl; lia|]. by rewrite peval_0.
Qed.
End DkgProtocol.

(** ** Witnesses: two dealers and two players, threshold two *)

#[local] Existing Instances toy97 toy97_laws.

Definition toy_p1 : list Fr := [toy_fr 3; toy_fr 5].
Definition toy_p2 : list Fr := [toy_fr 4; toy_fr 11].
Definition toy_comms : gmap Address (list G2Point) := <[1 := com <$> toy_p1]> (<[2 := com <$> toy_p2]> ∅).
Definition toy_shares (j : Address) : gmap Address Fr :=
  <[1 := peval toy_p1 (AddressToFr j)]> (<[2 := peval toy_p2 (AddressToFr j)]> ∅).
Definition toy_players : gmap Address (gmap Address Fr) := <[1 := toy_shares 1]> (<[2 := toy_shares 2]> ∅).
Definition toy_dkg_sig (j : Address) : G1Point :=
  psig toy_id (fr_add (peval toy_p1 (AddressToFr j)) (peval toy_p2 (AddressToFr j))).
Definition toy_dkg_sigs : gmap Address G1Point := <[1 := toy_dkg_sig 1]> (<[2 := toy_dkg_sig 2]> ∅).

Lemma calculate_threshold_bounds_witness : CalculateThreshold 4 = 4 - 4 / 3.
Proof. apply (calculate_threshold_bounds 4). lia. Defined.

Definition toy_run_ok (j : Address) : bool :=
  let d := NewDKG j 2 [] in
  bool_decide (map_Forall (fun a s => map_Forall (fun b cs => a = b -> VerifyShare d (Some s) cs = true) toy_comms)
                 (toy_shares j)).

Lemma toy_dkg_run j : toy_run_ok j = true -> dkg_run 2 toy_comms (NewDKG j 2 []) (toy_shares j).
Proof.
  intros Hok. apply bool_decide_eq_true in Hok. split; [done| |].
  - intros a. rewrite <- !elem_of_dom. unfold toy_shares, toy_comms. by rewrite !dom_insert.
  - intros a s cs Hs Hcs. specialize (Hok a s Hs a cs Hcs). by apply Hok.
Qed.

Lemma dkg_end_to_end_witness :
  (exists k, RecoverAppPrivateKey "app-1" toy_dkg_sigs 2 = Ok k /\
             VerifyAppPrivateKey "app-1" k (com (toy_fr 7)) = Ok true) /\
  head (Commitments (FinalizeKeyShare (NewDKG 1 2 []) (toy_shares 1) [com <$> toy_p1; com <$> toy_p2] [1; 2])) = Some (com (toy_fr 7)).
Proof.
  assert (Hex : map_Forall (fun _ cs => length cs = 2%nat) toy_comms) by by_compute.
  destruct (dkg_end_to_end 2 2 [] toy_comms [com <$> toy_p1; com <$> toy_p2] [1; 2] "app-1" toy_id
           (com (toy_fr 7)) toy_players toy_dkg_sigs) as [Hk Hv].
  - by_compute.
  - by_compute.
  - by_compute.
  - unfold toy_players. intros j shares Hj. map_cases Hj; apply toy_dkg_run; reflexivity.
  - reflexivity.
  - by_compute.
  - by_compute.
  - vm_compute. lia.
  - by_compute.
  - unfold toy_dkg_sigs. intros j s Hj. map_cases Hj; eexists; (split; [reflexivity|by_compute]).
  - split; [exact Hk|]. by apply (Hv Hex ltac:(lia) 1 (toy_shares 1)).
Defined.
