(* ===== verification/Reshare.v ===== *)
(** * Share refreshing: [pkg/reshare]

    One definition per function of the file.  The theorems: the check on the implied
    master public key accepts exactly the dealer sets whose refreshed secret is the
    served one, a validated reshare keeps the secret whatever the dealers dealt from,
    the source version of a dealer is bound to its on-chain hash, and the majority
    selection is deterministic and returns a threshold of dealers on one version. *)

From S2P Require Import Prelude Bytes Fr Lagrange Types Gnark Crypto CryptoFacts Recover Toy Dkg.
From Stdlib Require Import Field.

Module Reshare.
Section Reshare.
Context `{Gnark}.

Record Reshare := mkReshare {
  nodeAddress : Address;
  operators : list OperatorSetPeer;
  poly : list Fr
}.

Definition NewReshare (nodeAddress : Address) (operators : list OperatorSetPeer) : Reshare :=
  mkReshare nodeAddress operators [].

Definition GenerateNewShares (rnd : nat -> option Fr) (r : Reshare) (currentShare : option Fr) (newThreshold : Z)
    : res (Reshare * gmap Address Fr * list G2Point) :=
  match currentShare with
  | None => Err "no current share to reshare"
  | Some currentShare =>
      _ ← fail_if (newThreshold <? 1) "panic: index out of range";
      rest ← draw rnd (seq 1 (Z.to_nat (newThreshold - 1)));
      let coeffs := currentShare :: rest in
      let r := mkReshare (nodeAddress r) (operators r) coeffs in
      let newShares := foldl (fun shares op =>
          <[OperatorAddress op := EvaluatePolynomial coeffs (OperatorAddress op)]> shares) ∅ (operators r) in
      commitments ← mapM (M := res) (fun coeff => ScalarMulG2 G2Generator (Some coeff)) coeffs;
      Ok (r, newShares, commitments)
  end.

Definition VerifyNewShare (r : Reshare) (share : option Fr) (commitments : list G2Point) : bool :=
  match share, commitments with
  | Some share, c0 :: rest =>
      match ScalarMulG2 G2Generator (Some share) with
      | Err _ => false
      | Ok leftSide =>
          match commitment_sum (AddressToFr (nodeAddress r)) fr_one c0 rest with
          | Err _ => false
          | Ok rightSide => G2Point_IsEqual leftSide rightSide
          end
      end
  | _, _ => false
  end.

Definition ComputeNewKeyShare (r : Reshare) (dealers : list Address) (shares : gmap Address Fr)
    (_allCommitments : list (list G2Point)) : res (KeyShareVersion Fr) :=
  if (length dealers =? 0)%nat then Err "no dealer IDs provided" else
  let newShare := foldl (fun newShare dealerAddr =>
      match shares !! dealerAddr with
      | None => newShare
      | Some share => fr_add newShare (fr_mul (ComputeLagrangeCoefficient dealerAddr dealers) share)
      end) fr_zero dealers in
  shareCommitment ← wrap "failed to compute share commitment" (ScalarMulG2 G2Generator (Some newShare));
  let lambdaJ := ComputeLagrangeCoefficient (nodeAddress r) dealers in
  scaledCommitment ← wrap "failed to scale commitment" (ScalarMulG2 shareCommitment (Some lambdaJ));
  Ok (mkKeyShareVersion 0 (Some newShare) [scaledCommitment] None false dealers).

(** One iteration of the loop of [ValidateReshareMasterPublicKey]; [sum] is a pointer. *)
Definition mpk_step (dealers : list Address) (commitmentsByDealer : gmap Address (list G2Point))
    (dealer : Address) (sum : option G2Point) : res (option G2Point) :=
  match commitmentsByDealer !! dealer with
  | None | Some [] => Err "missing commitments for agreed dealer %s; cannot validate MPK"
  | Some (c0 :: _) =>
      let lambda := ComputeLagrangeCoefficient dealer dealers in
      term ← wrap "failed to scale commitment for dealer" (ScalarMulG2 c0 (Some lambda));
      match sum with
      | None => Ok (Some term)
      | Some sum => sum ← wrap "failed to accumulate commitment for dealer" (AddG2 sum term); Ok (Some sum)
      end
  end.

Definition ValidateReshareMasterPublicKey (dealers : list Address)
    (commitmentsByDealer : gmap Address (list G2Point)) (expectedMPK : option G2Point) : res unit :=
  if (length dealers =? 0)%nat then Err "no dealers provided for MPK validation" else
  match expectedMPK with
  | None => Err "no expected master public key provided for MPK validation"
  | Some expectedMPK =>
      sum ← for_each (mpk_step dealers commitmentsByDealer) dealers None;
      match sum with
      | None => Err "internal: MPK sum is nil after processing %d dealers"
      | Some sum => fail_if (negb (G2Point_IsEqual sum expectedMPK)) "post-reshare master public key mismatch"
      end
  end.

(** One iteration of [VerifyDealerSourceVersions]; the state is the list and the map
    built so far. *)
Definition source_step (onChainHashes : gmap Address bytes) (commitmentsByDealer : gmap Address (list G2Point))
    (sourceVersions : gmap Address Z) (st : list Address * gmap Address Z) (dealer : Address)
    : list Address * gmap Address Z :=
  let '(verified, verifiedVersions) := st in
  match onChainHashes !! dealer, sourceVersions !! dealer, default [] (commitmentsByDealer !! dealer) with
  | Some onChain, Some sv, (_ :: _) as commits =>
      if decide (HashReshareCommitment commits sv <> onChain) then st
      else (verified ++ [dealer], <[dealer := sv]> verifiedVersions)
  | _, _, _ => st
  end.

(** Keeps the dealers whose advertised pair hashes to the on-chain value. *)
Definition VerifyDealerSourceVersions (agreedDealers : list Address) (onChainHashes : gmap Address bytes)
    (commitmentsByDealer : gmap Address (list G2Point)) (sourceVersions : gmap Address Z)
    : list Address * gmap Address Z :=
  foldl (source_step onChainHashes commitmentsByDealer sourceVersions) ([], ∅) agreedDealers.

Definition CreateCompletionSignature (nodeAddress : Address) (epoch : Z) (commitmentHash : bytes)
    (signer : Z -> bytes -> bytes) : CompletionSignature :=
  mkCompletionSignature nodeAddress epoch commitmentHash (signer epoch commitmentHash).
End Reshare.

(** [sourceVersions[d]]: an absent entry reads as 0. *)
Definition version_of (sourceVersions : gmap Address Z) (d : Address) : Z := default 0 (sourceVersions !! d).

Definition count_versions (dealers : list Address) (sourceVersions : gmap Address Z) : gmap Z Z :=
  foldl (fun counts d =>
      let v := version_of sourceVersions d in
      if decide (v <> 0) then <[v := default 0 (counts !! v) + 1]> counts else counts) ∅ dealers.

(** The selection loop; [entries] is the iteration order of the [counts] map. *)
Definition pick_best (entries : list (Z * Z)) : Z * Z :=
  foldl (fun '(bestVersion, bestCount) '(v, c) =>
      if (c >? bestCount) || ((c =? bestCount) && (v >? bestVersion)) then (v, c)
      else (bestVersion, bestCount)) (0, 0) entries.

(** [entries] is the order in which Go happens to iterate [counts]. *)
Definition select_with (entries : list (Z * Z)) (dealers : list Address) (sourceVersions : gmap Address Z)
    (threshold : Z) : res (list Address * Z) :=
  if (length dealers =? 0)%nat then Err "no dealers provided for source-version selection" else
  let '(bestVersion, bestCount) := pick_best entries in
  if bestCount <? threshold then Err "majority source version has only %d dealers, need %d; aborting" else
  Ok (filter (fun d => version_of sourceVersions d = bestVersion) dealers, bestVersion).

Definition SelectMajoritySourceVersion (dealers : list Address) (sourceVersions : gmap Address Z)
    (threshold : Z) : res (list Address * Z) :=
  select_with (map_to_list (count_versions dealers sourceVersions)) dealers sourceVersions threshold.

Section ReshareFacts.
Context `{GnarkLaws}.
Local Open Scope fr_scope.

Add Field fr_field_reshare : (@fr_field Fr _ _).

Lemma VerifyNewShare_VerifyShare r share cs :
  VerifyNewShare r share cs = VerifyShare (mkDKG (nodeAddress r) 0 [] []) share cs.
Proof. done. Qed.

Lemma VerifyNewShare_sound r s cs : VerifyNewShare r (Some s) cs = true ->
  exists p, opens_list cs p /\ p <> [] /\ s = peval p (AddressToFr (nodeAddress r)).
Proof. rewrite VerifyNewShare_VerifyShare. apply VerifyShare_sound. Qed.

(** The loop of the master key check computes the Lagrange sum of the constant
    coefficients. *)
Lemma mpk_loop D (comms : gmap Address (list G2Point)) (polys : Address -> list Fr) l acc :
  (forall d, d ∈ l -> exists cs, comms !! d = Some cs /\ opens_list cs (polys d) /\ cs <> []) ->
  for_each (mpk_step D comms) l (Some (com acc))
  = Ok (Some (com (acc + fsum (fun d => ComputeLagrangeCoefficient d D * head_coeff (polys d)) l))).
Proof.
  revert acc. induction l as [|d l IH]; intros acc Hl; cbn [for_each].
  - unfold fsum; cbn [foldr]. do 3 f_equal. ring.
  - destruct (Hl d) as (cs & Hcs & Ho & Hne); [by left|].
    inversion Ho as [|c a cs' p Hc Hcs' Hx Hp]; subst cs; [done|].
    assert (mpk_step D comms d (Some (com acc))
      = Ok (Some (com (acc + a * ComputeLagrangeCoefficient d D)))) as ->.
    { unfold mpk_step. rewrite Hcs, (ScalarMulG2_opens c a) by done. cbn [wrap mbind res_bind].
      by rewrite (AddG2_opens _ _ acc (a * ComputeLagrangeCoefficient d D)) by by apply opens_com. }
    cbn [mbind res_bind]. rewrite IH by (intros; apply Hl; by right).
    unfold fsum; cbn [foldr]. rewrite <- Hp. cbn [head_coeff]. do 3 f_equal. ring.
Qed.

Lemma mpk_loop_none D (comms : gmap Address (list G2Point)) (polys : Address -> list Fr) l : l <> [] ->
  (forall d, d ∈ l -> exists cs, comms !! d = Some cs /\ opens_list cs (polys d) /\ cs <> []) ->
  for_each (mpk_step D comms) l None
  = Ok (Some (com (fsum (fun d => ComputeLagrangeCoefficient d D * head_coeff (polys d)) l))).
Proof.
  intros Hne Hl. destruct l as [|d l]; [done|]. destruct (Hl d) as (cs & Hcs & Ho & Hcne); [by left|].
  inversion Ho as [|c a cs' p Hc Hcs' Hx Hp]; subst cs; [done|]. cbn [for_each].
  assert (mpk_step D comms d None = Ok (Some (com (a * ComputeLagrangeCoefficient d D)))) as ->.
  { unfold mpk_step. by rewrite Hcs, (ScalarMulG2_opens c a). }
  cbn [mbind res_bind]. rewrite (mpk_loop D comms polys) by (intros; apply Hl; by right).
  unfold fsum; cbn [foldr]. rewrite <- Hp. cbn [head_coeff]. do 3 f_equal. ring.
Qed.

Lemma validate_sum D (comms : gmap Address (list G2Point)) (polys : Address -> list Fr) mpk : D <> [] ->
  (forall d, d ∈ D -> exists cs, comms !! d = Some cs /\ opens_list cs (polys d) /\ cs <> []) ->
  ValidateReshareMasterPublicKey D comms (Some mpk)
  = fail_if (negb (G2Point_IsEqual (com (lagrange_sum (fun d => head_coeff (polys d)) D)) mpk))
      "post-reshare master public key mismatch".
Proof.
  intros Hne HD. unfold ValidateReshareMasterPublicKey. rewrite (mpk_loop_none D comms polys) by done.
  by destruct D.
Qed.

(** A successful check: every dealer has commitments whose first entry decodes. *)
Lemma mpk_step_ok D (comms : gmap Address (list G2Point)) d acc acc' : mpk_step D comms d acc = Ok acc' ->
  exists c cs a, comms !! d = Some (c :: cs) /\ opens c a.
Proof.
  unfold mpk_step. destruct (comms !! d) as [[|c cs]|]; [done| |done]. intros Hs. res_ok.
  match goal with Hm : ScalarMulG2 _ _ = _ |- _ => apply ScalarMulG2_ok in Hm as (a & Ha & _) end. eauto.
Qed.

Lemma for_each_all {A S} (f : A -> S -> res S) l s s' x : for_each f l s = Ok s' -> x ∈ l ->
  exists s1 s2, f x s1 = Ok s2.
Proof.
  revert s. induction l as [|y l IH]; intros s Hs Hx; [by apply not_elem_of_nil in Hx|].
  cbn [for_each] in Hs. apply res_bind_ok in Hs as (s1 & H1 & Hs).
  apply elem_of_cons in Hx as [->|Hx]; eauto.
Qed.

Lemma validate_ok_inv D comms mpk u : ValidateReshareMasterPublicKey D comms mpk = Ok u ->
  D <> [] /\ (exists m, mpk = Some m) /\
  forall d, d ∈ D -> exists c cs a, comms !! d = Some (c :: cs) /\ opens c a.
Proof.
  unfold ValidateReshareMasterPublicKey. destruct D as [|d D]; [done|]. destruct mpk as [m|]; [|done].
  cbn [length Nat.eqb]. intros (sum & Hs & _)%res_bind_ok. split_and!; [done|eauto|].
  intros d' Hd. destruct (for_each_all _ _ _ _ _ Hs Hd) as (s1 & s2 & Hstep).
  by eapply mpk_step_ok.
Qed.

(** What the accumulation of [ComputeNewKeyShare] computes when no share is missing. *)
Lemma new_share_sum D (shares : gmap Address Fr) (f : Address -> Fr) l acc :
  (forall d, d ∈ l -> shares !! d = Some (f d)) ->
  foldl (fun newShare dealerAddr =>
      match shares !! dealerAddr with
      | None => newShare
      | Some share => newShare + ComputeLagrangeCoefficient dealerAddr D * share
      end) acc l = acc + fsum (fun d => ComputeLagrangeCoefficient d D * f d) l.
Proof.
  revert acc. induction l as [|d l IH]; intros acc Hl; cbn [foldl].
  - unfold fsum; cbn [foldr]. ring.
  - rewrite (Hl d) by by left. rewrite IH by (intros; apply Hl; by right).
    unfold fsum; cbn [foldr]. ring.
Qed.

Lemma ComputeNewKeyShare_spec r D shares (f : Address -> Fr) allc : D <> [] ->
  (forall d, d ∈ D -> shares !! d = Some (f d)) ->
  ComputeNewKeyShare r D shares allc =
  Ok (mkKeyShareVersion 0 (Some (lagrange_sum f D))
        [com (lagrange_sum f D * ComputeLagrangeCoefficient (nodeAddress r) D)] None false D).
Proof.
  intros Hne Hf. unfold ComputeNewKeyShare. destruct D as [|d D]; [done|]. cbn [length Nat.eqb].
  rewrite (new_share_sum (d :: D) shares f) by done. fold (lagrange_sum f (d :: D)).
  replace (0 + lagrange_sum f (d :: D)) with (lagrange_sum f (d :: D)) by ring.
  rewrite commit_scalar. cbn [wrap mbind res_bind].
  by rewrite (ScalarMulG2_opens _ (lagrange_sum f (d :: D))) by by apply opens_com.
Qed.

(** A recipient of the reshare: it accepted a share from every agreed dealer. *)
Definition reshare_run (D : list Address) (comms : gmap Address (list G2Point)) (r : Reshare)
    (shares : gmap Address Fr) : Prop :=
  forall d, d ∈ D -> exists s cs, shares !! d = Some s /\ comms !! d = Some cs /\ VerifyNewShare r (Some s) cs = true.

Lemma reshare_consistent t D comms s r0 shares0 : D <> [] ->
  map_Forall (fun _ cs => (length cs <= t)%nat) comms -> reshare_run D comms r0 shares0 ->
  ValidateReshareMasterPublicKey D comms (Some (com s)) = Ok tt ->
  exists P : list Fr, (length P <= t)%nat /\ peval P 0 = s /\
    forall r shares allc, reshare_run D comms r shares ->
      exists v, ComputeNewKeyShare r D shares allc = Ok v /\
        PrivateShare v = Some (peval P (AddressToFr (nodeAddress r))) /\ ParticipantIDs v = D.
Proof.
  intros Hne Hlen Hrun0 Hval.
  destruct (list_choice [] (fun d p => exists cs, comms !! d = Some cs /\ opens_list cs p /\ cs <> []) D)
    as [polys Hpolys].
  { intros d Hd. destruct (Hrun0 d Hd) as (x & cs & _ & Hcs & Hv).
    destruct (VerifyNewShare_sound _ _ _ Hv) as (p & Ho & Hp & _). exists p, cs. split_and!; [done..|].
    intros ->. by inversion Ho. }
  rewrite (validate_sum D comms polys) in Hval by done. apply fail_if_ok, negb_false_iff, G2Point_IsEqual_eq, com_inj in Hval.
  exists (pcomb (fun d => ComputeLagrangeCoefficient d D) polys D). split_and!.
  - apply length_pcomb. intros d Hd. destruct (Hpolys d Hd) as (cs & Hcs & Ho & _).
    rewrite <- (Forall2_length _ _ _ Ho). by apply (Hlen d cs).
  - rewrite peval_pcomb, <- Hval. apply fsum_ext. intros d _. by rewrite head_coeff_peval.
  - intros r shares allc Hrun.
    rewrite (ComputeNewKeyShare_spec r D shares (fun d => peval (polys d) (AddressToFr (nodeAddress r)))); [|done|].
    + eexists. split_and!; [done| |done]. cbn [PrivateShare]. f_equal. unfold lagrange_sum. by rewrite peval_pcomb.
    + intros d Hd. destruct (Hrun d Hd) as (x & cs & -> & Hcs & Hv).
      destruct (VerifyNewShare_sound _ _ _ Hv) as (p & Ho & _ & ->).
      destruct (Hpolys d Hd) as (cs' & Hcs' & Ho' & _). rewrite Hcs in Hcs'. injection Hcs' as <-.
      by rewrite (opens_list_fun _ _ _ Ho Ho').
Qed.

(** The master public key check accepts exactly the reshares that keep the secret:
    it fails unless every dealer has a first commitment that decodes, and when dealer
    [d]'s first commitment is [x_d * G2] it accepts the served key [s * G2] iff the
    Lagrange combination of the [x_d] is [s]; in particular, if every dealer deals its
    value of one polynomial [p] of at most [|D|] coefficients, iff [s = p(0)]. *)
Theorem validate_reshare_mpk (D : list Address) (comms : gmap Address (list G2Point))
    (x : Address -> Fr) (s : Fr) :
  (forall mpk u, ValidateReshareMasterPublicKey D comms mpk = Ok u ->
     D <> [] /\ forall d, d ∈ D -> exists c cs a, comms !! d = Some (c :: cs) /\ opens c a) /\
  (D <> [] -> (forall d, d ∈ D -> exists c cs p, comms !! d = Some (c :: cs) /\ opens_list (c :: cs) (x d :: p)) ->
     (ValidateReshareMasterPublicKey D comms (Some (com s)) = Ok tt <-> lagrange_sum x D = s) /\
     (forall p, (forall d, d ∈ D -> x d = peval p (AddressToFr d)) -> NoDup (xcoords D) ->
        (length p <= length D)%nat ->
        ValidateReshareMasterPublicKey D comms (Some (com s)) = Ok tt <-> s = peval p 0)).
Proof.
  split. { intros mpk u Hv. by destruct (validate_ok_inv _ _ _ _ Hv) as (? & _ & ?). }
  intros Hne HD.
  destruct (list_choice [] (fun d p => exists c cs, comms !! d = Some (c :: cs) /\ opens_list (c :: cs) (x d :: p)) D)
    as [rest Hrest]; [intros d (c & cs & p & Hp)%HD; eauto|].
  assert (Hiff : ValidateReshareMasterPublicKey D comms (Some (com s)) = Ok tt <-> lagrange_sum x D = s).
  { rewrite (validate_sum D comms (fun d => x d :: rest d)); [|done|].
    - rewrite fail_if_ok, negb_false_iff, G2Point_IsEqual_eq.
      change (lagrange_sum (fun d => head_coeff (x d :: rest d)) D) with (lagrange_sum x D).
      split; [apply com_inj|by intros ->].
    - intros d (c & cs & Hc & Ho)%Hrest. eauto. }
  split; [done|]. intros p Hx Hnd Hlen. rewrite Hiff.
  rewrite <- (lagrange_sum_eval p D) by done. unfold lagrange_sum.
  rewrite (fsum_ext (fun i => _ * x i) (fun i => ComputeLagrangeCoefficient i D * peval p (AddressToFr i)));
    [done|]. intros d Hd. by rewrite (Hx d Hd).
Qed.

(** C9: A validated reshare keeps the secret, whatever the dealers dealt from: if the
    recipients accepted a share from every agreed dealer against the same commitments
    and the master key check passed for the served key, any [t] of them recover
    application keys that verify against that same master public key, where [t] is any
    number that no dealer's commitment vector exceeds: the threshold, if the dealers keep
    to it.  [VerifyNewShare] does not check the length, so dealers of longer polynomials
    keep the secret too, but make it take more shares than the threshold. *)
Theorem reshare_preserves_secret (t : nat) (D : list Address) (ops : list OperatorSetPeer)
    (comms : gmap Address (list G2Point)) (s : Fr) (id : string) (Q : G1)
    (players : gmap Address (gmap Address Fr)) (sigs : gmap Address G1Point) :
  (0 < t)%nat -> map_Forall (fun _ cs => (length cs <= t)%nat) comms ->
  (forall j shares, players !! j = Some shares -> reshare_run D comms (NewReshare j ops) shares) ->
  ValidateReshareMasterPublicKey D comms (Some (com s)) = Ok tt -> s <> 0 ->
  hash_to_g1 (string_bytes id) = Some Q -> Q <> g1_infinity ->
  (t <= size sigs)%nat -> NoDup (xcoords (map_to_list sigs).*1) ->
  (forall j g, sigs !! j = Some g -> exists shares v, players !! j = Some shares /\
     ComputeNewKeyShare (NewReshare j ops) D shares [] = Ok v /\
     ScalarMulG1 (mkG1Point (g1_bytes Q)) (PrivateShare v) = Ok g) ->
  exists k, RecoverAppPrivateKey id sigs (Z.of_nat t) = Ok k /\ VerifyAppPrivateKey id k (com s) = Ok true.
Proof.
  intros Ht Hlen Hrun Hval Hs Hid HQ Hsz Hnd Hsigs.
  destruct (map_choose sigs) as (j0 & g0 & Hj0); [intros ->; rewrite map_size_empty in Hsz; lia|].
  destruct (Hsigs j0 g0 Hj0) as (sh0 & v0 & Hp0 & _).
  destruct (validate_ok_inv _ _ _ _ Hval) as (Hne & _).
  destruct (reshare_consistent t D comms s _ sh0 Hne Hlen (Hrun _ _ Hp0) Hval) as (P & HlenP & <- & HP).
  apply (recovered_key_verifies id Q P sigs t); try done; [|by apply opens_com].
  intros j g Hj. destruct (Hsigs j g Hj) as (sh & v & Hp & Hv & Hg).
  destruct (HP _ sh [] (Hrun _ _ Hp)) as (v' & Hv' & Hsh & _). rewrite Hv in Hv'. injection Hv' as <-.
  by rewrite Hsh in Hg.
Qed.

(** ** Source versions *)

Definition source_ok (onChainHashes : gmap Address bytes) (comms : gmap Address (list G2Point))
    (sv : gmap Address Z) (d : Address) : Prop :=
  exists h v c cs, onChainHashes !! d = Some h /\ sv !! d = Some v /\ comms !! d = Some (c :: cs) /\
    HashReshareCommitment (c :: cs) v = h.

Lemma source_step_spec h comms sv d st :
  (source_ok h comms sv d /\ exists v, sv !! d = Some v /\
     source_step h comms sv st d = (st.1 ++ [d], <[d := v]> st.2)) \/
  (~ source_ok h comms sv d /\ source_step h comms sv st d = st).
Proof.
  destruct st as [ver vv]. unfold source_step, source_ok.
  destruct (h !! d) as [o|], (sv !! d) as [v|] eqn:Hv;
    try (right; split; [by intros (? & ? & ? & ? & ? & ? & ?)|done]).
  destruct (comms !! d) as [[|c cs]|]; cbn [default from_option id];
    try (right; split; [by intros (? & ? & ? & ? & ? & ? & ? & ?)|done]).
  case_decide as Hh.
  - right. split; [|done]. intros (h' & v' & c' & cs' & [= <-] & [= <-] & [= <- <-] & Heq). done.
  - left. split; [eauto 10|]. eauto.
Qed.

Lemma VerifyDealerSourceVersions_spec h comms sv l :
  let r := VerifyDealerSourceVersions l h comms sv in
  r.1 `sublist_of` l /\ (forall d, d ∈ r.1 <-> d ∈ l /\ source_ok h comms sv d) /\
  (forall d v, r.2 !! d = Some v <-> d ∈ r.1 /\ sv !! d = Some v).
Proof.
  unfold VerifyDealerSourceVersions. induction l as [|x l IH] using rev_ind; cbn.
  - split_and!; [done| |].
    + intros d. split; [by intros ?%not_elem_of_nil|by intros [Hx _]; apply not_elem_of_nil in Hx].
    + intros d v. split; [by intros ?%lookup_empty_Some|by intros [Hx _]; apply not_elem_of_nil in Hx].
  - rewrite foldl_app. cbn [foldl]. destruct IH as (Hsub & Hin & Hv).
    set (st := foldl (source_step h comms sv) ([], ∅) l) in *.
    destruct (source_step_spec h comms sv x st) as [(Hok & v & Hx & ->)|(Hno & ->)]; cbn [fst snd].
    + split_and!.
      * by apply sublist_app.
      * intros d. rewrite !elem_of_app, list_elem_of_singleton, Hin. split; [|tauto].
        intros [? | ->]; tauto.
      * intros d w. rewrite lookup_insert_Some, elem_of_app, list_elem_of_singleton, Hv.
        destruct (decide (x = d)) as [->|Hne]; split.
        -- intros [[_ <-]|[? _]]; [tauto|done].
        -- intros [_ Hw]. left. split; [done|]. congruence.
        -- intros [[? _]|[_ ?]]; tauto.
        -- intros [[?|?] ?]; [tauto|congruence].
    + split_and!.
      * by apply sublist_inserts_r.
      * intros d. rewrite elem_of_app, list_elem_of_singleton, Hin. split; [tauto|].
        intros [[? | ->] ?]; tauto.
      * done.
Qed.

Definition reshare_preimage (commitments : list G2Point) (sourceVersion : Z) : bytes :=
  foldl (fun h c => h ++ g2_compressed c) [] commitments ++ put_uint64 sourceVersion.

Lemma concat_bytes cs : foldl (fun h c => h ++ g2_compressed c) [] cs = concat (g2_compressed <$> cs).
Proof.
  assert (Hacc : forall acc, foldl (fun h c => h ++ g2_compressed c) acc cs = acc ++ concat (g2_compressed <$> cs)).
  { induction cs as [|c cs IH]; intros acc; cbn [foldl]; [by rewrite app_nil_r|].
    rewrite IH, fmap_cons. cbn. by rewrite app_assoc. }
  apply Hacc.
Qed.

Lemma concat_inj (n : nat) (l l' : list bytes) : (0 < n)%nat ->
  Forall (fun b => length b = n) l -> Forall (fun b => length b = n) l' -> concat l = concat l' -> l = l'.
Proof.
  intros Hn Hl. revert l'. induction Hl as [|b l Hb Hl IH]; intros [|b' l'] Hl' Heq; try done.
  - apply Forall_cons in Hl' as [Hb' _]. destruct b'; [simpl in *; lia|done].
  - destruct b; [simpl in *; lia|done].
  - apply Forall_cons in Hl' as [Hb' Hl']. simpl in Heq. apply app_inj_1 in Heq as [-> Heq]; [|congruence].
    f_equal. by apply IH.
Qed.

(** The hash binds the commitments and the version, collisions aside. *)
Lemma hash_reshare_binds cs cs' v v' : is_int64 v -> is_int64 v' ->
  Forall (fun c => length (g2_compressed c) = 96%nat) cs -> Forall (fun c => length (g2_compressed c) = 96%nat) cs' ->
  (sha256 (reshare_preimage cs v) = sha256 (reshare_preimage cs' v') -> reshare_preimage cs v = reshare_preimage cs' v') ->
  HashReshareCommitment cs v = HashReshareCommitment cs' v' -> v = v' /\ cs = cs'.
Proof.
  intros Hi Hi' Hl Hl' Hcr Hh. specialize (Hcr Hh). unfold reshare_preimage in Hcr.
  apply app_inj_2 in Hcr as [Hb Hvb]; [|by rewrite !length_put_uint64].
  split; [by apply put_uint64_inj|]. rewrite !concat_bytes in Hb.
  apply (concat_inj 96) in Hb; [|lia|by apply Forall_fmap|by apply Forall_fmap].
  revert Hb. apply (list_fmap_eq_inj g2_compressed). intros [] []. simpl. congruence.
Qed.

(** A dealer cannot equivocate on its source version: the verified dealers are the
    agreed ones, in order, whose advertised commitments and version hash to their
    on-chain value, and only their versions are kept; if two nodes that read the same
    chain both verify a dealer, they hold the same commitments and version for it,
    unless the two hashed messages are a SHA-256 collision. *)
Theorem source_version_binding (agreed agreed' : list Address) (onChain : gmap Address bytes)
    (comms comms' : gmap Address (list G2Point)) (sv sv' : gmap Address Z) :
  let r := VerifyDealerSourceVersions agreed onChain comms sv in
  let r' := VerifyDealerSourceVersions agreed' onChain comms' sv' in
  r.1 `sublist_of` agreed /\ (forall d, d ∈ r.1 <-> d ∈ agreed /\ source_ok onChain comms sv d) /\
  (forall d v, r.2 !! d = Some v <-> d ∈ r.1 /\ sv !! d = Some v) /\
  (forall d v v' cs cs', r.2 !! d = Some v -> r'.2 !! d = Some v' -> is_int64 v -> is_int64 v' ->
     comms !! d = Some cs -> comms' !! d = Some cs' ->
     Forall (fun c => length (g2_compressed c) = 96%nat) cs ->
     Forall (fun c => length (g2_compressed c) = 96%nat) cs' ->
     (sha256 (reshare_preimage cs v) = sha256 (reshare_preimage cs' v') ->
      reshare_preimage cs v = reshare_preimage cs' v') ->
     v = v' /\ cs = cs').
Proof.
  intros r r'. destruct (VerifyDealerSourceVersions_spec onChain comms sv agreed) as (Hsub & Hin & Hv).
  destruct (VerifyDealerSourceVersions_spec onChain comms' sv' agreed') as (_ & Hin' & Hv').
  split_and!; [done..|]. intros d v v' cs cs' [Hd Hdv]%Hv [Hd' Hdv']%Hv' Hi Hi' Hcs Hcs' Hl Hl' Hcr.
  apply Hin in Hd as (_ & h & w & c & cl & Hh & Hw & Hc & Hhash).
  apply Hin' in Hd' as (_ & h' & w' & c' & cl' & Hh' & Hw' & Hc' & Hhash').
  rewrite Hc in Hcs. rewrite Hc' in Hcs'. rewrite Hdv in Hw. rewrite Hdv' in Hw'. rewrite Hh in Hh'.
  injection Hcs as <-. injection Hcs' as <-. injection Hw as <-. injection Hw' as <-. injection Hh' as <-.
  apply hash_reshare_binds; [done..|]. by rewrite Hhash, Hhash'.
Qed.
End ReshareFacts.

(** ** The majority vote *)

Definition votes (dealers : list Address) (sv : gmap Address Z) (v : Z) : Z :=
  Z.of_nat (length (filter (fun d => version_of sv d = v) dealers)).

Lemma count_versions_spec dealers sv v :
  count_versions dealers sv !! v = if decide (v <> 0 /\ 0 < votes dealers sv v) then Some (votes dealers sv v) else None.
Proof.
  unfold count_versions. induction dealers as [|d dealers IH] using rev_ind.
  - cbn [foldl]. rewrite lookup_empty. rewrite decide_False; [done|]. unfold votes. simpl. lia.
  - rewrite foldl_app. cbn [foldl]. set (counts := foldl _ _ _) in *.
    assert (Hvotes : votes (dealers ++ [d]) sv v = votes dealers sv v + (if decide (version_of sv d = v) then 1 else 0)).
    { unfold votes. rewrite filter_app, length_app, filter_cons, filter_nil.
      destruct (decide (version_of sv d = v)); simpl; lia. }
    assert (Hpos : 0 <= votes dealers sv v) by (unfold votes; lia).
    rewrite Hvotes. destruct (decide (version_of sv d = v)) as [Hd|Hd].
    + rewrite Hd. destruct (decide (v <> 0)) as [Hz|Hz].
      * rewrite lookup_insert_eq, IH. rewrite (decide_True (P := v <> 0 /\ 0 < votes dealers sv v + 1)) by (split; [done|lia]).
        f_equal. case_decide; simpl; [lia|]. assert (votes dealers sv v = 0) by lia. lia.
      * rewrite IH. rewrite !decide_False by tauto. done.
    + rewrite Z.add_0_r. destruct (decide (version_of sv d <> 0)); [|done]. by rewrite lookup_insert_ne.
Qed.

Lemma pick_best_spec entries : Forall (fun e => 0 < e.2) entries ->
  (entries = [] /\ pick_best entries = (0, 0)) \/
  (pick_best entries ∈ entries /\
   forall v c, (v, c) ∈ entries -> c < (pick_best entries).2 \/ c = (pick_best entries).2 /\ v <= (pick_best entries).1).
Proof.
  unfold pick_best. induction entries as [|[v c] entries IH] using rev_ind; [by left|].
  intros [Hf Hc]%Forall_app. apply Forall_cons in Hc as [Hc _]. simpl in Hc. right.
  rewrite foldl_app. cbn [foldl]. specialize (IH Hf).
  destruct (foldl _ _ entries) as [bv bc]. cbn [fst snd] in *.
  setoid_rewrite elem_of_app. setoid_rewrite list_elem_of_singleton.
  destruct ((c >? bc) || ((c =? bc) && (v >? bv))) eqn:Hcmp; cbn [fst snd].
  - rewrite orb_true_iff, andb_true_iff, !Z.gtb_lt, Z.eqb_eq in Hcmp. split; [by right|]. intros v' c' [Hin|[= -> ->]]; [|lia].
    destruct IH as [[-> _]|[_ Hmax]]; [by apply not_elem_of_nil in Hin|]. destruct (Hmax _ _ Hin); lia.
  - rewrite orb_false_iff, andb_false_iff, !Z.gtb_ltb, !Z.ltb_ge, Z.eqb_neq in Hcmp.
    destruct IH as [[-> [= -> ->]]|[Hb Hmax]]; [lia|]. split; [by left|].
    intros v' c' [Hin|[= -> ->]]; [by apply Hmax|lia].
Qed.

Lemma pick_best_unique entries entries' : entries ≡ₚ entries' ->
  Forall (fun e => 0 < e.2) entries -> pick_best entries = pick_best entries'.
Proof.
  intros Hp Hf. assert (Hf' : Forall (fun e => 0 < e.2) entries') by by rewrite <- Hp.
  destruct (pick_best_spec entries Hf) as [[-> ->]|[Hin Hmax]].
  { by apply Permutation_nil_l in Hp as <-. }
  destruct (pick_best_spec entries' Hf') as [[-> ->]|[Hin' Hmax']].
  { apply Permutation_nil_r in Hp as ->. by apply not_elem_of_nil in Hin. }
  destruct (pick_best entries) as [v c], (pick_best entries') as [v' c']. cbn [fst snd] in *.
  rewrite Hp in Hin. rewrite <- Hp in Hin'.
  destruct (Hmax _ _ Hin'), (Hmax' _ _ Hin); f_equal; lia.
Qed.

Lemma count_entries dealers sv v c : (v, c) ∈ map_to_list (count_versions dealers sv) <->
  v <> 0 /\ 0 < c /\ c = votes dealers sv v.
Proof.
  rewrite elem_of_map_to_list, count_versions_spec. case_decide as Hd; split.
  - intros [= <-]. tauto.
  - by intros (_ & _ & ->).
  - done.
  - intros (Hv & Hc & ->). tauto.
Qed.

Lemma count_entries_pos dealers sv : Forall (fun e => 0 < e.2) (map_to_list (count_versions dealers sv)).
Proof. apply Forall_forall. intros [v c] Hin%count_entries. simpl. tauto. Qed.

(** A successful vote. *)
Lemma select_ok dealers sv threshold kept v : 0 < threshold -> SelectMajoritySourceVersion dealers sv threshold = Ok (kept, v) ->
  v <> 0 /\ kept = filter (fun d => version_of sv d = v) dealers /\ threshold <= Z.of_nat (length kept) /\
  forall v', v' <> 0 -> votes dealers sv v' < votes dealers sv v \/ votes dealers sv v' = votes dealers sv v /\ v' <= v.
Proof.
  intros Ht. unfold SelectMajoritySourceVersion, select_with. destruct (length dealers =? 0)%nat; [done|].
  destruct (pick_best_spec _ (count_entries_pos dealers sv)) as [[_ ->]|[Hin Hmax]].
  { destruct (Z.ltb_spec 0 threshold); [done|lia]. }
  destruct (pick_best _) as [bv bc]. apply count_entries in Hin as (Hbv & Hbc & ->). cbn [fst snd] in Hmax.
  destruct (Z.ltb_spec (votes dealers sv bv) threshold); [done|]. intros [= <- <-].
  split_and!; [done..|]. intros v' Hv'. destruct (decide (0 < votes dealers sv v')) as [Hp|Hz]; [|unfold votes in *; lia].
  by apply Hmax, count_entries.
Qed.

(** The majority vote is deterministic and safe: the outcome does not depend on the
    order in which the tally map is iterated; on success at least [threshold] dealers
    are kept, all of them on one known version that no other version outvotes (ties go
    to the higher version), and no dealer on that version is dropped; it fails, for a
    non-empty dealer list and a positive threshold, exactly when no known version has
    [threshold] dealers. *)
Theorem select_majority_source_version (dealers : list Address) (sv : gmap Address Z) (threshold : Z) :
  0 < threshold -> dealers <> [] ->
  (forall entries, entries ≡ₚ map_to_list (count_versions dealers sv) ->
     select_with entries dealers sv threshold = SelectMajoritySourceVersion dealers sv threshold) /\
  (forall kept v, SelectMajoritySourceVersion dealers sv threshold = Ok (kept, v) ->
     v <> 0 /\ kept = filter (fun d => version_of sv d = v) dealers /\ threshold <= Z.of_nat (length kept) /\
     forall v', v' <> 0 -> votes dealers sv v' < votes dealers sv v \/
                         votes dealers sv v' = votes dealers sv v /\ v' <= v) /\
  (is_ok (SelectMajoritySourceVersion dealers sv threshold) = false <->
     forall v, v <> 0 -> votes dealers sv v < threshold).
Proof.
  intros Ht Hne. pose proof (count_entries_pos dealers sv) as Hpos.
  set (entries := map_to_list (count_versions dealers sv)) in *. split_and!.
  - intros entries' Hp. unfold SelectMajoritySourceVersion, select_with.
    rewrite (pick_best_unique entries' entries); [done|done|by rewrite Hp].
  - intros kept v. by apply select_ok.
  - unfold SelectMajoritySourceVersion, select_with. fold entries.
    destruct dealers as [|d ds]; [done|]. cbn [length Nat.eqb].
    destruct (pick_best_spec entries Hpos) as [[He ->]|[Hin Hmax]].
    + rewrite (proj2 (Z.ltb_lt 0 threshold)) by done. split; [|done]. intros _ v Hv.
      destruct (decide (0 < votes (d :: ds) sv v)) as [Hp|Hz]; [|lia].
      assert (Hin : (v, votes (d :: ds) sv v) ∈ entries) by by apply count_entries.
      rewrite He in Hin. by apply not_elem_of_nil in Hin.
    + destruct (pick_best entries) as [bv bc]. apply count_entries in Hin as (Hbv & Hbc & ->). cbn [fst snd] in Hmax.
      destruct (Z.ltb_spec (votes (d :: ds) sv bv) threshold) as [Hlt|Hge]; split; try done.
      * intros _ v Hv. destruct (decide (0 < votes (d :: ds) sv v)) as [Hp|Hz]; [|lia].
        destruct (Hmax v (votes (d :: ds) sv v)); [by apply count_entries|lia|lia].
      * intros Hall. specialize (Hall bv Hbv). lia.
Qed.

(** ** Witnesses: dealers 1 and 2 hold the shares of [3 + 5 X], players 1 and 3 join *)

#[local] Existing Instances toy97 toy97_laws.

Definition toy_dealt (d : Address) : list Fr := [peval toy_p1 (AddressToFr d); toy_fr (d + 8)].
Definition toy_reshare_comms : gmap Address (list G2Point) :=
  <[1 := com <$> toy_dealt 1]> (<[2 := com <$> toy_dealt 2]> ∅).
Definition toy_reshare_shares (j : Address) : gmap Address Fr :=
  <[1 := peval (toy_dealt 1) (AddressToFr j)]> (<[2 := peval (toy_dealt 2) (AddressToFr j)]> ∅).
Definition toy_new_share (j : Address) : Fr :=
  lagrange_sum (fun d => peval (toy_dealt d) (AddressToFr j)) [1; 2].
Definition toy_reshare_sigs : gmap Address G1Point :=
  <[1 := psig toy_id (toy_new_share 1)]> (<[3 := psig toy_id (toy_new_share 3)]> ∅).

Lemma toy_reshare_run j : bool_decide (Forall (fun d =>
    VerifyNewShare (NewReshare j []) (toy_reshare_shares j !! d) (default [] (toy_reshare_comms !! d)) = true) [1; 2]) = true ->
  reshare_run [1; 2] toy_reshare_comms (NewReshare j []) (toy_reshare_shares j).
Proof.
  intros Hok%bool_decide_eq_true d Hd. rewrite Forall_forall in Hok. specialize (Hok d Hd).
  apply elem_of_cons in Hd as [->|[->|[]%not_elem_of_nil]%elem_of_cons];
    eexists _, _; (split_and!; [reflexivity|reflexivity|exact Hok]).
Qed.

Lemma validate_reshare_mpk_witness :
  ValidateReshareMasterPublicKey [1; 2] toy_reshare_comms (Some (com (toy_fr 3))) = Ok tt.
Proof.
  refine (proj2 (proj2 (proj2 (validate_reshare_mpk [1; 2] toy_reshare_comms
    (fun d => peval toy_p1 (AddressToFr d)) (toy_fr 3)) _ _) toy_p1 _ _ _) _).
  - discriminate.
  - intros d Hd. apply elem_of_cons in Hd as [->|[->|[]%not_elem_of_nil]%elem_of_cons];
      eexists _, _, [_]; (split; [reflexivity|apply (opens_list_com (toy_dealt _))]).
  - done.
  - by_compute.
  - vm_compute. lia.
  - by_compute.
Defined.

Lemma reshare_preserves_secret_witness :
  exists k, RecoverAppPrivateKey "app-1" toy_reshare_sigs 2 = Ok k /\
            VerifyAppPrivateKey "app-1" k (com (toy_fr 3)) = Ok true.
Proof.
  apply (reshare_preserves_secret 2 [1; 2] [] toy_reshare_comms (toy_fr 3) "app-1" toy_id
    (<[1 := toy_reshare_shares 1]> (<[3 := toy_reshare_shares 3]> ∅)) toy_reshare_sigs).
  - lia.
  - by_compute.
  - intros j shares Hj. map_cases Hj; apply toy_reshare_run; reflexivity.
  - by_compute.
  - by_compute.
  - reflexivity.
  - by_compute.
  - vm_compute. lia.
  - by_compute.
  - unfold toy_reshare_sigs. intros j g Hj. map_cases Hj; eexists _, _; (split_and!; [reflexivity|reflexivity|by_compute]).
Defined.

Lemma source_version_binding_witness :
  let h := <[1 := HashReshareCommitment [com (toy_fr 3)] 77]> ∅ : gmap Address bytes in
  let r := VerifyDealerSourceVersions [1; 2] h (<[1 := [com (toy_fr 3)]]> ∅) (<[1 := 77]> ∅) in
  r.1 `sublist_of` [1; 2].
Proof.
  apply (source_version_binding [1; 2] [1] (<[1 := HashReshareCommitment [com (toy_fr 3)] 77]> ∅)
    (<[1 := [com (toy_fr 3)]]> ∅) ∅ (<[1 := 77]> ∅) ∅).
Defined.

Lemma select_majority_source_version_witness :
  (forall v, v <> 0 -> votes [1; 2; 3] (<[1 := 10]> (<[2 := 20]> (<[3 := 20]> ∅))) v < 3) /\
  SelectMajoritySourceVersion [1; 2; 3] (<[1 := 10]> (<[2 := 20]> (<[3 := 20]> ∅))) 2 = Ok ([2; 3], 20).
Proof.
  split; [|reflexivity].
  apply (select_majority_source_version [1; 2; 3] (<[1 := 10]> (<[2 := 20]> (<[3 := 20]> ∅))) 3);
    [lia|discriminate|reflexivity].
Defined.
End Reshare.
