(* ===== verification/KeyStore.v ===== *)
(** * The key store: [pkg/keystore]

    The store holds POINTERS to key versions, some of them shared: the active pointer,
    the pending pointer and the version list may designate one object, whose
    [IsActive] flag the operations mutate.  The model keeps the objects in [objs] and
    lets the fields hold indices into it; [alloc] is the caller creating an object.
    The lock makes each operation atomic: one definition per method.  The theorems:
    along every sequence of operations the flag agrees with the active pointer, no
    operation that checks the poisoned set activates a poisoned version, and the version
    accessors return exactly what they document. *)

From S2P Require Import Prelude Bytes Types.

Section KeyStore.
Context {Fr : Type}.

Record KeyStore := mkKeyStore {
  objs : list (KeyShareVersion Fr);
  keyVersions : list nat;
  activeVersion : option nat;
  pendingVersion : option nat;
  poisoned : gset Z
}.

Definition NewKeyStore : KeyStore := mkKeyStore [] [] None None ∅.

Definition with_objs (o : list (KeyShareVersion Fr)) (ks : KeyStore) : KeyStore :=
  mkKeyStore o (keyVersions ks) (activeVersion ks) (pendingVersion ks) (poisoned ks).

(** [&types.KeyShareVersion{...}]. *)
Definition alloc (v : KeyShareVersion Fr) (ks : KeyStore) : nat * KeyStore :=
  (length (objs ks), with_objs (objs ks ++ [v]) ks).

Definition obj (ks : KeyStore) (l : nat) : option (KeyShareVersion Fr) := objs ks !! l.

(** [version.IsActive = b]. *)
Definition set_flag (b : bool) (l : nat) (ks : KeyStore) : KeyStore :=
  with_objs (alter (set_IsActive b) l (objs ks)) ks.

(** [if ks.activeVersion != nil { ks.activeVersion.IsActive = false }]. *)
Definition unflag_active (ks : KeyStore) : KeyStore :=
  match activeVersion ks with Some a => set_flag false a ks | None => ks end.

Definition point_active (l : nat) (ks : KeyStore) : KeyStore :=
  mkKeyStore (objs ks) (keyVersions ks) (Some l) (pendingVersion ks) (poisoned ks).

Definition AddVersion (version : nat) (ks : KeyStore) : KeyStore :=
  let ks := mkKeyStore (objs ks) (keyVersions ks ++ [version]) (activeVersion ks) (pendingVersion ks) (poisoned ks) in
  match obj ks version with
  | Some v => if IsActive v then point_active version (unflag_active ks) else ks
  | None => ks
  end.

Definition SetActiveVersion (version : nat) (ks : KeyStore) : KeyStore :=
  point_active version (set_flag true version (unflag_active ks)).

(** The first stored pointer whose object has the given version number. *)
Fixpoint find_version (o : list (KeyShareVersion Fr)) (l : list nat) (version : Z) : option nat :=
  match l with
  | [] => None
  | x :: l =>
      match o !! x with
      | Some v => if Version v =? version then Some x else find_version o l version
      | None => find_version o l version
      end
  end.

Definition IsPoisoned (ks : KeyStore) (version : Z) : bool := bool_decide (version ∈ poisoned ks).

Definition SetActiveVersionByTimestamp (version : Z) (ks : KeyStore) : res KeyStore :=
  if IsPoisoned ks version then Err "cannot activate poisoned version %d" else
  match find_version (objs ks) (keyVersions ks) version with
  | Some l => Ok (point_active l (set_flag true l (unflag_active ks)))
  | None => Err "no key version %d in keystore"
  end.

Definition GetActiveVersion (ks : KeyStore) : option (KeyShareVersion Fr) :=
  activeVersion ks ≫= obj ks.

Definition MarkPoisoned (version : Z) (ks : KeyStore) : KeyStore :=
  mkKeyStore (objs ks) (keyVersions ks) (activeVersion ks) (pendingVersion ks) ({[version]} ∪ poisoned ks).

(** A nil share is a nil dereference in [Set]. *)
Definition GetActivePrivateShare (ks : KeyStore) : res Fr :=
  match GetActiveVersion ks with
  | None => Err "no active key version"
  | Some v => from_opt "panic: nil pointer dereference" (PrivateShare v)
  end.

Definition SetPendingVersion (version : option nat) (ks : KeyStore) : KeyStore :=
  mkKeyStore (objs ks) (keyVersions ks) (activeVersion ks) version (poisoned ks).

Definition GetPendingVersion (ks : KeyStore) : option (KeyShareVersion Fr) := pendingVersion ks ≫= obj ks.

Definition ActivatePendingVersion (ks : KeyStore) : res KeyStore :=
  match pendingVersion ks with
  | None => Err "no pending version to activate"
  | Some p =>
      match obj ks p with
      | None => Err "panic: nil pointer dereference"
      | Some v =>
          if IsPoisoned ks (Version v) then Err "cannot activate poisoned pending version %d" else
          let ks := unflag_active (set_flag true p ks) in
          Ok (mkKeyStore (objs ks) (keyVersions ks ++ [p]) (Some p) None (poisoned ks))
      end
  end.

Definition ClearPendingVersion (ks : KeyStore) : KeyStore := SetPendingVersion None ks.

Definition GetPrivateShareForVersion (ks : KeyStore) (version : Z) : res Fr :=
  if IsPoisoned ks version then Err "key version %d is poisoned and must not be used" else
  match find_version (objs ks) (keyVersions ks) version ≫= obj ks with
  | Some v => from_opt "key version %d has no private share" (PrivateShare v)
  | None => Err "no key version %d in keystore"
  end.

(** The scan keeps the best candidate so far. *)
Definition at_time_step (bad : gset Z) (timestamp : Z) (best : option (KeyShareVersion Fr))
    (version : KeyShareVersion Fr) : option (KeyShareVersion Fr) :=
  if bool_decide (Version version ∈ bad) then best else
  if Version version <=? timestamp then
    match best with
    | None => Some version
    | Some b => if Version version >? Version b then Some version else best
    end
  else best.

Definition GetKeyVersionAtTime (ks : KeyStore) (timestamp : Z) : option (KeyShareVersion Fr) :=
  foldl (at_time_step (poisoned ks) timestamp) None (omap (obj ks) (keyVersions ks)).

(** The stored versions, in order. *)
Definition stored (ks : KeyStore) : list (KeyShareVersion Fr) := omap (obj ks) (keyVersions ks).
End KeyStore.
Arguments KeyStore Fr : clear implicits.

(** ** The store as a state machine *)

Section KeyStoreFacts.
Context {Fr : Type}.
Implicit Types (ks : KeyStore Fr) (v : KeyShareVersion Fr).

(** The operations as their callers issue them: a version that is added or made pending
    is a freshly created object; [SetActiveVersion] is given a stored pointer. *)
Inductive ks_op :=
| OpAdd (v : KeyShareVersion Fr)
| OpActivate (l : nat)
| OpActivateByTimestamp (t : Z)
| OpPoison (t : Z)
| OpSetPending (v : KeyShareVersion Fr)
| OpActivatePending
| OpClearPending.

Definition ks_apply (op : ks_op) (ks : KeyStore Fr) : KeyStore Fr :=
  let keep r := match r with Ok ks' => ks' | Err _ => ks end in
  match op with
  | OpAdd v => let '(l, ks) := alloc v ks in AddVersion l ks
  | OpActivate l => if decide (l ∈ keyVersions ks) then SetActiveVersion l ks else ks
  | OpActivateByTimestamp t => keep (SetActiveVersionByTimestamp t ks)
  | OpPoison t => MarkPoisoned t ks
  | OpSetPending v => let '(l, ks) := alloc v ks in SetPendingVersion (Some l) ks
  | OpActivatePending => keep (ActivatePendingVersion ks)
  | OpClearPending => ClearPendingVersion ks
  end.

Record ks_inv ks : Prop := {
  inv_stored l : l ∈ keyVersions ks -> is_Some (obj ks l);
  inv_flag l v : l ∈ keyVersions ks -> obj ks l = Some v -> IsActive v = true -> activeVersion ks = Some l;
  inv_active l : activeVersion ks = Some l -> l ∈ keyVersions ks /\ exists v, obj ks l = Some v /\ IsActive v = true;
  inv_pending l : pendingVersion ks = Some l -> l ∉ keyVersions ks /\ is_Some (obj ks l)
}.

Lemma obj_set_flag b l ks l' : obj (set_flag b l ks) l' =
  if decide (l = l') then set_IsActive b <$> obj ks l' else obj ks l'.
Proof.
  unfold obj, set_flag, with_objs; cbn [objs]. case_decide as Hl.
  - subst. by rewrite list_lookup_alter_eq.
  - by rewrite list_lookup_alter_ne.
Qed.

Lemma obj_alloc v ks l : obj (alloc v ks).2 l = if decide (l = length (objs ks)) then Some v else obj ks l.
Proof.
  unfold obj, alloc, with_objs; cbn [snd objs]. case_decide as Hl.
  - subst. by rewrite lookup_app_r, Nat.sub_diag.
  - destruct (decide (l < length (objs ks))%nat); [by rewrite lookup_app_l|].
    rewrite !lookup_ge_None_2; [done|lia|]. rewrite length_app. simpl. lia.
Qed.

Lemma obj_unflag ks l : obj (unflag_active ks) l =
  if decide (activeVersion ks = Some l) then set_IsActive false <$> obj ks l else obj ks l.
Proof.
  unfold unflag_active. destruct (activeVersion ks) as [a|]; [|by rewrite decide_False].
  rewrite obj_set_flag. repeat case_decide; congruence.
Qed.

Lemma unflag_fields ks : keyVersions (unflag_active ks) = keyVersions ks /\
  activeVersion (unflag_active ks) = activeVersion ks /\ pendingVersion (unflag_active ks) = pendingVersion ks
  /\ poisoned (unflag_active ks) = poisoned ks.
Proof. unfold unflag_active. destruct (activeVersion ks) eqn:E; cbn; by rewrite ?E. Qed.

Lemma fresh_loc ks l : is_Some (obj ks l) -> l <> length (objs ks).
Proof. intros Hl ->. apply lookup_lt_is_Some in Hl. lia. Qed.

(** Re-pointing the active pointer to a stored object, flags updated in that order. *)
Lemma activate_inv ks l : ks_inv ks -> l ∈ keyVersions ks ->
  ks_inv (point_active l (set_flag true l (unflag_active ks))).
Proof.
  intros [Hs Hf Ha Hp] Hl. destruct (unflag_fields ks) as (Ek & Ea & Ep & _).
  assert (Hobj : forall x, obj (point_active l (set_flag true l (unflag_active ks))) x =
    if decide (l = x) then set_IsActive true <$> obj ks x else
    if decide (activeVersion ks = Some x) then set_IsActive false <$> obj ks x else obj ks x).
  { intros x. change (obj (point_active ?l ?k) x) with (obj k x). rewrite obj_set_flag, obj_unflag.
    repeat case_decide; try done. by destruct (obj ks x). }
  split; intros x; rewrite Hobj; cbn [point_active keyVersions activeVersion pendingVersion set_flag with_objs];
    rewrite ?Ek, ?Ep.
  - intros Hx. destruct (Hs x Hx) as [v ->]. repeat case_decide; eauto.
  - intros v Hx. case_decide as E1; [congruence|]. case_decide as E2.
    + destruct (obj ks x); [intros [= <-]; done|done].
    + intros Hv Hact. exfalso. apply E2. by eapply Hf.
  - intros [= ->]. split; [done|]. destruct (Hs x Hl) as [v ->]. rewrite decide_True by done. eauto.
  - intros Hx. destruct (Hp x Hx) as [Hn [v ->]]. split; [done|]. repeat case_decide; eauto.
Qed.

Lemma find_version_spec (ks : KeyStore Fr) t l : find_version (objs ks) (keyVersions ks) t = Some l ->
  l ∈ keyVersions ks /\ exists v, obj ks l = Some v /\ Version v = t.
Proof.
  unfold obj. induction (keyVersions ks) as [|x xs IH]; [done|]. cbn [find_version].
  destruct (objs ks !! x) as [v|] eqn:Hx.
  - destruct (Z.eqb_spec (Version v) t).
    + intros [= <-]. split; [by left|eauto].
    + intros Hl. destruct (IH Hl). split; [by right|done].
  - intros Hl. destruct (IH Hl). split; [by right|done].
Qed.

Lemma alloc_inv v ks : ks_inv ks -> ks_inv (alloc v ks).2.
Proof.
  intros [Hs Hf Ha Hp].
  assert (Hold : forall l, is_Some (obj ks l) -> obj (alloc v ks).2 l = obj ks l).
  { intros l Hl. rewrite obj_alloc, decide_False; [done|by apply fresh_loc]. }
  split; intros l; cbn [alloc snd with_objs keyVersions activeVersion pendingVersion].
  - intros Hl. rewrite Hold; auto.
  - intros w Hl. rewrite Hold by auto. eauto.
  - intros Hl. destruct (Ha l Hl) as [? (w & Hw & ?)]. split; [done|]. exists w. rewrite Hold; [done|by rewrite Hw].
  - intros Hl. destruct (Hp l Hl) as [? Hw]. split; [done|]. by rewrite Hold.
Qed.

Lemma add_inv v ks : ks_inv ks -> ks_inv (AddVersion (alloc v ks).1 (alloc v ks).2).
Proof.
  intros Hinv. pose proof (alloc_inv v ks Hinv) as Hinv'.
  set (ks' := (alloc v ks).2) in *. set (l := (alloc v ks).1).
  assert (Hl : obj ks' l = Some v) by (unfold ks'; rewrite obj_alloc; by rewrite decide_True).
  assert (Hfresh : l ∉ keyVersions ks' /\ activeVersion ks' <> Some l /\ pendingVersion ks' <> Some l).
  { destruct Hinv as [Hs _ Ha Hp]. cbn [alloc snd with_objs keyVersions activeVersion pendingVersion].
    split_and!.
    - intros Hx%Hs. by apply fresh_loc in Hx.
    - intros Hx. destruct (Ha _ Hx) as [Hk _]. apply Hs in Hk. by apply fresh_loc in Hk.
    - intros Hx. destruct (Hp _ Hx) as [_ Hk]. by apply fresh_loc in Hk. }
  clearbody l. destruct Hfresh as (Hnk & Hna & Hnp). destruct Hinv' as [Hs Hf Ha Hp].
  unfold AddVersion. set (ks1 := mkKeyStore _ _ _ _ _). change (obj ks1 l) with (obj ks' l). rewrite Hl.
  destruct (unflag_fields ks1) as (Ek & Ea & Ep & _).
  destruct (IsActive v) eqn:Hv; split; intros x.
  all: try change (obj (point_active ?l ?k) x) with (obj k x).
  all: cbn [point_active keyVersions activeVersion pendingVersion]; rewrite ?Ek, ?Ep, ?obj_unflag;
    change (obj ks1 x) with (obj ks' x); change (activeVersion ks1) with (activeVersion ks').
  - unfold ks1; cbn [keyVersions]. rewrite elem_of_app, list_elem_of_singleton.
    intros [Hx | ->]; [destruct (Hs x Hx) as [w ->]|rewrite Hl]; case_decide; eauto.
  - intros w. unfold ks1; cbn [keyVersions]. rewrite elem_of_app, list_elem_of_singleton.
    intros [Hx | ->] Hw Hact; [|done]. case_decide as E.
    + destruct (obj ks' x); [injection Hw as <-; done|done].
    + exfalso. apply E. by eapply Hf.
  - intros [= ->]. split; [apply elem_of_app; right; by left|]. rewrite decide_False by done. eauto.
  - intros Hx. destruct (Hp x Hx) as [Hn [w Hw]]. unfold ks1; cbn [keyVersions]. split.
    + rewrite elem_of_app, list_elem_of_singleton. intros [?| ->]; [done|by apply Hnp].
    + rewrite Hw. case_decide; eauto.
  - unfold ks1; cbn [keyVersions]. rewrite elem_of_app, list_elem_of_singleton.
    intros [Hx | ->]; [auto|rewrite Hl; eauto].
  - intros w. unfold ks1; cbn [keyVersions activeVersion]. rewrite elem_of_app, list_elem_of_singleton.
    intros [Hx | ->] Hw Hact; [eauto|congruence].
  - unfold ks1; cbn [activeVersion keyVersions]. intros Hx. destruct (Ha x Hx) as [? ?].
    split; [by apply elem_of_app; left|done].
  - unfold ks1; cbn [pendingVersion keyVersions]. intros Hx. destruct (Hp x Hx) as [Hn Hw]. split; [|done].
    rewrite elem_of_app, list_elem_of_singleton. intros [?| ->]; [done|congruence].
Qed.

(** A version added with its flag set is served. *)
Lemma add_serves v ks : ks_inv ks -> IsActive v = true -> GetActiveVersion (AddVersion (alloc v ks).1 (alloc v ks).2) = Some v.
Proof.
  intros Hinv Hv. unfold AddVersion. set (ks1 := mkKeyStore _ _ _ _ _).
  assert (Hl : obj ks1 (alloc v ks).1 = Some v) by (unfold obj, ks1; cbn; by rewrite lookup_app_r, Nat.sub_diag).
  rewrite Hl, Hv. unfold GetActiveVersion, point_active. cbn [activeVersion mbind option_bind].
  change (obj (unflag_active ks1) (alloc v ks).1 = Some v). rewrite obj_unflag.
  rewrite decide_False; [done|]. cbn. intros Ha. destruct (inv_active _ Hinv _ Ha) as (_ & w & Hw & _).
  apply (fresh_loc ks (length (objs ks))); [by exists w|done].
Qed.

Lemma activate_pending_inv ks ks' : ks_inv ks -> ActivatePendingVersion ks = Ok ks' -> ks_inv ks'.
Proof.
  intros [Hs Hf Ha Hp]. unfold ActivatePendingVersion. destruct (pendingVersion ks) as [p|] eqn:Hpend; [|done].
  destruct (Hp p eq_refl) as [Hnk [v Hv]]. rewrite Hv. destruct (IsPoisoned ks (Version v)); [done|]. intros [= <-].
  assert (Hna : activeVersion ks <> Some p) by (intros Hx; by destruct (Ha p Hx)).
  destruct (unflag_fields (set_flag true p ks)) as (Ek & _).
  assert (Hobj : forall x, obj (unflag_active (set_flag true p ks)) x =
    if decide (p = x) then set_IsActive true <$> obj ks x else
    if decide (activeVersion ks = Some x) then set_IsActive false <$> obj ks x else obj ks x).
  { intros x. rewrite obj_unflag. change (activeVersion (set_flag true p ks)) with (activeVersion ks).
    rewrite obj_set_flag. repeat case_decide; congruence || done. }
  split; intros x; change (obj (mkKeyStore (objs ?k) _ _ _ _) x) with (obj k x); rewrite ?Hobj;
    cbn [keyVersions activeVersion pendingVersion]; rewrite ?Ek; cbn [set_flag with_objs keyVersions];
    rewrite ?elem_of_app, ?list_elem_of_singleton.
  - intros [Hx | ->]; [destruct (Hs x Hx) as [w ->]|rewrite Hv]; repeat case_decide; eauto.
  - intros w Hx Hw Hact. case_decide as E1; [congruence|]. exfalso.
    apply elem_of_app in Hx as [Hx|Hx%list_elem_of_singleton]; [|done].
    case_decide as E2.
    + destruct (obj ks x); [by injection Hw as <-|done].
    + apply E2. by eapply Hf.
  - intros [= ->]. split; [by right|]. rewrite Hv, decide_True by done. eauto.
  - done.
Qed.

Lemma ks_apply_inv op ks : ks_inv ks -> ks_inv (ks_apply op ks).
Proof.
  intros Hinv. destruct op as [v|l|t|t|v| |]; cbn [ks_apply].
  - by apply add_inv.
  - case_decide as Hl; [|done]. by apply activate_inv.
  - unfold SetActiveVersionByTimestamp. destruct (IsPoisoned ks t); [done|].
    destruct (find_version _ _ _) as [l|] eqn:Hl; [|done]. apply activate_inv; [done|].
    by apply find_version_spec in Hl as [].
  - by destruct Hinv.
  - pose proof (alloc_inv v ks Hinv) as [Hs Hf Ha Hp].
    assert (Hl : length (objs ks) ∉ keyVersions ks).
    { intros Hx%(inv_stored _ Hinv). by apply fresh_loc in Hx. }
    split; cbn [alloc snd]; [exact Hs|exact Hf|exact Ha|]. intros l [= <-]. split; [done|].
    change (is_Some (obj (alloc v ks).2 (length (objs ks)))). rewrite obj_alloc, decide_True by done. eauto.
  - destruct (ActivatePendingVersion ks) as [ks'|] eqn:Hact; [|done]. by eapply activate_pending_inv.
  - destruct Hinv as [Hs Hf Ha Hp]. by split.
Qed.

Lemma NewKeyStore_inv : ks_inv (NewKeyStore (Fr := Fr)).
Proof. split; cbn; intros l; try done; intros; exfalso; by eapply not_elem_of_nil. Qed.

Definition ks_run (ops : list ks_op) : KeyStore Fr := foldl (fun ks op => ks_apply op ks) NewKeyStore ops.

Lemma ks_run_inv ops : ks_inv (ks_run ops).
Proof.
  unfold ks_run. induction ops as [|op ops IH] using rev_ind; [apply NewKeyStore_inv|].
  rewrite foldl_app. by apply ks_apply_inv.
Qed.

(** The [IsActive] flag never disagrees with the active pointer: after any sequence
    of key store operations, a stored version is flagged active iff it is the version
    [GetActiveVersion] returns, the active version is always a stored one, and at most
    one stored version is flagged. *)
Theorem keystore_flag_invariant (ops : list ks_op) :
  let ks := ks_run ops in
  (forall l v, l ∈ keyVersions ks -> obj ks l = Some v -> (IsActive v = true <-> activeVersion ks = Some l)) /\
  (forall v, GetActiveVersion ks = Some v -> IsActive v = true /\ v ∈ stored ks) /\
  (GetActiveVersion ks = None <-> activeVersion ks = None).
Proof.
  intros ks. destruct (ks_run_inv ops) as [Hs Hf Ha Hp]. fold ks in Hs, Hf, Ha, Hp. split_and!.
  - intros l v Hl Hv. split; [by eapply Hf|]. intros Hact. destruct (Ha l Hact) as (_ & w & Hw & ?). congruence.
  - intros v. unfold GetActiveVersion. destruct (activeVersion ks) as [l|] eqn:Hact; [|done]. cbn.
    intros Hv. destruct (Ha l eq_refl) as (Hk & w & Hw & ?). split; [congruence|].
    apply list_elem_of_omap. eauto.
  - unfold GetActiveVersion. destruct (activeVersion ks) as [l|] eqn:Hact; [|done]. cbn.
    destruct (Ha l eq_refl) as (_ & w & -> & _). done.
Qed.

Lemma find_version_none (o : list (KeyShareVersion Fr)) l t : find_version o l t = None <->
  forall x v, x ∈ l -> o !! x = Some v -> Version v <> t.
Proof.
  induction l as [|x l IH]; cbn [find_version].
  - split; [|done]. by intros _ ? ? ?%not_elem_of_nil.
  - destruct (o !! x) as [v|] eqn:Hx.
    + destruct (Z.eqb_spec (Version v) t) as [He|He].
      * split; [done|]. intros Hall. exfalso. apply (Hall x v); [by left|done|done].
      * rewrite IH. split; intros Hall y w Hy; [apply elem_of_cons in Hy as [->|Hy]; [congruence|eauto]|].
        apply Hall. by right.
    + rewrite IH. split; intros Hall y w Hy; [apply elem_of_cons in Hy as [->|Hy]; [congruence|eauto]|].
      apply Hall. by right.
Qed.

(** Activation by version number: when it succeeds, and what it changes. *)
Lemma activate_by_number t ks :
  is_ok (SetActiveVersionByTimestamp t ks) = true <-> t ∉ poisoned ks /\ exists v, v ∈ stored ks /\ Version v = t.
Proof.
  unfold SetActiveVersionByTimestamp, IsPoisoned. case_bool_decide as Hp; [split; [done|by intros [? _]]|].
  destruct (find_version _ _ _) as [l|] eqn:Hl; cbn.
  - apply find_version_spec in Hl as (Hk & v & Hv & Ht). split; [|done]. intros _. split; [done|].
    exists v. split; [|done]. apply list_elem_of_omap. eauto.
  - split; [done|]. intros (_ & v & (x & Hx & Hv)%list_elem_of_omap & Ht).
    exfalso. by eapply find_version_none in Hl.
Qed.

Lemma activated_by_number t ks ks' : SetActiveVersionByTimestamp t ks = Ok ks' ->
  (exists v, GetActiveVersion ks' = Some v /\ Version v = t) /\ poisoned ks' = poisoned ks /\ keyVersions ks' = keyVersions ks /\
  (forall l, set_IsActive false <$> obj ks' l = set_IsActive false <$> obj ks l).
Proof.
  unfold SetActiveVersionByTimestamp, IsPoisoned. case_bool_decide as Hp; [done|].
  destruct (find_version _ _ _) as [l|] eqn:Hl; [|done].
  intros [= <-]. apply find_version_spec in Hl as (Hk & v & Hv & Ht).
  destruct (unflag_fields ks) as (Ek & _ & _ & Epo).
  assert (Hobj : forall x, obj (point_active l (set_flag true l (unflag_active ks))) x =
    if decide (l = x) then set_IsActive true <$> obj (unflag_active ks) x else obj (unflag_active ks) x)
    by (intros x; exact (obj_set_flag true l (unflag_active ks) x)).
  split_and!; [|exact Epo|exact Ek|].
  - change (GetActiveVersion (point_active l ?k)) with (obj (point_active l k) l). rewrite Hobj, decide_True by done.
    rewrite obj_unflag, Hv. case_decide; cbn; eauto.
  - intros x. rewrite Hobj, obj_unflag. repeat case_decide; by destruct (obj ks x) as [[]|].
Qed.

(** A poisoned version is never activated or dealt from by version number:
    in every reachable store, activation by timestamp succeeds iff the version is
    stored and not poisoned, and makes it the active one; activation of the pending
    version makes an unpoisoned version active; and the share of a version is
    returned only for the exact, unpoisoned version. *)
Theorem keystore_refuses_poisoned (ops : list ks_op) (t : Z) :
  let ks := ks_run ops in
  (is_ok (SetActiveVersionByTimestamp t ks) = true <-> t ∉ poisoned ks /\ exists v, v ∈ stored ks /\ Version v = t) /\
  (forall ks', SetActiveVersionByTimestamp t ks = Ok ks' ->
     exists v, GetActiveVersion ks' = Some v /\ Version v = t /\ poisoned ks' = poisoned ks) /\
  (forall ks', ActivatePendingVersion ks = Ok ks' ->
     exists v, GetActiveVersion ks' = Some v /\ Version v ∉ poisoned ks' /\ pendingVersion ks' = None) /\
  (forall s, GetPrivateShareForVersion ks t = Ok s ->
     t ∉ poisoned ks /\ exists v, v ∈ stored ks /\ Version v = t /\ PrivateShare v = Some s).
Proof.
  intros ks. pose proof (ks_run_inv ops) as Hinv. fold ks in Hinv.
  split_and!.
  - apply activate_by_number.
  - intros ks' Hk. apply activated_by_number in Hk as ((v & ? & ?) & ? & _). eauto.
  - intros ks'. unfold ActivatePendingVersion. destruct (pendingVersion ks) as [p|]; [|done].
    destruct (obj ks p) as [v|] eqn:Hv; [|done]. unfold IsPoisoned. case_bool_decide as Hp; [done|]. intros [= <-].
    change (GetActiveVersion (mkKeyStore (objs ?k) _ (Some p) _ _)) with (obj k p). cbn [poisoned pendingVersion].
    destruct (unflag_fields (set_flag true p ks)) as (_ & _ & _ & ->).
    rewrite obj_unflag, obj_set_flag, (decide_True (P := p = p)), Hv by done.
    case_decide; cbn; eexists; (split_and!; [done|exact Hp|done]).
  - intros s. unfold GetPrivateShareForVersion, IsPoisoned. case_bool_decide as Hp; [done|]. destruct (find_version _ _ _) as [l|] eqn:Hl; [|done]. cbn.
    apply find_version_spec in Hl as (Hk & v & Hv & Ht). rewrite Hv, from_opt_ok. intros Hsh. split; [done|].
    exists v. split_and!; [|done|done]. apply list_elem_of_omap. eauto.
Qed.

Lemma at_time_spec bad t (l : list (KeyShareVersion Fr)) :
  match foldl (at_time_step bad t) None l with
  | None => forall v, v ∈ l -> Version v ∈ bad \/ t < Version v
  | Some b => b ∈ l /\ Version b ∉ bad /\ Version b <= t /\
      forall v, v ∈ l -> Version v ∈ bad \/ t < Version v \/ Version v <= Version b
  end.
Proof.
  induction l as [|x l IH] using rev_ind; [by intros ? ?%not_elem_of_nil|].
  rewrite foldl_app. cbn [foldl]. set (best := foldl _ _ l) in *. unfold at_time_step.
  assert (Hsnoc : forall v, v ∈ l ++ [x] <-> v ∈ l \/ v = x)
    by (intros v; by rewrite elem_of_app, list_elem_of_singleton).
  case_bool_decide as Hbad.
  { destruct best as [b|].
    - destruct IH as (? & ? & ? & Hmax). split_and!; [by apply Hsnoc; auto|auto..|]. intros v [Hv | ->]%Hsnoc; auto.
    - intros v [Hv | ->]%Hsnoc; auto. }
  destruct (Z.leb_spec (Version x) t) as [Hle|Hlt].
  - destruct best as [b|].
    + destruct IH as (Hb & Hnb & Hbt & Hmax). rewrite Z.gtb_ltb.
      destruct (Z.ltb_spec (Version b) (Version x)).
      * split_and!; [by apply Hsnoc; auto|auto..|]. intros v [Hv | ->]%Hsnoc; [|lia]. destruct (Hmax v Hv) as [?|[?|?]]; [auto|auto|]. right; right. lia.
      * split_and!; [by apply Hsnoc; auto|auto..|]. intros v [Hv | ->]%Hsnoc; auto.
    + split_and!; [by apply Hsnoc; auto|auto..|]. intros v [Hv | ->]%Hsnoc; [|lia]. destruct (IH v Hv); auto.
  - destruct best as [b|].
    + destruct IH as (? & ? & ? & Hmax). split_and!; [by apply Hsnoc; auto|auto..|]. intros v [Hv | ->]%Hsnoc; auto.
    + intros v [Hv | ->]%Hsnoc; auto.
Qed.

(** [GetKeyVersionAtTime] returns the latest usable version at a time: the result
    is a stored, unpoisoned version not after the timestamp and no other such version
    is later; it returns nothing only when there is none. *)
Theorem key_version_at_time (ks : KeyStore Fr) (timestamp : Z) :
  match GetKeyVersionAtTime ks timestamp with
  | None => forall v, v ∈ stored ks -> Version v ∈ poisoned ks \/ timestamp < Version v
  | Some b => b ∈ stored ks /\ Version b ∉ poisoned ks /\ Version b <= timestamp /\
      forall v, v ∈ stored ks -> Version v ∈ poisoned ks \/ timestamp < Version v \/ Version v <= Version b
  end.
Proof. apply at_time_spec. Qed.

(** ** Contents up to the flags *)

(** The stored versions, whatever their flags. *)
Definition contents (ks : KeyStore Fr) : list (KeyShareVersion Fr) := set_IsActive false <$> stored ks.

Lemma contents_ext ks ks' : keyVersions ks' = keyVersions ks ->
  (forall l, l ∈ keyVersions ks -> set_IsActive false <$> obj ks' l = set_IsActive false <$> obj ks l) -> contents ks' = contents ks.
Proof.
  unfold contents, stored. intros ->. induction (keyVersions ks) as [|l ls IH]; intros Hobj; [done|].
  cbn [omap list_omap]. pose proof (Hobj l ltac:(by left)) as Hl. assert (IH' := IH ltac:(intros; apply Hobj; by right)).
  destruct (obj ks l), (obj ks' l); try done. cbn in Hl |- *. injection Hl as Hv. f_equal; [|exact IH']. unfold set_IsActive. congruence.
Qed.

Lemma contents_activated t ks ks' : SetActiveVersionByTimestamp t ks = Ok ks' -> contents ks' = contents ks.
Proof. intros (_ & _ & Ek & Hobj)%activated_by_number. apply contents_ext; [done|]. intros l _. apply Hobj. Qed.

Lemma contents_versions ks : Version <$> contents ks = Version <$> stored ks.
Proof. unfold contents. rewrite <- list_fmap_compose. by apply list_fmap_ext. Qed.

Lemma flags_unflag ks l : set_IsActive false <$> obj (unflag_active ks) l = set_IsActive false <$> obj ks l.
Proof. rewrite obj_unflag. case_decide; by destruct (obj ks l) as [[]|]. Qed.

Lemma flags_set b l' ks l : set_IsActive false <$> obj (set_flag b l' ks) l = set_IsActive false <$> obj ks l.
Proof. rewrite obj_set_flag. case_decide; by destruct (obj ks l) as [[]|]. Qed.

(** Adding a new version stores it behind the others. *)
Lemma contents_add v ks : ks_inv ks ->
  contents (AddVersion (alloc v ks).1 (alloc v ks).2) = (contents ks ++ [set_IsActive false v])%list /\
  keyVersions (AddVersion (alloc v ks).1 (alloc v ks).2) = (keyVersions ks ++ [length (objs ks)])%list /\
  poisoned (AddVersion (alloc v ks).1 (alloc v ks).2) = poisoned ks.
Proof.
  intros Hinv. set (ks1 := mkKeyStore (objs ks ++ [v]) (keyVersions ks ++ [length (objs ks)]) (activeVersion ks) (pendingVersion ks) (poisoned ks)).
  assert (Hv : obj ks1 (length (objs ks)) = Some v) by (unfold obj, ks1; cbn; by rewrite lookup_app_r, Nat.sub_diag).
  assert (Ek : keyVersions (AddVersion (alloc v ks).1 (alloc v ks).2) = keyVersions ks1 /\
    poisoned (AddVersion (alloc v ks).1 (alloc v ks).2) = poisoned ks /\
    forall l, set_IsActive false <$> obj (AddVersion (alloc v ks).1 (alloc v ks).2) l = set_IsActive false <$> obj ks1 l).
  { unfold AddVersion, alloc. cbn [fst snd]. change (mkKeyStore _ _ _ _ _) with ks1. rewrite Hv. destruct (IsActive v); [|done].
    destruct (unflag_fields ks1) as (E1 & _ & _ & E2). split_and!; [exact E1|exact E2|]. intros l. exact (flags_unflag ks1 l). }
  destruct Ek as (Ek & Ep & Hobj). split_and!; [|exact Ek|exact Ep]. rewrite (contents_ext ks1) by done.
  unfold contents, stored. cbn [ks1 keyVersions]. rewrite omap_app, fmap_app. cbn [omap list_omap]. rewrite Hv. cbn. f_equal.
  assert (Hold : forall l, l ∈ keyVersions ks -> obj ks1 l = obj ks l).
  { intros l Hl. apply (inv_stored ks Hinv) in Hl. unfold obj in *. cbn. rewrite lookup_app_l; [done|]. by apply lookup_lt_is_Some in Hl. }
  clear -Hold. induction (keyVersions ks) as [|l ls IH]; [done|]. cbn [omap list_omap]. rewrite Hold by (by left).
  pose proof (IH ltac:(intros; apply Hold; by right)) as IH'. destruct (obj ks l); [|done]. rewrite !fmap_cons. f_equal. exact IH'.
Qed.
End KeyStoreFacts.
