(* ===== verification/Persistence.v ===== *)
(** * Node persistence: [pkg/persistence] and its in-memory implementation

    [INodePersistence] is the interface the node is written against, as a typeclass
    over the store type; [PersistenceLaws] is the contract its comments state, used by
    the theorems on the node; [MemoryPersistence] is [pkg/persistence/memory], and
    [memory_laws] discharges the contract for it. *)

From S2P Require Import Prelude Bytes Types.

(** go-ethereum's [common.Address.Hex] and [common.HexToAddress]. *)
Class EthAddr := {
  Hex : Address -> string;
  HexToAddress : string -> Address
}.

Record NodeState := mkNodeState {
  LastProcessedBoundary : Z;
  NodeStartTime : Z;
  ns_OperatorAddress : string;
  TrackedSourceVersion : Z;
  ConsecutiveMPKAborts : Z;
  LastKnownGoodSourceVersion : Z
}.

#[export] Instance NodeState_eq_dec : EqDecision NodeState.
Proof. solve_decision. Defined.

Definition empty_NodeState : NodeState := mkNodeState 0 0 "" 0 0 0.

Record BlockRecord := mkBlockRecord {
  br_Number : Z; br_Hash : string; br_ParentHash : string; br_Timestamp : Z; br_ChainId : Z
}.

Record ProtocolSessionState := mkProtocolSessionState {
  ps_SessionTimestamp : Z;
  ps_Type : string;
  ps_Phase : Z;
  ps_StartTime : Z;
  ps_OperatorAddresses : list string;
  ps_Shares : gmap string string;
  ps_Commitments : gmap string (list G2Point);
  ps_Acknowledgements : gmap string (gmap string Acknowledgement)
}.

(** [now] is [time.Now().Unix()]. *)
Definition IsExpired (now : Z) (pss : option ProtocolSessionState) (timeoutSeconds : Z) : bool :=
  match pss with
  | None => true
  | Some pss => let elapsed := now - ps_StartTime pss in elapsed >? timeoutSeconds
  end.

(** ** The interface *)

Class INodePersistence (Fr P : Type) := {
  SaveKeyShareVersion : KeyShareVersion Fr -> P -> res P;
  LoadKeyShareVersion : Z -> P -> res (option (KeyShareVersion Fr));
  ListKeyShareVersions : P -> res (list (KeyShareVersion Fr));
  DeleteKeyShareVersion : Z -> P -> res P;
  AddPoisonedVersion : Z -> P -> res P;
  ListPoisonedVersions : P -> res (list Z);
  SetActiveVersionTimestamp : Z -> P -> res P;
  GetActiveVersionTimestamp : P -> res Z;
  SaveNodeState : NodeState -> P -> res P;
  LoadNodeState : P -> res (option NodeState);
  SaveProtocolSession : ProtocolSessionState -> P -> res P;
  LoadProtocolSession : Z -> P -> res (option ProtocolSessionState);
  DeleteProtocolSession : Z -> P -> res P;
  ListProtocolSessions : P -> res (list ProtocolSessionState)
}.

(** What the documentation of the interface promises of successful calls: a saved
    value is read back and nothing else of the store changes. *)
Class PersistenceLaws {Fr P : Type} `{INodePersistence Fr P} : Prop := {
  save_key_load v p p' t : SaveKeyShareVersion v p = Ok p' ->
    LoadKeyShareVersion t p' = if decide (t = Version v) then Ok (Some v) else LoadKeyShareVersion t p;
  save_key_frame v p p' : SaveKeyShareVersion v p = Ok p' ->
    GetActiveVersionTimestamp p' = GetActiveVersionTimestamp p /\ LoadNodeState p' = LoadNodeState p /\
    ListPoisonedVersions p' = ListPoisonedVersions p;
  list_key_spec p l v : ListKeyShareVersions p = Ok l ->
    v ∈ l <-> exists t, LoadKeyShareVersion t p = Ok (Some v);
  add_poisoned_list t p p' : AddPoisonedVersion t p = Ok p' ->
    exists l l', ListPoisonedVersions p = Ok l /\ ListPoisonedVersions p' = Ok l' /\ (forall x, x ∈ l' <-> x = t \/ x ∈ l);
  add_poisoned_frame t p p' : AddPoisonedVersion t p = Ok p' ->
    GetActiveVersionTimestamp p' = GetActiveVersionTimestamp p /\ LoadNodeState p' = LoadNodeState p /\
    (forall x, LoadKeyShareVersion x p' = LoadKeyShareVersion x p) /\ ListKeyShareVersions p' = ListKeyShareVersions p;
  set_active_get t p p' : SetActiveVersionTimestamp t p = Ok p' -> GetActiveVersionTimestamp p' = Ok t;
  set_active_frame t p p' : SetActiveVersionTimestamp t p = Ok p' ->
    LoadNodeState p' = LoadNodeState p /\ (forall x, LoadKeyShareVersion x p' = LoadKeyShareVersion x p) /\
    ListPoisonedVersions p' = ListPoisonedVersions p /\ ListKeyShareVersions p' = ListKeyShareVersions p;
  save_state_load s p p' : SaveNodeState s p = Ok p' ->
    ns_OperatorAddress s <> ""%string -> LoadNodeState p' = Ok (Some s);
  save_state_frame s p p' : SaveNodeState s p = Ok p' ->
    GetActiveVersionTimestamp p' = GetActiveVersionTimestamp p /\
    (forall x, LoadKeyShareVersion x p' = LoadKeyShareVersion x p) /\
    ListPoisonedVersions p' = ListPoisonedVersions p /\ ListKeyShareVersions p' = ListKeyShareVersions p;
  save_session_frame s p p' : SaveProtocolSession s p = Ok p' ->
    GetActiveVersionTimestamp p' = GetActiveVersionTimestamp p /\ LoadNodeState p' = LoadNodeState p /\
    (forall x, LoadKeyShareVersion x p' = LoadKeyShareVersion x p);
  delete_session_frame t p p' : DeleteProtocolSession t p = Ok p' ->
    GetActiveVersionTimestamp p' = GetActiveVersionTimestamp p /\ LoadNodeState p' = LoadNodeState p /\
    (forall x, LoadKeyShareVersion x p' = LoadKeyShareVersion x p)
}.

(** ** The in-memory implementation *)

Module Memory.
Section Memory.
Context {Fr : Type}.

Record MemoryPersistence := mkMemory {
  keyShares : gmap Z (KeyShareVersion Fr);
  activeVersionTimestamp : Z;
  nodeState : NodeState;
  sessions : gmap Z ProtocolSessionState;
  blockRecords : gmap (Z * Z) BlockRecord;
  lastProcessedBlocks : gmap Z Z;
  poisoned : gset Z;
  closed : bool
}.

Definition NewMemoryPersistence : MemoryPersistence := mkMemory ∅ 0 empty_NodeState ∅ ∅ ∅ ∅ false.

Definition with_keyShares k m := mkMemory k (activeVersionTimestamp m) (nodeState m) (sessions m)
  (blockRecords m) (lastProcessedBlocks m) (poisoned m) (closed m).
Definition with_sessions s m := mkMemory (keyShares m) (activeVersionTimestamp m) (nodeState m) s
  (blockRecords m) (lastProcessedBlocks m) (poisoned m) (closed m).

(** [if m.closed { return error }]. *)
Definition open {A} (m : MemoryPersistence) (k : res A) : res A :=
  if closed m then Err "persistence layer is closed" else k.

(** Field by field; slices and pointers are rebuilt, values are the same. *)
Definition deepCopyKeyShareVersion (v : KeyShareVersion Fr) : KeyShareVersion Fr :=
  mkKeyShareVersion (Version v) (PrivateShare v) ((fun c => mkG2Point (g2_compressed c)) <$> Commitments v)
    ((fun c => mkG2Point (g2_compressed c)) <$> MasterPublicKey v) (IsActive v) (ParticipantIDs v).

Definition deepCopyAck (ack : Acknowledgement) : Acknowledgement :=
  mkAck (DealerAddress ack) (PlayerAddress ack) (ack_SessionTimestamp ack) (ShareHash ack) (CommitmentHash ack)
    (ack_Signature ack).

Definition deepCopyProtocolSessionState (s : ProtocolSessionState) : ProtocolSessionState :=
  mkProtocolSessionState (ps_SessionTimestamp s) (ps_Type s) (ps_Phase s) (ps_StartTime s)
    (ps_OperatorAddresses s) (ps_Shares s)
    (fmap (M := gmap string) (fmap (M := list) (fun c => mkG2Point (g2_compressed c))) (ps_Commitments s))
    (fmap (M := gmap string) (fmap (M := gmap string) deepCopyAck) (ps_Acknowledgements s)).

Definition deepCopyBlockRecord (r : BlockRecord) : BlockRecord :=
  mkBlockRecord (br_Number r) (br_Hash r) (br_ParentHash r) (br_Timestamp r) (br_ChainId r).

Definition SaveKeyShareVersion (version : KeyShareVersion Fr) (m : MemoryPersistence) : res MemoryPersistence :=
  open m (Ok (with_keyShares (<[Version version := deepCopyKeyShareVersion version]> (keyShares m)) m)).

Definition LoadKeyShareVersion (timestamp : Z) (m : MemoryPersistence) : res (option (KeyShareVersion Fr)) :=
  open m (Ok (deepCopyKeyShareVersion <$> keyShares m !! timestamp)).

Definition ListKeyShareVersions (m : MemoryPersistence) : res (list (KeyShareVersion Fr)) :=
  open m (
    let timestamps := go_sort Z.ltb (map_to_list (keyShares m)).*1 in
    Ok (omap (fun ts => deepCopyKeyShareVersion <$> keyShares m !! ts) timestamps)).

Definition DeleteKeyShareVersion (timestamp : Z) (m : MemoryPersistence) : res MemoryPersistence :=
  open m (Ok (with_keyShares (delete timestamp (keyShares m)) m)).

Definition AddPoisonedVersion (version : Z) (m : MemoryPersistence) : res MemoryPersistence :=
  open m (Ok (mkMemory (keyShares m) (activeVersionTimestamp m) (nodeState m) (sessions m)
    (blockRecords m) (lastProcessedBlocks m) ({[version]} ∪ poisoned m) (closed m))).

Definition ListPoisonedVersions (m : MemoryPersistence) : res (list Z) :=
  open m (Ok (elements (poisoned m))).

Definition SetActiveVersionTimestamp (timestamp : Z) (m : MemoryPersistence) : res MemoryPersistence :=
  open m (Ok (mkMemory (keyShares m) timestamp (nodeState m) (sessions m)
    (blockRecords m) (lastProcessedBlocks m) (poisoned m) (closed m))).

Definition GetActiveVersionTimestamp (m : MemoryPersistence) : res Z := open m (Ok (activeVersionTimestamp m)).

Definition SaveNodeState (state : NodeState) (m : MemoryPersistence) : res MemoryPersistence :=
  open m (Ok (mkMemory (keyShares m) (activeVersionTimestamp m)
    (mkNodeState (LastProcessedBoundary state) (NodeStartTime state) (ns_OperatorAddress state)
       (TrackedSourceVersion state) (ConsecutiveMPKAborts state) (LastKnownGoodSourceVersion state))
    (sessions m) (blockRecords m) (lastProcessedBlocks m) (poisoned m) (closed m))).

(** Nothing is returned before the first save. *)
Definition LoadNodeState (m : MemoryPersistence) : res (option NodeState) :=
  open m (
    let s := nodeState m in
    if bool_decide (ns_OperatorAddress s = ""%string) && (LastProcessedBoundary s =? 0) then Ok None
    else Ok (Some (mkNodeState (LastProcessedBoundary s) (NodeStartTime s) (ns_OperatorAddress s)
                     (TrackedSourceVersion s) (ConsecutiveMPKAborts s) (LastKnownGoodSourceVersion s)))).

Definition SaveProtocolSession (session : ProtocolSessionState) (m : MemoryPersistence) : res MemoryPersistence :=
  open m (Ok (with_sessions (<[ps_SessionTimestamp session := deepCopyProtocolSessionState session]> (sessions m)) m)).

Definition LoadProtocolSession (sessionTimestamp : Z) (m : MemoryPersistence) : res (option ProtocolSessionState) :=
  open m (Ok (deepCopyProtocolSessionState <$> sessions m !! sessionTimestamp)).

Definition DeleteProtocolSession (sessionTimestamp : Z) (m : MemoryPersistence) : res MemoryPersistence :=
  open m (Ok (with_sessions (delete sessionTimestamp (sessions m)) m)).

Definition ListProtocolSessions (m : MemoryPersistence) : res (list ProtocolSessionState) :=
  open m (Ok (deepCopyProtocolSessionState <$> (map_to_list (sessions m)).*2)).

Definition with_blocks b l m := mkMemory (keyShares m) (activeVersionTimestamp m) (nodeState m) (sessions m)
  b l (poisoned m) (closed m).

Definition SaveBlockRecord (record : BlockRecord) (m : MemoryPersistence) : res MemoryPersistence :=
  open m (Ok (with_blocks (<[(br_ChainId record, br_Number record) := deepCopyBlockRecord record]> (blockRecords m))
                (<[br_ChainId record := br_Number record]> (lastProcessedBlocks m)) m)).

Definition GetLastProcessedBlockRecord (chainId : Z) (m : MemoryPersistence) : res (option BlockRecord) :=
  open m (match lastProcessedBlocks m !! chainId with
          | None => Ok None
          | Some blockNum => Ok (deepCopyBlockRecord <$> blockRecords m !! (chainId, blockNum))
          end).

Definition GetBlockRecord (chainId blockNumber : Z) (m : MemoryPersistence) : res (option BlockRecord) :=
  open m (Ok (deepCopyBlockRecord <$> blockRecords m !! (chainId, blockNumber))).

Definition DeleteBlockRecord (chainId blockNumber : Z) (m : MemoryPersistence) : res MemoryPersistence :=
  open m (Ok (with_blocks (delete (chainId, blockNumber) (blockRecords m)) (lastProcessedBlocks m) m)).

Definition Close (m : MemoryPersistence) : res MemoryPersistence :=
  Ok (mkMemory (keyShares m) (activeVersionTimestamp m) (nodeState m) (sessions m)
        (blockRecords m) (lastProcessedBlocks m) (poisoned m) true).

Definition HealthCheck (m : MemoryPersistence) : res unit := open m (Ok tt).
End Memory.
Arguments MemoryPersistence Fr : clear implicits.

#[export] Instance memory_persistence Fr : INodePersistence Fr (MemoryPersistence Fr) := {
  SaveKeyShareVersion := SaveKeyShareVersion;
  LoadKeyShareVersion := LoadKeyShareVersion;
  ListKeyShareVersions := ListKeyShareVersions;
  DeleteKeyShareVersion := DeleteKeyShareVersion;
  AddPoisonedVersion := AddPoisonedVersion;
  ListPoisonedVersions := ListPoisonedVersions;
  SetActiveVersionTimestamp := SetActiveVersionTimestamp;
  GetActiveVersionTimestamp := GetActiveVersionTimestamp;
  SaveNodeState := SaveNodeState;
  LoadNodeState := LoadNodeState;
  SaveProtocolSession := SaveProtocolSession;
  LoadProtocolSession := LoadProtocolSession;
  DeleteProtocolSession := DeleteProtocolSession;
  ListProtocolSessions := ListProtocolSessions
}.

Section MemoryFacts.
Context {Fr : Type}.
Implicit Types (m : MemoryPersistence Fr).

Lemma deepCopyKeyShareVersion_id (v : KeyShareVersion Fr) : deepCopyKeyShareVersion v = v.
Proof.
  destruct v as [ver ps cs mpk act ids]. unfold deepCopyKeyShareVersion; cbn. f_equal.
  - rewrite (list_fmap_ext _ id); [apply list_fmap_id|]. by intros ? [] _.
  - by destruct mpk as [[]|].
Qed.

Lemma open_ok {A} m (k : res A) a : open m k = Ok a <-> closed m = false /\ k = Ok a.
Proof. unfold open. destruct (closed m); split; [done|by intros []|done|by intros []]. Qed.

Lemma deepCopy_opt (o : option (KeyShareVersion Fr)) : deepCopyKeyShareVersion <$> o = o.
Proof. destruct o; simpl; [|done]. by rewrite deepCopyKeyShareVersion_id. Qed.

Lemma list_versions_spec m l v : ListKeyShareVersions m = Ok l -> v ∈ l <-> exists t, LoadKeyShareVersion t m = Ok (Some v).
Proof.
  intros [Hc [= <-]]%open_ok. rewrite list_elem_of_omap. unfold LoadKeyShareVersion, open. rewrite Hc.
  split.
  - intros (t & _ & Ht). exists t. by f_equal.
  - intros (t & [= Ht]). exists t. split; [|done]. rewrite go_sort_perm, elem_of_keys.
    destruct (keyShares m !! t); [eauto|done].
Qed.

Lemma save_load v m m' t : SaveKeyShareVersion v m = Ok m' ->
  LoadKeyShareVersion t m' = if decide (t = Version v) then Ok (Some v) else LoadKeyShareVersion t m.
Proof.
  intros [Hc [= <-]]%open_ok. unfold LoadKeyShareVersion, open. cbn. rewrite Hc, !deepCopy_opt.
  rewrite deepCopyKeyShareVersion_id. case_decide as Ht; [subst; by rewrite lookup_insert_eq|].
  by rewrite lookup_insert_ne.
Qed.

#[export] Instance memory_laws : PersistenceLaws (Fr := Fr) (P := MemoryPersistence Fr).
Proof.
  split; cbn.
  - intros v m m' t. apply save_load.
  - intros v m m' [Hc [= <-]]%open_ok. done.
  - intros m l v. apply list_versions_spec.
  - intros t m m' [Hc [= <-]]%open_ok. unfold ListPoisonedVersions, open; cbn. rewrite Hc.
    eexists _, _. split_and!; [done..|]. intros x. rewrite !elem_of_elements. set_solver.
  - intros t m m' [Hc [= <-]]%open_ok. done.
  - intros t m m' [Hc [= <-]]%open_ok. unfold GetActiveVersionTimestamp, open; cbn. by rewrite Hc.
  - intros t m m' [Hc [= <-]]%open_ok. done.
  - intros s m m' [Hc [= <-]]%open_ok Hs. unfold LoadNodeState, open; cbn. rewrite Hc.
    rewrite bool_decide_false by done. by destruct s.
  - intros s m m' [Hc [= <-]]%open_ok. done.
  - intros s m m' [Hc [= <-]]%open_ok. done.
  - intros t m m' [Hc [= <-]]%open_ok. done.
Qed.

(** The stores the program can reach: [NewMemoryPersistence] and successful writes. *)
Inductive mem_reachable : MemoryPersistence Fr -> Prop :=
| mem_new : mem_reachable NewMemoryPersistence
| mem_save_key v m m' : mem_reachable m -> SaveKeyShareVersion v m = Ok m' -> mem_reachable m'
| mem_delete_key t m m' : mem_reachable m -> DeleteKeyShareVersion t m = Ok m' -> mem_reachable m'
| mem_poison t m m' : mem_reachable m -> AddPoisonedVersion t m = Ok m' -> mem_reachable m'
| mem_active t m m' : mem_reachable m -> SetActiveVersionTimestamp t m = Ok m' -> mem_reachable m'
| mem_state s m m' : mem_reachable m -> SaveNodeState s m = Ok m' -> mem_reachable m'
| mem_session s m m' : mem_reachable m -> SaveProtocolSession s m = Ok m' -> mem_reachable m'
| mem_delete_session t m m' : mem_reachable m -> DeleteProtocolSession t m = Ok m' -> mem_reachable m'
| mem_block b m m' : mem_reachable m -> SaveBlockRecord b m = Ok m' -> mem_reachable m'
| mem_delete_block c n m m' : mem_reachable m -> DeleteBlockRecord c n m = Ok m' -> mem_reachable m'
| mem_close m m' : mem_reachable m -> Close m = Ok m' -> mem_reachable m'.

Lemma mem_keyed m : mem_reachable m -> map_Forall (fun t v => Version v = t) (keyShares m).
Proof.
  induction 1 as [|v m m' _ IH Hs|t m m' _ IH Hs|t m m' _ IH Hs|t m m' _ IH Hs|s m m' _ IH Hs|s m m' _ IH Hs
    |t m m' _ IH Hs|b m m' _ IH Hs|c n m m' _ IH Hs|m m' _ IH Hs]; [apply map_Forall_empty| | | | | | | | | |];
    try (apply open_ok in Hs as [_ [= <-]]); [| |done..|by injection Hs as <-]; cbn.
  - apply map_Forall_insert_2; [by rewrite deepCopyKeyShareVersion_id|done].
  - by apply map_Forall_delete.
Qed.

Lemma StronglySorted_strict (l : list Z) : NoDup l -> StronglySorted Z.le l -> StronglySorted Z.lt l.
Proof.
  intros Hnd Hs. induction Hs as [|x l Hs IH Hx]; [constructor|]. apply NoDup_cons in Hnd as [Hn Hnd].
  constructor; [by apply IH|]. rewrite Forall_forall in *. intros y Hy. specialize (Hx y Hy).
  assert (x <> y) by congruence. lia.
Qed.

Lemma listing_sorted m : map_Forall (fun t v => Version v = t) (keyShares m) ->
  StronglySorted Z.lt (Version <$> omap (fun ts => deepCopyKeyShareVersion <$> keyShares m !! ts)
                                   (go_sort Z.ltb (map_to_list (keyShares m)).*1)).
Proof.
  intros Hk. set (ts := go_sort Z.ltb _).
  assert (Hts : Version <$> omap (fun t => deepCopyKeyShareVersion <$> keyShares m !! t) ts = ts).
  { assert (Hin : Forall (fun t => is_Some (keyShares m !! t)) ts).
    { apply Forall_forall. intros t Ht. unfold ts in Ht. rewrite go_sort_perm in Ht. by apply elem_of_keys. }
    induction Hin as [|t ts' [v Hv] Hin IH]; [done|]. cbn [omap list_omap]. rewrite Hv. cbn.
    rewrite (Hk t v Hv). f_equal. exact IH. }
  rewrite Hts. apply StronglySorted_strict.
  - unfold ts. rewrite go_sort_perm. apply NoDup_fst_map_to_list.
  - unfold ts, go_sort.
    assert (Hle : forall a b, go_le Z.ltb a b <-> a <= b).
    { intros a b. unfold go_le. rewrite negb_true_iff, Z.ltb_ge. done. }
    assert (Total (go_le Z.ltb)) by (intros a b; rewrite !Hle; lia).
    assert (Transitive (go_le Z.ltb)) by (intros a b c; rewrite !Hle; lia).
    pose proof (StronglySorted_merge_sort (go_le Z.ltb) (map_to_list (keyShares m)).*1) as Hs.
    induction Hs as [|x l Hs IH Hx]; constructor; [done|].
    eapply Forall_impl; [exact Hx|]. intros y. by rewrite Hle.
Qed.

(** The in-memory store keeps exactly what was saved: in a reachable, open store
    a saved version is read back under its own timestamp and no other entry changes,
    the listing holds exactly the stored versions in strictly increasing version
    order, a deleted version is gone, and a closed store refuses every access. *)
Theorem memory_key_shares (m : MemoryPersistence Fr) :
  mem_reachable m ->
  (closed m = true -> forall t v, is_ok (SaveKeyShareVersion v m) = false /\ is_ok (LoadKeyShareVersion t m) = false
     /\ is_ok (ListKeyShareVersions m) = false /\ is_ok (DeleteKeyShareVersion t m) = false) /\
  (closed m = false ->
     (forall v, exists m', SaveKeyShareVersion v m = Ok m' /\
        forall t, LoadKeyShareVersion t m' = if decide (t = Version v) then Ok (Some v) else LoadKeyShareVersion t m) /\
     (forall t, exists m', DeleteKeyShareVersion t m = Ok m' /\
        forall t', LoadKeyShareVersion t' m' = if decide (t' = t) then Ok None else LoadKeyShareVersion t' m) /\
     (exists l, ListKeyShareVersions m = Ok l /\ StronglySorted Z.lt (Version <$> l) /\
        forall v, v ∈ l <-> LoadKeyShareVersion (Version v) m = Ok (Some v))).
Proof.
  intros Hr. split.
  - intros Hc t v. unfold SaveKeyShareVersion, LoadKeyShareVersion, ListKeyShareVersions, DeleteKeyShareVersion, open.
    by rewrite Hc.
  - intros Hc. split_and!.
    + intros v. assert (Hs : exists m', SaveKeyShareVersion v m = Ok m') by (unfold SaveKeyShareVersion, open; rewrite Hc; eauto).
      destruct Hs as [m' Hs]. exists m'. split; [done|]. intros t. by apply save_load.
    + intros t. unfold DeleteKeyShareVersion, LoadKeyShareVersion, open. rewrite Hc. eexists; split; [done|].
      intros t'. cbn. rewrite Hc. case_decide as Ht; [subst; by rewrite lookup_delete_eq|]. by rewrite lookup_delete_ne.
    + assert (Hl : exists l, ListKeyShareVersions m = Ok l) by (unfold ListKeyShareVersions, open; rewrite Hc; eauto).
      destruct Hl as [l Hl]. exists l. split_and!; [done| |].
      * apply open_ok in Hl as [_ [= <-]]. by apply listing_sorted, mem_keyed.
      * intros v. rewrite (list_versions_spec m l v Hl). unfold LoadKeyShareVersion, open. rewrite Hc. setoid_rewrite deepCopy_opt.
        split; [|eauto]. intros (t & [= Ht]). by rewrite (mem_keyed m Hr t v Ht), Ht.
Qed.
End MemoryFacts.

Lemma memory_key_shares_witness :
  exists m', SaveKeyShareVersion (mkKeyShareVersion 10 (Some 1) [] None true []) NewMemoryPersistence = Ok m' /\
    LoadKeyShareVersion 10 m' = Ok (Some (mkKeyShareVersion 10 (Some 1) [] None true [])).
Proof.
  pose proof (memory_key_shares (Fr := Z) NewMemoryPersistence mem_new) as [_ Hopen].
  destruct (Hopen eq_refl) as (Hsave & _).
  destruct (Hsave (mkKeyShareVersion 10 (Some 1) [] None true [])) as (m' & Hm & Hload).
  exists m'. split; [exact Hm|]. exact (Hload 10).
Defined.
End Memory.
