(* ===== verification/Session.v ===== *)
(** * Protocol sessions: [ProtocolSession] of [pkg/node/node.go]

    A session collects the shares, commitments and acknowledgements of one protocol
    round.  Its mutex makes every method atomic, so a round's traffic is a sequence of
    deliveries; each completion channel (buffered, size 1) is the flag that says
    whether it was signalled.  The theorems: for every sequence of deliveries the first
    valid message of each sender wins and later ones change nothing, a dealer's source
    version always comes from the message its commitments came from, and the completion
    signals fire exactly when every operator was heard. *)

From S2P Require Import Prelude Bytes Types Fr Gnark Merkle Persistence.

(** [fr.Element]'s decimal text format. *)
Class FrText (F : Type) := {
  fr_String : F -> string;
  fr_SetString : string -> option F
}.

Definition SerializeFr {F} `{FrText F} (elem : F) : string := fr_String elem.
(** The error of [SetString] is dropped; the fresh element stays zero. *)
Definition DeserializeFr {F} `{FrOps F} `{FrText F} (s : option string) : option F :=
  (fun data => default fr_zero (fr_SetString data)) <$> s.

Section Session.
Context {Fr : Type}.

Record ProtocolSession := mkSession {
  SessionTimestamp : Z;
  SessionType : string;
  Phase : Z;
  StartTime : Z;
  Operators : list OperatorSetPeer;
  TriggerBlockNumber : Z;
  shares : gmap Address Fr;
  commitments : gmap Address (list G2Point);
  acks : gmap Address (gmap Address Acknowledgement);
  sourceVersions : gmap Address Z;
  myGeneratedShares : gmap Address Fr;
  sharesComplete : bool;
  commitmentsComplete : bool;
  acksComplete : bool;
  myAckCommitmentHash : bytes;
  contractSubmitted : bool;
  verifiedOperators : gset Address
}.

(** The record [createSession] builds; [now] is [time.Now()]. *)
Definition newSession (sessionType : string) (operators : list OperatorSetPeer) (sessionTimestamp now : Z) : ProtocolSession :=
  mkSession sessionTimestamp sessionType 1 now operators 0 ∅ ∅
    (foldl (fun acks op => <[OperatorAddress op := ∅]> acks) ∅ operators)
    ∅ ∅ false false false [] false ∅.

Definition with_shares x b s := mkSession (SessionTimestamp s) (SessionType s) (Phase s) (StartTime s) (Operators s)
  (TriggerBlockNumber s) x (commitments s) (acks s) (sourceVersions s) (myGeneratedShares s) b
  (commitmentsComplete s) (acksComplete s) (myAckCommitmentHash s) (contractSubmitted s) (verifiedOperators s).
Definition with_commitments x v b s := mkSession (SessionTimestamp s) (SessionType s) (Phase s) (StartTime s) (Operators s)
  (TriggerBlockNumber s) (shares s) x (acks s) v (myGeneratedShares s) (sharesComplete s)
  b (acksComplete s) (myAckCommitmentHash s) (contractSubmitted s) (verifiedOperators s).
Definition with_acks x b s := mkSession (SessionTimestamp s) (SessionType s) (Phase s) (StartTime s) (Operators s)
  (TriggerBlockNumber s) (shares s) (commitments s) x (sourceVersions s) (myGeneratedShares s) (sharesComplete s)
  (commitmentsComplete s) b (myAckCommitmentHash s) (contractSubmitted s) (verifiedOperators s).
Definition with_generated x s := mkSession (SessionTimestamp s) (SessionType s) (Phase s) (StartTime s) (Operators s)
  (TriggerBlockNumber s) (shares s) (commitments s) (acks s) (sourceVersions s) x (sharesComplete s)
  (commitmentsComplete s) (acksComplete s) (myAckCommitmentHash s) (contractSubmitted s) (verifiedOperators s).
Definition with_phase p s := mkSession (SessionTimestamp s) (SessionType s) p (StartTime s) (Operators s)
  (TriggerBlockNumber s) (shares s) (commitments s) (acks s) (sourceVersions s) (myGeneratedShares s) (sharesComplete s)
  (commitmentsComplete s) (acksComplete s) (myAckCommitmentHash s) (contractSubmitted s) (verifiedOperators s).
Definition with_trigger t s := mkSession (SessionTimestamp s) (SessionType s) (Phase s) (StartTime s) (Operators s)
  t (shares s) (commitments s) (acks s) (sourceVersions s) (myGeneratedShares s) (sharesComplete s)
  (commitmentsComplete s) (acksComplete s) (myAckCommitmentHash s) (contractSubmitted s) (verifiedOperators s).
Definition with_submitted h b s := mkSession (SessionTimestamp s) (SessionType s) (Phase s) (StartTime s) (Operators s)
  (TriggerBlockNumber s) (shares s) (commitments s) (acks s) (sourceVersions s) (myGeneratedShares s) (sharesComplete s)
  (commitmentsComplete s) (acksComplete s) h b (verifiedOperators s).
Definition with_verified v s := mkSession (SessionTimestamp s) (SessionType s) (Phase s) (StartTime s) (Operators s)
  (TriggerBlockNumber s) (shares s) (commitments s) (acks s) (sourceVersions s) (myGeneratedShares s) (sharesComplete s)
  (commitmentsComplete s) (acksComplete s) (myAckCommitmentHash s) (contractSubmitted s) v.

Definition SetMyGeneratedShares (generated : gmap Address Fr) (s : ProtocolSession) : ProtocolSession :=
  with_generated generated s.

Definition GetMyGeneratedShareFor (s : ProtocolSession) (recipient : Address) : option Fr :=
  myGeneratedShares s !! recipient.

Definition GetSourceVersions (s : ProtocolSession) : gmap Address Z := sourceVersions s.

Definition GetCommitmentsFor (s : ProtocolSession) (dealer : Address) : option (list G2Point) :=
  match commitments s !! dealer with
  | None => None
  | Some c => Some (map (fun pt => mkG2Point (g2_compressed pt)) c)
  end.

Definition HandleReceivedShare (sender : Address) (share : Fr) (s : ProtocolSession) : res ProtocolSession :=
  match shares s !! sender with
  | Some _ => Err "duplicate share from %s"
  | None =>
      let shares' := <[sender := share]> (shares s) in
      Ok (with_shares shares' (sharesComplete s || (size shares' =? length (Operators s))%nat) s)
  end.

Definition HandleReceivedCommitment (sender : Address) (cs : list G2Point) (sourceVersion : Z)
    (s : ProtocolSession) : res ProtocolSession :=
  if (length cs =? 0)%nat then Err "empty commitments from %s" else
  match commitments s !! sender with
  | Some _ => Err "duplicate commitment from %s"
  | None =>
      let commitments' := <[sender := cs]> (commitments s) in
      Ok (with_commitments commitments' (<[sender := sourceVersion]> (sourceVersions s))
            (commitmentsComplete s || (size commitments' =? length (Operators s))%nat) s)
  end.

Definition HandleReceivedAck (dealer player : Address) (ack : Acknowledgement) (s : ProtocolSession)
    : res ProtocolSession :=
  let for_dealer := default ∅ (acks s !! dealer) in
  match for_dealer !! player with
  | Some _ => Err "duplicate ack from player %s for dealer %s"
  | None =>
      let for_dealer := <[player := ack]> for_dealer in
      let expectedAcks := (Z.of_nat (length (Operators s)) - 1)%Z in
      Ok (with_acks (<[dealer := for_dealer]> (acks s))
            (acksComplete s || (Z.of_nat (size for_dealer) =? expectedAcks)) s)
  end.

(** A map re-keyed through [Address.Hex]: the loops of [toPersistenceState]. *)
Definition hex_keys `{EthAddr} {A B} (f : A -> B) (m : gmap Address A) : gmap string B :=
  foldl (fun out '(addr, v) => <[Hex addr := f v]> out) ∅ (map_to_list m).

Definition toPersistenceState `{EthAddr} `{FrText Fr} (ps : ProtocolSession) : ProtocolSessionState :=
  mkProtocolSessionState (SessionTimestamp ps) (SessionType ps) (Phase ps) (StartTime ps)
    ((fun op => Hex (OperatorAddress op)) <$> Operators ps)
    (hex_keys SerializeFr (shares ps))
    (hex_keys id (commitments ps))
    (hex_keys (hex_keys id) (acks ps)).

(** ** Deliveries *)

Inductive delivery :=
| GotShare (sender : Address) (share : Fr)
| GotCommitment (sender : Address) (cs : list G2Point) (sourceVersion : Z)
| GotAck (dealer player : Address) (ack : Acknowledgement).

Definition try_handle (d : delivery) (s : ProtocolSession) : res ProtocolSession :=
  match d with
  | GotShare sender share => HandleReceivedShare sender share s
  | GotCommitment sender cs sv => HandleReceivedCommitment sender cs sv s
  | GotAck dealer player ack => HandleReceivedAck dealer player ack s
  end.

(** A rejected message answers its sender with an error and leaves the session. *)
Definition deliver (s : ProtocolSession) (d : delivery) : ProtocolSession :=
  match try_handle d s with Ok s' => s' | Err _ => s end.

Definition deliver_all (s : ProtocolSession) (ds : list delivery) : ProtocolSession := foldl deliver s ds.
End Session.
Arguments ProtocolSession Fr : clear implicits.
Arguments delivery Fr : clear implicits.

Section SessionFacts.
Context {Fr : Type}.
Implicit Types (s : ProtocolSession Fr) (d : delivery Fr).

(** The first delivery of a sequence that carries a valid value for a slot. *)
Definition first_of {A} (f : delivery Fr -> option A) (ds : list (delivery Fr)) : option A := head (omap f ds).

Definition share_from (a : Address) d : option Fr :=
  match d with GotShare b x => if decide (a = b) then Some x else None | _ => None end.
Definition commitment_from (a : Address) d : option (list G2Point * Z) :=
  match d with
  | GotCommitment b ((_ :: _) as cs) sv => if decide (a = b) then Some (cs, sv) else None
  | _ => None
  end.
Definition ack_for (dealer player : Address) d : option Acknowledgement :=
  match d with GotAck b p ack => if decide (dealer = b /\ player = p) then Some ack else None | _ => None end.

Lemma first_of_snoc {A} (f : delivery Fr -> option A) ds d :
  first_of f (ds ++ [d]) = match first_of f ds with Some x => Some x | None => f d end.
Proof.
  unfold first_of. rewrite omap_app. destruct (omap f ds) as [|x l]; [|done].
  simpl. by destruct (f d).
Qed.

(** What the tables of a session hold after the deliveries [ds]. *)
Record session_holds (n : nat) (ds : list (delivery Fr)) s : Prop := {
  holds_shares a : shares s !! a = first_of (share_from a) ds;
  holds_commitments a : commitments s !! a = fst <$> first_of (commitment_from a) ds;
  holds_versions a : sourceVersions s !! a = snd <$> first_of (commitment_from a) ds;
  holds_acks dealer player : default ∅ (acks s !! dealer) !! player = first_of (ack_for dealer player) ds;
  holds_operators : length (Operators s) = n;
  holds_share_signal : sharesComplete s = (n <=? size (shares s))%nat;
  holds_commitment_signal : commitmentsComplete s = (n <=? size (commitments s))%nat
}.

Lemma new_session_holds ty ops ts now : ops <> [] -> session_holds (length ops) [] (newSession (Fr := Fr) ty ops ts now).
Proof.
  intros Hne. split; cbn; try done.
  - intros dealer player.
    assert (Hacks : forall l (m : gmap Address (gmap Address Acknowledgement)), (forall a x, m !! a = Some x -> x = ∅) ->
      forall x, foldl (fun acks op => <[OperatorAddress op := ∅]> acks) m l !! dealer = Some x -> x = ∅).
    { induction l as [|op l IH]; intros m Hm; cbn; [by apply Hm|]. apply IH. intros a x.
      rewrite lookup_insert_Some. intros [[_ <-]|[_ Hx]]; [done|by eapply Hm]. }
    destruct (_ !! dealer) as [x|] eqn:Hx; [|done]. cbn. rewrite (Hacks ops ∅) with x; [done| |done].
    intros a y Hy. by rewrite lookup_empty in Hy.
  - rewrite map_size_empty. by destruct ops.
  - rewrite map_size_empty. by destruct ops.
Qed.

Lemma signal_step n k : (n <=? k)%nat || (S k =? n)%nat = (n <=? S k)%nat.
Proof.
  destruct (Nat.leb_spec n k), (Nat.eqb_spec (S k) n), (Nat.leb_spec n (S k)); cbn; lia || done.
Qed.

(** Case analysis on the deliveries so far. *)
Local Ltac by_first :=
  match goal with |- context [first_of ?f ?l] => by destruct (first_of f l) end.

Lemma deliver_holds n ds s d : session_holds n ds s -> session_holds n (ds ++ [d]) (deliver s d).
Proof.
  intros [Hs Hc Hv Ha Ho Hss Hcs]. unfold deliver.
  destruct d as [a x|a cs sv|dealer player ack]; cbn [try_handle].
  - unfold HandleReceivedShare. destruct (shares s !! a) as [y|] eqn:Hy.
    + split; try done; intros; rewrite !first_of_snoc; cbn; rewrite ?Hs, ?Hc, ?Hv, ?Ha; try (by_first).
      case_decide as E; [subst; rewrite <- Hs, Hy; done|by_first].
    + split; cbn; try done; intros; rewrite ?first_of_snoc; cbn; rewrite ?Hc, ?Hv, ?Ha; try (by_first).
      * destruct (decide (a0 = a)) as [->|Hne].
        -- by rewrite lookup_insert_eq, <- Hs, Hy.
        -- rewrite lookup_insert_ne, Hs by done. by_first.
      * rewrite Hss, Ho, map_size_insert_None by done. apply signal_step.
  - unfold HandleReceivedCommitment. destruct cs as [|c cs]; cbn [length Nat.eqb].
    { split; try done; intros; rewrite !first_of_snoc; cbn; rewrite ?Hs, ?Hc, ?Hv, ?Ha; by_first. }
    destruct (commitments s !! a) as [y|] eqn:Hy.
    + assert (Hy' : exists q, first_of (commitment_from a) ds = Some q).
      { rewrite Hc in Hy. destruct (first_of (commitment_from a) ds); [eauto|done]. }
      destruct Hy' as [q Hq].
      split; try done; intros; rewrite !first_of_snoc; cbn; rewrite ?Hs, ?Hc, ?Hv, ?Ha; try (by_first);
      (case_decide as E; [subst; by rewrite Hq|by_first]).
    + assert (Hq : first_of (commitment_from a) ds = None).
      { rewrite Hc in Hy. by destruct (first_of (commitment_from a) ds). }
      split; cbn; try done; intros; rewrite ?first_of_snoc; cbn; rewrite ?Hs, ?Ha; try (by_first).
      * destruct (decide (a0 = a)) as [->|Hne]; [by rewrite lookup_insert_eq, Hq|].
        rewrite lookup_insert_ne, Hc by done. by_first.
      * destruct (decide (a0 = a)) as [->|Hne]; [by rewrite lookup_insert_eq, Hq|].
        rewrite lookup_insert_ne, Hv by done. by_first.
      * rewrite Hcs, Ho, map_size_insert_None by done. apply signal_step.
  - unfold HandleReceivedAck. destruct (default ∅ (acks s !! dealer) !! player) as [y|] eqn:Hy.
    + split; try done; intros; rewrite !first_of_snoc; cbn; rewrite ?Hs, ?Hc, ?Hv, ?Ha; try (by_first).
      case_decide as E; [destruct E as [-> ->]; rewrite <- Ha, Hy; done|by_first].
    + split; cbn; try done; intros; rewrite ?first_of_snoc; cbn; rewrite ?Hs, ?Hc, ?Hv; try (by_first).
      destruct (decide (dealer0 = dealer)) as [->|Hne].
      * rewrite lookup_insert_eq. cbn. destruct (decide (player0 = player)) as [->|Hne].
        -- rewrite lookup_insert_eq, <- Ha, Hy. by rewrite decide_True.
        -- rewrite lookup_insert_ne, Ha by done. rewrite decide_False by (by intros []). by_first.
      * rewrite lookup_insert_ne, Ha by done. rewrite decide_False by (by intros []). by_first.
Qed.

Lemma deliver_all_holds ty ops ts now ds : ops <> [] ->
  session_holds (length ops) ds (deliver_all (newSession (Fr := Fr) ty ops ts now) ds).
Proof.
  intros Hne. unfold deliver_all. induction ds as [|d ds IH] using rev_ind; [by apply new_session_holds|].
  rewrite foldl_app. by apply deliver_holds.
Qed.

(** First write wins: whatever the sequence of deliveries, a session holds for each
    sender the first share and the first non-empty commitment vector it sent, with the
    source version of that same message, and for each dealer and player the first
    acknowledgement; and the completion signals of shares and commitments are raised
    exactly when as many senders as operators were heard. *)
Theorem session_first_write_wins (ty : string) (ops : list OperatorSetPeer) (ts now : Z) (ds : list (delivery Fr)) :
  ops <> [] ->
  let s := deliver_all (newSession ty ops ts now) ds in
  (forall a, shares s !! a = first_of (share_from a) ds) /\
  (forall a, commitments s !! a = fst <$> first_of (commitment_from a) ds) /\
  (forall a, sourceVersions s !! a = snd <$> first_of (commitment_from a) ds) /\
  (forall dealer player, default ∅ (acks s !! dealer) !! player = first_of (ack_for dealer player) ds) /\
  sharesComplete s = (length ops <=? size (shares s))%nat /\
  commitmentsComplete s = (length ops <=? size (commitments s))%nat.
Proof. intros Hne s. by destruct (deliver_all_holds ty ops ts now ds Hne). Qed.
End SessionFacts.

Lemma session_first_write_wins_witness :
  let s := deliver_all (newSession "dkg" [mkPeer 1 "" None 0 CurveTypeECDSA; mkPeer 2 "" None 0 CurveTypeECDSA] 7 0)
             [GotShare 1 (10 : Z); GotShare 1 11; GotShare 2 12] in
  shares s !! 1 = Some 10 /\ sharesComplete s = true.
Proof.
  pose proof (session_first_write_wins "dkg" [mkPeer 1 "" None 0 CurveTypeECDSA; mkPeer 2 "" None 0 CurveTypeECDSA] 7 0
    [GotShare 1 (10 : Z); GotShare 1 11; GotShare 2 12] ltac:(discriminate)) as (H1 & _ & _ & _ & H2 & _).
  split; [exact (H1 1)|exact H2].
Defined.
