(* ===== verification/NodeCore.v ===== *)
(** * The node: its state, its monad and its environment

    [Node] is the mutable state (a [nil] allowlist is [None]) of [pkg/node.Node] that the modelled operations touch.
    A method that may fail is a function of type [M A]: it threads the state and
    returns a [res]; as in Go, what was changed before an error stays changed.
    Messages sent and transactions submitted are appended to [outbox].  What the
    methods read from the outside (chain, peers, clock, randomness, and the messages
    the HTTP handlers deliver while a method waits) is an explicit argument, [Env]. *)

From S2P Require Import Prelude Bytes Types Fr Gnark Crypto KeyStore Persistence Session.

(** ** Chain constants: [pkg/config] *)

Definition ChainId_EthereumMainnet : Z := 1.
Definition ChainId_EthereumSepolia : Z := 11155111.
Definition ChainId_EthereumAnvil : Z := 31337.
Definition ChainId_BaseAnvil : Z := 31338.
Definition ChainId_BaseSepolia : Z := 84532.

Definition IsEthereum (chainId : Z) : bool :=
  (chainId =? ChainId_EthereumMainnet) || (chainId =? ChainId_EthereumSepolia) || (chainId =? ChainId_EthereumAnvil).

Definition GetReshareCutoffBufferForChain (chainId : Z) : Z :=
  if chainId =? ChainId_EthereumMainnet then 2
  else if chainId =? ChainId_EthereumSepolia then 2
  else if chainId =? ChainId_EthereumAnvil then 2
  else 2.

Definition GetReshareBlockIntervalForChain (chainId : Z) : Z :=
  if chainId =? ChainId_EthereumMainnet then 50
  else if chainId =? ChainId_EthereumSepolia then 10
  else if chainId =? ChainId_EthereumAnvil then 10
  else 50.

(** In seconds. *)
Definition GetProtocolTimeoutForChain (chainId : Z) : Z :=
  if chainId =? ChainId_EthereumMainnet then 480
  else if chainId =? ChainId_EthereumSepolia then 90
  else if chainId =? ChainId_EthereumAnvil then 30
  else 480.

(** ** A state and error monad *)

Definition SM (S A : Type) : Type := S -> S * res A.

#[export] Instance sm_ret S : MRet (SM S) := fun A a s => (s, Ok a).
#[export] Instance sm_bind S : MBind (SM S) := fun A B f m s =>
  match m s with
  | (s', Ok a) => f a s'
  | (s', Err e) => (s', Err e)
  end.

Definition sm_get {S} : SM S S := fun s => (s, Ok s).
Definition sm_modify {S} (f : S -> S) : SM S unit := fun s => (f s, Ok tt).
Definition sm_lift {S A} (r : res A) : SM S A := fun s => (s, r).
Definition sm_fail {S A} (e : string) : SM S A := fun s => (s, Err e).
(** Run, and turn an error into a value the caller inspects (log and continue). *)
Definition sm_try {S A} (m : SM S A) : SM S (res A) := fun s => let '(s', r) := m s in (s', Ok r).
(** [defer cleanup]: runs on every exit. *)
Definition sm_defer {S A} (cleanup : S -> S) (m : SM S A) : SM S A := fun s =>
  let '(s', r) := m s in (cleanup s', r).
Definition sm_wrap {S A} (msg : string) (m : SM S A) : SM S A := fun s =>
  let '(s', r) := m s in (s', wrap msg r).

Lemma sm_bind_ok {S A B} (m : SM S A) (f : A -> SM S B) s s' b :
  (m ≫= f) s = (s', Ok b) <-> exists s1 a, m s = (s1, Ok a) /\ f a s1 = (s', Ok b).
Proof.
  unfold mbind, sm_bind. destruct (m s) as [s1 [a|e]]; split.
  - intros Hf. eauto.
  - by intros (? & ? & [= <- <-] & ?).
  - done.
  - by intros (? & ? & [= <-] & ?).
Qed.

(** Opens the steps of [SM]. *)
Ltac sm_steps := unfold sm_fail, sm_modify, sm_get, sm_lift, mret, sm_ret, mbind, sm_bind.

(** ** Node state *)

Record abortTracker := mkAbortTracker { tr_TrackedSourceVersion : Z; tr_ConsecutiveAborts : Z }.

(** What leaves the node. *)
Inductive effect (Fr : Type) :=
| BroadcastDKGCommitments (operators : list Address) (commitments : list G2Point) (sessionTimestamp : Z)
| SendDKGShare (to : Address) (share : Fr) (sessionTimestamp : Z)
| SendDKGAcknowledgement (ack : Acknowledgement) (to : Address) (sessionTimestamp : Z)
| BroadcastReshareCommitments (operators : list Address) (commitments : list G2Point) (sessionTimestamp sourceVersion : Z)
| SendReshareShare (to : Address) (share : Fr) (sessionTimestamp : Z)
| SendReshareAcknowledgement (ack : Acknowledgement) (to : Address) (sessionTimestamp : Z)
| SubmitCommitment (epoch : Z) (commitmentHash merkleRoot : bytes)
| BroadcastCommitmentsWithProofs (operators : list Address) (sessionTimestamp : Z) (commitments : list G2Point)
    (acks : list Acknowledgement) (merkleRoot : bytes).
Arguments BroadcastDKGCommitments {Fr} _ _ _.
Arguments SendDKGShare {Fr} _ _ _.
Arguments SendDKGAcknowledgement {Fr} _ _ _.
Arguments BroadcastReshareCommitments {Fr} _ _ _ _.
Arguments SendReshareShare {Fr} _ _ _.
Arguments SendReshareAcknowledgement {Fr} _ _ _.
Arguments SubmitCommitment {Fr} _ _ _.
Arguments BroadcastCommitmentsWithProofs {Fr} _ _ _ _ _.

Record Node (Fr P : Type) := mkNode {
  OperatorAddress_ : Address;
  ChainID : Z;
  keyStore : KeyStore Fr;
  pers : P;
  tracker : abortTracker;
  activeSessions : gmap Z (ProtocolSession Fr);
  retainedGeneratedShares : gmap Z (gmap Address Fr);
  retainedGeneratedShareOrder : list Z;
  lastProcessedBoundary : Z;
  platformURL : string;
  appAllowlist : option (gset string);
  outbox : list (effect Fr)
}.
Arguments mkNode {Fr P} _ _ _ _ _ _ _ _ _ _ _ _.
Arguments OperatorAddress_ {Fr P} _.
Arguments ChainID {Fr P} _.
Arguments keyStore {Fr P} _.
Arguments pers {Fr P} _.
Arguments tracker {Fr P} _.
Arguments activeSessions {Fr P} _.
Arguments retainedGeneratedShares {Fr P} _.
Arguments retainedGeneratedShareOrder {Fr P} _.
Arguments lastProcessedBoundary {Fr P} _.
Arguments platformURL {Fr P} _.
Arguments appAllowlist {Fr P} _.
Arguments outbox {Fr P} _.

Section Setters.
Context {Fr P : Type}.

Definition set_keyStore (k : KeyStore Fr) (n : Node Fr P) : Node Fr P := mkNode (OperatorAddress_ n) (ChainID n) k (pers n) (tracker n) (activeSessions n)
  (retainedGeneratedShares n) (retainedGeneratedShareOrder n) (lastProcessedBoundary n) (platformURL n) (appAllowlist n) (outbox n).
Definition set_pers (p : P) (n : Node Fr P) : Node Fr P := mkNode (OperatorAddress_ n) (ChainID n) (keyStore n) p (tracker n) (activeSessions n)
  (retainedGeneratedShares n) (retainedGeneratedShareOrder n) (lastProcessedBoundary n) (platformURL n) (appAllowlist n) (outbox n).
Definition set_tracker (t : abortTracker) (n : Node Fr P) : Node Fr P := mkNode (OperatorAddress_ n) (ChainID n) (keyStore n) (pers n) t (activeSessions n)
  (retainedGeneratedShares n) (retainedGeneratedShareOrder n) (lastProcessedBoundary n) (platformURL n) (appAllowlist n) (outbox n).
Definition set_sessions (s : gmap Z (ProtocolSession Fr)) (n : Node Fr P) : Node Fr P := mkNode (OperatorAddress_ n) (ChainID n) (keyStore n) (pers n) (tracker n) s
  (retainedGeneratedShares n) (retainedGeneratedShareOrder n) (lastProcessedBoundary n) (platformURL n) (appAllowlist n) (outbox n).
Definition set_retained (r : gmap Z (gmap Address Fr)) (o : list Z) (n : Node Fr P) : Node Fr P := mkNode (OperatorAddress_ n) (ChainID n) (keyStore n) (pers n) (tracker n) (activeSessions n)
  r o (lastProcessedBoundary n) (platformURL n) (appAllowlist n) (outbox n).
Definition set_boundary (b : Z) (n : Node Fr P) : Node Fr P := mkNode (OperatorAddress_ n) (ChainID n) (keyStore n) (pers n) (tracker n) (activeSessions n)
  (retainedGeneratedShares n) (retainedGeneratedShareOrder n) b (platformURL n) (appAllowlist n) (outbox n).
Definition set_url (u : string) (n : Node Fr P) : Node Fr P := mkNode (OperatorAddress_ n) (ChainID n) (keyStore n) (pers n) (tracker n) (activeSessions n)
  (retainedGeneratedShares n) (retainedGeneratedShareOrder n) (lastProcessedBoundary n) u (appAllowlist n) (outbox n).
Definition emit (es : list (effect Fr)) (n : Node Fr P) : Node Fr P := mkNode (OperatorAddress_ n) (ChainID n) (keyStore n) (pers n) (tracker n)
  (activeSessions n) (retainedGeneratedShares n) (retainedGeneratedShareOrder n) (lastProcessedBoundary n) (platformURL n)
  (appAllowlist n) (outbox n ++ es).

(** A persistence write whose error the caller ignores after logging. *)
Definition try_pers (f : P -> res P) (n : Node Fr P) : Node Fr P :=
  match f (pers n) with Ok p => set_pers p n | Err _ => n end.
End Setters.
