(* ===== verification/AutoHeal.v ===== *)
(** * Auto-heal: [pkg/node/autoheal.go]

    The abort counter, the choice of a rollback target and the demotion of a poisoned
    source version.  The functions return no error: every failure is logged and the node
    goes on, so they are functions from node to node over any persistence layer.  The
    theorems: three consecutive aborts of the active version, agreed by the majority, are
    needed and enough; a rollback never lands on the poisoned version, above it, or on a
    version already poisoned, and picks the highest other version when the last known
    good one cannot be used; the bookkeeping preserves the other persisted fields. *)

From S2P Require Import Prelude Bytes Types KeyStore Persistence Session NodeCore.

Definition demotionThreshold : Z := 3.

Definition recordMPKAbort (activeSourceVersion majoritySrcVersion : Z) (t : abortTracker) : bool * abortTracker :=
  let t := if negb (tr_TrackedSourceVersion t =? activeSourceVersion) then mkAbortTracker activeSourceVersion 0 else t in
  if negb (majoritySrcVersion =? activeSourceVersion) then (false, t) else
  let t := mkAbortTracker (tr_TrackedSourceVersion t) (int64 (tr_ConsecutiveAborts t + 1)) in
  (tr_ConsecutiveAborts t >=? demotionThreshold, t).

Definition recordSuccess (t : abortTracker) : abortTracker := mkAbortTracker (tr_TrackedSourceVersion t) 0.

(** [sort.Slice] with [>], then the first usable entry. *)
Definition rollbackTarget (lkg poisonedVersion : Z) (persistedVersions : list Z) (isPoisoned : Z -> bool) : option Z :=
  if (lkg >? 0) && (lkg <? poisonedVersion) && negb (isPoisoned lkg) then Some lkg else
  let sorted := go_sort Z.gtb persistedVersions in
  find (fun v => (v <? poisonedVersion) && negb (isPoisoned v)) sorted.

Section AutoHeal.
Context {Fr P : Type} `{EthAddr} `{INodePersistence Fr P}.
Implicit Types (n : Node Fr P).

(** The stored node state, or a fresh one when it is absent or unreadable. *)
Definition node_state_or_new (n : Node Fr P) : NodeState :=
  match LoadNodeState (pers n) with
  | Ok (Some st) => st
  | _ => mkNodeState 0 0 (Hex (OperatorAddress_ n)) 0 0 0
  end.

Definition persistAbortTracker (n : Node Fr P) : Node Fr P :=
  let st := node_state_or_new n in
  let st := mkNodeState (LastProcessedBoundary st) (NodeStartTime st) (ns_OperatorAddress st)
    (tr_TrackedSourceVersion (tracker n)) (tr_ConsecutiveAborts (tracker n)) (LastKnownGoodSourceVersion st) in
  try_pers (SaveNodeState st) n.

Definition performRollback (poisonedVersion : Z) (n : Node Fr P) : Node Fr P :=
  let n := set_keyStore (MarkPoisoned poisonedVersion (keyStore n)) n in
  let n := try_pers (AddPoisonedVersion poisonedVersion) n in
  let lkg := match LoadNodeState (pers n) with
             | Ok (Some st) => LastKnownGoodSourceVersion st
             | _ => 0
             end in
  match ListKeyShareVersions (pers n) with
  | Err _ => n
  | Ok versions =>
      let nums := Version <$> versions in
      match rollbackTarget lkg poisonedVersion nums (IsPoisoned (keyStore n)) with
      | None => n
      | Some target =>
          match SetActiveVersionByTimestamp target (keyStore n) with
          | Err _ => n
          | Ok ks =>
              let n := set_keyStore ks n in
              let n := try_pers (SetActiveVersionTimestamp target) n in
              let n := set_tracker (mkAbortTracker target 0) n in
              persistAbortTracker n
          end
      end
  end.

Definition onMPKValidationAbort (activeSourceVersion majoritySrcVersion : Z) (n : Node Fr P) : Node Fr P :=
  let '(demote, t) := recordMPKAbort activeSourceVersion majoritySrcVersion (tracker n) in
  let n := persistAbortTracker (set_tracker t n) in
  if demote then performRollback activeSourceVersion n else n.

Definition recordSuccessfulReshare (agreedSrcVersion : Z) (n : Node Fr P) : Node Fr P :=
  let n := set_tracker (recordSuccess (tracker n)) n in
  let st := node_state_or_new n in
  let st := mkNodeState (LastProcessedBoundary st) (NodeStartTime st) (ns_OperatorAddress st)
    (TrackedSourceVersion st) 0
    (if agreedSrcVersion >? 0 then agreedSrcVersion else LastKnownGoodSourceVersion st) in
  try_pers (SaveNodeState st) n.
End AutoHeal.

(** ** The abort counter over a history of rounds *)

Inductive round :=
| RoundAborted (activeSourceVersion majoritySrcVersion : Z)
| RoundSucceeded.

Definition track (t : abortTracker) (r : round) : abortTracker :=
  match r with
  | RoundAborted a m => (recordMPKAbort a m t).2
  | RoundSucceeded => recordSuccess t
  end.

(** The aborts of version [a] that the majority shared, since the last success and since
    the node last attempted another version; latest round first. *)
Fixpoint streak (a : Z) (latest_first : list round) : Z :=
  match latest_first with
  | [] => 0
  | RoundSucceeded :: _ => 0
  | RoundAborted b m :: l => if b =? a then (if m =? a then 1 else 0) + streak a l else 0
  end.

Lemma streak_bounds a l : 0 <= streak a l <= Z.of_nat (length l).
Proof.
  induction l as [|[b m|] l IH]; cbn [streak length]; [lia| |lia].
  destruct (b =? a), (m =? a); lia.
Qed.

(** The counter is the streak of the tracked version; any other version has none. *)
Definition tracks (l : list round) (t : abortTracker) : Prop :=
  forall a, streak a l = if tr_TrackedSourceVersion t =? a then tr_ConsecutiveAborts t else 0.

Lemma track_step l t r : Z.of_nat (length l) < 2 ^ 63 - 1 -> tracks l t -> tracks (r :: l) (track t r).
Proof.
  intros Hlen Ht. destruct r as [b m|]; intros a; cbn [streak track recordSuccess tr_TrackedSourceVersion tr_ConsecutiveAborts];
    [|by destruct (_ =? a)].
  unfold recordMPKAbort. pose proof (Ht b) as Hb. pose proof (streak_bounds b l).
  assert (Hw : int64 (streak b l + 1) = streak b l + 1) by (apply int64_id; unfold is_int64; lia).
  destruct (Z.eqb_spec (tr_TrackedSourceVersion t) b) as [Eb|Eb]; cbn [negb]; rewrite ?Eb; cbn [tr_TrackedSourceVersion tr_ConsecutiveAborts];
  destruct (Z.eqb_spec m b) as [Em|Em]; cbn [negb snd]; cbn [tr_TrackedSourceVersion tr_ConsecutiveAborts]; rewrite ?Eb;
  (destruct (Z.eqb_spec b a) as [->|]; [|done]).
  - subst m. rewrite Z.eqb_refl, <- Hb, Hw. lia.
  - destruct (Z.eqb_spec m a); [done|]. lia.
  - subst m. rewrite Z.eqb_refl, Hb. change (int64 (0 + 1)) with 1. lia.
  - destruct (Z.eqb_spec m a); [done|]. lia.
Qed.

Lemma track_all (l : list round) : Z.of_nat (length l) < 2 ^ 63 - 1 ->
  tracks (rev l) (foldl track (mkAbortTracker 0 0) l).
Proof.
  induction l as [|r l IH] using rev_ind; intros Hlen.
  - intros a. cbn [rev foldl streak tr_TrackedSourceVersion tr_ConsecutiveAborts]. by destruct (0 =? a).
  - rewrite foldl_app, rev_unit. rewrite length_app in Hlen. cbn in Hlen. apply track_step; [|apply IH; lia].
    rewrite length_rev. lia.
Qed.

(** Demotion needs three agreed aborts: after any history of rounds, an abort demotes
    the active source version exactly when the majority aborted on that same version and
    it is at least the third such abort since the last successful round and since the
    node last attempted another version. *)
Theorem demotion_after_three_aborts (history : list round) (active majority : Z) :
  Z.of_nat (length history) < 2 ^ 63 - 1 ->
  (recordMPKAbort active majority (foldl track (mkAbortTracker 0 0) history)).1 = true <->
  majority = active /\ 3 <= 1 + streak active (rev history).
Proof.
  intros Hlen. pose proof (track_all history Hlen active) as Ht.
  pose proof (streak_bounds active (rev history)) as Hb. rewrite length_rev in Hb.
  set (t := foldl track _ history) in *. unfold recordMPKAbort.
  destruct (Z.eqb_spec majority active) as [Hm|Hm]; cbn [negb].
  - destruct (Z.eqb_spec (tr_TrackedSourceVersion t) active) as [Ea|Ea]; cbn [negb fst];
      cbn [tr_TrackedSourceVersion tr_ConsecutiveAborts]; rewrite Z.geb_le; unfold demotionThreshold.
    + rewrite <- Ht, int64_id by (unfold is_int64; lia). rewrite Z.add_comm. tauto.
    + rewrite Ht. change (int64 (0 + 1)) with 1. tauto.
  - destruct (negb _); cbn; split; try done; by intros [].
Qed.

Lemma demotion_after_three_aborts_witness :
  (recordMPKAbort 7 7 (foldl track (mkAbortTracker 0 0) [RoundAborted 7 7; RoundAborted 7 5; RoundAborted 7 7])).1 = true.
Proof.
  apply (demotion_after_three_aborts [RoundAborted 7 7; RoundAborted 7 5; RoundAborted 7 7] 7 7); [done|].
  split; [done|]. vm_compute. discriminate.
Defined.

(** ** The rollback target *)

Definition usable (poisonedVersion : Z) (isPoisoned : Z -> bool) (v : Z) : bool :=
  (v <? poisonedVersion) && negb (isPoisoned v).

Lemma find_sorted (f : Z -> bool) l t : StronglySorted (go_le Z.gtb) l -> find f l = Some t ->
  t ∈ l /\ f t = true /\ (forall v, v ∈ l -> f v = true -> v <= t).
Proof.
  induction 1 as [|x l Hs IH Hx]; cbn [find]; [done|]. destruct (f x) eqn:Ef.
  - intros [= <-]. split_and!; [by left|done|]. intros v [->|Hv]%elem_of_cons _; [lia|].
    rewrite Forall_forall in Hx. apply Hx in Hv. unfold go_le in Hv. apply negb_true_iff in Hv. lia.
  - intros Ht. destruct (IH Ht) as (Hi & Hf & Hm). split_and!; [by right|done|].
    intros v [->|Hv]%elem_of_cons Hfv; [congruence|auto].
Qed.

Lemma desc_sorted (l : list Z) : StronglySorted (go_le Z.gtb) (go_sort Z.gtb l).
Proof.
  assert (Hle : forall a b, go_le Z.gtb a b <-> b <= a).
  { intros a b. unfold go_le. rewrite negb_true_iff, Z.gtb_ltb, Z.ltb_ge. done. }
  assert (Total (go_le Z.gtb)) by (intros a b; rewrite !Hle; lia).
  assert (Transitive (go_le Z.gtb)) by (intros a b c; rewrite !Hle; lia).
  apply (StronglySorted_merge_sort (go_le Z.gtb)).
Qed.

Lemma walk_back_some p bad l t : rollbackTarget 0 p l bad = Some t ->
  t ∈ l /\ usable p bad t = true /\ forall v, v ∈ l -> usable p bad v = true -> v <= t.
Proof.
  unfold rollbackTarget. cbn [Z.gtb Z.compare andb]. intros Ht.
  apply find_sorted in Ht as (Hi & Hu & Hm); [|apply desc_sorted].
  rewrite go_sort_perm in Hi. split_and!; [done..|]. intros v Hv. apply Hm. by rewrite go_sort_perm.
Qed.

Lemma walk_back_none p bad l : rollbackTarget 0 p l bad = None -> forall v, v ∈ l -> usable p bad v = false.
Proof.
  unfold rollbackTarget. cbn [Z.gtb Z.compare andb]. intros Hn v Hv.
  apply (find_none _ _ Hn). apply list_elem_of_In. by rewrite go_sort_perm.
Qed.

Lemma rollbackTarget_lkg lkg p l bad : rollbackTarget lkg p l bad =
  if (lkg >? 0) && usable p bad lkg then Some lkg else rollbackTarget 0 p l bad.
Proof. unfold rollbackTarget, usable. rewrite andb_assoc. by destruct (_ && _ && _). Qed.

(** What the choice guarantees, in the form its callers use. *)
Lemma rollback_target_cases lkg p l bad :
  match rollbackTarget lkg p l bad with
  | Some t => t < p /\ bad t = false /\ (0 < t /\ t = lkg \/ t ∈ l)
  | None => forall v, v ∈ l -> p <= v \/ bad v = true
  end.
Proof.
  rewrite rollbackTarget_lkg. destruct (_ && _) eqn:El.
  { apply andb_true_iff in El as [H1 H2]. apply andb_true_iff in H2 as [H2 H3%negb_true_iff].
    split_and!; [lia|done|left; split; [lia|done]]. }
  destruct (rollbackTarget 0 _ _ _) as [t|] eqn:Et.
  - apply walk_back_some in Et as (Hi & Hu & _). apply andb_true_iff in Hu as [H2 H3%negb_true_iff].
    split_and!; [lia|done|by right].
  - intros v Hv. apply (walk_back_none _ _ _ Et) in Hv. apply andb_false_iff in Hv as [Hv|Hv%negb_false_iff]; [left; lia|by right].
Qed.

(** The rollback target is always below the poisoned version and never poisoned: it
    is the last known good version when that one qualifies, otherwise the highest
    persisted version that qualifies; there is none only when no persisted version
    qualifies. *)
Theorem rollback_target_spec (lkg poisonedVersion : Z) (persisted : list Z) (bad : Z -> bool) :
  match rollbackTarget lkg poisonedVersion persisted bad with
  | Some t => t < poisonedVersion /\ bad t = false /\
      (t = lkg \/ t ∈ persisted /\ forall v, v ∈ persisted -> v < poisonedVersion -> bad v = false -> v <= t) /\
      (0 < lkg < poisonedVersion -> bad lkg = false -> t = lkg)
  | None => (forall v, v ∈ persisted -> poisonedVersion <= v \/ bad v = true) /\
      (lkg <= 0 \/ poisonedVersion <= lkg \/ bad lkg = true)
  end.
Proof.
  rewrite rollbackTarget_lkg.
  assert (Hu : forall v, usable poisonedVersion bad v = true <-> v < poisonedVersion /\ bad v = false).
  { intros v. unfold usable. by rewrite andb_true_iff, Z.ltb_lt, negb_true_iff. }
  destruct ((lkg >? 0) && usable poisonedVersion bad lkg) eqn:El.
  { apply andb_true_iff in El as [_ [Hlt Hb]%Hu]. split_and!; auto. }
  assert (Hno : ~ (0 < lkg /\ lkg < poisonedVersion /\ bad lkg = false)).
  { intros (H1 & H2). apply not_true_iff_false in El. apply El, andb_true_iff. rewrite Hu, Z.gtb_lt. done. }
  destruct (rollbackTarget 0 _ _ _) as [t|] eqn:Et.
  - apply walk_back_some in Et as (Hi & [Hlt Hb]%Hu & Hm). split_and!; [done..| |].
    + right. split; [done|]. intros v Hv H1 H2. apply Hm; [done|]. by apply Hu.
    + intros [H1 H2] H3. by destruct Hno.
  - split.
    + intros v Hv. apply (walk_back_none _ _ _ Et) in Hv. apply not_true_iff_false in Hv. rewrite Hu in Hv.
      destruct (Z.lt_ge_cases v poisonedVersion); [|by left]. right. destruct (bad v); [done|]. by destruct Hv.
    + destruct (Z.lt_ge_cases 0 lkg); [|by left]. right. destruct (Z.lt_ge_cases lkg poisonedVersion); [|by left].
      right. destruct (bad lkg); [done|]. by destruct Hno.
Qed.

(** ** The rollback *)

Section Rollback.
Context {Fr P : Type} `{EthAddr} `{PersistenceLaws Fr P}.
Implicit Types (n : Node Fr P).

Lemma try_pers_cases f n : (exists p, f (pers n) = Ok p /\ try_pers f n = set_pers p n) \/ try_pers f n = n.
Proof. unfold try_pers. destruct (f (pers n)); eauto. Qed.

Lemma keyStore_try_pers f n : keyStore (try_pers f n) = keyStore n.
Proof. by destruct (try_pers_cases f n) as [(p & _ & ->)| ->]. Qed.

Lemma tracker_try_pers f n : tracker (try_pers f n) = tracker n.
Proof. by destruct (try_pers_cases f n) as [(p & _ & ->)| ->]. Qed.

Lemma try_poison_frame v n : let n' := try_pers (AddPoisonedVersion v) n in
  LoadNodeState (pers n') = LoadNodeState (pers n) /\ ListKeyShareVersions (pers n') = ListKeyShareVersions (pers n).
Proof.
  destruct (try_pers_cases (AddPoisonedVersion v) n) as [(p & Hp & ->)| ->]; [|done].
  apply add_poisoned_frame in Hp as (_ & ? & _ & ?). done.
Qed.

Definition lkg_of n : Z := match LoadNodeState (pers n) with Ok (Some st) => LastKnownGoodSourceVersion st | _ => 0 end.

(** The two outcomes of a rollback: the floor, or re-pointing to a target. *)
Lemma rollback_outcomes v n : let n' := performRollback v n in let ks := MarkPoisoned v (keyStore n) in
  (keyStore n' = ks /\ tracker n' = tracker n /\
     forall versions t, ListKeyShareVersions (pers n) = Ok versions ->
       rollbackTarget (lkg_of n) v (Version <$> versions) (IsPoisoned ks) = Some t -> is_ok (SetActiveVersionByTimestamp t ks) = false) \/
  exists l t ks', rollbackTarget (lkg_of n) v l (IsPoisoned ks) = Some t /\ SetActiveVersionByTimestamp t ks = Ok ks' /\
    keyStore n' = ks' /\ tracker n' = mkAbortTracker t 0.
Proof.
  intros n' ks. subst n'. unfold performRollback.
  set (n1 := set_keyStore _ n). destruct (try_poison_frame v n1) as [Hst Hls]. cbn in Hst, Hls.
  set (n2 := try_pers _ n1) in *. rewrite Hst, Hls.
  assert (Ek : keyStore n2 = ks) by exact (keyStore_try_pers _ n1).
  assert (Et : tracker n2 = tracker n) by exact (tracker_try_pers _ n1). rewrite Ek. fold (lkg_of n).
  destruct (ListKeyShareVersions (pers n)) as [versions|e]; [|left; by split_and!].
  destruct (rollbackTarget _ _ _ _) as [t|] eqn:Htg; [|left; split_and!; [done..|]; intros; congruence].
  destruct (SetActiveVersionByTimestamp t ks) as [ks'|e] eqn:Hact.
  - right. eexists _, _, _. split; [exact Htg|]. split; [exact Hact|]. unfold persistAbortTracker.
    by rewrite keyStore_try_pers, tracker_try_pers; cbn; rewrite keyStore_try_pers.
  - left. split_and!; [done..|]. intros ? ? [= <-] E. rewrite Htg in E. injection E as <-. by rewrite Hact.
Qed.

Lemma elem_of_versions (l : list (KeyShareVersion Fr)) t : t ∈ Version <$> l <-> exists v, v ∈ l /\ Version v = t.
Proof. rewrite list_elem_of_fmap. split; intros (v & Hx & Hy); eauto. Qed.

(** C32: A rollback heals or halts, never worse: demoting a version marks it poisoned,
    deletes no key material, and either leaves the active version and the counter as they
    were or re-points to a version below the poisoned one that is not poisoned, with the
    counter restarted for it; and when the store holds every persisted version, an
    unpoisoned version below the poisoned one exists and the last known good marker is
    unset or held, it does re-point. *)
Theorem rollback_heals_or_halts (n : Node Fr P) (v : Z) :
  let n' := performRollback v n in
  IsPoisoned (keyStore n') v = true /\
  contents (keyStore n') = contents (keyStore n) /\
  ((GetActiveVersion (keyStore n') = GetActiveVersion (keyStore n) /\ tracker n' = tracker n) \/
   (exists k, GetActiveVersion (keyStore n') = Some k /\ Version k < v /\
      IsPoisoned (keyStore n') (Version k) = false /\ tracker n' = mkAbortTracker (Version k) 0)) /\
  (forall versions u, ListKeyShareVersions (pers n) = Ok versions ->
     (forall t, t ∈ Version <$> versions \/ 0 < t /\ t = lkg_of n -> t ∈ Version <$> stored (keyStore n)) ->
     u ∈ Version <$> versions -> u < v -> IsPoisoned (keyStore n) u = false ->
     exists k, GetActiveVersion (keyStore n') = Some k /\ Version k < v).
Proof.
  intros n'. subst n'. set (ks := MarkPoisoned v (keyStore n)).
  assert (Hbad : IsPoisoned ks v = true) by (apply bool_decide_eq_true; cbn; set_solver).
  destruct (rollback_outcomes v n) as [(Ek & Et & Hfloor)|(l & t & ks' & Htg & Hact & Ek & Et)]; rewrite Ek, ?Et.
  - split_and!; [done|done|by left|]. intros versions u Hl Hheld Hu Hlt Hgood. exfalso.
    assert (Hu' : IsPoisoned ks u = false).
    { apply bool_decide_eq_false. apply bool_decide_eq_false in Hgood. cbn. set_unfold. intros [->|]; [lia|done]. }
    pose proof (rollback_target_cases (lkg_of n) v (Version <$> versions) (IsPoisoned ks)) as Hc.
    destruct (rollbackTarget _ _ _ _) as [t|] eqn:Htg.
    + specialize (Hfloor versions t Hl Htg). destruct Hc as (_ & Hb & Hin). apply not_true_iff_false in Hfloor. apply Hfloor.
      apply activate_by_number. split; [by apply bool_decide_eq_false in Hb|].
      apply elem_of_versions, Hheld. destruct Hin as [Hin|Hin]; [by right|by left].
    + destruct (Hc u Hu); [lia|congruence].
  - subst ks. apply activated_by_number in Hact as Ha. destruct Ha as ((k & Hk & Hv) & Hp & _).
    pose proof (rollback_target_cases (lkg_of n) v l (IsPoisoned (MarkPoisoned v (keyStore n)))) as Hc. rewrite Htg in Hc. destruct Hc as (Hlt & Hb & _).
    assert (Hsame : forall x, IsPoisoned ks' x = IsPoisoned (MarkPoisoned v (keyStore n)) x) by (intros x; unfold IsPoisoned; by rewrite Hp).
    split_and!.
    + by rewrite Hsame.
    + by rewrite (contents_activated _ _ _ Hact).
    + right. exists k. rewrite Hsame. subst t. done.
    + intros. exists k. split; [done|]. lia.
Qed.
End Rollback.

#[local] Existing Instances Memory.memory_persistence Memory.memory_laws.
#[local] Instance plain_addr : EthAddr := { Hex _ := "0x"; HexToAddress _ := 0 }.

(** A node with two versions of a key, persisted in memory. *)
Definition two_version_node : Node Z (Memory.MemoryPersistence Z) :=
  let v1 := mkKeyShareVersion 10 (Some 1) [] None false [] in
  let v2 := mkKeyShareVersion 20 (Some 2) [] None true [] in
  let '(l1, ks) := alloc v1 NewKeyStore in
  let ks := AddVersion l1 ks in
  let '(l2, ks) := alloc v2 ks in
  let ks := AddVersion l2 ks in
  mkNode 1 1 ks (Memory.mkMemory (<[10 := v1]> {[20 := v2]}) 20 empty_NodeState ∅ ∅ ∅ ∅ false)
    (mkAbortTracker 20 3) ∅ ∅ [] 0 "" None [].

Lemma rollback_heals_or_halts_witness :
  exists k, GetActiveVersion (keyStore (performRollback 20 two_version_node)) = Some k /\ Version k < 20.
Proof.
  pose proof (rollback_heals_or_halts two_version_node 20) as (_ & _ & _ & Hlive).
  eapply (Hlive _ 10); [vm_compute; reflexivity| | |reflexivity|reflexivity].
  - intros t [Ht|[Ht1 Ht2]]; [|vm_compute in Ht2; lia]. exact Ht.
  - refine (bool_decide_unpack _ _). vm_compute. exact I.
Defined.
