(* ===== verification/GoText.v ===== *)
(** * Go's text functions

    The functions of [strings], [net], [strconv], [fmt] and [encoding/hex] the program uses
    on text, on lists of bytes: [TrimSpace], [SplitHostPort], [Atoi], [Sprintf] of a
    decimal, [Sscanf] with [%d] and [%s], [encoding/hex], [strings.ToLower] on the
    letters of ASCII; and what their results say of their arguments. *)

From S2P Require Import Prelude.
From Stdlib Require Import Ascii.

Definition chars_of (s : string) : list ascii := String.list_ascii_of_string s.
Definition string_of (l : list ascii) : string := String.string_of_list_ascii l.

(** ** [strings] *)

Definition byte (n : nat) : ascii := ascii_of_nat n.

(** The UTF-8 encodings of the characters [unicode.IsSpace] accepts. *)
Definition spaces : list (list ascii) :=
  (fun n => [byte n]) <$> [9; 10; 11; 12; 13; 32]%nat.
Definition wide_spaces : list (list ascii) :=
  ([[byte 194; byte 133]; [byte 194; byte 160]; [byte 225; byte 154; byte 128]]
   ++ ((fun n => [byte 226; byte 128; byte n]) <$> [128; 129; 130; 131; 132; 133; 134; 135; 136; 137; 138; 168; 169; 175]%nat)
   ++ [[byte 226; byte 129; byte 159]; [byte 227; byte 128; byte 128]])%list.

Fixpoint strip (p l : list ascii) : option (list ascii) :=
  match p, l with
  | [], _ => Some l
  | _ :: _, [] => None
  | a :: p, b :: l => if Ascii.eqb a b then strip p l else None
  end.

(** [strings.TrimPrefix] and [strings.HasPrefix] *)
Definition TrimPrefix (s prefix : string) : string := match strip (chars_of prefix) (chars_of s) with Some rest => string_of rest | None => s end.
Definition HasPrefix (s p : list ascii) : bool := bool_decide (is_Some (strip p s)).

Fixpoint strip_one (ps : list (list ascii)) (l : list ascii) : option (list ascii) :=
  match ps with
  | [] => None
  | p :: ps => match strip p l with Some r => Some r | None => strip_one ps l end
  end.

(** Every strip shortens the list, so its length bounds the strips. *)
Fixpoint trim_left (fuel : nat) (ps : list (list ascii)) (l : list ascii) : list ascii :=
  match fuel with
  | O => l
  | S fuel => match strip_one ps l with Some r => trim_left fuel ps r | None => l end
  end.

Definition TrimSpace (s : string) : string :=
  let ps := (spaces ++ wide_spaces)%list in
  let l := trim_left (String.length s) ps (chars_of s) in
  string_of (rev (trim_left (length l) (@rev ascii <$> ps) (rev l))).

Fixpoint index_from (i : nat) (c : ascii) (l : list ascii) : option nat :=
  match l with
  | [] => None
  | a :: l => if Ascii.eqb a c then Some i else index_from (S i) c l
  end.
Definition IndexByte (c : ascii) (l : list ascii) : option nat := index_from 0 c l.
Definition LastIndexByte (c : ascii) (l : list ascii) : option nat :=
  (fun i => length l - 1 - i)%nat <$> IndexByte c (rev l).

Fixpoint Contains (p l : list ascii) : bool :=
  match strip p l with
  | Some _ => true
  | None => match l with [] => false | _ :: l => Contains p l end
  end.

(** ** [net.SplitHostPort] *)

Definition colon : ascii := ":".
Definition open_bracket : ascii := "[".
Definition close_bracket : ascii := "]".

Definition SplitHostPort (hostport : list ascii) : option ((list ascii) * (list ascii)) :=
  match LastIndexByte colon hostport with
  | None => None
  | Some i =>
      let finish (host : list ascii) (j k : nat) :=
        if bool_decide (is_Some (IndexByte open_bracket (drop j hostport))) then None
        else if bool_decide (is_Some (IndexByte close_bracket (drop k hostport))) then None
        else Some (host, drop (S i) hostport) in
      if bool_decide (head hostport = Some open_bracket) then
        match IndexByte close_bracket hostport with
        | None => None
        | Some e => if (S e =? i)%nat then finish (take (e - 1) (drop 1 hostport)) 1%nat (S e) else None
        end
      else
        let host := take i hostport in
        if bool_decide (is_Some (IndexByte colon host)) then None else finish host 0%nat 0%nat
  end.

(** ** [strconv.Atoi] *)

Definition digit (c : ascii) : option Z :=
  let n := Z.of_nat (nat_of_ascii c) in
  if (48 <=? n) && (n <=? 57) then Some (n - 48) else None.

Fixpoint digits (acc : Z) (l : list ascii) : option Z :=
  match l with
  | [] => Some acc
  | c :: l => digit c ≫= fun d => digits (acc * 10 + d) l
  end.

Definition in_int (z : Z) : option Z := if (- 2 ^ 63 <=? z) && (z <? 2 ^ 63) then Some z else None.

Definition Atoi (l : list ascii) : option Z :=
  let '(neg, body) :=
    match l with
    | c :: l' => if Ascii.eqb c "-" then (true, l') else if Ascii.eqb c "+" then (false, l') else (false, l)
    | [] => (false, l)
    end in
  match body with
  | [] => None
  | _ => digits 0 body ≫= fun z => in_int (if neg then - z else z)
  end.

(** ** [fmt.Sscanf]: the verbs [%d] and [%s] of a format without spaces *)

(** A newline in the input is an error, any other space is skipped. *)
Fixpoint SkipSpace (fuel : nat) (l : list ascii) : option (list ascii) :=
  match fuel with
  | O => Some l
  | S fuel =>
      if bool_decide (head l = Some (byte 10)) then None
      else match strip_one (spaces ++ wide_spaces)%list l with Some r => SkipSpace fuel r | None => Some l end
  end.

Fixpoint scan_digits (l : list ascii) : list ascii * list ascii :=
  match l with
  | c :: l' => if digit c is Some _ then let '(ds, r) := scan_digits l' in (c :: ds, r) else ([], l)
  | [] => ([], [])
  end.

Definition scan_d (l : list ascii) : option (Z * list ascii) :=
  l ← SkipSpace (length l) l;
  let '(sign, l) := match l with
                    | c :: l' => if Ascii.eqb c "+" || Ascii.eqb c "-" then ([c], l') else ([], l)
                    | [] => ([], l)
                    end in
  let '(ds, r) := scan_digits l in
  if bool_decide (ds = []) then None else z ← Atoi (sign ++ ds)%list; Some (z, r).

(** The bytes before the next space. *)
Fixpoint token (l : list ascii) : list ascii :=
  match strip_one (spaces ++ wide_spaces)%list l with
  | Some _ => []
  | None => match l with [] => [] | a :: l => a :: token l end
  end.

Definition scan_s (l : list ascii) : option (list ascii) :=
  l ← SkipSpace (length l) l;
  if bool_decide (l = []) then None else Some (token l).

(** ** [fmt.Sprintf] of a decimal, [encoding/hex], [strings.ToLower] *)

Definition digit_char (d : Z) : ascii := ascii_of_nat (Z.to_nat (48 + d)).

Fixpoint decimal (fuel : nat) (z : Z) (acc : list ascii) : list ascii :=
  match fuel with
  | O => acc
  | S fuel => if z <? 10 then digit_char z :: acc else decimal fuel (z / 10) (digit_char (z mod 10) :: acc)
  end.
(** Twenty digits are enough for 64 bits. *)
Definition print_d (z : Z) : list ascii := if z <? 0 then "-"%char :: decimal 20 (- z) [] else decimal 20 z [].

Definition hex_digit (d : Z) : ascii := if d <? 10 then digit_char d else ascii_of_nat (Z.to_nat (87 + d)).
Definition hex_EncodeToString (b : list Z) : list ascii := flat_map (fun x => [hex_digit (x / 16); hex_digit (x mod 16)]) b.

(** [hex.DecodeString]. *)
Definition hex_value (c : ascii) : option Z :=
  let n := Z.of_nat (nat_of_ascii c) in
  if (48 <=? n) && (n <=? 57) then Some (n - 48)
  else if (97 <=? n) && (n <=? 102) then Some (n - 87)
  else if (65 <=? n) && (n <=? 70) then Some (n - 55)
  else None.

(** The pairs of digits are read before the length is looked at. *)
Fixpoint hex_DecodeString (l : list ascii) : res (list Z) :=
  match l with
  | [] => Ok []
  | [c] => _ ← from_opt "encoding/hex: invalid byte: %#U" (hex_value c); Err "encoding/hex: odd length hex string"
  | a :: b :: l =>
      x ← from_opt "encoding/hex: invalid byte: %#U" (hex_value a);
      y ← from_opt "encoding/hex: invalid byte: %#U" (hex_value b);
      rest ← hex_DecodeString l; Ok (16 * x + y :: rest)
  end.

(** Letters outside ASCII are left alone; none of them lowers to a hexadecimal digit. *)
Definition to_lower (c : ascii) : ascii :=
  let n := nat_of_ascii c in if ((65 <=? n) && (n <=? 90))%nat then ascii_of_nat (n + 32) else c.
Definition ToLower (l : list ascii) : list ascii := to_lower <$> l.

(** ** What they return *)

Lemma index_from_spec c l k i : index_from k c l = Some i ->
  (k <= i)%nat /\ exists l1 l2, l = l1 ++ c :: l2 /\ length l1 = (i - k)%nat /\ c ∉ l1.
Proof.
  revert k. induction l as [|a l IH]; intros k; cbn [index_from]; [done|].
  destruct (Ascii.eqb_spec a c) as [->|Hne].
  - intros [= ->]. split; [done|]. exists [], l. rewrite Nat.sub_diag. split_and!; [done|done|apply not_elem_of_nil].
  - intros (Hk & l1 & l2 & -> & Hlen & Hn)%IH. split; [lia|]. exists (a :: l1), l2. split_and!; [done|cbn; lia|].
    rewrite not_elem_of_cons. split; [congruence|done].
Qed.

Lemma index_none c l : IndexByte c l = None -> c ∉ l.
Proof.
  unfold IndexByte. generalize 0%nat. induction l as [|a l IH]; intros k; cbn [index_from]; [by intros _ ?%not_elem_of_nil|].
  destruct (Ascii.eqb_spec a c); [done|]. intros Hn. rewrite not_elem_of_cons. split; [congruence|by eapply IH].
Qed.

Lemma index_some_in c l i : IndexByte c l = Some i -> c ∈ l.
Proof.
  intros (_ & l1 & l2 & -> & _)%index_from_spec. apply elem_of_app. right. by left.
Qed.

Lemma no_byte c l : bool_decide (is_Some (IndexByte c l)) = false -> c ∉ l.
Proof. rewrite bool_decide_eq_false, <- eq_None_not_Some. apply index_none. Qed.

Lemma last_index_spec c l i : LastIndexByte c l = Some i ->
  exists l1 l2, l = l1 ++ c :: l2 /\ length l1 = i /\ c ∉ l2.
Proof.
  unfold LastIndexByte. destruct (IndexByte c (rev l)) as [k|] eqn:Hk; [|done]. intros [= <-].
  apply index_from_spec in Hk as (_ & l1 & l2 & Hl & Hlen & Hn).
  apply (f_equal (@rev _)) in Hl. rewrite rev_involutive, rev_app_distr in Hl. cbn [rev] in Hl. rewrite <- app_assoc in Hl.
  exists (rev l2), (rev l1). split_and!; [done| |].
  - rewrite Hl, length_rev. rewrite !length_app, !length_rev. cbn [length]. lia.
  - rewrite list_elem_of_In, <- in_rev, <- list_elem_of_In. done.
Qed.

Lemma strip_spec p l r : strip p l = Some r -> l = (p ++ r)%list.
Proof.
  revert l. induction p as [|a p IH]; intros l; [by destruct l; intros [= <-]|]. destruct l as [|b l]; cbn [strip]; [done|].
  destruct (Ascii.eqb_spec a b) as [->|]; [|done]. intros Hl%IH. cbn. congruence.
Qed.

Lemma strip_one_prefix p l r : strip p l = Some r <-> l = (p ++ r)%list.
Proof.
  revert l. induction p as [|a p IH]; intros l; cbn [strip app]; [split; congruence|].
  destruct l as [|b l]; [done|]. destruct (Ascii.eqb_spec a b) as [->|Hne]; [rewrite IH; split; congruence|]. split; [done|congruence].
Qed.

(** A host and a port as [net.JoinHostPort] writes them. *)
Definition joined (host port : list ascii) (s : list ascii) : Prop :=
  (s = (host ++ (colon :: port))%list /\ colon ∉ host /\ open_bracket ∉ host /\ close_bracket ∉ host) \/
  s = (open_bracket :: (host ++ (close_bracket :: colon :: port)))%list.

Lemma SplitHostPort_spec s host port : SplitHostPort s = Some (host, port) -> joined host port s /\ colon ∉ port.
Proof.
  unfold SplitHostPort. destruct (LastIndexByte colon s) as [i|] eqn:Hi; [|done].
  apply last_index_spec in Hi as (l1 & l2 & -> & <- & Hl2).
  assert (Hport : drop (S (length l1)) (l1 ++ colon :: l2) = l2) by (by rewrite drop_app_ge, Nat.sub_succ_l, Nat.sub_diag by lia).
  case_bool_decide as Hbr.
  - destruct (IndexByte close_bracket _) as [e|] eqn:He; [|done]. destruct (Nat.eqb_spec (S e) (length l1)) as [Hel|]; [|done].
    cbv zeta. rewrite Hport. repeat case_bool_decide; try done. intros [= <- <-]. split; [|done]. right.
    destruct l1 as [|b l1]; [done|]. injection Hbr as ->. cbn [length] in Hel. injection Hel as ->.
    apply index_from_spec in He as (_ & k1 & k2 & Hk & Hlen & _). rewrite Nat.sub_0_r in Hlen.
    destruct l1 as [|x l1' _] using rev_ind; [by destruct k1; [|cbn in Hlen]|].
    rewrite length_app, Nat.add_1_r in *. destruct k1 as [|b k1]; [done|]. cbn [app] in Hk. injection Hk as _ Hk.
    cbn [length] in Hlen. injection Hlen as Hlen. rewrite <- !app_assoc in Hk. apply app_inj_1 in Hk as [_ Hk]; [|done].
    injection Hk as Hx _.
    subst x. cbn [app drop Nat.sub]. rewrite Nat.sub_0_r, <- app_assoc. cbn [app]. by rewrite drop_0, take_app_length.
  - rewrite take_app_length. destruct (bool_decide (is_Some (IndexByte colon _))) eqn:Hc; [done|]. cbv zeta. rewrite Hport. cbn [drop].
    destruct (bool_decide (is_Some (IndexByte open_bracket _))) eqn:Ho; [done|].
    destruct (bool_decide (is_Some (IndexByte close_bracket _))) eqn:Hcl; [done|].
    intros [= <- <-]. split; [|done]. left. apply no_byte in Ho, Hcl. rewrite ?drop_0, not_elem_of_app in Ho, Hcl.
    split_and!; [done|by apply no_byte|tauto|tauto].
Qed.

(** ** Scanning what was printed *)

Lemma digit_digit_char d : 0 <= d < 10 -> digit (digit_char d) = Some d.
Proof.
  intros Hd. assert (Hall : Forall (fun d => digit (digit_char d) = Some d) [0; 1; 2; 3; 4; 5; 6; 7; 8; 9]) by (repeat constructor).
  rewrite Forall_forall in Hall. apply Hall. rewrite !elem_of_cons. lia.
Qed.

(** [ds] is a run of digits that reads as [z]. *)
Definition reads (ds : list ascii) (z : Z) : Prop :=
  ds <> [] /\ Forall (fun c => is_Some (digit c)) ds /\
  forall a t, digits a (ds ++ t) = digits (a * 10 ^ Z.of_nat (length ds) + z) t.

Lemma reads_snoc ds z d : reads ds z -> 0 <= d < 10 -> reads (ds ++ [digit_char d]) (z * 10 + d).
Proof.
  intros (Hne & Hf & Hr) Hd. split_and!; [by destruct ds| |].
  - apply Forall_app_2; [done|]. constructor; [|done]. rewrite digit_digit_char by done. by eexists.
  - intros a t. rewrite <- app_assoc, Hr. cbn [app digits]. rewrite digit_digit_char by done. cbn [mbind option_bind].
    f_equal. rewrite length_app, Nat2Z.inj_add, Z.pow_add_r by lia. cbn [length]. lia.
Qed.

Lemma reads_digit d : 0 <= d < 10 -> reads [digit_char d] d.
Proof.
  intros Hd. split_and!; [done| |].
  - constructor; [|done]. rewrite digit_digit_char by done. by eexists.
  - intros a t. cbn [app digits]. rewrite digit_digit_char by done. cbn [mbind option_bind]. f_equal.
Qed.

Lemma decimal_reads fuel z acc : 0 <= z < 10 ^ Z.of_nat fuel -> fuel <> O ->
  exists ds, decimal fuel z acc = (ds ++ acc)%list /\ reads ds z.
Proof.
  revert z acc. induction fuel as [|fuel IH]; intros z acc Hz Hf; [done|]. cbn [decimal].
  destruct (Z.ltb_spec z 10); [exists [digit_char z]; split; [done|apply reads_digit; lia]|].
  rewrite Nat2Z.inj_succ, Z.pow_succ_r in Hz by lia.
  destruct (IH (z / 10) (digit_char (z mod 10) :: acc)) as (ds & Hds & Hr).
  - split; [apply Z.div_pos; lia|apply Z.div_lt_upper_bound; lia].
  - intros ->. cbn in Hz. lia.
  - exists (ds ++ [digit_char (z mod 10)])%list. rewrite Hds, <- app_assoc. split; [done|].
    pose proof (reads_snoc ds (z / 10) (z mod 10) Hr ltac:(apply Z.mod_pos_bound; lia)) as Hs.
    replace (z / 10 * 10 + z mod 10) with z in Hs by (pose proof (Z.div_mod z 10); lia). exact Hs.
Qed.

Lemma scan_digits_app ds r : Forall (fun c => is_Some (digit c)) ds -> (forall c, head r = Some c -> digit c = None) ->
  scan_digits (ds ++ r) = (ds, r).
Proof.
  intros Hds Hr. induction Hds as [|c ds [d Hd] Hds IH]; cbn [app scan_digits].
  - destruct r as [|c r]; [done|]. cbn [scan_digits]. by rewrite (Hr c).
  - rewrite Hd. by rewrite IH.
Qed.

(** A byte that starts no space. *)
Definition solid (c : ascii) : bool := negb (existsb (fun p => bool_decide (head p = Some c)) (spaces ++ wide_spaces)%list).

Lemma strip_one_solid ps c l : Forall (fun p => p <> []) ps -> existsb (fun p => bool_decide (head p = Some c)) ps = false ->
  strip_one ps (c :: l) = None.
Proof.
  induction 1 as [|p ps Hp Hps IH]; cbn [existsb strip_one]; [done|]. intros [Hc Hn]%orb_false_iff.
  destruct p as [|a p]; [done|]. cbn [strip]. destruct (Ascii.eqb_spec a c) as [->|]; [|by apply IH].
  by rewrite bool_decide_eq_false in Hc.
Qed.

Lemma no_space_here c l : solid c = true -> strip_one (spaces ++ wide_spaces)%list (c :: l) = None.
Proof.
  unfold solid. rewrite negb_true_iff. apply strip_one_solid. by_compute.
Qed.

Lemma SkipSpace_solid fuel c l : solid c = true -> SkipSpace fuel (c :: l) = Some (c :: l).
Proof.
  intros Hc. destruct fuel; [done|]. cbn [SkipSpace head]. rewrite bool_decide_false; [by rewrite no_space_here|].
  intros [= ->]. by vm_compute in Hc.
Qed.

Lemma token_solid l : Forall (fun c => solid c = true) l -> token l = l.
Proof.
  induction 1 as [|c l Hc Hl IH]; [done|]. cbn [token]. rewrite no_space_here by done. by rewrite IH.
Qed.

Lemma scan_s_solid l : Forall (fun c => solid c = true) l -> l <> [] -> scan_s l = Some l.
Proof.
  intros Hl Hne. unfold scan_s. destruct l as [|c l]; [done|]. rewrite SkipSpace_solid by (by inversion Hl).
  cbn [mbind option_bind]. rewrite bool_decide_false by done. by rewrite token_solid.
Qed.

Lemma scan_digits_atoi ds z : reads ds z -> 0 <= z -> forall (neg : bool), is_int64 (if neg then - z else z) ->
  Atoi ((if neg then ["-"%char] else []) ++ ds)%list = Some (if neg then - z else z).
Proof.
  intros (Hne & Hf & Hr) Hz neg Hb. specialize (Hr 0 []). rewrite app_nil_r, Z.mul_0_l, Z.add_0_l in Hr. cbn [digits] in Hr.
  assert (Hin : in_int (if neg then - z else z) = Some (if neg then - z else z)).
  { unfold in_int, is_int64 in *. by rewrite (proj2 (Z.leb_le _ _)), (proj2 (Z.ltb_lt _ _)) by lia. }
  unfold Atoi. destruct ds as [|c ds]; [done|]. destruct neg; cbn [app].
  - rewrite Ascii.eqb_refl. by rewrite Hr.
  - inversion Hf as [|? ? [d Hd] Hds]; subst. destruct (Ascii.eqb_spec c "-") as [->|]; [by cbn in Hd|].
    destruct (Ascii.eqb_spec c "+") as [->|]; [by cbn in Hd|]. by rewrite Hr.
Qed.

Lemma digit_solid c : is_Some (digit c) -> solid c = true.
Proof. intros [d Hd]. revert Hd. destruct c as [[] [] [] [] [] [] [] []]; vm_compute; congruence. Qed.

(** [%d] reads back what [%d] printed, whatever follows it that is no digit. *)
Lemma scan_d_print_d z r : is_int64 z -> (forall c, head r = Some c -> digit c = None) ->
  scan_d (print_d z ++ r) = Some (z, r).
Proof.
  unfold is_int64. intros Hz Hr. unfold print_d.
  destruct (decimal_reads 20 (Z.abs z) []) as (ds & Hds & Hreads); [cbn; lia|done|]. rewrite app_nil_r in Hds.
  pose proof Hreads as (Hne & Hf & _). unfold scan_d.
  destruct (Z.ltb_spec z 0) as [Hn|Hn].
  - rewrite Z.abs_neq in * by lia. rewrite Hds. cbn [app length]. rewrite SkipSpace_solid by done. cbn [mbind option_bind].
    pose proof (scan_digits_atoi ds (- z) Hreads ltac:(lia) true) as Ha. cbv beta iota in Ha. rewrite Z.opp_involutive in Ha.
    change (Ascii.eqb "-" "+" || Ascii.eqb "-" "-") with true. cbv iota.
    rewrite scan_digits_app, bool_decide_false by done. by rewrite Ha.
  - rewrite Z.abs_eq in * by lia. rewrite Hds. destruct ds as [|c ds]; [done|].
    inversion Hf as [|? ? [d Hd] Hds']; subst. cbn [app length]. rewrite SkipSpace_solid by (by apply digit_solid; eexists). cbn [mbind option_bind].
    destruct (Ascii.eqb_spec c "+") as [->|]; [by cbn in Hd|]. destruct (Ascii.eqb_spec c "-") as [->|]; [by cbn in Hd|]. cbn [orb].
    change (c :: ds ++ r)%list with ((c :: ds) ++ r)%list. rewrite scan_digits_app, bool_decide_false by done.
    pose proof (scan_digits_atoi (c :: ds) z Hreads Hn false) as Ha. cbv beta iota in Ha. cbn [app] in Ha |- *. by rewrite Ha.
Qed.

Lemma hex_solid b : Forall (fun x => 0 <= x < 256) b -> Forall (fun c => solid c = true) (hex_EncodeToString b).
Proof.
  intros Hb. assert (Hd : Forall (fun d => solid (hex_digit d) = true) (seqZ 0 16)) by (repeat constructor).
  rewrite Forall_forall in Hd. induction Hb as [|x b Hx Hb IH]; cbn [hex_EncodeToString flat_map app]; [done|].
  pose proof (Z.div_pos x 16). pose proof (Z.div_lt_upper_bound x 16 16). pose proof (Z.mod_pos_bound x 16).
  repeat constructor; [..|exact IH]; apply Hd, elem_of_seqZ; lia.
Qed.

Lemma length_hex b : length (hex_EncodeToString b) = (2 * length b)%nat.
Proof. unfold hex_EncodeToString. induction b as [|x b IH]; [done|]. cbn [flat_map app length]. rewrite IH. lia. Qed.

Lemma hex_digit_inj x y : 0 <= x < 16 -> 0 <= y < 16 -> hex_digit x = hex_digit y -> x = y.
Proof.
  intros Hx Hy. assert (Hval : forall z, 0 <= z < 16 -> nat_of_ascii (hex_digit z) = Z.to_nat (if z <? 10 then 48 + z else 87 + z)).
  { intros z Hz. unfold hex_digit, digit_char. destruct (z <? 10); rewrite nat_ascii_embedding by lia; done. }
  intros Heq%(f_equal nat_of_ascii). rewrite !Hval in Heq by done. destruct (Z.ltb_spec x 10), (Z.ltb_spec y 10); lia.
Qed.

Lemma hex_inj b b' : Forall (fun x => 0 <= x < 256) b -> Forall (fun x => 0 <= x < 256) b' -> hex_EncodeToString b = hex_EncodeToString b' -> b = b'.
Proof.
  intros Hb. revert b'. induction Hb as [|x b Hx Hb IH]; intros b' Hb'; destruct Hb' as [|y b' Hy Hb']; cbn; try done.
  intros [= Hh Hl Hr]. apply hex_digit_inj in Hh; [|split; [apply Z.div_pos|apply Z.div_lt_upper_bound]; lia..].
  apply hex_digit_inj in Hl; [|apply Z.mod_pos_bound; lia..]. f_equal; [|by apply IH].
  rewrite (Z.div_mod x 16), (Z.div_mod y 16) by lia. congruence.
Qed.

Lemma chars_of_app s t : chars_of (s +:+ t) = (chars_of s ++ chars_of t)%list.
Proof. unfold chars_of. induction s as [|c s IH]; [done|]. change (String c s +:+ t) with (String c (s +:+ t)). cbn. by rewrite IH. Qed.
Lemma chars_of_inj s t : chars_of s = chars_of t -> s = t.
Proof. intros Hst%(f_equal string_of). unfold chars_of, string_of in Hst. by rewrite !String.string_of_list_ascii_of_string in Hst. Qed.
Lemma chars_of_string_of l : chars_of (string_of l) = l.
Proof. apply String.list_ascii_of_string_of_list_ascii. Qed.

(** Bytes that neither begin nor end a space. *)
Definition firm (c : ascii) : bool :=
  solid c && negb (existsb (fun p => bool_decide (head p = Some c)) (@rev ascii <$> (spaces ++ wide_spaces)%list)).

Lemma trim_left_none fuel ps l : strip_one ps l = None -> trim_left fuel ps l = l.
Proof. intros Hs. destruct fuel; cbn [trim_left]; [done|]. by rewrite Hs. Qed.

(** Text whose first and last bytes are no spaces is left alone. *)
Lemma TrimSpace_firm c l d l' : (c :: l = l' ++ [d])%list -> firm c = true -> firm d = true -> TrimSpace (string_of (c :: l)) = string_of (c :: l).
Proof.
  intros Hl [Hc _]%andb_true_iff [_ Hd]%andb_true_iff. unfold TrimSpace, chars_of, string_of. rewrite String.list_ascii_of_string_of_list_ascii.
  rewrite (trim_left_none _ _ (c :: l)) by by apply no_space_here. rewrite Hl at 2. rewrite rev_app_distr. cbn [rev app].
  rewrite trim_left_none.
  - change (d :: rev l') with (rev [d] ++ rev l')%list. by rewrite <- rev_app_distr, <- Hl, rev_involutive.
  - apply strip_one_solid; [by_compute|]. by rewrite negb_true_iff in Hd.
Qed.
Lemma hex_firm b : Forall (fun x => 0 <= x < 256) b -> Forall (fun c => firm c = true) (hex_EncodeToString b).
Proof.
  assert (Hd : Forall (fun d => firm (hex_digit d) = true) (seqZ 0 16)) by (repeat constructor). rewrite Forall_forall in Hd.
  assert (Hdigit : forall d, 0 <= d < 16 -> firm (hex_digit d) = true) by (intros d Hr; apply Hd, elem_of_seqZ; lia).
  induction 1 as [|x b Hx _ IH]; [constructor|]. cbn [hex_EncodeToString flat_map app].
  constructor; [apply Hdigit; split; [apply Z.div_pos|apply Z.div_lt_upper_bound]; lia|]. constructor; [apply Hdigit, Z.mod_pos_bound; lia|exact IH].
Qed.
Lemma TrimSpace_all_firm l : Forall (fun c => firm c = true) l -> TrimSpace (string_of l) = string_of l.
Proof.
  intros Hl. destruct l as [|c l]; [by vm_compute|]. destruct (exists_last (l := c :: l)) as (l' & d & Hd); [done|].
  apply (TrimSpace_firm c l d l' Hd); [by inversion Hl|]. rewrite Hd in Hl. apply Forall_app in Hl as [_ Hl]. by inversion Hl.
Qed.

Lemma hex_value_digit d : 0 <= d < 16 -> hex_value (hex_digit d) = Some d.
Proof.
  intros Hd. assert (Ha : forallb (fun d => bool_decide (hex_value (hex_digit d) = Some d)) (seqZ 0 16) = true) by reflexivity.
  rewrite forallb_forall in Ha. apply (bool_decide_eq_true_1 _), Ha, list_elem_of_In, elem_of_seqZ. lia.
Qed.

Lemma hex_decode_encode b : Forall (fun x => 0 <= x < 256) b -> hex_DecodeString (hex_EncodeToString b) = Ok b.
Proof.
  induction 1 as [|x b Hx Hb IH]; [done|]. unfold hex_EncodeToString in *. cbn [flat_map app hex_DecodeString].
  rewrite !hex_value_digit by (split; [apply Z.div_pos || apply Z.mod_pos_bound|apply Z.div_lt_upper_bound || apply Z.mod_pos_bound]; lia).
  cbn [from_opt mbind res_bind]. rewrite IH. cbn [mbind res_bind]. do 2 f_equal. pose proof (Z.div_mod x 16). lia.
Qed.

Lemma hex_unprefixed b : Forall (fun x => 0 <= x < 256) b -> strip (chars_of "0x") (hex_EncodeToString b) = None.
Proof.
  intros Hb. destruct b as [|x b]; [done|]. inversion Hb as [|? ? Hx _]; subst. unfold hex_EncodeToString. cbn [flat_map app].
  assert (Ha : forallb (fun d => negb (Ascii.eqb "x" (hex_digit d))) (seqZ 0 16) = true) by reflexivity. rewrite forallb_forall in Ha.
  assert (Hx16 : Ascii.eqb "x" (hex_digit (x mod 16)) = false) by (apply negb_true_iff, Ha, list_elem_of_In, elem_of_seqZ; pose proof (Z.mod_pos_bound x 16); lia).
  change (chars_of "0x") with ["0"%char; "x"%char]. cbn [strip]. rewrite Hx16. by destruct (Ascii.eqb "0" _).
Qed.
