(* ===== verification/Platform.v ===== *)
(** * The platform endpoint: URL validation of [pkg/node/node.go]

    The node dials the platform at a URL read from the chain.  This file models the
    validation, with the text functions of [GoText.v], and the two places where the cached
    URL is written.  The theorems: an accepted URL is a host and a port, possibly behind
    [dns://], and the cache never holds anything else. *)

From S2P Require Import Prelude GoText.
From Stdlib Require Import Ascii.

(** ** [node.go] *)

Definition isHostPort (s : list ascii) : bool :=
  match SplitHostPort s with
  | None => false
  | Some (host, port) =>
      if bool_decide (host = []) then false else
      match Atoi port with
      | Some p => (p >=? 1) && (p <=? 65535)
      | None => false
      end
  end.

Definition isSafePlatformURL (u : string) : bool :=
  let u := chars_of (TrimSpace u) in
  if bool_decide (u = []) then false else
  match strip (chars_of "dns://") u with
  | Some rest =>
      let rest := match LastIndexByte "/" rest with Some i => drop (S i) rest | None => rest end in
      isHostPort rest
  | None =>
      if Contains (chars_of "://") u then false else
      if bool_decide (is_Some (IndexByte colon u)) then isHostPort u else false
  end.

(** The result of [GetAvsConfig]: an error, no record, or the record's URL.  The cached
    value is returned as it is left. *)
Definition refreshPlatformConfig (cfg : res (option string)) (cached : string) : string :=
  match cfg with
  | Err _ => cached
  | Ok None => cached
  | Ok (Some url) => if negb (bool_decide (url = "")) && negb (isSafePlatformURL url) then cached else url
  end.

(** A decoded event: its name and its ["platformRpcUrl"] argument, absent, of another
    type ([None] inside), or a string. *)
Definition AvsConfigSetEventName : string := "AvsConfigSet".

Definition handlePlatformConfigLog (log : option (string * option (option string))) (cached : string) : string :=
  match log with
  | None => cached
  | Some (eventName, raw) =>
      if negb (bool_decide (eventName = AvsConfigSetEventName)) then cached else
      match raw with
      | None => cached
      | Some None => cached
      | Some (Some url) =>
          let url := TrimSpace url in
          if negb (bool_decide (url = "")) && negb (isSafePlatformURL url) then cached else url
      end
  end.

(** ** What is accepted *)


(** Only a host and a port are dialled: a URL accepted for the platform is, after
    trimming, [host:port] or [[host]:port] with a non-empty host and a decimal port
    between 1 and 65535, either as a whole and free of [://], or behind a [dns://] prefix;
    in particular no other URL with a [://] scheme is accepted. *)
Theorem safe_platform_url_shape (u : string) :
  isSafePlatformURL u = true ->
  exists pre s host port p, chars_of (TrimSpace u) = (pre ++ s)%list /\ joined host port s /\ host <> [] /\
    Atoi port = Some p /\ 1 <= p <= 65535 /\
    (pre = [] /\ Contains (chars_of "://") (chars_of (TrimSpace u)) = false \/
     is_Some (strip (chars_of "dns://") pre)).
Proof.
  unfold isSafePlatformURL. case_bool_decide as He; [done|].
  assert (Hhp : forall s, isHostPort s = true -> exists host port p, joined host port s /\ host <> [] /\ Atoi port = Some p /\ 1 <= p <= 65535).
  { intros s. unfold isHostPort. destruct (SplitHostPort s) as [[host port]|] eqn:Hs; [|done]. case_bool_decide as Hh; [done|].
    destruct (Atoi port) as [p|] eqn:Hp; [|done]. intros Hr%andb_true_iff. apply SplitHostPort_spec in Hs as [Hs _].
    exists host, port, p. split_and!; [done..|lia|lia]. }
  destruct (strip _ _) as [rest|] eqn:Hst.
  - intros (host & port & p & Hj & Hrest)%Hhp. apply strip_spec in Hst.
    destruct (LastIndexByte "/" rest) as [i|] eqn:Hi.
    + apply last_index_spec in Hi as (l1 & l2 & -> & <- & _). rewrite drop_app_ge, Nat.sub_succ_l, Nat.sub_diag in Hj by lia.
      exists (chars_of "dns://" ++ l1 ++ ["/"%char])%list, l2, host, port, p. split_and!; try apply Hrest; [|done|].
      * rewrite Hst, <- !app_assoc. done.
      * right. cbn. eauto.
    + exists (chars_of "dns://"), rest, host, port, p. split_and!; try apply Hrest; [done|done|]. right. cbn. eauto.
  - destruct (Contains _ _) eqn:Hc; [done|]. case_bool_decide; [|done]. intros (host & port & p & Hj & Hrest)%Hhp.
    exists [], (chars_of (TrimSpace u)), host, port, p. split_and!; try apply Hrest; [done|done|]. by left.
Qed.

Lemma safe_platform_url_shape_witness :
  exists pre s host port p, chars_of (TrimSpace " dns:///kms.example:443 ") = (pre ++ s)%list /\ joined host port s /\ host <> [] /\
    Atoi port = Some p /\ 1 <= p <= 65535 /\
    (pre = [] /\ Contains (chars_of "://") (chars_of (TrimSpace " dns:///kms.example:443 ")) = false \/
     is_Some (strip (chars_of "dns://") pre)).
Proof. apply safe_platform_url_shape. vm_compute. reflexivity. Defined.

(** ** The cache *)

Inductive url_update :=
| FromChain (cfg : res (option string))
| FromEvent (log : option (string * option (option string))).

Definition update_url (cached : string) (u : url_update) : string :=
  match u with
  | FromChain cfg => refreshPlatformConfig cfg cached
  | FromEvent log => handlePlatformConfigLog log cached
  end.

Lemma keep_or_store c url : (c = ""%string \/ isSafePlatformURL c = true) ->
  let r := if negb (bool_decide (url = ""%string)) && negb (isSafePlatformURL url) then c else url in
  r = ""%string \/ isSafePlatformURL r = true.
Proof.
  intros Hc. cbv zeta. case_bool_decide as Hu; [by left|]. destruct (isSafePlatformURL url) eqn:Hs; cbn; [by right|done].
Qed.

(** The cached platform URL is always empty or safe: from the empty cache, any sequence
    of reads of the chain configuration and of configuration events, well-formed or not,
    leaves it empty or holding a URL that passes the validation. *)
Theorem cached_url_safe (us : list url_update) :
  let url := foldl update_url "" us in url = ""%string \/ isSafePlatformURL url = true.
Proof.
  cbv zeta. assert (Hstep : forall c, (c = ""%string \/ isSafePlatformURL c = true) -> forall u,
    update_url c u = ""%string \/ isSafePlatformURL (update_url c u) = true).
  { intros c Hc u. destruct u as [[[url|]|]|[[name [[url|]|]]|]]; cbn [update_url]; try done.
    - by apply keep_or_store.
    - unfold handlePlatformConfigLog. destruct (negb _); [done|]. by apply keep_or_store.
    - unfold handlePlatformConfigLog. by destruct (negb _).
    - unfold handlePlatformConfigLog. by destruct (negb _). }
  assert (Hall : forall c, (c = ""%string \/ isSafePlatformURL c = true) ->
    foldl update_url c us = ""%string \/ isSafePlatformURL (foldl update_url c us) = true).
  { induction us as [|u us IH]; intros c Hc; cbn [foldl]; [done|]. apply IH, Hstep, Hc. }
  apply Hall. by left.
Qed.

(** A bare resolver name with a numeric path has the shape of a host and a port. *)
Lemma unix_scheme_accepted : isSafePlatformURL "unix:80" = true.
Proof. reflexivity. Qed.
