(* ===== verification/NodeOps.v ===== *)
(** * The node's bookkeeping: [pkg/node/node.go], outside the protocol runs

    Construction, restart, retained shares, sessions, operator sets and the functions that
    choose dealers.  Each is a function on the node state or on plain data.  The theorems:
    a restart rebuilds the key store the persistence layer describes; retained shares are
    bounded and serve exactly the latest rounds; operator sets are accepted exactly when
    they are duplicate-free; the overlap check is the one that keeps the secret
    reconstructible. *)

From S2P Require Import Prelude Bytes Types KeyStore Persistence Session Dkg NodeCore AutoHeal GoText Platform.

(** ** Construction and restart *)

Record Config := mkConfig {
  cfg_OperatorAddress : string;
  cfg_ChainID : Z;
  cfg_AppAllowlist : list string
}.

Section Restart.
Context {Fr P : Type} `{EthAddr} `{INodePersistence Fr P}.
Implicit Types (n : Node Fr P).

(** The collaborators that may be [nil] are given as presence flags. *)
Definition NewNode (cfg : Config) (attestationManager baseContractCaller : bool)
    (commitmentRegistryAddress : Address) (p : P) : res (Node Fr P) :=
  if negb attestationManager then Err "attestationManager is required and cannot be nil" else
  if negb baseContractCaller then Err "baseContractCaller is required" else
  if commitmentRegistryAddress =? 0 then Err "commitmentRegistryAddress is required" else
  let operatorAddress := HexToAddress (cfg_OperatorAddress cfg) in
  let allowlist :=
    if (0 <? length (cfg_AppAllowlist cfg))%nat
    then Some (foldl (fun m appID => {[TrimSpace appID]} ∪ m) (∅ : gset string) (cfg_AppAllowlist cfg))
    else None in
  Ok (mkNode operatorAddress (cfg_ChainID cfg) NewKeyStore p (mkAbortTracker 0 0) ∅ ∅ [] 0 "" allowlist []).

(** [n.keyStore.AddVersion(version)] for each loaded version; the pointers are kept for
    the search of the active one. *)
Definition restore_version (version : KeyShareVersion Fr) (st : list (nat * Z) * KeyStore Fr) : list (nat * Z) * KeyStore Fr :=
  let '(ptrs, ks) := st in
  let '(l, ks) := alloc version ks in
  (ptrs ++ [(l, Version version)], AddVersion l ks).

Definition restore_active (activeTimestamp : Z) (ptrs : list (nat * Z)) (ks : KeyStore Fr) : KeyStore Fr :=
  if activeTimestamp >? 0 then
    match find (fun '(_, version) => version =? activeTimestamp) ptrs with
    | Some (l, _) => SetActiveVersion l ks
    | None => ks
    end
  else ks.

(** Both branches of the expiry test delete the session. *)
Definition restore_sessions (now timeoutSeconds : Z) (sessions : list ProtocolSessionState) (n : Node Fr P) : Node Fr P :=
  foldl (fun n sessionState =>
    if IsExpired now (Some sessionState) timeoutSeconds
    then try_pers (DeleteProtocolSession (ps_SessionTimestamp sessionState)) n
    else try_pers (DeleteProtocolSession (ps_SessionTimestamp sessionState)) n) n sessions.

Definition restore_tracker (nodeState : option NodeState) (n : Node Fr P) : Node Fr P :=
  match nodeState with
  | None => n
  | Some st =>
      match GetActiveVersion (keyStore n) with
      | Some active =>
          if TrackedSourceVersion st =? Version active
          then set_tracker (mkAbortTracker (TrackedSourceVersion st) (ConsecutiveMPKAborts st)) n
          else set_tracker (mkAbortTracker 0 0) n
      | None => set_tracker (mkAbortTracker 0 0) n
      end
  end.

(** [now] is [time.Now().Unix()]. *)
Definition RestoreState (now : Z) (n : Node Fr P) : Node Fr P * res unit :=
  match wrap "failed to load node state" (LoadNodeState (pers n)) with
  | Err e => (n, Err e)
  | Ok nodeState =>
      let n := match nodeState with
               | Some st => if LastProcessedBoundary st >? 0 then set_boundary (LastProcessedBoundary st) n else n
               | None => n
               end in
      match wrap "failed to load key share versions" (ListKeyShareVersions (pers n)) with
      | Err e => (n, Err e)
      | Ok versions =>
          let '(ptrs, ks) := foldl (fun st version => restore_version version st) ([], keyStore n) versions in
          let n := set_keyStore ks n in
          match wrap "failed to load active version timestamp" (GetActiveVersionTimestamp (pers n)) with
          | Err e => (n, Err e)
          | Ok activeTimestamp =>
              let n := set_keyStore (restore_active activeTimestamp ptrs (keyStore n)) n in
              let n := match ListPoisonedVersions (pers n) with
                       | Ok poisoned => set_keyStore (foldl (fun ks v => MarkPoisoned v ks) (keyStore n) poisoned) n
                       | Err _ => n
                       end in
              let n := restore_tracker nodeState n in
              match wrap "failed to load protocol sessions" (ListProtocolSessions (pers n)) with
              | Err e => (n, Err e)
              | Ok sessions =>
                  (restore_sessions now (GetProtocolTimeoutForChain (ChainID n)) sessions n, Ok tt)
              end
          end
      end
  end.

(** [now] is [time.Now().Unix()]. *)
Definition persistBoundary (now blockNumber : Z) (n : Node Fr P) : Node Fr P :=
  let st := match LoadNodeState (pers n) with
            | Ok (Some st) => st
            | _ => mkNodeState 0 now (Hex (OperatorAddress_ n)) 0 0 0
            end in
  let st := mkNodeState blockNumber (NodeStartTime st) (Hex (OperatorAddress_ n)) (TrackedSourceVersion st)
    (ConsecutiveMPKAborts st) (LastKnownGoodSourceVersion st) in
  try_pers (SaveNodeState st) n.

(** ** Retained shares *)

Definition retainedShareRounds : nat := 4.

Fixpoint evict (order : list Z) (retained : gmap Z (gmap Address Fr)) : list Z * gmap Z (gmap Address Fr) :=
  match order with
  | [] => (order, retained)
  | oldest :: rest =>
      if (retainedShareRounds <? length order)%nat then evict rest (delete oldest retained) else (order, retained)
  end.

Definition retainGeneratedShares (sessionTimestamp : Z) (shares : gmap Address Fr) (n : Node Fr P) : Node Fr P :=
  let order := match retainedGeneratedShares n !! sessionTimestamp with
               | Some _ => retainedGeneratedShareOrder n
               | None => retainedGeneratedShareOrder n ++ [sessionTimestamp]
               end in
  let '(order, retained) := evict order (<[sessionTimestamp := shares]> (retainedGeneratedShares n)) in
  set_retained retained order n.

Definition getRetainedGeneratedShare (n : Node Fr P) (sessionTimestamp : Z) (recipient : Address) : option Fr :=
  match retainedGeneratedShares n !! sessionTimestamp with
  | None => None
  | Some byRecipient => byRecipient !! recipient
  end.

(** ** Sessions *)

Definition saveSession `{FrText Fr} (session : option (ProtocolSession Fr)) (p : P) : res P :=
  match session with
  | None => Ok p
  | Some session => SaveProtocolSession (toPersistenceState session) p
  end.

Definition getSession (n : Node Fr P) (sessionTimestamp : Z) : option (ProtocolSession Fr) :=
  activeSessions n !! sessionTimestamp.

Definition cleanupSession (sessionTimestamp : Z) (n : Node Fr P) : Node Fr P :=
  let n := set_sessions (delete sessionTimestamp (activeSessions n)) n in
  try_pers (DeleteProtocolSession sessionTimestamp) n.

Definition cleanupOldSessions (now maxAge : Z) (n : Node Fr P) : Node Fr P :=
  set_sessions (filter (fun '(_, session) => ~ (now - StartTime session > maxAge)) (activeSessions n)) n.
End Restart.

(** ** Operator sets *)

(** A [nil] peer is [None]. *)
Fixpoint no_duplicates_from (seenAddrs : gset Address) (operators : list (option OperatorSetPeer)) : res unit :=
  match operators with
  | [] => Ok tt
  | None :: _ => Err "operator is nil"
  | Some op :: operators =>
      let addr := OperatorAddress op in
      if bool_decide (addr ∈ seenAddrs) then Err "duplicate operator address in operator set: %s"
      else no_duplicates_from ({[addr]} ∪ seenAddrs) operators
  end.

Definition validateOperatorSetNoDuplicates (operators : list (option OperatorSetPeer)) : res unit :=
  no_duplicates_from ∅ operators.

(** Sorting reads the address of every peer, so a [nil] peer in the fetched set is a nil
    dereference when there is anything to compare. *)
Definition sort_fetched (peers : list (option OperatorSetPeer)) : res (list (option OperatorSetPeer)) :=
  match peers with
  | [] | [_] => Ok peers
  | _ => peers ← from_opt "panic: nil pointer dereference" (mapM id peers);
         Ok (Some <$> go_sort (fun a b => addr_ltb (OperatorAddress a) (OperatorAddress b)) peers)
  end.

(** The log line before the validation reads every peer as well. *)
Definition fetchCurrentOperators (fetched : res (list (option OperatorSetPeer))) : res (list OperatorSetPeer) :=
  operatorSetPeers ← wrap "failed to fetch operators from peering system" fetched;
  sortedPeers ← sort_fetched operatorSetPeers;
  peers ← from_opt "panic: nil pointer dereference" (mapM id sortedPeers);
  _ ← wrap "operator set validation failed" (validateOperatorSetNoDuplicates sortedPeers);
  Ok peers.

Definition op_addrs (operators : list OperatorSetPeer) : gset Address := list_to_set (OperatorAddress <$> operators).

Definition validateReshareOperatorOverlap (oldParticipants : list Address) (newOperators : list OperatorSetPeer) : res unit :=
  if (length oldParticipants =? 0)%nat then Ok tt else
  let oldThreshold := CalculateThreshold (Z.of_nat (length oldParticipants)) in
  let newOperatorAddrs := op_addrs newOperators in
  let overlap := Z.of_nat (length (filter (fun addr => addr ∈ newOperatorAddrs) oldParticipants)) in
  if overlap <? oldThreshold then Err "insufficient operator overlap for reshare: %d of %d previous participants remain in the new operator set, need at least %d"
  else Ok tt.

Definition sessionParticipantIDs (operators : list OperatorSetPeer) : list Address := OperatorAddress <$> operators.

Definition existingOperatorDealers (operators : list OperatorSetPeer) (existingOpIDs : gset Address) : list Address :=
  OperatorAddress <$> filter (fun op => OperatorAddress op ∈ existingOpIDs) operators.

Definition expectedReshareDealers {Fr} (ks : KeyStore Fr) (operators : list OperatorSetPeer) : list Address :=
  match GetActiveVersion ks with
  | None => OperatorAddress <$> operators
  | Some activeVersion =>
      if (length (ParticipantIDs activeVersion) =? 0)%nat then OperatorAddress <$> operators else
      let prevParticipants : gset Address := list_to_set (ParticipantIDs activeVersion) in
      OperatorAddress <$> filter (fun op => OperatorAddress op ∈ prevParticipants) operators
  end.

Definition hasExistingShares {Fr} (ks : KeyStore Fr) : bool := bool_decide (is_Some (GetActiveVersion ks)).

(** [transport] is the answer of every peer to a [/pubkey] query, or [nil]. *)
Definition countNewOperatorsInSet {Fr} (ks : KeyStore Fr) (transport : option (OperatorSetPeer -> res (list G2Point)))
    (operators : list OperatorSetPeer) : Z :=
  match GetActiveVersion ks with
  | Some activeVersion =>
      let prevAddrs : gset Address := list_to_set (ParticipantIDs activeVersion) in
      Z.of_nat (length (filter (fun op => OperatorAddress op ∉ prevAddrs) operators))
  | None =>
      match transport with
      | None => Z.of_nat (length operators)
      | Some query =>
          foldl (fun newCount op =>
            match query op with
            | Err _ => newCount + 1
            | Ok commitments => if (length commitments =? 0)%nat then newCount + 1 else newCount
            end) 0 operators
      end
  end.

Inductive cluster_state := genesis | existing.

Fixpoint detectClusterState (query : OperatorSetPeer -> res (list G2Point)) (operators : list OperatorSetPeer) : cluster_state :=
  match operators with
  | [] => genesis
  | op :: operators =>
      match query op with
      | Err _ => detectClusterState query operators
      | Ok commitments => if (0 <? length commitments)%nat then existing else detectClusterState query operators
      end
  end.

(** ** The scheduler *)

Inductive action :=
| StartDKG (blockTimestamp : Z)
| StartReshareAsNew (blockTimestamp blockNumber : Z)
| StartReshareAsExisting (blockTimestamp blockNumber : Z).

Record Block := mkBlock { blk_Number : Z; blk_Timestamp : Z }.

Section Scheduler.
Context {Fr P : Type} `{EthAddr} `{INodePersistence Fr P}.

(** The goroutine a block starts, if any.  [fetched] and [query] are what the peering
    system and the peers answer; [now] is the clock. *)
Definition checkScheduledOperations (block : Block) (fetched : res (list (option OperatorSetPeer)))
    (query : OperatorSetPeer -> res (list G2Point)) (now : Z) (n : Node Fr P) : Node Fr P * option action :=
  let blockNumber := int64 (blk_Number block) in
  let blockTimestamp := int64 (blk_Timestamp block) in
  let blockInterval := GetReshareBlockIntervalForChain (ChainID n) in
  if negb (Z.rem blockNumber blockInterval =? 0) then (n, None) else
  if lastProcessedBoundary n =? 0 then (set_boundary blockNumber n, None) else
  if blockNumber =? lastProcessedBoundary n then (n, None) else
  let n := set_boundary blockNumber n in
  let n := persistBoundary now blockNumber n in
  match fetchCurrentOperators fetched with
  | Err _ => (n, None)
  | Ok operators =>
      if (0 <? size (activeSessions n))%nat then (n, None) else
      if negb (hasExistingShares (keyStore n)) then
        match detectClusterState query operators with
        | genesis => (n, Some (StartDKG blockTimestamp))
        | existing => (n, Some (StartReshareAsNew blockTimestamp blockNumber))
        end
      else (n, Some (StartReshareAsExisting blockTimestamp blockNumber))
  end.
End Scheduler.

(** ** Facts *)

Section Facts.
Context {Fr P : Type}.

(** *** Retained shares *)

Definition retained_ok (n : Node Fr P) : Prop :=
  NoDup (retainedGeneratedShareOrder n) /\ (length (retainedGeneratedShareOrder n) <= retainedShareRounds)%nat /\
  forall t, is_Some (retainedGeneratedShares n !! t) <-> t ∈ retainedGeneratedShareOrder n.

Lemma evict_spec (order : list Z) (r : gmap Z (gmap Address Fr)) :
  NoDup order -> (forall t, is_Some (r !! t) <-> t ∈ order) ->
  (evict order r).1 = drop (length order - retainedShareRounds) order /\
  forall t, (evict order r).2 !! t = if decide (t ∈ (evict order r).1) then r !! t else None.
Proof.
  revert r. induction order as [|a order IH]; intros r Hnd Hdom; cbn [evict].
  { split; [done|]. intros t. cbn. case_decide as Ht; [done|]. rewrite <- Hdom, <- eq_None_not_Some in Ht. done. }
  apply NoDup_cons in Hnd as [Ha Hnd]. destruct (Nat.ltb_spec retainedShareRounds (length (a :: order))) as [Hl|Hl].
  - destruct (IH (delete a r)) as [E1 E2]; [done| |].
    { intros t. destruct (decide (t = a)) as [->|Hta].
      - rewrite lookup_delete_eq. split; [by intros []|done].
      - rewrite lookup_delete_ne, Hdom, elem_of_cons by done. tauto. }
    assert (Hd : drop (length (a :: order) - retainedShareRounds) (a :: order) = drop (length order - retainedShareRounds) order).
    { cbn [length] in *. by rewrite Nat.sub_succ_l by (unfold retainedShareRounds in *; lia). }
    split; [by rewrite E1, Hd|]. intros t. rewrite E2. case_decide as Ht; [|done].
    rewrite lookup_delete_ne; [done|]. intros <-. apply Ha. rewrite E1 in Ht.
    by apply (elem_of_sublist _ _ _ Ht), sublist_drop.
  - cbn [fst snd]. replace (length (a :: order) - retainedShareRounds)%nat with 0%nat by lia. split; [done|].
    intros t. case_decide as Ht; [done|]. rewrite <- Hdom, <- eq_None_not_Some in Ht. done.
Qed.

(** The rounds kept after a round deals: a repeated session keeps its place, and only the
    last ones stay. *)
Definition retain_order (order : list Z) (t : Z) : list Z :=
  let order := if decide (t ∈ order) then order else (order ++ [t])%list in
  drop (length order - retainedShareRounds) order.

Lemma retain_step t shares (n : Node Fr P) : retained_ok n ->
  let n' := retainGeneratedShares t shares n in
  retained_ok n' /\ retainedGeneratedShareOrder n' = retain_order (retainedGeneratedShareOrder n) t /\
  forall s, retainedGeneratedShares n' !! s =
    if decide (s ∈ retain_order (retainedGeneratedShareOrder n) t)
    then (if decide (s = t) then Some shares else retainedGeneratedShares n !! s) else None.
Proof.
  intros (Hnd & Hlen & Hdom) n'. set (o := retainedGeneratedShareOrder n) in *. set (r := retainedGeneratedShares n) in *.
  assert (Ho : (if r !! t then o else o ++ [t])%list = if decide (t ∈ o) then o else (o ++ [t])%list).
  { case_decide as Hd; [apply Hdom in Hd as [x ->]; done|]. rewrite <- Hdom, <- eq_None_not_Some in Hd. by rewrite Hd. }
  set (o' := if decide (t ∈ o) then o else (o ++ [t])%list) in *.
  assert (Hin : forall s, s ∈ o' <-> s = t \/ s ∈ o).
  { intros s. subst o'. case_decide as Hd; [|rewrite elem_of_app, list_elem_of_singleton; tauto].
    split; [by right|]. by intros [->|]. }
  assert (Hnd' : NoDup o').
  { subst o'. case_decide as Hd; [done|]. apply NoDup_app. split_and!; [done| |apply NoDup_singleton].
    by intros s Hs ->%list_elem_of_singleton. }
  destruct (evict_spec o' (<[t:=shares]> r)) as [E1 E2]; [done| |].
  { intros s. rewrite lookup_insert_is_Some', Hin, Hdom. split; intros [|]; auto. }
  assert (En : n' = set_retained (evict o' (<[t:=shares]> r)).2 (evict o' (<[t:=shares]> r)).1 n).
  { subst n'. unfold retainGeneratedShares. fold r o. rewrite <- Ho. by destruct (r !! t); match goal with |- context [evict ?a ?b] => destruct (evict a b) end. }
  assert (El : forall s, (evict o' (<[t:=shares]> r)).2 !! s =
    if decide (s ∈ retain_order o t) then (if decide (s = t) then Some shares else r !! s) else None).
  { intros s. rewrite E2, E1. change (drop _ o') with (retain_order o t). case_decide; [|done].
    case_decide as Hs; [subst; by rewrite lookup_insert_eq|by rewrite lookup_insert_ne]. }
  rewrite En. split_and!; [|exact E1|exact El]. unfold retained_ok. cbn. rewrite E1. split_and!.
  - eapply sublist_NoDup; [exact Hnd'|apply sublist_drop].
  - rewrite length_drop. lia.
  - intros s. rewrite El. change (drop _ o') with (retain_order o t). case_decide as Hs; [|by split; [intros []|]].
    split; [done|]. intros _. case_decide as Hst; [eauto|]. apply Hdom.
    assert (Hs' : s ∈ o') by (by apply (elem_of_sublist _ _ _ Hs), sublist_drop). apply Hin in Hs' as [|]; done.
Qed.

(** The share map of the latest deal of a session. *)
Definition last_dealt (deals : list (Z * gmap Address Fr)) (t : Z) : option (gmap Address Fr) :=
  snd <$> last (filter (fun d => d.1 = t) deals).

Definition deal_all (deals : list (Z * gmap Address Fr)) (n : Node Fr P) : Node Fr P :=
  foldl (fun n d => retainGeneratedShares d.1 d.2 n) n deals.

Lemma last_dealt_snoc deals d t :
  last_dealt (deals ++ [d]) t = if decide (t = d.1) then Some d.2 else last_dealt deals t.
Proof.
  unfold last_dealt. rewrite filter_app. destruct (decide (t = d.1)) as [->|Hne].
  - rewrite filter_cons_True, filter_nil by done. by rewrite last_snoc.
  - rewrite filter_cons_False, filter_nil, app_nil_r by congruence. done.
Qed.

Lemma deal_all_retained (n : Node Fr P) deals :
  retainedGeneratedShares n = ∅ -> retainedGeneratedShareOrder n = [] ->
  let n' := deal_all deals n in
  retained_ok n' /\ forall t, t ∈ retainedGeneratedShareOrder n' -> retainedGeneratedShares n' !! t = last_dealt deals t.
Proof.
  intros Hr Ho. unfold deal_all. induction deals as [|[t shares] deals IH] using rev_ind; cbn [foldl].
  - split; [|by rewrite Ho; intros t ?%not_elem_of_nil]. unfold retained_ok. rewrite Ho, Hr.
    split_and!; [by constructor|cbn; lia|]. intros t. rewrite lookup_empty. split; [by intros []|by intros ?%not_elem_of_nil].
  - rewrite foldl_app. cbn [foldl fst snd]. destruct IH as [Hok Hlast].
    destruct (retain_step t shares _ Hok) as (Hok' & Eo & El). split; [done|]. intros s Hs. rewrite Eo in Hs.
    rewrite El, decide_True, last_dealt_snoc by done. cbn [fst snd]. case_decide as Hst; [done|]. apply Hlast.
    unfold retain_order in Hs.
    assert (Hs' : s ∈ (if decide (t ∈ retainedGeneratedShareOrder (foldl (fun n d => retainGeneratedShares d.1 d.2 n) n deals))
      then retainedGeneratedShareOrder (foldl (fun n d => retainGeneratedShares d.1 d.2 n) n deals)
      else (retainedGeneratedShareOrder (foldl (fun n d => retainGeneratedShares d.1 d.2 n) n deals) ++ [t])%list))
      by (eapply elem_of_sublist; [exact Hs|apply sublist_drop]).
    case_decide; [done|]. apply elem_of_app in Hs' as [|Hs'%list_elem_of_singleton]; done.
Qed.

(** Retained shares are bounded and current: whatever rounds a node has dealt since it
    started, it keeps at most the last four sessions, serves for a kept session exactly
    the share it last dealt to the recipient there and nothing for any other, and when
    no session repeats the kept ones are exactly the last four. *)
Theorem retained_shares_served (n : Node Fr P) (deals : list (Z * gmap Address Fr)) :
  retainedGeneratedShares n = ∅ -> retainedGeneratedShareOrder n = [] ->
  let n' := deal_all deals n in let kept := retainedGeneratedShareOrder n' in
  (length kept <= 4)%nat /\
  (forall t a, getRetainedGeneratedShare n' t a = if decide (t ∈ kept) then last_dealt deals t ≫= (fun m => m !! a) else None) /\
  (NoDup deals.*1 -> kept = drop (length deals - 4) deals.*1).
Proof.
  intros Hr Ho n' kept. destruct (deal_all_retained n deals Hr Ho) as [(Hnd & Hlen & Hdom) Hlast]. split_and!; [done| |].
  - intros t a. unfold getRetainedGeneratedShare. case_decide as Ht.
    + fold n' in Hlast. by rewrite (Hlast t Ht).
    + fold n' in Hdom. unfold kept in Ht. rewrite <- Hdom, <- eq_None_not_Some in Ht. by rewrite Ht.
  - subst kept n'. clear Hnd Hlen Hdom Hlast. unfold deal_all. induction deals as [|[t shares] deals IH] using rev_ind; intros Hnd; [done|].
    rewrite fmap_app in Hnd |- *. rewrite foldl_app. cbn [foldl fst snd fmap list_fmap]. cbn in Hnd.
    apply NoDup_app in Hnd as (Hnd & Hdis & _).
    destruct (deal_all_retained n deals Hr Ho) as [Hok _]. destruct (retain_step t shares _ Hok) as (_ & Eo & _).
    unfold deal_all in Eo. rewrite Eo. unfold retain_order. rewrite IH by done. rewrite decide_False.
    2:{ intros Hin. apply (Hdis t); [|by left]. eapply elem_of_sublist; [exact Hin|apply sublist_drop]. }
    rewrite !length_app, length_drop, length_fmap, drop_app_le by (rewrite length_drop, length_fmap; cbn; unfold retainedShareRounds; lia).
    rewrite drop_drop, drop_app_le by (rewrite length_fmap; cbn; lia). do 2 f_equal. cbn. unfold retainedShareRounds. lia.
Qed.
End Facts.

(** ** Restart *)

Section RestartFacts.
Context {Fr P : Type} `{EthAddr} `{INodePersistence Fr P}.
Implicit Types (n : Node Fr P).

(** What the reload loop has built after the versions [vs]. *)
Record restored (vs : list (KeyShareVersion Fr)) (ptrs : list (nat * Z)) (ks : KeyStore Fr) : Prop := {
  rs_inv : ks_inv ks;
  rs_ptrs : ptrs.*1 = keyVersions ks;
  rs_versions : ptrs.*2 = Version <$> vs;
  rs_contents : contents ks = set_IsActive false <$> vs;
  rs_poisoned : poisoned ks = ∅
}.

Lemma restore_versions vs : let '(ptrs, ks) := foldl (fun st version => restore_version version st) ([], NewKeyStore) vs in
  restored vs ptrs ks.
Proof.
  induction vs as [|v vs IH] using rev_ind; cbn [foldl].
  - split; try done. apply NewKeyStore_inv.
  - rewrite foldl_app. cbn [foldl]. destruct (foldl _ _ vs) as [ptrs ks]. destruct IH as [Hi Hp Hv Hc Hb].
    unfold restore_version. change (alloc v ks) with ((alloc v ks).1, (alloc v ks).2).
    destruct (contents_add v ks Hi) as (E1 & E2 & E3). split.
    + by apply add_inv.
    + rewrite fmap_app, Hp, E2. done.
    + rewrite !fmap_app, Hv. done.
    + rewrite E1, Hc, fmap_app. done.
    + by rewrite E3.
Qed.

Lemma restored_pointer vs ptrs ks i l t : restored vs ptrs ks -> ptrs !! i = Some (l, t) ->
  exists v, l ∈ keyVersions ks /\ obj ks l = Some v /\ Version v = t.
Proof.
  intros [Hi Hp Hv Hc _] Hl.
  assert (Hk : keyVersions ks !! i = Some l) by (by rewrite <- Hp, list_lookup_fmap, Hl).
  destruct (inv_stored ks Hi l) as [v Ho]; [by eapply list_elem_of_lookup_2|]. exists v. split_and!; [by eapply list_elem_of_lookup_2|done|].
  assert (Hs : (Version <$> stored ks) !! i = Some (Version v)).
  { unfold stored. rewrite list_lookup_fmap. clear -Hi Hk Ho.
    assert (Hall : forall x, x ∈ keyVersions ks -> is_Some (obj ks x)) by apply (inv_stored ks Hi). clear Hi.
    revert i Hk Hall. induction (keyVersions ks) as [|x xs IH]; intros i Hk Hall; [done|]. cbn [omap list_omap].
    destruct (Hall x) as [w Hw]; [by left|]. rewrite Hw. destruct i as [|i]; [injection Hk as ->; cbn; congruence|].
    cbn in Hk |- *. apply IH; [done|]. intros y Hy. apply Hall. by right. }
  assert (Hs' : (Version <$> stored ks) !! i = Some t).
  { rewrite <- contents_versions, Hc, <- list_fmap_compose.
    rewrite (list_fmap_ext (Version ∘ set_IsActive false) Version) by done. rewrite <- Hv, list_lookup_fmap, Hl. done. }
  congruence.
Qed.

Lemma restore_active_spec vs ptrs ks t : restored vs ptrs ks ->
  let ks' := restore_active t ptrs ks in
  ks_inv ks' /\ contents ks' = contents ks /\ poisoned ks' = poisoned ks /\
  (0 < t -> t ∈ Version <$> vs -> exists v, GetActiveVersion ks' = Some v /\ Version v = t).
Proof.
  intros Hr ks'. subst ks'. unfold restore_active. destruct (Z.gtb_spec t 0) as [Ht|Ht].
  2:{ split_and!; [apply Hr|done|done|lia]. }
  destruct (find _ ptrs) as [[l u]|] eqn:Hf.
  - apply find_some in Hf as [Hin Hu%Z.eqb_eq]. subst u. apply list_elem_of_In, list_elem_of_lookup_1 in Hin as [i Hi].
    destruct (restored_pointer _ _ _ _ _ _ Hr Hi) as (v & Hk & Hv & Hvt). unfold SetActiveVersion.
    destruct (unflag_fields ks) as (E1 & _ & _ & E2). split_and!; [by apply activate_inv; [apply Hr|]| |exact E2|].
    + apply contents_ext; [exact E1|]. intros x _. change (obj (point_active ?l ?k) x) with (obj k x). by rewrite flags_set, flags_unflag.
    + intros _ _. change (GetActiveVersion (point_active l ?k)) with (obj k l). rewrite obj_set_flag, decide_True, obj_unflag, Hv by done.
      case_decide; cbn; eauto.
  - split_and!; [apply Hr|done|done|]. intros _ Hin. exfalso. destruct Hr as [_ _ Hv _ _].
    rewrite <- Hv, list_elem_of_fmap in Hin. destruct Hin as ([l u] & -> & Hin). apply list_elem_of_In in Hin.
    apply (find_none _ _ Hf) in Hin. cbn in Hin. lia.
Qed.

Lemma mark_all (bad : list Z) (ks : KeyStore Fr) : let ks' := foldl (fun ks v => MarkPoisoned v ks) ks bad in
  GetActiveVersion ks' = GetActiveVersion ks /\ contents ks' = contents ks /\ poisoned ks' = list_to_set bad ∪ poisoned ks /\
  (ks_inv ks -> ks_inv ks').
Proof.
  revert ks. induction bad as [|v bad IH]; intros ks; cbn [foldl]; [split_and!; try done; set_solver|].
  destruct (IH (MarkPoisoned v ks)) as (E1 & E2 & E3 & E4). cbv zeta in *. rewrite E1, E2, E3. split_and!; [done|done| |].
  - cbn. set_solver.
  - intros Hi. apply E4. apply (ks_apply_inv (OpPoison v)). done.
Qed.

Lemma restore_tracker_spec st n : let n' := restore_tracker st n in
  keyStore n' = keyStore n /\ pers n' = pers n /\
  (forall s, st = Some s -> tracker n' =
     match GetActiveVersion (keyStore n) with
     | Some v => if TrackedSourceVersion s =? Version v then mkAbortTracker (TrackedSourceVersion s) (ConsecutiveMPKAborts s)
                 else mkAbortTracker 0 0
     | None => mkAbortTracker 0 0
     end).
Proof.
  unfold restore_tracker. destruct st as [s|]; [|done].
  destruct (GetActiveVersion (keyStore n)) as [v|]; [destruct (TrackedSourceVersion s =? Version v) eqn:E|];
    split_and!; try done; intros ? [= <-]; by rewrite ?E.
Qed.

Lemma restore_sessions_frame now timeout l n :
  keyStore (restore_sessions now timeout l n) = keyStore n /\ tracker (restore_sessions now timeout l n) = tracker n.
Proof.
  revert n. unfold restore_sessions. induction l as [|s l IH]; intros n; [done|]. cbn [foldl].
  destruct (IH (try_pers (DeleteProtocolSession (ps_SessionTimestamp s)) n)) as [I1 I2].
  rewrite keyStore_try_pers in I1. rewrite tracker_try_pers in I2. by destruct (IsExpired _ _ _).
Qed.

(** C33: A restart rebuilds the key state: on a fresh node whose persistence layer answers,
    restoring succeeds, the key store holds exactly the persisted versions and poisoned
    set with consistent flags, the persisted active version is active again even when it
    is poisoned, and the abort counter is taken over only if it counts the version that
    is active. *)
Theorem restore_state (n : Node Fr P) (now : Z) (st : option NodeState) (versions : list (KeyShareVersion Fr)) (active : Z)
    (bad : list Z) (sessions : list ProtocolSessionState) :
  keyStore n = NewKeyStore ->
  LoadNodeState (pers n) = Ok st -> ListKeyShareVersions (pers n) = Ok versions ->
  GetActiveVersionTimestamp (pers n) = Ok active -> ListPoisonedVersions (pers n) = Ok bad ->
  ListProtocolSessions (pers n) = Ok sessions ->
  exists n', RestoreState now n = (n', Ok tt) /\
    contents (keyStore n') = set_IsActive false <$> versions /\ ks_inv (keyStore n') /\
    (forall v, IsPoisoned (keyStore n') v = true <-> v ∈ bad) /\
    (0 < active -> active ∈ Version <$> versions -> exists v, GetActiveVersion (keyStore n') = Some v /\ Version v = active) /\
    (forall s, st = Some s -> tracker n' =
       match GetActiveVersion (keyStore n') with
       | Some v => if TrackedSourceVersion s =? Version v then mkAbortTracker (TrackedSourceVersion s) (ConsecutiveMPKAborts s)
                   else mkAbortTracker 0 0
       | None => mkAbortTracker 0 0
       end).
Proof.
  intros Hks Hst Hls Ha Hb Hss. unfold RestoreState. rewrite Hst. cbn [wrap].
  set (n1 := match st with Some _ => _ | None => _ end).
  assert (E1 : keyStore n1 = NewKeyStore /\ pers n1 = pers n) by (subst n1; destruct st as [s|]; [destruct (_ >? _)|]; done).
  destruct E1 as [E1 E1p]. rewrite E1p, Hls. cbn [wrap]. rewrite E1. pose proof (restore_versions versions) as Hr.
  destruct (foldl _ _ versions) as [ptrs ks]. change (pers (set_keyStore ?k ?m)) with (pers m). rewrite E1p, Ha. cbn [wrap].
  change (pers (set_keyStore ?k ?m)) with (pers m). rewrite E1p, Hb. change (keyStore (set_keyStore ?k ?m)) with k.
  destruct (restore_active_spec _ _ _ active Hr) as (Hi & Hc & Hp & Hact).
  destruct (mark_all bad (restore_active active ptrs ks)) as (M1 & M2 & M3 & M4). cbv zeta in *.
  set (ks' := foldl _ _ bad) in *. set (n2 := set_keyStore ks' _).
  destruct (restore_tracker_spec st n2) as (E2 & E2p & Et). change (keyStore n2) with ks' in *. change (pers n2) with (pers n1) in E2p. rewrite E1p in E2p.
  rewrite E2p, Hss. cbn [wrap]. eexists. split; [reflexivity|].
  destruct (restore_sessions_frame now (GetProtocolTimeoutForChain (ChainID (restore_tracker st n2))) sessions (restore_tracker st n2)) as [-> ->]. rewrite E2. split_and!.
  - by rewrite M2, Hc, (rs_contents _ _ _ Hr).
  - by apply M4.
  - intros v. unfold IsPoisoned. rewrite bool_decide_eq_true, M3, Hp, (rs_poisoned _ _ _ Hr). set_solver.
  - intros H1 H2. destruct (Hact H1 H2) as (v & Hv & ?). exists v. by rewrite M1.
  - exact Et.
Qed.
End RestartFacts.

(** ** Operator sets *)

Lemma no_duplicates_spec seen ops : no_duplicates_from seen ops = Ok tt <->
  exists peers, ops = Some <$> peers /\ NoDup (OperatorAddress <$> peers) /\ forall op, op ∈ peers -> OperatorAddress op ∉ seen.
Proof.
  revert seen. induction ops as [|[op|] ops IH]; intros seen; cbn [no_duplicates_from].
  - split; [|done]. intros _. exists []. split_and!; [done|constructor|by intros ? ?%not_elem_of_nil].
  - case_bool_decide as Hin.
    + split; [done|]. intros (peers & Hp & _ & Hs). destruct peers as [|p peers]; [done|]. injection Hp as -> _.
      by destruct (Hs p); [left|].
    + rewrite IH. split.
      * intros (peers & -> & Hnd & Hs). exists (op :: peers). split_and!; [done| |].
        -- rewrite fmap_cons. apply NoDup_cons. split; [|done]. rewrite list_elem_of_fmap. intros (q & Hq & Hqi). apply Hs in Hqi. set_solver.
        -- intros q [->|Hq]%elem_of_cons; [done|]. apply Hs in Hq. set_solver.
      * intros (peers & Hp & Hnd & Hs). destruct peers as [|p peers]; [done|]. injection Hp as -> ->.
        rewrite fmap_cons in Hnd. apply NoDup_cons in Hnd as [Hn Hnd]. exists peers. split_and!; [done|done|]. intros q Hq. rewrite elem_of_union, elem_of_singleton.
        intros [He|He]; [|by apply (Hs q); [right|]]. apply Hn. rewrite <- He. by apply list_elem_of_fmap_2.
  - split; [done|]. intros (peers & Hp & _). by destruct peers.
Qed.

Lemma mapM_id_some {A} (l : list A) : mapM id (Some <$> l) = Some l.
Proof. induction l as [|a l IH]; [done|]. rewrite fmap_cons. cbn [mapM id mbind option_bind]. by rewrite IH. Qed.

Lemma mapM_id_inv {A} (l : list (option A)) k : mapM id l = Some k -> l = Some <$> k.
Proof.
  intros Hm%mapM_Some. induction Hm as [|o a l k Ho Hm IH]; [done|]. rewrite fmap_cons, <- IH. cbn in Ho. by rewrite Ho.
Qed.

Definition sort_peers (peers : list OperatorSetPeer) : list OperatorSetPeer :=
  go_sort (fun a b => addr_ltb (OperatorAddress a) (OperatorAddress b)) peers.

Lemma sort_peers_short (peers : list OperatorSetPeer) : (length peers <= 1)%nat -> sort_peers peers = peers.
Proof. destruct peers as [|p [|q peers]]; [done|done|cbn; lia]. Qed.

Lemma fetch_ok fetched peers : fetchCurrentOperators fetched = Ok peers <->
  exists l, fetched = Ok (Some <$> l) /\ NoDup (OperatorAddress <$> l) /\ peers = sort_peers l.
Proof.
  assert (Hval : forall k, wrap "operator set validation failed" (validateOperatorSetNoDuplicates (Some <$> k)) = Ok tt <-> NoDup (OperatorAddress <$> k)).
  { intros k. rewrite wrap_ok. unfold validateOperatorSetNoDuplicates. rewrite no_duplicates_spec. split.
    - intros (peers' & He & Hnd & _). apply (inj (fmap Some)) in He. by subst.
    - intros Hnd. exists k. split_and!; [done..|]. set_solver. }
  assert (Hstep : forall l, sort_fetched (Some <$> l) = Ok (Some <$> sort_peers l)).
  { intros l. destruct l as [|p [|q l]]; [done|done|]. change (sort_fetched (Some <$> ?k)) with
      (from_opt "panic: nil pointer dereference" (mapM id (Some <$> k)) ≫= fun peers => Ok (Some <$> sort_peers peers)).
    by rewrite mapM_id_some. }
  unfold fetchCurrentOperators. split.
  - intros Hf. apply res_bind_ok in Hf as (x & Hx & Hf). apply wrap_ok in Hx. subst fetched.
    apply res_bind_ok in Hf as (y & Hy & Hf). apply res_bind_ok in Hf as (z & Hz & Hf). apply res_bind_ok in Hf as ([] & Hv & [= ->]).
    apply from_opt_ok in Hz. assert (Hl : exists l : list OperatorSetPeer, x = Some <$> l).
    { destruct x as [|o [|o' x]].
      - by exists [].
      - injection Hy as <-. apply mapM_id_inv in Hz. eauto.
      - apply res_bind_ok in Hy as (k & Hk & _). apply from_opt_ok, mapM_id_inv in Hk. eauto. }
    destruct Hl as [l ->]. exists l. rewrite (Hstep l) in Hy. injection Hy as <-. rewrite mapM_id_some in Hz. injection Hz as <-.
    split_and!; [done| |done]. apply Hval in Hv. unfold sort_peers in Hv. by rewrite go_sort_perm in Hv.
  - intros (l & -> & Hnd & ->). cbn [wrap mbind res_bind]. rewrite (Hstep l). cbn [mbind res_bind]. rewrite mapM_id_some. cbn [from_opt mbind res_bind].
    rewrite (proj2 (Hval (sort_peers l))); [done|]. unfold sort_peers. by rewrite go_sort_perm.
Qed.

(** Every node works on the same operator list: the fetch succeeds exactly on sets with
    no missing and no repeated operator, the result is a reordering of the set, and it
    does not depend on the order in which the peering system lists the operators. *)
Theorem operator_list_canonical (l : list (option OperatorSetPeer)) :
  (is_ok (fetchCurrentOperators (Ok l)) = true <-> exists peers, l = Some <$> peers /\ NoDup (OperatorAddress <$> peers)) /\
  (forall peers, fetchCurrentOperators (Ok l) = Ok peers ->
     l ≡ₚ Some <$> peers /\ NoDup (OperatorAddress <$> peers) /\
     (Forall valid_addr (OperatorAddress <$> peers) -> forall l', l ≡ₚ l' -> fetchCurrentOperators (Ok l') = Ok peers)).
Proof.
  split.
  - destruct (fetchCurrentOperators (Ok l)) as [peers|e] eqn:Hf; cbn.
    + split; [|done]. intros _. apply fetch_ok in Hf as (k & [= ->] & Hnd & _). eauto.
    + split; [done|]. intros (peers & -> & Hnd). assert (Hok : fetchCurrentOperators (Ok (Some <$> peers)) = Ok (sort_peers peers))
        by (apply fetch_ok; eauto). congruence.
  - intros peers Hf. apply fetch_ok in Hf as (k & [= ->] & Hnd & ->).
    assert (Hp : sort_peers k ≡ₚ k) by apply go_sort_perm. split_and!; [by apply fmap_Permutation|by rewrite (fmap_Permutation OperatorAddress _ _ Hp)|].
    intros Hv l' Hl'. rewrite (fmap_Permutation OperatorAddress _ _ Hp) in Hv. symmetry in Hl'. apply Permutation_map_inv in Hl' as (k' & -> & Hk').
    apply fetch_ok. exists k'. split_and!; [done|by rewrite <- Hk'|].
    unfold sort_peers. by apply go_sort_by_addr_unique.
Qed.

(** The overlap check keeps the secret reconstructible: when the check passes on the
    holders of the active version, at least the threshold of that version's holders are
    expected to deal, each of them once, each a current operator holding a share; and
    when the check fails fewer than the threshold remain. *)
Theorem overlap_check_sound {Fr} (ks : KeyStore Fr) (v : KeyShareVersion Fr) (operators : list OperatorSetPeer) :
  GetActiveVersion ks = Some v -> NoDup (OperatorAddress <$> operators) -> NoDup (ParticipantIDs v) -> ParticipantIDs v <> [] ->
  let dealers := expectedReshareDealers ks operators in
  (validateReshareOperatorOverlap (ParticipantIDs v) operators = Ok tt <->
     CalculateThreshold (Z.of_nat (length (ParticipantIDs v))) <= Z.of_nat (length dealers)) /\
  NoDup dealers /\ forall a, a ∈ dealers <-> a ∈ ParticipantIDs v /\ a ∈ OperatorAddress <$> operators.
Proof.
  intros Hv Hnd Hndp Hne dealers. subst dealers. unfold expectedReshareDealers, validateReshareOperatorOverlap. rewrite Hv.
  assert (Hlen : (length (ParticipantIDs v) =? 0)%nat = false) by (by destruct (ParticipantIDs v)). rewrite Hlen.
  set (dealers := OperatorAddress <$> filter _ operators).
  assert (Hin : forall a, a ∈ dealers <-> a ∈ ParticipantIDs v /\ a ∈ OperatorAddress <$> operators).
  { intros a. subst dealers. rewrite !list_elem_of_fmap. setoid_rewrite list_elem_of_filter. setoid_rewrite elem_of_list_to_set.
    split; [intros (op & -> & ? & ?); eauto|intros (? & op & -> & ?); eauto]. }
  assert (Hd : NoDup dealers).
  { eapply sublist_NoDup; [exact Hnd|]. by apply fmap_sublist, sublist_filter. }
  assert (Hp : filter (fun addr => addr ∈ op_addrs operators) (ParticipantIDs v) ≡ₚ dealers).
  { apply NoDup_Permutation; [by apply NoDup_filter|done|]. intros a. rewrite Hin, list_elem_of_filter. unfold op_addrs.
    rewrite elem_of_list_to_set. tauto. }
  split_and!; [|done|done]. rewrite Hp. destruct (Z.ltb_spec (Z.of_nat (length dealers)) (CalculateThreshold (Z.of_nat (length (ParticipantIDs v))))).
  - split; [done|lia].
  - split; [lia|done].
Qed.

Section SchedulerFacts.
Context {Fr P : Type} `{EthAddr} `{INodePersistence Fr P}.

Lemma persistBoundary_frame now b (n : Node Fr P) : let n' := persistBoundary now b n in
  keyStore n' = keyStore n /\ activeSessions n' = activeSessions n /\ lastProcessedBoundary n' = lastProcessedBoundary n /\
  ChainID n' = ChainID n.
Proof.
  unfold persistBoundary. match goal with |- context [try_pers ?f n] => by destruct (try_pers_cases f n) as [(p & _ & ->)| ->] end.
Qed.

Lemma detect_genesis query operators : detectClusterState query operators = genesis <->
  forall op cs, op ∈ operators -> query op = Ok cs -> cs = [].
Proof.
  induction operators as [|op ops IH]; cbn [detectClusterState].
  - split; [|done]. by intros _ ? ? ?%not_elem_of_nil.
  - destruct (query op) as [cs|e] eqn:Hq.
    + destruct cs as [|c cs]; cbn.
      * rewrite IH. split; intros Hall o cs Ho; [apply elem_of_cons in Ho as [->|Ho]; [congruence|eauto]|].
        apply Hall. by right.
      * split; [done|]. intros Hall. by specialize (Hall op (c :: cs) ltac:(by left) Hq).
    + rewrite IH. split; intros Hall o cs Ho; [apply elem_of_cons in Ho as [->|Ho]; [congruence|eauto]|].
      apply Hall. by right.
Qed.

Lemma detect_existing query operators : detectClusterState query operators = existing ->
  exists op cs, op ∈ operators /\ query op = Ok cs /\ cs <> [].
Proof.
  induction operators as [|op ops IH]; cbn [detectClusterState]; [done|]. intros Hd.
  destruct (query op) as [[|c cs]|e] eqn:Hq; cbn in Hd.
  - destruct (IH Hd) as (o & cs & Ho & ?). exists o, cs. split; [by right|done].
  - exists op, (c :: cs). split_and!; [by left|done|done].
  - destruct (IH Hd) as (o & cs & Ho & ?). exists o, cs. split; [by right|done].
Qed.

(** The scheduler never runs a key generation over a key: a run is started only at an
    interval boundary other than the last one, when no session is active, and never twice
    for one boundary; key generation only when this node holds no share and no operator
    that answers reports a key, joining only when this node holds no share and some
    operator reports one, and a reshare as dealer exactly when this node holds one. *)
Theorem scheduler_starts (block : Block) (fetched : res (list (option OperatorSetPeer)))
    (query : OperatorSetPeer -> res (list G2Point)) (now : Z) (n : Node Fr P) :
  let r := checkScheduledOperations block fetched query now n in
  keyStore r.1 = keyStore n /\ activeSessions r.1 = activeSessions n /\
  match r.2 with
  | None => True
  | Some a =>
      Z.rem (int64 (blk_Number block)) (GetReshareBlockIntervalForChain (ChainID n)) = 0 /\
      lastProcessedBoundary n <> 0 /\ lastProcessedBoundary n <> int64 (blk_Number block) /\ activeSessions n = ∅ /\
      (checkScheduledOperations block fetched query now r.1).2 = None /\
      exists operators, fetchCurrentOperators fetched = Ok operators /\
        match a with
        | StartDKG ts => ts = int64 (blk_Timestamp block) /\ GetActiveVersion (keyStore n) = None /\
            forall op cs, op ∈ operators -> query op = Ok cs -> cs = []
        | StartReshareAsNew ts b => ts = int64 (blk_Timestamp block) /\ b = int64 (blk_Number block) /\
            GetActiveVersion (keyStore n) = None /\ exists op cs, op ∈ operators /\ query op = Ok cs /\ cs <> []
        | StartReshareAsExisting ts b => ts = int64 (blk_Timestamp block) /\ b = int64 (blk_Number block) /\
            is_Some (GetActiveVersion (keyStore n))
        end
  end.
Proof.
  intros r. subst r. destruct (checkScheduledOperations block fetched query now n) as [n' act] eqn:Hc. cbn [fst snd].
  unfold checkScheduledOperations in Hc.
  destruct (Z.eqb_spec (Z.rem (int64 (blk_Number block)) (GetReshareBlockIntervalForChain (ChainID n))) 0) as [Hb|]; cbn [negb] in Hc;
    [|by injection Hc as <- <-].
  destruct (Z.eqb_spec (lastProcessedBoundary n) 0) as [|H0b]; [by injection Hc as <- <-|].
  destruct (Z.eqb_spec (int64 (blk_Number block)) (lastProcessedBoundary n)) as [|Hlb]; [by injection Hc as <- <-|].
  set (n1 := persistBoundary _ _ _) in Hc. destruct (persistBoundary_frame now (int64 (blk_Number block)) (set_boundary (int64 (blk_Number block)) n))
    as (F1 & F2 & F3 & F4). fold n1 in F1, F2, F3, F4. cbn in F1, F2, F3, F4.
  destruct (fetchCurrentOperators fetched) as [operators|e] eqn:Hf; [|by injection Hc as <- <-]. rewrite F1, F2 in Hc.
  destruct (size (activeSessions n)) eqn:Hsz; cbn in Hc; [|by injection Hc as <- <-]. apply map_size_empty_inv in Hsz.
  assert (Hagain : (checkScheduledOperations block fetched query now n1).2 = None).
  { unfold checkScheduledOperations. rewrite F4, Hb, F3. cbn. rewrite Z.eqb_refl. by destruct (_ =? 0). }
  unfold hasExistingShares in Hc. case_bool_decide as He; cbn in Hc.
  - injection Hc as <- <-. split_and!; try done; try congruence. by exists operators.
  - apply eq_None_not_Some in He. destruct (detectClusterState query operators) eqn:Hd; injection Hc as <- <-;
      (split_and!; try done; try congruence); exists operators; (split_and!; try done).
    + by apply detect_genesis.
    + by apply detect_existing.
Qed.
End SchedulerFacts.

(** ** Witnesses *)

#[local] Existing Instances Memory.memory_persistence.
#[local] Instance plain_hex : EthAddr := { Hex _ := "0x"; HexToAddress _ := 0 }.

Definition fresh_node (m : Memory.MemoryPersistence Z) : Node Z (Memory.MemoryPersistence Z) :=
  mkNode 1 1 NewKeyStore m (mkAbortTracker 0 0) ∅ ∅ [] 0 "" None [].

Definition saved_versions : list (KeyShareVersion Z) :=
  [mkKeyShareVersion 10 (Some 1) [] None true [1; 2; 3]; mkKeyShareVersion 20 (Some 2) [] None true [1; 2; 3]].

(** A store with two versions, the older active, the newer poisoned, and two aborts counted. *)
Definition saved_store : Memory.MemoryPersistence Z :=
  Memory.mkMemory (<[10 := mkKeyShareVersion 10 (Some 1) [] None true [1; 2; 3]]>
                   {[20 := mkKeyShareVersion 20 (Some 2) [] None true [1; 2; 3]]})
    10 (mkNodeState 7 0 "0x" 10 2 0) ∅ ∅ ∅ {[20]} false.

Lemma restore_state_witness :
  exists n', RestoreState 0 (fresh_node saved_store) = (n', Ok tt) /\
    (exists v, GetActiveVersion (keyStore n') = Some v /\ Version v = 10) /\
    (forall v, IsPoisoned (keyStore n') v = true <-> v ∈ [20]).
Proof.
  destruct (restore_state (fresh_node saved_store) 0 (Some (mkNodeState 7 0 "0x" 10 2 0)) saved_versions 10 [20] [])
    as (n' & Hr & _ & _ & Hbad & Hact & _); [vm_compute; reflexivity..|].
  exists n'. split; [exact Hr|]. split; [|exact Hbad]. apply Hact; [lia|]. by_compute.
Defined.

Lemma retained_shares_served_witness :
  retainedGeneratedShareOrder (deal_all [(1, ∅); (2, {[5 := 50]}); (3, ∅); (4, ∅); (5, ∅)] (fresh_node Memory.NewMemoryPersistence)) = [2; 3; 4; 5].
Proof.
  destruct (retained_shares_served (fresh_node Memory.NewMemoryPersistence)
    [(1, ∅); (2, {[5 := 50]}); (3, ∅); (4, ∅); (5, ∅)] eq_refl eq_refl) as (_ & _ & Hkept).
  rewrite Hkept; [vm_compute; reflexivity|]. by_compute.
Defined.

Lemma overlap_check_sound_witness :
  let ks := ks_run [OpAdd (mkKeyShareVersion 10 (Some 1) [] None true [1; 2; 3])] in
  let ops := [mkPeer 2 "" None 0 CurveTypeECDSA; mkPeer 3 "" None 0 CurveTypeECDSA; mkPeer 4 "" None 0 CurveTypeECDSA] in
  validateReshareOperatorOverlap [1; 2; 3] ops = Ok tt /\ CalculateThreshold 3 <= 2.
Proof.
  destruct (overlap_check_sound (ks_run [OpAdd (mkKeyShareVersion 10 (Some 1) [] None true [1; 2; 3])])
    (mkKeyShareVersion 10 (Some 1) [] None true [1; 2; 3])
    [mkPeer 2 "" None 0 CurveTypeECDSA; mkPeer 3 "" None 0 CurveTypeECDSA; mkPeer 4 "" None 0 CurveTypeECDSA])
    as ([Hto _] & _); [reflexivity|by_compute|by_compute|discriminate|].
  split; [reflexivity|]. apply Hto. reflexivity.
Defined.
