(* ===== verification/Agreement.v ===== *)
(** * Agreement on the dealer set: [resolveCutoffL2] and [deriveAgreedDealerSet] of [node.go]

    Every operator of a reshare round must finalize on one dealer set; it is read from the
    commitment registry at a height that the round's trigger block determines.  A node
    sees the two chains through [ChainView]: a read may fail at one time and succeed at a
    later one.  The loops poll until a deadline; their fuel is the number of seconds to
    it, and [poll_total] shows that it never runs out.  The theorem: if successful reads
    report one ledger, every node that succeeds derives the same set and the same hashes,
    and a node whose reads eventually succeed does succeed. *)

From S2P Require Import Prelude Bytes Types KeyStore NodeCore NodeOps.

(** What one node observes at a given time, in seconds; [after_poll t] is the time after
    a failed read at [t] and the pause that follows it. *)
Record ChainView := mkChainView {
  HeaderTimestampAt : Z -> Z -> res Z;
  FirstBlockAtOrAfterTimestamp : Z -> Z -> res Z;
  GetCommitmentAt : Z -> Z -> Address -> Z -> res bytes;
  after_poll : Z -> Z
}.

Definition deadlineL1 (chainID triggerBlock : Z) : Z :=
  uint64 (triggerBlock + GetReshareBlockIntervalForChain chainID - GetReshareCutoffBufferForChain chainID).

Definition resolveCutoffL2 (chain : ChainView) (chainID triggerBlock : Z) (now : Z) : res Z :=
  deadlineTs ← wrap "L1 deadline block %d not readable yet" (HeaderTimestampAt chain now (deadlineL1 chainID triggerBlock));
  cutoffL2 ← wrap "L2 cutoff not resolvable for ts %d" (FirstBlockAtOrAfterTimestamp chain now deadlineTs);
  Ok cutoffL2.

(** [for { read; if err == nil break; if time.Now().After(deadline) return err; sleep }]:
    the value and the time it was read at.  [None] is running out of fuel. *)
Fixpoint poll {A} (chain : ChainView) (read : Z -> res A) (msg : string) (deadline : Z) (fuel : nat) (now : Z) : option (res (A * Z)) :=
  match read now with
  | Ok a => Some (Ok (a, now))
  | Err e =>
      if now >? deadline then Some (wrap msg (Err e)) else
      match fuel with
      | O => None
      | S fuel => poll chain read msg deadline fuel (after_poll chain now)
      end
  end.

Definition poll_until {A} (chain : ChainView) (read : Z -> res A) (msg : string) (deadline now : Z) : res (A * Z) :=
  default (Err "unreachable: the clock passed the deadline") (poll chain read msg deadline (Z.to_nat (deadline - now + 1)) now).

Definition zero_hash : bytes := replicate 32 0.

Fixpoint read_dealers (chain : ChainView) (epoch cutoffL2 deadline : Z) (expected : list Address) (now : Z)
    (submitted : list Address) (onChainHashes : gmap Address bytes) : res (list Address * gmap Address bytes) :=
  match expected with
  | [] => Ok (submitted, onChainHashes)
  | dealer :: expected =>
      '(commitmentHash, now) ← poll_until chain (fun now => GetCommitmentAt chain now epoch dealer cutoffL2)
        "reshare aborted: dealer %s not readable at cutoff L2 block %d before deadline" deadline now;
      if bool_decide (commitmentHash = zero_hash)
      then read_dealers chain epoch cutoffL2 deadline expected now submitted onChainHashes
      else read_dealers chain epoch cutoffL2 deadline expected now (submitted ++ [dealer])
             (<[dealer := commitmentHash]> onChainHashes)
  end.

Definition round_deadline (chainID now : Z) : Z := now + GetReshareBlockIntervalForChain chainID * 13.

(** [expectedDealers] is [None] when the caller passes [nil]; [now] is the time of the call. *)
Definition deriveAgreedDealerSet {Fr} (chain : ChainView) (chainID : Z) (ks : KeyStore Fr) (operators : list OperatorSetPeer)
    (epoch triggerBlock : Z) (expectedDealers : option (list Address)) (now : Z) : res (list Address * gmap Address bytes) :=
  let expected := match expectedDealers with Some e => e | None => expectedReshareDealers ks operators end in
  if (length expected =? 0)%nat then Err "no expected dealers for reshare" else
  let deadline := round_deadline chainID now in
  '(cutoffL2, now) ← poll_until chain (resolveCutoffL2 chain chainID triggerBlock)
    "reshare aborted: L2 cutoff not resolvable before deadline" deadline now;
  read_dealers chain epoch cutoffL2 deadline expected now [] ∅.

(** ** The shared ledger *)

(** The chains themselves: timestamps of L1 headers, the first L2 block of a time, and the
    registry entry at a height (the zero hash when there is none). *)
Record Ledger := mkLedger {
  header_ts : Z -> Z;
  first_block : Z -> Z;
  commitment_at : Z -> Address -> Z -> bytes
}.

(** Pinned-height reads are consistent: a read may fail, but what it reports is the ledger's. *)
Record reads (chain : ChainView) (L : Ledger) : Prop := {
  reads_ts now b t : HeaderTimestampAt chain now b = Ok t -> t = header_ts L b;
  reads_block now t b : FirstBlockAtOrAfterTimestamp chain now t = Ok b -> b = first_block L t;
  reads_commitment now epoch d b h : GetCommitmentAt chain now epoch d b = Ok h -> h = commitment_at L epoch d b;
  reads_clock now : now + 1 <= after_poll chain now
}.

(** From [t0] on every read succeeds. *)
Definition readable (chain : ChainView) (t0 : Z) : Prop :=
  forall now, t0 <= now -> (forall b, is_ok (HeaderTimestampAt chain now b) = true) /\
    (forall t, is_ok (FirstBlockAtOrAfterTimestamp chain now t) = true) /\
    (forall epoch d b, is_ok (GetCommitmentAt chain now epoch d b) = true).

Definition cutoff (L : Ledger) (chainID triggerBlock : Z) : Z := first_block L (header_ts L (deadlineL1 chainID triggerBlock)).

Section AgreementFacts.
Context (chain : ChainView) (L : Ledger) (HL : reads chain L).

Lemma poll_total {A} (read : Z -> res A) msg deadline fuel now :
  deadline - now + 1 <= Z.of_nat fuel -> is_Some (poll chain read msg deadline fuel now).
Proof.
  revert now. induction fuel as [|fuel IH]; intros now Hf; cbn [poll]; destruct (read now); try done;
    destruct (Z.gtb_spec now deadline); try done; [lia|]. apply IH. pose proof (reads_clock _ _ HL now). lia.
Qed.

Lemma poll_ok {A} (read : Z -> res A) msg deadline fuel now a t :
  poll chain read msg deadline fuel now = Some (Ok (a, t)) -> read t = Ok a /\ now <= t.
Proof.
  revert now. induction fuel as [|fuel IH]; intros now; cbn [poll]; destruct (read now) eqn:Hr; try (by intros [= <- <-]);
    destruct (now >? deadline); try done. intros Hp%IH. pose proof (reads_clock _ _ HL now). split; [apply Hp|lia].
Qed.

Lemma poll_succeeds {A} (read : Z -> res A) msg deadline fuel now t0 : t0 <= deadline ->
  (forall t, t0 <= t -> is_ok (read t) = true) -> deadline - now + 1 <= Z.of_nat fuel ->
  exists a t, poll chain read msg deadline fuel now = Some (Ok (a, t)).
Proof.
  intros Ht Hread. revert now. induction fuel as [|fuel IH]; intros now Hf; cbn [poll]; destruct (read now) as [a|e] eqn:Hr; try eauto;
    (destruct (Z.gtb_spec now deadline); [specialize (Hread now ltac:(lia)); by rewrite Hr in Hread|]); [lia|].
  apply IH. pose proof (reads_clock _ _ HL now). lia.
Qed.

Lemma poll_until_ok {A} (read : Z -> res A) msg deadline now a t :
  poll_until chain read msg deadline now = Ok (a, t) -> read t = Ok a /\ now <= t.
Proof.
  unfold poll_until. destruct (poll _ _ _ _ _ _) as [r|] eqn:Hp; [|done]. cbn. intros ->. by eapply poll_ok.
Qed.

Lemma poll_until_succeeds {A} (read : Z -> res A) msg deadline now t0 : t0 <= deadline ->
  (forall t, t0 <= t -> is_ok (read t) = true) -> exists a t, poll_until chain read msg deadline now = Ok (a, t).
Proof.
  intros Ht Hread. unfold poll_until.
  destruct (poll_succeeds read msg deadline (Z.to_nat (deadline - now + 1)) now t0 Ht Hread ltac:(lia)) as (a & t & ->). eauto.
Qed.

Definition committed (epoch b : Z) (d : Address) : bool := negb (bool_decide (commitment_at L epoch d b = zero_hash)).

Lemma read_dealers_ok epoch b deadline expected now subm hashes D H :
  read_dealers chain epoch b deadline expected now subm hashes = Ok (D, H) ->
  D = (subm ++ base.filter (fun d => committed epoch b d = true) expected)%list /\
  forall d, H !! d = if decide (d ∈ base.filter (fun d => committed epoch b d = true) expected)
                     then Some (commitment_at L epoch d b) else hashes !! d.
Proof.
  revert now subm hashes. induction expected as [|d ds IH]; intros now subm hashes; cbn [read_dealers].
  - intros [= <- <-]. split; [by rewrite app_nil_r|done].
  - destruct (poll_until _ _ _ _ _) as [[h t]|e] eqn:Hp; cbn [mbind res_bind]; [|done].
    apply poll_until_ok in Hp as [Hr _]. apply (reads_commitment _ _ HL) in Hr. subst h. case_bool_decide as Hz.
    + intros Hd. rewrite filter_cons_False by (unfold committed; by rewrite bool_decide_eq_true_2). by eapply IH.
    + intros Hd. apply IH in Hd as [-> HH]. rewrite filter_cons_True by (unfold committed; by rewrite bool_decide_eq_false_2).
      split; [by rewrite <- app_assoc|]. intros x. rewrite HH. destruct (decide (x = d)) as [->|Hx].
      * rewrite lookup_insert_eq, (decide_True (P := d ∈ d :: _)) by (by left). by case_decide.
      * rewrite lookup_insert_ne by done. repeat case_decide; set_solver.
Qed.

Lemma read_dealers_succeeds epoch b deadline t0 expected now subm hashes : t0 <= deadline -> readable chain t0 ->
  exists D H, read_dealers chain epoch b deadline expected now subm hashes = Ok (D, H).
Proof.
  intros Ht Hr. revert now subm hashes. induction expected as [|d ds IH]; intros now subm hashes; cbn [read_dealers]; [eauto|].
  destruct (poll_until_succeeds (fun now => GetCommitmentAt chain now epoch d b)
    "reshare aborted: dealer %s not readable at cutoff L2 block %d before deadline" deadline now t0 Ht) as (h & t & ->).
  { intros t Htt. by apply Hr. }
  cbn [mbind res_bind]. case_bool_decide; apply IH.
Qed.

Lemma resolve_ok chainID trigger now b : resolveCutoffL2 chain chainID trigger now = Ok b -> b = cutoff L chainID trigger.
Proof.
  unfold resolveCutoffL2. intros (ts & Hts & Hb)%res_bind_ok. apply wrap_ok, (reads_ts _ _ HL) in Hts. subst ts.
  apply res_bind_ok in Hb as (b' & Hb & [= <-]). by apply wrap_ok, (reads_block _ _ HL) in Hb.
Qed.

Lemma resolve_succeeds chainID trigger t0 now : readable chain t0 -> t0 <= now -> is_ok (resolveCutoffL2 chain chainID trigger now) = true.
Proof.
  intros Hr Ht. destruct (Hr now Ht) as (H1 & H2 & _). unfold resolveCutoffL2. specialize (H1 (deadlineL1 chainID trigger)).
  destruct (HeaderTimestampAt _ _ _) as [ts|]; [|done]. cbn. specialize (H2 ts). by destruct (FirstBlockAtOrAfterTimestamp _ _ _).
Qed.

(** The derived set is a function of the ledger. *)
Lemma derive_ok {Fr} chainID (ks : KeyStore Fr) operators epoch trigger expectedDealers now D H :
  deriveAgreedDealerSet chain chainID ks operators epoch trigger expectedDealers now = Ok (D, H) ->
  let expected := default (expectedReshareDealers ks operators) expectedDealers in let b := cutoff L chainID trigger in
  expected <> [] /\ D = base.filter (fun d => committed epoch b d = true) expected /\
  forall d, H !! d = if decide (d ∈ D) then Some (commitment_at L epoch d b) else None.
Proof.
  unfold deriveAgreedDealerSet. change (match expectedDealers with Some e => e | None => _ end) with
    (default (expectedReshareDealers ks operators) expectedDealers). set (expected := default _ _).
  destruct (Nat.eqb_spec (length expected) 0) as [|Hne]; [done|]. intros ([b t] & Hp & Hd)%res_bind_ok.
  apply poll_until_ok in Hp as [Hb _]. apply resolve_ok in Hb. subst b. apply read_dealers_ok in Hd as [-> HH].
  cbn [app] in *. split_and!; [by intros ->|done|]. intros d. rewrite HH, lookup_empty. done.
Qed.
End AgreementFacts.

(** C10: Nodes that finalize agree: when the reads of two nodes report one ledger and both
    expect the same dealers, then whatever failed and whenever they asked, if both derive
    a dealer set for the same round they derive the same dealers in the same order with
    the same commitment hashes, namely the expected dealers the registry holds a
    commitment of at the cutoff height; and a node whose reads succeed from some time
    before its deadline on does derive it. *)
Theorem dealer_set_agreement {Fr} (chain chain' : ChainView) (L : Ledger) (chainID epoch trigger now now' : Z)
    (ks ks' : KeyStore Fr) (operators operators' : list OperatorSetPeer) (expected expected' : option (list Address)) :
  reads chain L -> reads chain' L ->
  default (expectedReshareDealers ks operators) expected = default (expectedReshareDealers ks' operators') expected' ->
  (forall D H D' H', deriveAgreedDealerSet chain chainID ks operators epoch trigger expected now = Ok (D, H) ->
     deriveAgreedDealerSet chain' chainID ks' operators' epoch trigger expected' now' = Ok (D', H') ->
     D = D' /\ H = H' /\
     D = filter (fun d => committed L epoch (cutoff L chainID trigger) d = true) (default (expectedReshareDealers ks operators) expected)) /\
  (forall t0, readable chain t0 -> t0 <= round_deadline chainID now -> default (expectedReshareDealers ks operators) expected <> [] ->
     is_ok (deriveAgreedDealerSet chain chainID ks operators epoch trigger expected now) = true).
Proof.
  intros HL HL' He. split.
  - intros D H D' H' Hd Hd'. apply (derive_ok _ _ HL) in Hd as (_ & HD & HH). apply (derive_ok _ _ HL') in Hd' as (_ & HD' & HH').
    assert (D = D') as <- by (by rewrite HD, HD', He). split_and!; [done| |done].
    apply map_eq. intros d. by rewrite HH, HH'.
  - intros t0 Hr Ht Hne. unfold deriveAgreedDealerSet.
    change (match expected with Some e => e | None => _ end) with (default (expectedReshareDealers ks operators) expected).
    destruct (Nat.eqb_spec (length (default (expectedReshareDealers ks operators) expected)) 0) as [Hz|]; [by apply length_zero_iff_nil in Hz|].
    destruct (poll_until_succeeds _ _ HL (resolveCutoffL2 chain chainID trigger)
      "reshare aborted: L2 cutoff not resolvable before deadline" (round_deadline chainID now) now t0 Ht) as (b & t & ->).
    { intros t Htt. by eapply resolve_succeeds. }
    cbn [mbind res_bind].
    destruct (read_dealers_succeeds _ _ HL epoch b (round_deadline chainID now) t0
      (default (expectedReshareDealers ks operators) expected) t [] ∅ Ht Hr) as (D & H & ->). done.
Qed.

(** A node that sees the chain late, one that sees it at once, and the ledger of both. *)
Definition demo_ledger : Ledger :=
  mkLedger (fun b => b * 12) (fun t => t / 2) (fun _ d _ => if d =? 2 then zero_hash else replicate 32 7).

Definition demo_view (synced : Z) : ChainView :=
  mkChainView (fun now b => if now <? synced then Err "missing trie node" else Ok (b * 12))
    (fun now t => if now <? synced then Err "missing trie node" else Ok (t / 2))
    (fun now _ d _ => if now <? synced then Err "missing trie node" else Ok (if d =? 2 then zero_hash else replicate 32 7))
    (fun now => now + 1).

Lemma demo_reads synced : reads (demo_view synced) demo_ledger.
Proof. split; cbn; intros; try lia; by destruct (now <? synced); simplify_eq. Qed.

Lemma dealer_set_agreement_witness :
  is_ok (deriveAgreedDealerSet (demo_view 30) 1 (NewKeyStore (Fr := Z)) [] 5 100 (Some [1; 2; 3]) 0) = true /\
  forall D H D' H', deriveAgreedDealerSet (demo_view 30) 1 (NewKeyStore (Fr := Z)) [] 5 100 (Some [1; 2; 3]) 0 = Ok (D, H) ->
    deriveAgreedDealerSet (demo_view 0) 1 (NewKeyStore (Fr := Z)) [] 5 100 (Some [1; 2; 3]) 7 = Ok (D', H') -> D = D' /\ D = [1; 3].
Proof.
  destruct (dealer_set_agreement (demo_view 30) (demo_view 0) demo_ledger 1 5 100 0 7 (NewKeyStore (Fr := Z)) NewKeyStore [] []
    (Some [1; 2; 3]) (Some [1; 2; 3]) (demo_reads 30) (demo_reads 0) eq_refl) as [Hagree Hlive].
  split.
  - apply (Hlive 30); [|vm_compute; discriminate|discriminate]. intros now Hnow. cbn. destruct (Z.ltb_spec now 30); [lia|]. done.
  - intros D H D' H' Hd Hd'. destruct (Hagree D H D' H' Hd Hd') as (HD & _ & HD0). split; [exact HD|]. rewrite HD0. vm_compute. reflexivity.
Defined.
