(* ===== verification/Messages.v ===== *)
(** * Messages between operators: authentication, acknowledgements, broadcasts and waits

    The part of [node.go] that checks what other operators send and waits for it.  The
    signature schemes are crypto-libs' and are parameters ([SigLib]); the peers' answers
    are arguments.  A wait is the test made after the messages handled meanwhile; running
    into the timeout is the test failing.  The theorems: an accepted acknowledgement is
    signed over exactly its own fields and names exactly this dealer's commitments; a
    broadcast marks only the operator whose share it acknowledges; a fetched share lies on
    the dealer's committed polynomial; the threshold vote on the master key has at most
    one winner, whatever the order of answers. *)

From S2P Require Import Prelude Bytes Types Fr Gnark Toy Crypto CryptoFacts KeyStore Persistence Session Dkg Reshare NodeCore AutoHeal NodeOps.

(** ** Signatures *)

Class SigLib := {
  bn254_sig : Type;
  bn254_NewSignatureFromBytes : bytes -> res bn254_sig;
  bn254_VerifySolidityCompatible : bn254_sig -> bytes -> bytes -> res bool;
  ecdsa_sig : Type;
  ecdsa_NewSignatureFromBytes : bytes -> res ecdsa_sig;
  ecdsa_VerifyWithAddress : ecdsa_sig -> bytes -> Address -> res bool
}.

Section Messages.
Context `{Gnark} `{SigLib}.

Definition verifyMessage (authMsg : AuthenticatedMessage) (senderPeer : OperatorSetPeer) : res unit :=
  let actualHash := Keccak256 (Payload authMsg) in
  _ ← fail_if (negb (bool_decide (actualHash = Hash authMsg))) "payload digest mismatch";
  match peer_CurveType senderPeer with
  | CurveTypeBN254 =>
      sig ← wrap "invalid signature format" (bn254_NewSignatureFromBytes (Signature authMsg));
      bn254PubKey ← from_opt "sender public key is not BN254 type" (PublicKey senderPeer);
      isValid ← wrap "signature verification error" (bn254_VerifySolidityCompatible sig bn254PubKey (Hash authMsg));
      fail_if (negb isValid) "signature verification failed"
  | CurveTypeECDSA =>
      sig ← wrap "invalid ECDSA signature format" (ecdsa_NewSignatureFromBytes (Signature authMsg));
      verified ← wrap "ECDSA signature verification error" (ecdsa_VerifyWithAddress sig actualHash (ECDSAAddress senderPeer));
      fail_if (negb verified) "ECDSA signature verification failed"
  | CurveTypeUnknown => Err "unsupported curve type for sender: %v"
  end.

(** ** Acknowledgements *)

Definition buildAcknowledgementSigningMessage (dealerAddress playerAddress : Address) (epoch : Z)
    (shareHash commitmentHash : bytes) : bytes :=
  addr_bytes dealerAddress ++ addr_bytes playerAddress ++ put_uint64 epoch ++ shareHash ++ commitmentHash.

(** A failing signer is logged and yields no signature. *)
Definition signAcknowledgement (SignMessage : bytes -> res bytes) (dealerAddress playerAddress : Address) (epoch : Z)
    (shareHash commitmentHash : bytes) : bytes :=
  match SignMessage (buildAcknowledgementSigningMessage dealerAddress playerAddress epoch shareHash commitmentHash) with
  | Ok signature => signature
  | Err _ => []
  end.

Definition verifyAcknowledgement (self : Address) (session : ProtocolSession Fr) (senderPeer : OperatorSetPeer)
    (expectedDealer : Address) (sessionTimestamp : Z) (ack : option Acknowledgement) : res unit :=
  ack ← from_opt "ack is nil" ack;
  _ ← fail_if (negb (PlayerAddress ack =? OperatorAddress senderPeer)) "ack player mismatch: got %s expected %s";
  _ ← fail_if (negb (DealerAddress ack =? self)) "ack dealer mismatch: got %s expected %s";
  _ ← fail_if (negb (ack_SessionTimestamp ack =? sessionTimestamp)) "ack session timestamp mismatch: got %d expected %d";
  _ ← fail_if (length (ack_Signature ack) =? 0)%nat "ack signature is empty";
  dealerCommitments ← from_opt "dealer commitments unavailable for dealer %s" (commitments session !! expectedDealer);
  _ ← fail_if (length dealerCommitments =? 0)%nat "dealer commitments unavailable for dealer %s";
  _ ← fail_if (negb (bool_decide (CommitmentHash ack = HashCommitment dealerCommitments))) "ack commitment hash mismatch";
  let msg := buildAcknowledgementSigningMessage (DealerAddress ack) (PlayerAddress ack) (ack_SessionTimestamp ack)
               (ShareHash ack) (CommitmentHash ack) in
  let msgHash := Keccak256 msg in
  match peer_CurveType senderPeer with
  | CurveTypeBN254 =>
      sig ← wrap "invalid BN254 ack signature format" (bn254_NewSignatureFromBytes (ack_Signature ack));
      bn254PubKey ← from_opt "sender public key is not BN254 type" (PublicKey senderPeer);
      valid ← wrap "BN254 ack signature verification error" (bn254_VerifySolidityCompatible sig bn254PubKey msgHash);
      fail_if (negb valid) "BN254 ack signature verification failed"
  | CurveTypeECDSA =>
      sig ← wrap "invalid ECDSA ack signature format" (ecdsa_NewSignatureFromBytes (ack_Signature ack));
      valid ← wrap "ECDSA ack signature verification error" (ecdsa_VerifyWithAddress sig msgHash (ECDSAAddress senderPeer));
      fail_if (negb valid) "ECDSA ack signature verification failed"
  | CurveTypeUnknown => Err "unsupported curve type for ack verification: %s"
  end.

(** ** Commitment broadcasts *)

(** The checks of [VerifyOperatorBroadcast] on a session: the operator it marks. *)
Definition check_broadcast (self : Address) (session : ProtocolSession Fr) (broadcast : CommitmentBroadcast) : res Address :=
  myAck ← from_opt "my ack not found in broadcast" (find (fun ack => PlayerAddress ack =? self) (cb_Acknowledgements broadcast));
  receivedShare ← from_opt "no share received from operator %s" (shares session !! cb_FromOperatorAddress broadcast);
  let expectedShareHash := HashShareForAck receivedShare in
  _ ← fail_if (negb (bool_decide (ShareHash myAck = expectedShareHash))) "share hash mismatch: ack says %x, actual is %x";
  _ ← fail_if (length (cb_MerkleProof broadcast) =? 0)%nat "merkle proof is empty";
  Ok (cb_FromOperatorAddress broadcast).

Definition VerifyOperatorBroadcast {P} (sessionTimestamp : Z) (broadcast : option CommitmentBroadcast) (n : Node Fr P)
    : Node Fr P * res unit :=
  match broadcast with
  | None => (n, Err "broadcast is nil")
  | Some broadcast =>
      match getSession n sessionTimestamp with
      | None => (n, Err "session not found")
      | Some session =>
          match check_broadcast (OperatorAddress_ n) session broadcast with
          | Err e => (n, Err e)
          | Ok from =>
              let session := with_verified ({[from]} ∪ verifiedOperators session) session in
              (set_sessions (<[sessionTimestamp := session]> (activeSessions n)) n, Ok tt)
          end
      end
  end.

(** ** Waits *)

(** The channel is signalled when the last message arrives. *)
Definition waitForShares (session : ProtocolSession Fr) : res unit :=
  if sharesComplete session then Ok tt else Err "timeout waiting for shares: got %d/%d".

Definition waitForCommitments (session : ProtocolSession Fr) : res unit :=
  if commitmentsComplete session then Ok tt else Err "timeout waiting for commitments: got %d/%d".

Definition clamp_required (required maxPossible : Z) : Z :=
  let required := if required <? 0 then 0 else required in
  if required >? maxPossible then maxPossible else required.

Definition waitForN (session : ProtocolSession Fr) (required : Z) (getCount : ProtocolSession Fr -> Z) : res unit :=
  let maxPossible := Z.of_nat (length (Operators session)) in
  let required := clamp_required required maxPossible in
  if required =? 0 then Ok tt else
  let received := getCount session in
  if received >=? required then Ok tt else Err "timeout waiting for %s: got %d/%d".

Definition waitForNShares (session : ProtocolSession Fr) (required : Z) : res unit :=
  waitForN session required (fun session => Z.of_nat (size (shares session))).

Definition waitForNCommitments (session : ProtocolSession Fr) (required : Z) : res unit :=
  waitForN session required (fun session => Z.of_nat (size (commitments session))).

Definition acks_received (session : ProtocolSession Fr) (dealer : Address) : Z :=
  match acks session !! dealer with Some ackMap => Z.of_nat (size ackMap) | None => 0 end.

Definition waitForAcks (session : ProtocolSession Fr) (dealer : Address) (required : Z) : res unit :=
  let maxPossible := Z.of_nat (length (Operators session)) - 1 in
  let required := clamp_required required maxPossible in
  if acks_received session dealer >=? required then Ok tt else Err "timeout waiting for acks: got %d/%d".

(** [expectedVerifications] is fixed before the wait starts. *)
Definition expected_verifications (session : ProtocolSession Fr) : Z :=
  if bool_decide (SessionType session = "reshare"%string) then
    let receivedShareCount := Z.of_nat (size (shares session)) in
    let thresholdMinus1 := CalculateThreshold (Z.of_nat (length (Operators session))) - 1 in
    Z.min thresholdMinus1 (receivedShareCount - 1)
  else Z.of_nat (length (Operators session)) - 1.

Definition WaitForVerifications (before after : option (ProtocolSession Fr)) : res unit :=
  match before with
  | None => Err "session not found"
  | Some session =>
      let expectedVerifications := expected_verifications session in
      match after with
      | None => Err "session not found"
      | Some session =>
          if Z.of_nat (size (verifiedOperators session)) >=? expectedVerifications then Ok tt
          else Err "timeout waiting for verifications: verified %d/%d"
      end
  end.

(** ** Dealers and peers *)

Definition trustedDealerIDs (validShares : gmap Address Fr) (verifiedOperators : gset Address) : gmap Address Fr :=
  filter (fun '(addr, _) => addr ∈ verifiedOperators) validShares.

Definition findPeerByAddress (address : Address) (peers : list OperatorSetPeer) : option OperatorSetPeer :=
  find (fun peer => OperatorAddress peer =? address) peers.

(** [submit k] is the outcome of attempt [k]; every attempt is a transaction. *)
Definition maxRetries : nat := 3.
Fixpoint submit_attempts (submit : nat -> res unit) (attempt remaining : nat) (lastErr : string) : nat * res unit :=
  match remaining with
  | O => (attempt, wrap "failed to submit commitment after %d attempts" (Err lastErr))
  | S remaining =>
      match submit attempt with
      | Ok _ => (S attempt, Ok tt)
      | Err e => submit_attempts submit (S attempt) remaining e
      end
  end.

Definition submitCommitmentWithRetry {P} (submit : nat -> res unit) (epoch : Z) (commitmentHash merkleRoot : bytes)
    (n : Node Fr P) : Node Fr P * res unit :=
  let '(attempts, r) := submit_attempts submit 0 maxRetries "" in
  (emit (replicate attempts (SubmitCommitment epoch commitmentHash merkleRoot)) n, r).

(** ** Fetching a share from a dealer *)

(** [transport k] is the outcome of request [k] to the dealer, [decode] the JSON decoder. *)
Fixpoint fetch_attempts (transport : nat -> res AuthenticatedMessage) (attempt remaining : nat) (lastErr : string) : res AuthenticatedMessage :=
  match remaining with
  | O => wrap "fetch share from %s after retries" (Err lastErr)
  | S remaining =>
      match transport attempt with
      | Ok m => Ok m
      | Err e => fetch_attempts transport (S attempt) remaining e
      end
  end.

Definition fetchAndVerifyReshareShare `{FrText Fr} (self : Address) (resharer : Reshare.Reshare) (session : ProtocolSession Fr)
    (dealer : Address) (transport : OperatorSetPeer -> nat -> res AuthenticatedMessage) (decode : bytes -> res ShareMessage) : res Fr :=
  dealerPeer ← from_opt "dealer %s not in session operator set" (findPeerByAddress dealer (Operators session));
  authResp ← fetch_attempts (transport dealerPeer) 0 3 "";
  _ ← wrap "fetched share response from %s failed authentication" (verifyMessage authResp dealerPeer);
  shareMsg ← wrap "failed to parse fetched share from %s" (decode (Payload authResp));
  _ ← fail_if (negb (sm_From shareMsg =? dealer)) "fetched share sender %s != requested dealer %s";
  _ ← fail_if (negb (sm_To shareMsg =? self)) "fetched share addressed to %s, not this node %s";
  share ← from_opt "dealer %s returned empty share" (DeserializeFr (sm_Share shareMsg));
  let commitments := default [] (commitments session !! dealer) in
  _ ← fail_if (length commitments =? 0)%nat "no commitments for dealer %s to verify fetched share";
  _ ← fail_if (negb (Reshare.VerifyNewShare resharer (Some share) commitments)) "fetched share from %s failed polynomial verification";
  Ok share.

(** ** The vote on the master public key *)

(** [respond op] is the decoded answer of a peer: failing, without a key, or with one. *)
Definition mpk_answer (respond : OperatorSetPeer -> res (option G2Point)) (op : OperatorSetPeer) : option G2Point :=
  match respond op with
  | Ok (Some mpk) =>
      if (length (g2_compressed mpk) =? 0)%nat then None else
      match G2PointFromCompressedBytes (g2_compressed mpk) with
      | Ok _ => Some mpk
      | Err _ => None
      end
  | _ => None
  end.

Definition count_vote (mpk : G2Point) (mpkVotes : gmap bytes (list G2Point)) : gmap bytes (list G2Point) :=
  <[g2_compressed mpk := default [] (mpkVotes !! g2_compressed mpk) ++ [mpk]]> mpkVotes.

Definition maxVotes (votes : gmap bytes (list G2Point)) : nat :=
  foldl (fun m '(_, v) => Nat.max m (length v)) 0%nat (map_to_list votes).

(** [order] is the iteration order of the vote map. *)
Definition fetchMPKFromPeers (self : Address) (operators : list OperatorSetPeer)
    (respond : OperatorSetPeer -> res (option G2Point)) (order : gmap bytes (list G2Point) -> list bytes) : res G2Point :=
  let peers := filter (fun op => OperatorAddress op <> self) operators in
  let mpkVotes := foldl (fun votes mpk => count_vote mpk votes) ∅ (omap (mpk_answer respond) peers) in
  let threshold := CalculateThreshold (Z.of_nat (length operators)) in
  match find (fun key => Z.of_nat (length (default [] (mpkVotes !! key))) >=? threshold) (order mpkVotes) with
  | Some key => from_opt "panic: index out of range" (head (default [] (mpkVotes !! key)))
  | None => Err "failed to reach threshold agreement on MPK: needed %d, best had %d votes"
  end.
End Messages.

(** ** What an accepted acknowledgement says *)

Section AckFacts.
Context `{Gnark} `{SigLib}.

(** The signature check, by the curve of the sender. *)
Definition signed (peer : OperatorSetPeer) (sig hash : bytes) : Prop :=
  match peer_CurveType peer with
  | CurveTypeBN254 => exists s k, bn254_NewSignatureFromBytes sig = Ok s /\ PublicKey peer = Some k /\
      bn254_VerifySolidityCompatible s k hash = Ok true
  | CurveTypeECDSA => exists s, ecdsa_NewSignatureFromBytes sig = Ok s /\ ecdsa_VerifyWithAddress s hash (ECDSAAddress peer) = Ok true
  | CurveTypeUnknown => False
  end.

Definition ack_message (a : Acknowledgement) : bytes :=
  buildAcknowledgementSigningMessage (DealerAddress a) (PlayerAddress a) (ack_SessionTimestamp a) (ShareHash a) (CommitmentHash a).

Lemma bn254_check sig peer hash m1 m2 m3 m4 :
  (s ← wrap m1 (bn254_NewSignatureFromBytes sig); k ← from_opt m2 (PublicKey peer);
   v ← wrap m3 (bn254_VerifySolidityCompatible s k hash); fail_if (negb v) m4) = Ok tt <->
  exists s k, bn254_NewSignatureFromBytes sig = Ok s /\ PublicKey peer = Some k /\ bn254_VerifySolidityCompatible s k hash = Ok true.
Proof.
  split.
  - intros (s & Hs & (k & Hk & (v & Hv & Hf)%res_bind_ok)%res_bind_ok)%res_bind_ok.
    apply wrap_ok in Hs, Hv. apply from_opt_ok in Hk. apply fail_if_ok, negb_false_iff in Hf. subst v. eauto.
  - intros (s & k & Hs & Hk & Hv). rewrite Hs, Hk. cbn. by rewrite Hv.
Qed.

Lemma ecdsa_check sig peer hash m1 m2 m3 :
  (s ← wrap m1 (ecdsa_NewSignatureFromBytes sig); v ← wrap m2 (ecdsa_VerifyWithAddress s hash (ECDSAAddress peer)); fail_if (negb v) m3) = Ok tt <->
  exists s, ecdsa_NewSignatureFromBytes sig = Ok s /\ ecdsa_VerifyWithAddress s hash (ECDSAAddress peer) = Ok true.
Proof.
  split.
  - intros (s & Hs & (v & Hv & Hf)%res_bind_ok)%res_bind_ok.
    apply wrap_ok in Hs, Hv. apply fail_if_ok, negb_false_iff in Hf. subst v. eauto.
  - intros (s & Hs & Hv). rewrite Hs. cbn. by rewrite Hv.
Qed.

Lemma verify_message_ok m peer : verifyMessage m peer = Ok tt <-> Keccak256 (Payload m) = Hash m /\ signed peer (Signature m) (Hash m).
Proof.
  unfold verifyMessage, signed. rewrite fail_if_bind, negb_false_iff, bool_decide_eq_true.
  split; intros [<- Hs]; (split; [done|]); revert Hs; destruct (peer_CurveType peer); rewrite ?bn254_check, ?ecdsa_check; done.
Qed.

(** An accepted acknowledgement binds its sender to this dealer's data: it is accepted
    exactly when it names the sending peer as player, this node as dealer, this session
    and the hash of the commitments the session holds for the dealer, and carries a
    signature of the peer over the message of exactly its own fields; and that message
    determines every field. *)
Theorem verified_ack_binds (self : Address) (session : ProtocolSession Fr) (peer : OperatorSetPeer) (dealer : Address) (ts : Z)
    (ack : option Acknowledgement) :
  (verifyAcknowledgement self session peer dealer ts ack = Ok tt <->
   exists a cs, ack = Some a /\ PlayerAddress a = OperatorAddress peer /\ DealerAddress a = self /\ ack_SessionTimestamp a = ts /\
     ack_Signature a <> [] /\ commitments session !! dealer = Some cs /\ cs <> [] /\ CommitmentHash a = HashCommitment cs /\
     signed peer (ack_Signature a) (Keccak256 (ack_message a))) /\
  (forall d d' p p' e e' sh sh' ch ch', valid_addr d -> valid_addr d' -> valid_addr p -> valid_addr p' -> is_int64 e -> is_int64 e' ->
     length sh = 32%nat -> length sh' = 32%nat ->
     buildAcknowledgementSigningMessage d p e sh ch = buildAcknowledgementSigningMessage d' p' e' sh' ch' ->
     d = d' /\ p = p' /\ e = e' /\ sh = sh' /\ ch = ch').
Proof.
  split.
  - assert (Hlen : forall A (l : list A), (length l =? 0)%nat = false <-> l <> []) by (by intros A [|]).
    unfold verifyAcknowledgement, signed, ack_message. destruct ack as [a|]; cbn [from_opt mbind res_bind];
      [|split; [done|by intros (? & ? & ? & _)]].
    rewrite !fail_if_bind, !negb_false_iff, !Z.eqb_eq, Hlen.
    destruct (commitments session !! dealer) as [cs|]; cbn [from_opt mbind res_bind];
      [|split; [by intros (_ & _ & _ & _ & ?)|by intros (? & ? & _ & _ & _ & _ & _ & ? & _)]].
    rewrite !fail_if_bind, !negb_false_iff, Hlen, bool_decide_eq_true.
    destruct (peer_CurveType peer); rewrite ?bn254_check, ?ecdsa_check; (split; [intros (? & ? & ? & ? & ? & ? & ?); exists a, cs; split_and!; try done; tauto|]);
      intros (a' & cs' & [= <-] & ? & ? & ? & ? & [= <-] & ? & ? & ?); done.
  - intros d d' p p' e e' sh sh' ch ch' Vd Vd' Vp Vp' Ve Ve' Hs Hs'. unfold buildAcknowledgementSigningMessage.
    intros [Hd Hr]%app_inj_len; [|done]. apply app_inj_len in Hr as [Hp Hr]; [|done].
    apply app_inj_len in Hr as [He Hr]; [|done]. apply app_inj_len in Hr as [Hsh Hch]; [|congruence].
    split_and!; [by apply addr_bytes_inj|by apply addr_bytes_inj|by apply put_uint64_inj|done|done].
Qed.

(** When a broadcast acknowledges the share this node holds from its sender. *)
Definition acknowledges (self : Address) (s : ProtocolSession Fr) (bc : CommitmentBroadcast) : Prop :=
  exists ack share, find (fun ack => PlayerAddress ack =? self) (cb_Acknowledgements bc) = Some ack /\
    shares s !! cb_FromOperatorAddress bc = Some share /\ ShareHash ack = HashShareForAck share /\ cb_MerkleProof bc <> [].

Lemma check_broadcast_ok self s bc from :
  check_broadcast self s bc = Ok from <-> from = cb_FromOperatorAddress bc /\ acknowledges self s bc.
Proof.
  unfold check_broadcast, acknowledges.
  destruct (find _ _) as [ack|]; cbn [from_opt mbind res_bind]; [|split; [done|by intros (_ & ? & ? & ? & _)]].
  destruct (shares s !! _) as [share|]; cbn [from_opt mbind res_bind]; [|split; [done|by intros (_ & ? & ? & _ & ? & _)]].
  rewrite !fail_if_bind, negb_false_iff, bool_decide_eq_true.
  assert (Hl : (length (cb_MerkleProof bc) =? 0)%nat = false <-> cb_MerkleProof bc <> []) by (by destruct (cb_MerkleProof bc)).
  rewrite Hl. split.
  - intros (? & ? & [= ->]). split; [done|]. by exists ack, share.
  - intros (-> & a & sh & [= <-] & [= <-] & ? & ?). done.
Qed.

(** A broadcast marks only the operator whose share it acknowledges: verification
    succeeds exactly when the session is known, the first acknowledgement of this node in
    the broadcast names the hash of the share received from the broadcast's operator, and
    a proof is attached; it then marks that operator and changes nothing else, and a
    failed one changes nothing.  The commitments it carries do not matter. *)
Theorem broadcast_marks_acknowledged {P} (ts : Z) (bc : CommitmentBroadcast) (n : Node Fr P) :
  let '(n', r) := VerifyOperatorBroadcast ts (Some bc) n in
  (r = Ok tt <-> exists s, getSession n ts = Some s /\ acknowledges (OperatorAddress_ n) s bc) /\
  (r = Ok tt -> exists s, getSession n ts = Some s /\
     n' = set_sessions (<[ts := with_verified ({[cb_FromOperatorAddress bc]} ∪ verifiedOperators s) s]> (activeSessions n)) n) /\
  (r <> Ok tt -> n' = n) /\
  (forall cs, VerifyOperatorBroadcast ts (Some (mkCommitmentBroadcast (cb_FromOperatorAddress bc) (cb_SessionTimestamp bc) cs
     (cb_Acknowledgements bc) (cb_MerkleProof bc))) n = (n', r)).
Proof.
  unfold VerifyOperatorBroadcast. destruct (getSession n ts) as [s|] eqn:Hs.
  2:{ split_and!; try done. split; [done|]. by intros (? & ? & _). }
  assert (Hsame : forall cs, check_broadcast (OperatorAddress_ n) s (mkCommitmentBroadcast (cb_FromOperatorAddress bc) (cb_SessionTimestamp bc) cs
     (cb_Acknowledgements bc) (cb_MerkleProof bc)) = check_broadcast (OperatorAddress_ n) s bc) by done.
  destruct (check_broadcast (OperatorAddress_ n) s bc) as [from|e] eqn:Hc.
  - apply check_broadcast_ok in Hc as [-> Hx]. split_and!; [|eauto|done|].
    + split; [|done]. intros _. by exists s.
    + intros cs. by rewrite Hsame.
  - split_and!; [|done|done|].
    + split; [done|]. intros (s' & [= <-] & Hx). rewrite (proj2 (check_broadcast_ok _ _ _ _) (conj eq_refl Hx)) in Hc. done.
    + intros cs. by rewrite Hsame.
Qed.
End AckFacts.

(** ** Fetched shares *)

Section FetchFacts.
Context `{GnarkLaws} `{SigLib} `{FrText Fr}.

Lemma fetch_attempts_ok t k rem e m : fetch_attempts t k rem e = Ok m -> exists i, (k <= i < k + rem)%nat /\ t i = Ok m.
Proof.
  revert k e. induction rem as [|rem IH]; intros k e; cbn [fetch_attempts]; [done|].
  destruct (t k) as [m'|e'] eqn:Ht.
  - intros [= <-]. exists k. split; [lia|done].
  - intros (i & Hi & Hm)%IH. exists i. split; [lia|done].
Qed.

(** A fetched share is the dealer's: whatever the network answers to the at most three
    requests, a share is returned only from a message the dealer's key authenticates, sent
    by the dealer to this node, and only if the commitments the session holds for that
    dealer open to a polynomial whose value at this node is the share. *)
Theorem fetched_share_sound (self : Address) (operators : list OperatorSetPeer) (session : ProtocolSession Fr) (dealer : Address)
    (transport : OperatorSetPeer -> nat -> res AuthenticatedMessage) (decode : bytes -> res ShareMessage) (share : Fr) :
  fetchAndVerifyReshareShare self (Reshare.NewReshare self operators) session dealer transport decode = Ok share ->
  exists peer i m sm cs p, peer ∈ Operators session /\ OperatorAddress peer = dealer /\
    (i < 3)%nat /\ transport peer i = Ok m /\ Keccak256 (Payload m) = Hash m /\ signed peer (Signature m) (Hash m) /\
    decode (Payload m) = Ok sm /\ sm_From sm = dealer /\ sm_To sm = self /\
    commitments session !! dealer = Some cs /\ opens_list cs p /\ share = peval p (AddressToFr self).
Proof.
  unfold fetchAndVerifyReshareShare. intros (peer & Hp & Hf)%res_bind_ok. apply from_opt_ok in Hp.
  unfold findPeerByAddress in Hp. apply find_some in Hp as [Hin Hd%Z.eqb_eq].
  apply res_bind_ok in Hf as (m & Hm & Hf). apply fetch_attempts_ok in Hm as (i & Hi & Hm).
  apply res_bind_ok in Hf as ([] & Hv & Hf). apply wrap_ok, verify_message_ok in Hv as [Hh Hs].
  apply res_bind_ok in Hf as (sm & Hsm & Hf). apply wrap_ok in Hsm.
  rewrite !fail_if_bind, !negb_false_iff, !Z.eqb_eq in Hf. destruct Hf as (Hfrom & Hto & Hf).
  apply res_bind_ok in Hf as (sh & _ & Hf). rewrite !fail_if_bind, negb_false_iff in Hf. destruct Hf as (Hne & Hver & [= ->]).
  destruct (commitments session !! dealer) as [cs|] eqn:Hcs; [|done]. cbn [default] in *.
  apply Reshare.VerifyNewShare_sound in Hver as (p & Ho & _ & ->).
  exists peer, i, m, sm, cs, p. split_and!; try done; [by apply list_elem_of_In|lia].
Qed.
End FetchFacts.

(** ** The vote *)

Lemma threshold_majority n : 0 <= n -> n < 2 * CalculateThreshold n \/ n = 0.
Proof.
  intros Hn. unfold CalculateThreshold. rewrite Z.quot_div_nonneg by lia.
  pose proof (Z.div_mod (2 * n + 2) 3 ltac:(lia)). pose proof (Z.mod_pos_bound (2 * n + 2) 3 ltac:(lia)). lia.
Qed.

Section VoteFacts.
Context `{Gnark}.

Definition votes_for (answers : list G2Point) (key : bytes) : list G2Point := filter (fun m => g2_compressed m = key) answers.

Lemma vote_map (answers : list G2Point) (key : bytes) :
  foldl (fun votes mpk => count_vote mpk votes) ∅ answers !! key =
  match votes_for answers key with [] => None | vs => Some vs end.
Proof.
  induction answers as [|m answers IH] using rev_ind; [done|]. rewrite foldl_app. cbn [foldl]. unfold count_vote, votes_for in *.
  rewrite filter_app. destruct (decide (key = g2_compressed m)) as [->|Hne].
  - rewrite lookup_insert_eq, IH, filter_cons_True, filter_nil by done.
    by destruct (filter _ answers).
  - rewrite lookup_insert_ne by done. rewrite IH, filter_cons_False, filter_nil, app_nil_r by done. done.
Qed.

Lemma votes_disjoint answers k k' : k <> k' -> (length (votes_for answers k) + length (votes_for answers k') <= length answers)%nat.
Proof.
  intros Hne. unfold votes_for. induction answers as [|m answers IH]; [done|]. rewrite !filter_cons. cbn [length].
  repeat case_decide; cbn [length]; try lia. congruence.
Qed.

Definition answers (self : Address) (operators : list OperatorSetPeer) (respond : OperatorSetPeer -> res (option G2Point)) : list G2Point :=
  omap (mpk_answer respond) (filter (fun op => OperatorAddress op <> self) operators).

Lemma answers_length self operators respond : (length (answers self operators respond) <= length operators)%nat.
Proof.
  unfold answers. transitivity (length (filter (fun op => OperatorAddress op <> self) operators)).
  - generalize (filter (fun op => OperatorAddress op <> self) operators). intros l.
    induction l as [|op l IH]; [done|]. cbn [omap list_omap]. destruct (mpk_answer respond op); cbn [length]; lia.
  - apply length_filter.
Qed.

Section Order.
Context (self : Address) (operators : list OperatorSetPeer) (respond : OperatorSetPeer -> res (option G2Point))
  (order : gmap bytes (list G2Point) -> list bytes) (Horder : forall m, order m ≡ₚ (map_to_list m).*1).

Let ans : list G2Point := answers self operators respond.
Let votes : gmap bytes (list G2Point) := foldl (fun votes mpk => count_vote mpk votes) ∅ ans.
Let threshold : Z := CalculateThreshold (Z.of_nat (length operators)).

Lemma vote_keys k : k ∈ order votes <-> votes_for ans k <> [].
Proof.
  rewrite Horder, list_elem_of_fmap. split.
  - intros ([k' v] & -> & Hv%elem_of_map_to_list). cbn. unfold votes in Hv. rewrite vote_map in Hv. by destruct (votes_for ans k').
  - intros Hne. destruct (votes_for ans k) as [|m l] eqn:Hv; [done|]. exists (k, m :: l). split; [done|].
    apply elem_of_map_to_list. unfold votes. by rewrite vote_map, Hv.
Qed.

Lemma vote_value k : default [] (votes !! k) = votes_for ans k.
Proof. unfold votes. rewrite vote_map. by destruct (votes_for ans k). Qed.

Lemma elem_of_votes k m : m ∈ votes_for ans k <-> g2_compressed m = k /\ m ∈ ans.
Proof. unfold votes_for. by rewrite list_elem_of_filter. Qed.

(** Two keys cannot both reach the threshold. *)
Lemma vote_winner k m : threshold <= Z.of_nat (length (votes_for ans k)) -> m ∈ ans ->
  threshold <= Z.of_nat (length (votes_for ans (g2_compressed m))) -> g2_compressed m = k.
Proof.
  intros Ht Hm Htm. destruct (decide (g2_compressed m = k)) as [|Hne]; [done|]. exfalso.
  pose proof (votes_disjoint ans _ _ Hne). pose proof (answers_length self operators respond) as Hlen. fold ans in Hlen.
  destruct (threshold_majority (Z.of_nat (length operators)) ltac:(lia)) as [Hlt|Hno]; [unfold threshold in *; lia|].
  assert (Hz : length ans = 0%nat) by lia. apply length_zero_iff_nil in Hz. rewrite Hz in Hm. by apply not_elem_of_nil in Hm.
Qed.

Lemma vote_result : match fetchMPKFromPeers self operators respond order with
  | Ok mpk => mpk ∈ ans /\ threshold <= Z.of_nat (length (votes_for ans (g2_compressed mpk)))
  | Err e => e = "failed to reach threshold agreement on MPK: needed %d, best had %d votes"%string /\
      forall mpk, mpk ∈ ans -> Z.of_nat (length (votes_for ans (g2_compressed mpk))) < threshold
  end.
Proof.
  unfold fetchMPKFromPeers. fold (answers self operators respond). fold ans votes threshold.
  destruct (find _ (order votes)) as [k|] eqn:Hf.
  - apply find_some in Hf as [Hk%list_elem_of_In Ht%Z.geb_le]. rewrite vote_value in Ht |- *. apply vote_keys in Hk.
    destruct (votes_for ans k) as [|m l] eqn:Hv; [done|]. cbn [head from_opt].
    assert (Hm : m ∈ votes_for ans k) by (rewrite Hv; by left). apply elem_of_votes in Hm as [<- Hm]. by rewrite Hv.
  - split; [done|]. intros mpk Hin. apply (find_none _ _) with (x := g2_compressed mpk) in Hf.
    + rewrite vote_value in Hf. lia.
    + apply list_elem_of_In, vote_keys. intros Hnil. assert (Hv : mpk ∈ votes_for ans (g2_compressed mpk)) by (by apply elem_of_votes).
      rewrite Hnil in Hv. by apply not_elem_of_nil in Hv.
Qed.

Lemma vote_iff mpk : fetchMPKFromPeers self operators respond order = Ok mpk <->
  mpk ∈ ans /\ threshold <= Z.of_nat (length (votes_for ans (g2_compressed mpk))).
Proof.
  pose proof vote_result as Hr. destruct (fetchMPKFromPeers _ _ _ _) as [m|e].
  - destruct Hr as [Hm Ht]. split; [intros [= <-]; done|]. intros [Hin Htm]. f_equal.
    pose proof (vote_winner _ _ Ht Hin Htm) as Hk. destruct m, mpk; cbn in *; congruence.
  - split; [done|]. intros [Hin Htm]. destruct Hr as [_ Hr]. specialize (Hr _ Hin). lia.
Qed.
End Order.

(** The vote on the master key has one winner: whatever order the vote map is walked in,
    the result is the same; a key that is returned was answered by at least the threshold
    of the other operators, and a valid key answered by that many is the one returned. *)
Theorem mpk_vote_unique (self : Address) (operators : list OperatorSetPeer) (respond : OperatorSetPeer -> res (option G2Point))
    (order order' : gmap bytes (list G2Point) -> list bytes) :
  (forall m, order m ≡ₚ (map_to_list m).*1) -> (forall m, order' m ≡ₚ (map_to_list m).*1) ->
  fetchMPKFromPeers self operators respond order = fetchMPKFromPeers self operators respond order' /\
  forall mpk, fetchMPKFromPeers self operators respond order = Ok mpk <->
    mpk ∈ answers self operators respond /\
    CalculateThreshold (Z.of_nat (length operators)) <= Z.of_nat (length (votes_for (answers self operators respond) (g2_compressed mpk))).
Proof.
  intros Ho Ho'. split; [|by apply vote_iff].
  pose proof (vote_result self operators respond order Ho) as Hr. pose proof (vote_result self operators respond order' Ho') as Hr'.
  pose proof (vote_iff self operators respond order Ho) as Hi. pose proof (vote_iff self operators respond order' Ho') as Hi'.
  destruct (fetchMPKFromPeers self operators respond order) as [m|e], (fetchMPKFromPeers self operators respond order') as [m'|e'].
  - symmetry. by apply Hi'.
  - symmetry. by apply Hi'.
  - by apply Hi.
  - destruct Hr as [-> _], Hr' as [-> _]. done.
Qed.
End VoteFacts.

(** ** Witnesses *)

#[local] Existing Instances toy97 toy97_laws.
#[local] Instance toy_text : FrText (@Fr toy97) := { fr_String _ := ""; fr_SetString s := Some (toy_fr (Z.of_nat (String.length s))) }.
#[local] Instance toy_sigs : SigLib := {
  bn254_sig := bytes; bn254_NewSignatureFromBytes b := Ok b; bn254_VerifySolidityCompatible s k h := Ok (bool_decide (s = k ++ h));
  ecdsa_sig := bytes; ecdsa_NewSignatureFromBytes b := Ok b; ecdsa_VerifyWithAddress s h a := Ok (bool_decide (s = addr_bytes a ++ h))
}.

Definition toy_peer (a : Address) : OperatorSetPeer := mkPeer a "" None a CurveTypeECDSA.

(** Dealer 2 deals the constant polynomial 3 to node 1. *)
Definition toy_fetch_session : ProtocolSession (@Fr toy97) :=
  deliver_all (newSession "reshare" [toy_peer 1; toy_peer 2] 7 0) [GotCommitment 2 [com (toy_fr 3)] 5].
Definition toy_answer : AuthenticatedMessage :=
  mkAuthenticatedMessage [1; 2] (Keccak256 [1; 2]) (addr_bytes 2 ++ Keccak256 [1; 2]).
Definition toy_transport (op : OperatorSetPeer) (k : nat) : res AuthenticatedMessage :=
  match k with O => Err "connection reset" | _ => Ok toy_answer end.
Definition toy_decode (b : bytes) : res ShareMessage := Ok (mkShareMessage 2 1 7 (Some "abc")).

Lemma fetched_share_sound_witness :
  exists peer i m sm cs p, peer ∈ Operators toy_fetch_session /\ OperatorAddress peer = 2 /\
    (i < 3)%nat /\ toy_transport peer i = Ok m /\ Keccak256 (Payload m) = Hash m /\ signed peer (Signature m) (Hash m) /\
    toy_decode (Payload m) = Ok sm /\ sm_From sm = 2 /\ sm_To sm = 1 /\
    commitments toy_fetch_session !! 2 = Some cs /\ opens_list cs p /\ toy_fr 3 = peval p (AddressToFr 1).
Proof.
  apply (fetched_share_sound 1 [toy_peer 1; toy_peer 2] toy_fetch_session 2 toy_transport toy_decode (toy_fr 3)).
  vm_compute. reflexivity.
Defined.

Definition toy_respond (op : OperatorSetPeer) : res (option G2Point) :=
  if OperatorAddress op =? 4 then Err "timeout" else Ok (Some (com (toy_fr 9))).

Lemma mpk_vote_unique_witness :
  fetchMPKFromPeers 1 [toy_peer 1; toy_peer 2; toy_peer 3; toy_peer 4; toy_peer 5] toy_respond (fun m => (map_to_list m).*1)
    = Err "failed to reach threshold agreement on MPK: needed %d, best had %d votes" /\
  fetchMPKFromPeers 1 [toy_peer 1; toy_peer 2; toy_peer 3; toy_peer 5] toy_respond (fun m => (map_to_list m).*1) = Ok (com (toy_fr 9)).
Proof.
  split; [vm_compute; reflexivity|].
  apply (mpk_vote_unique 1 [toy_peer 1; toy_peer 2; toy_peer 3; toy_peer 5] toy_respond (fun m => (map_to_list m).*1) (fun m => (map_to_list m).*1));
    [done|done|]. split; [by_compute|vm_compute; discriminate].
Defined.
