(* ===== verification/NodeRun.v ===== *)
(** * Protocol runs, part one: the shared steps and [RunDKG] of [pkg/node/node.go]

    A run is a function in the state and error monad [M] over the node.  While it waits,
    the HTTP handlers deliver messages to its session: each wait takes the batch of
    events handled until it returns, events handled between two waits counting to the
    next batch.  The local variable [session] is a pointer to the entry of
    [activeSessions]: [the_session] reads it, [on_session] writes it.  Errors of sends
    and of session saves are logged and ignored by the code, so they are not observable.
    The theorems are in [RunFacts.v]. *)

From S2P Require Import Prelude Bytes Types Fr Gnark Crypto KeyStore Persistence Session Merkle Dkg Reshare NodeCore AutoHeal NodeOps Messages.

Section NodeRun.
Context `{Gnark} `{SigLib} `{MerkleLib} `{FrText Fr} `{EthAddr} {P : Type} `{INodePersistence Fr P}.

Notation M := (SM (Node Fr P)).

(** ** Sessions and events *)

Inductive event :=
| EvDeliver (d : delivery Fr)
| EvBroadcast (bc : CommitmentBroadcast).

Definition handle_event (ts : Z) (n : Node Fr P) (e : event) : Node Fr P :=
  match e with
  | EvDeliver d =>
      match getSession n ts with
      | Some s => set_sessions (<[ts := deliver s d]> (activeSessions n)) n
      | None => n
      end
  | EvBroadcast bc => (VerifyOperatorBroadcast ts (Some bc) n).1
  end.

Definition handle_events (ts : Z) (es : list event) (n : Node Fr P) : Node Fr P := foldl (handle_event ts) n es.

(** [createSession] checks the operators and publishes the new session. *)
Definition createSession (sessionType : string) (operators : list OperatorSetPeer) (sessionTimestamp now : Z) : M unit :=
  _ ← sm_lift (validateOperatorSetNoDuplicates (Some <$> operators));
  sm_modify (fun n => set_sessions (<[sessionTimestamp := newSession sessionType operators sessionTimestamp now]> (activeSessions n)) n).

Definition the_session (ts : Z) : M (ProtocolSession Fr) :=
  n ← sm_get; sm_lift (from_opt "panic: nil pointer dereference" (getSession n ts)).

Definition on_session (ts : Z) (f : ProtocolSession Fr -> ProtocolSession Fr) : M unit :=
  sm_modify (fun n => set_sessions (alter f ts (activeSessions n)) n).

(** [n.saveSession(session)], its error logged. *)
Definition save_session (ts : Z) : M unit :=
  sm_modify (fun n => match getSession n ts with Some s => try_pers (saveSession (Some s)) n | None => n end).

(** Handle the batch, then test. *)
Definition wait (ts : Z) (batch : list event) (test : ProtocolSession Fr -> res unit) : M unit :=
  _ ← sm_modify (handle_events ts batch);
  session ← the_session ts;
  sm_lift (test session).

Definition wait_verifications (ts : Z) (batch : list event) : M (res unit) :=
  before ← sm_get;
  _ ← sm_modify (handle_events ts batch);
  after ← sm_get;
  mret (WaitForVerifications (getSession before ts) (getSession after ts)).

(** ** Steps the runs share *)

Definition in_operators (self : Address) (operators : list OperatorSetPeer) : bool :=
  bool_decide (self ∈ OperatorAddress <$> operators).

(** Storing one's own share and commitments; the errors are dropped. *)
Definition store_own (ts : Z) (shares : gmap Address Fr) (commitments : list G2Point) (sourceVersion : Z) : M unit :=
  n ← sm_get;
  let self := OperatorAddress_ n in
  _ ← match shares !! self with
      | Some own => on_session ts (fun s => deliver s (GotShare self own))
      | None => mret tt
      end;
  on_session ts (fun s => deliver s (GotCommitment self commitments sourceVersion)).

(** The acknowledgements sent for the valid shares of the other dealers. *)
Definition acks_for (sign : bytes -> res bytes) (self : Address) (operators : list OperatorSetPeer) (ts : Z)
    (validShares : gmap Address Fr) (receivedCommitments : gmap Address (list G2Point)) : list Acknowledgement :=
  omap (fun '(dealerAddr, share) =>
    if dealerAddr =? self then None else
    match findPeerByAddress dealerAddr operators with
    | None => None
    | Some dealerPeer => Some (CreateAcknowledgement self (OperatorAddress dealerPeer) ts share
                                 (default [] (receivedCommitments !! dealerAddr)) (signAcknowledgement sign))
    end) (map_to_list validShares).

(** The acknowledgements this node collected as a dealer, in map order. *)
Definition my_acks (self : Address) (session : ProtocolSession Fr) : list Acknowledgement :=
  match acks session !! self with Some ackMap => (map_to_list ackMap).*2 | None => [] end.

Definition verified_ops (session : ProtocolSession Fr) : gset Address := verifiedOperators session.

(** Persist the version, then the active pointer, and only then publish it. *)
Definition commit_version (what : string) (keyVersion : KeyShareVersion Fr) : M unit :=
  n ← sm_get;
  p ← sm_lift (wrap what (SaveKeyShareVersion keyVersion (pers n)));
  _ ← sm_modify (set_pers p);
  p ← sm_lift (wrap "failed to persist active version pointer" (SetActiveVersionTimestamp (Version keyVersion) p));
  _ ← sm_modify (set_pers p);
  sm_modify (fun n => let '(l, ks) := alloc keyVersion (keyStore n) in set_keyStore (AddVersion l ks) n).

(** ** [RunDKG] *)

Record DkgEnv := mkDkgEnv {
  dkg_fetched : res (list (option OperatorSetPeer));
  dkg_now : Z;
  dkg_rnd : nat -> option Fr;
  dkg_shares_batch : list event;
  dkg_commitments_batch : list event;
  dkg_acks_batch : list event;
  dkg_sign : bytes -> res bytes;
  dkg_submit : nat -> res unit;
  dkg_verify_batch : list event
}.

(** Phase 1: generate, store, broadcast, send and wait for everyone's. *)
Definition dkg_phase1 (env : DkgEnv) (ts : Z) (operators : list OperatorSetPeer) : M (DKG * list G2Point) :=
  n ← sm_get;
  let self := OperatorAddress_ n in
  _ ← (if in_operators self operators then mret tt else sm_fail "this operator %s not found in operator set");
  let threshold := CalculateThreshold (Z.of_nat (length operators)) in
  '(d, shares, commitments) ← sm_lift (GenerateShares (dkg_rnd env) (NewDKG self threshold operators));
  _ ← store_own ts shares commitments 0;
  _ ← sm_modify (emit (BroadcastDKGCommitments (OperatorAddress <$> operators) commitments ts
         :: omap (fun op => if OperatorAddress op =? self then None else
                    (fun share => SendDKGShare (OperatorAddress op) share ts) <$> shares !! OperatorAddress op) operators));
  _ ← wait ts (dkg_shares_batch env) waitForShares;
  _ ← wait ts (dkg_commitments_batch env) waitForCommitments;
  _ ← on_session ts (with_phase 2);
  _ ← save_session ts;
  mret (d, commitments).

(** Phase 2: verify the shares, acknowledge them, wait for the acknowledgements. *)
Definition dkg_phase2 (env : DkgEnv) (ts : Z) (operators : list OperatorSetPeer) (d : DKG) : M (gmap Address Fr) :=
  session ← the_session ts;
  n ← sm_get;
  let self := OperatorAddress_ n in
  let receivedShares := shares session in
  let receivedCommitments := commitments session in
  let validShares := filter (fun '(dealerAddr, share) =>
      VerifyShare d (Some share) (default [] (receivedCommitments !! dealerAddr)) = true) receivedShares in
  _ ← sm_modify (emit ((fun ack => SendDKGAcknowledgement ack (DealerAddress ack) ts) <$>
         acks_for (dkg_sign env) self operators ts validShares receivedCommitments));
  let requiredAcks := if threshold d <? 0 then 0 else threshold d in
  _ ← sm_wrap "insufficient acknowledgements" (wait ts (dkg_acks_batch env) (fun s => waitForAcks s self requiredAcks));
  _ ← on_session ts (with_phase 3);
  _ ← save_session ts;
  mret validShares.

(** Phases 3 to 5: the merkle tree of the acknowledgements, the transaction, the broadcast
    and the wait for the broadcasts of the others, whose failure is ignored. *)
Definition dkg_phase3 (env : DkgEnv) (ts : Z) (operators : list OperatorSetPeer) (commitments : list G2Point) : M unit :=
  session ← the_session ts;
  n ← sm_get;
  let myAcks := my_acks (OperatorAddress_ n) session in
  _ ← (if (length myAcks =? 0)%nat then sm_fail "no acknowledgements collected as dealer" else mret tt);
  tree ← sm_lift (wrap "failed to build merkle tree" (BuildAcknowledgementMerkleTree myAcks));
  merkleTree ← sm_lift (from_opt "panic: nil pointer dereference" tree);
  let myCommitmentHash := HashCommitment commitments in
  _ ← sm_wrap "failed to submit commitment after retries" (submitCommitmentWithRetry (dkg_submit env) ts myCommitmentHash (Root merkleTree));
  _ ← on_session ts (with_submitted myCommitmentHash true);
  _ ← sm_modify (emit [BroadcastCommitmentsWithProofs (OperatorAddress <$> operators) ts commitments myAcks (Root merkleTree)]);
  _ ← wait_verifications ts (dkg_verify_batch env);
  mret tt.

(** The dealers this node trusts, in operator order, with their share and commitments. *)
Definition trusted_dealers (operators : list OperatorSetPeer) (trustedShares : gmap Address Fr)
    (receivedCommitments : gmap Address (list G2Point)) : list (Address * Fr * list G2Point) :=
  omap (fun op => share ← trustedShares !! OperatorAddress op; comm ← receivedCommitments !! OperatorAddress op;
                  Some (OperatorAddress op, share, comm)) operators.

(** The version the run stores: the finalized one with the session as version, the first
    combined commitment as master key and this node's own commitments. *)
Definition dkg_key_version (d : DKG) (ts : Z) (commitments : list G2Point) (dealers : list (Address * Fr * list G2Point)) : KeyShareVersion Fr :=
  let allCommitments := (fun '(_, _, comm) => comm) <$> dealers in
  let participantIDs := (fun '(a, _, _) => a) <$> dealers in
  let finalShares := foldl (fun m '(a, share, _) => <[a := share]> m) ∅ dealers in
  let keyVersion := FinalizeKeyShare d finalShares allCommitments participantIDs in
  mkKeyShareVersion ts (PrivateShare keyVersion) commitments (head (Commitments keyVersion)) (IsActive keyVersion)
    (ParticipantIDs keyVersion).

(** Phase 6. *)
Definition dkg_finalize (ts : Z) (operators : list OperatorSetPeer) (d : DKG) (commitments_ : list G2Point)
    (validShares : gmap Address Fr) : M unit :=
  session ← the_session ts;
  n ← sm_get;
  let verifiedOps := {[OperatorAddress_ n]} ∪ verified_ops session in
  let trustedShares := trustedDealerIDs validShares verifiedOps in
  let dealers := trusted_dealers operators trustedShares (commitments session) in
  _ ← (if Z.of_nat (length dealers) <? threshold d
       then sm_fail "insufficient trusted dealers for DKG finalize: got %d, need %d" else mret tt);
  commit_version "failed to persist key share version" (dkg_key_version d ts commitments_ dealers).

Definition dkg_body (env : DkgEnv) (ts : Z) (operators : list OperatorSetPeer) : M unit :=
  _ ← save_session ts;
  '(d, commitments) ← dkg_phase1 env ts operators;
  validShares ← dkg_phase2 env ts operators d;
  _ ← dkg_phase3 env ts operators commitments;
  dkg_finalize ts operators d commitments validShares.

Definition RunDKG (env : DkgEnv) (sessionTimestamp : Z) : M unit :=
  operators ← sm_lift (wrap "failed to fetch operators" (fetchCurrentOperators (dkg_fetched env)));
  _ ← sm_wrap "failed to create DKG session" (createSession "dkg" operators sessionTimestamp (dkg_now env));
  sm_defer (cleanupSession sessionTimestamp) (dkg_body env sessionTimestamp operators).
End NodeRun.
Arguments event {_}.
Arguments DkgEnv {_}.
