(* ===== verification/NodeReshare.v ===== *)
(** * Protocol runs, part two: the reshare runs of [pkg/node/node.go]

    [RunReshareAsExistingOperator] deals from the active share and finalizes as a recipient;
    [RunReshareAsNewOperator] only receives.  Both derive the dealer set from the chain,
    check every dealer's source version against its on-chain hash, keep the dealers on the
    majority version and fetch what they miss. *)

From S2P Require Import Prelude Bytes Types Fr Gnark Crypto KeyStore Persistence Session Merkle Dkg Reshare NodeCore AutoHeal NodeOps Agreement Messages NodeRun.

Section NodeReshare.
Context `{Gnark} `{SigLib} `{MerkleLib} `{FrText Fr} `{EthAddr} {P : Type} `{INodePersistence Fr P}.

Notation M := (SM (Node Fr P)).

Record ReshareEnv := mkReshareEnv {
  rs_fetched : res (list (option OperatorSetPeer));
  rs_now : Z;
  rs_rnd : nat -> option Fr;
  rs_query : option (OperatorSetPeer -> res (list G2Point));
  rs_shares_batch : list event;
  rs_commitments_batch : list event;
  rs_acks_batch : list event;
  rs_verify_batch : list event;
  rs_sign : bytes -> res bytes;
  rs_submit : nat -> res unit;
  rs_chain : ChainView;
  rs_finalize_time : Z;
  rs_agree_batch : list event;
  rs_transport : OperatorSetPeer -> nat -> res AuthenticatedMessage;
  rs_decode : bytes -> res ShareMessage;
  rs_mpk_respond : OperatorSetPeer -> res (option G2Point);
  rs_mpk_order : gmap bytes (list G2Point) -> list bytes
}.

(** The entries of the allowed dealers: the count functions and the copies of the session maps. *)
Definition from_dealers {V} (allowed : gset Address) (m : gmap Address V) : gmap Address V :=
  filter (fun '(addr, _) => addr ∈ allowed) m.

Definition count_shares (allowed : gset Address) (s : ProtocolSession Fr) : Z := Z.of_nat (size (from_dealers allowed (shares s))).
Definition count_commitments (allowed : gset Address) (s : ProtocolSession Fr) : Z :=
  Z.of_nat (size (from_dealers allowed (commitments s))).

(** ** Agreement and assembly, shared by both runs *)

Definition commitments_by_dealer (session : ProtocolSession Fr) (dealers : list Address) : gmap Address (list G2Point) :=
  foldl (fun m dealer => <[dealer := default [] (GetCommitmentsFor session dealer)]> m) ∅ dealers.

(** The wording of the errors of the two runs. *)
Definition abort_prefix (joining : bool) : string := if joining then "new-operator reshare aborted" else "reshare aborted".
Definition operator_suffix (joining : bool) : string := if joining then " (new operator)" else "".

(** Every agreed dealer's share: held, or fetched and verified. *)
Definition collect_share (joining : bool) (env : ReshareEnv) (self : Address) (resharer : Reshare.Reshare) (session : ProtocolSession Fr)
    (trustedShares : gmap Address Fr) (dealer : Address) (finalShares : gmap Address Fr) : res (gmap Address Fr) :=
  match trustedShares !! dealer with
  | Some share => Ok (<[dealer := share]> finalShares)
  | None =>
      share ← wrap (abort_prefix joining +:+ ": missing verified share for agreed dealer %s")
        (fetchAndVerifyReshareShare self resharer session dealer (rs_transport env) (rs_decode env));
      Ok (<[dealer := share]> finalShares)
  end.

Definition collect_shares (joining : bool) (env : ReshareEnv) (self : Address) (resharer : Reshare.Reshare) (session : ProtocolSession Fr)
    (trustedShares : gmap Address Fr) (agreedDealers : list Address) : res (gmap Address Fr) :=
  for_each (collect_share joining env self resharer session trustedShares) agreedDealers ∅.

(** [required] is the threshold of the new set; the check on the raw set is made by the
    existing-operator run only. *)
Definition select_dealers (joining : bool) (required : Z) (session : ProtocolSession Fr)
    (agreed : list Address * gmap Address bytes) : res (list Address * Z) :=
  let '(agreedDealers, onChainHashes) := agreed in
  _ ← fail_if (negb joining && (Z.of_nat (length agreedDealers) <? required)) "agreed dealer set too small: got %d on-chain submitters, need %d; will retry next interval";
  let observedSourceVersions := GetSourceVersions session in
  let commitmentsByDealer := commitments_by_dealer session agreedDealers in
  let '(verifiedDealers, verifiedSourceVersions) :=
    Reshare.VerifyDealerSourceVersions agreedDealers onChainHashes commitmentsByDealer observedSourceVersions in
  _ ← fail_if (Z.of_nat (length verifiedDealers) <? required) ("verified reshare dealer set too small" +:+ operator_suffix joining +:+ ": %d of %d on-chain submitters verified, need %d; will retry next interval");
  wrap (abort_prefix joining) (Reshare.SelectMajoritySourceVersion verifiedDealers verifiedSourceVersions required).

(** The refreshed version both runs build from the agreed dealers' shares. *)
Definition refreshed_version (joining : bool) (resharer : Reshare.Reshare) (operators : list OperatorSetPeer) (ts : Z) (dealers : list Address)
    (finalShares : gmap Address Fr) (mpk : option G2Point) : res (KeyShareVersion Fr) :=
  v ← wrap (if joining then "failed to compute new operator key share" else "failed to compute refreshed key share") (Reshare.ComputeNewKeyShare resharer dealers finalShares []);
  Ok (mkKeyShareVersion ts (PrivateShare v) (Commitments v) mpk true (sessionParticipantIDs operators)).

(** ** [RunReshareAsExistingOperator] *)

Record dealt := mkDealt {
  dl_operators : list OperatorSetPeer;
  dl_numNew : Z;
  dl_threshold : Z;
  dl_resharer : Reshare.Reshare;
  dl_sourceVersion : Z;
  dl_shares : gmap Address Fr;
  dl_commitments : list G2Point
}.

(** Up to the generation of the shares: nothing is changed. *)
Definition reshare_prepare (env : ReshareEnv) (self : Address) (ks : KeyStore Fr) : res dealt :=
  operators ← wrap "failed to fetch operators for reshare" (fetchCurrentOperators (rs_fetched env));
  let numNewOperators := countNewOperatorsInSet ks (rs_query env) operators in
  _ ← fail_if ((numNewOperators <? 0) || (numNewOperators >=? Z.of_nat (length operators))) "numNewOperators %d out of range [0, %d)";
  _ ← fail_if (negb (in_operators self operators)) "this operator %s not found in reshare operator set";
  _ ← match GetActiveVersion ks with
      | Some activeVersion => wrap "reshare operator set validation failed" (validateReshareOperatorOverlap (ParticipantIDs activeVersion) operators)
      | None => Ok tt
      end;
  let newThreshold := CalculateThreshold (Z.of_nat (length operators)) in
  currentShare ← GetActivePrivateShare ks;
  sourceVersion ← from_opt "panic: nil pointer dereference" (Version <$> GetActiveVersion ks);
  '(r, shares, commitments) ← Reshare.GenerateNewShares (rs_rnd env) (Reshare.NewReshare self operators) (Some currentShare) newThreshold;
  Ok (mkDealt operators numNewOperators newThreshold r sourceVersion shares commitments).

(** Store, broadcast, retain, send, and wait for a threshold of the existing operators. *)
Definition reshare_phase1 (env : ReshareEnv) (ts : Z) (dl : dealt) : M unit :=
  n ← sm_get;
  let self := OperatorAddress_ n in
  let operators := dl_operators dl in
  _ ← store_own ts (dl_shares dl) (dl_commitments dl) (dl_sourceVersion dl);
  _ ← sm_modify (emit [BroadcastReshareCommitments (OperatorAddress <$> operators) (dl_commitments dl) ts (dl_sourceVersion dl)]);
  _ ← on_session ts (SetMyGeneratedShares (dl_shares dl));
  _ ← sm_modify (retainGeneratedShares ts (dl_shares dl));
  _ ← sm_modify (emit (omap (fun op => if OperatorAddress op =? self then None else
         (fun share => SendReshareShare (OperatorAddress op) share ts) <$> dl_shares dl !! OperatorAddress op) operators));
  let onChainOpIDs := op_addrs operators in
  let existingOperators := Z.of_nat (length operators) - dl_numNew dl in
  let requiredContributions := CalculateThreshold existingOperators in
  _ ← wait ts (rs_shares_batch env) (fun s => waitForN s requiredContributions (count_shares onChainOpIDs));
  _ ← wait ts (rs_commitments_batch env) (fun s => waitForN s requiredContributions (count_commitments onChainOpIDs));
  _ ← on_session ts (with_phase 2);
  save_session ts.

(** Phase 1b: verify and acknowledge; invalid shares leave the session; wait for the
    acknowledgements, one fewer being enough after the timeout. *)
Definition reshare_phase1b (env : ReshareEnv) (ts : Z) (dl : dealt) : M (gmap Address Fr) :=
  session ← the_session ts;
  n ← sm_get;
  let self := OperatorAddress_ n in
  let operators := dl_operators dl in
  let onChainOpIDs := op_addrs operators in
  let receivedShares := from_dealers onChainOpIDs (shares session) in
  let receivedCommitments := from_dealers onChainOpIDs (commitments session) in
  let is_valid := fun '(dealerAddr, share) =>
      Reshare.VerifyNewShare (dl_resharer dl) (Some share) (default [] (receivedCommitments !! dealerAddr)) = true in
  let validShares := filter is_valid receivedShares in
  _ ← sm_modify (emit ((fun ack => SendReshareAcknowledgement ack (DealerAddress ack) ts) <$>
         acks_for (rs_sign env) self operators ts validShares receivedCommitments));
  let invalidDealers := dom (filter (fun x => ~ is_valid x) receivedShares) in
  _ ← on_session ts (fun s => with_shares (filter (fun '(a, _) => a ∉ invalidDealers) (shares s)) (sharesComplete s) s);
  let requiredAcks := if dl_threshold dl <? 0 then 0 else dl_threshold dl in
  _ ← sm_modify (handle_events ts (rs_acks_batch env));
  session ← the_session ts;
  _ ← sm_lift match waitForAcks session self requiredAcks with
      | Ok _ => Ok tt
      | Err e =>
          let fallbackRequired := if requiredAcks - 1 <? 1 then 1 else requiredAcks - 1 in
          if acks_received session self >=? fallbackRequired then Ok tt
          else wrap "insufficient reshare acknowledgements" (Err e)
      end;
  mret validShares.

(** Phases 2 to 4. *)
Definition reshare_phase2 (env : ReshareEnv) (ts : Z) (dl : dealt) : M unit :=
  session ← the_session ts;
  n ← sm_get;
  let self := OperatorAddress_ n in
  let myAcks := my_acks self session in
  _ ← (if (length myAcks =? 0)%nat then sm_fail "no acknowledgements collected as dealer in reshare" else mret tt);
  tree ← sm_lift (wrap "failed to build merkle tree in reshare" (BuildAcknowledgementMerkleTree myAcks));
  myCommitments ← sm_lift (from_opt "my commitments not found in reshare" (commitments session !! self));
  let onChainCommitmentHash := HashReshareCommitment myCommitments (dl_sourceVersion dl) in
  merkleTree ← sm_lift (from_opt "panic: nil pointer dereference" tree);
  _ ← sm_wrap "failed to submit commitment in reshare after retries"
        (submitCommitmentWithRetry (rs_submit env) ts onChainCommitmentHash (Root merkleTree));
  _ ← on_session ts (with_submitted (HashCommitment myCommitments) true);
  _ ← sm_modify (emit [BroadcastCommitmentsWithProofs (OperatorAddress <$> dl_operators dl) ts myCommitments myAcks (Root merkleTree)]);
  _ ← wait_verifications ts (rs_verify_batch env);
  mret tt.

(** Agree on the dealers and assemble their shares. *)
Definition reshare_agree (joining : bool) (env : ReshareEnv) (ts triggerBlock : Z) (operators : list OperatorSetPeer) (resharer : Reshare.Reshare)
    (expected : option (list Address)) (required : Z) (trusted : gmap Address Fr) : M (list Address * Z * gmap Address Fr) :=
  n ← sm_get;
  agreed ← sm_lift (wrap ("failed to derive agreed dealer set" +:+ operator_suffix joining)
    (deriveAgreedDealerSet (rs_chain env) (ChainID n) (keyStore n) operators ts triggerBlock expected (rs_finalize_time env)));
  _ ← sm_modify (handle_events ts (rs_agree_batch env));
  session ← the_session ts;
  '(dealers, srcVersion) ← sm_lift (select_dealers joining required session agreed);
  finalShares ← sm_lift (collect_shares joining env (OperatorAddress_ n) resharer session trusted dealers);
  mret (dealers, srcVersion, finalShares).

(** The master key carried forward, validated against the dealers' commitments; a failed
    validation is counted for auto-heal. *)
Definition validate_mpk (ts : Z) (dealers : list Address) (sourceVersion srcVersion : Z) : M (option G2Point) :=
  n ← sm_get;
  match GetActiveVersion (keyStore n) with
  | None => mret None
  | Some currentVersion =>
      match MasterPublicKey currentVersion with
      | None => sm_fail "reshare aborted: active version %d has nil MasterPublicKey; cannot validate reshare (check DKG log for a commitments error); will retry next interval"
      | Some mpk =>
          session ← the_session ts;
          match Reshare.ValidateReshareMasterPublicKey dealers (commitments_by_dealer session dealers) (Some mpk) with
          | Ok _ => mret (Some mpk)
          | Err e =>
              _ ← sm_modify (onMPKValidationAbort sourceVersion srcVersion);
              sm_lift (wrap "reshare aborted: post-reshare MPK validation failed" (Err e))
          end
      end
  end.

(** Phase 5. *)
Definition reshare_finalize (env : ReshareEnv) (ts triggerBlock : Z) (dl : dealt) (validShares : gmap Address Fr) : M unit :=
  session ← the_session ts;
  n ← sm_get;
  let verifiedOps := {[OperatorAddress_ n]} ∪ verified_ops session in
  let trustedShares := trustedDealerIDs validShares verifiedOps in
  '(dealers, srcVersion, finalShares) ← reshare_agree false env ts triggerBlock (dl_operators dl) (dl_resharer dl) None (dl_threshold dl) trustedShares;
  newKeyVersion ← sm_lift (refreshed_version false (dl_resharer dl) (dl_operators dl) ts dealers finalShares None);
  mpk ← validate_mpk ts dealers (dl_sourceVersion dl) srcVersion;
  _ ← commit_version "failed to persist reshare key share version"
    (mkKeyShareVersion (Version newKeyVersion) (PrivateShare newKeyVersion) (Commitments newKeyVersion) mpk true (ParticipantIDs newKeyVersion));
  sm_modify (recordSuccessfulReshare srcVersion).

Definition reshare_body (env : ReshareEnv) (ts triggerBlock : Z) (dl : dealt) : M unit :=
  _ ← save_session ts;
  _ ← reshare_phase1 env ts dl;
  validShares ← reshare_phase1b env ts dl;
  _ ← reshare_phase2 env ts dl;
  reshare_finalize env ts triggerBlock dl validShares.

Definition RunReshareAsExistingOperator (env : ReshareEnv) (sessionTimestamp triggerBlock : Z) : M unit :=
  n ← sm_get;
  dl ← sm_lift (reshare_prepare env (OperatorAddress_ n) (keyStore n));
  _ ← sm_wrap "failed to create reshare session" (createSession "reshare" (dl_operators dl) sessionTimestamp (rs_now env));
  _ ← on_session sessionTimestamp (with_trigger triggerBlock);
  sm_defer (cleanupSession sessionTimestamp) (reshare_body env sessionTimestamp triggerBlock dl).

(** ** [RunReshareAsNewOperator] *)

(** The operators that report a key. *)
Definition reports_key (answer : res (list G2Point)) : bool :=
  match answer with Ok commitments => (0 <? length commitments)%nat | Err _ => false end.

Definition existing_operators (transport : option (OperatorSetPeer -> res (list G2Point))) (operators : list OperatorSetPeer) : gset Address :=
  match transport with
  | None => ∅
  | Some query => list_to_set (OperatorAddress <$> filter (fun op => reports_key (query op) = true) operators)
  end.

(** Wait for a threshold of the existing operators, then verify in operator order and
    acknowledge. *)
Definition join_receive (env : ReshareEnv) (ts : Z) (operators : list OperatorSetPeer) (existingOpIDs : gset Address)
    (numNewOperators : Z) (resharer : Reshare.Reshare) : M (gmap Address Fr) :=
  n ← sm_get;
  let self := OperatorAddress_ n in
  let existingOperators := Z.of_nat (length operators) - numNewOperators in
  let requiredContributions := CalculateThreshold existingOperators in
  _ ← sm_wrap "failed to receive shares" (wait ts (rs_shares_batch env) (fun s => waitForN s requiredContributions (count_shares existingOpIDs)));
  _ ← sm_wrap "failed to receive commitments" (wait ts (rs_commitments_batch env) (fun s => waitForN s requiredContributions (count_commitments existingOpIDs)));
  session ← the_session ts;
  let receivedShares := from_dealers existingOpIDs (shares session) in
  let receivedCommitments := from_dealers existingOpIDs (commitments session) in
  let valid := omap (fun op =>
      let dealerAddr := OperatorAddress op in
      share ← receivedShares !! dealerAddr;
      commitments ← receivedCommitments !! dealerAddr;
      if (length commitments =? 0)%nat then None else
      if Reshare.VerifyNewShare resharer (Some share) commitments then Some (dealerAddr, share, commitments) else None) operators in
  _ ← sm_modify (emit ((fun '(dealerAddr, share, commitments) =>
        SendReshareAcknowledgement (CreateAcknowledgement self dealerAddr ts share commitments (signAcknowledgement (rs_sign env)))
          dealerAddr ts) <$> valid));
  mret (foldl (fun m '(dealerAddr, share, _) => <[dealerAddr := share]> m) ∅ valid).

Definition join_finalize (env : ReshareEnv) (ts triggerBlock : Z) (operators : list OperatorSetPeer) (existingOpIDs : gset Address)
    (resharer : Reshare.Reshare) (validShares : gmap Address Fr) : M unit :=
  session ← the_session ts;
  n ← sm_get;
  let trustedShares := trustedDealerIDs validShares (verified_ops session) in
  let requiredShares := CalculateThreshold (Z.of_nat (length operators)) in
  '(dealers, _, finalShares) ← reshare_agree true env ts triggerBlock operators resharer
     (Some (existingOperatorDealers operators existingOpIDs)) requiredShares trustedShares;
  _ ← (if Z.of_nat (length dealers) <? requiredShares
       then sm_fail "insufficient verified shares for new-operator finalize: got %d, need %d" else mret tt);
  let mpk := match fetchMPKFromPeers (OperatorAddress_ n) operators (rs_mpk_respond env) (rs_mpk_order env) with
             | Ok mpk => Some mpk
             | Err _ => None
             end in
  newKeyVersion ← sm_lift (refreshed_version true resharer operators ts dealers finalShares mpk);
  commit_version "failed to persist first key share version" newKeyVersion.

Definition join_body (env : ReshareEnv) (ts triggerBlock : Z) (operators : list OperatorSetPeer) (existingOpIDs : gset Address)
    (numNewOperators : Z) (resharer : Reshare.Reshare) : M unit :=
  _ ← save_session ts;
  validShares ← join_receive env ts operators existingOpIDs numNewOperators resharer;
  _ ← wait_verifications ts (rs_verify_batch env);
  join_finalize env ts triggerBlock operators existingOpIDs resharer validShares.

Definition RunReshareAsNewOperator (env : ReshareEnv) (sessionTimestamp triggerBlock : Z) : M unit :=
  n ← sm_get;
  operators ← sm_lift (wrap "failed to fetch operators" (fetchCurrentOperators (rs_fetched env)));
  let existingOpIDs := existing_operators (rs_query env) operators in
  let numNewOperators := Z.of_nat (length operators) - Z.of_nat (size existingOpIDs) in
  _ ← (if (numNewOperators <? 1) || (numNewOperators >=? Z.of_nat (length operators))
       then sm_fail "numNewOperators %d out of range [1, %d)" else mret tt);
  let resharer := Reshare.NewReshare (OperatorAddress_ n) operators in
  _ ← sm_wrap "failed to create reshare session" (createSession "reshare" operators sessionTimestamp (rs_now env));
  sm_defer (cleanupSession sessionTimestamp) (join_body env sessionTimestamp triggerBlock operators existingOpIDs numNewOperators resharer).
End NodeReshare.
Arguments ReshareEnv {_}.
