(* ===== verification/RunFacts.v ===== *)
(** * What the protocol runs guarantee

    [quiet ts n n'] says that a step left alone everything a run may only change when it
    commits: the key store, the abort counter, the persisted versions, the active pointer
    and the node state; and that the session [ts] only grew.  Every step before the
    commit is quiet (hint database [quiet]), so the theorems of [DkgRunFacts.v] and
    [ReshareRunFacts.v] reduce to the commit itself and to what the last phase computed:
    [reaches], [steps] and [run_outcome] compose the facts of the phases. *)

From S2P Require Import Prelude Bytes Types Fr Gnark Crypto KeyStore Persistence Session Merkle Dkg Reshare NodeCore AutoHeal NodeOps Agreement Messages NodeRun NodeReshare.

Section Quiet.
Context `{Gnark} `{SigLib} `{MerkleLib} `{FrText Fr} `{EthAddr} {P : Type} `{PersistenceLaws Fr P}.
Implicit Types (n : Node Fr P).

Notation M := (SM (Node Fr P)).

Record quiet (ts : Z) n n' : Prop := {
  q_self : OperatorAddress_ n' = OperatorAddress_ n;
  q_chain : ChainID n' = ChainID n;
  q_ks : keyStore n' = keyStore n;
  q_tracker : tracker n' = tracker n;
  q_active : GetActiveVersionTimestamp (pers n') = GetActiveVersionTimestamp (pers n);
  q_versions x : LoadKeyShareVersion x (pers n') = LoadKeyShareVersion x (pers n);
  q_state : LoadNodeState (pers n') = LoadNodeState (pers n);
  q_session s : getSession n ts = Some s ->
    exists s', getSession n' ts = Some s' /\ commitments s ⊆ commitments s' /\ Operators s' = Operators s
}.

#[export] Instance quiet_preorder ts : PreOrder (quiet ts).
Proof.
  split.
  - intros n. split; try done. eauto.
  - intros n1 n2 n3 [A1 A2 A3 A4 A5 A6 A7 A8] [B1 B2 B3 B4 B5 B6 B7 B8]. split; try congruence.
    intros s Hs. destruct (A8 s Hs) as (s' & Hs' & Hc & Ho). destruct (B8 s' Hs') as (s'' & Hs'' & Hc' & Ho').
    exists s''. split_and!; [done|by etransitivity|congruence].
Qed.

Definition quiet_m {A} (ts : Z) (m : M A) : Prop := forall n, quiet ts n (m n).1.

Lemma quiet_bind {A B} ts (m : M A) (f : A -> M B) : quiet_m ts m -> (forall a, quiet_m ts (f a)) -> quiet_m ts (m ≫= f).
Proof.
  intros Hm Hf n. unfold mbind, sm_bind. specialize (Hm n). destruct (m n) as [n1 [a|e]]; cbn in *; [|done].
  etransitivity; [exact Hm|]. apply Hf.
Qed.

Lemma quiet_ret {A} ts (a : A) : quiet_m ts (mret a : M A).
Proof. intros n. done. Qed.
Lemma quiet_lift {A} ts (r : res A) : quiet_m ts (sm_lift r).
Proof. intros n. done. Qed.
Lemma quiet_fail {A} ts e : quiet_m ts (sm_fail (A := A) e).
Proof. intros n. done. Qed.
Lemma quiet_get ts : quiet_m ts sm_get.
Proof. intros n. done. Qed.
Lemma quiet_wrap {A} ts msg (m : M A) : quiet_m ts m -> quiet_m ts (sm_wrap msg m).
Proof. intros Hm n. specialize (Hm n). unfold sm_wrap. by destruct (m n). Qed.
Lemma quiet_modify ts (f : Node Fr P -> Node Fr P) : (forall n, quiet ts n (f n)) -> quiet_m ts (sm_modify f).
Proof. done. Qed.
Lemma quiet_if {A} ts (b : bool) (m m' : M A) : quiet_m ts m -> quiet_m ts m' -> quiet_m ts (if b then m else m').
Proof. by destruct b. Qed.

Lemma quiet_emit ts es n : quiet ts n (emit es n).
Proof. split; try done. eauto. Qed.

(** Updating the run's own session. *)
Lemma quiet_alter ts f n : (forall s, commitments s ⊆ commitments (f s) /\ Operators (f s) = Operators s) ->
  quiet ts n (set_sessions (alter f ts (activeSessions n)) n).
Proof.
  intros Hf. split; try done. intros s Hs. exists (f s). split; [|apply Hf].
  unfold getSession in *. cbn. by rewrite lookup_alter_eq, Hs.
Qed.

Lemma quiet_insert ts s s' n : getSession n ts = Some s -> commitments s ⊆ commitments s' -> Operators s' = Operators s ->
  quiet ts n (set_sessions (<[ts := s']> (activeSessions n)) n).
Proof.
  intros Hs Hc Ho. split; try done. intros x Hx. exists s'. unfold getSession in *. cbn. rewrite lookup_insert_eq.
  assert (x = s) as -> by congruence. done.
Qed.

Lemma deliver_grows s (d : delivery Fr) : commitments s ⊆ commitments (deliver s d) /\ Operators (deliver s d) = Operators s.
Proof.
  unfold deliver. destruct d as [a x|a cs sv|dealer player ack]; cbn [try_handle].
  - unfold HandleReceivedShare. by destruct (shares s !! a).
  - unfold HandleReceivedCommitment. destruct (length cs =? 0)%nat; [done|]. destruct (commitments s !! a) eqn:Hc; [done|].
    split; [|done]. cbn. by apply insert_subseteq.
  - unfold HandleReceivedAck. by destruct (default ∅ (acks s !! dealer) !! player).
Qed.

Lemma quiet_event ts n e : quiet ts n (handle_event ts n e).
Proof.
  destruct e as [d|bc]; cbn [handle_event].
  - destruct (getSession n ts) as [s|] eqn:Hs; [|done]. destruct (deliver_grows s d) as [Hc Ho]. by eapply quiet_insert.
  - unfold VerifyOperatorBroadcast. destruct (getSession n ts) as [s|] eqn:Hs; [|done].
    destruct (check_broadcast _ _ _); [|done]. by eapply quiet_insert.
Qed.

Lemma quiet_events ts es n : quiet ts n (handle_events ts es n).
Proof.
  unfold handle_events. revert n. induction es as [|e es IH]; intros n; cbn [foldl]; [done|].
  etransitivity; [apply quiet_event|apply IH].
Qed.

Lemma quiet_save ts : quiet_m ts (save_session ts).
Proof.
  intros n. cbn. destruct (getSession n ts) as [s|]; [|done].
  destruct (try_pers_cases (saveSession (Some s)) n) as [(p & Hp & ->)| ->]; [|done].
  apply save_session_frame in Hp as (Ha & Hst & Hv). split; try done. eauto.
Qed.

Lemma quiet_retain ts t sh n : quiet ts n (retainGeneratedShares t sh n).
Proof. unfold retainGeneratedShares. destruct (evict _ _). split; try done. eauto. Qed.

Lemma quiet_submit ts submit epoch h r : quiet_m ts (submitCommitmentWithRetry (P := P) submit epoch h r).
Proof. intros n. unfold submitCommitmentWithRetry. destruct (submit_attempts _ _ _ _). apply quiet_emit. Qed.

Lemma quiet_on_session ts f : (forall s, commitments s ⊆ commitments (f s) /\ Operators (f s) = Operators s) ->
  quiet_m ts (on_session (P := P) ts f).
Proof. intros Hf n. by apply quiet_alter. Qed.
End Quiet.

Create HintDb quiet.
#[export] Hint Resolve quiet_bind quiet_ret quiet_lift quiet_fail quiet_get quiet_wrap quiet_if quiet_save quiet_submit : quiet.
#[export] Hint Extern 1 (quiet_m _ (on_session _ (fun _ => deliver _ _))) => (apply quiet_on_session; intros; apply deliver_grows) : quiet.
#[export] Hint Extern 2 (quiet_m _ (on_session _ _)) => (apply quiet_on_session; intros; done) : quiet.
#[export] Hint Extern 1 (quiet_m _ (sm_modify (emit _))) => (intros ?; apply quiet_emit) : quiet.
#[export] Hint Extern 1 (quiet_m _ (sm_modify (handle_events _ _))) => (intros ?; apply quiet_events) : quiet.
#[export] Hint Extern 1 (quiet_m _ (sm_modify (retainGeneratedShares _ _))) => (intros ?; apply quiet_retain) : quiet.

(** Runs through a step of a run. *)
Ltac quietly :=
  repeat first
    [ apply quiet_ret | apply quiet_lift | apply quiet_fail | apply quiet_get | apply quiet_save | apply quiet_submit
    | apply quiet_wrap | apply quiet_if
    | apply quiet_bind; [|intros ?]
    | match goal with |- quiet_m _ (match ?x with _ => _ end) => destruct x end
    | solve [eauto with quiet] ].

(** ** The steps before the commit *)

Section Steps.
Context `{Gnark} `{SigLib} `{MerkleLib} `{FrText Fr} `{EthAddr} {P : Type} `{PersistenceLaws Fr P}.
Implicit Types (n : Node Fr P).

Lemma quiet_store_own ts sh cs sv : quiet_m (P := P) ts (store_own ts sh cs sv).
Proof. unfold store_own. quietly. Qed.
Hint Resolve quiet_store_own : quiet.

Lemma quiet_the_session ts : quiet_m (P := P) ts (the_session ts).
Proof. unfold the_session. quietly. Qed.
Hint Resolve quiet_the_session : quiet.

Lemma quiet_wait ts es test : quiet_m (P := P) ts (wait ts es test).
Proof. unfold wait. quietly. Qed.
Lemma quiet_wait_verifications ts es : quiet_m (P := P) ts (wait_verifications ts es).
Proof. unfold wait_verifications. quietly. Qed.
Hint Resolve quiet_wait quiet_wait_verifications : quiet.

Lemma quiet_dkg_phase1 env ts ops : quiet_m (P := P) ts (dkg_phase1 env ts ops).
Proof. unfold dkg_phase1. quietly. Qed.
Lemma quiet_dkg_phase2 env ts ops d : quiet_m (P := P) ts (dkg_phase2 env ts ops d).
Proof. unfold dkg_phase2. quietly. Qed.
Lemma quiet_dkg_phase3 env ts ops cs : quiet_m (P := P) ts (dkg_phase3 env ts ops cs).
Proof. unfold dkg_phase3. quietly. Qed.
Lemma quiet_reshare_phase1 env ts dl : quiet_m (P := P) ts (reshare_phase1 env ts dl).
Proof. unfold reshare_phase1. quietly. Qed.
Lemma quiet_reshare_phase1b env ts dl : quiet_m (P := P) ts (reshare_phase1b env ts dl).
Proof. unfold reshare_phase1b. quietly. Qed.
Lemma quiet_reshare_phase2 env ts dl : quiet_m (P := P) ts (reshare_phase2 env ts dl).
Proof. unfold reshare_phase2. quietly. Qed.
Lemma quiet_reshare_agree j env ts tb ops r ex req tr : quiet_m (P := P) ts (reshare_agree j env ts tb ops r ex req tr).
Proof. unfold reshare_agree. quietly. Qed.
Lemma quiet_join_receive env ts ops ex k r : quiet_m (P := P) ts (join_receive env ts ops ex k r).
Proof. unfold join_receive. quietly. Qed.
End Steps.

(** ** The commit *)

Section Commit.
Context `{Gnark} {P : Type} `{PersistenceLaws Fr P}.
Implicit Types (n : Node Fr P) (v : KeyShareVersion Fr).

(** The key state before and after a run that did not commit. *)
Definition untouched n n' : Prop :=
  keyStore n' = keyStore n /\ tracker n' = tracker n /\ GetActiveVersionTimestamp (pers n') = GetActiveVersionTimestamp (pers n).

(** The key state after a commit of [v]: the store has it, behind the persistence layer. *)
Definition published v n n' : Prop :=
  keyStore n' = AddVersion (alloc v (keyStore n)).1 (alloc v (keyStore n)).2 /\
  GetActiveVersionTimestamp (pers n') = Ok (Version v) /\ LoadKeyShareVersion (Version v) (pers n') = Ok (Some v).

(** Other persisted versions keep their value. *)
Definition others_kept ts n n' : Prop :=
  forall x, x <> ts -> LoadKeyShareVersion x (pers n') = LoadKeyShareVersion x (pers n).

Lemma commit_version_spec what v n : let '(n', r) := commit_version what v n in
  others_kept (Version v) n n' /\ (r = Ok tt -> published v n n' /\ tracker n' = tracker n /\ activeSessions n' = activeSessions n) /\
  (r <> Ok tt -> untouched n n').
Proof.
  unfold commit_version, mbind, sm_bind, sm_get, sm_lift, sm_modify.
  destruct (SaveKeyShareVersion v (pers n)) as [p|e] eqn:Hs; cbn [wrap]; [|unfold others_kept, untouched; by split_and!].
  destruct (save_key_frame _ _ _ Hs) as (Ha & _ & _).
  assert (Hv : forall x, LoadKeyShareVersion x p = if decide (x = Version v) then Ok (Some v) else LoadKeyShareVersion x (pers n))
    by (intros x; by apply save_key_load).
  destruct (SetActiveVersionTimestamp (Version v) p) as [p'|e] eqn:Hp; cbn [wrap].
  - destruct (set_active_frame _ _ _ Hp) as (_ & Hl & _). unfold others_kept, published, alloc. cbn. split_and!; [| |by intros []].
    + intros x Hx. by rewrite Hl, Hv, decide_False.
    + intros _. split; [|done]. split_and!; [done|by eapply set_active_get|]. by rewrite Hl, Hv, decide_True.
  - unfold others_kept, untouched. cbn. split_and!; [|done|done]. intros x Hx. by rewrite Hv, decide_False.
Qed.

Lemma cleanup_spec ts n : let n' := cleanupSession ts n in
  keyStore n' = keyStore n /\ tracker n' = tracker n /\ getSession n' ts = None /\
  GetActiveVersionTimestamp (pers n') = GetActiveVersionTimestamp (pers n) /\ LoadNodeState (pers n') = LoadNodeState (pers n) /\
  (forall x, LoadKeyShareVersion x (pers n') = LoadKeyShareVersion x (pers n)).
Proof.
  unfold cleanupSession. set (n1 := set_sessions _ n).
  assert (Hs : getSession n1 ts = None) by (unfold getSession; apply lookup_delete_eq).
  destruct (try_pers_cases (DeleteProtocolSession ts) n1) as [(p & Hp & ->)| ->]; [|done].
  apply delete_session_frame in Hp as (Ha & Hst & Hv). done.
Qed.

(** What a published version means for the store. *)
Lemma published_active v n n' : ks_inv (keyStore n) -> IsActive v = true -> published v n n' ->
  GetActiveVersion (keyStore n') = Some v /\ contents (keyStore n') = (contents (keyStore n) ++ [set_IsActive false v])%list /\
  ks_inv (keyStore n') /\ poisoned (keyStore n') = poisoned (keyStore n).
Proof.
  intros Hi Hv (-> & _). destruct (contents_add v _ Hi) as (Hc & _ & Hp). split_and!; [|done|by apply add_inv|done].
  unfold AddVersion, alloc. cbn [fst snd].
  cbn [with_objs objs]. unfold obj at 1. cbn [objs]. rewrite lookup_app_r, Nat.sub_diag by done. cbn [lookup list_lookup]. rewrite Hv.
  unfold GetActiveVersion, point_active. cbn [activeVersion mbind option_bind]. unfold obj; cbn [objs].
  unfold unflag_active. cbn [activeVersion with_objs keyVersions pendingVersion poisoned].
  destruct (activeVersion (keyStore n)) as [a|] eqn:Ha; cbn [set_flag with_objs objs].
  - destruct (inv_active _ Hi a Ha) as [Hk _]. apply (inv_stored _ Hi) in Hk. apply fresh_loc in Hk.
    rewrite list_lookup_alter_ne by done. by rewrite lookup_app_r, Nat.sub_diag.
  - by rewrite lookup_app_r, Nat.sub_diag.
Qed.
End Commit.

(** ** Running to the commit *)

Section Composition.
Context `{Gnark} `{SigLib} `{MerkleLib} `{FrText Fr} `{EthAddr} {P : Type} `{PersistenceLaws Fr P}.
Implicit Types (n : Node Fr P).

Notation M := (SM (Node Fr P)).

(** A run's body either stops in a quiet step, or gets quietly to a node [n1] from which
    it ends the way [F] says. *)
Definition reaches {A} (ts : Z) (F : Node Fr P -> Node Fr P * res A -> Prop) n (o : Node Fr P * res A) : Prop :=
  (quiet ts n o.1 /\ exists e, o.2 = Err e) \/ exists n1, quiet ts n n1 /\ F n1 o.

(** It commits a version [Q] accepts. *)
Definition commits (what : string) (Q : Node Fr P -> KeyShareVersion Fr -> Prop) n1 (o : Node Fr P * res unit) : Prop :=
  exists v, Q n1 v /\ o = commit_version what v n1.

(** A quiet step with a fact [R] about its successful result. *)
Definition steps {A} (ts : Z) (m : M A) n (R : Node Fr P -> A -> Prop) : Prop :=
  quiet ts n (m n).1 /\ forall n' a, m n = (n', Ok a) -> R n' a.

Lemma reaches_bind {A B} ts F (m : M A) (f : A -> M B) n (R : Node Fr P -> A -> Prop) :
  steps ts m n R -> (forall n' a, quiet ts n n' -> R n' a -> reaches ts F n' (f a n')) -> reaches ts F n ((m ≫= f) n).
Proof.
  intros [Hq HR] Hf. unfold mbind, sm_bind. destruct (m n) as [n1 [a|e]] eqn:Hm; cbn in Hq.
  - destruct (Hf n1 a Hq (HR _ _ eq_refl)) as [[Hq' He]|(n2 & Hq' & HF)].
    + left. split; [by etransitivity|done].
    + right. exists n2. split; [by etransitivity|done].
  - left. split; [done|]. eauto.
Qed.

Lemma steps_quiet {A} ts (m : M A) n : quiet_m ts m -> steps ts m n (fun _ _ => True).
Proof. intros Hm. split; [apply Hm|done]. Qed.

Lemma steps_get ts n : steps ts sm_get n (fun n' a => n' = n /\ a = n).
Proof. split; [done|]. by intros n' a [= <- <-]. Qed.

Lemma steps_lift {A} ts (r : res A) n : steps ts (sm_lift r) n (fun n' a => n' = n /\ r = Ok a).
Proof. split; [done|]. by intros n' a [= <- ->]. Qed.

Lemma steps_session ts n : steps ts (the_session ts) n (fun n' s => n' = n /\ getSession n ts = Some s).
Proof.
  split; [apply quiet_the_session|]. intros n' s. unfold the_session, mbind, sm_bind, sm_get, sm_lift.
  destruct (getSession n ts); [|done]. by intros [= <- ->].
Qed.

Lemma steps_check ts (b : bool) msg n : steps ts (if b then sm_fail msg else mret tt) n (fun n' _ => n' = n /\ b = false).
Proof. destruct b; (split; [done|]); [done|]. by intros n' a [= <- _]. Qed.

Lemma steps_check' ts (b : bool) msg n : steps ts (if b then mret tt else sm_fail msg) n (fun n' _ => n' = n /\ b = true).
Proof. destruct b; (split; [done|]); [|done]. by intros n' a [= <- _]. Qed.

Lemma steps_bind {A B} ts (m : M A) (f : A -> M B) n (R : Node Fr P -> A -> Prop) (R' : Node Fr P -> B -> Prop) :
  steps ts m n R -> (forall n' a, quiet ts n n' -> R n' a -> steps ts (f a) n' R') -> steps ts (m ≫= f) n R'.
Proof.
  intros [Hq HR] Hf. unfold steps, mbind, sm_bind. destruct (m n) as [n1 [a|e]] eqn:Hm; cbn in *.
  - destruct (Hf n1 a Hq (HR _ _ eq_refl)) as [Hq' HR']. split; [by etransitivity|done].
  - split; [done|]. done.
Qed.

Lemma steps_ret {A} ts (a : A) n (R : Node Fr P -> A -> Prop) : R n a -> steps ts (mret a) n R.
Proof. intros HR. split; [done|]. by intros n' a' [= <- <-]. Qed.

Lemma reaches_commit ts what v n (Q : Node Fr P -> KeyShareVersion Fr -> Prop) : Q n v ->
  reaches ts (commits what Q) n (commit_version what v n).
Proof. intros HQ. right. exists n. split; [done|]. by exists v. Qed.

(** The key state of a node, as the end of a run leaves it. *)
Definition same_keys n n' : Prop :=
  keyStore n' = keyStore n /\ tracker n' = tracker n /\ GetActiveVersionTimestamp (pers n') = GetActiveVersionTimestamp (pers n) /\
  forall x, LoadKeyShareVersion x (pers n') = LoadKeyShareVersion x (pers n).

#[export] Instance same_keys_preorder : PreOrder same_keys.
Proof.
  split; [done|]. intros n1 n2 n3 (A1 & A2 & A3 & A4) (B1 & B2 & B3 & B4). split_and!; congruence.
Qed.

Lemma quiet_same_keys ts n n' : quiet ts n n' -> same_keys n n'.
Proof. by intros []. Qed.

Lemma same_keys_cleanup ts n : same_keys n (cleanupSession ts n).
Proof. destruct (cleanup_spec ts n) as (? & ? & _ & ? & _ & ?). by split_and!. Qed.

Lemma same_keys_others ts n n' : same_keys n n' -> others_kept ts n n' /\ untouched n n'.
Proof. intros (? & ? & ? & Hl). split; [intros x _; apply Hl|by split_and!]. Qed.

(** The commit of a run, from the quiet node it is made at. *)
Lemma commits_spec what Q n n1 o : same_keys n n1 -> commits what Q n1 o ->
  exists v, Q n1 v /\ others_kept (Version v) n o.1 /\ (o.2 <> Ok tt -> untouched n o.1) /\
    (o.2 = Ok tt -> published v n o.1 /\ tracker o.1 = tracker n).
Proof.
  intros (Ek & Et & Ea & El) (v & HQ & ->). exists v. split; [done|].
  pose proof (commit_version_spec what v n1) as Hs. destruct (commit_version what v n1) as [n' r]. cbn [fst snd].
  destruct Hs as (So & Sok & Serr). unfold others_kept, untouched, published in *. rewrite Ek, Et, Ea in *. setoid_rewrite El in So.
  split_and!; [done|done|]. intros Hr. by destruct (Sok Hr) as (? & ? & _).
Qed.

(** From a body to the run: the session is cleaned up on every exit. *)
Lemma run_outcome (ts : Z) F (body : M unit) n n0 : same_keys n n0 -> reaches ts F n0 (body n0) ->
  let '(n', r) := sm_defer (cleanupSession ts) body n0 in getSession n' ts = None /\
  ((same_keys n n' /\ exists e, r = Err e) \/
   exists n1 n2, quiet ts n0 n1 /\ same_keys n n1 /\ F n1 (n2, r) /\ same_keys n2 n').
Proof.
  intros Hk Hb. unfold sm_defer. destruct (body n0) as [n2 r].
  split; [by destruct (cleanup_spec ts n2) as (_ & _ & ? & _)|].
  pose proof (same_keys_cleanup ts n2) as Hc. destruct Hb as [[Hq [e He]]|(n1 & Hq & HF)]; cbn in *; subst.
  - left. split; [|eauto]. etransitivity; [exact Hk|]. etransitivity; [by eapply quiet_same_keys|done].
  - right. exists n1, n2. split_and!; [done| |done|done]. etransitivity; [exact Hk|]. by eapply quiet_same_keys.
Qed.

(** [createSession] on a fetched operator list: it cannot fail, and touches no key state. *)
Lemma createSession_ok ty ops ts now n : NoDup (OperatorAddress <$> ops) ->
  createSession ty ops ts now n = (set_sessions (<[ts := newSession ty ops ts now]> (activeSessions n)) n, Ok tt).
Proof.
  intros Hnd. unfold createSession, validateOperatorSetNoDuplicates.
  assert (Hv : no_duplicates_from ∅ (Some <$> ops) = Ok tt) by (apply no_duplicates_spec; exists ops; split_and!; [done|done|set_solver]).
  rewrite Hv. done.
Qed.

Lemma fetch_nodup fetched ops : fetchCurrentOperators fetched = Ok ops -> NoDup (OperatorAddress <$> ops).
Proof. intros (l & _ & Hnd & ->)%fetch_ok. unfold sort_peers. by rewrite go_sort_perm. Qed.
End Composition.

(** One quiet statement of a run. *)
Ltac step_quiet := eapply steps_bind; [apply steps_quiet; solve [quietly]|intros ? ? ? _].
