(* ===== verification/DkgRunFacts.v ===== *)
(** * What a key generation run guarantees

    A failed run leaves the key state as it was; a successful one publishes exactly one
    version, already persisted, which is the finalization of a verified execution of the
    protocol in the sense of [Dkg.v]. *)

From S2P Require Import Prelude Bytes Types Fr Gnark Crypto KeyStore Persistence Session Merkle Dkg Reshare NodeCore AutoHeal NodeOps Agreement Messages NodeRun RunFacts.

(** ** [RunDKG] *)

Section RunDKG.
Context `{Gnark} `{SigLib} `{MerkleLib} `{FrText Fr} `{EthAddr} {P : Type} `{PersistenceLaws Fr P}.
Implicit Types (n : Node Fr P).

#[local] Hint Resolve quiet_store_own quiet_the_session quiet_wait quiet_wait_verifications quiet_dkg_phase1 quiet_dkg_phase2 quiet_dkg_phase3 : quiet.

Lemma GenerateShares_fields rnd d d' sh cs : GenerateShares rnd d = Ok (d', sh, cs) ->
  nodeAddress d' = nodeAddress d /\ threshold d' = threshold d.
Proof. unfold GenerateShares. intros (p & _ & (c & _ & [= <- _ _])%res_bind_ok)%res_bind_ok. done. Qed.

Lemma dkg_phase1_steps env ts ops n : steps ts (dkg_phase1 env ts ops) n (fun _ '(d, _) =>
  nodeAddress d = OperatorAddress_ n /\ threshold d = CalculateThreshold (Z.of_nat (length ops)) /\ OperatorAddress_ n ∈ OperatorAddress <$> ops).
Proof.
  unfold dkg_phase1. eapply steps_bind; [apply steps_get|]. intros ? ? _ [-> ->].
  eapply steps_bind; [apply steps_check'|]. intros n2 u _ [-> Hin]. apply bool_decide_eq_true in Hin.
  eapply steps_bind; [apply steps_lift|]. intros n3 [[d sh] cs] _ [-> Hg]. apply GenerateShares_fields in Hg as [Ha Ht].
  do 6 step_quiet. apply steps_ret. done.
Qed.

Lemma dkg_phase2_steps env ts ops d n : steps ts (dkg_phase2 env ts ops d) n (fun _ valid =>
  exists s, getSession n ts = Some s /\
    forall a share, valid !! a = Some share -> exists cs, commitments s !! a = Some cs /\ VerifyShare d (Some share) cs = true).
Proof.
  unfold dkg_phase2. eapply steps_bind; [apply steps_session|]. intros n1 s _ [-> Hs].
  do 5 step_quiet. apply steps_ret. exists s. split; [done|]. intros dealer share Hd.
  apply map_lookup_filter_Some in Hd as [_ Hv]. destruct (commitments s !! dealer) as [cs|]; [eauto|done].
Qed.

(** The version a run may publish: its dealers' shares are verified against the session's
    commitments, and there are at least the threshold of them. *)
Definition dkg_version_ok (ts : Z) (ops : list OperatorSetPeer) (n1 : Node Fr P) (v : KeyShareVersion Fr) : Prop :=
  exists d cs dealers s, v = dkg_key_version d ts cs dealers /\
    nodeAddress d = OperatorAddress_ n1 /\ threshold d = CalculateThreshold (Z.of_nat (length ops)) /\
    threshold d <= Z.of_nat (length dealers) /\ getSession n1 ts = Some s /\
    NoDup ((fun '(a, _, _) => a) <$> dealers) /\
    forall a share comm, (a, share, comm) ∈ dealers ->
      a ∈ OperatorAddress <$> ops /\ commitments s !! a = Some comm /\ VerifyShare d (Some share) comm = true.

Lemma trusted_dealers_addrs ops trusted (comms : gmap Address (list G2Point)) :
  ((fun '(a, _, _) => a) <$> trusted_dealers ops trusted comms) `sublist_of` (OperatorAddress <$> ops).
Proof.
  unfold trusted_dealers. induction ops as [|op ops IH]; [done|]. cbn [omap list_omap].
  destruct (trusted !! OperatorAddress op) as [x|]; cbn; [destruct (comms !! OperatorAddress op) as [c|]; cbn|];
    by constructor.
Qed.

Lemma trusted_dealers_in ops trusted (comms : gmap Address (list G2Point)) a x c : (a, x, c) ∈ trusted_dealers ops trusted comms ->
  a ∈ OperatorAddress <$> ops /\ trusted !! a = Some x /\ comms !! a = Some c.
Proof.
  unfold trusted_dealers. intros (op & Hop & Hx)%list_elem_of_omap.
  apply bind_Some in Hx as (y & Hy & Hx). apply bind_Some in Hx as (z & Hz & [= <- <- <-]).
  split_and!; [by apply list_elem_of_fmap_2|done|done].
Qed.

Lemma dkg_body_reaches env ts ops n : NoDup (OperatorAddress <$> ops) ->
  reaches ts (commits "failed to persist key share version" (dkg_version_ok ts ops)) n (dkg_body env ts ops n).
Proof.
  intros Hnd. unfold dkg_body. eapply reaches_bind; [apply steps_quiet, quiet_save|]. intros n1 [] Hq1 _.
  eapply reaches_bind; [apply dkg_phase1_steps|]. intros n2 [d cs] Hq2 (Hself & Ht & _).
  eapply reaches_bind; [apply dkg_phase2_steps|]. intros n3 valid Hq3 (s2 & Hs2 & Hvalid).
  eapply reaches_bind; [apply steps_quiet, quiet_dkg_phase3|]. intros n4 [] Hq4 _.
  unfold dkg_finalize. eapply reaches_bind; [apply steps_session|]. intros n5 s _ [-> Hs].
  eapply reaches_bind; [apply steps_get|]. intros n5 ? _ [-> ->].
  set (dealers := trusted_dealers _ _ _).
  eapply reaches_bind; [apply steps_check|]. intros n5 [] _ [-> Hlen].
  apply reaches_commit. exists d, cs, dealers, s. split_and!; try done.
  - by rewrite Hself, (q_self _ _ _ Hq4), (q_self _ _ _ Hq3), (q_self _ _ _ Hq2).
  - lia.
  - eapply sublist_NoDup; [exact Hnd|apply trusted_dealers_addrs].
  - intros a share comm Hin. apply trusted_dealers_in in Hin as (Ha & Hsh & Hc). split_and!; [done|done|].
    apply map_lookup_filter_Some in Hsh as [Hsh _]. destruct (Hvalid a share Hsh) as (cs2 & Hcs2 & Hv).
    destruct (q_session _ _ _ (transitivity Hq3 Hq4) s2 Hs2) as (s' & Hs' & Hgrow & _).
    assert (s' = s) as -> by congruence. eapply lookup_weaken in Hcs2; [|exact Hgrow]. congruence.
Qed.

(** Tables built by a loop of assignments with distinct keys. *)
Lemma foldl_table {A V} (key : A -> Address) (val : A -> V) (l : list A) (m : gmap Address V) : NoDup (key <$> l) ->
  foldl (fun m x => <[key x := val x]> m) m l = list_to_map ((fun x => (key x, val x)) <$> l) ∪ m.
Proof.
  revert m. induction l as [|x l IH]; intros m Hnd; [by rewrite fmap_nil, list_to_map_nil, (left_id_L ∅ (∪))|].
  rewrite fmap_cons in Hnd. rewrite fmap_cons. apply NoDup_cons in Hnd as [Hx Hnd]. cbn [foldl]. rewrite IH by done.
  rewrite list_to_map_cons, <- insert_union_l, insert_union_r; [done|].
  apply not_elem_of_list_to_map. rewrite <- list_fmap_compose. exact Hx.
Qed.

Lemma foldl_same {A B} (f g : B -> A -> B) (l : list A) b : (forall b a, f b a = g b a) -> foldl f b l = foldl g b l.
Proof. intros Hfg. revert b. induction l as [|a l IH]; intros b; cbn [foldl]; [done|]. by rewrite Hfg, IH. Qed.

Lemma table_lookup {A V} (key : A -> Address) (val : A -> V) (l : list A) a y : NoDup (key <$> l) ->
  (list_to_map ((fun x => (key x, val x)) <$> l) : gmap Address V) !! a = Some y <-> exists x, x ∈ l /\ key x = a /\ val x = y.
Proof.
  intros Hnd. rewrite <- elem_of_list_to_map by (by rewrite <- list_fmap_compose). rewrite list_elem_of_fmap.
  split; [intros (x & [= -> ->] & Hx); eauto|intros (x & Hx & <- & <-); eauto].
Qed.

Lemma threshold_nonneg (k : Z) : 0 <= k -> 0 <= CalculateThreshold k.
Proof. intros Hk. unfold CalculateThreshold. apply Z.quot_pos; lia. Qed.

(** What a publishable version is made of, in the vocabulary of [Dkg.v]. *)
Lemma dkg_version_run ts ops n1 v : dkg_version_ok ts ops n1 v ->
  exists d comms shares all ids, let t := Z.to_nat (CalculateThreshold (Z.of_nat (length ops))) in
    nodeAddress d = OperatorAddress_ n1 /\ dkg_run t comms d shares /\ all ≡ₚ (map_to_list comms).*2 /\
    (t <= size comms)%nat /\ (forall a, is_Some (comms !! a) -> a ∈ OperatorAddress <$> ops) /\
    Version v = ts /\ PrivateShare v = PrivateShare (FinalizeKeyShare d shares all ids) /\
    MasterPublicKey v = head (Commitments (FinalizeKeyShare d shares all ids)) /\ IsActive v = true /\ ParticipantIDs v = ids.
Proof.
  intros (d & cs & dealers & s & -> & Hself & Ht & Hlen & Hs & Hnd & Hin).
  set (key := fun x : Address * Fr * list G2Point => x.1.1).
  assert (Hkey : (fun '(a, _, _) => a) <$> dealers = key <$> dealers) by (apply list_fmap_ext; by intros ? [[]]).
  rewrite Hkey in Hnd.
  exists d, (list_to_map ((fun x => (key x, x.2)) <$> dealers)), (list_to_map ((fun x => (key x, x.1.2)) <$> dealers)),
    ((fun '(_, _, comm) => comm) <$> dealers), ((fun '(a, _, _) => a) <$> dealers).
  assert (Hfin : foldl (fun m '(a, share, _) => <[a := share]> m) (∅ : gmap Address Fr) dealers = list_to_map ((fun x => (key x, x.1.2)) <$> dealers)).
  { rewrite <- (right_id_L ∅ (∪) (list_to_map _ : gmap Address Fr)), <- foldl_table by done. apply foldl_same. by intros ? [[]]. }
  cbv zeta. unfold dkg_key_version. rewrite Hfin. cbn [Version PrivateShare MasterPublicKey IsActive ParticipantIDs].
  split_and!; try done.
  - split.
    + rewrite Ht, Z2Nat.id; [done|]. apply threshold_nonneg. lia.
    + intros a. split; intros [y Hy]; apply table_lookup in Hy as (x & Hx & Ha & _); try done;
        [exists x.2|exists x.1.2]; apply table_lookup; eauto.
    + intros a sh cm Hsh Hcm. apply table_lookup in Hsh as ([[b y] c] & Hx & <- & <-); [|done].
      apply table_lookup in Hcm as ([[b' y'] c'] & Hx' & Hb & <-); [|done]. cbn in *. subst b'.
      destruct (Hin _ _ _ Hx) as (_ & Hc1 & Hv), (Hin _ _ _ Hx') as (_ & Hc2 & _). rewrite Hc1 in Hc2. by injection Hc2 as <-.
  - rewrite map_to_list_to_map by (by rewrite <- list_fmap_compose). rewrite <- list_fmap_compose.
    erewrite list_fmap_ext; [reflexivity|]. by intros ? [[]].
  - rewrite map_size_list_to_map by (by rewrite <- list_fmap_compose). rewrite length_fmap. lia.
  - intros a [y Hy]. apply table_lookup in Hy as ([[b z] c] & Hx & <- & _); [|done]. by destruct (Hin _ _ _ Hx).
Qed.

(** A run that succeeds has published one version, the outcome of its own dealers. *)
Lemma run_dkg_publishes (env : DkgEnv) (ts : Z) (n : Node Fr P) :
  let '(n', r) := RunDKG env ts n in
  others_kept ts n n' /\ (r <> Ok tt -> untouched n n') /\
  (r = Ok tt -> getSession n' ts = None /\ exists ops v n1, fetchCurrentOperators (dkg_fetched env) = Ok ops /\
     OperatorAddress_ n1 = OperatorAddress_ n /\ dkg_version_ok ts ops n1 v /\ published v n n').
Proof.
  unfold RunDKG. unfold mbind at 1, sm_bind at 1, sm_lift at 1.
  destruct (fetchCurrentOperators (dkg_fetched env)) as [ops|e] eqn:Hf; cbn [wrap]; [|unfold others_kept, untouched; by split_and!].
  pose proof (fetch_nodup _ _ Hf) as Hnd. unfold mbind, sm_bind, sm_wrap. rewrite createSession_ok by done. cbn [wrap].
  set (n0 := set_sessions _ n). assert (Hk0 : same_keys n n0) by done.
  pose proof (run_outcome ts _ (dkg_body env ts ops) n n0 Hk0 (dkg_body_reaches env ts ops n0 Hnd)) as Ho.
  destruct (sm_defer _ _ n0) as [n' r]. destruct Ho as (Hg & [[Hk [e ->]]|(n1 & n2 & Hq & Hk & Hc & Hend)]).
  { destruct (same_keys_others ts _ _ Hk). by split_and!. }
  apply (commits_spec _ _ n) in Hc as (v & HQ & Ho & Her & Hok); [|done]. cbn [fst snd] in *.
  destruct (dkg_version_run _ _ _ _ HQ) as (d & comms & shares & all & ids & Hd). cbv zeta in Hd.
  destruct Hd as (_ & _ & _ & _ & _ & Hv & _). rewrite Hv in Ho.
  destruct Hend as (E1 & E2 & E3 & E4). unfold others_kept, untouched, published in *. rewrite E1, E2, E3. setoid_rewrite E4.
  split_and!; [done|done|]. intros Hr. split; [done|]. destruct (Hok Hr) as [Hp _].
  exists ops, v, n1. split_and!; [done|apply (q_self _ _ _ Hq)|done|apply Hp..].
Qed.

(** C5: A key generation run commits all or nothing: if it fails, at whatever step and
    whatever the other operators sent, the key store, the abort counter and the persisted
    active pointer are as before; if it succeeds, exactly one new version, numbered by the
    session, is persisted, made the active one and published, the session is gone, and
    the version is the finalization of a verified execution of the protocol in which at
    least the threshold of the operators dealt: the end-to-end theorem on key generation
    applies to it, for the published key when the accepted commitment vectors have the
    threshold's length, which the run does not check. *)
Theorem run_dkg (env : DkgEnv) (ts : Z) (n : Node Fr P) :
  let '(n', r) := RunDKG env ts n in
  others_kept ts n n' /\ (r <> Ok tt -> untouched n n') /\
  (r = Ok tt -> getSession n' ts = None /\
     exists ops v d comms shares all ids, fetchCurrentOperators (dkg_fetched env) = Ok ops /\
       Version v = ts /\ IsActive v = true /\ published v n n' /\
       let t := Z.to_nat (CalculateThreshold (Z.of_nat (length ops))) in
       nodeAddress d = OperatorAddress_ n /\ dkg_run t comms d shares /\ all ≡ₚ (map_to_list comms).*2 /\
       (t <= size comms)%nat /\ (forall a, is_Some (comms !! a) -> a ∈ OperatorAddress <$> ops) /\
       PrivateShare v = PrivateShare (FinalizeKeyShare d shares all ids) /\
       MasterPublicKey v = head (Commitments (FinalizeKeyShare d shares all ids)) /\ ParticipantIDs v = ids).
Proof.
  pose proof (run_dkg_publishes env ts n) as Hp. destruct (RunDKG env ts n) as [n' r]. destruct Hp as (Ho & Her & Hok).
  split_and!; [done|done|]. intros Hr. destruct (Hok Hr) as (Hg & ops & v & n1 & Hf & Hself & Hv & Hp). split; [done|].
  destruct (dkg_version_run _ _ _ _ Hv) as (d & comms & shares & all & ids & Hd). cbv zeta in Hd.
  destruct Hd as (Hn & Hrun & Hall & Hsz & Hin & Hver & Hps & Hmpk & Hact & Hids). rewrite Hself in Hn.
  exists ops, v, d, comms, shares, all, ids. cbv zeta. by split_and!.
Qed.
End RunDKG.
