(* ===== verification/ReshareRunFacts.v ===== *)
(** * What the reshare runs guarantee

    The existing operator's run keeps the key state on failure, up to the auto-heal of a
    failed master key validation, and on success publishes a validated refresh of the
    served key; the joining operator's run publishes a refresh computed from the same
    dealer set, without that validation. *)

From S2P Require Import Prelude Bytes Types Fr Gnark Crypto KeyStore Persistence Session Merkle Dkg Reshare NodeCore AutoHeal NodeOps Agreement Messages NodeRun NodeReshare RunFacts.

(** ** The reshare runs *)

Section RunReshare.
Context `{GnarkLaws} `{SigLib} `{MerkleLib} `{FrText Fr} `{EthAddr} {P : Type} `{PersistenceLaws Fr P}.
Implicit Types (n : Node Fr P).

Notation M := (SM (Node Fr P)).

#[local] Hint Resolve quiet_store_own quiet_the_session quiet_wait quiet_wait_verifications quiet_reshare_phase1 quiet_reshare_phase1b
  quiet_reshare_phase2 quiet_reshare_agree quiet_join_receive : quiet.

(** Shares of some dealers, each verified against the session's commitments of its dealer. *)
Definition verified_shares (r : Reshare.Reshare) (s : ProtocolSession Fr) (shares : gmap Address Fr) : Prop :=
  forall a share, shares !! a = Some share -> exists cs, commitments s !! a = Some cs /\ Reshare.VerifyNewShare r (Some share) cs = true.

Lemma verified_grows r s s' sh : commitments s ⊆ commitments s' -> verified_shares r s sh -> verified_shares r s' sh.
Proof. intros Hs Hv a x Ha. destruct (Hv a x Ha) as (cs & Hc & Hx). exists cs. split; [by eapply lookup_weaken|done]. Qed.

Lemma GetCommitmentsFor_eq (s : ProtocolSession Fr) d : GetCommitmentsFor s d = commitments s !! d.
Proof.
  unfold GetCommitmentsFor. destruct (commitments s !! d) as [cs|]; [|done]. f_equal.
  induction cs as [|[c] cs IH]; [done|]. cbn. by rewrite IH.
Qed.

Lemma commitments_by_dealer_lookup s ds d :
  commitments_by_dealer s ds !! d = if decide (d ∈ ds) then Some (default [] (commitments s !! d)) else None.
Proof.
  unfold commitments_by_dealer. rewrite (lookup_foldl_insert (fun dealer => default [] (GetCommitmentsFor s dealer))).
  case_decide; [by rewrite GetCommitmentsFor_eq|apply lookup_empty].
Qed.

Lemma fetch_share_verified self r s d tr dec x : fetchAndVerifyReshareShare self r s d tr dec = Ok x ->
  exists cs, commitments s !! d = Some cs /\ Reshare.VerifyNewShare r (Some x) cs = true.
Proof.
  unfold fetchAndVerifyReshareShare. intros (? & _ & (? & _ & (? & _ & (? & _ & Hf)%res_bind_ok)%res_bind_ok)%res_bind_ok)%res_bind_ok.
  rewrite !fail_if_bind in Hf. destruct Hf as (_ & _ & Hf). apply res_bind_ok in Hf as (y & _ & Hf).
  rewrite !fail_if_bind in Hf. destruct Hf as (Hne & Hv & [= ->]).
  destruct (commitments s !! d) as [cs|]; [|done]. exists cs. split; [done|]. by apply negb_false_iff.
Qed.

Lemma collect_shares_ok j env self r s trusted D fin : verified_shares r s trusted ->
  collect_shares j env self r s trusted D = Ok fin ->
  verified_shares r s fin /\ forall d, d ∈ D -> is_Some (fin !! d).
Proof.
  intros Ht. unfold collect_shares. assert (Hgen : forall D acc, verified_shares r s acc ->
    for_each (collect_share j env self r s trusted) D acc = Ok fin ->
    verified_shares r s fin /\ (forall d, is_Some (acc !! d) \/ d ∈ D -> is_Some (fin !! d))).
  { clear D. induction D as [|d D IH]; intros acc Ha; cbn [for_each].
    - intros [= <-]. split; [done|]. intros d [Hd|Hd]; [done|by apply not_elem_of_nil in Hd].
    - intros (acc' & Hstep & Hrest)%res_bind_ok.
      assert (Hd : exists x, acc' = <[d := x]> acc /\ exists cs, commitments s !! d = Some cs /\ Reshare.VerifyNewShare r (Some x) cs = true).
      { unfold collect_share in Hstep. destruct (trusted !! d) as [x|] eqn:Hx.
        - injection Hstep as <-. exists x. split; [done|by apply Ht].
        - apply res_bind_ok in Hstep as (x & Hx' & [= <-]). apply wrap_ok in Hx'. exists x. split; [done|]. by eapply fetch_share_verified. }
      destruct Hd as (x & -> & Hx). destruct (IH (<[d := x]> acc)) as [Hv Hin]; [|done|].
      { intros a y. rewrite lookup_insert_Some. intros [[<- <-]|[_ Hy]]; [done|by apply Ha]. }
      split; [done|]. intros a Hor. apply Hin. rewrite lookup_insert_is_Some', elem_of_cons in *. naive_solver. }
  intros Hc. destruct (Hgen D ∅) as [Hv Hin]; [by intros a y; rewrite lookup_empty|done|]. split; [done|]. intros d Hd. apply Hin. by right.
Qed.

(** ** What a selection of dealers means *)

(** Dealers of one source version: their commitments and that version hash to their
    on-chain value. *)
Definition chain_dealers (hashes : gmap Address bytes) (src : Z) (s : ProtocolSession Fr) (D : list Address) : Prop :=
  forall d, d ∈ D -> exists h cs, hashes !! d = Some h /\ commitments s !! d = Some cs /\ cs <> [] /\ HashReshareCommitment cs src = h.

Lemma select_dealers_ok j required s agreed hashes D src : 0 < required ->
  select_dealers j required s (agreed, hashes) = Ok (D, src) ->
  D `sublist_of` agreed /\ required <= Z.of_nat (length D) /\ src <> 0 /\ chain_dealers hashes src s D.
Proof.
  intros Hreq. unfold select_dealers. rewrite fail_if_bind. intros [_ Hsel].
  pose proof (Reshare.VerifyDealerSourceVersions_spec hashes (commitments_by_dealer s agreed) (GetSourceVersions s) agreed) as Hv.
  destruct (Reshare.VerifyDealerSourceVersions _ _ _ _) as [ver vv]. cbn [fst snd] in Hv. destruct Hv as (Hsub & Hin & Hvv).
  rewrite fail_if_bind in Hsel. destruct Hsel as [_ Hsel]. apply wrap_ok in Hsel.
  apply Reshare.select_ok in Hsel as (Hsrc & -> & Hlen & _); [|done].
  split_and!; [by etransitivity; [apply sublist_filter|]|done|done|].
  intros d (Hd & Hver)%list_elem_of_filter. destruct (proj1 (Hin d) Hver) as (Hag & h & v & c & cs & Hh & Hsv & Hcs & Hhash).
  rewrite commitments_by_dealer_lookup, decide_True in Hcs by done.
  unfold Reshare.version_of in Hd. rewrite (proj2 (Hvv d v)) in Hd by done. cbn in Hd. subst v.
  exists h. destruct (commitments s !! d) as [x|]; cbn in Hcs; [|done]. injection Hcs as ->. eauto.
Qed.

(** Agreement and assembly. *)
Lemma reshare_agree_steps j env ts tb ops r ex req tr n :
  steps ts (reshare_agree j env ts tb ops r ex req tr) n (fun n' '(D, src, fin) => exists s agreed hashes,
    getSession n' ts = Some s /\
    deriveAgreedDealerSet (rs_chain env) (ChainID n) (keyStore n) ops ts tb ex (rs_finalize_time env) = Ok (agreed, hashes) /\
    select_dealers j req s (agreed, hashes) = Ok (D, src) /\
    collect_shares j env (OperatorAddress_ n) r s tr D = Ok fin).
Proof.
  unfold reshare_agree. eapply steps_bind; [apply steps_get|]. intros ? ? _ [-> ->].
  eapply steps_bind; [apply steps_lift|]. intros n1 [agreed hashes] _ [-> Hag]. apply wrap_ok in Hag.
  step_quiet. eapply steps_bind; [apply steps_session|]. intros n2 s _ [-> Hs].
  eapply steps_bind; [apply steps_lift|]. intros n3 [D src] _ [-> Hsel].
  eapply steps_bind; [apply steps_lift|]. intros n4 fin _ [-> Hfin].
  apply steps_ret. exists s, agreed, hashes. by split_and!.
Qed.

(** ** The refreshed version of a run *)

(** [v] is the refresh a node [self] computes from the dealers [D], all on source version
    [src]: derived from the chain, verified share by share, at least the threshold of the
    new operators. *)
Definition refreshes (env : ReshareEnv) (ts triggerBlock : Z) (ops : list OperatorSetPeer) (expected : option (list Address)) n
    (D : list Address) (src : Z) (comms : gmap Address (list G2Point)) (shares : gmap Address Fr) (v : KeyShareVersion Fr) : Prop :=
  let r := Reshare.NewReshare (OperatorAddress_ n) ops in
  (exists agreed hashes,
     deriveAgreedDealerSet (rs_chain env) (ChainID n) (keyStore n) ops ts triggerBlock expected (rs_finalize_time env) = Ok (agreed, hashes) /\
     D `sublist_of` agreed /\
     forall d, d ∈ D -> exists h cs, hashes !! d = Some h /\ comms !! d = Some cs /\ HashReshareCommitment cs src = h) /\
  src <> 0 /\ CalculateThreshold (Z.of_nat (length ops)) <= Z.of_nat (length D) /\
  Reshare.reshare_run D comms r shares /\
  (exists k, Reshare.ComputeNewKeyShare r D shares [] = Ok k /\ PrivateShare v = PrivateShare k /\ Commitments v = Commitments k) /\
  Version v = ts /\ IsActive v = true /\ ParticipantIDs v = sessionParticipantIDs ops.

Lemma refreshes_same env ts tb ops ex n n' D src comms shares v : OperatorAddress_ n' = OperatorAddress_ n -> ChainID n' = ChainID n ->
  keyStore n' = keyStore n -> refreshes env ts tb ops ex n' D src comms shares v -> refreshes env ts tb ops ex n D src comms shares v.
Proof. unfold refreshes. by intros -> -> ->. Qed.

Lemma threshold_pos (k : Z) : 0 < k -> 0 < CalculateThreshold k.
Proof. intros Hk. unfold CalculateThreshold. apply Z.quot_str_pos. lia. Qed.

(** From the agreement to the refreshed version. *)
Lemma refreshed_ok j env ts tb ops ex n s agreed hashes D src tr fin mpk v r : (0 < length ops)%nat ->
  Reshare.nodeAddress r = OperatorAddress_ n -> verified_shares r s tr ->
  deriveAgreedDealerSet (rs_chain env) (ChainID n) (keyStore n) ops ts tb ex (rs_finalize_time env) = Ok (agreed, hashes) ->
  select_dealers j (CalculateThreshold (Z.of_nat (length ops))) s (agreed, hashes) = Ok (D, src) ->
  collect_shares j env (OperatorAddress_ n) r s tr D = Ok fin ->
  refreshed_version j r ops ts D fin mpk = Ok v ->
  refreshes env ts tb ops ex n D src (commitments_by_dealer s D) fin v /\ MasterPublicKey v = mpk.
Proof.
  intros Hops Hr Htr Hag Hsel Hfin Hv.
  apply select_dealers_ok in Hsel as (Hsub & Hlen & Hsrc & Hch); [|apply threshold_pos; lia].
  apply collect_shares_ok in Hfin as [Hver Hall]; [|done].
  unfold refreshed_version in Hv. apply res_bind_ok in Hv as (k & Hk & [= <-]). apply wrap_ok in Hk.
  assert (Hc : forall d cs, d ∈ D -> commitments s !! d = Some cs -> commitments_by_dealer s D !! d = Some cs).
  { intros d cs Hd Hcs. by rewrite commitments_by_dealer_lookup, decide_True, Hcs. }
  split; [|done]. unfold refreshes. cbv zeta. split_and!; try done.
  - exists agreed, hashes. split_and!; [done|done|]. intros d Hd. destruct (Hch d Hd) as (h & cs & Hh & Hcs & _ & Hhash). eauto 6.
  - intros d Hd. destruct (Hall d Hd) as [x Hx]. destruct (Hver d x Hx) as (cs & Hcs & Hvx). exists x, cs.
    split_and!; [done|by apply Hc|]. rewrite <- Hvx. unfold Reshare.VerifyNewShare. cbn. by rewrite Hr.
  - exists k. split_and!; [|done|done]. rewrite <- Hk. unfold Reshare.ComputeNewKeyShare. cbn. by rewrite Hr.
Qed.

(** ** [RunReshareAsExistingOperator] *)

Lemma reshare_prepare_ok env self (ks : KeyStore Fr) dl : reshare_prepare env self ks = Ok dl ->
  exists act, fetchCurrentOperators (rs_fetched env) = Ok (dl_operators dl) /\ GetActiveVersion ks = Some act /\
    self ∈ OperatorAddress <$> dl_operators dl /\ validateReshareOperatorOverlap (ParticipantIDs act) (dl_operators dl) = Ok tt /\
    dl_threshold dl = CalculateThreshold (Z.of_nat (length (dl_operators dl))) /\
    Reshare.nodeAddress (dl_resharer dl) = self /\ dl_sourceVersion dl = Version act.
Proof.
  unfold reshare_prepare. intros (ops & Hf & Hp)%res_bind_ok. apply wrap_ok in Hf.
  rewrite !fail_if_bind in Hp. destruct Hp as (_ & Hin & Hp). apply negb_false_iff, bool_decide_eq_true in Hin.
  apply res_bind_ok in Hp as ([] & Hov & Hp). apply res_bind_ok in Hp as (sh & _ & Hp).
  apply res_bind_ok in Hp as (sv & Hsv & Hp). apply res_bind_ok in Hp as ([[r shares] cs] & Hg & [= <-]).
  destruct (GetActiveVersion ks) as [act|]; cbn in Hsv; [|done]. injection Hsv as <-. apply wrap_ok in Hov.
  exists act. cbn. split_and!; try done. unfold Reshare.GenerateNewShares in Hg.
  apply res_bind_ok in Hg as ([] & _ & Hg). apply res_bind_ok in Hg as (rest & _ & Hg).
  apply res_bind_ok in Hg as (cs' & _ & [= <- _ _]). done.
Qed.

Lemma reshare_phase1b_steps env ts dl n : steps ts (reshare_phase1b env ts dl) n (fun _ valid => exists s,
  getSession n ts = Some s /\ verified_shares (dl_resharer dl) s valid).
Proof.
  unfold reshare_phase1b. eapply steps_bind; [apply steps_session|]. intros n1 s _ [-> Hs].
  eapply steps_bind; [apply steps_get|]. intros ? ? _ [-> ->].
  do 5 step_quiet. apply steps_ret. exists s. split; [done|]. intros dealer x Hx.
  apply map_lookup_filter_Some in Hx as [_ Hv]. cbn in Hv.
  destruct (from_dealers _ (commitments s) !! dealer) as [cs|] eqn:Hcs; cbn in Hv; [|done].
  apply map_lookup_filter_Some in Hcs as [Hcs _]. eauto.
Qed.

Lemma validate_mpk_cases ts D sv src n s act : GetActiveVersion (keyStore n) = Some act -> getSession n ts = Some s ->
  let check mpk := Reshare.ValidateReshareMasterPublicKey D (commitments_by_dealer s D) (Some mpk) in
  (exists e, validate_mpk ts D sv src n = (n, Err e) /\ MasterPublicKey act = None) \/
  exists mpk, MasterPublicKey act = Some mpk /\
    ((check mpk = Ok tt /\ validate_mpk ts D sv src n = (n, Ok (Some mpk))) \/
     (is_ok (check mpk) = false /\ exists e, validate_mpk ts D sv src n = (onMPKValidationAbort sv src n, Err e))).
Proof.
  intros Ha Hs. cbv zeta. unfold validate_mpk, the_session, mbind, sm_bind, sm_get, sm_lift, from_opt. rewrite Ha.
  destruct (MasterPublicKey act) as [mpk|]; [|by left; eauto]. right. exists mpk. split; [done|]. rewrite Hs.
  destruct (Reshare.ValidateReshareMasterPublicKey _ _ _) as [[]|e]; [by left|]. right. split; [done|]. by eexists.
Qed.

(** The two ways the run can leave the key state other than it was: the validation of the
    master key failed, or it passed and the refreshed version was committed. *)
Definition reshare_ends env ts tb (ops : list OperatorSetPeer) n1 (o : Node Fr P * res unit) : Prop :=
  exists act mpk D src comms shares v,
    GetActiveVersion (keyStore n1) = Some act /\ MasterPublicKey act = Some mpk /\
    refreshes env ts tb ops None n1 D src comms shares v /\
    let check := Reshare.ValidateReshareMasterPublicKey D comms (Some mpk) in
    (is_ok check = false /\ exists e, o = (onMPKValidationAbort (Version act) src n1, Err e)) \/
    (check = Ok tt /\ MasterPublicKey v = Some mpk /\
     o = ((commit_version "failed to persist reshare key share version" v : M unit) ≫= (fun _ => sm_modify (recordSuccessfulReshare src))) n1).

Lemma reshare_body_reaches env ts tb dl n act : (0 < length (dl_operators dl))%nat ->
  GetActiveVersion (keyStore n) = Some act -> dl_sourceVersion dl = Version act ->
  dl_threshold dl = CalculateThreshold (Z.of_nat (length (dl_operators dl))) ->
  Reshare.nodeAddress (dl_resharer dl) = OperatorAddress_ n ->
  reaches ts (reshare_ends env ts tb (dl_operators dl)) n (reshare_body env ts tb dl n).
Proof.
  intros Hops Hact Hsv Ht Hself. unfold reshare_body.
  eapply reaches_bind; [apply steps_quiet, quiet_save|]. intros n1 [] Hq1 _.
  eapply reaches_bind; [apply steps_quiet, quiet_reshare_phase1|]. intros n2 [] Hq2 _.
  eapply reaches_bind; [apply reshare_phase1b_steps|]. intros n3 valid Hq3 (s2 & Hs2 & Hvalid).
  eapply reaches_bind; [apply steps_quiet, quiet_reshare_phase2|]. intros n4 [] Hq4 _.
  unfold reshare_finalize. eapply reaches_bind; [apply steps_session|]. intros n5 s4 _ [-> Hs4].
  eapply reaches_bind; [apply steps_get|]. intros n5 ? _ [-> ->].
  eapply reaches_bind; [apply reshare_agree_steps|]. intros n5 [[D src] fin] Hq5 (s & agreed & hashes & Hs & Hag & Hsel & Hfin).
  eapply reaches_bind; [apply steps_lift|]. intros n6 v _ [-> Hv].
  pose proof (transitivity Hq1 (transitivity Hq2 (transitivity Hq3 (transitivity Hq4 Hq5)))) as Hq.
  set (tr := trustedDealerIDs valid _) in *.
  assert (Htr : verified_shares (dl_resharer dl) s tr).
  { destruct (q_session _ _ _ (transitivity Hq3 (transitivity Hq4 Hq5)) s2 Hs2) as (s' & Hs' & Hgrow & _).
    assert (s' = s) as -> by congruence. eapply verified_grows; [exact Hgrow|].
    intros a x Hx. apply map_lookup_filter_Some in Hx as [Hx _]. by apply Hvalid. }
  assert (Hr : refreshes env ts tb (dl_operators dl) None n5 D src (commitments_by_dealer s D) fin v /\ MasterPublicKey v = None).
  { rewrite Ht in Hsel. rewrite <- (q_chain _ _ _ Hq5), <- (q_ks _ _ _ Hq5) in Hag. rewrite <- (q_self _ _ _ Hq5) in Hfin.
    eapply refreshed_ok; [done| |exact Htr|exact Hag|exact Hsel|exact Hfin|exact Hv]. by rewrite Hself, (q_self _ _ _ Hq). }
  destruct Hr as [Hr _]. rewrite <- (q_ks _ _ _ Hq) in Hact.
  unfold mbind at 1, sm_bind at 1.
  destruct (validate_mpk_cases ts D (dl_sourceVersion dl) src n5 s act Hact Hs) as [(e & -> & _)|(mpk & Hm & [[Hc ->]|[Hc [e ->]]])].
  - left. split; [done|]. by exists e.
  - right. exists n5. split; [done|]. exists act, mpk, D, src, (commitments_by_dealer s D), fin. eexists. split_and!; [done|done| |right; split_and!; [exact Hc| |reflexivity]].
    + destruct Hr as (? & ? & ? & ? & ? & ? & ? & ?). by split_and!.
    + done.
  - right. exists n5. split; [done|]. exists act, mpk, D, src, (commitments_by_dealer s D), fin, v. split_and!; [done..|].
    left. split; [done|]. exists e. by rewrite Hsv.
Qed.

(** Auto-heal touches flags, the poisoned set, the active pointer and the node state; no
    share is lost or changed. *)
Lemma load_try_pers f n : (forall p p', f p = Ok p' -> forall x, LoadKeyShareVersion x p' = LoadKeyShareVersion x p) ->
  forall x, LoadKeyShareVersion x (pers (try_pers f n)) = LoadKeyShareVersion x (pers n).
Proof. intros Hf x. destruct (try_pers_cases f n) as [(p & Hp & ->)| ->]; [by apply Hf|done]. Qed.

Lemma load_persist_tracker n x : LoadKeyShareVersion x (pers (persistAbortTracker n)) = LoadKeyShareVersion x (pers n).
Proof. apply load_try_pers. intros p p' Hp. by apply save_state_frame in Hp as (_ & ? & _). Qed.

Lemma load_rollback v n x : LoadKeyShareVersion x (pers (performRollback v n)) = LoadKeyShareVersion x (pers n).
Proof.
  unfold performRollback. set (n1 := try_pers _ _).
  assert (Hl1 : LoadKeyShareVersion x (pers n1) = LoadKeyShareVersion x (pers n)).
  { subst n1. rewrite load_try_pers; [done|]. intros p p' Hp. by apply add_poisoned_frame in Hp as (_ & _ & ? & _). }
  destruct (ListKeyShareVersions (pers n1)) as [versions|]; [|done].
  destruct (rollbackTarget _ _ _ _) as [t|]; [|done]. destruct (SetActiveVersionByTimestamp _ _) as [ks|]; [|done].
  rewrite load_persist_tracker. cbn [pers set_tracker]. rewrite load_try_pers; [done|].
  intros p p' Hp. by apply set_active_frame in Hp as (_ & ? & _).
Qed.

Lemma abort_keeps sv src n : let n' := onMPKValidationAbort sv src n in
  (forall x, LoadKeyShareVersion x (pers n') = LoadKeyShareVersion x (pers n)) /\ contents (keyStore n') = contents (keyStore n).
Proof.
  unfold onMPKValidationAbort. destruct (recordMPKAbort _ _ _) as [demote t]. destruct demote.
  - split; [intros x; by rewrite load_rollback, load_persist_tracker|].
    assert (Hk : keyStore (persistAbortTracker (set_tracker t n)) = keyStore n) by apply (keyStore_try_pers _ (set_tracker t n)).
    destruct (rollback_outcomes sv (persistAbortTracker (set_tracker t n))) as [(-> & _)|(l & u & ks' & _ & Hact & -> & _)]; [by rewrite Hk|].
    rewrite (contents_activated _ _ _ Hact). by rewrite Hk.
  - split; [intros x; by rewrite load_persist_tracker|]. unfold persistAbortTracker. by rewrite keyStore_try_pers.
Qed.

Lemma success_keeps src n : let n' := recordSuccessfulReshare src n in
  keyStore n' = keyStore n /\ tracker n' = recordSuccess (tracker n) /\
  GetActiveVersionTimestamp (pers n') = GetActiveVersionTimestamp (pers n) /\
  forall x, LoadKeyShareVersion x (pers n') = LoadKeyShareVersion x (pers n).
Proof.
  unfold recordSuccessfulReshare. cbv zeta.
  match goal with |- context [try_pers ?f ?n] => destruct (try_pers_cases f n) as [(p & Hp & ->)| ->]; [|done] end.
  apply save_state_frame in Hp as (Ha & Hl & _). done.
Qed.

(** A run whose validation failed: the dealers it agreed on, with the commitments it
    received, imply another master key than the served one; one abort of the active version
    is counted, and at the threshold the rollback of [AutoHeal.v] runs. *)
Definition counted_abort env ts tb (ops : list OperatorSetPeer) n n' : Prop :=
  exists act mpk D src comms shares v, GetActiveVersion (keyStore n) = Some act /\ MasterPublicKey act = Some mpk /\
    refreshes env ts tb ops None n D src comms shares v /\
    is_ok (Reshare.ValidateReshareMasterPublicKey D comms (Some mpk)) = false /\
    exists n1, same_keys n n1 /\ LoadNodeState (pers n1) = LoadNodeState (pers n) /\
      same_keys (onMPKValidationAbort (Version act) src n1) n'.

Lemma reshare_outcome env ts tb ops n n1 o : same_keys n n1 -> LoadNodeState (pers n1) = LoadNodeState (pers n) ->
  OperatorAddress_ n1 = OperatorAddress_ n -> ChainID n1 = ChainID n -> reshare_ends env ts tb ops n1 o ->
  others_kept ts n o.1 /\
  (o.2 <> Ok tt -> untouched n o.1 \/ counted_abort env ts tb ops n o.1 /\ contents (keyStore o.1) = contents (keyStore n)) /\
  (o.2 = Ok tt -> exists act mpk D src comms shares v,
     GetActiveVersion (keyStore n) = Some act /\ MasterPublicKey act = Some mpk /\
     refreshes env ts tb ops None n D src comms shares v /\ Reshare.ValidateReshareMasterPublicKey D comms (Some mpk) = Ok tt /\
     MasterPublicKey v = Some mpk /\ published v n o.1 /\ tracker o.1 = recordSuccess (tracker n)).
Proof.
  intros Hk Hst Hself Hch (act & mpk & D & src & comms & shares & v & Hact & Hm & Hr & He).
  pose proof Hk as (Ek & _ & _ & El). rewrite Ek in Hact. apply refreshes_same with (n := n) in Hr; [|done..].
  destruct He as [[Hno [e ->]]|(Hc & Hv & ->)].
  - destruct (abort_keeps (Version act) src n1) as [Hl Hcont]. cbn [fst snd]. split_and!; [|intros _; right; split|done].
    + intros x _. by rewrite Hl, El.
    + exists act, mpk, D, src, comms, shares, v. split_and!; [done..|]. by exists n1.
    + by rewrite Hcont, Ek.
  - pose proof (commits_spec "failed to persist reshare key share version" (fun _ w => w = v) n n1 _ Hk
      (ex_intro _ v (conj eq_refl eq_refl))) as (w & -> & So & Serr & Sok).
    destruct Hr as (R1 & R2 & R3 & R4 & R5 & Hts & R7 & R8). rewrite Hts in So. unfold mbind, sm_bind.
    destruct (commit_version _ v n1) as [n2 [[]|e]]; cbn [fst snd] in *; [|by split_and!; [done|left; apply Serr|done]].
    destruct (success_keeps src n2) as (C1 & C2 & C3 & C4). destruct (Sok eq_refl) as [(P1 & P2 & P3) Ht].
    cbn. unfold others_kept, published. rewrite C1, C2, C3. setoid_rewrite C4. rewrite Ht. split_and!; [done|done|].
    intros _. exists act, mpk, D, src, comms, shares, v. by split_and!.
Qed.

(** C4: A reshare run of an existing operator either leaves the keys as they were, or
    publishes a refresh of the same key.  On failure no share is lost or changed, and either
    the key store, the active pointer and the abort counter are untouched, or the validation of the master key is what failed: the agreed dealers,
    with their commitments bound to the chain and their shares verified, imply another
    key than the served one; then one abort of the active version with their source
    version is counted, and only the auto-heal rollback may move the active pointer.  On
    success the one new version, persisted before it is published, has the served
    version's master public key, and its share is computed from at least a threshold of
    dealers of the on-chain dealer set, all on one source version bound to their
    commitments on the chain, every share verified, and the validation of the master key
    passed for exactly these commitments. *)
Theorem run_reshare_existing (env : ReshareEnv) (ts tb : Z) (n : Node Fr P) :
  let '(n', r) := RunReshareAsExistingOperator env ts tb n in
  others_kept ts n n' /\
  (r <> Ok tt -> untouched n n' \/
     (exists ops, fetchCurrentOperators (rs_fetched env) = Ok ops /\ counted_abort env ts tb ops n n') /\ contents (keyStore n') = contents (keyStore n)) /\
  (r = Ok tt -> getSession n' ts = None /\ exists ops act mpk D src comms shares v,
     fetchCurrentOperators (rs_fetched env) = Ok ops /\ GetActiveVersion (keyStore n) = Some act /\
     validateReshareOperatorOverlap (ParticipantIDs act) ops = Ok tt /\
     MasterPublicKey act = Some mpk /\ MasterPublicKey v = Some mpk /\
     refreshes env ts tb ops None n D src comms shares v /\
     Reshare.ValidateReshareMasterPublicKey D comms (Some mpk) = Ok tt /\
     published v n n' /\ tracker n' = recordSuccess (tracker n)).
Proof.
  unfold RunReshareAsExistingOperator. unfold mbind at 1, sm_bind at 1, sm_get at 1. unfold mbind at 1, sm_bind at 1, sm_lift at 1.
  destruct (reshare_prepare env _ (keyStore n)) as [dl|e] eqn:Hp; [|unfold others_kept, untouched; split_and!; auto; done].
  apply reshare_prepare_ok in Hp as (act & Hf & Hact & Hin & Hov & Ht & Hself & Hsv).
  pose proof (fetch_nodup _ _ Hf) as Hnd. unfold mbind, sm_bind, sm_wrap. rewrite createSession_ok by done. cbn [wrap].
  set (n0 := set_sessions _ n). unfold on_session, sm_modify. set (n00 := set_sessions _ n0).
  assert (Hk0 : same_keys n n00) by done.
  assert (Hops : (0 < length (dl_operators dl))%nat) by (destruct (dl_operators dl); [by apply not_elem_of_nil in Hin|cbn; lia]).
  pose proof (run_outcome ts _ (reshare_body env ts tb dl) n n00 Hk0 (reshare_body_reaches env ts tb dl n00 act Hops Hact Hsv Ht Hself)) as Ho.
  destruct (sm_defer _ _ n00) as [n' r]. destruct Ho as (Hg & [[Hk [e ->]]|(n1 & n2 & Hq & Hk & He & Hend)]).
  { destruct (same_keys_others ts _ _ Hk). split_and!; [done|by left|done]. }
  apply (reshare_outcome _ _ _ _ n) in He as (Ho & Her & Hok); [|done|apply (q_state _ _ _ Hq)|apply (q_self _ _ _ Hq)|apply (q_chain _ _ _ Hq)].
  cbn [fst snd] in *. pose proof Hend as (E1 & E2 & E3 & E4). unfold others_kept, untouched, published in *. rewrite E1, E2, E3. setoid_rewrite E4.
  split_and!; [done| |].
  - intros Hr. destruct (Her Hr) as [?|[(a1 & m1 & D1 & s1 & c1 & sh1 & v1 & ? & ? & ? & ? & n3 & ? & ? & Hsk) Hc]]; [by left|]. right. split; [|done].
    exists (dl_operators dl). split; [done|]. exists a1, m1, D1, s1, c1, sh1, v1. split_and!; [done..|]. exists n3. split_and!; [done..|]. by etransitivity.
  - intros Hr. split; [done|]. destruct (Hok Hr) as (act' & mpk & D & src & comms & shares & v & Ha & Hm & Href & Hc & Hv & (? & ? & ?) & Htr).
    rewrite Hact in Ha. injection Ha as <-. exists (dl_operators dl), act, mpk, D, src, comms, shares, v. by split_and!.
Qed.

(** ** [RunReshareAsNewOperator] *)

Lemma join_receive_steps env ts ops ex k r n : steps ts (join_receive env ts ops ex k r) n (fun n' valid => exists s,
  getSession n' ts = Some s /\ verified_shares r s valid).
Proof.
  unfold join_receive. eapply steps_bind; [apply steps_get|]. intros ? ? _ [-> ->].
  do 2 step_quiet. eapply steps_bind; [apply steps_session|]. intros n1 s _ [-> Hs].
  set (valid := omap _ ops). 
  eapply steps_bind with (R := fun n' _ => getSession n' ts = Some s).
  { split; [apply quiet_emit|]. by intros m u [= <- _]. }
  intros n2 u _ Hs2. apply steps_ret. exists s. split; [done|].
  assert (Hv : forall d x cs, (d, x, cs) ∈ valid -> commitments s !! d = Some cs /\ Reshare.VerifyNewShare r (Some x) cs = true).
  { intros d x cs (op & _ & Hop)%list_elem_of_omap. apply bind_Some in Hop as (y & _ & Hop). apply bind_Some in Hop as (cs' & Hcs & Hop).
    destruct (length cs' =? 0)%nat; [done|]. destruct (Reshare.VerifyNewShare r (Some y) cs') eqn:Hvy; [|done].
    injection Hop as <- <- <-. by apply map_lookup_filter_Some in Hcs as [? _]. }
  clearbody valid. assert (Hgen : forall m, verified_shares r s m ->
    verified_shares r s (foldl (fun m '(dealerAddr, share, _) => <[dealerAddr := share]> m) m valid)).
  { induction valid as [|[[d x] cs] valid IH]; intros m Hm; cbn [foldl]; [done|]. apply IH; [intros; apply Hv; by right|].
    intros dealer y [[<- <-]|[_ Hy]]%lookup_insert_Some; [|by apply Hm]. exists cs. apply Hv. by left. }
  apply Hgen. by intros dealer y ?%lookup_empty_Some.
Qed.

(** The master public key a joining node asks its peers for. *)
Definition peers_mpk env n (ops : list OperatorSetPeer) : option G2Point :=
  match fetchMPKFromPeers (OperatorAddress_ n) ops (rs_mpk_respond env) (rs_mpk_order env) with Ok mpk => Some mpk | Err _ => None end.

Definition joins env ts tb (ops : list OperatorSetPeer) n (v : KeyShareVersion Fr) : Prop :=
  exists D src comms shares,
    refreshes env ts tb ops (Some (existingOperatorDealers ops (existing_operators (rs_query env) ops))) n D src comms shares v /\
    MasterPublicKey v = peers_mpk env n ops.

Lemma join_body_reaches env ts tb ops k r n : (0 < length ops)%nat -> Reshare.nodeAddress r = OperatorAddress_ n ->
  reaches ts (commits "failed to persist first key share version" (joins env ts tb ops)) n
    (join_body env ts tb ops (existing_operators (rs_query env) ops) k r n).
Proof.
  intros Hops Hself. unfold join_body.
  eapply reaches_bind; [apply steps_quiet, quiet_save|]. intros n1 [] Hq1 _.
  eapply reaches_bind; [apply join_receive_steps|]. intros n2 valid Hq2 (s2 & Hs2 & Hvalid).
  eapply reaches_bind; [apply steps_quiet, quiet_wait_verifications|]. intros n3 u Hq3 _.
  unfold join_finalize. eapply reaches_bind; [apply steps_session|]. intros n4 s3 _ [-> Hs3].
  eapply reaches_bind; [apply steps_get|]. intros n4 ? _ [-> ->].
  eapply reaches_bind; [apply reshare_agree_steps|]. intros n4 [[D src] fin] Hq4 (s & agreed & hashes & Hs & Hag & Hsel & Hfin).
  eapply reaches_bind; [apply steps_check|]. intros n5 [] _ [-> _].
  eapply reaches_bind; [apply steps_lift|]. intros n6 v _ [-> Hv].
  pose proof (transitivity Hq1 (transitivity Hq2 (transitivity Hq3 Hq4))) as Hq.
  set (tr := trustedDealerIDs valid _) in *.
  assert (Htr : verified_shares r s tr).
  { destruct (q_session _ _ _ (transitivity Hq3 Hq4) s2 Hs2) as (s' & Hs' & Hgrow & _).
    assert (s' = s) as -> by congruence. eapply verified_grows; [exact Hgrow|].
    intros d x Hx. apply map_lookup_filter_Some in Hx as [Hx _]. by apply Hvalid. }
  rewrite <- (q_chain _ _ _ Hq4), <- (q_ks _ _ _ Hq4) in Hag. rewrite <- (q_self _ _ _ Hq4) in Hfin, Hv.
  eapply refreshed_ok in Hv as [Hr Hm]; [| |by rewrite Hself, (q_self _ _ _ Hq)|exact Htr|exact Hag|exact Hsel|exact Hfin]; [|done].
  apply reaches_commit. exists D, src, (commitments_by_dealer s D), fin. done.
Qed.

(** C8: A reshare run of a joining operator commits all or nothing, like a key
    generation run; what it publishes is a refresh computed from at least a threshold of
    verified dealers of the on-chain dealer set, restricted to the operators that hold a
    key, all on one source version; its master public key is the one the peers'
    majority reports, or none if there is no majority: unlike the run of an existing
    operator, it is not checked against the dealers' commitments. *)
Theorem run_reshare_new (env : ReshareEnv) (ts tb : Z) (n : Node Fr P) :
  let '(n', r) := RunReshareAsNewOperator env ts tb n in
  others_kept ts n n' /\ (r <> Ok tt -> untouched n n') /\
  (r = Ok tt -> getSession n' ts = None /\ exists ops D src comms shares v,
     fetchCurrentOperators (rs_fetched env) = Ok ops /\
     refreshes env ts tb ops (Some (existingOperatorDealers ops (existing_operators (rs_query env) ops))) n D src comms shares v /\
     MasterPublicKey v = peers_mpk env n ops /\ published v n n' /\ tracker n' = tracker n).
Proof.
  unfold RunReshareAsNewOperator. unfold mbind at 1, sm_bind at 1, sm_get at 1. unfold mbind at 1, sm_bind at 1, sm_lift at 1.
  destruct (fetchCurrentOperators (rs_fetched env)) as [ops|e] eqn:Hf; cbn [wrap]; [|unfold others_kept, untouched; split_and!; auto; done].
  pose proof (fetch_nodup _ _ Hf) as Hnd. unfold mbind at 1, sm_bind at 1.
  match goal with |- context [if ?b then _ else _] => destruct b eqn:Hk end; cbn [sm_fail];
    [unfold others_kept, untouched; split_and!; auto; done|].
  assert (Hops : (0 < length ops)%nat) by lia.
  unfold mbind, sm_bind, sm_wrap. cbn [mret sm_ret]. rewrite createSession_ok by done. cbn [wrap].
  set (n0 := set_sessions _ n). assert (Hk0 : same_keys n n0) by done.
  pose proof (run_outcome ts _ _ n n0 Hk0 (join_body_reaches env ts tb ops
    (Z.of_nat (length ops) - Z.of_nat (size (existing_operators (rs_query env) ops))) (Reshare.NewReshare (OperatorAddress_ n) ops) n0 Hops eq_refl)) as Ho.
  destruct (sm_defer _ _ n0) as [n' r]. destruct Ho as (Hg & [[Hsk [e ->]]|(n1 & n2 & Hq & Hsk & Hc & Hend)]).
  { destruct (same_keys_others ts _ _ Hsk). by split_and!. }
  apply (commits_spec _ _ n) in Hc as (v & (D & src & comms & shares & Hr & Hm) & Ho & Her & Hok); [|done]. cbn [fst snd] in *.
  pose proof Hr as (_ & _ & _ & _ & _ & Hts & _). rewrite Hts in Ho.
  pose proof Hend as (E1 & E2 & E3 & E4). unfold others_kept, untouched, published in *. rewrite E1, E2, E3. setoid_rewrite E4.
  split_and!; [done|done|]. intros Hres. split; [done|]. destruct (Hok Hres) as [(? & ? & ?) Htr].
  apply refreshes_same with (n := n) in Hr; [|apply (q_self _ _ _ Hq)|apply (q_chain _ _ _ Hq)|apply Hsk].
  unfold peers_mpk in *. rewrite (q_self _ _ _ Hq) in Hm.
  exists ops, D, src, comms, shares, v. by split_and!.
Qed.

End RunReshare.
