(* ===== verification/RunWitness.v ===== *)
(** * Concrete runs

    Three operators over the toy curve with in-memory persistence: operator 1 runs a key
    generation in which operator 2 completes every message and operator 3 does not
    broadcast, then a reshare as an existing operator; operator 4 joins.  The runs succeed,
    so the hypotheses and the success branches of the run theorems are inhabited. *)

From S2P Require Import Prelude Bytes Types Fr Lagrange Gnark Toy Crypto CryptoFacts KeyStore Persistence Session Merkle Dkg Reshare NodeCore AutoHeal NodeOps Agreement Messages NodeRun NodeReshare RunFacts DkgRunFacts ReshareRunFacts.

#[local] Existing Instances toy97 toy97_laws toy_tree Memory.memory_persistence Memory.memory_laws.
#[local] Instance run_text : FrText (@Fr toy97) := {
  fr_String x := foldr (fun _ s => ("1" ++ s)%string) "" (seq 0 (Z.to_nat (zp_val x)));
  fr_SetString s := Some (toy_fr (Z.of_nat (String.length s))) }.
#[local] Instance run_addr : EthAddr := { Hex _ := "0x"; HexToAddress _ := 0 }.
#[local] Instance run_sigs : SigLib := {
  bn254_sig := unit; bn254_NewSignatureFromBytes _ := Ok tt; bn254_VerifySolidityCompatible _ _ _ := Ok true;
  ecdsa_sig := unit; ecdsa_NewSignatureFromBytes _ := Ok tt; ecdsa_VerifyWithAddress _ _ _ := Ok true }.

Definition demo_peer (a : Address) : OperatorSetPeer := mkPeer a "" None a CurveTypeECDSA.
Definition demo_ops : list (option OperatorSetPeer) := [Some (demo_peer 3); Some (demo_peer 1); Some (demo_peer 2)].

(** The polynomial a dealer deals from. *)
Definition demo_poly (d : Address) : list (@Fr toy97) := [toy_fr (d * 5 + 1); toy_fr (d + 7)].
Definition demo_share (d j : Address) : @Fr toy97 := peval (demo_poly d) (AddressToFr j).
Definition demo_comms (d : Address) : list G2Point := com <$> demo_poly d.

(** What dealer [d] sends operator [j], and the acknowledgement and broadcast that follow. *)
Definition demo_ack (d j : Address) : Acknowledgement :=
  mkAck d j 100 (HashShareForAck (demo_share d j)) (HashCommitment (demo_comms d)) [1].
Definition demo_broadcast (d j : Address) : CommitmentBroadcast :=
  mkCommitmentBroadcast d 100 (demo_comms d) [demo_ack d j] [[9]].

Definition demo_node (self : Address) : Node (@Fr toy97) (Memory.MemoryPersistence (@Fr toy97)) :=
  mkNode self 1 NewKeyStore Memory.NewMemoryPersistence (mkAbortTracker 0 0) ∅ ∅ [] 0 "" None [].

Definition demo_dkg : DkgEnv := {|
  dkg_fetched := Ok demo_ops; dkg_now := 5; dkg_rnd k := demo_poly 1 !! k;
  dkg_shares_batch := [EvDeliver (GotShare 2 (demo_share 2 1)); EvDeliver (GotShare 3 (demo_share 3 1))];
  dkg_commitments_batch := [EvDeliver (GotCommitment 2 (demo_comms 2) 0); EvDeliver (GotCommitment 3 (demo_comms 3) 0)];
  dkg_acks_batch := [EvDeliver (GotAck 1 2 (demo_ack 1 2)); EvDeliver (GotAck 1 3 (demo_ack 1 3))];
  dkg_sign m := Ok m; dkg_submit k := if (k =? 0)%nat then Err "nonce too low" else Ok tt;
  dkg_verify_batch := [EvBroadcast (demo_broadcast 2 1)] |}.

Definition dkg_result := RunDKG demo_dkg 100 (demo_node 1).

Lemma run_dkg_witness : dkg_result.2 = Ok tt /\
  exists v, Version v = 100 /\ IsActive v = true /\ published v (demo_node 1) dkg_result.1.
Proof.
  assert (Hok : dkg_result.2 = Ok tt) by (vm_compute; reflexivity). split; [exact Hok|].
  pose proof (run_dkg demo_dkg 100 (demo_node 1)) as Hrun. unfold dkg_result in *.
  destruct (RunDKG demo_dkg 100 (demo_node 1)) as [n' r]. destruct Hrun as (_ & _ & Hrun).
  destruct (Hrun Hok) as (_ & ops & v & d & comms & shares & all & ids & _ & Hv & Ha & Hp & _). by exists v.
Defined.

(** ** Reshare: 1, 2 and 3 hold [3 + 5 X], 4 joins *)

Definition demo_key : list (@Fr toy97) := [toy_fr 3; toy_fr 5].
Definition demo_mpk : G2Point := com (toy_fr 3).
Definition demo_four : list (option OperatorSetPeer) := [Some (demo_peer 4); Some (demo_peer 3); Some (demo_peer 1); Some (demo_peer 2)].

(** Dealers deal degree-2 polynomials: the new threshold is 3. *)
Definition demo_repoly (d : Address) : list (@Fr toy97) := [peval demo_key (AddressToFr d); toy_fr (d + 20); toy_fr (d * 3)].
Definition demo_reshare (d j : Address) : @Fr toy97 := peval (demo_repoly d) (AddressToFr j).
Definition demo_recomms (d : Address) : list G2Point := com <$> demo_repoly d.

Definition demo_version (self : Address) : KeyShareVersion (@Fr toy97) :=
  mkKeyShareVersion 100 (Some (peval demo_key (AddressToFr self))) [] (Some demo_mpk) true [1; 2; 3].

Definition demo_holder (self : Address) : Node (@Fr toy97) (Memory.MemoryPersistence (@Fr toy97)) :=
  let '(l, ks) := alloc (demo_version self) NewKeyStore in
  mkNode self 1 (AddVersion l ks) (Memory.mkMemory {[100 := demo_version self]} 100 empty_NodeState ∅ ∅ ∅ ∅ false)
    (mkAbortTracker 100 1) ∅ ∅ [] 0 "" None [].

(** The registry has the three dealers' hashes at every height. *)
Definition demo_chain : ChainView :=
  mkChainView (fun _ b => Ok (b * 12)) (fun _ t => Ok (t / 2))
    (fun _ _ d _ => Ok (if d =? 4 then zero_hash else HashReshareCommitment (demo_recomms d) 100)) (fun now => now + 1).

Definition demo_reack (d j : Address) : Acknowledgement :=
  mkAck d j 200 (HashShareForAck (demo_reshare d j)) (HashCommitment (demo_recomms d)) [1].
Definition demo_rebroadcast (d j : Address) : CommitmentBroadcast :=
  mkCommitmentBroadcast d 200 (demo_recomms d) [demo_reack d j] [[9]].

(** The environment of node [self]: everything arrives from the other two dealers, except
    the shares and broadcasts, which come from the dealers of [sent] only: the other shares
    are fetched when the dealer set is agreed. *)
Definition demo_reshare_env (self : Address) (sent : list Address) : ReshareEnv :=
  let dealers := filter (fun d => d <> self) [1; 2; 3] in {|
  rs_fetched := Ok demo_four; rs_now := 5; rs_rnd k := demo_repoly self !! k;
  rs_query := Some (fun op => if OperatorAddress op =? 4 then Err "no key" else Ok (demo_recomms (OperatorAddress op)));
  rs_shares_batch := (fun d => EvDeliver (GotShare d (demo_reshare d self))) <$> sent;
  rs_commitments_batch := (fun d => EvDeliver (GotCommitment d (demo_recomms d) 100)) <$> dealers;
  rs_acks_batch := (fun p => EvDeliver (GotAck self p (demo_reack self p))) <$> filter (fun p => p <> self) [2; 3; 4];
  rs_verify_batch := (fun d => EvBroadcast (demo_rebroadcast d self)) <$> sent;
  rs_sign m := Ok m; rs_submit _ := Ok tt; rs_chain := demo_chain; rs_finalize_time := 40; rs_agree_batch := [];
  rs_transport op _ := let p := [OperatorAddress op] in Ok (mkAuthenticatedMessage p (Keccak256 p) [1]);
  rs_decode p := let d := default 0 (head p) in Ok (mkShareMessage d self 200 (Some (fr_String (demo_reshare d self))));
  rs_mpk_respond op := Ok (Some demo_mpk); rs_mpk_order m := (map_to_list m).*1 |}.

(** Nodes 1, 2 and 3 get one share in time and fetch the other. *)
Definition existing_run (self : Address) :=
  RunReshareAsExistingOperator (demo_reshare_env self [if self =? 2 then 1 else 2]) 200 100 (demo_holder self).
Definition existing_result := existing_run 1.
Definition joining_result := RunReshareAsNewOperator (demo_reshare_env 4 [1; 2; 3]) 200 100 (demo_node 4).

Lemma run_reshare_existing_witness : existing_result.2 = Ok tt /\
  exists D comms v, MasterPublicKey v = Some demo_mpk /\ D <> [] /\
    Reshare.ValidateReshareMasterPublicKey D comms (Some demo_mpk) = Ok tt /\ published v (demo_holder 1) existing_result.1.
Proof.
  assert (Hok : existing_result.2 = Ok tt) by (vm_compute; reflexivity). split; [exact Hok|].
  pose proof (run_reshare_existing (demo_reshare_env 1 [2]) 200 100 (demo_holder 1)) as Hrun. unfold existing_result, existing_run in *. cbn [Z.eqb] in *.
  destruct (RunReshareAsExistingOperator _ _ _ _) as [n' r]. destruct Hrun as (_ & _ & Hrun).
  destruct (Hrun Hok) as (_ & ops & act & mpk & D & src & comms & shares & v & _ & Ha & _ & Hm & Hv & _ & Hc & Hp & _).
  assert (Hd : mpk = demo_mpk) by (vm_compute in Ha; injection Ha as <-; by injection Hm as <-).
  rewrite Hd in *. exists D, comms, v. split_and!; [exact Hv| |exact Hc|exact Hp]. intros ->. discriminate Hc.
Defined.

Lemma run_reshare_new_witness : joining_result.2 = Ok tt /\
  exists v, Version v = 200 /\ MasterPublicKey v = Some demo_mpk /\ published v (demo_node 4) joining_result.1.
Proof.
  assert (Hok : joining_result.2 = Ok tt) by (vm_compute; reflexivity). split; [exact Hok|].
  pose proof (run_reshare_new (demo_reshare_env 4 [1; 2; 3]) 200 100 (demo_node 4)) as Hrun. unfold joining_result in *.
  destruct (RunReshareAsNewOperator _ _ _ _) as [n' r]. destruct Hrun as (_ & _ & Hrun).
  destruct (Hrun Hok) as (_ & ops & D & src & comms & shares & v & Hf & (_ & _ & _ & _ & _ & Hts & _) & Hm & Hp & _).
  assert (Hpeers : peers_mpk (demo_reshare_env 4 [1; 2; 3]) (demo_node 4) ops = Some demo_mpk).
  { vm_compute in Hf. injection Hf as <-. vm_compute. reflexivity. }
  exists v. split_and!; [exact Hts|by rewrite Hm|exact Hp].
Defined.
