(* ===== verification/Cluster.v ===== *)
(** * Several nodes in one reshare round

    Nodes that finish a round with the same dealer set hold shares of one polynomial whose
    constant term is the key, because the on-chain hashes bind every dealer's commitments;
    and the dealer set is a function of which dealers a node could verify.  The last part
    is a round in which that function differs between nodes. *)

From S2P Require Import Prelude Bytes Types Fr Lagrange Gnark Toy Crypto CryptoFacts Recover KeyStore Persistence Session Merkle Dkg Reshare NodeCore AutoHeal NodeOps Agreement Messages NodeRun NodeReshare RunFacts ReshareRunFacts RunWitness.

Section Cluster.
Context `{GnarkLaws} `{SigLib} `{MerkleLib} `{FrText Fr} `{EthAddr} {P : Type} `{PersistenceLaws Fr P}.
Implicit Types (n : Node Fr P).

(** Node [j] finished the round with version [v], having read the hashes [hashes]. *)
Definition finished (ops : list OperatorSetPeer) (ts tb : Z) (hashes : gmap Address bytes) (D : list Address) (src : Z)
    (j : Address) (v : KeyShareVersion Fr) (comms : gmap Address (list G2Point)) : Prop :=
  exists env n expected shares agreed, OperatorAddress_ n = j /\
    deriveAgreedDealerSet (rs_chain env) (ChainID n) (keyStore n) ops ts tb expected (rs_finalize_time env) = Ok (agreed, hashes) /\
    refreshes env ts tb ops expected n D src comms shares v.

Lemma finished_share ops ts tb hashes D src j v comms : finished ops ts tb hashes D src j v comms ->
  (forall d, d ∈ D -> exists h cs, hashes !! d = Some h /\ comms !! d = Some cs /\ HashReshareCommitment cs src = h) /\
  exists shares k, Reshare.reshare_run D comms (Reshare.NewReshare j ops) shares /\
    Reshare.ComputeNewKeyShare (Reshare.NewReshare j ops) D shares [] = Ok k /\ PrivateShare v = PrivateShare k.
Proof.
  intros (env & n & ex & sh & agreed & <- & Hag & (agreed' & hashes' & Hag' & _ & Hh) & _ & _ & Hrun & (k & Hk & Hv & _) & _).
  rewrite Hag in Hag'. injection Hag' as <- <-. split; [done|]. by exists sh, k.
Qed.

(** C1: A round keeps the key, across nodes: let some nodes finish a round, existing or
    joining, each with the commitments it received over the network, on the same dealer
    set and the same on-chain hashes; if the master key validation passed at one of them
    for the served key [s * G2], the dealers committed to degree-[t-1] polynomials, and
    no two of the received commitment vectors are a hash collision, then any [t] of the
    nodes' partial signatures recover an application key that verifies against that
    served key. *)
Theorem cluster_reshare_recovers (id : string) (Q : G1) (s : Fr) (t : nat) (ops : list OperatorSetPeer) (ts tb src : Z)
    (hashes : gmap Address bytes) (D : list Address) (vs : gmap Address (KeyShareVersion Fr))
    (comms : Address -> gmap Address (list G2Point)) (j0 : Address) (sigs : gmap Address G1Point) :
  (0 < t)%nat -> is_int64 src ->
  (forall j v, vs !! j = Some v -> finished ops ts tb hashes D src j v (comms j)) ->
  is_Some (vs !! j0) -> Reshare.ValidateReshareMasterPublicKey D (comms j0) (Some (com s)) = Ok tt ->
  (forall j d cs, is_Some (vs !! j) -> comms j !! d = Some cs ->
     length cs = t /\ Forall (fun c => length (g2_compressed c) = 96%nat) cs) ->
  (forall j j' d cs cs', comms j !! d = Some cs -> comms j' !! d = Some cs' ->
     sha256 (Reshare.reshare_preimage cs src) = sha256 (Reshare.reshare_preimage cs' src) ->
     Reshare.reshare_preimage cs src = Reshare.reshare_preimage cs' src) ->
  s <> fr_zero -> hash_to_g1 (string_bytes id) = Some Q -> Q <> g1_infinity ->
  (t <= size sigs)%nat -> NoDup (xcoords (map_to_list sigs).*1) ->
  (forall j g, sigs !! j = Some g -> exists v, vs !! j = Some v /\ ScalarMulG1 (mkG1Point (g1_bytes Q)) (PrivateShare v) = Ok g) ->
  exists k, RecoverAppPrivateKey id sigs (Z.of_nat t) = Ok k /\ VerifyAppPrivateKey id k (com s) = Ok true.
Proof.
  intros Ht Hsrc Hfin [v0 Hv0] Hval Hcs Hcoll Hs Hid HQ Hsz Hnd Hsigs.
  destruct (Reshare.validate_ok_inv _ _ _ _ Hval) as (Hne & _).
  destruct (finished_share _ _ _ _ _ _ _ _ _ (Hfin _ _ Hv0)) as (Hh0 & sh0 & k0 & Hrun0 & _).
  (* Every node has the commitments of [j0]. *)
  assert (Hsame : forall j v d cs, vs !! j = Some v -> d ∈ D -> comms j !! d = Some cs -> comms j0 !! d = Some cs).
  { intros j v d cs Hj Hd Hc. destruct (Hh0 d Hd) as (h & cs0 & Hh & Hc0 & Hhash0).
    destruct (finished_share _ _ _ _ _ _ _ _ _ (Hfin _ _ Hj)) as (Hhj & _). destruct (Hhj d Hd) as (h' & cs' & Hh' & Hc' & Hhash).
    assert (cs' = cs) as -> by congruence. assert (h' = h) as -> by congruence. rewrite Hc0. f_equal.
    apply (Reshare.hash_reshare_binds cs0 cs src src); [done|done|eapply (Hcs j0); eauto|eapply (Hcs j); eauto|eauto|congruence]. }
  destruct (Reshare.reshare_consistent t D (comms j0) s (Reshare.NewReshare j0 ops) sh0 Hne) as (p & Hlen & Hp0 & Hp); [|done|done|].
  { intros d cs Hd. destruct (Hcs j0 d cs (ex_intro _ v0 Hv0) Hd). lia. }
  subst s. apply (recovered_key_verifies id Q p sigs t); try done; [|by apply opens_com].
  intros j g Hj. destruct (Hsigs j g Hj) as (v & Hv & Hg).
  destruct (finished_share _ _ _ _ _ _ _ _ _ (Hfin _ _ Hv)) as (_ & sh & k & Hrun & Hk & Hsh).
  destruct (Hp (Reshare.NewReshare j ops) sh []) as (k' & Hk' & Hps & _).
  { intros d Hd. destruct (Hrun d Hd) as (x & cs & Hx & Hc & Hvx). exists x, cs. split_and!; [done|by eapply Hsame|done]. }
  rewrite Hk in Hk'. injection Hk' as <-. by rewrite Hsh, Hps in Hg.
Qed.
End Cluster.

(** ** A round in which nodes 1 and 2 refresh and node 4 joins *)

#[local] Existing Instances toy97 toy97_laws toy_tree Memory.memory_persistence Memory.memory_laws run_text run_addr run_sigs.

Definition demo_hashes : gmap Address bytes := list_to_map ((fun d => (d, HashReshareCommitment (demo_recomms d) 100)) <$> [1; 2; 3]).
Definition demo_received : gmap Address (list G2Point) := list_to_map ((fun d => (d, demo_recomms d)) <$> [1; 2; 3]).
Definition demo_dealt (j : Address) : gmap Address (@Fr toy97) := list_to_map ((fun d => (d, demo_reshare d j)) <$> [1; 2; 3]).
Definition demo_peers : list OperatorSetPeer := demo_peer <$> [1; 2; 3; 4].

(** The version a node serves after its run. *)
Definition served (o : Node (@Fr toy97) (Memory.MemoryPersistence (@Fr toy97)) * res unit) : KeyShareVersion (@Fr toy97) :=
  default (demo_version 0) (GetActiveVersion (keyStore o.1)).
Definition served_1 : KeyShareVersion (@Fr toy97) := Eval vm_compute in served (existing_run 1).
Definition served_2 : KeyShareVersion (@Fr toy97) := Eval vm_compute in served (existing_run 2).
Definition served_4 : KeyShareVersion (@Fr toy97) := Eval vm_compute in served joining_result.
Definition demo_final : gmap Address (KeyShareVersion (@Fr toy97)) := {[1 := served_1; 2 := served_2; 4 := served_4]}.

Definition demo_id : @G1 toy97 := toy_g1 (be_val (toy_digest (string_bytes "app-1"))).
Definition sign_with (v : KeyShareVersion (@Fr toy97)) : G1Point :=
  match ScalarMulG1 (mkG1Point (g1_bytes demo_id)) (PrivateShare v) with Ok g => g | Err _ => mkG1Point [] end.

Lemma demo_dealers (d : Address) : d ∈ [1; 2; 3] -> d = 1 \/ d = 2 \/ d = 3.
Proof. rewrite !elem_of_cons, elem_of_nil. tauto. Qed.

(** What [finished] asks of a node, by evaluation. *)
Lemma demo_finished_by (env : ReshareEnv) (n : Node (@Fr toy97) (Memory.MemoryPersistence (@Fr toy97))) ex j v :
  bool_decide (OperatorAddress_ n = j /\
    deriveAgreedDealerSet (rs_chain env) (ChainID n) (keyStore n) demo_peers 200 100 ex (rs_finalize_time env) = Ok ([1; 2; 3], demo_hashes) /\
    Version v = 200 /\ IsActive v = true /\ ParticipantIDs v = [1; 2; 3; 4] /\
    Forall (fun d => Reshare.VerifyNewShare (Reshare.NewReshare j demo_peers) (demo_dealt j !! d) (default [] (demo_received !! d)) = true) [1; 2; 3]) = true ->
  match Reshare.ComputeNewKeyShare (Reshare.NewReshare j demo_peers) [1; 2; 3] (demo_dealt j) [] with
  | Ok k => PrivateShare v = PrivateShare k /\ Commitments v = Commitments k
  | Err _ => False
  end ->
  finished (P := Memory.MemoryPersistence (@Fr toy97)) demo_peers 200 100 demo_hashes [1; 2; 3] 100 j v demo_received.
Proof.
  intros (<- & Hag & Hv & Ha & Hp & Hsh)%bool_decide_eq_true Hk. exists env, n, ex, (demo_dealt (OperatorAddress_ n)), [1; 2; 3].
  split_and!; [done|exact Hag|]. unfold refreshes. cbv zeta. split_and!; try done.
  3: { match type of Hk with match ?r with Ok _ => _ | Err _ => _ end => destruct r as [k|e] eqn:He end; [|done]. by exists k. }
  - exists [1; 2; 3], demo_hashes. split_and!; [exact Hag|done|]. intros d Hd.
    assert (Hc : d = 1 \/ d = 2 \/ d = 3) by (by apply demo_dealers). exists (HashReshareCommitment (demo_recomms d) 100), (demo_recomms d).
    destruct Hc as [-> |[-> | ->]]; (split_and!; vm_compute; reflexivity).
  - intros d Hd. rewrite Forall_forall in Hsh. specialize (Hsh d Hd).
    assert (Hc : d = 1 \/ d = 2 \/ d = 3) by (by apply demo_dealers). exists (demo_reshare d (OperatorAddress_ n)), (demo_recomms d).
    destruct Hc as [-> |[-> | ->]]; (split_and!; [reflexivity|reflexivity|exact Hsh]).
Qed.

(** Three entries, whatever they are. *)
Lemma lookup_three {A} (x y z v : A) (a b c j : Address) : ({[a := x; b := y; c := z]} : gmap Address A) !! j = Some v ->
  (j = a /\ v = x) \/ (j = b /\ v = y) \/ (j = c /\ v = z).
Proof. rewrite !lookup_insert_Some, lookup_singleton_Some. naive_solver. Qed.

Lemma demo_final_finished j v : demo_final !! j = Some v ->
  finished (P := Memory.MemoryPersistence (@Fr toy97)) demo_peers 200 100 demo_hashes [1; 2; 3] 100 j v demo_received.
Proof.
  intros [[-> ->]|[[-> ->]|[-> ->]]]%lookup_three.
  - apply (demo_finished_by (demo_reshare_env 1 [2]) (demo_holder 1) None);
      [vm_compute; reflexivity|vm_compute; split; reflexivity].
  - apply (demo_finished_by (demo_reshare_env 2 [1]) (demo_holder 2) None);
      [vm_compute; reflexivity|vm_compute; split; reflexivity].
  - apply (demo_finished_by (demo_reshare_env 4 [1; 2; 3]) (demo_node 4) (Some [1; 2; 3]));
      [vm_compute; reflexivity|vm_compute; split; reflexivity].
Qed.

Lemma cluster_reshare_recovers_witness : exists k,
  RecoverAppPrivateKey "app-1" (sign_with <$> demo_final) 3 = Ok k /\ VerifyAppPrivateKey "app-1" k demo_mpk = Ok true.
Proof.
  apply (cluster_reshare_recovers (P := Memory.MemoryPersistence (@Fr toy97)) "app-1" demo_id (toy_fr 3) 3 demo_peers 200 100 100
    demo_hashes [1; 2; 3] demo_final (fun _ => demo_received) 1).
  - lia.
  - unfold is_int64. lia.
  - apply demo_final_finished.
  - by eexists.
  - vm_compute. reflexivity.
  - intros _ d cs _ Hd. apply (map_Forall_lookup_1 (fun _ cs => length cs = 3%nat /\ Forall (fun c => length (g2_compressed c) = 96%nat) cs) demo_received d cs); [|exact Hd].
    by_compute.
  - intros _ _ d cs cs' Hd Hd' _. congruence.
  - by_compute.
  - vm_compute. reflexivity.
  - by_compute.
  - by_compute.
  - by_compute.
  - intros j g. rewrite lookup_fmap, fmap_Some. intros (v & Hv & ->). exists v. split; [exact Hv|].
    apply lookup_three in Hv as [[_ ->]|[[_ ->]|[_ ->]]]; vm_compute; reflexivity.
Defined.
