(* ===== verification/DealerSplit.v ===== *)
(** * Rounds that split the dealer set

    [Cluster.v] assumes that the nodes finalize on the same dealer set.  The code derives
    that set from the chain and then drops the dealers whose commitments it did not
    receive ([VerifyDealerSourceVersions]), so it is the same at two nodes only if they
    received the commitments of the same agreed dealers.  The theorem says what such nodes
    select, that every check passes at all of them, and when the key is recovered; the last
    part is a round of four holders of one key in which nodes 2 and 3 do not receive the
    commitments of node 4: all runs succeed and the shares do not recover the key. *)

From S2P Require Import Prelude Bytes Types Fr Lagrange Gnark Toy Crypto CryptoFacts Recover KeyStore Persistence Session Merkle Dkg Reshare NodeCore AutoHeal NodeOps Agreement Messages NodeRun NodeReshare RunFacts ReshareRunFacts RunWitness Cluster.

Lemma filter_agree {A} (P P' : A -> Prop) `{forall x, Decision (P x)} `{forall x, Decision (P' x)} (l : list A) :
  (forall x, x ∈ l -> P x <-> P' x) -> filter P l = filter P' l.
Proof.
  induction l as [|x l IH]; intros Hl; [done|]. rewrite !filter_cons, IH by (intros y Hy; apply Hl; by right).
  assert (Hx : P x <-> P' x) by (apply Hl; by left). repeat case_decide; (done || tauto).
Qed.

(** Verification keeps the dealers whose pair hashes to the on-chain value. *)
Lemma verified_are `{GnarkLaws} (heard : gset Address) hashes comms sv l :
  (forall d, d ∈ l -> Reshare.source_ok hashes comms sv d <-> d ∈ heard) ->
  (Reshare.VerifyDealerSourceVersions l hashes comms sv).1 = filter (fun d => d ∈ heard) l.
Proof.
  intros Hok. unfold Reshare.VerifyDealerSourceVersions. induction l as [|d l IH] using rev_ind; [done|].
  rewrite foldl_app, filter_app, filter_cons, filter_nil. cbn [foldl]. rewrite <- IH by (intros x Hx; apply Hok; set_solver).
  assert (Hd : Reshare.source_ok hashes comms sv d <-> d ∈ heard) by (apply Hok; set_solver).
  destruct (Reshare.source_step_spec hashes comms sv d (foldl (Reshare.source_step hashes comms sv) ([], ∅) l)) as [(Hs & v & _ & ->)|(Hs & ->)];
    case_decide; (tauto || done || by rewrite app_nil_r).
Qed.

(** A vote on which all dealers have one version. *)
Lemma unanimous dealers sv src threshold : 0 < threshold -> src <> 0 -> threshold <= Z.of_nat (length dealers) ->
  (forall d, d ∈ dealers -> sv !! d = Some src) -> Reshare.SelectMajoritySourceVersion dealers sv threshold = Ok (dealers, src).
Proof.
  intros Ht Hsrc Hlen Hsv.
  assert (Hver : forall d, d ∈ dealers -> Reshare.version_of sv d = src) by (intros d Hd; unfold Reshare.version_of; by rewrite (Hsv d Hd)).
  assert (Hall : filter (fun d => Reshare.version_of sv d = src) dealers = dealers) by (apply filter_all; by apply Forall_forall).
  destruct (Reshare.SelectMajoritySourceVersion dealers sv threshold) as [[kept v]|e] eqn:Hs.
  - apply Reshare.select_ok in Hs as (_ & -> & Hkept & _); [|done].
    destruct (filter (fun d => Reshare.version_of sv d = v) dealers) as [|d l] eqn:Hf; [cbn in Hkept; lia|].
    assert (Hd : d ∈ filter (fun d => Reshare.version_of sv d = v) dealers) by (rewrite Hf; by left).
    apply list_elem_of_filter in Hd as [Hv Hd]. rewrite Hver in Hv by done. subst v. by rewrite <- Hf, Hall.
  - exfalso. unfold Reshare.SelectMajoritySourceVersion, Reshare.select_with in Hs.
    destruct dealers as [|d dealers]; [cbn in Hlen; lia|]. cbn [length Nat.eqb] in Hs.
    destruct (Reshare.pick_best_spec _ (Reshare.count_entries_pos (d :: dealers) sv)) as [[He _]|[_ Hmax]].
    + assert (Hin : (src, Reshare.votes (d :: dealers) sv src) ∈ map_to_list (Reshare.count_versions (d :: dealers) sv)).
      { apply Reshare.count_entries. unfold Reshare.votes. rewrite Hall. cbn [length]. lia. }
      rewrite He in Hin. by apply not_elem_of_nil in Hin.
    + destruct (Reshare.pick_best _) as [bv bc]. cbn [fst snd] in Hmax.
      destruct (Hmax src (Reshare.votes (d :: dealers) sv src)) as [Hb|[Hb _]];
        [apply Reshare.count_entries; unfold Reshare.votes; rewrite Hall; cbn [length]; lia|..];
        unfold Reshare.votes in Hb; rewrite Hall in Hb; destruct (Z.ltb_spec bc threshold); (done || lia).
Qed.

Section Split.
Context `{GnarkLaws} `{SigLib} `{MerkleLib} `{FrText Fr} `{EthAddr}.
Local Open Scope fr_scope.

Add Field fr_field_split : (@fr_field Fr _ _).

(** Every agreed dealer deals from its share of the key [p(0)], and the chain shows the hash
    of its commitments; [session] has these commitments, with their source version, from the
    dealers in [heard] and nothing from the other agreed dealers. *)
Definition honest_dealers (p : list Fr) (src : Z) (polys : Address -> list Fr) (agreed : list Address) (hashes : gmap Address bytes) : Prop :=
  forall d, d ∈ agreed -> polys d <> [] /\ peval (polys d) 0 = peval p (AddressToFr d) /\
    hashes !! d = Some (HashReshareCommitment (com <$> polys d) src).
Definition has_heard (src : Z) (polys : Address -> list Fr) (agreed : list Address) (session : ProtocolSession Fr) (heard : gset Address) : Prop :=
  forall d, d ∈ agreed ->
    commitments session !! d = (if decide (d ∈ heard) then Some (com <$> polys d) else None) /\
    sourceVersions session !! d = (if decide (d ∈ heard) then Some src else None).

(** The dealers a node has heard, and the share it computes from them. *)
Definition heard_dealers (agreed : list Address) (heard : gset Address) : list Address := filter (fun d => d ∈ heard) agreed.
Definition split_value (polys : Address -> list Fr) (D : list Address) (j : Address) : Fr :=
  lagrange_sum (fun d => peval (polys d) (AddressToFr j)) D.

Lemma heard_selected joining t p src polys agreed hashes session heard : (0 < t)%nat -> src <> 0%Z ->
  honest_dealers p src polys agreed hashes -> has_heard src polys agreed session heard ->
  (t <= length (heard_dealers agreed heard))%nat ->
  select_dealers joining (Z.of_nat t) session (agreed, hashes) = Ok (heard_dealers agreed heard, src).
Proof.
  intros Ht Hsrc Hhon Hheard Hlen. unfold select_dealers.
  set (comms := commitments_by_dealer session agreed).
  assert (Hver : (Reshare.VerifyDealerSourceVersions agreed hashes comms (GetSourceVersions session)).1 = heard_dealers agreed heard).
  { apply verified_are. intros d Hd. destruct (Hhon d Hd) as (Hne & _ & Hh). destruct (Hheard d Hd) as [Hc Hv].
    assert (Hcd : comms !! d = Some (default [] (commitments session !! d))) by (unfold comms; by rewrite commitments_by_dealer_lookup, decide_True).
    unfold Reshare.source_ok, GetSourceVersions. rewrite Hcd, Hc, Hv, Hh. case_decide as Hin; split; try done.
    - intros _. destruct (polys d) as [|c cs]; [done|]. by exists (HashReshareCommitment (com <$> c :: cs) src), src, (com c), (com <$> cs).
    - by intros (? & ? & ? & ? & _ & [=] & _). }
  pose proof (Reshare.VerifyDealerSourceVersions_spec hashes comms (GetSourceVersions session) agreed) as (_ & _ & Hvv).
  destruct (Reshare.VerifyDealerSourceVersions _ _ _ _) as [ver vv]. cbn [fst snd] in *. subst ver.
  rewrite !fail_if_bind. split_and!.
  - apply andb_false_iff. right. apply Z.ltb_ge. pose proof (length_filter (fun d => d ∈ heard) agreed). unfold heard_dealers in Hlen. lia.
  - apply Z.ltb_ge. lia.
  - apply wrap_ok, unanimous; [lia|done|lia|]. intros d Hd. apply Hvv. split; [done|].
    apply list_elem_of_filter in Hd as [Hin Hd]. destruct (Hheard d Hd) as [_ Hv]. unfold GetSourceVersions. by rewrite Hv, decide_True.
Qed.

Lemma heard_commitments src polys agreed session heard d : has_heard src polys agreed session heard -> d ∈ heard_dealers agreed heard ->
  commitments_by_dealer session (heard_dealers agreed heard) !! d = Some (com <$> polys d).
Proof.
  intros Hheard Hd. rewrite commitments_by_dealer_lookup, decide_True by done. apply list_elem_of_filter in Hd as [Hin Hd].
  destruct (Hheard d Hd) as [-> _]. by rewrite decide_True.
Qed.

Lemma heard_validates p t src polys agreed hashes session heard : (0 < t)%nat -> NoDup (xcoords agreed) -> (length p <= t)%nat ->
  honest_dealers p src polys agreed hashes -> has_heard src polys agreed session heard -> (t <= length (heard_dealers agreed heard))%nat ->
  let D := heard_dealers agreed heard in
  Reshare.ValidateReshareMasterPublicKey D (commitments_by_dealer session D) (Some (com (peval p 0))) = Ok tt.
Proof.
  intros Ht Hnd Hp Hhon Hheard Hlen D. assert (HD : forall d, d ∈ D -> d ∈ agreed) by by intros d [_ ?]%list_elem_of_filter.
  rewrite (Reshare.validate_sum D _ polys).
  - apply fail_if_ok, negb_false_iff, G2Point_IsEqual_eq. f_equal. rewrite <- (lagrange_sum_eval p D).
    + apply fsum_ext. intros d Hd. rewrite head_coeff_peval. by destruct (Hhon d (HD d Hd)) as (_ & -> & _).
    + unfold xcoords in *. eapply sublist_NoDup; [exact Hnd|]. apply fmap_sublist, sublist_filter.
    + unfold D. lia.
  - intros Hnil. unfold D in Hnil. rewrite Hnil in Hlen. cbn in Hlen. lia.
  - intros d Hd. exists (com <$> polys d). split_and!; [by eapply heard_commitments|apply opens_list_com|].
    destruct (Hhon d (HD d Hd)) as (Hne & _). by destruct (polys d).
Qed.

Lemma heard_share p t src polys agreed hashes session heard r shares : (0 < t)%nat ->
  honest_dealers p src polys agreed hashes -> has_heard src polys agreed session heard -> (t <= length (heard_dealers agreed heard))%nat ->
  let D := heard_dealers agreed heard in Reshare.reshare_run D (commitments_by_dealer session D) r shares ->
  exists v, Reshare.ComputeNewKeyShare r D shares [] = Ok v /\ PrivateShare v = Some (split_value polys D (Reshare.nodeAddress r)).
Proof.
  intros Ht Hhon Hheard Hlen D Hrun.
  rewrite (Reshare.ComputeNewKeyShare_spec r D shares (fun d => peval (polys d) (AddressToFr (Reshare.nodeAddress r)))); [by eexists| |].
  - intros Hnil. unfold D in Hnil. rewrite Hnil in Hlen. cbn in Hlen. lia.
  - intros d Hd. destruct (Hrun d Hd) as (x & cs & -> & Hcs & Hv). destruct (Reshare.VerifyNewShare_sound _ _ _ Hv) as (q & Ho & _ & ->).
    unfold D in Hcs, Hd. rewrite (heard_commitments src polys) in Hcs by done. injection Hcs as <-. by rewrite (opens_list_fun _ _ _ Ho (opens_list_com (polys d))).
Qed.

(** Shares that belong to one set are values of one polynomial through the key. *)
Lemma one_set_recovers p t src polys agreed hashes D l : NoDup (xcoords agreed) -> (length p <= t)%nat ->
  honest_dealers p src polys agreed hashes -> (forall d, d ∈ agreed -> (length (polys d) <= t)%nat) ->
  D `sublist_of` agreed -> (t <= length D)%nat -> length l = t -> NoDup (xcoords l) ->
  lagrange_sum (split_value polys D) l = peval p 0.
Proof.
  intros Hnd Hp Hhon Hlens HD Hlen Hl Hndl. set (P := pcomb (fun d => ComputeLagrangeCoefficient d D) polys D).
  assert (HP : forall x, peval P x = fsum (fun d => ComputeLagrangeCoefficient d D * peval (polys d) x) D) by (intros x; apply peval_pcomb).
  assert (Hin : forall d, d ∈ D -> d ∈ agreed) by (intros d Hd; by eapply elem_of_sublist).
  transitivity (lagrange_sum (fun j => peval P (AddressToFr j)) l); [apply fsum_ext; intros j _; by rewrite HP|].
  rewrite lagrange_sum_eval; [|done|rewrite Hl; apply length_pcomb; intros d Hd; by apply Hlens, Hin].
  rewrite HP, <- (lagrange_sum_eval p D); [|eapply sublist_NoDup; [exact Hnd|by apply fmap_sublist]|lia].
  apply fsum_ext. intros d Hd. by destruct (Hhon d (Hin d Hd)) as (_ & -> & _).
Qed.

(** Whatever the signers' shares are, the key is recovered exactly if their Lagrange sum is it. *)
Lemma recovers_iff id Q (share : Address -> Fr) (s : Fr) (sigs : gmap Address G1Point) (t : nat) :
  hash_to_g1 (string_bytes id) = Some Q -> Q <> g1_infinity -> s <> 0 -> (t <= size sigs)%nat -> NoDup (xcoords (map_to_list sigs).*1) ->
  (forall j g, sigs !! j = Some g -> g = psig Q (share j)) ->
  (exists k, RecoverAppPrivateKey id sigs (Z.of_nat t) = Ok k /\ VerifyAppPrivateKey id k (com s) = Ok true) <->
  lagrange_sum share (chosen sigs t) = s.
Proof.
  intros Hid HQne Hs Ht Hnd Hsigs. assert (HQ : g1_in_subgroup Q = true) by by eapply g1_ok_hash.
  rewrite (recover_sum id Q share sigs t) by done. set (L := lagrange_sum share (chosen sigs t)). cbn [mbind res_bind].
  rewrite G1_IsZero_sig by done. cbn [mbind res_bind]. case_bool_decide as Hz.
  - split; [by intros (k & [=] & _)|]. intros HL. by rewrite Hz in HL.
  - assert (Hver : VerifyAppPrivateKey id (psig Q L) (com s) = Ok (bool_decide (g1_bytes (act1 Q L) = g1_bytes (act1 Q s)))).
    { apply (verify_app_key_spec id Q (act1 Q L) _ (com s) s); [done| |by apply opens_com]. apply g1_set_bytes_bytes. by apply g1_ok_act. }
    split; [intros (k & [= <-] & Hv)|intros HL; exists (psig Q L); split; [done|]]; rewrite Hver in *.
    + injection Hv as Hb%bool_decide_eq_true. apply (f_equal g1_set_bytes) in Hb. rewrite !g1_set_bytes_bytes in Hb by by apply g1_ok_act.
      injection Hb as Hb. assert (Hd : L - s = 0); [|transitivity (L - s + s); [ring|rewrite Hd; ring]].
      apply (act1_eq_infinity Q); [done..|]. replace (L - s) with (L + (0 - s)) by ring. rewrite act1_add, Hb, <- act1_add by done.
      replace (s + (0 - s)) with fr_zero by ring. by apply act1_zero.
    + by rewrite HL, bool_decide_true.
Qed.

(** C2: The dealer set is not a function of the chain alone.  Let honest dealers reshare a
    key, with their commitments on the chain, and let every node derive the same agreed
    dealers and hashes, but receive the commitments of some of them only, of at least a
    threshold.  Every node selects exactly the agreed dealers it heard, so two nodes that
    heard different ones finalize on different sets; the master key validation passes at
    every node, each computes its share, and a threshold of the nodes recovers the key
    exactly if the Lagrange sum of these shares is the key: it is when all belong to one set
    (of polynomials of the threshold's length), and need not be otherwise. *)
Theorem received_commitments_split_the_dealers (id : string) (Q : G1) (p : list Fr) (t : nat) (src : Z) (joining : bool)
    (agreed : list Address) (hashes : gmap Address bytes) (polys : Address -> list Fr) (ops : list OperatorSetPeer)
    (nodes : list Address) (session : Address -> ProtocolSession Fr) (heard : Address -> gset Address) (sigs : gmap Address G1Point) :
  let D j := heard_dealers agreed (heard j) in let comms j := commitments_by_dealer (session j) (D j) in
  (0 < t)%nat -> src <> 0%Z -> (length p <= t)%nat -> peval p 0 <> 0 -> NoDup (xcoords agreed) ->
  honest_dealers p src polys agreed hashes ->
  (forall j, j ∈ nodes -> has_heard src polys agreed (session j) (heard j) /\ (t <= length (D j))%nat) ->
  hash_to_g1 (string_bytes id) = Some Q -> Q <> g1_infinity -> (t <= size sigs)%nat -> NoDup (xcoords (map_to_list sigs).*1) ->
  (forall j g, sigs !! j = Some g -> j ∈ nodes /\ exists shares v,
     Reshare.reshare_run (D j) (comms j) (Reshare.NewReshare j ops) shares /\
     Reshare.ComputeNewKeyShare (Reshare.NewReshare j ops) (D j) shares [] = Ok v /\
     ScalarMulG1 (mkG1Point (g1_bytes Q)) (PrivateShare v) = Ok g) ->
  (forall j, j ∈ nodes ->
     select_dealers joining (Z.of_nat t) (session j) (agreed, hashes) = Ok (D j, src) /\
     Reshare.ValidateReshareMasterPublicKey (D j) (comms j) (Some (com (peval p 0))) = Ok tt /\
     (forall shares, Reshare.reshare_run (D j) (comms j) (Reshare.NewReshare j ops) shares -> exists v,
        Reshare.ComputeNewKeyShare (Reshare.NewReshare j ops) (D j) shares [] = Ok v /\ PrivateShare v = Some (split_value polys (D j) j)) /\
     forall j', D j = D j' <-> forall d, d ∈ agreed -> d ∈ heard j <-> d ∈ heard j') /\
  ((exists k, RecoverAppPrivateKey id sigs (Z.of_nat t) = Ok k /\ VerifyAppPrivateKey id k (com (peval p 0)) = Ok true) <->
   lagrange_sum (fun j => split_value polys (D j) j) (chosen sigs t) = peval p 0) /\
  ((forall d, d ∈ agreed -> length (polys d) <= t)%nat -> (exists D0, forall j, j ∈ nodes -> D j = D0) ->
   lagrange_sum (fun j => split_value polys (D j) j) (chosen sigs t) = peval p 0).
Proof.
  intros D comms Ht Hsrc Hp Hs Hnd Hhon Hheard Hid HQne Hsz Hnds Hsigs. assert (HQ : g1_in_subgroup Q = true) by by eapply g1_ok_hash. split_and!.
  - intros j Hj. destruct (Hheard j Hj) as [Hh Hlen]. split_and!; [by eapply heard_selected|by eapply heard_validates| |].
    { intros shares Hrun. by apply (heard_share p t src polys agreed hashes (session j) (heard j) (Reshare.NewReshare j ops)). }
    intros j'. unfold D, heard_dealers. split.
    + intros HD d Hd. assert (Hin : d ∈ filter (fun d => d ∈ heard j) agreed <-> d ∈ filter (fun d => d ∈ heard j') agreed) by by rewrite HD.
      rewrite !list_elem_of_filter in Hin. tauto.
    + intros Hd. by apply filter_agree.
  - apply (recovers_iff id Q _ _ sigs t); try done. intros j g Hj. destruct (Hsigs j g Hj) as (Hn & shares & v & Hrun & Hv & Hg).
    destruct (Hheard j Hn) as [Hh Hlen]. destruct (heard_share p t src polys agreed hashes (session j) (heard j) _ shares Ht Hhon Hh Hlen Hrun) as (v' & Hv' & Hsh).
    assert (v' = v) as -> by (unfold D in Hv; congruence). rewrite Hsh, sig_1, ScalarMulG1_sig in Hg by done. injection Hg as <-.
    cbn [Reshare.nodeAddress Reshare.NewReshare]. unfold D. f_equal. ring.
  - intros Hlens [D0 HD0]. destruct (chosen_spec sigs t Hsz Hnds) as (Hcl & Hcn & Hcin).
    assert (Hin : forall j, j ∈ chosen sigs t -> j ∈ nodes) by (intros j [g Hg]%Hcin; by apply (Hsigs j g)).
    destruct (chosen sigs t) as [|j0 l] eqn:Hch; [cbn in Hcl; lia|]. rewrite <- Hch in *.
    assert (Hj0 : j0 ∈ nodes) by (apply Hin; rewrite Hch; by left). destruct (Hheard j0 Hj0) as [_ Hlen0].
    assert (HD0e : D0 = heard_dealers agreed (heard j0)) by (symmetry; by apply HD0). rewrite HD0 in Hlen0 by done.
    unfold lagrange_sum at 1. rewrite (fsum_ext _ (fun j => ComputeLagrangeCoefficient j (chosen sigs t) * split_value polys D0 j))
      by (intros j Hj; cbn beta; by rewrite (HD0 j) by by apply Hin).
    apply (one_set_recovers p t src polys agreed hashes D0); try done. rewrite HD0e. apply sublist_filter.
Qed.
End Split.

(** ** A round of four holders of one key *)

#[local] Existing Instances toy97 toy97_laws toy_tree Memory.memory_persistence Memory.memory_laws run_text run_addr run_sigs.

Definition split_key : list (@Fr toy97) := [toy_fr 3; toy_fr 5; toy_fr 2].
Definition split_poly (d : Address) : list (@Fr toy97) := [peval split_key (AddressToFr d); toy_fr (d ^ 3 + 20); toy_fr (d * 3)].
Definition split_share (d j : Address) : @Fr toy97 := peval (split_poly d) (AddressToFr j).
Definition split_comms (d : Address) : list G2Point := com <$> split_poly d.

Definition split_version (self : Address) : KeyShareVersion (@Fr toy97) :=
  mkKeyShareVersion 100 (Some (peval split_key (AddressToFr self))) [] (Some demo_mpk) true [1; 2; 3; 4].
Definition split_holder (self : Address) : Node (@Fr toy97) (Memory.MemoryPersistence (@Fr toy97)) :=
  let '(l, ks) := alloc (split_version self) NewKeyStore in
  mkNode self 1 (AddVersion l ks) (Memory.mkMemory {[100 := split_version self]} 100 empty_NodeState ∅ ∅ ∅ ∅ false)
    (mkAbortTracker 100 0) ∅ ∅ [] 0 "" None [].

Definition split_chain : ChainView :=
  mkChainView (fun _ b => Ok (b * 12)) (fun _ t => Ok (t / 2)) (fun _ _ d _ => Ok (HashReshareCommitment (split_comms d) 100)) (fun now => now + 1).

(** Every other share arrives; the commitments of the dealers in [heard] do. *)
Definition split_env (self : Address) (heard : list Address) : ReshareEnv :=
  let others := filter (fun d => d <> self) [1; 2; 3; 4] in {|
  rs_fetched := Ok demo_four; rs_now := 5; rs_rnd k := split_poly self !! k; rs_query := None;
  rs_shares_batch := (fun d => EvDeliver (GotShare d (split_share d self))) <$> others;
  rs_commitments_batch := (fun d => EvDeliver (GotCommitment d (split_comms d) 100)) <$> heard;
  rs_acks_batch := (fun p => EvDeliver (GotAck self p (mkAck self p 200 (HashShareForAck (split_share self p)) (HashCommitment (split_comms self)) [1]))) <$> others;
  rs_verify_batch := []; rs_sign m := Ok m; rs_submit _ := Ok tt; rs_chain := split_chain; rs_finalize_time := 40; rs_agree_batch := [];
  rs_transport op _ := let p := [OperatorAddress op] in Ok (mkAuthenticatedMessage p (Keccak256 p) [1]);
  rs_decode p := let d := default 0 (head p) in Ok (mkShareMessage d self 200 (Some (fr_String (split_share d self))));
  rs_mpk_respond op := Ok (Some demo_mpk); rs_mpk_order m := (map_to_list m).*1 |}.

Definition split_run (self : Address) (heard : list Address) :=
  RunReshareAsExistingOperator (split_env self heard) 200 100 (split_holder self).
Definition split_1 := split_run 1 [2; 3; 4].
Definition split_2 := split_run 2 [1; 3].
Definition split_3 := split_run 3 [1; 2].
Definition split_sigs : gmap Address G1Point :=
  {[1 := sign_with (served split_1); 2 := sign_with (served split_2); 3 := sign_with (served split_3)]}.

(** What a caller and an application see of a run. *)
Definition outcome (o : Node (@Fr toy97) (Memory.MemoryPersistence (@Fr toy97)) * res unit) : res unit * Z * option G2Point :=
  (o.2, Version (served o), MasterPublicKey (served o)).

(** The three runs succeed and keep the served master key; the key recovered from the three
    shares does not verify. *)
Lemma split_round :
  (outcome split_1, outcome split_2, outcome split_3) = ((Ok tt, 200, Some demo_mpk), (Ok tt, 200, Some demo_mpk), (Ok tt, 200, Some demo_mpk)) /\
  (k ← RecoverAppPrivateKey "app-1" split_sigs (CalculateThreshold 4); VerifyAppPrivateKey "app-1" k demo_mpk) = Ok false.
Proof. split; vm_compute; reflexivity. Qed.

(** The same by the theorem: what the nodes have heard, and the shares of these dealers. *)
Definition split_heard (j : Address) : gset Address := if j =? 1 then {[1; 2; 3; 4]} else {[1; 2; 3]}.
Definition split_hashes : gmap Address bytes := list_to_map ((fun d => (d, HashReshareCommitment (split_comms d) 100)) <$> [1; 2; 3; 4]).
Definition split_session (j : Address) : ProtocolSession (@Fr toy97) :=
  let have := elements (split_heard j) in
  mkSession 200 "reshare" 3 5 [] 100 ∅ (list_to_map ((fun d => (d, split_comms d)) <$> have)) ∅ (list_to_map ((fun d => (d, 100)) <$> have))
    ∅ true true true [] true ∅.
Definition split_dealt (j : Address) : gmap Address (@Fr toy97) := list_to_map ((fun d => (d, split_share d j)) <$> [1; 2; 3; 4]).

Definition split_new (j : Address) : KeyShareVersion (@Fr toy97) :=
  match Reshare.ComputeNewKeyShare (Reshare.NewReshare j []) (heard_dealers [1; 2; 3; 4] (split_heard j)) (split_dealt j) [] with Ok v => v | Err _ => demo_version 0 end.

Lemma run_verified_shares `{Gnark} D comms r shares :
  Forall (fun d => Reshare.VerifyNewShare r (shares !! d) (default [] (comms !! d)) = true) D -> Reshare.reshare_run D comms r shares.
Proof.
  rewrite Forall_forall. intros Hall d Hd. specialize (Hall d Hd). destruct (shares !! d) as [x|]; [|done]. destruct (comms !! d) as [cs|]; [by eauto|done].
Qed.

Lemma received_commitments_split_the_dealers_witness :
  heard_dealers [1; 2; 3; 4] (split_heard 1) = [1; 2; 3; 4] /\ heard_dealers [1; 2; 3; 4] (split_heard 2) = [1; 2; 3] /\
  select_dealers false 3 (split_session 1) ([1; 2; 3; 4], split_hashes) = Ok ([1; 2; 3; 4], 100) /\
  select_dealers false 3 (split_session 2) ([1; 2; 3; 4], split_hashes) = Ok ([1; 2; 3], 100) /\
  ~ exists k, RecoverAppPrivateKey "app-1" split_sigs 3 = Ok k /\ VerifyAppPrivateKey "app-1" k demo_mpk = Ok true.
Proof.
  assert (Hnode : forall j, j ∈ [1; 2; 3] -> j = 1 \/ j = 2 \/ j = 3) by apply demo_dealers.
  assert (Hid : hash_to_g1 (string_bytes "app-1") = Some demo_id) by (vm_compute; reflexivity).
  destruct (received_commitments_split_the_dealers "app-1" demo_id split_key 3 100 false [1; 2; 3; 4] split_hashes split_poly []
    [1; 2; 3] split_session split_heard split_sigs) as [Hsel Hrec]; [lia|lia|vm_compute; lia|by_compute|by_compute| | |exact Hid|by_compute|by_compute|by_compute| |].
  - intros d Hd. assert (Hc : d = 1 \/ d = 2 \/ d = 3 \/ d = 4) by (rewrite !elem_of_cons, elem_of_nil in Hd; tauto).
    destruct Hc as [-> |[-> |[-> | ->]]]; (split_and!; [discriminate|by_compute|vm_compute; reflexivity]).
  - intros j Hj. split; [|destruct (Hnode j Hj) as [-> |[-> | ->]]; by_compute].
    intros d Hd. assert (Hc : d = 1 \/ d = 2 \/ d = 3 \/ d = 4) by (rewrite !elem_of_cons, elem_of_nil in Hd; tauto).
    destruct (Hnode j Hj) as [-> |[-> | ->]], Hc as [-> |[-> |[-> | ->]]]; split; vm_compute; reflexivity.
  - intros j g Hg. assert (Hc : (j = 1 /\ g = sign_with (served split_1)) \/ (j = 2 /\ g = sign_with (served split_2)) \/ (j = 3 /\ g = sign_with (served split_3))).
    { apply lookup_three in Hg. exact Hg. }
    clear Hg. split; [rewrite !elem_of_cons; tauto|]. exists (split_dealt j), (split_new j).
    destruct Hc as [[-> ->]|[[-> ->]|[-> ->]]]; (split; [apply run_verified_shares; by_compute|split; vm_compute; reflexivity]).
  - split; [vm_compute; reflexivity|]. split; [vm_compute; reflexivity|]. split; [exact (proj1 (Hsel 1 ltac:(by left)))|].
    split; [exact (proj1 (Hsel 2 ltac:(right; by left)))|]. intros Hk. apply Hrec in Hk. revert Hk. by_compute.
Defined.
