(* ===== verification/Lifecycle.v ===== *)
(** * The life of a node: everything that [pkg/node] does, in any order

    [Node.Start], and a node that lives: blocks come to the scheduler, the goroutines it
    started run when they run, messages and configuration logs arrive, the process dies and
    starts again over the same store.  A run takes its turn as a whole, with what arrives
    meanwhile as its batches; a crash within a commit is a commit whose second write failed,
    followed by a restart.  [Stop] cancels the context only, so that blocks already queued may
    still be taken and runs go on: it is no step of its own.  The theorems: every key version a
    node ever holds or stores descends, by refreshes that were checked, from a key generation
    or a join that the scheduler started; and what happens when a goroutine is late. *)

From S2P Require Import Prelude Bytes Types Fr Lagrange Gnark Toy Crypto CryptoFacts KeyStore Persistence Session Merkle Dkg Reshare NodeCore AutoHeal GoText Platform NodeOps Agreement Messages NodeRun NodeReshare RunFacts DkgRunFacts ReshareRunFacts RunWitness.

Section Life.
Context `{Gnark} `{SigLib} `{MerkleLib} `{FrText Fr} `{EthAddr} {P : Type} `{INodePersistence Fr P}.

(** [Node.Start]: restore, start the poller, read the platform URL once.  [poller] is what
    starting the poller gives. *)
Definition Start (poller : res unit) (now : Z) (avsConfig : res (Z * string)) (n : Node Fr P) : Node Fr P * res unit :=
  let '(n, r) := RestoreState now n in
  match wrap "failed to restore state" r with
  | Err e => (n, Err e)
  | Ok _ => match wrap "failed to start chain poller" poller with
            | Err e => (n, Err e)
            | Ok _ => (set_url (refreshPlatformConfig ('(_, url) ← avsConfig; Ok (Some url)) (platformURL n)) n, Ok tt)
            end
  end.

(** What the goroutines of the scheduler run; their errors are logged. *)
Definition run_action (dkg : DkgEnv) (rs : ReshareEnv) (a : action) (n : Node Fr P) : Node Fr P * res unit :=
  match a with
  | StartDKG ts => RunDKG dkg ts n
  | StartReshareAsNew ts b => RunReshareAsNewOperator rs ts b n
  | StartReshareAsExisting ts b => RunReshareAsExistingOperator rs ts b n
  end.

(** A node, the goroutines that were started and have not run, and whether the process is up. *)
Record life := mkLife { the_node : Node Fr P; goroutines : list action; up : bool }.

Inductive life_event :=
| OnBlock (block : Block) (fetched : res (list (option OperatorSetPeer))) (query : OperatorSetPeer -> res (list G2Point)) (now : Z)
| OnTurn (i : nat) (dkg : DkgEnv) (rs : ReshareEnv)
| OnMessage (ts : Z) (e : event)
| OnConfig (log : option (string * option (option string)))
| OnRestart (cfg : Config) (registry : Address) (poller : res unit) (now : Z) (avsConfig : res (Z * string)).

(** The goroutine that an event starts. *)
Definition started (L : life) (e : life_event) : option action :=
  match e with
  | OnBlock block fetched query now => if up L then (checkScheduledOperations block fetched query now (the_node L)).2 else None
  | _ => None
  end.

(** A process that does not come up leaves its store. *)
Definition restarted (cfg : Config) (registry : Address) (poller : res unit) (now : Z) (avsConfig : res (Z * string)) (L : life) : life :=
  match NewNode cfg true true registry (pers (the_node L)) with
  | Err _ => mkLife (the_node L) [] false
  | Ok n => let '(n, r) := Start poller now avsConfig n in mkLife n [] (is_ok r)
  end.

Definition life_step (L : life) (e : life_event) : life :=
  match e with
  | OnRestart cfg registry poller now avsConfig => restarted cfg registry poller now avsConfig L
  | _ =>
      if negb (up L) then L else
      match e with
      | OnBlock block fetched query now =>
          let '(n, a) := checkScheduledOperations block fetched query now (the_node L) in
          mkLife n (goroutines L ++ option_list a) true
      | OnTurn i dkg rs =>
          match goroutines L !! i with
          | Some a => mkLife (run_action dkg rs a (the_node L)).1 (delete i (goroutines L)) true
          | None => L
          end
      | OnMessage ts e => mkLife (handle_event ts (the_node L) e) (goroutines L) true
      | OnConfig log => mkLife (set_url (handlePlatformConfigLog log (platformURL (the_node L))) (the_node L)) (goroutines L) true
      | OnRestart _ _ _ _ _ => L
      end
  end.

(** What an event makes the scheduler start, with the block and the chain the node is
    configured for. *)
Record start := mkStart { st_chain : Z; st_block : Block; st_action : action }.
Definition record (L : life) (e : life_event) : list start :=
  match e, started L e with OnBlock block _ _ _, Some a => [mkStart (ChainID (the_node L)) block a] | _, _ => [] end.

(** The lives of a process over a store without key versions, each with the history of what
    was started. *)
Inductive lives : list start -> life -> Prop :=
| born n : keyStore n = NewKeyStore -> (forall t v, LoadKeyShareVersion t (pers n) <> Ok (Some v)) -> lives [] (mkLife n [] false)
| step h L e : lives h L -> lives (record L e ++ h) (life_step L e).
End Life.
Arguments life {_} _.

(** ** What every version of a node has *)

Section AllVersions.
Context `{Gnark} `{SigLib} `{MerkleLib} `{FrText Fr} `{EthAddr} {P : Type} `{PersistenceLaws Fr P}.
Implicit Types (n : Node Fr P) (v : KeyShareVersion Fr).
Variable Q : KeyShareVersion Fr -> Prop.
Hypothesis Q_flag : forall b v, Q v -> Q (set_IsActive b v).

(** Every version in memory and in the store has [Q]. *)
Definition all_versions n : Prop :=
  ks_inv (keyStore n) /\ (forall v, v ∈ contents (keyStore n) -> Q v) /\ (forall t v, LoadKeyShareVersion t (pers n) = Ok (Some v) -> Q v).

Lemma all_same n n' : same_keys n n' -> all_versions n -> all_versions n'.
Proof. intros (Hk & _ & _ & Hl) (Hi & Hc & Hp). unfold all_versions. rewrite Hk. split_and!; [done..|]. intros t v. rewrite Hl. apply Hp. Qed.

Lemma all_quiet ts n n' : quiet ts n n' -> all_versions n -> all_versions n'.
Proof. intros Hq. by eapply all_same, quiet_same_keys. Qed.

Lemma all_commit what v n : Q v -> all_versions n -> all_versions (commit_version what v n).1.
Proof.
  intros Hv (Hi & Hc & Hp). unfold commit_version, mbind, sm_bind, sm_get, sm_lift, sm_modify.
  destruct (SaveKeyShareVersion v (pers n)) as [p|e] eqn:Hs; cbn [wrap fst]; [|done].
  assert (Hp' : forall t w, LoadKeyShareVersion t p = Ok (Some w) -> Q w).
  { intros t w. rewrite (save_key_load _ _ _ t Hs). case_decide; [by intros [= <-]|apply Hp]. }
  destruct (SetActiveVersionTimestamp (Version v) p) as [p'|e] eqn:Ha; cbn [wrap fst]; [|done].
  destruct (set_active_frame _ _ _ Ha) as (_ & Hl & _). destruct (contents_add v _ Hi) as (Hadd & _).
  cbn. split_and!.
  - by apply (add_inv v).
  - intros w. change (w ∈ contents (AddVersion (alloc v (keyStore n)).1 (alloc v (keyStore n)).2) -> Q w). rewrite Hadd, elem_of_app, list_elem_of_singleton.
    intros [Hw| ->]; [by apply Hc|by apply Q_flag].
  - intros t w. rewrite Hl. apply Hp'.
Qed.

Lemma all_abort sv src n : all_versions n -> all_versions (onMPKValidationAbort sv src n).
Proof.
  intros (Hi & Hc & Hp). destruct (abort_keeps sv src n) as [Hl Hk]. unfold all_versions. rewrite Hk. split_and!; [|done|intros t v; rewrite Hl; apply Hp].
  unfold onMPKValidationAbort. destruct (recordMPKAbort _ _ _) as [demote t]. set (n1 := persistAbortTracker _).
  assert (Hk1 : keyStore n1 = keyStore n) by apply (keyStore_try_pers _ (set_tracker t n)). destruct demote; [|by rewrite Hk1].
  assert (Hi1 : ks_inv (MarkPoisoned sv (keyStore n1))) by (rewrite Hk1; by apply (ks_apply_inv (OpPoison sv))).
  destruct (rollback_outcomes sv n1) as [(-> & _)|(l & u & ks & _ & Hs & -> & _)]; [done|].
  pose proof (ks_apply_inv (OpActivateByTimestamp u) _ Hi1) as Ha. cbn [ks_apply] in Ha. by rewrite Hs in Ha.
Qed.

Lemma all_success src n : all_versions n -> all_versions (recordSuccessfulReshare src n).
Proof. intros Ha. destruct (success_keeps src n) as (Hk & _ & _ & Hl). destruct Ha as (Hi & Hc & Hp). unfold all_versions. rewrite Hk. split_and!; [done..|]. intros t v. rewrite Hl. apply Hp. Qed.

(** *** Runs *)

Lemma all_run ts F (body : SM (Node Fr P) unit) n n0 : same_keys n n0 -> reaches ts F n0 (body n0) ->
  (forall n1 o, same_keys n n1 -> F n1 o -> all_versions o.1) -> all_versions n -> all_versions (sm_defer (cleanupSession ts) body n0).1.
Proof.
  intros Hk Hb HF Ha. pose proof (run_outcome ts F body n n0 Hk Hb) as Ho. destruct (sm_defer _ _ n0) as [n' r]. cbn [fst].
  destruct Ho as (_ & [[Hs _]|(n1 & n2 & _ & Hs & Hf & He)]); [by eapply all_same|]. eapply all_same; [exact He|]. by apply (HF n1 (n2, r)).
Qed.

Lemma dkg_keeps env ts n : (forall ops n1 v, fetchCurrentOperators (dkg_fetched env) = Ok ops -> dkg_version_ok ts ops n1 v -> Q v) ->
  all_versions n -> all_versions (RunDKG env ts n).1.
Proof.
  intros HQ Ha. unfold RunDKG. unfold mbind at 1, sm_bind at 1, sm_lift at 1. destruct (fetchCurrentOperators (dkg_fetched env)) as [ops|e] eqn:Hf; cbn [wrap]; [|done].
  pose proof (fetch_nodup _ _ Hf) as Hnd. unfold mbind, sm_bind, sm_wrap. rewrite createSession_ok by done. cbn [wrap].
  set (n0 := set_sessions _ n). eapply (all_run ts _ _ n n0); [done|by apply dkg_body_reaches| |done].
  intros n1 o Hs (v & Hv & ->). apply all_commit; [by eapply HQ|]. by eapply all_same.
Qed.

Lemma join_keeps env ts tb n : (forall ops n1 v, fetchCurrentOperators (rs_fetched env) = Ok ops -> joins env ts tb ops n1 v -> Q v) ->
  all_versions n -> all_versions (RunReshareAsNewOperator env ts tb n).1.
Proof.
  intros HQ Ha. unfold RunReshareAsNewOperator. unfold mbind at 1, sm_bind at 1, sm_get at 1. unfold mbind at 1, sm_bind at 1, sm_lift at 1.
  destruct (fetchCurrentOperators (rs_fetched env)) as [ops|e] eqn:Hf; cbn [wrap]; [|done]. pose proof (fetch_nodup _ _ Hf) as Hnd. unfold mbind at 1, sm_bind at 1.
  match goal with |- context [if ?b then _ else _] => destruct b eqn:Hk end; [done|]. assert (Hops : (0 < length ops)%nat) by lia.
  unfold mbind, sm_bind, sm_wrap. cbn [mret sm_ret]. rewrite createSession_ok by done. cbn [wrap].
  set (n0 := set_sessions _ n). eapply (all_run ts _ _ n n0); [done|by apply join_body_reaches| |done].
  intros n1 o Hs (v & Hv & ->). apply all_commit; [by eapply HQ|]. by eapply all_same.
Qed.

(** The active version is one of those the store of keys contains, but for its flag. *)
Lemma active_contained n v : ks_inv (keyStore n) -> GetActiveVersion (keyStore n) = Some v -> set_IsActive false v ∈ contents (keyStore n).
Proof.
  intros Hi Hv. unfold GetActiveVersion in Hv. destruct (activeVersion (keyStore n)) as [l|] eqn:Hl; [|done]. cbn in Hv.
  destruct (inv_active _ Hi l Hl) as [Hk _]. apply list_elem_of_fmap. exists v. split; [done|]. apply list_elem_of_omap. by exists l.
Qed.

Lemma reshare_keeps env ts tb n : (forall ops n1 act mpk D src comms shares v, same_keys n n1 -> GetActiveVersion (keyStore n) = Some act ->
    fetchCurrentOperators (rs_fetched env) = Ok ops ->
    MasterPublicKey act = Some mpk -> refreshes env ts tb ops None n1 D src comms shares v ->
    Reshare.ValidateReshareMasterPublicKey D comms (Some mpk) = Ok tt -> MasterPublicKey v = Some mpk -> Q v) ->
  all_versions n -> all_versions (RunReshareAsExistingOperator env ts tb n).1.
Proof.
  intros HQ Ha. unfold RunReshareAsExistingOperator. unfold mbind at 1, sm_bind at 1, sm_get at 1. unfold mbind at 1, sm_bind at 1, sm_lift at 1.
  destruct (reshare_prepare env _ (keyStore n)) as [dl|e] eqn:Hp; [|done]. apply reshare_prepare_ok in Hp as (act & Hf & Hact & Hin & Hov & Ht & Hself & Hsv).
  pose proof (fetch_nodup _ _ Hf) as Hnd. unfold mbind, sm_bind, sm_wrap. rewrite createSession_ok by done. cbn [wrap].
  set (n0 := set_sessions _ n). unfold on_session, sm_modify. set (n00 := set_sessions _ n0).
  assert (Hops : (0 < length (dl_operators dl))%nat) by (destruct (dl_operators dl); [by apply not_elem_of_nil in Hin|cbn; lia]).
  eapply (all_run ts _ _ n n00); [done|by eapply reshare_body_reaches| |done].
  intros n1 o Hs (act' & mpk & D & src & comms & shares & v & Hact' & Hm & Hr & He). pose proof Hs as (Ek & _). rewrite Ek in Hact'.
  assert (Ha1 : all_versions n1) by by eapply all_same. destruct He as [[_ [e ->]]|(Hc & Hv & ->)]; [by apply all_abort|].
  pose proof (all_commit "failed to persist reshare key share version" v n1 ltac:(by eapply HQ) Ha1) as Hcm. unfold mbind, sm_bind.
  destruct (commit_version _ v n1) as [n2 [[]|e]]; cbn [fst] in *; [by apply all_success|done].
Qed.
End AllVersions.

(** *** The other steps *)

Section OtherSteps.
Context `{Gnark} `{SigLib} `{MerkleLib} `{FrText Fr} `{EthAddr} {P : Type} `{PersistenceLaws Fr P}.
Implicit Types (n : Node Fr P) (v : KeyShareVersion Fr).

Lemma block_same_keys block fetched query now n : same_keys n (checkScheduledOperations block fetched query now n).1.
Proof.
  assert (Hp : forall b, same_keys n (persistBoundary now b (set_boundary b n))).
  { intros b. unfold persistBoundary. match goal with |- context [try_pers ?f ?m] => destruct (try_pers_cases f m) as [(p & Hp & ->)| ->]; [|done] end.
    apply save_state_frame in Hp as (Ha & Hl & _). by split_and!. }
  unfold checkScheduledOperations. destruct (negb _); [done|]. destruct (_ =? 0); [done|]. destruct (_ =? _); [done|].
  destruct (fetchCurrentOperators fetched); [|apply Hp]. destruct (_ <? _)%nat; [apply Hp|]. destruct (negb _); [|apply Hp].
  destruct (detectClusterState _ _); apply Hp.
Qed.

Lemma restore_sessions_loads now timeout l n t :
  LoadKeyShareVersion t (pers (restore_sessions now timeout l n)) = LoadKeyShareVersion t (pers n).
Proof.
  revert n. unfold restore_sessions. induction l as [|s l IH]; intros n; [done|]. cbn [foldl]. rewrite IH.
  destruct (IsExpired _ _ _); apply load_try_pers; intros p p' (_ & _ & Hl)%delete_session_frame x; apply Hl.
Qed.

(** Whether it succeeds or stops half way, a restart takes the versions from the store. *)
Lemma restore_keeps Q now n : (forall b v, Q v -> Q (set_IsActive b v)) -> keyStore n = NewKeyStore ->
  all_versions Q n -> all_versions Q (RestoreState now n).1.
Proof.
  intros HQ Hks (_ & _ & Hp). assert (Hall : forall m, pers m = pers n -> ks_inv (keyStore m) -> (forall v, v ∈ contents (keyStore m) -> Q v) -> all_versions Q m).
  { intros m Hm Hi Hc. split_and!; [done..|]. by rewrite Hm. }
  assert (Hnone : forall m, pers m = pers n -> keyStore m = NewKeyStore -> all_versions Q m).
  { intros m Hm Hk. apply Hall; [done|rewrite Hk; apply NewKeyStore_inv|rewrite Hk; by intros v ?%not_elem_of_nil]. }
  unfold RestoreState. destruct (LoadNodeState (pers n)) as [st|e]; cbn [wrap]; [|by apply Hnone].
  set (n1 := match st with Some _ => _ | None => _ end).
  assert (E1 : keyStore n1 = NewKeyStore /\ pers n1 = pers n) by (subst n1; destruct st as [s|]; [destruct (_ >? _)|]; done).
  destruct E1 as [E1 E1p]. clearbody n1. rewrite E1p, E1.
  destruct (ListKeyShareVersions (pers n)) as [versions|e] eqn:Hls; cbn [wrap]; [|by apply Hnone].
  pose proof (restore_versions versions) as Hr. destruct (foldl _ _ versions) as [ptrs ks].
  assert (Hc : forall v, v ∈ set_IsActive false <$> versions -> Q v).
  { intros v (w & -> & Hw)%list_elem_of_fmap. apply (list_key_spec _ _ _ Hls) in Hw as [t Ht]. apply HQ. by eapply Hp. }
  change (pers (set_keyStore ?k ?m)) with (pers m). rewrite E1p.
  destruct (GetActiveVersionTimestamp (pers n)) as [active|e]; cbn [wrap]; [|apply Hall; [done|apply Hr|cbn; by rewrite (rs_contents _ _ _ Hr)]].
  destruct (restore_active_spec _ _ _ active Hr) as (Hi & Hcont & _ & _).
  change (pers (set_keyStore ?k ?m)) with (pers m). rewrite E1p. change (keyStore (set_keyStore ?k ?m)) with k. set (n2 := match ListPoisonedVersions _ with Ok _ => _ | Err _ => _ end).
  assert (Hn2 : all_versions Q n2).
  { subst n2. destruct (ListPoisonedVersions (pers n)) as [bad|]; cbn.
    - destruct (mark_all bad (restore_active active ptrs ks)) as (_ & M2 & _ & M4). apply Hall; [done|by apply M4|]. cbn. by rewrite M2, Hcont, (rs_contents _ _ _ Hr).
    - apply Hall; [done|exact Hi|]. cbn. by rewrite Hcont, (rs_contents _ _ _ Hr). }
  clearbody n2. destruct (restore_tracker_spec st n2) as (E2 & E2p & _).
  assert (Hn3 : all_versions Q (restore_tracker st n2)) by (unfold all_versions; by rewrite E2, E2p).
  destruct (ListProtocolSessions _) as [sessions|e]; cbn [wrap fst]; [|exact Hn3].
  destruct Hn3 as (Hi3 & Hc3 & Hp3). unfold all_versions. destruct (restore_sessions_frame now (GetProtocolTimeoutForChain (ChainID (restore_tracker st n2))) sessions (restore_tracker st n2)) as [-> _].
  split_and!; [done..|]. intros t v. rewrite restore_sessions_loads. apply Hp3.
Qed.

Lemma restarted_keeps Q cfg registry poller now avsConfig (L : life P) : (forall b v, Q v -> Q (set_IsActive b v)) ->
  all_versions Q (the_node L) -> all_versions Q (the_node (restarted cfg registry poller now avsConfig L)).
Proof.
  intros HQ Ha. unfold restarted, NewNode. cbn [negb]. destruct (registry =? 0); [done|]. set (n := mkNode _ _ _ _ _ _ _ _ _ _ _ _).
  assert (Hn : all_versions Q n). { destruct Ha as (_ & _ & Hp). split_and!; [apply NewKeyStore_inv|by intros v ?%not_elem_of_nil|done]. }
  pose proof (restore_keeps Q now n HQ eq_refl Hn) as Hr. unfold Start. destruct (RestoreState now n) as [m r]. cbn [fst] in Hr.
  destruct (wrap _ r); [|exact Hr]. by destruct (wrap _ poller).
Qed.
End OtherSteps.

(** ** Descent *)

Section Descent.
Context `{Gnark} `{SigLib} `{MerkleLib} `{FrText Fr} `{EthAddr} {P : Type} `{PersistenceLaws Fr P}.
Implicit Types (n : Node Fr P) (v : KeyShareVersion Fr) (h : list start).

(** The scheduler started this action, for the block. *)
Definition in_history h (a : action) : Prop := exists chain block, mkStart chain block a ∈ h.

(** What a key generation makes of a verified execution of the protocol. *)
Definition generation ts (ops : list OperatorSetPeer) v : Prop :=
  exists n1 : Node Fr P, dkg_version_ok ts ops n1 v.

(** A first version of a node: it comes from a key generation or from a join. *)
Inductive origin h : KeyShareVersion Fr -> Prop :=
| by_generation ts env ops v : in_history h (StartDKG ts) -> fetchCurrentOperators (dkg_fetched env) = Ok ops -> generation ts ops v -> origin h v
| by_join ts b env ops n v : in_history h (StartReshareAsNew ts b) -> fetchCurrentOperators (rs_fetched env) = Ok ops -> joins env ts b ops n v -> origin h v.

(** A version of a node: a first one, or the refresh of another one whose master key is known,
    by dealers whose commitments were checked against this key.  The flag does not matter. *)
Inductive descends h : KeyShareVersion Fr -> Prop :=
| descends_first v : origin h v -> descends h v
| by_refresh ts b env ops n D src comms shares v parent mpk : in_history h (StartReshareAsExisting ts b) ->
    fetchCurrentOperators (rs_fetched env) = Ok ops -> descends h parent ->
    refreshes env ts b ops None n D src comms shares v -> Reshare.ValidateReshareMasterPublicKey D comms (Some mpk) = Ok tt ->
    MasterPublicKey parent = Some mpk -> MasterPublicKey v = Some mpk -> descends h v
| other_flag b v : descends h v -> descends h (set_IsActive b v).

Lemma descends_in h h' v : h ⊆ h' -> descends h v -> descends h' v.
Proof.
  intros Hsub Hd. assert (Hin : forall a, in_history h a -> in_history h' a) by (intros a (c & b & Hb); exists c, b; by apply Hsub).
  induction Hd as [w [ts env ops v Hs Hf Hg|ts b env ops n v Hs Hf Hj]|ts b env ops n D src comms shares v parent mpk Hs Hf _ IH Hr Hc Hp Hm|b v _ IH].
  - apply descends_first. by eapply by_generation; [apply Hin|..].
  - apply descends_first. by eapply by_join; [apply Hin|..].
  - by eapply by_refresh; [apply Hin|..].
  - by apply other_flag.
Qed.

Lemma version_of_action h v : descends h v -> exists a, in_history h a /\
  Version v = match a with StartDKG ts => ts | StartReshareAsNew ts _ => ts | StartReshareAsExisting ts _ => ts end.
Proof.
  intros Hd. induction Hd as [w [ts env ops v Hs Hf [n1 Hg]|ts b env ops n v Hs Hf (D & src & comms & shares & Hr & _)]|ts b env ops n D src comms shares v parent mpk Hs Hf _ IH Hr Hc Hp Hm|b v _ IH].
  - exists (StartDKG ts). split; [done|]. apply dkg_version_run in Hg as (d & comms & shares & all & ids & Hd). by apply Hd.
  - eexists. split; [exact Hs|]. by apply Hr.
  - eexists. split; [exact Hs|]. by apply Hr.
  - by destruct v.
Qed.

(** The key of a version is that of a first one. *)
Lemma key_of_origin h v : descends h v -> exists root, origin h root /\ MasterPublicKey root = MasterPublicKey v.
Proof.
  induction 1 as [v Ho|ts b env ops n D src comms shares v parent mpk _ _ _ IH _ _ Hp Hm|b v _ IH]; [by exists v| |by destruct v].
  destruct IH as (root & Ho & Hk). exists root. split; [done|]. congruence.
Qed.

(** What starts is for a block at an interval boundary of the chain. *)
Definition at_boundary (r : start) : Prop :=
  Z.rem (int64 (blk_Number (st_block r))) (GetReshareBlockIntervalForChain (st_chain r)) = 0 /\
  match st_action r with
  | StartDKG ts => ts = int64 (blk_Timestamp (st_block r))
  | StartReshareAsNew ts b | StartReshareAsExisting ts b => ts = int64 (blk_Timestamp (st_block r)) /\ b = int64 (blk_Number (st_block r))
  end.

(** Sepolia and Anvil have the short interval, every other chain the one of mainnet. *)
Lemma interval_values chain : GetReshareBlockIntervalForChain chain = if bool_decide (chain = 11155111 \/ chain = 31337) then 10 else 50.
Proof.
  unfold GetReshareBlockIntervalForChain, ChainId_EthereumMainnet, ChainId_EthereumSepolia, ChainId_EthereumAnvil.
  case_bool_decide; destruct (Z.eqb_spec chain 1), (Z.eqb_spec chain 11155111), (Z.eqb_spec chain 31337); naive_solver lia.
Qed.

Lemma started_at_boundary (L : life P) e : Forall at_boundary (record L e).
Proof.
  destruct e as [block fetched query now|i dkg rs|ts e|log|cfg registry poller now avs]; cbn; try constructor.
  destruct (up L); [|constructor]. pose proof (scheduler_starts block fetched query now (the_node L)) as Hs. cbv zeta in Hs.
  destruct (checkScheduledOperations _ _ _ _ _) as [n' [a|]]; cbn [snd fst] in *; [|constructor]. destruct Hs as (_ & _ & Hb & _ & _ & _ & _ & ops & _ & Ha).
  repeat constructor; [done|]. destruct a; cbn; naive_solver.
Qed.

(** The goroutines that wait are those the scheduler started. *)
Lemma lives_started h (L : life P) : lives h L -> Forall at_boundary h /\ forall a, a ∈ goroutines L -> in_history h a.
Proof.
  induction 1 as [n Hk Hp|h L e _ [IHb IHg]]; [by split; [|intros a ?%not_elem_of_nil]|]. split; [apply Forall_app; split; [apply started_at_boundary|done]|].
  assert (Hold : forall a, a ∈ goroutines L -> in_history (record L e ++ h) a).
  { intros a (c & b & Hb)%IHg. exists c, b. apply elem_of_app. by right. }
  intros a. destruct e as [block fetched query now|i dkg rs|ts e|log|cfg registry poller now avs]; cbn [life_step].
  - destruct (up L) eqn:Hup; cbn [negb]; [|apply Hold]. destruct (checkScheduledOperations _ _ _ _ _) as [n' o] eqn:Hc. cbn [goroutines].
    intros [Ha|Ha]%elem_of_app; [by apply Hold|]. exists (ChainID (the_node L)), block. apply elem_of_app. left. cbn. rewrite Hup, Hc. cbn [snd]. destruct o; cbn in *; set_solver.
  - destruct (up L); cbn [negb]; [|apply Hold]. destruct (goroutines L !! i) as [x|] eqn:Hx; [|apply Hold]. cbn [goroutines]. intros Ha. apply Hold.
    eapply elem_of_sublist; [exact Ha|]. apply sublist_delete.
  - destruct (up L); cbn [negb]; apply Hold.
  - destruct (up L); cbn [negb]; apply Hold.
  - unfold restarted. destruct (NewNode _ _ _ _ _); [destruct (Start _ _ _ _)|]; by intros ?%not_elem_of_nil.
Qed.

Lemma step_keeps h (L : life P) e : (forall a, a ∈ goroutines L -> in_history h a) ->
  all_versions (descends h) (the_node L) -> all_versions (descends h) (the_node (life_step L e)).
Proof.
  intros Hg Ha. destruct e as [block fetched query now|i dkg rs|ts e|log|cfg registry poller now avs]; cbn [life_step];
    [..|by apply restarted_keeps; [apply other_flag|]]; (destruct (up L); cbn [negb]; [|done]).
  - pose proof (block_same_keys block fetched query now (the_node L)) as Hs. destruct (checkScheduledOperations _ _ _ _ _). by eapply all_same.
  - destruct (goroutines L !! i) as [a|] eqn:Hi; [|done]. apply list_elem_of_lookup_2, Hg in Hi. cbn [the_node]. destruct a as [ts|ts b|ts b]; cbn [run_action].
    + apply dkg_keeps; [apply other_flag| |done]. intros ops n1 v Hf Hv. apply descends_first. eapply by_generation; [done..|]. by exists n1.
    + apply join_keeps; [apply other_flag| |done]. intros ops n1 v Hf Hv. apply descends_first. by eapply by_join.
    + apply reshare_keeps; [apply other_flag| |done]. intros ops n1 act mpk D src comms shares v _ Hact Hf Hm Hr Hc Hv.
      destruct Ha as (Hinv & Hcon & _). eapply by_refresh; [done|done| |done|done|by instantiate (1 := set_IsActive false act); destruct act|done].
      apply Hcon. by apply active_contained.
  - eapply all_quiet; [apply quiet_event|done].
  - by eapply all_same.
Qed.

Lemma lives_descend h (L : life P) : lives h L -> all_versions (descends h) (the_node L).
Proof.
  intros Hl. induction Hl as [n Hk Hp|h L e Hl IH].
  - split_and!; cbn; [rewrite Hk; apply NewKeyStore_inv|rewrite Hk; by intros v ?%not_elem_of_nil|]. intros t v Hv. by apply Hp in Hv.
  - apply step_keeps; [|destruct IH as (Hi & Hc & Hp); split_and!; [done|..]].
    + intros a Ha. destruct (lives_started _ _ Hl) as [_ Hg]. destruct (Hg a Ha) as (c & b & Hb). exists c, b. apply elem_of_app. by right.
    + intros v Hv. eapply descends_in; [|by apply Hc]. set_solver.
    + intros t v Hv. eapply descends_in; [|by eapply Hp]. set_solver.
Qed.

(** C6: Nothing comes from nowhere.  Whatever happens in the life of a node that began with an
    empty store, in whatever order, with whatever the chain, the peers and the operators say,
    through failed runs, late goroutines, crashes and restarts: every key version in its
    memory or in its store, the active one too, is numbered by the timestamp of a block for
    which the scheduler started a run, and the number of this block is a multiple of the
    interval of the chain the node was then configured for, 10 blocks for Sepolia and Anvil
    and 50 for every other one.  The version is the outcome of a verified key generation, of
    a join, or of a refresh, checked against the master key, of a version of this kind, and
    its master key is the one that a key generation or a join gave this node. *)
Theorem every_version_descends h (L : life P) : lives h L ->
  let n := the_node L in ks_inv (keyStore n) /\
  forall v, (set_IsActive false v ∈ contents (keyStore n) \/ GetActiveVersion (keyStore n) = Some v \/ exists t, LoadKeyShareVersion t (pers n) = Ok (Some v)) ->
    descends h (set_IsActive false v) /\
    (exists chain block a, mkStart chain block a ∈ h /\
       Z.rem (int64 (blk_Number block)) (if bool_decide (chain = 11155111 \/ chain = 31337) then 10 else 50) = 0 /\
       Version v = int64 (blk_Timestamp block)) /\
    exists root, origin h root /\ MasterPublicKey root = MasterPublicKey v.
Proof.
  intros Hl n. destruct (lives_descend h L Hl) as (Hi & Hc & Hp). split; [done|]. intros v Hv.
  assert (Hd : descends h (set_IsActive false v)).
  { destruct Hv as [Hv|[Hv|[t Hv]]]; [by apply Hc|by apply Hc, active_contained|]. apply other_flag. by eapply Hp. }
  split; [done|]. split.
  - destruct (version_of_action _ _ Hd) as (a & (chain & block & Hin) & Hver). exists chain, block, a. split; [done|].
    destruct (lives_started _ _ Hl) as [Hb _]. apply (proj1 (Forall_forall _ _) Hb) in Hin as [Hr Ha]. cbn [st_chain st_block st_action] in *.
    rewrite interval_values in Hr. split; [done|]. destruct v. cbn in *. rewrite Hver. destruct a; naive_solver.
  - destruct (key_of_origin _ _ Hd) as (root & Ho & Hk). exists root. split; [done|]. by destruct v.
Qed.

(** *** A goroutine that is late *)

(** The scheduler starts a key generation for a block at a new boundary. *)
Lemma starts_dkg block fetched query now n ops :
  Z.rem (int64 (blk_Number block)) (GetReshareBlockIntervalForChain (ChainID n)) = 0 ->
  lastProcessedBoundary n <> 0 -> int64 (blk_Number block) <> lastProcessedBoundary n -> activeSessions n = ∅ ->
  GetActiveVersion (keyStore n) = None -> fetchCurrentOperators fetched = Ok ops -> detectClusterState query ops = genesis ->
  exists n', checkScheduledOperations block fetched query now n = (n', Some (StartDKG (int64 (blk_Timestamp block)))) /\
    keyStore n' = keyStore n /\ activeSessions n' = activeSessions n /\ lastProcessedBoundary n' = int64 (blk_Number block) /\ ChainID n' = ChainID n.
Proof.
  intros Hrem Hlast Hne Hs Ha Hf Hd. unfold checkScheduledOperations.
  rewrite Hrem, (proj2 (Z.eqb_neq _ _) Hlast), (proj2 (Z.eqb_neq _ _) Hne), Hf. cbn [Z.eqb negb].
  set (n1 := set_boundary (int64 (blk_Number block)) n).
  destruct (persistBoundary_frame now (int64 (blk_Number block)) n1) as (Hk & Hsess & Hb & Hc).
  exists (persistBoundary now (int64 (blk_Number block)) n1).
  rewrite Hsess. change (activeSessions n1) with (activeSessions n). rewrite Hs, map_size_empty. cbn [Nat.ltb Nat.leb].
  unfold hasExistingShares. rewrite Hk. change (keyStore n1) with (keyStore n). rewrite Ha, bool_decide_false by by intros [? [=]].
  cbn [negb]. rewrite Hd. by split_and!.
Qed.

(** A key generation that succeeds is served, whatever was before. *)
Lemma dkg_serves dkg ts n : ks_inv (keyStore n) -> (RunDKG dkg ts n).2 = Ok tt ->
  let n' := (RunDKG dkg ts n).1 in exists ops v, fetchCurrentOperators (dkg_fetched dkg) = Ok ops /\
  GetActiveVersion (keyStore n') = Some v /\ Version v = ts /\ generation ts ops v /\
  LoadKeyShareVersion ts (pers n') = Ok (Some v) /\ others_kept ts n n'.
Proof.
  intros Hi Hok. pose proof (run_dkg_publishes dkg ts n) as Hp. destruct (RunDKG dkg ts n) as [n' r]. cbn [fst snd] in *.
  destruct Hp as (Ho & _ & Hp). destruct (Hp Hok) as (_ & ops & v & n1 & Hf & _ & Hv & (Hk & _ & Hld)).
  destruct (dkg_version_run _ _ _ _ Hv) as (d & comms & shares & all & ids & Hd). cbv zeta in Hd.
  destruct Hd as (_ & _ & _ & _ & _ & Hver & _ & _ & Hact & _). exists ops, v. rewrite Hk, add_serves by done. rewrite Hver in Hld.
  split_and!; [done..|by exists n1|done|done].
Qed.

(** C30: The test for a session in progress does not see a run that has not made its session
    yet.  A node without a key and without sessions, past its first boundary and whatever
    happened to it before, that reaches two new boundaries before the goroutine of the first
    one gets to run, while no operator reports a key, starts two key generations; if both
    then succeed, whatever the other operators sent in either, the node serves the version
    of the first run and then that of the second one, with the master key that the dealers
    of the second run made, which nothing compares with the key of the first one, and the
    first version stays in the store. *)
Theorem late_goroutine_replaces_the_key h (L : life P) (b1 b2 : Block) f1 f2 ops1 ops2 q1 q2 now1 now2 dkg1 dkg2 (rs : ReshareEnv) :
  let n := the_node L in let interval := GetReshareBlockIntervalForChain (ChainID n) in
  let ts b := int64 (blk_Timestamp b) in let number b := int64 (blk_Number b) in
  lives h L -> up L = true -> activeSessions n = ∅ -> GetActiveVersion (keyStore n) = None ->
  lastProcessedBoundary n <> 0 -> number b1 <> lastProcessedBoundary n -> number b1 <> 0 -> number b2 <> number b1 ->
  Z.rem (number b1) interval = 0 -> Z.rem (number b2) interval = 0 ->
  fetchCurrentOperators f1 = Ok ops1 -> fetchCurrentOperators f2 = Ok ops2 ->
  detectClusterState q1 ops1 = genesis -> detectClusterState q2 ops2 = genesis ->
  let turn := length (goroutines L) in
  let L2 := life_step (life_step L (OnBlock b1 f1 q1 now1)) (OnBlock b2 f2 q2 now2) in
  let L3 := life_step L2 (OnTurn turn dkg1 rs) in let L4 := life_step L3 (OnTurn turn dkg2 rs) in
  goroutines L2 = goroutines L ++ [StartDKG (ts b1); StartDKG (ts b2)] /\
  (ts b1 <> ts b2 -> (RunDKG dkg1 (ts b1) (the_node L2)).2 = Ok tt -> (RunDKG dkg2 (ts b2) (the_node L3)).2 = Ok tt ->
   exists gen1 gen2 v w, fetchCurrentOperators (dkg_fetched dkg1) = Ok gen1 /\ fetchCurrentOperators (dkg_fetched dkg2) = Ok gen2 /\
     GetActiveVersion (keyStore (the_node L3)) = Some v /\ Version v = ts b1 /\ generation (ts b1) gen1 v /\
     GetActiveVersion (keyStore (the_node L4)) = Some w /\ Version w = ts b2 /\ generation (ts b2) gen2 w /\
     LoadKeyShareVersion (ts b1) (pers (the_node L4)) = Ok (Some v)).
Proof.
  intros n interval ts number Hl Hup Hs Ha Hlast Hn1 Hn0 Hn2 Hr1 Hr2 Hf1 Hf2 Hd1 Hd2 turn L2 L3 L4.
  destruct (starts_dkg b1 f1 q1 now1 n ops1) as (n1 & E1 & Hk1 & Hs1 & Hb1 & Hc1); [done..|].
  destruct (starts_dkg b2 f2 q2 now2 n1 ops2) as (n2 & E2 & _); [by rewrite ?Hc1, ?Hb1, ?Hs1, ?Hk1..|].
  assert (EL2 : L2 = mkLife n2 (goroutines L ++ [StartDKG (ts b1); StartDKG (ts b2)]) true).
  { subst L2. cbn [life_step]. rewrite Hup. cbn [negb]. fold n. rewrite E1. cbn [up negb the_node goroutines]. rewrite E2. by rewrite <- app_assoc. }
  split; [by rewrite EL2|]. intros Hne Hok1 Hok2.
  assert (EL3 : L3 = mkLife (RunDKG dkg1 (ts b1) n2).1 (goroutines L ++ [StartDKG (ts b2)]) true).
  { subst L3. rewrite EL2. cbn [life_step up negb goroutines the_node]. subst turn. by rewrite list_lookup_middle, delete_middle. }
  assert (EL4 : L4 = mkLife (RunDKG dkg2 (ts b2) (the_node L3)).1 (goroutines L ++ []) true).
  { subst L4. rewrite EL3. cbn [life_step up negb goroutines the_node]. subst turn. by rewrite list_lookup_middle, delete_middle. }
  assert (Hi2 : ks_inv (keyStore (the_node L2))) by (eapply lives_descend, step, step, Hl).
  assert (Hi3 : ks_inv (keyStore (the_node L3))) by (eapply lives_descend, step, step, step, Hl).
  assert (HN3 : the_node L3 = (RunDKG dkg1 (ts b1) (the_node L2)).1) by by rewrite EL3, EL2.
  assert (HN4 : the_node L4 = (RunDKG dkg2 (ts b2) (the_node L3)).1) by by rewrite EL4.
  clearbody L2 L3 L4.
  destruct (dkg_serves dkg1 (ts b1) (the_node L2) Hi2 Hok1) as (gen1 & v & Hg1 & Hv & Hver1 & Hgen1 & Hld & _).
  destruct (dkg_serves dkg2 (ts b2) (the_node L3) Hi3 Hok2) as (gen2 & w & Hg2 & Hw & Hver2 & Hgen2 & _ & Hoth).
  rewrite <- HN3 in Hv, Hld. rewrite <- HN4 in Hw, Hoth. exists gen1, gen2, v, w. split_and!; try done.
  by rewrite (Hoth _ Hne).
Qed.
End Descent.

(** ** Witnesses: operator 1 of [RunWitness.v] *)

#[local] Existing Instances toy97 toy97_laws toy_tree run_text run_sigs Memory.memory_persistence Memory.memory_laws.
#[local] Instance life_addr : EthAddr := { Hex _ := "0x"; HexToAddress _ := 1 }.

(** A life by its events, with the history that it leaves. *)
Fixpoint live `{Gnark} `{SigLib} `{MerkleLib} `{FrText Fr} `{EthAddr} {P} `{INodePersistence Fr P} (es : list life_event) (h : list start) (L : life P) :
    list start * life P :=
  match es with [] => (h, L) | e :: es => live es (record L e ++ h) (life_step L e) end.

Lemma live_lives `{Gnark} `{SigLib} `{MerkleLib} `{FrText Fr} `{EthAddr} {P} `{INodePersistence Fr P} es h (L : life P) :
  lives h L -> lives (live es h L).1 (live es h L).2.
Proof. revert h L. induction es as [|e es IH]; intros h L Hl; [done|]. by apply IH, step. Qed.

Definition unborn : life (Memory.MemoryPersistence (@Fr toy97)) := mkLife (demo_node 1) [] false.
Lemma unborn_lives : lives [] unborn.
Proof. apply born; [done|]. intros t v. vm_compute. discriminate. Qed.

Definition life_config : Config := mkConfig "" 1 [].
Definition first_block (number timestamp : Z) : life_event :=
  OnBlock (mkBlock number timestamp) (Ok demo_ops) (fun _ => Err "connection refused") 5.
Definition start_up : life_event := OnRestart life_config 1 (Ok tt) 5 (Err "no config").

(** Started, a first block, a boundary, the key generation, a crash and a restart. *)
Definition demo_life : list life_event :=
  [start_up; first_block 50 60; first_block 100 100; OnTurn 0 demo_dkg (demo_reshare_env 1 []); start_up].

Lemma every_version_descends_witness : exists v, GetActiveVersion (keyStore (the_node (live demo_life [] unborn).2)) = Some v /\ Version v = 100 /\
  descends (P := Memory.MemoryPersistence Fr) (live demo_life [] unborn).1 (set_IsActive false v).
Proof.
  assert (Hv : (Version <$> GetActiveVersion (keyStore (the_node (live demo_life [] unborn).2))) = Some 100) by (vm_compute; reflexivity).
  destruct (GetActiveVersion _) as [v|] eqn:Hact; [|discriminate Hv]. exists v. split; [reflexivity|]. split; [by injection Hv|].
  destruct (every_version_descends _ _ (live_lives demo_life [] unborn unborn_lives)) as [_ Hall]. apply Hall. right. left. exact Hact.
Defined.

(** The messages of a second key generation, at another time and of other polynomials. *)
Definition late_poly (d : Address) : list (@Fr toy97) := [toy_fr (d * 5 + 2); toy_fr (d + 7)].
Definition late_share (d j : Address) : @Fr toy97 := peval (late_poly d) (AddressToFr j).
Definition late_comms (d : Address) : list G2Point := com <$> late_poly d.
Definition late_ack (d j : Address) : Acknowledgement := mkAck d j 150 (HashShareForAck (late_share d j)) (HashCommitment (late_comms d)) [1].
Definition late_dkg : DkgEnv := {|
  dkg_fetched := Ok demo_ops; dkg_now := 5; dkg_rnd k := late_poly 1 !! k;
  dkg_shares_batch := [EvDeliver (GotShare 2 (late_share 2 1)); EvDeliver (GotShare 3 (late_share 3 1))];
  dkg_commitments_batch := [EvDeliver (GotCommitment 2 (late_comms 2) 0); EvDeliver (GotCommitment 3 (late_comms 3) 0)];
  dkg_acks_batch := [EvDeliver (GotAck 1 2 (late_ack 1 2)); EvDeliver (GotAck 1 3 (late_ack 1 3))];
  dkg_sign m := Ok m; dkg_submit _ := Ok tt;
  dkg_verify_batch := [EvBroadcast (mkCommitmentBroadcast 2 150 (late_comms 2) [late_ack 2 1] [[9]])] |}.

(** Started and past a first block; then two boundaries before the first goroutine runs. *)
Definition late_start : life (Memory.MemoryPersistence (@Fr toy97)) := (live [start_up; first_block 50 60] [] unborn).2.
Definition late_two : life (Memory.MemoryPersistence (@Fr toy97)) := life_step (life_step late_start (first_block 100 100)) (first_block 150 150).
Definition late_first : life (Memory.MemoryPersistence (@Fr toy97)) := life_step late_two (OnTurn (length (goroutines late_start)) demo_dkg (demo_reshare_env 1 [])).
Definition late_second : life (Memory.MemoryPersistence (@Fr toy97)) := life_step late_first (OnTurn (length (goroutines late_start)) late_dkg (demo_reshare_env 1 [])).
Definition late_peers : list OperatorSetPeer := match fetchCurrentOperators (Ok demo_ops) with Ok l => l | Err _ => [] end.

(** The master key that a node serves. *)
Definition served_key (L : life (Memory.MemoryPersistence (@Fr toy97))) : option G2Point :=
  GetActiveVersion (keyStore (the_node L)) ≫= MasterPublicKey.

(** The two runs give different master keys. *)
Lemma late_goroutine_replaces_the_key_witness : exists v w,
  GetActiveVersion (keyStore (the_node late_first)) = Some v /\ Version v = 100 /\
  GetActiveVersion (keyStore (the_node late_second)) = Some w /\ Version w = 150 /\
  LoadKeyShareVersion 100 (pers (the_node late_second)) = Ok (Some v) /\
  is_Some (MasterPublicKey v) /\ is_Some (MasterPublicKey w) /\ MasterPublicKey v <> MasterPublicKey w.
Proof.
  assert (Hl : lives (live [start_up; first_block 50 60] [] unborn).1 late_start) by apply (live_lives [start_up; first_block 50 60] [] unborn unborn_lives).
  destruct (late_goroutine_replaces_the_key (P := Memory.MemoryPersistence (@Fr toy97)) _ late_start (mkBlock 100 100) (mkBlock 150 150)
    (Ok demo_ops) (Ok demo_ops) late_peers late_peers (fun _ => Err "connection refused") (fun _ => Err "connection refused") 5 5
    demo_dkg late_dkg (demo_reshare_env 1 []) Hl) as [_ Hlate]; [vm_compute; (reflexivity || discriminate)..|].
  destruct Hlate as (gen1 & gen2 & v & w & _ & _ & Hv & Hver1 & _ & Hw & Hver2 & _ & Hold); [discriminate|vm_compute; reflexivity|vm_compute; reflexivity|].
  assert (Hk : is_Some (served_key late_first) /\ is_Some (served_key late_second) /\ served_key late_first <> served_key late_second) by by_compute.
  change (GetActiveVersion (keyStore (the_node late_first)) = Some v) in Hv. change (GetActiveVersion (keyStore (the_node late_second)) = Some w) in Hw.
  unfold served_key in Hk. rewrite Hv, Hw in Hk. exists v, w. destruct Hk as (Hk1 & Hk2 & Hk3).
  repeat (split; [first [exact Hv|exact Hver1|exact Hw|exact Hver2|exact Hold|exact Hk1|exact Hk2]|]). exact Hk3.
Defined.
