(* ===== verification/Handlers.v ===== *)
(** * The protocol endpoints: [pkg/node/handlers.go]

    One definition per handler of the node-to-node endpoints and of the read-only ones, in
    a monad whose failures are HTTP status codes.  The JSON decoding of the standard
    library and the transport signer are parameters.  The theorems: an endpoint changes a
    node only by the one event its authenticated sender may cause, which is what the
    protocol runs of [NodeRun.v] take from their environment; a share is served to the
    operator it was dealt to and to nobody else. *)

From S2P Require Import Prelude Bytes Types Fr Gnark Toy Crypto CryptoFacts KeyStore Persistence Session NodeCore NodeOps Messages NodeRun.

(** ** Replies *)

Inductive http (A : Type) : Type :=
| Reply (a : A)
| HttpError (code : Z) (body : string).
Arguments Reply {A} a.
Arguments HttpError {A} code body.

Definition HM (S A : Type) : Type := S -> S * http A.

#[export] Instance hm_ret S : MRet (HM S) := fun A a s => (s, Reply a).
#[export] Instance hm_bind S : MBind (HM S) := fun A B f m s =>
  match m s with
  | (s', Reply a) => f a s'
  | (s', HttpError code body) => (s', HttpError code body)
  end.

Definition hm_get {S} : HM S S := fun s => (s, Reply s).
Definition hm_modify {S} (f : S -> S) : HM S unit := fun s => (f s, Reply tt).
Definition hm_error {S A} (code : Z) (body : string) : HM S A := fun s => (s, HttpError code body).
(** [if err != nil { http.Error(w, body, code); return }] *)
Definition hm_or {S A} (code : Z) (body : string) (r : res A) : HM S A := fun s =>
  (s, match r with Ok a => Reply a | Err _ => HttpError code body end).
(** The same with [err.Error()] as the body. *)
Definition hm_or_err {S A} (code : Z) (r : res A) : HM S A := fun s =>
  (s, match r with Ok a => Reply a | Err e => HttpError code e end).
(** [if cond { http.Error(w, body, code); return }] *)
Definition hm_reject {S} (cond : bool) (code : Z) (body : string) : HM S unit := if cond then hm_error code body else mret tt.

(** What a 200 means, step by step. *)
Section Reply.
Context {S A B : Type}.


Lemma hm_bind_reply (m : HM S A) (f : A -> HM S B) (s s' : S) b :
  (m ≫= f) s = (s', Reply b) <-> exists s1 a, m s = (s1, Reply a) /\ f a s1 = (s', Reply b).
Proof.
  unfold mbind, hm_bind. destruct (m s) as [s1 [a|c e]]; split.
  - intros Hf. by exists s1, a.
  - by intros (s2 & a' & [= <- <-] & Hf).
  - done.
  - by intros (s2 & a' & ? & _).
Qed.

Lemma hm_or_reply code body (r : res A) (s s' : S) a : hm_or code body r s = (s', Reply a) <-> r = Ok a /\ s' = s.
Proof. unfold hm_or. destruct r; split; [by intros [= <- <-]|by intros [[= <-] ->]|done|by intros [? _]]. Qed.

Lemma hm_reject_reply cond code body (s s' : S) u : hm_reject cond code body s = (s', Reply u) <-> cond = false /\ s' = s.
Proof. unfold hm_reject. destruct cond, u; split; [done|by intros []|by intros [= <-]|by intros [_ ->]]. Qed.

Lemma hm_ret_reply (x a : A) (s s' : S) : (mret x : HM S A) s = (s', Reply a) <-> x = a /\ s' = s.
Proof. unfold mret, hm_ret. split; [by intros [= <- <-]|by intros [-> ->]]. Qed.

Lemma hm_get_reply (s s' a : S) : hm_get s = (s', Reply a) <-> a = s /\ s' = s.
Proof. unfold hm_get. split; [by intros [= <- <-]|by intros [-> ->]]. Qed.
End Reply.

(** [reply H] opens the steps of a handler that answered 200. *)
Ltac reply H :=
  repeat match type of H with
  | (_ ≫= _) _ = (_, Reply _) => apply hm_bind_reply in H; let s := fresh "s" in let a := fresh "a" in let Ha := fresh "Ha" in
      destruct H as (s & a & Ha & H);
      first [ apply hm_or_reply in Ha; destruct Ha as [Ha ->]
            | apply hm_reject_reply in Ha; destruct Ha as [Ha ->]
            | apply hm_get_reply in Ha; destruct Ha as [-> ->]
            | idtac ]
  end.

(** ** The wire *)

Record BaseMessage := mkBaseMessage { base_From : Address; base_To : Address; base_SessionTimestamp : Z }.

(** [encoding/json] on the types of the messages. *)
Class WireLib := {
  json_auth : bytes -> res AuthenticatedMessage;
  json_base : bytes -> res BaseMessage;
  json_share : bytes -> res ShareMessage;
  json_commitment : bytes -> res CommitmentMessage;
  json_ack : bytes -> res AcknowledgementMessage;
  json_share_request : bytes -> res ShareRequestMessage;
  json_broadcast : bytes -> res CommitmentBroadcastMessage;
  json_marshal_share : ShareMessage -> res bytes
}.

(** A request: its method and body. *)
Record Request := mkRequest { Method : string; Body : bytes }.

(** What happens around a handler: the operator list the chain shows, the steps other
    goroutines take while it waits for a session, and the transport signer. *)
Record HandlerEnv {Fr P : Type} := mkHandlerEnv {
  h_fetched : res (list (option OperatorSetPeer));
  h_later : Node Fr P -> Node Fr P;
  h_sign : bytes -> res AuthenticatedMessage
}.
Arguments HandlerEnv : clear implicits.

Section Handlers.
Context `{Gnark} `{SigLib} `{FrText Fr} `{WireLib} {P : Type}.

Notation M := (HM (Node Fr P)).

Definition validateAuthenticatedMessage (env : HandlerEnv Fr P) (r : Request) (expectedRecipient : Address) (n : Node Fr P)
    : res (AuthenticatedMessage * OperatorSetPeer) :=
  authMsg ← wrap "failed to parse authenticated message" (json_auth (Body r));
  baseMsg ← wrap "failed to parse message addresses" (json_base (Payload authMsg));
  _ ← fail_if (negb (base_To baseMsg =? expectedRecipient)) "message not intended for this operator - to: '%s' expected: '%s'";
  operators ← match getSession n (base_SessionTimestamp baseMsg) with
              | Some session => Ok (Operators session)
              | None => wrap "failed to fetch operators for validation" (fetchCurrentOperators (h_fetched env))
              end;
  senderPeer ← from_opt "unknown sender: %s" (findPeerByAddress (base_From baseMsg) operators);
  _ ← wrap "authentication failed" (verifyMessage authMsg senderPeer);
  Ok (authMsg, senderPeer).

(** The two steps every endpoint starts with. *)
Definition authenticated (env : HandlerEnv Fr P) (r : Request) : M (AuthenticatedMessage * OperatorSetPeer) :=
  _ ← hm_reject (negb (bool_decide (Method r = "POST"%string))) 405 "Method not allowed";
  n ← hm_get;
  hm_or 401 "Authentication failed" (validateAuthenticatedMessage env r (OperatorAddress_ n) n).

(** [waitForSession]: at once if the session exists, else whatever is there after the
    wait. *)
Definition waitForSession (env : HandlerEnv Fr P) (sessionTimestamp : Z) : M (option (ProtocolSession Fr)) :=
  n ← hm_get;
  match getSession n sessionTimestamp with
  | Some session => mret (Some session)
  | None => _ ← hm_modify (h_later env); n ← hm_get; mret (getSession n sessionTimestamp)
  end.

(** [session.Handle...(...)]: the session is shared, the update is seen by everyone. *)
Definition store_in_session (sessionTimestamp : Z) (r : res (ProtocolSession Fr)) : M unit :=
  session ← hm_or_err 400 r;
  hm_modify (fun n => set_sessions (<[sessionTimestamp := session]> (activeSessions n)) n).

Definition need_session (code : Z) (body : string) (session : option (ProtocolSession Fr)) : M (ProtocolSession Fr) :=
  match session with Some session => mret session | None => hm_error code body end.

Definition handleDKGCommitment (env : HandlerEnv Fr P) (r : Request) : M unit :=
  '(authMsg, senderPeer) ← authenticated env r;
  commitMsg ← hm_or 400 "Failed to parse commitment message" (json_commitment (Payload authMsg));
  session ← waitForSession env (cm_SessionTimestamp commitMsg);
  session ← need_session 503 "Session timeout" session;
  store_in_session (cm_SessionTimestamp commitMsg)
    (HandleReceivedCommitment (OperatorAddress senderPeer) (cm_Commitments commitMsg) 0 session).

Definition handleDKGShare (env : HandlerEnv Fr P) (r : Request) : M unit :=
  '(authMsg, senderPeer) ← authenticated env r;
  shareMsg ← hm_or 400 "Failed to parse share message" (json_share (Payload authMsg));
  session ← waitForSession env (sm_SessionTimestamp shareMsg);
  session ← need_session 503 "Session timeout" session;
  share ← hm_or 400 "share is required" (from_opt "" (DeserializeFr (sm_Share shareMsg)));
  store_in_session (sm_SessionTimestamp shareMsg) (HandleReceivedShare (OperatorAddress senderPeer) share session).

Definition handleDKGAck (env : HandlerEnv Fr P) (r : Request) : M unit :=
  '(authMsg, senderPeer) ← authenticated env r;
  ackMsg ← hm_or 400 "Failed to parse acknowledgement message" (json_ack (Payload authMsg));
  session ← waitForSession env (am_SessionTimestamp ackMsg);
  session ← need_session 400 "Unknown session" session;
  n ← hm_get;
  let thisAddr := OperatorAddress_ n in
  _ ← hm_or 400 "Invalid acknowledgement"
        (verifyAcknowledgement thisAddr session senderPeer thisAddr (am_SessionTimestamp ackMsg) (am_Ack ackMsg));
  ack ← hm_or_err 400 (from_opt "ack is nil" (am_Ack ackMsg));
  store_in_session (am_SessionTimestamp ackMsg) (HandleReceivedAck thisAddr (OperatorAddress senderPeer) ack session).

Definition handleReshareCommitment (env : HandlerEnv Fr P) (r : Request) : M unit :=
  '(authMsg, senderPeer) ← authenticated env r;
  commitMsg ← hm_or 400 "Failed to parse commitment message" (json_commitment (Payload authMsg));
  session ← waitForSession env (cm_SessionTimestamp commitMsg);
  session ← need_session 503 "Session timeout" session;
  store_in_session (cm_SessionTimestamp commitMsg)
    (HandleReceivedCommitment (OperatorAddress senderPeer) (cm_Commitments commitMsg) (cm_SourceVersion commitMsg) session).

Definition handleReshareShare (env : HandlerEnv Fr P) (r : Request) : M unit :=
  '(authMsg, senderPeer) ← authenticated env r;
  shareMsg ← hm_or 400 "Failed to parse share message" (json_share (Payload authMsg));
  session ← waitForSession env (sm_SessionTimestamp shareMsg);
  session ← need_session 503 "Session timeout" session;
  share ← hm_or 400 "share is required" (from_opt "" (DeserializeFr (sm_Share shareMsg)));
  store_in_session (sm_SessionTimestamp shareMsg) (HandleReceivedShare (OperatorAddress senderPeer) share session).

Definition handleReshareAck (env : HandlerEnv Fr P) (r : Request) : M unit :=
  '(authMsg, senderPeer) ← authenticated env r;
  ackMsg ← hm_or 400 "Failed to parse ack message" (json_ack (Payload authMsg));
  session ← waitForSession env (am_SessionTimestamp ackMsg);
  session ← need_session 400 "Unknown session" session;
  n ← hm_get;
  let thisAddr := OperatorAddress_ n in
  _ ← hm_or 400 "Invalid acknowledgement"
        (verifyAcknowledgement thisAddr session senderPeer thisAddr (am_SessionTimestamp ackMsg) (am_Ack ackMsg));
  ack ← hm_or_err 400 (from_opt "ack is nil" (am_Ack ackMsg));
  store_in_session (am_SessionTimestamp ackMsg) (HandleReceivedAck thisAddr (OperatorAddress senderPeer) ack session).

(** Only the authenticated sender's own share is served, from the live session or from the
    retained ones. *)
Definition handleReshareShareRequest (env : HandlerEnv Fr P) (r : Request) : M AuthenticatedMessage :=
  '(authMsg, senderPeer) ← authenticated env r;
  reqMsg ← hm_or 400 "Failed to parse share request" (json_share_request (Payload authMsg));
  let requester := OperatorAddress senderPeer in
  session ← waitForSession env (sr_SessionTimestamp reqMsg);
  n ← hm_get;
  let share := match session ≫= (fun session => GetMyGeneratedShareFor session requester) with
               | Some share => Some share
               | None => getRetainedGeneratedShare n (sr_SessionTimestamp reqMsg) requester
               end in
  share ← hm_or 404 "No share available for requester" (from_opt "" share);
  respBytes ← hm_or 500 "Failed to marshal share response"
    (json_marshal_share (mkShareMessage (OperatorAddress_ n) requester (sr_SessionTimestamp reqMsg) (Some (SerializeFr share))));
  hm_or 500 "Failed to sign share response" (h_sign env respBytes).

Definition verify_broadcast (sessionTimestamp : Z) (broadcast : CommitmentBroadcast) : M unit := fun n =>
  match VerifyOperatorBroadcast sessionTimestamp (Some broadcast) n with
  | (n', Ok _) => (n', Reply tt)
  | (n', Err _) => (n', HttpError 400 "verification failed: %v")
  end.

(** The broadcast is checked with the operator it names, not with its sender. *)
Definition handleCommitmentBroadcast (env : HandlerEnv Fr P) (r : Request) : M unit :=
  '(authMsg, senderPeer) ← authenticated env r;
  msg ← hm_or 400 "Invalid request: %v" (json_broadcast (Payload authMsg));
  broadcast ← hm_or 400 "broadcast is required" (from_opt "" (cbm_Broadcast msg));
  n ← hm_get;
  _ ← hm_or 404 "Session not found" (from_opt "" (getSession n (cbm_SessionTimestamp msg)));
  verify_broadcast (cbm_SessionTimestamp msg) broadcast.

(** ** The public key endpoint *)

Record CommitmentsResponse := mkCommitmentsResponse {
  cr_operatorAddress : Address;
  cr_commitments : list G2Point;
  cr_masterPublicKey : option G2Point;
  cr_version : Z;
  cr_isActive : bool
}.

Definition handleGetCommitments (r : Request) : M CommitmentsResponse :=
  _ ← hm_reject (negb (bool_decide (Method r = "GET"%string))) 405 "Method not allowed";
  n ← hm_get;
  activeVersion ← hm_or 503 "No active key version" (from_opt "" (GetActiveVersion (keyStore n)));
  mret (mkCommitmentsResponse (OperatorAddress_ n) (Commitments activeVersion) (MasterPublicKey activeVersion)
          (Version activeVersion) (IsActive activeVersion)).

(** [http.MaxBytesReader]: the handler reads at most [maxBytes] bytes of the body; a JSON
    text cut off there is an error to the decoder, as the reader's error is. *)
Definition limited (maxBytes : Z) (r : Request) : Request := mkRequest (Method r) (take (Z.to_nat maxBytes) (Body r)).
Definition maxBodySize {A} (maxBytes : Z) (next : HandlerEnv Fr P -> Request -> A) : HandlerEnv Fr P -> Request -> A :=
  fun env r => next env (limited maxBytes r).

(** The protocol endpoints of the server's router that store a message. *)
Definition protocol_handler (path : string) : option (HandlerEnv Fr P -> Request -> M unit) :=
  if bool_decide (path = "/dkg/share"%string) then Some (maxBodySize (Z.shiftl 64 10) handleDKGShare)
  else if bool_decide (path = "/dkg/commitment"%string) then Some (maxBodySize (Z.shiftl 256 10) handleDKGCommitment)
  else if bool_decide (path = "/dkg/ack"%string) then Some (maxBodySize (Z.shiftl 64 10) handleDKGAck)
  else if bool_decide (path = "/dkg/broadcast"%string) then Some (maxBodySize (Z.shiftl 1 20) handleCommitmentBroadcast)
  else if bool_decide (path = "/reshare/share"%string) then Some (maxBodySize (Z.shiftl 64 10) handleReshareShare)
  else if bool_decide (path = "/reshare/commitment"%string) then Some (maxBodySize (Z.shiftl 256 10) handleReshareCommitment)
  else if bool_decide (path = "/reshare/ack"%string) then Some (maxBodySize (Z.shiftl 64 10) handleReshareAck)
  else None.
End Handlers.

(** The fields every message shares are decoded alike. *)
Class WireLaws `{WireLib} : Prop := {
  json_share_base p m : json_share p = Ok m -> json_base p = Ok (mkBaseMessage (sm_From m) (sm_To m) (sm_SessionTimestamp m));
  json_commitment_base p m : json_commitment p = Ok m -> json_base p = Ok (mkBaseMessage (cm_From m) (cm_To m) (cm_SessionTimestamp m));
  json_ack_base p m : json_ack p = Ok m -> json_base p = Ok (mkBaseMessage (am_From m) (am_To m) (am_SessionTimestamp m));
  json_share_request_base p m : json_share_request p = Ok m -> json_base p = Ok (mkBaseMessage (sr_From m) (sr_To m) (sr_SessionTimestamp m));
  json_broadcast_base p m : json_broadcast p = Ok m -> json_base p = Ok (mkBaseMessage (cbm_From m) (cbm_To m) (cbm_SessionTimestamp m))
}.

(** ** Endpoints as events of a run *)

Section HandlerFacts.
Context `{Gnark} `{SigLib} `{FrText Fr} `{WireLaws} {P : Type}.
Implicit Types (n : Node Fr P) (env : HandlerEnv Fr P) (r : Request).

Notation M := (HM (Node Fr P)).

(** The request carries a message of [peer] to this node, signed by [peer]. *)
Definition authentic env r n (m : AuthenticatedMessage) (peer : OperatorSetPeer) (b : BaseMessage) : Prop :=
  json_auth (Body r) = Ok m /\ json_base (Payload m) = Ok b /\ base_To b = OperatorAddress_ n /\
  (exists ops, (getSession n (base_SessionTimestamp b) = None -> fetchCurrentOperators (h_fetched env) = Ok ops) /\
     (forall s, getSession n (base_SessionTimestamp b) = Some s -> Operators s = ops) /\ peer ∈ ops) /\
  OperatorAddress peer = base_From b /\ Keccak256 (Payload m) = Hash m /\ signed peer (Signature m) (Hash m).

Lemma authenticated_spec env r n : let o := authenticated env r n in
  o.1 = n /\ match o.2 with
             | Reply (m, peer) => Method r = "POST"%string /\ exists b, authentic env r n m peer b
             | HttpError _ _ => True
             end.
Proof.
  unfold authenticated, hm_reject. destruct (decide (Method r = "POST"%string)) as [Hm|Hm]; [rewrite bool_decide_true by done|by rewrite bool_decide_false by done].
  unfold mbind, hm_bind, mret, hm_ret, hm_get, hm_or. cbn [negb]. destruct (validateAuthenticatedMessage env r (OperatorAddress_ n) n) as [[m peer]|e] eqn:Hv; cbn; [|done].
  split; [done|]. split; [done|]. unfold validateAuthenticatedMessage in Hv.
  apply res_bind_ok in Hv as (m' & Hm' & Hv). apply wrap_ok in Hm'. apply res_bind_ok in Hv as (b & Hb & Hv). apply wrap_ok in Hb.
  rewrite fail_if_bind, negb_false_iff, Z.eqb_eq in Hv. destruct Hv as [Hto Hv].
  apply res_bind_ok in Hv as (ops & Hops & Hv). apply res_bind_ok in Hv as (peer' & Hp & Hv). apply from_opt_ok in Hp.
  apply res_bind_ok in Hv as ([] & Hs & [= -> ->]). apply wrap_ok, verify_message_ok in Hs as [Hh Hs].
  apply find_some in Hp as [Hin Hfrom%Z.eqb_eq]. exists b. split_and!; try done. exists ops.
  destruct (getSession n (base_SessionTimestamp b)) as [s|]; [|apply wrap_ok in Hops].
  - injection Hops as <-. split_and!; [done|by intros ? [= ->]|by apply list_elem_of_In].
  - split_and!; [done|done|by apply list_elem_of_In].
Qed.

Lemma waitForSession_spec env ts n : exists n1, (n1 = n \/ n1 = h_later env n) /\
  waitForSession env ts n = (n1, Reply (getSession n1 ts)).
Proof.
  unfold waitForSession, mbind, hm_bind, hm_get, hm_modify, mret, hm_ret.
  destruct (getSession n ts) as [s|] eqn:Hs; [exists n; rewrite Hs; auto|]. exists (h_later env n). auto.
Qed.

(** The events a sender may cause at a node. *)
Definition sent_by (self sender : Address) (e : event) : Prop :=
  match e with
  | EvDeliver (GotShare from _) | EvDeliver (GotCommitment from _ _) => from = sender
  | EvDeliver (GotAck dealer player _) => dealer = self /\ player = sender
  | EvBroadcast _ => True
  end.

Definition accepted (ts : Z) n (e : event) : Prop :=
  match e with
  | EvDeliver d => exists s s', getSession n ts = Some s /\ try_handle d s = Ok s'
  | EvBroadcast bc => (VerifyOperatorBroadcast ts (Some bc) n).2 = Ok tt
  end.

Definition refines_event env r n (o : Node Fr P * http unit) : Prop :=
  match o.2 with
  | Reply _ => exists m peer b n1 e, Method r = "POST"%string /\ authentic env r n m peer b /\ (n1 = n \/ n1 = h_later env n) /\
      sent_by (OperatorAddress_ n1) (OperatorAddress peer) e /\ accepted (base_SessionTimestamp b) n1 e /\
      o.1 = handle_event (base_SessionTimestamp b) n1 e
  | HttpError _ _ => o.1 = n \/ o.1 = h_later env n
  end.

(** What the second half of an endpoint may do. *)
Definition stores (ts : Z) (self sender : Address) n1 (o : Node Fr P * http unit) : Prop :=
  match o.2 with
  | Reply _ => exists e, sent_by self sender e /\ accepted ts n1 e /\ o.1 = handle_event ts n1 e
  | HttpError _ _ => o.1 = n1
  end.

Lemma store_stores ts self sender n1 s d : getSession n1 ts = Some s -> sent_by self sender (EvDeliver d) ->
  stores ts self sender n1 (store_in_session ts (try_handle d s) n1).
Proof.
  intros Hs Hd. unfold store_in_session, stores, hm_or_err, mbind, hm_bind, hm_modify.
  destruct (try_handle d s) as [s'|e] eqn:Ht; cbn; [|done]. exists (EvDeliver d). split_and!; [done|by exists s, s'|].
  cbn. unfold deliver. by rewrite Hs, Ht.
Qed.

(** The skeleton of the storing endpoints. *)
Lemma endpoint_refines {A} env r n (decode : bytes -> res A) (msg : string) (ts : A -> Z) (base : A -> BaseMessage)
    (code : Z) (body : string) (rest : OperatorSetPeer -> A -> ProtocolSession Fr -> M unit) :
  (forall p a, decode p = Ok a -> json_base p = Ok (base a) /\ base_SessionTimestamp (base a) = ts a) ->
  (forall peer a s n1, getSession n1 (ts a) = Some s ->
     stores (ts a) (OperatorAddress_ n1) (OperatorAddress peer) n1 (rest peer a s n1)) ->
  refines_event env r n (('(authMsg, senderPeer) ← authenticated env r;
     a ← hm_or 400 msg (decode (Payload authMsg));
     session ← waitForSession env (ts a);
     session ← need_session code body session;
     rest senderPeer a session) n).
Proof.
  intros Hdec Hrest. unfold mbind, hm_bind at 1. pose proof (authenticated_spec env r n) as Ha.
  destruct (authenticated env r n) as [n0 [[m peer]|c e]]; cbn in Ha; destruct Ha as [-> Ha]; [|by left].
  destruct Ha as (Hm & b & Hau). unfold hm_bind at 1, hm_or.
  destruct (decode (Payload m)) as [a|e] eqn:Hd; [|by left]. destruct (Hdec _ _ Hd) as [Hb Hts].
  destruct (waitForSession_spec env (ts a) n) as (n1 & Hn1 & Hw). unfold hm_bind at 1. rewrite Hw.
  unfold hm_bind, need_session. destruct (getSession n1 (ts a)) as [s|] eqn:Hs; cbn; [|by unfold refines_event; cbn; destruct Hn1; auto].
  specialize (Hrest peer a s n1 Hs). unfold stores, refines_event in *.
  pose proof Hau as (_ & Hb' & _). rewrite Hb in Hb'. injection Hb' as Hb'.
  destruct (rest peer a s n1) as [n2 [u|c e]]; cbn [fst snd] in *; [|by subst; destruct Hn1; auto].
  destruct Hrest as (e & He1 & He2 & He3). exists m, peer, b, n1, e. rewrite <- Hb', Hts. rewrite Hb'. by split_and!.
Qed.

Lemma error_stores {A} ts self sender n1 (code : Z) (body : string) (x : res A) (k : A -> M unit) :
  (forall a, x = Ok a -> stores ts self sender n1 (k a n1)) -> stores ts self sender n1 ((hm_or code body x ≫= k) n1).
Proof. intros Hk. unfold mbind, hm_bind, hm_or. destruct x as [a|e]; [by apply Hk|done]. Qed.

Lemma error_stores' {A} ts self sender n1 (code : Z) (x : res A) (k : A -> M unit) :
  (forall a, x = Ok a -> stores ts self sender n1 (k a n1)) -> stores ts self sender n1 ((hm_or_err code x ≫= k) n1).
Proof. intros Hk. unfold mbind, hm_bind, hm_or_err. destruct x as [a|e]; [by apply Hk|done]. Qed.

Lemma ack_stores body ts peer ack s n1 : getSession n1 ts = Some s ->
  stores ts (OperatorAddress_ n1) (OperatorAddress peer) n1
    ((n ← hm_get; let thisAddr := OperatorAddress_ n in
      _ ← hm_or 400 body (verifyAcknowledgement thisAddr s peer thisAddr ts ack);
      ack ← hm_or_err 400 (from_opt "ack is nil" ack);
      (store_in_session ts (HandleReceivedAck thisAddr (OperatorAddress peer) ack s) : M unit)) n1).
Proof.
  intros Hs. unfold mbind at 1, hm_bind at 1, hm_get. cbv zeta. apply error_stores. intros [] _. apply error_stores'. intros a _.
  by apply (store_stores ts _ _ n1 s (GotAck (OperatorAddress_ n1) (OperatorAddress peer) a)).
Qed.

Lemma broadcast_refines env r n : refines_event env r n (handleCommitmentBroadcast env r n).
Proof.
  unfold handleCommitmentBroadcast. unfold mbind, hm_bind at 1. pose proof (authenticated_spec env r n) as Ha.
  destruct (authenticated env r n) as [n0 [[m peer]|c e]]; cbn in Ha; destruct Ha as [-> Ha]; [|by left].
  destruct Ha as (Hm & b & Hau). unfold hm_bind at 1, hm_or.
  destruct (json_broadcast (Payload m)) as [msg|e] eqn:Hd; [|by left]. pose proof (json_broadcast_base _ _ Hd) as Hb.
  pose proof Hau as (_ & Hb' & _). rewrite Hb in Hb'. injection Hb' as <-.
  unfold hm_bind at 1. destruct (cbm_Broadcast msg) as [bc|]; [|by left].
  unfold hm_bind, hm_get. destruct (getSession n (cbm_SessionTimestamp msg)) as [s|] eqn:Hs; [|by left].
  unfold verify_broadcast, refines_event, from_opt. destruct (VerifyOperatorBroadcast (cbm_SessionTimestamp msg) (Some bc) n) as [n' [[]|e]] eqn:Hv; cbn [fst snd].
  - exists m, peer, (mkBaseMessage (cbm_From msg) (cbm_To msg) (cbm_SessionTimestamp msg)), n, (EvBroadcast bc).
    split_and!; [done|done|by left|done|..]; unfold accepted; cbn [base_SessionTimestamp handle_event]; by rewrite Hv.
  - left. revert Hv. unfold VerifyOperatorBroadcast. cbn. rewrite Hs. destruct (check_broadcast _ _ _); [done|]. by intros [= <- _].
Qed.

(** C7: Every protocol endpoint refines one event of the protocol runs: when it answers
    200, the body is a message signed by an operator of the session (of the chain's list
    before there is one), addressed to this node, and the node has made exactly the step
    of delivering, in the session the signed payload names, one share, commitment vector
    or acknowledgement of that operator; with any other answer the node is as it was, or
    as others left it while the handler waited for the session.  The exception is the
    broadcast endpoint, whose event is not bound to the sender. *)
Theorem endpoints_refine_events (path : string) (h : HandlerEnv Fr P -> Request -> M unit) (env : HandlerEnv Fr P) (r : Request)
    (n : Node Fr P) :
  protocol_handler path = Some h -> exists maxBytes, refines_event env (limited maxBytes r) n (h env r n).
Proof.
  unfold protocol_handler, maxBodySize. repeat case_bool_decide; intros [= <-]; [..|eexists; by apply broadcast_refines| | |].
  all: eexists.
  all: try (apply (endpoint_refines env _ n json_share _ sm_SessionTimestamp (fun m => mkBaseMessage (sm_From m) (sm_To m) (sm_SessionTimestamp m)));
    [intros p a Hp; split; [by apply json_share_base|done]|];
    intros peer a s n1 Hs; apply error_stores; intros x _; by apply (store_stores _ _ _ n1 s (GotShare (OperatorAddress peer) x))).
  all: try (apply (endpoint_refines env _ n json_commitment _ cm_SessionTimestamp (fun m => mkBaseMessage (cm_From m) (cm_To m) (cm_SessionTimestamp m)));
    [intros p a Hp; split; [by apply json_commitment_base|done]|]; intros peer a s n1 Hs).
  - by apply (store_stores _ _ _ n1 s (GotCommitment (OperatorAddress peer) (cm_Commitments a) 0)).
  - apply (endpoint_refines env _ n json_ack _ am_SessionTimestamp (fun m => mkBaseMessage (am_From m) (am_To m) (am_SessionTimestamp m)));
      [intros p a Hp; split; [by apply json_ack_base|done]|]. intros peer a s n1 Hs. by apply ack_stores.
  - by apply (store_stores _ _ _ n1 s (GotCommitment (OperatorAddress peer) (cm_Commitments a) (cm_SourceVersion a))).
  - apply (endpoint_refines env _ n json_ack _ am_SessionTimestamp (fun m => mkBaseMessage (am_From m) (am_To m) (am_SessionTimestamp m)));
      [intros p a Hp; split; [by apply json_ack_base|done]|]. intros peer a s n1 Hs. by apply ack_stores.
Qed.
End HandlerFacts.

(** ** Witness: operator 2 sends its share to operator 1 *)

#[local] Existing Instances toy97 toy97_laws.
#[local] Instance wire_text : FrText (@Fr toy97) := { fr_String _ := ""; fr_SetString s := Some (toy_fr (Z.of_nat (String.length s))) }.
#[local] Instance wire_sigs : SigLib := {
  bn254_sig := unit; bn254_NewSignatureFromBytes _ := Ok tt; bn254_VerifySolidityCompatible _ _ _ := Ok true;
  ecdsa_sig := unit; ecdsa_NewSignatureFromBytes _ := Ok tt; ecdsa_VerifyWithAddress _ _ _ := Ok true }.

(** A wire format in which a message is its three fields. *)
Definition toy_base (p : bytes) : res BaseMessage :=
  match p with [from; to; ts] => Ok (mkBaseMessage from to ts) | _ => Err "unexpected end of JSON input" end.
Definition toy_json {A} (f : BaseMessage -> A) (p : bytes) : res A := b ← toy_base p; Ok (f b).
#[local] Instance toy_wire : WireLib := {
  json_auth b := Ok (mkAuthenticatedMessage b (Keccak256 b) [1]);
  json_base := toy_base;
  json_share := toy_json (fun b => mkShareMessage (base_From b) (base_To b) (base_SessionTimestamp b) (Some "abc"%string));
  json_commitment := toy_json (fun b => mkCommitmentMessage (base_From b) (base_To b) (base_SessionTimestamp b) [com (toy_fr 3)] 0);
  json_ack := toy_json (fun b => mkAcknowledgementMessage (base_From b) (base_To b) (base_SessionTimestamp b) None);
  json_share_request := toy_json (fun b => mkShareRequestMessage (base_From b) (base_To b) (base_SessionTimestamp b));
  json_broadcast := toy_json (fun b => mkCommitmentBroadcastMessage (base_From b) (base_To b) (base_SessionTimestamp b) None);
  json_marshal_share m := Ok [sm_From m; sm_To m; sm_SessionTimestamp m] }.

#[local] Instance toy_wire_laws : WireLaws.
Proof. split; intros p m (b & Hb & [= <-])%res_bind_ok; cbn; rewrite Hb; by destruct b. Qed.

Definition wire_node : Node (@Fr toy97) unit :=
  mkNode 1 1 NewKeyStore tt (mkAbortTracker 0 0) {[7 := newSession "dkg" [toy_peer 1; toy_peer 2] 7 0]} ∅ [] 0 "" None [].
Definition wire_env : HandlerEnv (@Fr toy97) unit := mkHandlerEnv _ _ (Err "no chain") (fun n => n) (fun b => Err "no signer").
Definition wire_request : Request := mkRequest "POST" [2; 1; 7].

Lemma endpoints_refine_events_witness :
  (handleDKGShare wire_env wire_request wire_node).2 = Reply tt /\
  (exists maxBytes, refines_event wire_env (limited maxBytes wire_request) wire_node
     (maxBodySize (Z.shiftl 64 10) handleDKGShare wire_env wire_request wire_node)) /\
  exists s, getSession (handleDKGShare wire_env wire_request wire_node).1 7 = Some s /\ shares s !! 2 = Some (toy_fr 3).
Proof.
  split; [vm_compute; reflexivity|]. split.
  - apply (endpoints_refine_events "/dkg/share"%string). reflexivity.
  - eexists. split; vm_compute; reflexivity.
Defined.
