(* ===== verification/Attestation.v ===== *)
(** * Attestation: [pkg/attestation]

    The method interface and its manager ([manager.go]), the challenge-response method
    ([ecdsa.go]) and the token methods of Google and Intel ([attestation.go],
    [gcp_method.go]).  The signature, JWT and JWK libraries are parameters.  The theorems:
    a signature is accepted only inside the time window and for the application, challenge
    and key it was made over, a signature an honest client makes is accepted, and a token
    is accepted only if every check of its provider holds and it is bound to the
    requester's RSA key. *)

From S2P Require Import Prelude Bytes Types Fr Gnark Toy Crypto GoText.
From Stdlib Require Import Ascii.

Record AttestationRequest := mkAttestationRequest {
  areq_Method : string;
  areq_Attestation : bytes;
  areq_AppID : string;
  areq_Challenge : bytes;
  areq_PublicKey : bytes;
  areq_Metadata : gmap string bytes;
  areq_RSAPubKeyTmp : bytes;
  areq_ExtraData : bytes;
  areq_CCInitData : bytes
}.

(** The interface; [Verify] reads the clock. *)
Record AttestationMethod := mkAttestationMethod {
  Name : string;
  Verify : Z -> option AttestationRequest -> res AttestationClaims
}.

(** ** [manager.go] *)

Definition AttestationManager := gmap string AttestationMethod.
Definition NewAttestationManager : AttestationManager := ∅.

Definition RegisterMethod (method : option AttestationMethod) (m : AttestationManager) : res AttestationManager :=
  method ← from_opt "attestation method is nil" method;
  _ ← fail_if (bool_decide (Name method = ""%string)) "attestation method has empty name";
  Ok (<[Name method := method]> m).
Definition UnregisterMethod (name : string) (m : AttestationManager) : AttestationManager := delete name m.
Definition HasMethod (name : string) (m : AttestationManager) : bool := bool_decide (is_Some (m !! name)).
Definition ListMethods (m : AttestationManager) : list string := (map_to_list m).*1.
Definition MethodCount (m : AttestationManager) : Z := Z.of_nat (size m).

Definition VerifyWithMethod (m : AttestationManager) (methodName : string) (now : Z) (request : AttestationRequest) : res AttestationClaims :=
  method ← from_opt "attestation method '%s' is not registered. Available methods: %v" (m !! methodName);
  wrap "verification failed with method '%s'" (Verify method now (Some request)).

Definition manager_Verify (m : AttestationManager) (now : Z) (request : option AttestationRequest) : res AttestationClaims :=
  request ← from_opt "attestation request is nil" request;
  _ ← fail_if (bool_decide (areq_Method request = ""%string)) "attestation method not specified in request";
  VerifyWithMethod m (areq_Method request) now request.

(** ** [time]

    A time is its nanoseconds since the year 1; [time.Unix] wraps on the seconds and
    [Sub] saturates. *)

Definition unixToInternal : Z := 62135596800.
Definition Second : Z := 1000000000.
Definition Minute : Z := 60 * Second.
Definition time_Unix (sec : Z) : Z := int64 (sec + unixToInternal) * Second.
Definition time_Sub (t u : Z) : Z := Z.max (- 2 ^ 63) (Z.min (2 ^ 63 - 1) (t - u)).

(** ** [ecdsa.go] *)

(** go-ethereum's [crypto] on keys and signatures. *)
Class EcdsaLib := {
  ecdsa_PublicKey : Type;
  ecdsa_PrivateKey : Type;
  UnmarshalPubkey : bytes -> res ecdsa_PublicKey;
  FromECDSAPub : ecdsa_PublicKey -> bytes;
  Public : ecdsa_PrivateKey -> ecdsa_PublicKey;
  PubkeyToAddress : ecdsa_PublicKey -> Address;
  ecdsa_Sign : bytes -> ecdsa_PrivateKey -> res bytes;
  VerifySignature : bytes -> bytes -> bytes -> bool;
  SigToPub : bytes -> bytes -> res ecdsa_PublicKey
}.

Definition DefaultChallengeTimeWindow : Z := 5 * Minute.
Definition NonceLength : Z := 32.

Record ECDSAAttestationConfig := mkECDSAAttestationConfig { ChallengeTimeWindow : Z; AllowedImageDigest : string }.

Definition bytes_text (b : bytes) : list ascii := (fun x => ascii_of_nat (Z.to_nat x)) <$> b.
Definition text_bytes (l : list ascii) : bytes := (fun c => Z.of_nat (nat_of_ascii c)) <$> l.

(** [fmt.Sscanf(challenge, "%d-%s", &timestamp, &nonce)] *)
Definition scan_challenge (challenge : list ascii) : option (Z * list ascii) :=
  '(timestamp, rest) ← scan_d challenge;
  rest ← strip ["-"%char] rest;
  nonce ← scan_s rest;
  Some (timestamp, nonce).

Definition parseChallenge (challenge : list ascii) : res (Z * list ascii) :=
  _ ← fail_if (bool_decide (challenge = [])) "challenge is empty";
  from_opt "challenge must be in format '<timestamp>-<nonce_hex>'" (scan_challenge challenge).

Definition GenerateChallenge (now : Z) (nonce : bytes) : res (list ascii) :=
  _ ← fail_if (negb (Z.of_nat (length nonce) =? NonceLength)) "nonce must be %d bytes";
  Ok (print_d (int64 (now / Second - unixToInternal)) ++ "-"%char :: hex_EncodeToString nonce)%list.

Section ECDSA.
Context `{Gnark} `{EcdsaLib}.

(** [keccak256(appID || "-" || challenge || "-" || publicKey_hex)] *)
Definition challenge_message (appID : string) (challenge publicKey : bytes) : bytes :=
  string_bytes appID ++ [45] ++ challenge ++ [45] ++ text_bytes (hex_EncodeToString publicKey).
Definition challenge_hash (appID : string) (challenge publicKey : bytes) : bytes :=
  Keccak256 (challenge_message appID challenge publicKey).

Definition NewECDSAAttestationMethod (config : ECDSAAttestationConfig) : ECDSAAttestationConfig :=
  if ChallengeTimeWindow config =? 0 then mkECDSAAttestationConfig DefaultChallengeTimeWindow (AllowedImageDigest config) else config.

(** The recovery byte is rewritten in the request; it is not part of what is verified. *)
Definition ecdsa_Verify (e : ECDSAAttestationConfig) (now : Z) (request : option AttestationRequest) : res AttestationClaims :=
  request ← from_opt "attestation request is nil" request;
  _ ← fail_if (bool_decide (areq_AppID request = ""%string)) "app_id is required";
  _ ← fail_if (bool_decide (areq_Challenge request = [])) "challenge is required";
  _ ← fail_if (bool_decide (areq_PublicKey request = [])) "public_key is required";
  _ ← fail_if (bool_decide (areq_Attestation request = [])) "signature is required";
  '(timestamp, nonce) ← wrap "invalid challenge format" (parseChallenge (bytes_text (areq_Challenge request)));
  let age := time_Sub now (time_Unix timestamp) in
  _ ← fail_if (age <? 0) "challenge timestamp is in the future";
  _ ← fail_if (age >? ChallengeTimeWindow e) "challenge expired (age: %v, max: %v)";
  _ ← fail_if (negb (Z.of_nat (length nonce) =? NonceLength * 2)) "invalid nonce length: expected %d hex chars, got %d";
  _ ← wrap "invalid public key" (UnmarshalPubkey (areq_PublicKey request));
  let messageHash := challenge_hash (areq_AppID request) (areq_Challenge request) (areq_PublicKey request) in
  let signature := areq_Attestation request in
  _ ← fail_if (negb (length signature =? 65)%nat) "invalid signature length: expected 65 bytes, got %d";
  _ ← fail_if (negb (VerifySignature (areq_PublicKey request) messageHash (take 64 signature))) "signature verification failed";
  let imageDigest := if bool_decide (AllowedImageDigest e = ""%string) then "ecdsa:unverified"%string else AllowedImageDigest e in
  Ok (mkAttestationClaims (areq_AppID request) imageDigest "" "" timestamp 0 (areq_PublicKey request)
        (mkContainerPolicy [] [] ∅ ∅ "") [] "").

Definition ECDSAAttestationMethod (e : ECDSAAttestationConfig) : AttestationMethod := mkAttestationMethod "ecdsa" (ecdsa_Verify e).

Definition SignChallenge (privateKey : option ecdsa_PrivateKey) (appID : string) (challenge : list ascii) : res bytes :=
  privateKey ← from_opt "private key is nil" privateKey;
  wrap "failed to sign message"
    (ecdsa_Sign (challenge_hash appID (text_bytes challenge) (FromECDSAPub (Public privateKey))) privateKey).

(** [sig[64]] panics on a shorter signature: [None]. *)
Definition RecoverAddress (appID : string) (challenge : list ascii) (publicKey signature : bytes) : option (res Address) :=
  v ← signature !! 64%nat;
  let sig := if v >=? 27 then <[64%nat := v - 27]> signature else signature in
  Some (pub ← wrap "failed to recover public key" (SigToPub (challenge_hash appID (text_bytes challenge) publicKey) sig);
        Ok (PubkeyToAddress pub)).
End ECDSA.

(** ** [attestation.go] *)

Definition googleIssuer : string := "https://confidentialcomputing.googleapis.com".
Definition intelIssuer : string := "https://portal.trustauthority.intel.com".
Definition googleAudience : string := "https://sts.googleapis.com".
Definition KMSJWTAudience : string := "EigenX KMS".

Inductive AttestationProvider := GoogleConfidentialSpace | IntelTrustAuthority | OtherProvider (p : Z).

(** A JSON value decoded into [any], as far as [eat_nonce] is inspected. *)
Inductive any := AnyNil | AnyString (s : string) | AnyArray (l : list any) | AnyOther.

(** [ConfidentialSpaceToken] with its nested structs; only the fields the code reads. *)
Record ConfidentialSpaceToken := mkConfidentialSpaceToken {
  Exp : Z;
  Iat : Z;
  EatNonce : any;
  SwName : string;
  AttesterTCB : list string;
  HwModel : string;
  DbgStat : string;
  SwVersion : list string;
  Container_ImageDigest : string;
  Container_Policy : ContainerPolicy;
  GCE_ProjectID : string;
  GCE_InstanceName : string;
  SupportAttributes : list string;
  GcpAttesterTcbStatus : string
}.

(** The JWS, JWK and JWT library: the headers of a token's signatures, key sets, and the
    parse that verifies signature and times against a key set. *)
Record jws_header := mkJwsHeader { jws_Algorithm : option string; jws_KeyID : option string }.
Class JwtLib := {
  jwk : Type;
  jwk_Algorithm : jwk -> option string;
  jwk_AddKey : jwk -> list jwk -> list jwk;
  jwt_token : Type;
  jws_Parse : string -> res (list jws_header);
  jwt_Parse : Z -> string -> list jwk -> res jwt_token;
  jwt_Issuer : jwt_token -> option string;
  jwt_Audience : jwt_token -> option (list string);
  jwt_JwtID : jwt_token -> option string;
  json_marshal_token : jwt_token -> res bytes;
  json_cs_token : bytes -> res ConfidentialSpaceToken
}.

Record AttestationVerifier `{JwtLib} := mkAttestationVerifier {
  googleJwksCache : list jwk;
  intelJwksCache : list jwk;
  projectID : string;
  debugMode : bool
}.
Arguments AttestationVerifier {_}.

Record validationConfig := mkValidationConfig {
  expectedHwModel : string;
  requireAttesterTCB : bool;
  requiredSupportAttr : string;
  requireTDXSubmods : bool
}.
Definition googleValidationConfig : validationConfig := mkValidationConfig "GCP_INTEL_TDX" true "STABLE" false.
Definition intelValidationConfig : validationConfig := mkValidationConfig "INTEL_TDX" false "STABLE" true.

Definition extractNonce (eatNonce : any) : res string :=
  match eatNonce with
  | AnyNil => Ok ""%string
  | AnyString s => Ok s
  | AnyArray [AnyString s] => Ok s
  | AnyArray _ => Err "eat_nonce array must contain exactly one string element, got %d elements"
  | AnyOther => Err "eat_nonce must be a string or array of strings, got %T"
  end.

(** [strings.Split] at a one-byte delimiter. *)
Fixpoint Split (c : ascii) (l : list ascii) : list (list ascii) :=
  match l with
  | [] => [[]]
  | a :: l => if Ascii.eqb a c then [] :: Split c l
              else match Split c l with p :: ps => (a :: p) :: ps | [] => [[a]] end
  end.

Definition extractAppIDFromInstanceName (instanceName : string) : res string :=
  let instanceNameParts := Split "-" (chars_of instanceName) in
  _ ← fail_if (length instanceNameParts <? 2)%nat "invalid instance name: %s. Expected at least %d parts";
  Ok (string_of (default [] (last instanceNameParts))).

(** [fmt.Sscanf(v, "%d", &swVersionInt)]: what follows the number is ignored. *)
Definition scan_version (v : string) : res Z :=
  '(n, _) ← from_opt "failed to parse swversion" (scan_d (chars_of v)); Ok n.

Section Token.
Context `{JwtLib} `{Gnark}.

Definition validateToken (av : AttestationVerifier) (csToken : ConfidentialSpaceToken) (cfg : validationConfig) : res unit :=
  _ ← fail_if (negb (bool_decide (SwName csToken = "CONFIDENTIAL_SPACE"%string))) "invalid software name: %s. Expected CONFIDENTIAL_SPACE";
  _ ← fail_if (requireAttesterTCB cfg && negb (bool_decide (AttesterTCB csToken = ["INTEL"%string]))) "invalid attester_tcb: %v. Expected [INTEL]";
  _ ← fail_if (negb (bool_decide (HwModel csToken = expectedHwModel cfg))) "invalid hwmodel: %s. Expected %s";
  v ← from_opt "empty swversion array" (head (SwVersion csToken));
  swVersionInt ← scan_version v;
  _ ← fail_if (swVersionInt <? 250300) "invalid swversion: %d. Expected >= 250300 for TDX support";
  _ ← (if requireTDXSubmods cfg then
         _ ← fail_if (bool_decide (GcpAttesterTcbStatus csToken = ""%string)) "tdx submods not found in Intel Trust Authority token";
         fail_if (negb (bool_decide (GcpAttesterTcbStatus csToken = "UpToDate"%string))) "invalid tdx.gcp_attester_tcb_status: %s. Expected UpToDate"
       else Ok tt);
  _ ← (if negb (debugMode av) then
         _ ← fail_if (negb (bool_decide (DbgStat csToken = "disabled-since-boot"%string))) "invalid dbgstat: %s. Expected disabled-since-boot";
         fail_if (negb (bool_decide (requiredSupportAttr cfg ∈ SupportAttributes csToken)))
           "invalid confidential_space.support_attributes: %v. Expected to contain %s"
       else Ok tt);
  fail_if (negb (bool_decide (GCE_ProjectID csToken = projectID av))) "invalid project_id: %s. Expected %s".

Definition validateConfidentialSpaceToken (av : AttestationVerifier) (csToken : ConfidentialSpaceToken) : res unit :=
  validateToken av csToken googleValidationConfig.
Definition validateIntelTrustAuthorityToken (av : AttestationVerifier) (csToken : ConfidentialSpaceToken) : res unit :=
  validateToken av csToken intelValidationConfig.

Definition getFilteredKeySetForToken (tokenString : string) (jwksCache : list jwk) : res (list jwk) :=
  signatures ← wrap "failed to parse JWS message" (jws_Parse tokenString);
  header ← from_opt "token has no signatures" (head signatures);
  tokenAlg ← from_opt "token does not specify an algorithm" (jws_Algorithm header);
  keyID ← from_opt "token does not specify a key ID" (jws_KeyID header);
  _ ← fail_if (bool_decide (keyID = ""%string)) "token does not specify a key ID";
  let filteredKeySet := for_acc (fun key set => if bool_decide (jwk_Algorithm key = Some tokenAlg) then jwk_AddKey key set else set) jwksCache [] in
  _ ← fail_if (length filteredKeySet =? 0)%nat "no keys found in JWKS matching algorithm %s";
  Ok filteredKeySet.

Definition VerifyAttestation (av : AttestationVerifier) (now : Z) (tokenString : string) (provider : AttestationProvider) : res AttestationClaims :=
  '(jwksCache, expectedIssuer, validateFunc) ←
    match provider with
    | GoogleConfidentialSpace => Ok (googleJwksCache av, googleIssuer, validateConfidentialSpaceToken av)
    | IntelTrustAuthority => Ok (intelJwksCache av, intelIssuer, validateIntelTrustAuthorityToken av)
    | OtherProvider _ => Err "unknown attestation provider: %d"
    end;
  filteredKeySet ← getFilteredKeySetForToken tokenString jwksCache;
  token ← wrap "token parsing/verification failed" (jwt_Parse now tokenString filteredKeySet);
  issuer ← from_opt "issuer claim not found in token" (jwt_Issuer token);
  _ ← fail_if (negb (bool_decide (issuer = expectedIssuer))) "invalid issuer: expected %s, got %s";
  audiences ← from_opt "audience claim not found in token" (jwt_Audience token);
  audStr ← match audiences with [audStr] => Ok audStr | _ => Err "audience must contain exactly one value, got %d" end;
  _ ← fail_if (negb (bool_decide (audStr = googleAudience)) && negb (bool_decide (audStr = KMSJWTAudience)))
        "invalid audience: expected %s or %s, got %s";
  tokenBytes ← wrap "failed to marshal token to JSON" (json_marshal_token token);
  csToken ← wrap "failed to unmarshal token JSON to ConfidentialSpaceToken" (json_cs_token tokenBytes);
  _ ← validateFunc csToken;
  appID ← wrap "failed to extract app ID from instance name" (extractAppIDFromInstanceName (GCE_InstanceName csToken));
  nonce ← wrap "failed to extract nonce" (extractNonce (EatNonce csToken));
  Ok (mkAttestationClaims appID (Container_ImageDigest csToken) nonce (default ""%string (jwt_JwtID token)) (Iat csToken) (Exp csToken) []
        (Container_Policy csToken) [] "").

(** ** [gcp_method.go] *)

Definition gcp_Name (provider : AttestationProvider) : string :=
  match provider with
  | GoogleConfidentialSpace => "gcp"
  | IntelTrustAuthority => "intel"
  | OtherProvider _ => "unknown"
  end.

Definition gcp_Verify (av : AttestationVerifier) (provider : AttestationProvider) (now : Z) (request : option AttestationRequest) : res AttestationClaims :=
  request ← from_opt "attestation request is nil" request;
  _ ← fail_if (bool_decide (areq_Attestation request = [])) "empty attestation token";
  claims ← wrap "attestation verification failed" (VerifyAttestation av now (string_of (bytes_text (areq_Attestation request))) provider);
  _ ← fail_if (bool_decide (areq_RSAPubKeyTmp request = [])) "RSAPubKeyTmp is required for nonce binding";
  let expectedNonce := hex_EncodeToString (sha256 (areq_RSAPubKeyTmp request ++ areq_ExtraData request)) in
  _ ← fail_if (negb (bool_decide (ToLower (chars_of (claims_Nonce claims)) = expectedNonce)))
        "nonce mismatch: ephemeral RSA key (and extra_data if present) not bound to attestation token";
  _ ← fail_if (bool_decide (claims_JTI claims = ""%string)) "attestation token missing jti claim";
  Ok claims.

Definition GCPAttestationMethod (av : AttestationVerifier) (provider : AttestationProvider) : AttestationMethod :=
  mkAttestationMethod (gcp_Name provider) (gcp_Verify av provider).
End Token.

(** What go-ethereum documents of a key pair: the signature is 65 bytes and its first 64
    verify under the uncompressed encoding of the public key, which decodes to the key. *)
Class EcdsaLaws `{EcdsaLib} : Prop := {
  ecdsa_sign_verify h k s : ecdsa_Sign h k = Ok s ->
    length s = 65%nat /\ VerifySignature (FromECDSAPub (Public k)) h (take 64 s) = true;
  unmarshal_pubkey p : UnmarshalPubkey (FromECDSAPub p) = Ok p;
  pubkey_not_nil p : FromECDSAPub p <> []
}.

(** ** The challenge-response method *)

(** A wrapped timestamp is far in the past: it never looks fresh. *)
Lemma fresh_timestamp now ts window : is_int64 ts -> 0 <= now -> window < 2 ^ 63 - 1 ->
  0 <= time_Sub now (time_Unix ts) <= window -> 0 <= now - (ts + unixToInternal) * Second <= window.
Proof.
  unfold time_Sub, time_Unix, is_int64, Second, unixToInternal. intros Hts Hnow Hw Ha.
  assert (Hr : int64 (ts + 62135596800) = ts + 62135596800 \/ int64 (ts + 62135596800) = ts + 62135596800 - 2 ^ 64).
  { destruct (Z_lt_dec (ts + 62135596800) (2 ^ 63)); [left; apply int64_id; unfold is_int64; lia|right].
    unfold int64. rewrite (Z.mod_small (ts + 62135596800)) by lia. destruct (Z.ltb_spec (ts + 62135596800) (2 ^ 63)); lia. }
  destruct Hr as [Hr|Hr]; rewrite Hr in Ha; lia.
Qed.

Lemma parseChallenge_ok l ts nonce : parseChallenge l = Ok (ts, nonce) ->
  l <> [] /\ is_int64 ts /\ exists rest rest', scan_d l = Some (ts, "-"%char :: rest) /\ scan_s rest = Some nonce /\ rest' = rest.
Proof.
  unfold parseChallenge. rewrite fail_if_bind, bool_decide_eq_false. intros [Hl Hs]. split; [done|].
  apply from_opt_ok in Hs. unfold scan_challenge in Hs.
  destruct (scan_d l) as [[z r]|] eqn:Hd; [|done]. cbn [mbind option_bind] in Hs.
  destruct r as [|c r]; [done|]. cbn [strip] in Hs. destruct (Ascii.eqb_spec "-" c) as [<-|]; [|done]. cbn [mbind option_bind] in Hs.
  destruct (scan_s r) as [nn|] eqn:Hn; [|done]. injection Hs as <- <-. split; [|by exists r, r].
  unfold scan_d in Hd. destruct (SkipSpace _ _) as [l'|]; [|done]. cbn [mbind option_bind] in Hd.
  destruct (match l' with [] => _ | _ => _ end) as [sg l'']. destruct (scan_digits l'') as [ds r']. case_bool_decide; [done|].
  destruct (Atoi (sg ++ ds)) as [z'|] eqn:Ha; [|done]. injection Hd as <- _.
  unfold Atoi in Ha. destruct (match sg ++ ds with [] => _ | _ => _ end) as [neg body]. destruct body as [|c body]; [done|].
  destruct (digits 0 (c :: body)) as [v|]; [|done]. cbn [mbind option_bind] in Ha. unfold in_int in Ha.
  destruct (_ && _) eqn:Hb; [|done]. injection Ha as <-. apply andb_true_iff in Hb as [Hb1%Z.leb_le Hb2%Z.ltb_lt]. done.
Qed.

Section ECDSAFacts.
Context `{Gnark} `{EcdsaLib}.
Implicit Types (cfg : ECDSAAttestationConfig).

(** An accepted challenge is fresh and its signature verifies: the claims are those of
    the request, the challenge names a time at most the window before now (a timestamp that
    overflows the clock never does), its nonce has the required length, and the signature
    of 65 bytes verifies, under the request's public key, on the hash of this application,
    this challenge and this key. *)
Theorem ecdsa_attestation_sound cfg (now : Z) (request : AttestationRequest) (claims : AttestationClaims) :
  0 <= now -> ChallengeTimeWindow cfg < 2 ^ 63 - 1 -> ecdsa_Verify cfg now (Some request) = Ok claims ->
  claims_AppID claims = areq_AppID request /\ claims_PublicKey claims = areq_PublicKey request /\ claims_JTI claims = ""%string /\
  areq_AppID request <> ""%string /\ is_ok (UnmarshalPubkey (areq_PublicKey request)) = true /\
  (exists ts nonce, parseChallenge (bytes_text (areq_Challenge request)) = Ok (ts, nonce) /\ Z.of_nat (length nonce) = 2 * NonceLength /\
     0 <= now - (ts + unixToInternal) * Second <= ChallengeTimeWindow cfg) /\
  length (areq_Attestation request) = 65%nat /\
  VerifySignature (areq_PublicKey request) (challenge_hash (areq_AppID request) (areq_Challenge request) (areq_PublicKey request))
    (take 64 (areq_Attestation request)) = true.
Proof.
  intros Hnow Hw Hv. unfold ecdsa_Verify in Hv. cbn [from_opt mbind res_bind] in Hv.
  rewrite !fail_if_bind, !bool_decide_eq_false in Hv. destruct Hv as (Happ & _ & _ & _ & Hv).
  apply res_bind_ok in Hv as ([ts nonce] & Hp & Hv). apply wrap_ok in Hp. cbv zeta in Hv.
  rewrite !fail_if_bind in Hv. destruct Hv as (Ha & Hb & Hn & Hv). apply res_bind_ok in Hv as (pk & Hpk & Hv). apply wrap_ok in Hpk.
  rewrite !fail_if_bind, !negb_false_iff in Hv. destruct Hv as (Hlen & Hsig & [= <-]). cbn [claims_AppID claims_PublicKey claims_JTI].
  rewrite Hpk. split_and!; try done.
  - exists ts, nonce. split; [done|]. split; [apply negb_false_iff, Z.eqb_eq in Hn; lia|].
    apply (fresh_timestamp now ts); try done; [by apply parseChallenge_ok in Hp as (_ & ? & _)|lia].
  - by apply Nat.eqb_eq.
Qed.
End ECDSAFacts.

Lemma bytes_text_bytes l : bytes_text (text_bytes l) = l.
Proof.
  unfold bytes_text, text_bytes. induction l as [|c l IH]; [done|]. rewrite !fmap_cons, IH, Nat2Z.id, ascii_nat_embedding. done.
Qed.

Lemma parse_generated ts nonce : is_int64 ts -> nonce <> [] -> Forall (fun x => 0 <= x < 256) nonce ->
  parseChallenge (print_d ts ++ "-"%char :: hex_EncodeToString nonce) = Ok (ts, hex_EncodeToString nonce).
Proof.
  intros Hts Hne Hn. unfold parseChallenge, scan_challenge. rewrite bool_decide_false by (by destruct (print_d ts)).
  cbn [fail_if mbind res_bind]. rewrite scan_d_print_d; [|done|by intros c [= <-]].
  cbn [mbind option_bind strip]. rewrite ?Ascii.eqb_refl. cbn [strip mbind option_bind]. rewrite scan_s_solid; [done|by apply hex_solid|].
  intros Hh%(f_equal length). rewrite length_hex in Hh. destruct nonce; [done|]. cbn in Hh. lia.
Qed.

Section ECDSARoundtrip.
Context `{Gnark} `{EcdsaLaws}.

(** The challenge-response protocol completes: the signature an owner makes with the
    helpers of this package, on a challenge generated at [t0], is accepted at every later
    time within the window of the second [t0] falls in, and the claims carry the
    application and the owner's key. *)
Theorem ecdsa_attestation_roundtrip (cfg : ECDSAAttestationConfig) (t0 t1 : Z) (nonce rsa : bytes) (appID : string)
    (key : ecdsa_PrivateKey) (ch : list ascii) (sig : bytes) :
  unixToInternal * Second <= t0 <= t1 -> t0 < 2 ^ 63 * Second ->
  t1 - t0 / Second * Second <= ChallengeTimeWindow cfg < 2 ^ 63 ->
  Forall (fun x => 0 <= x < 256) nonce -> appID <> ""%string ->
  GenerateChallenge t0 nonce = Ok ch -> SignChallenge (Some key) appID ch = Ok sig ->
  exists claims, ecdsa_Verify cfg t1 (Some (mkAttestationRequest "ecdsa" sig appID (text_bytes ch) (FromECDSAPub (Public key)) ∅ rsa [] [])) = Ok claims /\
    claims_AppID claims = appID /\ claims_PublicKey claims = FromECDSAPub (Public key).
Proof.
  unfold Second, unixToInternal. intros Ht Hb Hw Hn Happ Hg Hs. unfold GenerateChallenge in Hg.
  rewrite fail_if_bind, negb_false_iff, Z.eqb_eq in Hg. destruct Hg as [Hlen [= <-]]. unfold NonceLength, Second, unixToInternal in *.
  set (sec := t0 / 1000000000) in *. assert (Hsec : 62135596800 <= sec < 2 ^ 63).
  { unfold sec. split; [apply Z.div_le_lower_bound; lia|apply Z.div_lt_upper_bound; lia]. }
  pose proof (Z.mul_div_le t0 1000000000 ltac:(lia)) as Hfl. fold sec in Hfl.
  rewrite int64_id in Hs |- * by (unfold is_int64; lia). set (ch := (print_d _ ++ _)%list) in *.
  unfold SignChallenge in Hs. cbn [from_opt mbind res_bind] in Hs. apply wrap_ok, ecdsa_sign_verify in Hs as [H65 Hver].
  assert (Hsig : sig <> []) by (by intros ->). assert (Hch : text_bytes ch <> []) by (subst ch; by destruct (print_d _)).
  assert (Hparse : parseChallenge ch = Ok (sec - 62135596800, hex_EncodeToString nonce))
    by (apply parse_generated; [unfold is_int64; lia|by intros ->|done]).
  assert (Hage : 0 <= time_Sub t1 (time_Unix (sec - 62135596800)) <= ChallengeTimeWindow cfg).
  { unfold time_Sub, time_Unix, Second, unixToInternal. replace (sec - 62135596800 + 62135596800) with sec by lia.
    rewrite int64_id by (unfold is_int64; lia). lia. }
  match goal with |- exists c, ?x = Ok c /\ _ => enough (exists d, x = Ok (mkAttestationClaims appID d "" "" (sec - 62135596800) 0
    (FromECDSAPub (Public key)) (mkContainerPolicy [] [] ∅ ∅ "") [] "")) as [d ->] by (by eexists) end. eexists.
  unfold ecdsa_Verify. cbn [from_opt mbind res_bind areq_AppID areq_Challenge areq_PublicKey areq_Attestation].
  rewrite !fail_if_bind, !bool_decide_eq_false. split_and!; [done|done|apply pubkey_not_nil|done|].
  apply res_bind_ok. eexists. split; [by rewrite wrap_ok, bytes_text_bytes, Hparse|]. cbv beta iota zeta.
  rewrite !fail_if_bind. split_and!; [lia|lia|rewrite negb_false_iff, Z.eqb_eq, length_hex; unfold NonceLength; lia|].
  apply res_bind_ok. eexists. split; [by rewrite wrap_ok, unmarshal_pubkey|]. cbv zeta.
  rewrite !fail_if_bind, H65, Hver. by split_and!.
Qed.
End ECDSARoundtrip.

(** ** The token methods *)

(** What the libraries document: a parsed token carries a signature by a key of the set,
    and a set built with [AddKey] holds nothing that was not added. *)
Class JwtLaws `{JwtLib} := {
  token_signed : jwk -> string -> Z -> Prop;
  jwt_parse_signed now s ks tok : jwt_Parse now s ks = Ok tok -> exists k, k ∈ ks /\ token_signed k s now;
  jwk_add_key_in k x ks : x ∈ jwk_AddKey k ks -> x = k \/ x ∈ ks
}.

Lemma Split_last c l : exists p ps, Split c l = p :: ps /\
  (ps = [] -> l = p) /\
  forall q, last (p :: ps) = Some q -> c ∉ q /\ (ps <> [] -> exists pre, l = (pre ++ c :: q)%list).
Proof.
  induction l as [|a l (p & ps & Hs & Hnil & Hl)]; cbn [Split].
  - exists [], []. split_and!; [done|done|]. intros q [= <-]. split; [apply not_elem_of_nil|done].
  - destruct (Ascii.eqb_spec a c) as [->|Hne].
    + exists [], (Split c l). rewrite Hs in *. split_and!; [done|done|]. intros q Hq. cbn [last] in Hq. destruct (Hl q Hq) as [Hin Hpre].
      split; [done|]. intros _. destruct ps as [|p' ps]; [|destruct Hpre as [pre ->]; [done|by exists (c :: pre)]].
      injection Hq as <-. rewrite (Hnil eq_refl). by exists [].
    + rewrite Hs. exists (a :: p), ps. split_and!; [done|by intros ->; rewrite (Hnil eq_refl)|]. intros q Hq.
      destruct ps as [|p' ps].
      * injection Hq as <-. destruct (Hl p eq_refl) as [Hin _]. split; [|done]. rewrite not_elem_of_cons. split; [congruence|done].
      * destruct (Hl q Hq) as [Hin Hpre]. split; [done|]. intros _. destruct Hpre as [pre ->]; [done|]. by exists (a :: pre).
Qed.

Section TokenFacts.
Context `{JwtLaws} `{Gnark}.

(** The checks a token of a provider has to pass. *)
Definition token_ok (av : AttestationVerifier) (provider : AttestationProvider) (t : ConfidentialSpaceToken) : Prop :=
  SwName t = "CONFIDENTIAL_SPACE"%string /\ GCE_ProjectID t = projectID av /\
  (exists v n, head (SwVersion t) = Some v /\ scan_version v = Ok n /\ 250300 <= n) /\
  (debugMode av = false -> DbgStat t = "disabled-since-boot"%string /\ "STABLE"%string ∈ SupportAttributes t) /\
  match provider with
  | GoogleConfidentialSpace => HwModel t = "GCP_INTEL_TDX"%string /\ AttesterTCB t = ["INTEL"%string]
  | IntelTrustAuthority => HwModel t = "INTEL_TDX"%string /\ GcpAttesterTcbStatus t = "UpToDate"%string
  | OtherProvider _ => False
  end.

Lemma validateToken_ok av t cfg : validateToken av t cfg = Ok tt ->
  SwName t = "CONFIDENTIAL_SPACE"%string /\ GCE_ProjectID t = projectID av /\
  (exists v n, head (SwVersion t) = Some v /\ scan_version v = Ok n /\ 250300 <= n) /\
  (debugMode av = false -> DbgStat t = "disabled-since-boot"%string /\ requiredSupportAttr cfg ∈ SupportAttributes t) /\
  HwModel t = expectedHwModel cfg /\ (requireAttesterTCB cfg = true -> AttesterTCB t = ["INTEL"%string]) /\
  (requireTDXSubmods cfg = true -> GcpAttesterTcbStatus t = "UpToDate"%string).
Proof.
  unfold validateToken. rewrite !fail_if_bind, !negb_false_iff, !bool_decide_eq_true. intros (Hsw & Htcb & Hhw & Hv).
  apply res_bind_ok in Hv as (v & Hv & Hn). apply from_opt_ok in Hv. apply res_bind_ok in Hn as (n & Hn & Hv'). rewrite fail_if_bind in Hv'.
  destruct Hv' as [Hge Hv']. apply res_bind_ok in Hv' as ([] & Htdx & Hv'). apply res_bind_ok in Hv' as ([] & Hdbg & Hpr).
  apply fail_if_ok in Hpr. rewrite negb_false_iff, bool_decide_eq_true in Hpr. split_and!; try done.
  - exists v, n. split_and!; [done|done|lia].
  - intros Hd. rewrite Hd in Hdbg. cbn [negb] in Hdbg. rewrite fail_if_bind, negb_false_iff, bool_decide_eq_true in Hdbg.
    destruct Hdbg as [? Hdbg%fail_if_ok]. by rewrite negb_false_iff, bool_decide_eq_true in Hdbg.
  - intros Hr. rewrite Hr in Htcb. by rewrite andb_true_l, negb_false_iff, bool_decide_eq_true in Htcb.
  - intros Hr. rewrite Hr in Htdx. rewrite fail_if_bind in Htdx. destruct Htdx as [_ Htdx%fail_if_ok].
    by rewrite negb_false_iff, bool_decide_eq_true in Htdx.
Qed.

Lemma filtered_keys s cache ks : getFilteredKeySetForToken s cache = Ok ks ->
  exists h alg, jws_Parse s = Ok h /\ (hd ← head h; jws_Algorithm hd) = Some alg /\ forall k, k ∈ ks -> k ∈ cache /\ jwk_Algorithm k = Some alg.
Proof.
  unfold getFilteredKeySetForToken. intros Hf. apply res_bind_ok in Hf as (h & Hh%wrap_ok & Hf).
  apply res_bind_ok in Hf as (hd & Hhd%from_opt_ok & Hf). apply res_bind_ok in Hf as (alg & Halg%from_opt_ok & Hf).
  apply res_bind_ok in Hf as (kid & _ & Hf). rewrite !fail_if_bind in Hf. destruct Hf as (_ & _ & [= <-]).
  exists h, alg. split_and!; [done|by rewrite Hhd|]. unfold for_acc.
  assert (Hgen : forall cs acc, (forall k, k ∈ acc -> k ∈ cache /\ jwk_Algorithm k = Some alg) -> (forall k, k ∈ cs -> k ∈ cache) ->
    forall k, k ∈ foldl (fun s x => if bool_decide (jwk_Algorithm x = Some alg) then jwk_AddKey x s else s) acc cs -> k ∈ cache /\ jwk_Algorithm k = Some alg).
  { induction cs as [|c cs IH]; intros acc Hacc Hcs; [done|]. cbn [foldl]. apply IH; [|intros; apply Hcs; by right].
    case_bool_decide as Ha; [|done]. intros k [-> |Hk]%jwk_add_key_in; [|by apply Hacc]. split; [|done]. apply Hcs. by left. }
  apply Hgen; [by intros k ?%not_elem_of_nil|done].
Qed.

Definition provider_keys (av : AttestationVerifier) (provider : AttestationProvider) : list jwk :=
  match provider with GoogleConfidentialSpace => googleJwksCache av | IntelTrustAuthority => intelJwksCache av | OtherProvider _ => [] end.
Definition provider_issuer (provider : AttestationProvider) : string :=
  match provider with GoogleConfidentialSpace => googleIssuer | IntelTrustAuthority => intelIssuer | OtherProvider _ => "" end.

(** The token [s] was issued by the provider, now valid, with the contents [t]. *)
Definition issued (av : AttestationVerifier) (provider : AttestationProvider) (now : Z) (s : string) (t : ConfidentialSpaceToken) (jti : string) : Prop :=
  (exists k h, k ∈ provider_keys av provider /\ token_signed k s now /\ jws_Parse s = Ok h /\ (hd ← head h; jws_Algorithm hd) = jwk_Algorithm k) /\
  exists tok b aud, jwt_Issuer tok = Some (provider_issuer provider) /\ jwt_Audience tok = Some [aud] /\ aud ∈ [googleAudience; KMSJWTAudience] /\
    json_marshal_token tok = Ok b /\ json_cs_token b = Ok t /\ default ""%string (jwt_JwtID tok) = jti.

Lemma VerifyAttestation_ok av now s provider claims : VerifyAttestation av now s provider = Ok claims ->
  exists t, issued av provider now s t (claims_JTI claims) /\ token_ok av provider t /\ claims_ImageDigest claims = Container_ImageDigest t /\
    claims_ContainerPolicy claims = Container_Policy t /\ claims_ExpiresAt claims = Exp t /\
    extractAppIDFromInstanceName (GCE_InstanceName t) = Ok (claims_AppID claims) /\ extractNonce (EatNonce t) = Ok (claims_Nonce claims).
Proof.
  unfold VerifyAttestation. intros Hv. apply res_bind_ok in Hv as ([[cache iss] val] & Hsel & Hv).
  apply res_bind_ok in Hv as (ks & (h & alg & Hh & Halg & Hks)%filtered_keys & Hv). apply res_bind_ok in Hv as (tok & Hp%wrap_ok & Hv).
  apply jwt_parse_signed in Hp as (k & Hk & Hsig). destruct (Hks k Hk) as [Hkc Hka].
  apply res_bind_ok in Hv as (iss' & Hiss%from_opt_ok & Hv). rewrite fail_if_bind, negb_false_iff, bool_decide_eq_true in Hv. destruct Hv as [-> Hv].
  apply res_bind_ok in Hv as (auds & Haud%from_opt_ok & Hv). apply res_bind_ok in Hv as (aud & Ha & Hv).
  rewrite fail_if_bind, andb_false_iff, !negb_false_iff, !bool_decide_eq_true in Hv. destruct Hv as [Hin Hv].
  apply res_bind_ok in Hv as (b & Hb%wrap_ok & Hv). apply res_bind_ok in Hv as (t & Ht%wrap_ok & Hv). apply res_bind_ok in Hv as ([] & Hval & Hv).
  apply res_bind_ok in Hv as (app & Happ%wrap_ok & Hv). apply res_bind_ok in Hv as (nn & Hnn%wrap_ok & [= <-]).
  assert (Hau : auds = [aud]) by (destruct auds as [|x [|? ?]]; [done|by injection Ha as ->|done]). subst auds.
  exists t. cbn [claims_JTI claims_ImageDigest claims_ContainerPolicy claims_ExpiresAt claims_AppID claims_Nonce]. split_and!; try done.
  - split.
    + exists k, h. split_and!; try done; [|by rewrite Halg]. destruct provider; [by injection Hsel as <- _ _..|done].
    + exists tok, b, aud. split_and!; try done; [destruct provider; [by injection Hsel as _ <- _..|done]|]. rewrite !elem_of_cons. tauto.
  - destruct provider; [injection Hsel as _ _ <-..|done]; apply validateToken_ok in Hval as (? & ? & ? & ? & ? & Htcb & Htdx); by split_and!; auto.
Qed.

(** An accepted token was issued to this requester: it is signed, within its validity,
    by a key of the provider's key set for the token's own algorithm, it has the
    provider's issuer and one allowed audience, its contents pass every check of the
    provider (hardware, software version, project, and outside debug mode no debugging and
    a stable image), its nonce is the hash of the requester's RSA key and extra data, it
    has an identifier, and the application is the part of the instance name after the last
    dash. *)
Theorem gcp_attestation_sound (av : AttestationVerifier) (provider : AttestationProvider) (now : Z) (request : AttestationRequest) (claims : AttestationClaims) :
  gcp_Verify av provider now (Some request) = Ok claims ->
  (exists t, issued av provider now (string_of (bytes_text (areq_Attestation request))) t (claims_JTI claims) /\ token_ok av provider t /\
     claims_ImageDigest claims = Container_ImageDigest t /\ claims_ContainerPolicy claims = Container_Policy t /\ claims_ExpiresAt claims = Exp t /\
     exists pre app, chars_of (GCE_InstanceName t) = (pre ++ "-"%char :: app)%list /\ "-"%char ∉ app /\ claims_AppID claims = string_of app) /\
  claims_JTI claims <> ""%string /\ areq_RSAPubKeyTmp request <> [] /\
  ToLower (chars_of (claims_Nonce claims)) = hex_EncodeToString (sha256 (areq_RSAPubKeyTmp request ++ areq_ExtraData request)).
Proof.
  unfold gcp_Verify. cbn [from_opt mbind res_bind]. rewrite fail_if_bind. intros [_ Hv]. apply res_bind_ok in Hv as (c & Hc%wrap_ok & Hv).
  rewrite !fail_if_bind, negb_false_iff, !bool_decide_eq_false, bool_decide_eq_true in Hv. destruct Hv as (Hrsa & Hnonce & Hjti & [= ->]).
  split_and!; try done. apply VerifyAttestation_ok in Hc as (t & Hi & Hok & Hd & Hp & He & Happ & _).
  exists t. split_and!; try done. unfold extractAppIDFromInstanceName in Happ.
  destruct (Split_last "-" (chars_of (GCE_InstanceName t))) as (p & ps & Hs & _ & Hl). rewrite Hs, fail_if_bind, Nat.ltb_ge in Happ.
  destruct Happ as [Hlen [= <-]]. destruct (last (p :: ps)) as [q|] eqn:Hq; [|by apply last_None in Hq].
  destruct (Hl q eq_refl) as [Hin Hpre]. destruct Hpre as [pre ->]; [by destruct ps; [cbn in Hlen; lia|]|]. by exists pre, q.
Qed.
End TokenFacts.

(** ** Witnesses *)

#[local] Existing Instance toy97.

(** Keys are numbers; a signature is the hash shifted by the key. *)
#[local] Instance toy_ecdsa : EcdsaLib := {
  ecdsa_PublicKey := Z; ecdsa_PrivateKey := Z;
  UnmarshalPubkey b := match b with [p] => Ok p | _ => Err "invalid secp256k1 public key" end;
  FromECDSAPub p := [p]; Public k := k; PubkeyToAddress p := p;
  ecdsa_Sign h k := Ok (be_bytes 64 (be_val h + k) ++ [0]);
  VerifySignature pub h s := bool_decide (s = be_bytes 64 (be_val h + be_val pub));
  SigToPub h s := Ok (be_val (take 64 s) - be_val h) }.

Lemma toy_ecdsa_laws : EcdsaLaws.
Proof.
  split; [|done|done]. intros h k s Hs. cbn [ecdsa_Sign VerifySignature FromECDSAPub Public toy_ecdsa] in *.
  assert (s = be_bytes 64 (be_val h + k) ++ [0]) as -> by (by injection Hs).
  rewrite length_app, length_be_bytes. split; [done|]. rewrite take_app_length' by (by rewrite length_be_bytes). by apply bool_decide_eq_true.
Qed.

Definition demo_now : Z := (unixToInternal + 1702857600) * Second.
Definition demo_config : ECDSAAttestationConfig := NewECDSAAttestationMethod (mkECDSAAttestationConfig 0 "").
Definition demo_nonce : bytes := (fun i => i * 5) <$> seqZ 0 32.
Definition demo_challenge : list ascii := match GenerateChallenge demo_now demo_nonce with Ok c => c | Err _ => [] end.
Definition demo_sig : bytes := match SignChallenge (Some 7) "0xAb" demo_challenge with Ok s => s | Err _ => [] end.
Definition demo_request : AttestationRequest := mkAttestationRequest "ecdsa" demo_sig "0xAb" (text_bytes demo_challenge) [7] ∅ [1] [] [].

Lemma ecdsa_attestation_roundtrip_witness : exists claims,
  ecdsa_Verify demo_config (demo_now + 60 * Second) (Some demo_request) = Ok claims /\ claims_AppID claims = "0xAb"%string /\ claims_PublicKey claims = [7].
Proof.
  apply (ecdsa_attestation_roundtrip (H1 := toy_ecdsa_laws) demo_config demo_now (demo_now + 60 * Second) demo_nonce [1] "0xAb" 7 demo_challenge demo_sig);
    [vm_compute; split; discriminate|vm_compute; reflexivity|vm_compute; split; [discriminate|reflexivity]|by_compute|discriminate|vm_compute; reflexivity..].
Defined.

Lemma ecdsa_attestation_sound_witness : exists claims,
  ecdsa_Verify demo_config (demo_now + 60 * Second) (Some demo_request) = Ok claims /\
  VerifySignature [7] (challenge_hash "0xAb" (text_bytes demo_challenge) [7]) (take 64 demo_sig) = true.
Proof.
  eexists. split; [vm_compute; reflexivity|].
  eapply (ecdsa_attestation_sound demo_config (demo_now + 60 * Second) demo_request);
    [vm_compute; discriminate|vm_compute; reflexivity|vm_compute; reflexivity].
Defined.

Definition demo_token : ConfidentialSpaceToken :=
  mkConfidentialSpaceToken 2000 1000 (AnyArray [AnyString (string_of (hex_EncodeToString (sha256 [1; 2; 3])))]) "CONFIDENTIAL_SPACE" ["INTEL"%string] "GCP_INTEL_TDX"
    "disabled-since-boot" ["250301-rc"%string] "sha256:ab" (mkContainerPolicy [] [] ∅ ∅ "") "kms" "tdx-vm-0xAb" ["LATEST"%string; "STABLE"%string] "".

(** Keys are their algorithms; every token parses to [demo_token]. *)
#[local] Instance demo_jwt : JwtLib := {
  jwk := string; jwk_Algorithm k := Some k; jwk_AddKey := cons; jwt_token := unit;
  jws_Parse _ := Ok [mkJwsHeader (Some "RS256"%string) (Some "k1"%string)];
  jwt_Parse _ _ ks := match ks with [] => Err "no key" | _ => Ok tt end;
  jwt_Issuer _ := Some googleIssuer; jwt_Audience _ := Some [KMSJWTAudience]; jwt_JwtID _ := Some "jti-1"%string;
  json_marshal_token _ := Ok []; json_cs_token _ := Ok demo_token }.
#[local] Instance demo_jwt_laws : JwtLaws.
Proof.
  apply (Build_JwtLaws _ (fun _ _ _ => True)); [|intros k x ks; apply elem_of_cons].
  intros now s [|k ks] tok Hp; [done|]. exists k. split; [by left|done].
Defined.
Definition demo_verifier : AttestationVerifier := mkAttestationVerifier _ ["ES256"%string; "RS256"%string] [] "kms" false.

Lemma gcp_attestation_sound_witness : exists claims,
  gcp_Verify demo_verifier GoogleConfidentialSpace 0 (Some (mkAttestationRequest "gcp" [1] "0xAb" [] [] ∅ [1; 2] [3] [])) = Ok claims /\
  claims_AppID claims = "0xAb"%string /\ areq_RSAPubKeyTmp (mkAttestationRequest "gcp" [1] "0xAb" [] [] ∅ [1; 2] [3] []) <> [] /\ claims_JTI claims <> ""%string.
Proof.
  eexists. split; [vm_compute; reflexivity|]. split; [reflexivity|].
  match goal with |- _ /\ claims_JTI ?c <> _ => pose proof (gcp_attestation_sound demo_verifier GoogleConfidentialSpace 0
    (mkAttestationRequest "gcp" [1] "0xAb" [] [] ∅ [1; 2] [3] []) c) as Hs end.
  destruct Hs as (_ & Hj & Hr & _); [vm_compute; reflexivity|]. split; [exact Hr|exact Hj].
Defined.
