(* ===== verification/Encryption.v ===== *)
(** * RSA encryption of responses: [pkg/encryption/rsa.go]

    The standard library's PEM, X.509 and RSA functions are parameters with their
    documented inverses; the file is what the package adds: the order of the key formats
    it tries and the minimum key size. *)

From S2P Require Import Prelude Bytes.

Definition MinRSAKeyBits : Z := 2048.

(** A decoded key: an RSA key or a key of another algorithm. *)
Inductive parsed (K : Type) : Type :=
| RsaKey (k : K)
| OtherKey.
Arguments RsaKey {K} k.
Arguments OtherKey {K}.
Definition as_rsa {K} (p : parsed K) : option K := match p with RsaKey k => Some k | OtherKey => None end.

Class RsaLib := {
  rsa_PrivateKey : Type;
  rsa_PublicKey : Type;
  pub_of : rsa_PrivateKey -> rsa_PublicKey;
  priv_BitLen : rsa_PrivateKey -> Z;
  pub_BitLen : rsa_PublicKey -> Z;
  pem_Decode : bytes -> option bytes;
  pem_EncodeToMemory : string -> bytes -> bytes;
  ParsePKIXPublicKey : bytes -> res (parsed rsa_PublicKey);
  MarshalPKIXPublicKey : rsa_PublicKey -> res bytes;
  ParsePKCS1PrivateKey : bytes -> res rsa_PrivateKey;
  MarshalPKCS1PrivateKey : rsa_PrivateKey -> bytes;
  ParsePKCS8PrivateKey : bytes -> res (parsed rsa_PrivateKey);
  rsa_GenerateKey : bytes -> Z -> res rsa_PrivateKey;
  EncryptOAEP : bytes -> rsa_PublicKey -> bytes -> res bytes;
  DecryptOAEP : rsa_PrivateKey -> bytes -> res bytes
}.

Class RsaLaws `{RsaLib} : Prop := {
  pem_decode_encode t b : pem_Decode (pem_EncodeToMemory t b) = Some b;
  pkix_parse_marshal k b : MarshalPKIXPublicKey k = Ok b -> ParsePKIXPublicKey b = Ok (RsaKey k);
  pkcs1_parse_marshal k : ParsePKCS1PrivateKey (MarshalPKCS1PrivateKey k) = Ok k;
  modulus_shared k : pub_BitLen (pub_of k) = priv_BitLen k;
  oaep_decrypt_encrypt rand k m c : EncryptOAEP rand (pub_of k) m = Ok c -> DecryptOAEP k c = Ok m
}.

Section Encryption.
Context `{RsaLib}.

(** [rand] is what the reader of the system returns. *)
Definition Encrypt (rand plaintext publicKeyPEM : bytes) : res bytes :=
  block ← from_opt "failed to decode PEM block" (pem_Decode publicKeyPEM);
  pubkey ← wrap "failed to parse public key" (ParsePKIXPublicKey block);
  rsaPubKey ← from_opt "not an RSA public key" (as_rsa pubkey);
  _ ← fail_if (pub_BitLen rsaPubKey <? MinRSAKeyBits) "RSA key too weak: %d bits (minimum %d)";
  wrap "encryption failed" (EncryptOAEP rand rsaPubKey plaintext).

Definition Decrypt (ciphertext privateKeyPEM : bytes) : res bytes :=
  block ← from_opt "failed to decode PEM block" (pem_Decode privateKeyPEM);
  privkey ← match ParsePKCS1PrivateKey block return res rsa_PrivateKey with
            | Ok k => Ok k
            | Err _ => privkeyInterface ← wrap "failed to parse private key" (ParsePKCS8PrivateKey block);
                       from_opt "not an RSA private key" (as_rsa privkeyInterface)
            end;
  _ ← fail_if (priv_BitLen privkey <? MinRSAKeyBits) "RSA key too weak: %d bits (minimum %d)";
  wrap "decryption failed" (DecryptOAEP privkey ciphertext).

Definition GenerateKeyPair (rand : bytes) (bits : Z) : res (bytes * bytes) :=
  _ ← fail_if (bits <? MinRSAKeyBits) "RSA key size too small: %d bits (minimum %d)";
  privateKey ← wrap "failed to generate key" (rsa_GenerateKey rand bits);
  let privKeyPEM := pem_EncodeToMemory "RSA PRIVATE KEY" (MarshalPKCS1PrivateKey privateKey) in
  pubKeyBytes ← wrap "failed to marshal public key" (MarshalPKIXPublicKey (pub_of privateKey));
  Ok (privKeyPEM, pem_EncodeToMemory "PUBLIC KEY" pubKeyBytes).

(** Nothing is encrypted under a key below the minimum. *)
Lemma encrypt_strong rand m pem c : Encrypt rand m pem = Ok c ->
  exists b k, pem_Decode pem = Some b /\ ParsePKIXPublicKey b = Ok (RsaKey k) /\ MinRSAKeyBits <= pub_BitLen k /\ EncryptOAEP rand k m = Ok c.
Proof.
  unfold Encrypt. intros He. apply res_bind_ok in He as (b & Hb%from_opt_ok & He). apply res_bind_ok in He as (k & Hk%wrap_ok & He).
  apply res_bind_ok in He as (k' & Hk'%from_opt_ok & He). rewrite fail_if_bind, wrap_ok, Z.ltb_ge in He. destruct He as [Hlen He].
  exists b, k'. destruct k; [|done]. by injection Hk' as ->.
Qed.

(** What is encrypted under a generated public key decrypts under its private key to
    the plaintext; encryption refuses keys below the minimum size. *)
Theorem rsa_roundtrip `{!RsaLaws} (rand rand' m priv pub c : bytes) (bits : Z) :
  GenerateKeyPair rand bits = Ok (priv, pub) -> Encrypt rand' m pub = Ok c -> Decrypt c priv = Ok m.
Proof.
  unfold GenerateKeyPair. rewrite fail_if_bind. intros [_ Hg]. apply res_bind_ok in Hg as (k & _ & Hg). cbv zeta in Hg.
  apply res_bind_ok in Hg as (pb & Hpb%wrap_ok & [= <- <-]). intros (b & k' & Hb & Hk & Hlen & Hc)%encrypt_strong.
  rewrite pem_decode_encode in Hb. injection Hb as <-. rewrite (pkix_parse_marshal _ _ Hpb) in Hk. injection Hk as <-.
  unfold Decrypt. rewrite pem_decode_encode. cbn [from_opt mbind res_bind]. rewrite pkcs1_parse_marshal. cbn [res_bind].
  apply fail_if_bind. split; [rewrite modulus_shared in Hlen; by apply Z.ltb_ge|]. by rewrite wrap_ok, (oaep_decrypt_encrypt _ _ _ _ Hc).
Qed.
End Encryption.

(** ** Witness: a library whose keys are their sizes *)

#[local] Instance toy_rsa : RsaLib := {
  rsa_PrivateKey := Z; rsa_PublicKey := Z; pub_of k := k; priv_BitLen k := k; pub_BitLen k := k;
  pem_Decode b := match b with 45 :: b => Some b | _ => None end; pem_EncodeToMemory _ b := 45 :: b;
  ParsePKIXPublicKey b := match b with [48; k] => Ok (RsaKey k) | _ => Err "asn1" end; MarshalPKIXPublicKey k := Ok [48; k];
  ParsePKCS1PrivateKey b := match b with [49; k] => Ok k | _ => Err "asn1" end; MarshalPKCS1PrivateKey k := [49; k];
  ParsePKCS8PrivateKey b := Ok (OtherKey); rsa_GenerateKey _ bits := Ok bits;
  EncryptOAEP _ k m := Ok (k :: m); DecryptOAEP k c := match c with k' :: m => if k =? k' then Ok m else Err "decryption error" | [] => Err "decryption error" end }.
#[local] Instance toy_rsa_laws : RsaLaws.
Proof.
  split; try done.
  - intros k b Hb. by injection Hb as <-.
  - intros rand k m c Hc. injection Hc as <-. cbn. by rewrite Z.eqb_refl.
Qed.

Lemma rsa_roundtrip_witness : exists c, Encrypt [] [1; 2] [45; 48; 2048] = Ok c /\ Decrypt c [45; 49; 2048] = Ok [1; 2].
Proof.
  exists [2048; 1; 2]. split; [reflexivity|]. apply (rsa_roundtrip [] [] [1; 2] [45; 49; 2048] [45; 48; 2048] [2048; 1; 2] 2048); reflexivity.
Defined.
