(* ===== verification/Secrets.v ===== *)
(** * Releasing secrets: the application endpoints of [pkg/node/handlers.go] and the replay
      cache of [pkg/node/server.go]

    [/secrets] verifies an attestation, checks the application, the replay cache and one of
    three authorisations (a platform release, the on-chain creator, an on-chain release),
    and answers with a partial signature encrypted to the requester; [/app/sign] answers
    with a partial signature.  The chain, the platform, the decoder and the address parser
    are parameters.  The theorems: what a response implies; an attestation with an
    identifier is used once until the cleanup after its expiry; the container policy is
    compared field by field; an [ecdsa] attestation can be used again, by anyone, for
    another key. *)

From S2P Require Import Prelude Bytes Types Fr Gnark Toy Crypto KeyStore Persistence Session NodeCore GoText Attestation Encryption Handlers.
From Stdlib Require Import Ascii.

(** ** Requests *)

Definition MaxExtraDataSize : Z := 1048576.
Definition MaxAttestationSize : Z := 256 * 1024.

Record SecretsRequestV1 := mkSecretsRequestV1 {
  sreq_AppID : string;
  sreq_StackID : string;
  sreq_AttestationMethod : string;
  sreq_Attestation : bytes;
  sreq_RSAPubKeyTmp : bytes;
  sreq_AttestationTime : Z;
  sreq_Challenge : bytes;
  sreq_PublicKey : bytes;
  sreq_ExtraData : bytes;
  sreq_CCInitData : bytes
}.
Record SecretsResponseV1 := mkSecretsResponseV1 {
  sresp_EncryptedEnv : string;
  sresp_PublicEnv : string;
  sresp_EncryptedPartialSig : bytes;
  sresp_ExtraData : bytes
}.
Record AppSignRequest := mkAppSignRequest { asr_AppID : string; asr_AttestationTime : Z }.
Record AppSignResponse := mkAppSignResponse { asp_OperatorAddress : Address; asp_PartialSignature : G1Point }.

(** ** The platform *)

Record App := mkApp { app_Name : string; Image : string }.
(** [errors.Is] tells the two sentinels apart; the rest are gRPC status errors. *)
Inductive grpc_code := PermissionDenied | NotFound | Unavailable | DeadlineExceeded | Unauthenticated | OtherCode.
Inductive platform_error := ErrPlatformURLNotConfigured | errPlatformDigestMismatch | StatusError (c : grpc_code).

(** Go-ethereum's address parser and [encoding/json]. *)
Class SecretsLib := {
  IsHexAddress : string -> bool;
  json_secrets : bytes -> res SecretsRequestV1;
  json_app_sign : bytes -> res AppSignRequest;
  json_marshal_G1 : G1Point -> res bytes
}.

(** The surroundings of a request: the clock, the registered methods, the answers of the
    chain and of the platform (no client when none is configured), fresh randomness. *)
Record SecretsEnv := mkSecretsEnv {
  se_now : Z;
  attestationManager : AttestationManager;
  GetAppCreator : Address -> res Address;
  GetLatestReleaseAsRelease : string -> res Release;
  platformClient : option (string -> list App + platform_error);
  se_rand : bytes
}.

(** ** Image references *)

Definition is_hex_rune (c : ascii) : bool :=
  let n := nat_of_ascii c in
  ((48 <=? n) && (n <=? 57) || (97 <=? n) && (n <=? 102) || (65 <=? n) && (n <=? 70))%nat.

(** [strings.Index] *)
Fixpoint Index (p l : list ascii) (i : nat) : option nat :=
  match strip p l with
  | Some _ => Some i
  | None => match l with [] => None | _ :: l => Index p l (S i) end
  end.

Definition sha256_prefix : list ascii := chars_of "sha256:".

Definition digestFromImageRef (ref : string) : string :=
  let ref := chars_of ref in
  match Index ("@"%char :: sha256_prefix) ref 0 with
  | None => ""
  | Some i =>
      let digest := drop (i + 1) ref in
      if negb (length digest =? length sha256_prefix + 64)%nat then ""
      else if negb (forallb is_hex_rune (drop (length sha256_prefix) digest)) then ""
      else string_of digest
  end.

(** ** The container policy *)

Definition hasContainerPolicy (p : ContainerPolicy) : bool :=
  (0 <? length (Args p))%nat || (0 <? length (CmdOverride p))%nat || (0 <? size (Env p))%nat || (0 <? size (EnvOverride p))%nat
  || negb (bool_decide (RestartPolicy p = ""%string)).

Definition validateContainerPolicy (claims policy : ContainerPolicy) : res unit :=
  _ ← fail_if ((0 <? length (Args policy))%nat && negb (bool_decide (Args claims = Args policy))) "args mismatch: expected %v, got %v";
  _ ← fail_if ((0 <? length (CmdOverride policy))%nat && negb (bool_decide (CmdOverride claims = CmdOverride policy))) "cmd_override mismatch: expected %v, got %v";
  _ ← for_each (fun '(key, expectedVal) _ => fail_if (negb (bool_decide (Env claims !! key = Some expectedVal)))
        "env mismatch for key %q: expected %q, got %q") (map_to_list (Env policy)) tt;
  _ ← for_each (fun '(key, expectedVal) _ => fail_if (negb (bool_decide (EnvOverride claims !! key = Some expectedVal)))
        "env_override mismatch for key %q: expected %q, got %q") (map_to_list (EnvOverride policy)) tt;
  fail_if (negb (bool_decide (RestartPolicy policy = ""%string)) && negb (bool_decide (RestartPolicy claims = RestartPolicy policy)))
    "restart_policy mismatch: expected %q, got %q".

(** ** The server *)

Record Server (Fr P : Type) := mkServer { srv_node : Node Fr P; jtiCache : gmap string Z }.
Arguments mkServer {Fr P} _ _.
Arguments srv_node {Fr P} _.
Arguments jtiCache {Fr P} _.

Definition maxJTICacheSize : Z := 100000.

Section Secrets.
Context `{Gnark} `{EcdsaLib} `{RsaLib} `{EthAddr} `{SecretsLib} {P : Type}.

Notation M := (HM (Server Fr P)).

Definition checkAndStoreJTI (jti : string) (expiresAt : Z) (s : Server Fr P) : Server Fr P * bool :=
  if bool_decide (is_Some (jtiCache s !! jti)) then (s, false)
  else if Z.of_nat (size (jtiCache s)) >=? maxJTICacheSize then (s, false)
  else (mkServer (srv_node s) (<[jti := expiresAt]> (jtiCache s)), true).

(** One tick of [runJTICleanup]. *)
Definition cleanupJTI (now : Z) (s : Server Fr P) : Server Fr P :=
  mkServer (srv_node s) (filter (fun '(_, exp) => now < exp) (jtiCache s)).

Definition verifyECDSAOwnership (env : SecretsEnv) (appID : string) (publicKey : bytes) : M unit :=
  _ ← hm_reject (negb (IsHexAddress appID)) 400 "app_id must be a contract address for ecdsa attestation";
  pub ← hm_or 400 "invalid ecdsa public key: %w" (UnmarshalPubkey publicKey);
  let signer := PubkeyToAddress pub in
  creator ← hm_or 502 "failed to look up app creator: %w" (GetAppCreator env (HexToAddress appID));
  hm_reject (negb (signer =? creator)) 403 "ecdsa signer is not the app creator".

Definition digest_matches (claims : AttestationClaims) (app : App) : bool :=
  let digest := digestFromImageRef (Image app) in
  negb (bool_decide (digest = ""%string)) && bool_decide (digest = claims_ImageDigest claims).

Definition authorizeViaPlatform (env : SecretsEnv) (stackID : string) (claims : AttestationClaims) : option platform_error :=
  match platformClient env with
  | None => Some ErrPlatformURLNotConfigured
  | Some GetLatestDeployedRelease =>
      if bool_decide (strip sha256_prefix (chars_of (claims_ImageDigest claims)) = None) then Some errPlatformDigestMismatch
      else match GetLatestDeployedRelease stackID with
           | inr err => Some err
           | inl apps => if existsb (digest_matches claims) apps then None else Some errPlatformDigestMismatch
           end
  end.

Definition writePlatformAuthError (err : platform_error) : Z * string :=
  match err with
  | ErrPlatformURLNotConfigured => (503, "platform RPC URL not configured")
  | errPlatformDigestMismatch => (403, "image digest not authorized by platform release")
  | StatusError PermissionDenied => (403, "operator not authorized by platform")
  | StatusError NotFound => (404, "no deployed release for stack")
  | StatusError Unavailable => (503, "platform unavailable")
  | StatusError DeadlineExceeded => (503, "platform request timed out")
  | StatusError Unauthenticated => (500, "platform authorization failed")
  | StatusError OtherCode => (500, "platform authorization failed")
  end%string.

(** [s.node.appAllowlist != nil && !s.node.appAllowlist[appID]] *)
Definition not_allowed (n : Node Fr P) (appID : string) : bool :=
  match appAllowlist n with None => false | Some apps => negb (bool_decide (appID ∈ apps)) end.

Definition validate_request (req : SecretsRequestV1) : M unit :=
  _ ← hm_reject (bool_decide (sreq_AppID req = ""%string)) 400 "app_id is required";
  s ← hm_get;
  _ ← hm_reject (not_allowed (srv_node s) (sreq_AppID req)) 403 "app not allowed";
  _ ← hm_reject (bool_decide (sreq_RSAPubKeyTmp req = [])) 400 "rsa_pubkey_tmp is required";
  _ ← hm_reject (Z.of_nat (length (sreq_RSAPubKeyTmp req)) >? 8192) 400 "rsa_pubkey_tmp too large";
  _ ← hm_reject (Z.of_nat (length (sreq_ExtraData req)) >? MaxExtraDataSize) 400 "extra_data exceeds 1MB limit (%d bytes)";
  _ ← hm_reject (Z.of_nat (length (sreq_CCInitData req)) >? MaxExtraDataSize) 400 "cc_init_data exceeds 1MB limit (%d bytes)";
  _ ← hm_reject (Z.of_nat (length (sreq_Attestation req)) >? MaxAttestationSize) 400 "attestation exceeds %d byte limit (%d bytes)";
  hm_reject (bool_decide (sreq_AttestationMethod req = ""%string)) 400 "Attestation method is required".

Definition attestation_request (req : SecretsRequestV1) : AttestationRequest :=
  mkAttestationRequest (sreq_AttestationMethod req) (sreq_Attestation req) (sreq_AppID req) (sreq_Challenge req) (sreq_PublicKey req)
    (if bool_decide (sreq_AttestationMethod req = "tpm"%string) then {["rsa_pubkey"%string := sreq_RSAPubKeyTmp req]} else ∅)
    (sreq_RSAPubKeyTmp req) (sreq_ExtraData req) (sreq_CCInitData req).

Definition attest (env : SecretsEnv) (req : SecretsRequestV1) : M AttestationClaims :=
  claims ← hm_or 401 "Invalid attestation: %v"
    (VerifyWithMethod (attestationManager env) (sreq_AttestationMethod req) (se_now env) (attestation_request req));
  _ ← hm_reject (negb (bool_decide (claims_AppID claims = sreq_AppID req))) 403 "App ID mismatch - unauthorized app";
  mret claims.

(** A method that sets no identifier is not checked for replays. *)
Definition check_replay (claims : AttestationClaims) : M unit := fun s =>
  if bool_decide (claims_JTI claims = ""%string) then (s, Reply tt)
  else match checkAndStoreJTI (claims_JTI claims) (claims_ExpiresAt claims) s with
       | (s, true) => (s, Reply tt)
       | (s, false) => (s, HttpError 401 "attestation token already used")
       end.

Definition empty_release : Release := mkRelease "" "" "" "" 0 (mkContainerPolicy [] [] ∅ ∅ "").

(** The three authorisations; the release whose environment is returned, if any. *)
Definition authorize (env : SecretsEnv) (req : SecretsRequestV1) (claims : AttestationClaims) : M (option Release) :=
  let ecdsa := bool_decide (sreq_AttestationMethod req = "ecdsa"%string) in
  if negb (bool_decide (sreq_StackID req = ""%string)) then
    _ ← hm_reject ecdsa 403 "ecdsa attestation is not permitted for stack_id requests";
    match authorizeViaPlatform env (sreq_StackID req) claims with
    | None => mret None
    | Some err => let '(code, body) := writePlatformAuthError err in hm_error code body
    end
  else if ecdsa then
    _ ← verifyECDSAOwnership env (sreq_AppID req) (claims_PublicKey claims);
    mret (Some (match GetLatestReleaseAsRelease env (sreq_AppID req) with Ok release => release | Err _ => empty_release end))
  else
    release ← hm_or 404 "Release not found" (GetLatestReleaseAsRelease env (sreq_AppID req));
    _ ← hm_reject (negb (bool_decide (claims_ImageDigest claims = rel_ImageDigest release))) 403 "Image digest mismatch - unauthorized image";
    _ ← hm_reject (negb (bool_decide (claims_Registry claims = ""%string)) && negb (bool_decide (rel_Registry release = ""%string))
                   && negb (bool_decide (claims_Registry claims = rel_Registry release))) 403 "Registry mismatch - unauthorized image source";
    _ ← hm_reject (bool_decide (sreq_AttestationMethod req = "eigenx-snp"%string) && hasContainerPolicy (rel_ContainerPolicy release)) 403
          "eigenx-snp attestation does not yet enforce ContainerPolicy; release requires it";
    _ ← hm_or 403 "Container policy mismatch" (validateContainerPolicy (claims_ContainerPolicy claims) (rel_ContainerPolicy release));
    mret (Some release).

Definition select_key_version (attestationTime : Z) : M (KeyShareVersion Fr) :=
  s ← hm_get;
  keyVersion ← (if attestationTime >? 0 then
      v ← hm_or 404 "No key version found for the specified attestation time" (from_opt "" (GetKeyVersionAtTime (keyStore (srv_node s)) attestationTime));
      mret (Some v)
    else mret (GetActiveVersion (keyStore (srv_node s))));
  keyVersion ← hm_or 503 "No valid key share" (from_opt "" keyVersion);
  _ ← hm_reject (bool_decide (PrivateShare keyVersion = None)) 503 "No valid key share";
  mret keyVersion.

Definition signAppIDWithVersion (appID : string) (keyVersion : option (KeyShareVersion Fr)) : res G1Point :=
  privateShare ← from_opt "no private share available" (keyVersion ≫= PrivateShare);
  qID ← wrap "HashToG1 failed" (HashToG1 appID);
  wrap "ScalarMulG1 failed" (ScalarMulG1 qID (Some privateShare)).

Definition maxSecretsBodyBytes : Z := 2 * MaxAttestationSize + 2 * MaxExtraDataSize + 64 * 1024.

Definition handleSecretsRequest (env : SecretsEnv) (r : Request) : M SecretsResponseV1 :=
  _ ← hm_reject (negb (bool_decide (Method r = "POST"%string))) 405 "Method not allowed";
  req ← hm_or 400 "Failed to parse request: %v" (json_secrets (Body (limited maxSecretsBodyBytes r)));
  _ ← validate_request req;
  claims ← attest env req;
  _ ← check_replay claims;
  release ← authorize env req claims;
  keyVersion ← select_key_version (sreq_AttestationTime req);
  partialSig ← hm_or 500 "Internal error" (signAppIDWithVersion (sreq_AppID req) (Some keyVersion));
  partialSigBytes ← hm_or 500 "Internal error" (json_marshal_G1 partialSig);
  encryptedPartialSig ← hm_or 500 "Encryption failed" (Encrypt (se_rand env) partialSigBytes (sreq_RSAPubKeyTmp req));
  mret (match release with
        | Some release => mkSecretsResponseV1 (rel_EncryptedEnv release) (rel_PublicEnv release) encryptedPartialSig (sreq_ExtraData req)
        | None => mkSecretsResponseV1 "" "" encryptedPartialSig (sreq_ExtraData req)
        end).

Definition SignAppID (n : Node Fr P) (appID : string) (attestationTime : Z) : res G1Point :=
  keyVersion ← (if attestationTime >? 0 then
      v ← from_opt "no key version found for attestation time %d" (GetKeyVersionAtTime (keyStore n) attestationTime); Ok (Some v)
    else Ok (GetActiveVersion (keyStore n)));
  signAppIDWithVersion appID keyVersion.

Definition handleAppSign (r : Request) : M AppSignResponse :=
  _ ← hm_reject (negb (bool_decide (Method r = "POST"%string))) 405 "Method not allowed";
  req ← hm_or 400 "Failed to parse request" (json_app_sign (Body r));
  _ ← hm_reject (bool_decide (asr_AppID req = ""%string)) 400 "app_id is required";
  s ← hm_get;
  _ ← hm_reject (not_allowed (srv_node s) (asr_AppID req)) 403 "app not allowed";
  partialSig ← hm_or 500 "Internal error" (SignAppID (srv_node s) (asr_AppID req) (asr_AttestationTime req));
  mret (mkAppSignResponse (OperatorAddress_ (srv_node s)) partialSig).
End Secrets.

(** ** What authorises a release of secrets *)

Definition policy_satisfied (claims policy : ContainerPolicy) : Prop :=
  (Args policy <> [] -> Args claims = Args policy) /\ (CmdOverride policy <> [] -> CmdOverride claims = CmdOverride policy) /\
  Env policy ⊆ Env claims /\ EnvOverride policy ⊆ EnvOverride claims /\
  (RestartPolicy policy <> ""%string -> RestartPolicy claims = RestartPolicy policy).

Lemma env_loop (m c : gmap string string) msg u :
  for_each (fun '(key, expectedVal) _ => fail_if (negb (bool_decide (c !! key = Some expectedVal))) msg) (map_to_list m) tt = Ok u <-> m ⊆ c.
Proof.
  destruct u. rewrite map_subseteq_spec. setoid_rewrite <- elem_of_map_to_list at 1.
  induction (map_to_list m) as [|[k v] l IH]; cbn [for_each].
  - split; [by intros _ i x ?%not_elem_of_nil|done].
  - setoid_rewrite elem_of_cons. split.
    + intros ([] & Hk%fail_if_ok & Hl)%res_bind_ok. rewrite negb_false_iff, bool_decide_eq_true in Hk.
      intros i x [[= -> ->]|Hin]; [done|]. by apply (proj1 IH).
    + intros Hl. apply res_bind_ok. exists tt. rewrite fail_if_ok, negb_false_iff, bool_decide_eq_true.
      split; [apply Hl; by left|]. apply IH. intros i x Hin. apply Hl. by right.
Qed.

Lemma pinned_list (c p : list string) : (0 <? length p)%nat && negb (bool_decide (c = p)) = false <-> (p <> [] -> c = p).
Proof.
  destruct p as [|x p]; [split; [by intros _ []|done]|]. cbn [length]. rewrite andb_true_l, negb_false_iff, bool_decide_eq_true.
  split; [done|]. intros Hp. by apply Hp.
Qed.

Lemma validateContainerPolicy_ok c p : validateContainerPolicy c p = Ok tt <-> policy_satisfied c p.
Proof.
  unfold validateContainerPolicy, policy_satisfied. rewrite !fail_if_bind, !pinned_list.
  assert (Hr : negb (bool_decide (RestartPolicy p = ""%string)) && negb (bool_decide (RestartPolicy c = RestartPolicy p)) = false <->
    (RestartPolicy p <> ""%string -> RestartPolicy c = RestartPolicy p)).
  { repeat case_bool_decide; cbn; naive_solver. }
  rewrite <- Hr. split.
  - intros (Ha & Hc & He). apply res_bind_ok in He as ([] & He%env_loop & Ho). apply res_bind_ok in Ho as ([] & Ho%env_loop & Hrp%fail_if_ok). done.
  - intros (Ha & Hc & He & Ho & Hrp). split_and!; [done..|]. apply res_bind_ok. exists tt. split; [by apply env_loop|].
    apply res_bind_ok. exists tt. split; [by apply env_loop|]. by apply fail_if_ok.
Qed.

Lemma Index_spec p l k i : Index p l k = Some i -> exists l1 l2, l = (l1 ++ p ++ l2)%list /\ i = (k + length l1)%nat.
Proof.
  revert k. induction l as [|a l IH]; intros k; cbn [Index].
  - destruct (strip p []) as [r|] eqn:Hs; [|done]. intros [= <-]. apply strip_one_prefix in Hs. exists [], r. split; [done|cbn; lia].
  - destruct (strip p (a :: l)) as [r|] eqn:Hs.
    + intros [= <-]. apply strip_one_prefix in Hs. exists [], r. split; [done|cbn; lia].
    + intros (l1 & l2 & -> & ->)%IH. exists (a :: l1), l2. split; [done|cbn; lia].
Qed.

(** A full sha256 digest: what may follow the at sign of an image reference. *)
Definition full_digest (d : list ascii) : Prop := exists h, d = (sha256_prefix ++ h)%list /\ length h = 64%nat /\ forallb is_hex_rune h = true.

Lemma digestFromImageRef_ok ref d : digestFromImageRef ref = d -> d <> ""%string ->
  exists pre, chars_of ref = (pre ++ "@"%char :: chars_of d)%list /\ full_digest (chars_of d).
Proof.
  unfold digestFromImageRef. destruct (Index _ _ 0) as [i|] eqn:Hi; [|by intros <-].
  apply Index_spec in Hi as (l1 & l2 & Hl & ->). rewrite Hl. cbn [app] in *.
  assert (Hd : drop (0 + length l1 + 1) (l1 ++ "@"%char :: (sha256_prefix ++ l2))%list = (sha256_prefix ++ l2)%list).
  { rewrite drop_app_ge by lia. replace (0 + length l1 + 1 - length l1)%nat with 1%nat by lia. done. }
  rewrite Hd, length_app. destruct (_ =? _)%nat eqn:Hlen; [|by intros <-]. apply Nat.eqb_eq in Hlen. cbn [negb].
  rewrite drop_app_length. destruct (forallb is_hex_rune l2) eqn:Hh; [|by intros <-]. cbn [negb]. intros <- _.
  assert (Hc : chars_of (string_of (sha256_prefix ++ l2)) = (sha256_prefix ++ l2)%list) by apply String.list_ascii_of_string_of_list_ascii.
  exists l1. rewrite Hc. split; [done|]. exists l2. split_and!; [done|lia|done].
Qed.

Section SecretsFacts.
Context `{Gnark} `{EcdsaLib} `{RsaLib} `{EthAddr} `{SecretsLib} {P : Type}.
Implicit Types (env : SecretsEnv) (req : SecretsRequestV1) (claims : AttestationClaims).

Notation M := (HM (Server Fr P)).
Notation Server := (Server Fr P).

(** One of the three authorisations holds, and [rel] is the release it names. *)
Inductive authorised env req claims : option Release -> Prop :=
| by_platform lookup apps app pre :
    sreq_StackID req <> ""%string -> sreq_AttestationMethod req <> "ecdsa"%string ->
    platformClient env = Some lookup -> lookup (sreq_StackID req) = inl apps -> app ∈ apps ->
    chars_of (Image app) = (pre ++ "@"%char :: chars_of (claims_ImageDigest claims))%list -> full_digest (chars_of (claims_ImageDigest claims)) ->
    authorised env req claims None
| by_creator pub rel :
    sreq_StackID req = ""%string -> sreq_AttestationMethod req = "ecdsa"%string ->
    IsHexAddress (sreq_AppID req) = true -> UnmarshalPubkey (claims_PublicKey claims) = Ok pub ->
    GetAppCreator env (HexToAddress (sreq_AppID req)) = Ok (PubkeyToAddress pub) ->
    rel = match GetLatestReleaseAsRelease env (sreq_AppID req) with Ok r => r | Err _ => empty_release end ->
    authorised env req claims (Some rel)
| by_release rel :
    sreq_StackID req = ""%string -> sreq_AttestationMethod req <> "ecdsa"%string ->
    GetLatestReleaseAsRelease env (sreq_AppID req) = Ok rel ->
    claims_ImageDigest claims = rel_ImageDigest rel ->
    (claims_Registry claims <> ""%string -> rel_Registry rel <> ""%string -> claims_Registry claims = rel_Registry rel) ->
    (sreq_AttestationMethod req = "eigenx-snp"%string -> hasContainerPolicy (rel_ContainerPolicy rel) = false) ->
    policy_satisfied (claims_ContainerPolicy claims) (rel_ContainerPolicy rel) ->
    authorised env req claims (Some rel).

Lemma authorizeViaPlatform_ok env stack claims : authorizeViaPlatform env stack claims = None ->
  exists lookup apps app pre, platformClient env = Some lookup /\ lookup stack = inl apps /\ app ∈ apps /\
    chars_of (Image app) = (pre ++ "@"%char :: chars_of (claims_ImageDigest claims))%list /\ full_digest (chars_of (claims_ImageDigest claims)).
Proof.
  unfold authorizeViaPlatform. destruct (platformClient env) as [lookup|]; [|done]. case_bool_decide; [done|].
  destruct (lookup stack) as [apps|err] eqn:Hl; [|done]. destruct (existsb _ _) eqn:He; [|done]. intros _.
  apply existsb_exists in He as (app & Hin & Hd). unfold digest_matches in Hd.
  apply andb_true_iff in Hd as [Hne Heq]. rewrite negb_true_iff, bool_decide_eq_false in Hne. rewrite bool_decide_eq_true in Heq.
  destruct (digestFromImageRef_ok _ _ Heq) as (pre & Hpre & Hfull); [congruence|].
  exists lookup, apps, app, pre. split_and!; try done. by apply list_elem_of_In.
Qed.

Lemma authorize_ok env req claims (s s' : Server) rel : authorize env req claims s = (s', Reply rel) -> s' = s /\ authorised env req claims rel.
Proof.
  unfold authorize. destruct (decide (sreq_StackID req = ""%string)) as [Hst|Hst]; [rewrite bool_decide_true by done|rewrite bool_decide_false by done]; cbn [negb].
  - destruct (decide (sreq_AttestationMethod req = "ecdsa"%string)) as [Hm|Hm]; [rewrite bool_decide_true by done|rewrite bool_decide_false by done]; intros Hr.
    + apply hm_bind_reply in Hr as (s1 & u & Ho & Hr). apply hm_ret_reply in Hr as [<- ->]. unfold verifyECDSAOwnership in Ho. reply Ho.
      apply hm_reject_reply in Ho as [Hc ->]. split; [done|].
      rewrite negb_false_iff in Ha, Hc. apply Z.eqb_eq in Hc. subst. by eapply by_creator.
    + reply Hr. apply hm_ret_reply in Hr as [<- ->]. split; [done|].
      rewrite negb_false_iff, bool_decide_eq_true in Ha0. eapply by_release; try done.
      * intros Hr1 Hr2. revert Ha1. rewrite !bool_decide_false by done. cbn. by rewrite negb_false_iff, bool_decide_eq_true.
      * intros Hs. by rewrite bool_decide_true in Ha2.
      * destruct a3. by apply validateContainerPolicy_ok.
  - intros Hr. reply Hr. rewrite bool_decide_eq_false in Ha.
    destruct (authorizeViaPlatform env (sreq_StackID req) claims) as [err|] eqn:Hp; [by destruct (writePlatformAuthError err)|].
    apply hm_ret_reply in Hr as [<- ->]. split; [done|]. apply authorizeViaPlatform_ok in Hp as (l & apps & app & pre & ? & ? & ? & ? & ?).
    by eapply by_platform.
Qed.

(** The version a request is served from. *)
Definition version_for (n : Node Fr P) (attestationTime : Z) : option (KeyShareVersion Fr) :=
  if attestationTime >? 0 then GetKeyVersionAtTime (keyStore n) attestationTime else GetActiveVersion (keyStore n).

Lemma select_key_version_ok t (s s' : Server) v : select_key_version t s = (s', Reply v) ->
  s' = s /\ version_for (srv_node s) t = Some v /\ is_Some (PrivateShare v).
Proof.
  unfold select_key_version, version_for. intros Hv. apply hm_bind_reply in Hv as (s1 & x & Hg & Hv). apply hm_get_reply in Hg as [-> ->].
  apply hm_bind_reply in Hv as (s1 & kv & Hkv & Hv). assert (Hs : s1 = s /\ kv = if t >? 0 then GetKeyVersionAtTime (keyStore (srv_node s)) t else GetActiveVersion (keyStore (srv_node s))).
  { destruct (t >? 0); [reply Hkv; apply from_opt_ok in Ha; by apply hm_ret_reply in Hkv as [<- ->]|by apply hm_ret_reply in Hkv as [<- ->]]. }
  destruct Hs as [-> <-]. reply Hv. apply hm_ret_reply in Hv as [<- ->]. apply from_opt_ok in Ha as ->. split_and!; [done|done|].
  rewrite bool_decide_eq_false in Ha0. destruct (PrivateShare a); [by eexists|done].
Qed.

Lemma validate_request_ok req (s s' : Server) u : validate_request req s = (s', Reply u) ->
  s' = s /\ sreq_AppID req <> ""%string /\ not_allowed (srv_node s) (sreq_AppID req) = false /\
  0 < Z.of_nat (length (sreq_RSAPubKeyTmp req)) <= 8192.
Proof.
  unfold validate_request. intros Hv. reply Hv. apply hm_reject_reply in Hv as [_ ->]. rewrite bool_decide_eq_false in *.
  split_and!; try done; [|lia]. destruct (sreq_RSAPubKeyTmp req); [done|cbn; lia].
Qed.

(** What the attestation of a request says, when it verifies for the application. *)
Definition attested env req : option AttestationClaims :=
  match VerifyWithMethod (attestationManager env) (sreq_AttestationMethod req) (se_now env) (attestation_request req) with
  | Ok claims => if bool_decide (claims_AppID claims = sreq_AppID req) then Some claims else None
  | Err _ => None
  end.

(** The replay check of a request that is answered. *)
Definition consumes claims (s s' : Server) : Prop :=
  (claims_JTI claims = ""%string /\ s' = s) \/
  (claims_JTI claims <> ""%string /\ jtiCache s !! claims_JTI claims = None /\ Z.of_nat (size (jtiCache s)) < maxJTICacheSize /\
   s' = mkServer (srv_node s) (<[claims_JTI claims := claims_ExpiresAt claims]> (jtiCache s))).

Lemma check_replay_ok claims (s s' : Server) u : check_replay claims s = (s', Reply u) -> consumes claims s s'.
Proof.
  unfold check_replay, consumes, checkAndStoreJTI. case_bool_decide as Hj; [intros [= <- <-]; by left|]. intros Hr. right. revert Hr.
  case_bool_decide as Hs; [done|]. destruct (_ >=? _) eqn:Hsz; [done|]. intros [= <- <-]. rewrite <- eq_None_not_Some in Hs. split_and!; try done. lia.
Qed.

(** The answer to a request: the signature of the selected version's share on the
    application, encrypted under the request's key, with the release's environment. *)
Definition answers env req (n : Node Fr P) (rel : option Release) (resp : SecretsResponseV1) : Prop :=
  exists v g b, version_for n (sreq_AttestationTime req) = Some v /\ is_Some (PrivateShare v) /\
    signAppIDWithVersion (sreq_AppID req) (Some v) = Ok g /\ json_marshal_G1 g = Ok b /\
    Encrypt (se_rand env) b (sreq_RSAPubKeyTmp req) = Ok (sresp_EncryptedPartialSig resp) /\ sresp_ExtraData resp = sreq_ExtraData req /\
    sresp_EncryptedEnv resp = from_option rel_EncryptedEnv ""%string rel /\ sresp_PublicEnv resp = from_option rel_PublicEnv ""%string rel.

Lemma handleSecretsRequest_ok env r (s s' : Server) resp : handleSecretsRequest env r s = (s', Reply resp) ->
  exists req claims rel, Method r = "POST"%string /\ json_secrets (Body (limited maxSecretsBodyBytes r)) = Ok req /\
    sreq_AppID req <> ""%string /\ not_allowed (srv_node s) (sreq_AppID req) = false /\ 0 < Z.of_nat (length (sreq_RSAPubKeyTmp req)) <= 8192 /\
    attested env req = Some claims /\ consumes claims s s' /\ authorised env req claims rel /\ answers env req (srv_node s) rel resp.
Proof.
  unfold handleSecretsRequest. intros Hr. apply hm_bind_reply in Hr as (s0 & u & Hm & Hr). apply hm_reject_reply in Hm as [Hm ->].
  rewrite negb_false_iff, bool_decide_eq_true in Hm. apply hm_bind_reply in Hr as (s0 & req & Hq & Hr). apply hm_or_reply in Hq as [Hq ->].
  apply hm_bind_reply in Hr as (s0 & u0 & Hv & Hr). apply validate_request_ok in Hv as (-> & Happ & Hal & Hrsa).
  apply hm_bind_reply in Hr as (s0 & claims & Hat & Hr). unfold attest in Hat. reply Hat. apply hm_ret_reply in Hat as [-> ->].
  apply hm_bind_reply in Hr as (s1 & u1 & Hc & Hr). apply check_replay_ok in Hc.
  apply hm_bind_reply in Hr as (s0 & rel & Hau & Hr). apply authorize_ok in Hau as [-> Hau].
  apply hm_bind_reply in Hr as (s0 & v & Hkv & Hr). apply select_key_version_ok in Hkv as (-> & Hv & Hx). reply Hr. apply hm_ret_reply in Hr as [<- ->].
  assert (Hn : srv_node s1 = srv_node s) by (destruct Hc as [[_ ->]|(_ & _ & _ & ->)]; done). rewrite Hn in Hv.
  exists req, claims, rel. split_and!; try done; [lia|lia|..].
  - unfold attested. rewrite Ha. by rewrite negb_false_iff in Ha0; rewrite Ha0.
  - exists v, a, a1. by destruct rel; split_and!.
Qed.

(** ** Whatever the answer *)

(** A request leaves the node alone and only adds to the replay cache, up to its bound. *)
Definition server_le (s s' : Server) : Prop :=
  srv_node s' = srv_node s /\ jtiCache s ⊆ jtiCache s' /\
  (Z.of_nat (size (jtiCache s)) <= maxJTICacheSize -> Z.of_nat (size (jtiCache s')) <= maxJTICacheSize).
Definition keeps {A} (m : M A) : Prop := forall s, server_le s (m s).1.

Lemma server_le_refl s : server_le s s.
Proof. done. Qed.
Lemma server_le_trans s1 s2 s3 : server_le s1 s2 -> server_le s2 s3 -> server_le s1 s3.
Proof. intros (? & ? & ?) (? & ? & ?). split_and!; [congruence|by etrans|auto]. Qed.

Lemma keeps_bind {A B} (m : M A) (f : A -> M B) : keeps m -> (forall a, keeps (f a)) -> keeps (m ≫= f).
Proof.
  intros Hm Hf s. unfold mbind, hm_bind. specialize (Hm s). destruct (m s) as [s1 [a|c e]]; [|done].
  eapply server_le_trans; [exact Hm|apply Hf].
Qed.
Lemma keeps_ret {A} (a : A) : keeps (mret a).
Proof. intros s. apply server_le_refl. Qed.
Lemma keeps_get : keeps hm_get.
Proof. intros s. apply server_le_refl. Qed.
Lemma keeps_or {A} c e (r : res A) : keeps (hm_or c e r).
Proof. intros s. apply server_le_refl. Qed.
Lemma keeps_error {A} c e : keeps (hm_error (A := A) c e).
Proof. intros s. apply server_le_refl. Qed.
Lemma keeps_reject b c e : keeps (hm_reject b c e).
Proof. unfold hm_reject. destruct b; [apply keeps_error|apply keeps_ret]. Qed.

Lemma keeps_replay claims : keeps (check_replay claims).
Proof.
  intros s. unfold check_replay, checkAndStoreJTI. case_bool_decide; [done|]. case_bool_decide as Hj; [done|].
  destruct (_ >=? _) eqn:Hsz; [done|]. cbn. split_and!; [done|..]; cbn [jtiCache].
  - apply insert_subseteq. by apply eq_None_not_Some.
  - intros _. rewrite map_size_insert_None by (by apply eq_None_not_Some). lia.
Qed.

Create HintDb keeps.
#[local] Hint Resolve keeps_bind keeps_ret keeps_get keeps_or keeps_error keeps_reject keeps_replay : keeps.

Ltac keeps := repeat first [apply keeps_bind; [|intros ?] | case_match | progress eauto with keeps].

Lemma keeps_secrets env r : keeps (handleSecretsRequest env r).
Proof. unfold handleSecretsRequest, validate_request, attest, authorize, verifyECDSAOwnership, select_key_version. keeps. Qed.

Lemma keeps_app_sign r : keeps (handleAppSign r).
Proof. unfold handleAppSign. keeps. Qed.

(** ** The replay cache over time *)

(** What happens to a server: requests, ticks of the cleanup, and whatever else its node
    does. *)
Inductive server_event :=
| EvSecrets (env : SecretsEnv) (r : Request)
| EvAppSign (r : Request)
| EvCleanup (now : Z)
| EvNode (f : Node Fr P -> Node Fr P).

Definition serve (s : Server) (e : server_event) : Server :=
  match e with
  | EvSecrets env r => (handleSecretsRequest env r s).1
  | EvAppSign r => (handleAppSign r s).1
  | EvCleanup now => cleanupJTI now s
  | EvNode f => mkServer (f (srv_node s)) (jtiCache s)
  end.

Lemma serve_keeps_jti s e j exp : jtiCache s !! j = Some exp -> (forall now, e = EvCleanup now -> now < exp) -> jtiCache (serve s e) !! j = Some exp.
Proof.
  intros Hj He. destruct e as [env r|r|now|f]; cbn [serve]; [..|done].
  - destruct (keeps_secrets env r s) as (_ & Hc & _). by eapply lookup_weaken.
  - destruct (keeps_app_sign r s) as (_ & Hc & _). by eapply lookup_weaken.
  - cbn [cleanupJTI jtiCache]. apply map_lookup_filter_Some. split; [done|]. by apply He.
Qed.

Lemma serve_bounded s e : Z.of_nat (size (jtiCache s)) <= maxJTICacheSize -> Z.of_nat (size (jtiCache (serve s e))) <= maxJTICacheSize.
Proof.
  intros Hb. destruct e as [env r|r|now|f]; cbn [serve]; [by apply keeps_secrets|by apply keeps_app_sign| |done].
  etrans; [|exact Hb]. cbn [cleanupJTI jtiCache]. apply Nat2Z.inj_le, map_size_filter.
Qed.

(** ** What the endpoints guarantee *)

(** C36: Secrets are released only to an authorised, attested requester: a 200 implies that
    the application is allowed on this node, that a registered method verified the
    attestation for that very application, that its identifier, if it has one, was unused
    and is now recorded, and that the platform's release, the on-chain creator or the
    on-chain release (digest, registry and container policy) authorises it; the answer is
    the share of the selected version applied to the application's identity, encrypted
    under the requester's key of at least 2048 bits, with the environment of that release.
    Neither endpoint ever changes the node. *)
Theorem secrets_released_when_authorised env r (s : Server) :
  (forall s' resp, handleSecretsRequest env r s = (s', Reply resp) ->
    exists req claims rel, Method r = "POST"%string /\ json_secrets (Body (limited maxSecretsBodyBytes r)) = Ok req /\
      not_allowed (srv_node s) (sreq_AppID req) = false /\ attested env req = Some claims /\ claims_AppID claims = sreq_AppID req /\
      consumes claims s s' /\ authorised env req claims rel /\ answers env req (srv_node s) rel resp /\
      exists b k, pem_Decode (sreq_RSAPubKeyTmp req) = Some b /\ ParsePKIXPublicKey b = Ok (RsaKey k) /\ MinRSAKeyBits <= pub_BitLen k) /\
  srv_node (handleSecretsRequest env r s).1 = srv_node s /\ srv_node (handleAppSign r s).1 = srv_node s.
Proof.
  split_and!; [|by apply keeps_secrets|by apply keeps_app_sign].
  intros s' resp (req & claims & rel & Hm & Hq & _ & Hal & _ & Hat & Hc & Hau & Hans)%handleSecretsRequest_ok.
  exists req, claims, rel. split_and!; try done.
  - unfold attested in Hat. destruct (VerifyWithMethod _ _ _ _); [|done]. case_bool_decide; [|done]. by injection Hat as <-.
  - destruct Hans as (v & g & b & _ & _ & _ & _ & He & _). apply encrypt_strong in He as (b' & k & ? & ? & ? & _). by exists b', k.
Qed.

Lemma kept_or_cleaned j exp events s : jtiCache s !! j = Some exp ->
  (exists now, EvCleanup now ∈ events /\ exp <= now) \/ jtiCache (foldl serve s events) !! j = Some exp.
Proof.
  revert s. induction events as [|e events IH]; intros s Hj; [by right|]. cbn [foldl].
  destruct (match e with EvCleanup now => exp <=? now | _ => false end) eqn:He.
  - destruct e as [| |now|]; try done. left. exists now. split; [by left|by apply Z.leb_le].
  - destruct (IH (serve s e)) as [(now & Hin & Hle)|Hk]; [|left; exists now; split; [by right|done]|by right].
    apply serve_keeps_jti; [done|]. intros now ->. by apply Z.leb_gt.
Qed.

(** C37: An attestation with an identifier is used once: whatever requests, cleanups and
    node activity lie between two answered requests whose attestations carry the same
    identifier, a cleanup at or after the first one's expiry is among them; and the cache
    never holds more than its bound. *)
Theorem jti_single_use env1 env2 r1 r2 req1 req2 c1 c2 (n : Node Fr P) (before between : list server_event) resp1 resp2 :
  json_secrets (Body (limited maxSecretsBodyBytes r1)) = Ok req1 -> attested env1 req1 = Some c1 -> claims_JTI c1 <> ""%string ->
  json_secrets (Body (limited maxSecretsBodyBytes r2)) = Ok req2 -> attested env2 req2 = Some c2 -> claims_JTI c2 = claims_JTI c1 ->
  let s0 := foldl serve (mkServer n ∅) before in
  let s1 := foldl serve s0 (EvSecrets env1 r1 :: between) in
  (handleSecretsRequest env1 r1 s0).2 = Reply resp1 -> (handleSecretsRequest env2 r2 s1).2 = Reply resp2 ->
  Z.of_nat (size (jtiCache s1)) <= maxJTICacheSize /\ exists now, EvCleanup now ∈ between /\ claims_ExpiresAt c1 <= now.
Proof.
  intros Hq1 Ha1 Hj Hq2 Ha2 Hj2 s0 s1 Hr1 Hr2. split.
  { assert (Hb : forall es s, Z.of_nat (size (jtiCache s)) <= maxJTICacheSize -> Z.of_nat (size (jtiCache (foldl serve s es))) <= maxJTICacheSize).
    { induction es as [|e es IH]; intros s Hs; [done|]. by apply IH, serve_bounded. }
    by do 2 apply Hb. }
  destruct (handleSecretsRequest env1 r1 s0) as [s' [a|c e]] eqn:He1; [|done].
  assert (Hs1 : s1 = foldl serve s' between) by (unfold s1; cbn [foldl serve]; by rewrite He1).
  destruct (handleSecretsRequest env2 r2 s1) as [s2' [a2|c e]] eqn:He2; [|done].
  apply handleSecretsRequest_ok in He1 as (q & cl & _ & _ & Hq & _ & _ & _ & Hat & Hc & _). rewrite Hq1 in Hq. injection Hq as <-.
  rewrite Ha1 in Hat. injection Hat as <-. destruct Hc as [[? _]|(_ & _ & _ & Hs')]; [done|].
  apply handleSecretsRequest_ok in He2 as (q & cl & _ & _ & Hq & _ & _ & _ & Hat & Hc & _). rewrite Hq2 in Hq. injection Hq as <-.
  rewrite Ha2 in Hat. injection Hat as <-. destruct Hc as [[? _]|(_ & Hnone & _)]; [congruence|]. rewrite Hj2 in Hnone.
  destruct (kept_or_cleaned (claims_JTI c1) (claims_ExpiresAt c1) between s') as [Hd|Hk]; [subst s'; cbn [jtiCache]; apply lookup_insert_eq|done|].
  rewrite Hs1, Hk in Hnone. done.
Qed.

(** The request with another ephemeral key. *)
Definition with_key (key : bytes) req : SecretsRequestV1 :=
  mkSecretsRequestV1 (sreq_AppID req) (sreq_StackID req) (sreq_AttestationMethod req) (sreq_Attestation req) key (sreq_AttestationTime req)
    (sreq_Challenge req) (sreq_PublicKey req) (sreq_ExtraData req) (sreq_CCInitData req).

Lemma ecdsa_claims cfg now request claims : ecdsa_Verify cfg now (Some request) = Ok claims -> claims_JTI claims = ""%string.
Proof.
  unfold ecdsa_Verify. intros Hv. cbn [from_opt mbind res_bind] in Hv. rewrite !fail_if_bind in Hv. destruct Hv as (_ & _ & _ & _ & Hv).
  apply res_bind_ok in Hv as ([ts nonce] & _ & Hv). cbv zeta in Hv. rewrite !fail_if_bind in Hv. destruct Hv as (_ & _ & _ & Hv).
  apply res_bind_ok in Hv as (pk & _ & Hv). rewrite !fail_if_bind in Hv. by destruct Hv as (_ & _ & [= <-]).
Qed.

(** A guard that does not fire. *)
Ltac pass s tac := apply hm_bind_reply; exists s, tt; split; [apply hm_reject_reply; split; [tac|reflexivity]|].

Lemma validate_request_with_key key req (s : Server) : 0 < Z.of_nat (length key) <= 8192 ->
  validate_request req s = (s, Reply tt) -> validate_request (with_key key req) s = (s, Reply tt).
Proof.
  intros Hk Hv. unfold validate_request in *. cbn [with_key sreq_AppID sreq_RSAPubKeyTmp sreq_ExtraData sreq_CCInitData sreq_Attestation sreq_AttestationMethod].
  reply Hv. apply hm_reject_reply in Hv as [Hv _].
  pass s ltac:(done). apply hm_bind_reply. exists s, s. split; [by apply hm_get_reply|]. pass s ltac:(done).
  pass s ltac:(apply bool_decide_eq_false; intros ->; cbn in Hk; lia). pass s ltac:(lia). do 3 pass s ltac:(done).
  by apply hm_reject_reply.
Qed.

(** An [ecdsa] attestation is bound neither to one use nor to the requester: after a
    request with it was answered, the same attestation with any other RSA key of an
    acceptable size is answered as well, by the unchanged server, with the same partial
    signature encrypted under that other key. *)
Theorem ecdsa_attestation_replays cfg env r r' req key (s s' : Server) resp :
  attestationManager env !! "ecdsa"%string = Some (ECDSAAttestationMethod cfg) -> sreq_AttestationMethod req = "ecdsa"%string ->
  json_secrets (Body (limited maxSecretsBodyBytes r)) = Ok req -> handleSecretsRequest env r s = (s', Reply resp) ->
  Method r' = "POST"%string -> json_secrets (Body (limited maxSecretsBodyBytes r')) = Ok (with_key key req) ->
  0 < Z.of_nat (length key) <= 8192 -> (forall m, is_ok (Encrypt (se_rand env) m key) = true) ->
  s' = s /\ exists resp' m, handleSecretsRequest env r' s' = (s', Reply resp') /\
    Encrypt (se_rand env) m (sreq_RSAPubKeyTmp req) = Ok (sresp_EncryptedPartialSig resp) /\
    Encrypt (se_rand env) m key = Ok (sresp_EncryptedPartialSig resp').
Proof.
  intros Hman Hmeth Hq Hr Hm' Hq' Hk Hen. unfold handleSecretsRequest in Hr. apply hm_bind_reply in Hr as (s0 & u & Hm & Hr).
  apply hm_reject_reply in Hm as [_ ->]. apply hm_bind_reply in Hr as (s0 & q & Hd & Hr). apply hm_or_reply in Hd as [Hd ->].
  rewrite Hq in Hd. injection Hd as <-. apply hm_bind_reply in Hr as (s0 & [] & Hv & Hr). pose proof Hv as (-> & _)%validate_request_ok.
  apply hm_bind_reply in Hr as (s0 & claims & Hat & Hr). pose proof Hat as Hat'. unfold attest in Hat'. reply Hat'. apply hm_ret_reply in Hat' as [-> ->].
  assert (Hjti : claims_JTI claims = ""%string).
  { unfold VerifyWithMethod in Ha. rewrite Hmeth, Hman in Ha. cbn [from_opt mbind res_bind] in Ha. by apply wrap_ok, ecdsa_claims in Ha. }
  apply hm_bind_reply in Hr as (s1 & [] & Hc & Hr). pose proof Hc as Hc'. unfold check_replay in Hc'. rewrite bool_decide_true in Hc' by done.
  injection Hc' as <-. apply hm_bind_reply in Hr as (s1 & rel & Hau & Hr). pose proof Hau as [-> _]%authorize_ok.
  apply hm_bind_reply in Hr as (s1 & v & Hkv & Hr). pose proof Hkv as (-> & _)%select_key_version_ok. reply Hr. apply hm_ret_reply in Hr as [<- ->].
  split; [done|]. specialize (Hen a1). destruct (Encrypt (se_rand env) a1 key) as [c|e] eqn:Hc2; [|done].
  exists (match rel with Some release => mkSecretsResponseV1 (rel_EncryptedEnv release) (rel_PublicEnv release) c (sreq_ExtraData req)
          | None => mkSecretsResponseV1 "" "" c (sreq_ExtraData req) end), a1.
  split; [|by destruct rel]. unfold handleSecretsRequest.
  pass s ltac:(by rewrite bool_decide_true).
  apply hm_bind_reply. exists s, (with_key key req). split; [by apply hm_or_reply|].
  apply hm_bind_reply. exists s, tt. split; [by apply validate_request_with_key|].
  apply hm_bind_reply. exists s, claims. split; [unfold attest in *|].
  { apply hm_bind_reply. exists s, claims. split; [|by apply hm_bind_reply; exists s, tt; split; [by apply hm_reject_reply|by apply hm_ret_reply]].
    apply hm_or_reply. split; [|done]. revert Ha. unfold VerifyWithMethod. cbn [with_key sreq_AttestationMethod]. by rewrite Hmeth, Hman. }
  apply hm_bind_reply. exists s, tt. split; [done|]. apply hm_bind_reply. exists s, rel. split; [done|].
  apply hm_bind_reply. exists s, v. split; [done|]. apply hm_bind_reply. exists s, a. split; [by apply hm_or_reply|].
  apply hm_bind_reply. exists s, a1. split; [by apply hm_or_reply|]. apply hm_bind_reply. exists s, c. split; [by apply hm_or_reply|].
  by apply hm_ret_reply; destruct rel.
Qed.
End SecretsFacts.

(** ** Witnesses: a node with one version, an [ecdsa] method and a token method *)

#[local] Existing Instances toy97 toy97_laws toy_ecdsa toy_rsa.
#[local] Instance secrets_addr : EthAddr := { Hex _ := "0x"; HexToAddress _ := 7 }.

(** Keys of 2048 and 4096 bits. *)
Definition rsa_key_1 : bytes := [45; 48; 2048].
Definition rsa_key_2 : bytes := [45; 48; 4096].
Definition ecdsa_secrets : SecretsRequestV1 :=
  mkSecretsRequestV1 "0xAb" "" "ecdsa" demo_sig rsa_key_1 0 (text_bytes demo_challenge) [7] [] [].
Definition token_secrets : SecretsRequestV1 := mkSecretsRequestV1 "0xAb" "" "tok" [1] rsa_key_1 0 [] [] [] [].
#[local] Instance secrets_lib : SecretsLib := {
  IsHexAddress _ := true;
  json_secrets b := match b with
                    | [1] => Ok ecdsa_secrets
                    | [2] => Ok (with_key rsa_key_2 ecdsa_secrets)
                    | [3] => Ok token_secrets
                    | _ => Err "unexpected end of JSON input"
                    end;
  json_app_sign _ := Err "unexpected end of JSON input";
  json_marshal_G1 g := Ok (g1_compressed g) }.

Definition token_claims : AttestationClaims :=
  mkAttestationClaims "0xAb" "sha256:ab" "" "jti-1" 1000 2000 [] (mkContainerPolicy [] [] ∅ {["A"%string := "1"%string]} "") [] "".
Definition secrets_env : SecretsEnv := mkSecretsEnv (demo_now + 60 * Second)
  {["ecdsa"%string := ECDSAAttestationMethod demo_config; "tok"%string := mkAttestationMethod "tok" (fun _ _ => Ok token_claims)]}
  (fun _ => Ok 7)
  (fun _ => Ok (mkRelease "sha256:ab" "" "env" "public" 0 (mkContainerPolicy [] [] ∅ {["A"%string := "1"%string]} "")))
  None [].
Definition secrets_server : Server (@Fr toy97) unit :=
  let '(l, ks) := alloc (mkKeyShareVersion 100 (Some (toy_fr 3)) [] None true [1]) NewKeyStore in
  mkServer (mkNode 1 1 (AddVersion l ks) tt (mkAbortTracker 0 0) ∅ ∅ [] 0 "" (Some {["0xAb"%string]}) []) ∅.

Definition ecdsa_result := handleSecretsRequest secrets_env (mkRequest "POST" [1]) secrets_server.

Lemma secrets_released_when_authorised_witness : exists s' resp, ecdsa_result = (s', Reply resp) /\ sresp_EncryptedEnv resp = "env"%string /\
  exists req claims rel, authorised secrets_env req claims rel /\ answers secrets_env req (srv_node secrets_server) rel resp.
Proof.
  do 2 eexists. split; [vm_compute; reflexivity|]. split; [reflexivity|].
  destruct (secrets_released_when_authorised secrets_env (mkRequest "POST" [1]) secrets_server) as [Hs _].
  match goal with |- context [answers _ _ _ _ ?resp] => destruct (Hs ecdsa_result.1 resp) as (req & claims & rel & _ & _ & _ & _ & _ & _ & Ha & Hans & _) end;
    [vm_compute; reflexivity|]. by exists req, claims, rel.
Defined.

Definition token_request : Request := mkRequest "POST" [3].

Lemma jti_single_use_witness :
  (handleSecretsRequest secrets_env token_request (foldl serve secrets_server [EvSecrets secrets_env token_request])).2 =
    HttpError 401 "attestation token already used" /\
  exists now, (EvCleanup now : server_event (P := unit)) ∈ [EvCleanup 1999; EvCleanup 2000] /\ 2000 <= now.
Proof.
  split; [vm_compute; reflexivity|].
  eapply (jti_single_use secrets_env secrets_env token_request token_request token_secrets token_secrets token_claims token_claims
    (srv_node secrets_server) [] [EvCleanup 1999; EvCleanup 2000]);
    [reflexivity|reflexivity|discriminate|reflexivity|reflexivity|reflexivity|vm_compute; reflexivity|vm_compute; reflexivity].
Defined.

Lemma ecdsa_attestation_replays_witness : exists resp resp' m,
  ecdsa_result = (secrets_server, Reply resp) /\ handleSecretsRequest secrets_env (mkRequest "POST" [2]) secrets_server = (secrets_server, Reply resp') /\
  Encrypt [] m rsa_key_1 = Ok (sresp_EncryptedPartialSig resp) /\ Encrypt [] m rsa_key_2 = Ok (sresp_EncryptedPartialSig resp').
Proof.
  unfold ecdsa_result. destruct (handleSecretsRequest secrets_env (mkRequest "POST" [1]) secrets_server) as [s' [resp|c e]] eqn:Hr; [|vm_compute in Hr; discriminate Hr].
  destruct (ecdsa_attestation_replays demo_config secrets_env (mkRequest "POST" [1]) (mkRequest "POST" [2]) ecdsa_secrets rsa_key_2 secrets_server s' resp)
    as (-> & resp' & m & Hr' & H1 & H2).
  - apply lookup_insert_eq.
  - reflexivity.
  - vm_compute; reflexivity.
  - exact Hr.
  - reflexivity.
  - vm_compute; reflexivity.
  - vm_compute. split; [reflexivity|discriminate].
  - intros m. reflexivity.
  - exists resp, resp', m. exact (conj eq_refl (conj Hr' (conj H1 H2))).
Defined.
