(* ===== verification/Ibe.v ===== *)
(** * Identity-based encryption: [EncryptForApp] and [DecryptForApp] of [pkg/crypto/bls.go]

    Boneh-Franklin encryption to the master public key and an application identity, with
    HKDF and AES-GCM on the pairing value.  HKDF and AES-GCM are parameters.  The theorems:
    what was encrypted for an application decrypts under the key that a threshold of honest
    partial signatures recovers, and decryption answers only for well-formed ciphertexts
    whose ephemeral point is not the identity. *)

From S2P Require Import Prelude Bytes Types Fr Lagrange Gnark Toy Crypto CryptoFacts Recover GoText Attestation.
From Stdlib Require Import Field.

Definition ibeMagic : bytes := string_bytes "IBE".
Definition ibeVersion : Z := 1.
Definition hkdfSalt : bytes := string_bytes "eigenx-kms-go-ibe-encryption".
Definition magicSize : nat := 3.
Definition versionSize : nat := 1.
Definition headerSize : nat := magicSize + versionSize.
Definition g2Size : nat := 96.
Definition nonceSize : nat := 12.
Definition tagSize : nat := 16.
Definition minCiphertextSize : nat := headerSize + g2Size + nonceSize + tagSize.

(** [hkdf.New(sha256.New, ikm, salt, info)] read for [n] bytes; AES-GCM with a key, a nonce
    and associated data. *)
Class SymLib := {
  hkdf_read : bytes -> bytes -> bytes -> nat -> res bytes;
  aes_NewGCM : bytes -> res unit;
  gcm_Seal : bytes -> bytes -> bytes -> bytes -> bytes;
  gcm_Open : bytes -> bytes -> bytes -> bytes -> res bytes
}.
Class SymLaws `{SymLib} : Prop := {
  gcm_open_seal k n p a : gcm_Open k n (gcm_Seal k n p a) a = Ok p;
  gcm_seal_tag k n p a : (tagSize <= length (gcm_Seal k n p a))%nat
}.

Definition ValidateAppID (appID : string) : res unit :=
  _ ← fail_if (bool_decide (appID = ""%string)) "appID is empty";
  fail_if (String.length appID <? 5)%nat "appID is too short (minimum 5 characters)".

Definition buildAAD (appID : string) (version : Z) (c1Bytes : bytes) : bytes := string_bytes appID ++ [version] ++ c1Bytes.

Definition ValidateCiphertextFormat (ciphertext : bytes) : res unit :=
  _ ← fail_if (length ciphertext <? minCiphertextSize)%nat "ciphertext too short";
  _ ← fail_if (negb (bool_decide (take magicSize ciphertext = ibeMagic))) "invalid ciphertext format: missing or incorrect magic number";
  version ← from_opt "" (ciphertext !! magicSize);
  fail_if (negb (version =? ibeVersion)) "unsupported ciphertext version: %d".

Section IBE.
Context `{Gnark} `{SymLib}.

Definition ComputeAppPublicKeyFromMaster (appID : string) (masterPublicKey : G2Point) : res G1Point := HashToG1 appID.

Definition deriveKeyMaterial (gIDBytes : bytes) (version : Z) (appID : string) : res bytes :=
  let info := string_bytes "IBE-encryption|v" ++ text_bytes (print_d version) ++ string_bytes "|" ++ string_bytes appID in
  wrap "failed to derive key using HKDF" (hkdf_read gIDBytes hkdfSalt info 32).

(** [r] and [nonce] are what the random sources return. *)
Definition EncryptForApp (r : res Fr) (nonce : res bytes) (appID : string) (masterPublicKey : G2Point) (plaintext : bytes) : res bytes :=
  _ ← wrap "invalid app ID for encryption" (ValidateAppID appID);
  QiD ← wrap "failed to hash app ID" (HashToG1 appID);
  QiDAffine ← wrap "failed to convert Q_ID to G1Affine" (G1PointFromCompressedBytes (g1_compressed QiD));
  masterPKAffine ← wrap "failed to convert master public key to G2Affine" (G2PointFromCompressedBytes (g2_compressed masterPublicKey));
  _ ← fail_if (g2_is_infinity masterPKAffine) "invalid master public key: zero/infinity point";
  r ← wrap "failed to generate random r" r;
  c1 ← wrap "failed to compute C1" (ScalarMulG2 G2Generator (Some r));
  c1Check ← wrap "failed to validate C1" (G2PointFromCompressedBytes (g2_compressed c1));
  _ ← fail_if (g2_is_infinity c1Check) "internal error: C1 is infinity point";
  pairingResult ← from_opt "failed to compute pairing" (Pair [QiDAffine] [masterPKAffine]);
  _ ← fail_if (gt_is_one pairingResult) "invalid pairing result: identity element (possible invalid master public key)";
  let gID := gt_exp pairingResult (fr_bigint r) in
  _ ← fail_if (gt_is_one gID) "invalid g_ID: identity element";
  keyMaterial ← deriveKeyMaterial (gt_bytes gID) ibeVersion appID;
  _ ← wrap "failed to create AES cipher" (aes_NewGCM keyMaterial);
  nonce ← wrap "failed to generate nonce" nonce;
  let aad := buildAAD appID ibeVersion (g2_compressed c1) in
  let encryptedData := gcm_Seal keyMaterial nonce plaintext aad in
  Ok (ibeMagic ++ [ibeVersion] ++ g2_compressed c1 ++ nonce ++ encryptedData).

Definition DecryptForApp (appID : string) (appPrivateKey : G1Point) (ciphertext : bytes) : res bytes :=
  _ ← ValidateAppID appID;
  _ ← ValidateCiphertextFormat ciphertext;
  version ← from_opt "" (ciphertext !! magicSize);
  let c1Bytes := take g2Size (drop headerSize ciphertext) in
  appPrivKeyAffine ← wrap "failed to convert app private key to G1Affine" (G1PointFromCompressedBytes (g1_compressed appPrivateKey));
  _ ← fail_if (g1_is_infinity appPrivKeyAffine) "invalid app private key: zero/infinity point";
  c1Affine ← wrap "failed to convert C1 to G2Affine" (G2PointFromCompressedBytes c1Bytes);
  _ ← fail_if (g2_is_infinity c1Affine) "invalid ciphertext: C1 is infinity point";
  gID ← from_opt "failed to compute pairing" (Pair [appPrivKeyAffine] [c1Affine]);
  _ ← fail_if (gt_is_one gID) "invalid pairing result: identity element";
  keyMaterial ← deriveKeyMaterial (gt_bytes gID) version appID;
  _ ← wrap "failed to create AES cipher" (aes_NewGCM keyMaterial);
  let nonce := take nonceSize (drop (headerSize + g2Size) ciphertext) in
  let encryptedData := drop (headerSize + g2Size + nonceSize) ciphertext in
  let aad := buildAAD appID version c1Bytes in
  wrap "failed to decrypt" (gcm_Open keyMaterial nonce encryptedData aad).
End IBE.

Section IBEFacts.
Context `{GnarkLaws} `{SymLaws}.
Local Open Scope fr_scope.

Add Field fr_field_ibe : (@fr_field Fr _ _).

(** Both sides of the pairing: [e(Q, s G2)^r = e(s Q, r G2)]. *)
Lemma pairing_move Q s r : g1_in_subgroup Q = true ->
  pairing (act1 Q s) (act2 g2_gen r) = gt_exp (pairing Q (act2 g2_gen s)) (fr_bigint r).
Proof.
  intros HQ. rewrite pairing_bilinear by (done || apply g2_ok_gen).
  pose proof (pairing_bilinear Q (act2 g2_gen s) 1 r HQ ltac:(apply gen_act_ok)) as Hr.
  rewrite act1_one, act2_mul in Hr by (done || apply g2_ok_gen). replace (1 * r) with r in Hr by ring. rewrite <- Hr.
  pose proof (pairing_bilinear Q g2_gen 1 (s * r) HQ g2_ok_gen) as Hs. rewrite act1_one in Hs by done. rewrite Hs. do 2 f_equal. ring.
Qed.

(** A ciphertext laid out by [EncryptForApp]. *)
Lemma layout (c1 nonce data : bytes) : length c1 = g2Size -> length nonce = nonceSize ->
  let ct := ibeMagic ++ [ibeVersion] ++ c1 ++ nonce ++ data in
  take magicSize ct = ibeMagic /\ ct !! magicSize = Some ibeVersion /\ take g2Size (drop headerSize ct) = c1 /\
  take nonceSize (drop (headerSize + g2Size) ct) = nonce /\ drop (headerSize + g2Size + nonceSize) ct = data /\
  (length ct = headerSize + g2Size + nonceSize + length data)%nat.
Proof.
  intros Hc Hn ct. assert (Hct : ct = ((ibeMagic ++ [ibeVersion]) ++ c1 ++ nonce ++ data)%list) by (unfold ct; by rewrite <- app_assoc).
  assert (Hh : forall k, drop (headerSize + k) ct = drop k (c1 ++ nonce ++ data)).
  { intros k. rewrite Hct, <- drop_drop. f_equal. }
  assert (Hg : forall k, drop (headerSize + g2Size + k) ct = drop k (nonce ++ data)).
  { intros k. by rewrite <- Nat.add_assoc, Hh, <- drop_drop, drop_app_length' by (by rewrite Hc). }
  split_and!; [done|done|..].
  - replace headerSize with (headerSize + 0)%nat by lia. by rewrite Hh, drop_0, take_app_length' by (by rewrite Hc).
  - replace (headerSize + g2Size)%nat with (headerSize + g2Size + 0)%nat by lia. by rewrite Hg, drop_0, take_app_length' by (by rewrite Hn).
  - by rewrite Hg, drop_app_length' by (by rewrite Hn).
  - rewrite Hct, !length_app, Hc, Hn. cbn. lia.
Qed.

Lemma ScalarMulG2_generator r : ScalarMulG2 G2Generator (Some r) = Ok (com r).
Proof.
  unfold ScalarMulG2, G2Generator. cbn [g2_compressed]. rewrite (decode_g2 _ g2_gen) by (apply g2_set_bytes_bytes, g2_ok_gen).
  cbn [mbind res_bind]. by rewrite bls_ScalarMulG2_base.
Qed.

(** What an encryption that succeeded was made of. *)
Lemma encrypt_ok r nonce id Q mpk s pt ct :
  hash_to_g1 (string_bytes id) = Some Q -> opens mpk s -> EncryptForApp (Ok r) (Ok nonce) id mpk pt = Ok ct ->
  let g := gt_exp (pairing Q (act2 g2_gen s)) (fr_bigint r) in
  ValidateAppID id = Ok tt /\ s <> 0 /\ r <> 0 /\ g2_is_infinity (act2 g2_gen r) = false /\ gt_is_one g = false /\ exists key,
    deriveKeyMaterial (gt_bytes g) ibeVersion id = Ok key /\ aes_NewGCM key = Ok tt /\
    ct = ibeMagic ++ [ibeVersion] ++ g2_compressed (com r) ++ nonce ++ gcm_Seal key nonce pt (buildAAD id ibeVersion (g2_compressed (com r))).
Proof.
  intros Hid Hs He g. unfold EncryptForApp in He. apply res_bind_ok in He as ([] & Hv%wrap_ok & He).
  unfold HashToG1, bls_HashToG1 in He. rewrite Hid in He. cbn [from_opt mbind res_bind wrap g1_compressed] in He.
  assert (HQ : g1_in_subgroup Q = true) by by eapply g1_ok_hash.
  rewrite (decode_g1 _ Q), (decode_opens _ _ Hs) in He by (by apply g1_set_bytes_bytes). cbn [wrap mbind res_bind] in He.
  rewrite fail_if_bind, ScalarMulG2_generator in He. destruct He as [Hinf He]. cbn [wrap mbind res_bind] in He.
  rewrite (decode_opens (com r) r) in He by (by apply opens_com). cbn [wrap mbind res_bind] in He.
  rewrite fail_if_bind, Pair_spec in He. destruct He as [Hinf' He]. cbn [from_opt mbind res_bind] in He.
  rewrite !fail_if_bind in He. destruct He as (_ & Hone & He).
  apply res_bind_ok in He as (key & Hkey & He). apply res_bind_ok in He as ([] & Haes%wrap_ok & He). injection He as <-.
  assert (Hnz : forall x, g2_is_infinity (act2 g2_gen x) = false -> x <> 0).
  { intros x Hx ->. rewrite act2_zero, (proj2 (g2_is_infinity_spec _)) in Hx by (done || apply g2_ok_gen). done. }
  split_and!; try done; [by apply Hnz|by apply Hnz|]. by exists key.
Qed.

Lemma encrypt_decrypt r nonce id Q mpk s pt ct :
  hash_to_g1 (string_bytes id) = Some Q -> Q <> g1_infinity -> opens mpk s -> length nonce = nonceSize ->
  EncryptForApp (Ok r) (Ok nonce) id mpk pt = Ok ct -> DecryptForApp id (psig Q s) ct = Ok pt.
Proof.
  intros Hid HQne Hs Hn He. assert (HQ : g1_in_subgroup Q = true) by by eapply g1_ok_hash.
  destruct (encrypt_ok _ _ _ _ _ _ _ _ Hid Hs He) as (Hv & Hs0 & Hr0 & Hinf & Hone & key & Hkey & Haes & ->).
  destruct (layout (g2_compressed (com r)) nonce (gcm_Seal key nonce pt (buildAAD id ibeVersion (g2_compressed (com r))))
    (g2_bytes_length _) Hn) as (Hm & Hver & Hc1 & Hnn & Hdd & Hlen).
  unfold DecryptForApp, ValidateCiphertextFormat. rewrite Hv, Hver. cbn [mbind res_bind]. rewrite Hm, Hlen, Hc1, Hnn, Hdd.
  apply res_bind_ok. exists tt. split.
  { rewrite !fail_if_bind, negb_false_iff, bool_decide_eq_true, Nat.ltb_ge. split_and!; [|done|done].
    pose proof (gcm_seal_tag key nonce pt (buildAAD id ibeVersion (g2_compressed (com r)))). unfold minCiphertextSize. lia. }
  cbn [from_opt res_bind]. rewrite decode_sig, (decode_opens (com r) r) by (done || by apply opens_com). cbn [wrap res_bind].
  apply fail_if_bind. split.
  { apply not_true_iff_false. rewrite g1_is_infinity_spec. by rewrite act1_eq_infinity. }
  apply fail_if_bind. split; [done|]. rewrite Pair_spec. cbn [from_opt res_bind]. rewrite pairing_move by done.
  apply fail_if_bind. split; [done|]. rewrite Hkey. cbn [mbind res_bind]. rewrite Haes. cbn [wrap mbind res_bind]. by rewrite gcm_open_seal.
Qed.

(** C26: Encryption to the master key and threshold recovery fit together: what was
    encrypted for an application under [p(0) * G2] decrypts to the plaintext under the key
    [RecoverAppPrivateKey] returns for any threshold of honest partial signatures. *)
Theorem threshold_decryption (id : string) (Q : G1) (p : list Fr) (sigs : gmap Address G1Point) (t : nat) (mpk : G2Point)
    (r : Fr) (nonce pt ct : bytes) :
  hash_to_g1 (string_bytes id) = Some Q -> Q <> g1_infinity -> (length p <= t <= size sigs)%nat ->
  (forall a s, sigs !! a = Some s -> ScalarMulG1 (mkG1Point (g1_bytes Q)) (Some (peval p (AddressToFr a))) = Ok s) ->
  NoDup (xcoords (map_to_list sigs).*1) -> opens mpk (peval p 0) -> length nonce = nonceSize ->
  EncryptForApp (Ok r) (Ok nonce) id mpk pt = Ok ct ->
  exists k, RecoverAppPrivateKey id sigs (Z.of_nat t) = Ok k /\ DecryptForApp id k ct = Ok pt.
Proof.
  intros Hid HQne Ht Hsigs Hnd Hmpk Hn He. assert (HQ : g1_in_subgroup Q = true) by by eapply g1_ok_hash.
  exists (psig Q (peval p 0)). split; [|by eapply encrypt_decrypt].
  pose proof (encrypt_ok _ _ _ _ _ _ _ _ Hid Hmpk He) as (_ & Hs0 & _).
  apply recover_honest; try done; [|by rewrite act1_eq_infinity].
  intros a s Ha%Hsigs. rewrite sig_1, ScalarMulG1_sig in Ha by done. injection Ha as <-. f_equal. ring.
Qed.

(** A plaintext is what AES-GCM opens, under some key. *)
Lemma decrypt_opens id k ct pt : DecryptForApp id k ct = Ok pt -> exists key a,
  gcm_Open key (take nonceSize (drop (headerSize + g2Size) ct)) (drop (headerSize + g2Size + nonceSize) ct) a = Ok pt.
Proof. unfold DecryptForApp. intros Hd. res_ok. eauto. Qed.

(** Decryption answers only for a well-formed ciphertext: at least the minimum length,
    the magic bytes and version of this format, an ephemeral point and a key that decode
    and are not the identity, a pairing value that is not the identity, and data that
    AES-GCM opens with the application, the version and the ephemeral point as associated
    data; so a ciphertext whose ephemeral point is the identity is refused. *)
Theorem decryption_checks (id : string) (k : G1Point) (ct pt : bytes) : DecryptForApp id k ct = Ok pt ->
  id <> ""%string /\ (5 <= String.length id)%nat /\ (minCiphertextSize <= length ct)%nat /\ take (S magicSize) ct = ibeMagic ++ [ibeVersion] /\
  exists K C key, let c1 := take g2Size (drop headerSize ct) in
    g1_set_bytes (g1_compressed k) = Some K /\ K <> g1_infinity /\ g2_set_bytes c1 = Some C /\ C <> g2_infinity /\
    pairing K C <> gt_one /\ deriveKeyMaterial (gt_bytes (pairing K C)) ibeVersion id = Ok key /\
    gcm_Open key (take nonceSize (drop (headerSize + g2Size) ct)) (drop (headerSize + g2Size + nonceSize) ct) (buildAAD id ibeVersion c1) = Ok pt.
Proof.
  unfold DecryptForApp, ValidateAppID, ValidateCiphertextFormat. intros Hd. apply res_bind_ok in Hd as ([] & Hid & Hd).
  rewrite fail_if_bind, fail_if_ok, bool_decide_eq_false, Nat.ltb_ge in Hid. apply res_bind_ok in Hd as ([] & Hf & Hd).
  rewrite !fail_if_bind, negb_false_iff, bool_decide_eq_true, Nat.ltb_ge in Hf. destruct Hf as (Hlen & Hm & Hf).
  apply res_bind_ok in Hf as (v & Hv%from_opt_ok & Hf%fail_if_ok). rewrite negb_false_iff, Z.eqb_eq in Hf. subst v.
  rewrite Hv in Hd. cbn [from_opt mbind res_bind] in Hd. apply res_bind_ok in Hd as (K & HK%wrap_ok%from_opt_ok & Hd).
  rewrite fail_if_bind in Hd. destruct Hd as [HKi Hd]. apply res_bind_ok in Hd as (C & HC%wrap_ok%from_opt_ok & Hd).
  rewrite fail_if_bind, Pair_spec in Hd. destruct Hd as [HCi Hd]. cbn [from_opt mbind res_bind] in Hd. rewrite fail_if_bind in Hd. destruct Hd as [Hone Hd].
  apply res_bind_ok in Hd as (key & Hkey & Hd). apply res_bind_ok in Hd as ([] & _ & Hd%wrap_ok).
  split_and!; [by destruct Hid|by destruct Hid|done|by rewrite (take_S_r _ _ ibeVersion), Hm|]. exists K, C, key. split_and!; try done.
  - intros Hx. by rewrite (proj2 (g1_is_infinity_spec _) Hx) in HKi.
  - intros Hx. by rewrite (proj2 (g2_is_infinity_spec _) Hx) in HCi.
  - intros Hx. by rewrite (proj2 (gt_is_one_spec _) Hx) in Hone.
Qed.
End IBEFacts.

(** ** Witness: three operators over the toy curve, a cipher that appends its tag *)

#[local] Existing Instances toy97 toy97_laws.

Definition toy_tag (k n a : bytes) : bytes := be_bytes 16 (be_val (toy_digest (k ++ n ++ a))).
#[local] Instance toy_sym : SymLib := {
  hkdf_read ikm salt info n := Ok (be_bytes n (be_val (toy_digest (ikm ++ salt ++ info))));
  aes_NewGCM k := if (length k =? 32)%nat then Ok tt else Err "invalid key size";
  gcm_Seal k n p a := p ++ toy_tag k n a;
  gcm_Open k n c a := let m := (length c - 16)%nat in
    if bool_decide (drop m c = toy_tag k n a) then Ok (take m c) else Err "cipher: message authentication failed" }.
#[local] Instance toy_sym_laws : SymLaws.
Proof.
  split; intros k n p a; cbn [gcm_Open gcm_Seal toy_sym]; rewrite length_app; assert (length (toy_tag k n a) = 16%nat) as -> by apply length_be_bytes;
    unfold tagSize; [|lia]. replace (length p + 16 - 16)%nat with (length p) by lia.
  by rewrite drop_app_length, take_app_length, bool_decide_true.
Qed.

Definition toy_nonce : bytes := seqZ 1 12.
Definition toy_ciphertext : bytes :=
  match EncryptForApp (Ok (toy_fr 11)) (Ok toy_nonce) "app-1" (com (toy_fr 5)) [72; 105] with Ok c => c | Err _ => [] end.

Lemma threshold_decryption_witness : exists k, RecoverAppPrivateKey "app-1" toy_sigs 2 = Ok k /\ DecryptForApp "app-1" k toy_ciphertext = Ok [72; 105].
Proof.
  apply (threshold_decryption "app-1" toy_id toy_poly toy_sigs 2 (com (toy_fr 5)) (toy_fr 11) toy_nonce [72; 105] toy_ciphertext).
  - reflexivity.
  - by_compute.
  - vm_compute. lia.
  - apply (map_Forall_lookup (fun a s => ScalarMulG1 _ (Some (peval toy_poly (AddressToFr a))) = Ok s)). by_compute.
  - by_compute.
  - vm_compute. reflexivity.
  - reflexivity.
  - vm_compute. reflexivity.
Defined.

Lemma decryption_checks_witness : DecryptForApp "app-1" (psig toy_id (toy_fr 5)) toy_ciphertext = Ok [72; 105] /\ (minCiphertextSize <= length toy_ciphertext)%nat.
Proof.
  split; [vm_compute; reflexivity|]. apply (decryption_checks "app-1" (psig toy_id (toy_fr 5)) toy_ciphertext [72; 105]). vm_compute. reflexivity.
Defined.
