(* ===== verification/Client.v ===== *)
(** * The client: [pkg/clients/kmsClient/client.go]

    Operators are asked concurrently; what the client sees is each operator's answer and
    the order in which the answers arrive, which are parameters, as is the iteration order
    of its maps.  The theorems: the master key a threshold of operators agreed on is the
    honest one; with fewer answers the client falls back to adding up commitments and
    obtains a multiple of the key; data encrypted to the master key is decrypted with the
    help of any threshold of honest operators, whatever the others answer. *)

From S2P Require Import Prelude Bytes Types Fr Lagrange Gnark Toy Crypto CryptoFacts Recover Dkg Persistence GoText Attestation Encryption Secrets Ibe.
From Stdlib Require Import Field.

Record PubkeyResponse := mkPubkeyResponse {
  pkr_OperatorAddress : string;
  pkr_Commitments : list G2Point;
  pkr_MasterPublicKey : option G2Point;
  pkr_Version : Z;
  pkr_IsActive : bool
}.
(** The decoded answer of [/app/sign]: the address is the text the operator sent. *)
Record SignResponse := mkSignResponse { sgr_OperatorAddress : string; sgr_PartialSignature : G1Point }.

(** [strings.EqualFold] with a hexadecimal text: no letter outside ASCII folds to one of
    its letters. *)
Definition EqualFold (s t : string) : bool := bool_decide (ToLower (chars_of s) = ToLower (chars_of t)).

(** The two vote maps: a key and its count. *)
Notation mpk_votes := (gmap bytes (G2Point * Z)).
Definition add_vote `{Gnark} (votes : mpk_votes) (mpk : option G2Point) : mpk_votes :=
  match mpk with
  | Some mpk =>
      if (length (g2_compressed mpk) =? 0)%nat then votes
      else match G2PointFromCompressedBytes (g2_compressed mpk) with
           | Err _ => votes
           | Ok _ => <[g2_compressed mpk := (mpk, (from_option snd 0 (votes !! g2_compressed mpk)) + 1)]> votes
           end
  | None => votes
  end.

Section Client.
Context `{Gnark} `{SymLib} `{EthAddr}.

(** What an operator's [/pubkey] contributes. *)
Definition pubkey_answer (get_pubkey : OperatorSetPeer -> res PubkeyResponse) (op : OperatorSetPeer) : option PubkeyResponse :=
  match get_pubkey op with
  | Err _ => None
  | Ok response =>
      if negb (pkr_IsActive response) then None
      else if (length (pkr_Commitments response) =? 0)%nat then None
      else Some response
  end.

(** [arrived] lists the operators in the order their answers arrive, [order] is the
    iteration order of the vote map. *)
Definition GetMasterPublicKey (get_pubkey : OperatorSetPeer -> res PubkeyResponse) (order : mpk_votes -> list bytes)
    (arrived operators : list OperatorSetPeer) : res G2Point :=
  _ ← fail_if (length operators =? 0)%nat "no operators provided";
  let results := omap (pubkey_answer get_pubkey) arrived in
  let allCommitments := pkr_Commitments <$> results in
  _ ← fail_if (length results =? 0)%nat "failed to collect commitments from any operator";
  let votes := foldl add_vote ∅ (pkr_MasterPublicKey <$> results) in
  let threshold := CalculateThreshold (Z.of_nat (length operators)) in
  let mpkRespondents := foldr Z.add 0 ((map_to_list votes).*2.*2) in
  if (0 <? size votes)%nat && (mpkRespondents >=? threshold) then
    match find (fun key => from_option snd 0 (votes !! key) >=? threshold) (order votes) with
    | Some key => from_opt "" (fst <$> votes !! key)
    | None => Err "failed to reach threshold agreement on master public key: needed %d, got max %d agreeing out of %d responses"
    end
  else wrap "failed to compute master public key" (ComputeMasterPublicKey allCommitments).

(** What an operator's [/app/sign] contributes. *)
Definition sign_answer (post_sign : OperatorSetPeer -> res SignResponse) (op : OperatorSetPeer) : option (Address * G1Point) :=
  match post_sign op with
  | Err _ => None
  | Ok response =>
      match G1Point_IsZero (sgr_PartialSignature response) with
      | Err _ => None
      | Ok isZero =>
          if (isZero : bool) then None
          else if negb (EqualFold (sgr_OperatorAddress response) (Hex (OperatorAddress op))) then None
          else Some (OperatorAddress op, sgr_PartialSignature response)
      end
  end.

Definition collect (answers : list (Address * G1Point)) : gmap Address G1Point := foldl (fun m '(a, s) => <[a := s]> m) ∅ answers.

Definition collectPartialSignaturesForDecrypt (post_sign : OperatorSetPeer -> res SignResponse) (arrived : list OperatorSetPeer) (threshold : Z)
    : res (gmap Address G1Point) :=
  let partialSigs := collect (omap (sign_answer post_sign) arrived) in
  _ ← fail_if (Z.of_nat (size partialSigs) <? threshold) "insufficient partial signatures: collected %d, needed %d";
  Ok partialSigs.

(** [post_sign app time op] is the answer of one operator. *)
Definition CollectPartialSignatures (post_sign : string -> Z -> OperatorSetPeer -> res SignResponse) (appID : string)
    (arrived operators : list OperatorSetPeer) (threshold : Z) : res (gmap Address G1Point) :=
  _ ← fail_if (bool_decide (appID = ""%string)) "app ID is required";
  _ ← fail_if (length operators =? 0)%nat "no operators provided";
  _ ← fail_if (threshold <=? 0) "threshold must be positive";
  collectPartialSignaturesForDecrypt (post_sign appID 0) arrived threshold.

(** The closure stores the plaintext of the last candidate that decrypts, which is the
    candidate the search returns. *)
Definition decryptWithRetry (appID : string) (partialSigs : gmap Address G1Point) (threshold : Z) (ciphertext : bytes) : res bytes :=
  _ ← wrap "invalid ciphertext" (ValidateCiphertextFormat ciphertext);
  candidate ← RecoverAppPrivateKeyWithRetry appID partialSigs threshold (fun candidate => is_ok (DecryptForApp appID candidate ciphertext));
  DecryptForApp appID candidate ciphertext.

Definition client_Encrypt (r : res Fr) (nonce : res bytes) (get_pubkey : OperatorSetPeer -> res PubkeyResponse) (order : mpk_votes -> list bytes)
    (appID : string) (data : bytes) (arrived operators : list OperatorSetPeer) : res bytes :=
  _ ← fail_if (bool_decide (appID = ""%string)) "app ID is required";
  _ ← fail_if (length data =? 0)%nat "data to encrypt is required";
  masterPubKey ← wrap "failed to get master public key" (GetMasterPublicKey get_pubkey order arrived operators);
  wrap "failed to encrypt data" (EncryptForApp r nonce appID masterPubKey data).

Definition client_Decrypt (post_sign : string -> Z -> OperatorSetPeer -> res SignResponse) (appID : string) (encryptedData : bytes)
    (arrived operators : list OperatorSetPeer) (threshold : Z) : res bytes :=
  _ ← fail_if (bool_decide (appID = ""%string)) "app ID is required";
  _ ← fail_if (length encryptedData =? 0)%nat "encrypted data is required";
  _ ← fail_if (length operators =? 0)%nat "no operators provided";
  let threshold := if threshold =? 0 then Z.quot (2 * Z.of_nat (length operators) + 2) 3 else threshold in
  partialSigs ← wrap "failed to collect partial signatures" (CollectPartialSignatures post_sign appID arrived operators threshold);
  wrap "failed to decrypt data" (decryptWithRetry appID partialSigs threshold encryptedData).

(** [operators] is the operator list the chain shows. *)
Definition GetOperators (operators : res (list OperatorSetPeer)) : res (list OperatorSetPeer) :=
  operators ← wrap "failed to get operators from chain" operators;
  _ ← fail_if (length operators =? 0)%nat "no operators found for AVS %s operator set %d";
  Ok operators.

Definition client_EncryptForApp (r : res Fr) (nonce : res bytes) (get_pubkey : OperatorSetPeer -> res PubkeyResponse) (order : mpk_votes -> list bytes)
    (operators : res (list OperatorSetPeer)) (arrived : list OperatorSetPeer) (appID : string) (plaintext : bytes) : res bytes :=
  operators ← wrap "failed to get operators" (GetOperators operators);
  masterPubKey ← wrap "failed to get master public key" (GetMasterPublicKey get_pubkey order arrived operators);
  EncryptForApp r nonce appID masterPubKey plaintext.

Definition client_DecryptForApp (post_sign : string -> Z -> OperatorSetPeer -> res SignResponse) (operators : res (list OperatorSetPeer))
    (arrived : list OperatorSetPeer) (appID : string) (ciphertext : bytes) (attestationTime : Z) : res bytes :=
  operators ← wrap "failed to get operators" (GetOperators operators);
  let threshold := CalculateThreshold (Z.of_nat (length operators)) in
  partialSigs ← wrap "failed to collect partial signatures" (collectPartialSignaturesForDecrypt (post_sign appID attestationTime) arrived threshold);
  decryptWithRetry appID partialSigs threshold ciphertext.

Definition GetPublicKeyForApp (get_pubkey : OperatorSetPeer -> res PubkeyResponse) (order : mpk_votes -> list bytes)
    (operators : res (list OperatorSetPeer)) (arrived : list OperatorSetPeer) (appID : string) : res (G1Point * G2Point) :=
  _ ← fail_if (bool_decide (appID = ""%string)) "app ID is required";
  operators ← wrap "failed to get operators" (GetOperators operators);
  masterPubKey ← wrap "failed to get master public key" (GetMasterPublicKey get_pubkey order arrived operators);
  appPubKey ← wrap "failed to compute app public key" (GetAppPublicKey appID);
  Ok (appPubKey, masterPubKey).
End Client.

(** ** Retrieving secrets *)

Record SecretsOptions `{EcdsaLib} := mkSecretsOptions {
  opt_AttestationMethod : string;
  opt_ImageDigest : string;
  opt_ECDSAPrivateKey : option ecdsa_PrivateKey;
  opt_TPMAttestationBytes : bytes;
  opt_RawSNPEvidence : bytes;
  opt_CCInitData : bytes;
  opt_RSAPrivateKeyPEM : bytes;
  opt_RSAPublicKeyPEM : bytes;
  opt_ExtraData : bytes;
  opt_StackID : string
}.
Arguments SecretsOptions {_}.

Record SecretsResult := mkSecretsResult {
  res_AppPrivateKey : G1Point;
  res_EncryptedEnv : string;
  res_PublicEnv : string;
  res_PartialSigs : gmap Address G1Point;
  res_ResponseCount : Z;
  res_ThresholdNeeded : Z;
  res_ExtraData : bytes;
  res_Verified : bool
}.

(** The clock, the chain, the random sources, the encoder and the operators as one client
    call sees them; the answers to the two rounds of requests arrive in two orders. *)
Record ClientEnv `{EcdsaLib} := mkClientEnv {
  ce_now : Z;
  ce_operators : res (list OperatorSetPeer);
  ce_GenerateKey : res ecdsa_PrivateKey;
  ce_nonce : res bytes;
  marshal_claims : AttestationClaims -> res bytes;
  json_G1Point : bytes -> res G1Point;
  post_secrets : OperatorSetPeer -> SecretsRequestV1 -> res SecretsResponseV1;
  secrets_arrived : list OperatorSetPeer;
  ce_get_pubkey : OperatorSetPeer -> res PubkeyResponse;
  ce_order : mpk_votes -> list bytes;
  pubkey_arrived : list OperatorSetPeer
}.
Arguments ClientEnv {_}.

Section Retrieve.
Context `{Gnark} `{SymLib} `{EthAddr} `{EcdsaLib} `{RsaLib}.

Definition unix_now (env : ClientEnv) : Z := ce_now env / Second - unixToInternal.

Definition createECDSAAttestationRequest (env : ClientEnv) (appID : string) (opts : SecretsOptions) (rsaPubKeyPEM : bytes) : res SecretsRequestV1 :=
  privateKey ← match opt_ECDSAPrivateKey opts return res ecdsa_PrivateKey with
               | Some k => Ok k
               | None => wrap "failed to generate ECDSA key" (ce_GenerateKey env)
               end;
  let publicKey := FromECDSAPub (Public privateKey) in
  nonce ← wrap "failed to generate nonce" (ce_nonce env);
  challenge ← wrap "failed to generate challenge" (GenerateChallenge (ce_now env) nonce);
  signature ← wrap "failed to sign challenge" (SignChallenge (Some privateKey) appID challenge);
  Ok (mkSecretsRequestV1 appID "" "ecdsa" signature rsaPubKeyPEM (unix_now env) (text_bytes challenge) publicKey [] []).

Definition createEigenXSNPAttestationRequest (env : ClientEnv) (appID : string) (opts : SecretsOptions) : SecretsRequestV1 :=
  mkSecretsRequestV1 appID (opt_StackID opts) "eigenx-snp" (opt_RawSNPEvidence opts) (opt_RSAPublicKeyPEM opts) (unix_now env) [] []
    (opt_ExtraData opts) (opt_CCInitData opts).

(** The method an empty choice stands for. *)
Definition chosen_method (opts : SecretsOptions) : string :=
  if bool_decide (opt_AttestationMethod opts = ""%string) then "gcp" else opt_AttestationMethod opts.

Definition with_extra (extra : bytes) (req : SecretsRequestV1) : SecretsRequestV1 :=
  mkSecretsRequestV1 (sreq_AppID req) (sreq_StackID req) (sreq_AttestationMethod req) (sreq_Attestation req) (sreq_RSAPubKeyTmp req)
    (sreq_AttestationTime req) (sreq_Challenge req) (sreq_PublicKey req) extra (sreq_CCInitData req).

Definition build_request (env : ClientEnv) (appID : string) (opts : SecretsOptions) : res SecretsRequestV1 :=
  let method := chosen_method opts in
  if bool_decide (method = "ecdsa"%string) then
    req ← wrap "failed to create ECDSA attestation" (createECDSAAttestationRequest env appID opts (opt_RSAPublicKeyPEM opts));
    Ok (with_extra (opt_ExtraData opts) req)
  else if bool_decide (method = "gcp"%string) || bool_decide (method = "intel"%string) then
    attestationBytes ← wrap "failed to create attestation"
      (marshal_claims env (mkAttestationClaims appID (opt_ImageDigest opts) "" "" (unix_now env) 0 (opt_RSAPublicKeyPEM opts)
                             (mkContainerPolicy [] [] ∅ ∅ "") [] ""));
    Ok (mkSecretsRequestV1 appID "" method attestationBytes (opt_RSAPublicKeyPEM opts) (unix_now env) [] [] (opt_ExtraData opts) [])
  else if bool_decide (method = "tpm"%string) then
    _ ← fail_if (length (opt_TPMAttestationBytes opts) =? 0)%nat "TPM attestation bytes are required for tpm method";
    Ok (mkSecretsRequestV1 appID "" "tpm" (opt_TPMAttestationBytes opts) (opt_RSAPublicKeyPEM opts) (unix_now env) [] [] (opt_ExtraData opts) [])
  else if bool_decide (method = "eigenx-snp"%string) then Ok (createEigenXSNPAttestationRequest env appID opts)
  else Err "unsupported attestation method: %s".

Definition check_options (opts : SecretsOptions) : res unit :=
  _ ← fail_if ((length (opt_RSAPrivateKeyPEM opts) =? 0)%nat || (length (opt_RSAPublicKeyPEM opts) =? 0)%nat) "RSA key pair is required in options";
  _ ← fail_if (Z.of_nat (length (opt_ExtraData opts)) >? MaxExtraDataSize) "extra_data exceeds 1MB limit (%d bytes)";
  if bool_decide (chosen_method opts = "eigenx-snp"%string) then
    _ ← fail_if (length (opt_RawSNPEvidence opts) =? 0)%nat "RawSNPEvidence is required for eigenx-snp attestation method";
    _ ← fail_if (length (opt_CCInitData opts) =? 0)%nat "CCInitData is required for eigenx-snp attestation method";
    fail_if (Z.of_nat (length (opt_CCInitData opts)) >? MaxExtraDataSize) "CCInitData exceeds 1MB limit (%d bytes)"
  else Ok tt.

(** What one operator contributes: its response and the partial signature inside. *)
Definition secrets_answer (env : ClientEnv) (req : SecretsRequestV1) (rsaPrivateKeyPEM : bytes) (op : OperatorSetPeer)
    : option (Address * SecretsResponseV1 * G1Point) :=
  match (resp ← post_secrets env op req;
         decryptedSigBytes ← Decrypt (sresp_EncryptedPartialSig resp) rsaPrivateKeyPEM;
         partialSig ← json_G1Point env decryptedSigBytes;
         Ok (OperatorAddress op, resp, partialSig)) with
  | Ok r => Some r
  | Err _ => None
  end.

Definition GetEncryptedSecretsFromKMSNodesWithPartialSigs (env : ClientEnv) (req : SecretsRequestV1) (rsaPrivateKeyPEM : bytes)
    : res (list SecretsResponseV1 * gmap Address G1Point) :=
  let results := omap (secrets_answer env req rsaPrivateKeyPEM) (secrets_arrived env) in
  _ ← fail_if (length results =? 0)%nat "failed to collect any valid responses from operators";
  Ok ((fun '(_, resp, _) => resp) <$> results, collect ((fun '(a, _, s) => (a, s)) <$> results)).

(** The key, and whether it was checked against the master key. *)
Definition recover_key (env : ClientEnv) (appID : string) (operators : list OperatorSetPeer) (partialSigs : gmap Address G1Point) (threshold : Z)
    : res (G1Point * bool) :=
  match GetMasterPublicKey (ce_get_pubkey env) (ce_order env) (pubkey_arrived env) operators with
  | Ok masterPubKey =>
      k ← wrap "failed to recover app private key" (RecoverAppPrivateKeyWithRetry appID partialSigs threshold (validates appID masterPubKey));
      Ok (k, true)
  | Err _ => k ← wrap "failed to recover app private key" (RecoverAppPrivateKey appID partialSigs threshold); Ok (k, false)
  end.

Definition RetrieveSecretsWithOptions (env : ClientEnv) (appID : string) (opts : option SecretsOptions) : res SecretsResult :=
  opts ← from_opt "options are required" opts;
  _ ← check_options opts;
  operators ← wrap "failed to get operators" (GetOperators (ce_operators env));
  let threshold := CalculateThreshold (Z.of_nat (length operators)) in
  req ← build_request env appID opts;
  '(responses, partialSigs) ← wrap "failed to collect secrets" (GetEncryptedSecretsFromKMSNodesWithPartialSigs env req (opt_RSAPrivateKeyPEM opts));
  _ ← fail_if (Z.of_nat (length responses) <? threshold) "insufficient responses: got %d, need %d";
  first ← from_opt "panic: index out of range" (head responses);
  _ ← (if bool_decide (opt_StackID opts = ""%string) then
         fail_if (negb (forallb (fun resp => bool_decide (sresp_EncryptedEnv resp = sresp_EncryptedEnv first)) responses))
           "environment data mismatch from server %d"
       else Ok tt);
  '(appPrivateKey, verified) ← recover_key env appID operators partialSigs threshold;
  Ok (mkSecretsResult appPrivateKey (sresp_EncryptedEnv first) (sresp_PublicEnv first) partialSigs (Z.of_nat (length responses)) threshold
        (opt_ExtraData opts) verified).
End Retrieve.

(** ** Decryption with the help of the operators *)

Lemma collect_other l m a : a ∉ l.*1 -> foldl (fun (m : gmap Address G1Point) '(a, s) => <[a := s]> m) m l !! a = m !! a.
Proof.
  revert m. induction l as [|[b s] l IH]; intros m; [done|]. cbn [foldl fmap list_fmap fst]. rewrite not_elem_of_cons. intros [Hne Hin].
  rewrite IH by done. by rewrite lookup_insert_ne.
Qed.

Lemma collect_lookup l m a s : NoDup l.*1 -> (a, s) ∈ l -> foldl (fun (m : gmap Address G1Point) '(a, s) => <[a := s]> m) m l !! a = Some s.
Proof.
  revert m. induction l as [|[b x] l IH]; intros m Hnd Hin; [by apply not_elem_of_nil in Hin|]. cbn [fmap list_fmap fst] in Hnd.
  apply NoDup_cons in Hnd as [Hb Hnd]. cbn [foldl]. apply elem_of_cons in Hin as [[= -> ->]|Hin]; [|by apply IH].
  rewrite collect_other by done. apply lookup_insert_eq.
Qed.

Lemma collect_size l m : (size (foldl (fun (m : gmap Address G1Point) '(a, s) => <[a := s]> m) m l) <= size m + length l)%nat.
Proof.
  revert m. induction l as [|[b x] l IH]; intros m; cbn [foldl length]; [lia|]. specialize (IH (<[b := x]> m)).
  rewrite map_size_insert in IH. destruct (m !! b); cbn in IH; lia.
Qed.

Lemma collect_from l a s : collect l !! a = Some s -> (a, s) ∈ l.
Proof.
  unfold collect. induction l as [|[b x] l IH] using rev_ind; [cbn [foldl]; by intros ?%lookup_empty_Some|]. rewrite foldl_app. cbn [foldl].
  rewrite elem_of_app, list_elem_of_singleton. intros [[-> ->]|[_ Ha]]%lookup_insert_Some; [by right|left; by apply IH].
Qed.

(** Distinct images of a part of a list with distinct images. *)
Lemma NoDup_fmap_part {A B} (f : A -> B) l l' : NoDup (f <$> l) -> NoDup l' -> l' ⊆ l -> NoDup (f <$> l').
Proof.
  intros Hf Hl Hsub. apply NoDup_fmap_2_strong; [|done]. intros x y Hx%Hsub Hy%Hsub Hxy.
  apply list_elem_of_lookup in Hx as [i Hi], Hy as [j Hj]. assert (i = j) as ->; [|by rewrite Hi in Hj; injection Hj].
  apply (NoDup_lookup (f <$> l) i j (f x)); [done|by rewrite list_lookup_fmap, Hi|by rewrite list_lookup_fmap, Hj, Hxy].
Qed.

Lemma length_omap {A B} (f : A -> option B) l : (length (omap f l) <= length l)%nat.
Proof. induction l as [|a l IH]; [done|]. cbn. destruct (f a); cbn; lia. Qed.

Lemma choose_mono n m k : (n <= m)%nat -> (choose n k <= choose m k)%nat.
Proof.
  intros Hnm. induction Hnm as [|m Hnm IH]; [done|]. destruct k as [|k]; [destruct n, m; cbn; lia|].
  etrans; [exact IH|]. destruct m; cbn [choose]; lia.
Qed.

Lemma size_foldl_insert {V} (f : Address -> V) l : (size (foldl (fun m a => <[a := f a]> m) (∅ : gmap Address V) l) <= length l)%nat.
Proof.
  induction l as [|a l IH] using rev_ind; [cbn; by rewrite map_size_empty|]. rewrite foldl_app, length_app. cbn [foldl length].
  rewrite map_size_insert. destruct (_ !! a); cbn; lia.
Qed.

Lemma subseteq_take {A} (x : A) n l : x ∈ take n l -> x ∈ l.
Proof. intros Hx. eapply elem_of_sublist; [exact Hx|apply sublist_take]. Qed.

(** [n] as a scalar. *)
Definition scalar {F} `{FrOps F} (n : nat) : F := Nat.iter n (fr_add fr_one) fr_zero.

(** It is zero for multiples of the modulus only. *)
Lemma scalar_zp p n : 0 < p -> zp_val (scalar n : Zp p) = Z.of_nat n mod p.
Proof.
  intros Hp. induction n as [|n IH]; [done|].
  transitivity ((zp_val (fr_one : Zp p) + zp_val (scalar n : Zp p)) mod p); [done|]. rewrite IH.
  change (zp_val (fr_one : Zp p)) with (1 mod p). rewrite <- Zplus_mod. f_equal. lia.
Qed.

Section ClientFacts.
Context `{GnarkLaws} `{SymLaws} `{EthAddr}.
Local Open Scope fr_scope.

Add Field fr_field_client : (@fr_field Fr _ _).

(** With enough attempts the search ends at a key the caller accepts. *)
Lemma retry_finds id Q p (sigs : gmap Address G1Point) (t : nat) validate honest :
  g1_in_subgroup Q = true -> (length p <= t)%nat -> length honest = t ->
  (forall a, a ∈ honest -> sigs !! a = Some (psig Q (peval p (AddressToFr a)))) -> NoDup (xcoords honest) ->
  act1 Q (peval p 0) <> g1_infinity -> validate (psig Q (peval p 0)) = true -> (Z.of_nat (choose (size sigs) t) <= DefaultMaxRecoveryAttempts)%Z ->
  (t <= size sigs)%nat /\ exists k, RecoverAppPrivateKeyWithRetry id sigs (Z.of_nat t) validate = Ok k /\ validate k = true.
Proof.
  intros HQ Hp Hlen Hs Hnd Hne Hv Hmax.
  destruct (honest_combination id Q p sigs t validate honest) as (c & Hc & Htry); try done.
  assert (Ht : (t <= size sigs)%nat) by (by eapply combs_bound). split; [done|].
  destruct (head (omap (fun c => trySubset id sigs (Z.of_nat t) validate (pick sigs c)) (combs (size sigs) 0 t))) as [k|] eqn:Hh.
  - exists k. assert (Hk : k ∈ omap (fun c => trySubset id sigs (Z.of_nat t) validate (pick sigs c)) (combs (size sigs) 0 t)) by by apply head_Some_elem_of.
    apply list_elem_of_omap in Hk as (c' & _ & [Hk _]%trySubset_sound). split; [|done].
    apply retry_first_valid; [done|]. rewrite take_ge; [done|]. rewrite length_combs. lia.
  - apply head_None in Hh. exfalso. eapply not_elem_of_nil. rewrite <- Hh. apply list_elem_of_omap. eauto.
Qed.

(** What the search returns was recovered from [t] of the signatures. *)
Lemma retry_from_subset id (sigs : gmap Address G1Point) (t : nat) validate k : (t <= size sigs)%nat ->
  RecoverAppPrivateKeyWithRetry id sigs (Z.of_nat t) validate = Ok k ->
  exists subset, subset ⊆ sigs /\ size subset = t /\ RecoverAppPrivateKey id subset (Z.of_nat t) = Ok k.
Proof.
  intros Ht (c & Hc & Htry)%retry_first_valid%head_Some_elem_of%list_elem_of_omap; [|done]. apply subseteq_take, combs_length in Hc.
  unfold trySubset in Htry. set (m := foldl _ _ _) in Htry. destruct (RecoverAppPrivateKey id m _) as [k'|] eqn:Hr; [|done].
  destruct (validate k'); [|done]. injection Htry as ->. exists m.
  assert (Hsub : m ⊆ sigs).
  { apply map_subseteq_spec. intros a s. unfold m. rewrite lookup_foldl_insert, lookup_empty. case_decide as Ha; [|done].
    apply list_elem_of_omap in Ha as (i & _ & Ha%list_elem_of_lookup_2). rewrite sort_addrs_perm in Ha. apply elem_of_keys in Ha as [x Hx].
    by rewrite Hx. }
  split_and!; [done| |done]. apply Nat.le_antisymm.
  - unfold m. rewrite <- Hc. etrans; [apply (size_foldl_insert (fun a => default (mkG1Point []) (sigs !! a)))|apply length_omap].
  - unfold RecoverAppPrivateKey in Hr. destruct (Z.ltb_spec (Z.of_nat (size m)) (Z.of_nat t)); [done|lia].
Qed.

(** The operator signs honestly with its share of [p]. *)
Definition signs (post_sign : OperatorSetPeer -> res SignResponse) (Q : G1) (p : list Fr) (op : OperatorSetPeer) : Prop :=
  peval p (AddressToFr (OperatorAddress op)) <> 0 /\
  exists text, post_sign op = Ok (mkSignResponse text (psig Q (peval p (AddressToFr (OperatorAddress op))))) /\ EqualFold text (Hex (OperatorAddress op)) = true.

Lemma signs_answer post_sign Q p op : g1_in_subgroup Q = true -> Q <> g1_infinity -> signs post_sign Q p op ->
  sign_answer post_sign op = Some (OperatorAddress op, psig Q (peval p (AddressToFr (OperatorAddress op)))).
Proof.
  intros HQ Hne (Hz & text & Hp & Hf). unfold sign_answer. rewrite Hp. cbn [sgr_PartialSignature sgr_OperatorAddress].
  rewrite G1_IsZero_sig, bool_decide_false by done. by rewrite Hf.
Qed.

Lemma collected post_sign Q p arrived op : g1_in_subgroup Q = true -> Q <> g1_infinity ->
  NoDup (OperatorAddress <$> arrived) -> op ∈ arrived -> signs post_sign Q p op ->
  collect (omap (sign_answer post_sign) arrived) !! OperatorAddress op = Some (psig Q (peval p (AddressToFr (OperatorAddress op)))).
Proof.
  intros HQ Hne Hnd Hin Hs. apply collect_lookup.
  - assert (Hsub : forall l, (omap (sign_answer post_sign) l).*1 `sublist_of` (OperatorAddress <$> l)).
    { induction l as [|o l IH]; [done|]. cbn [omap list_omap fmap list_fmap]. unfold sign_answer at 1.
      repeat case_match; simplify_eq; first [by apply sublist_skip | by apply sublist_cons]. }
    by eapply sublist_NoDup.
  - apply list_elem_of_omap. exists op. split; [done|]. by apply signs_answer.
Qed.

(** [t] of the collected signatures recover a key that is not the application's, and this key
    opens the ciphertext to [m]: for AES-GCM, a forgery. *)
Definition wrong_key_opens id (Q : G1) (p : list Fr) (t : nat) (sigs : gmap Address G1Point) (ct m : bytes) : Prop :=
  exists subset k, subset ⊆ sigs /\ size subset = t /\ RecoverAppPrivateKey id subset (Z.of_nat t) = Ok k /\
    k <> psig Q (peval p 0) /\ DecryptForApp id k ct = Ok m.

(** Honest signatures recover no wrong key. *)
Lemma honest_no_wrong_key id Q p t sigs ct m : g1_in_subgroup Q = true -> act1 Q (peval p 0) <> g1_infinity -> (length p <= t)%nat ->
  (forall a s, sigs !! a = Some s -> s = psig Q (peval p (AddressToFr a))) -> NoDup (xcoords (map_to_list sigs).*1) ->
  ~ wrong_key_opens id Q p t sigs ct m.
Proof.
  intros HQ Hne Hp Hs Hnd (subset & k & Hsub & Hsz & Hr & Hk & _). apply Hk.
  rewrite (recover_honest id Q p subset t) in Hr; [by injection Hr|done|lia| | |done].
  - intros a s Ha. apply Hs. by eapply lookup_weaken.
  - unfold xcoords in *. eapply NoDup_fmap_part; [exact Hnd|apply NoDup_fst_map_to_list|].
    intros a [s Ha]%elem_of_keys. apply elem_of_keys. exists s. by eapply lookup_weaken.
Qed.

(** Signatures of [t] honest operators among the ones collected are enough to decrypt. *)
Lemma decrypts_collected id (Q : G1) (p : list Fr) (t : nat) (mpk : G2Point) (r : Fr) (nonce data ct : bytes) (sigs : gmap Address G1Point) (honest : list Address) :
  hash_to_g1 (string_bytes id) = Some Q -> Q <> g1_infinity -> opens mpk (peval p 0) -> length nonce = nonceSize ->
  EncryptForApp (Ok r) (Ok nonce) id mpk data = Ok ct ->
  NoDup (xcoords honest) -> (forall a, a ∈ honest -> sigs !! a = Some (psig Q (peval p (AddressToFr a)))) ->
  (length p <= t)%nat -> length honest = t -> (Z.of_nat (choose (size sigs) t) <= DefaultMaxRecoveryAttempts)%Z ->
  (t <= size sigs)%nat /\ exists m, decryptWithRetry id sigs (Z.of_nat t) ct = Ok m /\ (m = data \/ wrong_key_opens id Q p t sigs ct m).
Proof.
  intros Hid HQne Hmpk Hn He Hndx Hsig Hp Hlen Hmax. assert (HQ : g1_in_subgroup Q = true) by by eapply g1_ok_hash.
  pose proof (encrypt_decrypt _ _ _ _ _ _ _ _ Hid HQne Hmpk Hn He) as Hdec.
  destruct (encrypt_ok _ _ _ _ _ _ _ _ Hid Hmpk He) as (Hval & Hs0 & _).
  destruct (retry_finds id Q p sigs t (fun k => is_ok (DecryptForApp id k ct)) honest) as (Hsz & k & Hk & Hkv); try done.
  { by rewrite act1_eq_infinity. }
  { by rewrite Hdec. }
  split; [done|]. destruct (DecryptForApp id k ct) as [m|e] eqn:Hm; [|done]. exists m.
  assert (Hfmt : ValidateCiphertextFormat ct = Ok tt).
  { revert Hdec. unfold DecryptForApp. rewrite Hval. cbn [mbind res_bind]. by destruct (ValidateCiphertextFormat ct) as [[]|]. }
  unfold decryptWithRetry. rewrite Hfmt. cbn [wrap mbind res_bind]. rewrite Hk. cbn [mbind res_bind]. split; [done|].
  destruct (decide (m = data)) as [|Hne]; [by left|right].
  destruct (retry_from_subset id sigs t _ k Hsz Hk) as (subset & Hsub & Hss & Hr). exists subset, k. split_and!; try done. congruence.
Qed.

(** A ciphertext is not empty and neither is its application. *)
Lemma encrypted_nonempty r nonce id Q mpk s pt ct : hash_to_g1 (string_bytes id) = Some Q -> opens mpk s ->
  EncryptForApp (Ok r) (Ok nonce) id mpk pt = Ok ct -> id <> ""%string /\ length ct <> 0%nat.
Proof.
  intros Hid Hs He. destruct (encrypt_ok _ _ _ _ _ _ _ _ Hid Hs He) as (Hval & _ & _ & _ & _ & key & _ & _ & ->).
  split; [by intros ->|by destruct (g2_compressed _)].
Qed.

(** C25: A threshold of honest operators is enough to decrypt, whatever the others answer:
    if the data was encrypted under the master key [p(0) * G2], [t] of the operators that
    answer sign with their shares of [p] under their own addresses, and the subsets of that
    size are within the retry limit, then the client's [Decrypt] succeeds, in whatever order
    the answers arrive, and what it returns is the data, unless [t] of the answers recover
    a key that is not the application's and that opens the ciphertext all the same, which
    the client cannot tell and which AES-GCM is there to prevent.  If every operator whose
    signature is taken is honest, it returns the data. *)
Theorem client_decrypts id (Q : G1) (p : list Fr) (t : nat) (mpk : G2Point) (r : Fr) (nonce data ct : bytes)
    (post_sign : string -> Z -> OperatorSetPeer -> res SignResponse) (arrived operators honest : list OperatorSetPeer) :
  hash_to_g1 (string_bytes id) = Some Q -> Q <> g1_infinity -> opens mpk (peval p 0) -> length nonce = nonceSize ->
  EncryptForApp (Ok r) (Ok nonce) id mpk data = Ok ct ->
  arrived ⊆ operators -> NoDup (OperatorAddress <$> arrived) -> honest ⊆ arrived -> NoDup (xcoords (OperatorAddress <$> honest)) ->
  (forall op, op ∈ honest -> signs (post_sign id 0%Z) Q p op) ->
  (0 < t)%nat -> (length p <= t)%nat -> length honest = t -> (Z.of_nat (choose (length arrived) t) <= DefaultMaxRecoveryAttempts)%Z ->
  (exists m, client_Decrypt post_sign id ct arrived operators (Z.of_nat t) = Ok m /\
     (m = data \/ wrong_key_opens id Q p t (collect (omap (sign_answer (post_sign id 0%Z)) arrived)) ct m)) /\
  ((forall op, op ∈ arrived -> sign_answer (post_sign id 0%Z) op = None \/ signs (post_sign id 0%Z) Q p op) ->
   NoDup (xcoords (OperatorAddress <$> arrived)) -> client_Decrypt post_sign id ct arrived operators (Z.of_nat t) = Ok data).
Proof.
  intros Hid HQne Hmpk Hn He Harr Hnd Hhon Hndx Hsig Ht Hp Hlen Hmax.
  assert (HQ : g1_in_subgroup Q = true) by by eapply g1_ok_hash.
  destruct (encrypted_nonempty _ _ _ _ _ _ _ _ Hid Hmpk He) as [Hidne Hlct].
  set (sigs := collect (omap (sign_answer (post_sign id 0%Z)) arrived)).
  destruct (decrypts_collected id Q p t mpk r nonce data ct sigs (OperatorAddress <$> honest)) as (Hsz & m & Hdec & Hm); try done.
  { intros a (op & -> & Hop)%list_elem_of_fmap. unfold sigs. rewrite (collected _ Q p); auto. }
  { by rewrite length_fmap. }
  { etrans; [|exact Hmax]. apply Nat2Z.inj_le, choose_mono. unfold sigs. etrans; [apply collect_size|]. rewrite map_size_empty. apply length_omap. }
  assert (Hc : client_Decrypt post_sign id ct arrived operators (Z.of_nat t) = Ok m).
  { assert (Hne : operators <> []).
    { destruct honest as [|o honest]; [cbn in Hlen; lia|]. intros ->. eapply not_elem_of_nil, Harr, Hhon. by left. }
    unfold client_Decrypt, CollectPartialSignatures, collectPartialSignaturesForDecrypt. fold sigs.
    assert (Hlop : length operators <> 0%nat) by (by destruct operators).
    rewrite !fail_if_bind, bool_decide_eq_false, !Nat.eqb_neq. split_and!; try done. cbv zeta. rewrite (proj2 (Z.eqb_neq (Z.of_nat t) 0)) by lia.
    apply res_bind_ok. exists sigs. rewrite !wrap_ok, !fail_if_bind, bool_decide_eq_false, Nat.eqb_neq, Z.leb_gt, Z.ltb_ge.
    split; [split_and!; (done || lia)|]. done. }
  split; [by exists m|]. intros Hall Hndall. rewrite Hc. f_equal. destruct Hm as [|Hwrong]; [done|]. exfalso. revert Hwrong.
  destruct (encrypt_ok _ _ _ _ _ _ _ _ Hid Hmpk He) as (_ & Hs0 & _).
  assert (Hfrom : forall a s, sigs !! a = Some s -> a ∈ OperatorAddress <$> arrived /\ s = psig Q (peval p (AddressToFr a))).
  { intros a s (op & Hop & Ha)%collect_from%list_elem_of_omap. destruct (Hall op Hop) as [Hno|Hs]; [by rewrite Hno in Ha|].
    rewrite (signs_answer _ Q p) in Ha by done. injection Ha as <- <-. split; [by apply list_elem_of_fmap_2|done]. }
  apply honest_no_wrong_key; [done|by rewrite act1_eq_infinity|done|by intros a s [_ Ha]%Hfrom|].
  eapply NoDup_fmap_part; [exact Hndall|apply NoDup_fst_map_to_list|]. by intros a [s [Ha _]%Hfrom]%elem_of_keys.
Qed.

(** ** Agreement on the master key *)

(** A key that counts as a vote. *)
Definition valid_mpk (mpk : option G2Point) : option G2Point :=
  m ← mpk; if (length (g2_compressed m) =? 0)%nat then None else if is_ok (G2PointFromCompressedBytes (g2_compressed m)) then Some m else None.

Definition total_votes (votes : mpk_votes) : Z := foldr Z.add 0%Z ((map_to_list votes).*2.*2).

Lemma total_insert (votes : mpk_votes) key m c : votes !! key = None -> total_votes (<[key := (m, c)]> votes) = (c + total_votes votes)%Z.
Proof.
  intros Hn. unfold total_votes. rewrite <- !list_fmap_compose.
  assert (Hperm : forall l l' : list (bytes * (G2Point * Z)), l ≡ₚ l' -> foldr Z.add 0%Z (snd ∘ snd <$> l) = foldr Z.add 0%Z (snd ∘ snd <$> l')).
  { intros l l' Hl. induction Hl; cbn; lia. }
  rewrite (Hperm _ _ (map_to_list_insert votes key (m, c) Hn)). done.
Qed.

Lemma total_add (votes : mpk_votes) key m : total_votes (<[key := (m, from_option snd 0%Z (votes !! key) + 1)]> votes)%Z = (total_votes votes + 1)%Z.
Proof.
  destruct (votes !! key) as [[m0 c0]|] eqn:Hk; cbn [from_option snd].
  - rewrite <- (insert_delete_id votes key (m0, c0)) at 2 by done. rewrite <- (insert_delete_eq votes).
    rewrite !total_insert by apply lookup_delete_eq. lia.
  - rewrite total_insert by done. lia.
Qed.

Lemma add_vote_valid votes mpk : add_vote votes mpk =
  match valid_mpk mpk with Some m => <[g2_compressed m := (m, from_option snd 0%Z (votes !! g2_compressed m) + 1)%Z]> votes | None => votes end.
Proof. unfold add_vote, valid_mpk. destruct mpk as [m|]; [|done]. cbn. destruct (_ =? _)%nat; [done|]. by destruct (G2PointFromCompressedBytes _). Qed.

Definition count_key (key : bytes) (l : list (option G2Point)) : Z :=
  Z.of_nat (length (filter (fun m => g2_compressed m = key) (omap valid_mpk l))).

Lemma votes_counted l votes : let v := foldl add_vote votes l in
  total_votes v = (total_votes votes + Z.of_nat (length (omap valid_mpk l)))%Z /\
  forall key, from_option snd 0%Z (v !! key) = (from_option snd 0%Z (votes !! key) + count_key key l)%Z /\
    ((forall m c, votes !! key = Some (m, c) -> g2_compressed m = key) -> forall m c, v !! key = Some (m, c) -> g2_compressed m = key).
Proof.
  revert votes. induction l as [|o l IH]; intros votes v.
  - subst v. cbn. split; [lia|]. intros key. unfold count_key. cbn. split; [lia|done].
  - subst v. cbn [foldl]. rewrite add_vote_valid. unfold count_key in *. cbn [omap list_omap].
    destruct (valid_mpk o) as [m|] eqn:Hm; [|apply IH].
    destruct (IH (<[g2_compressed m := (m, from_option snd 0%Z (votes !! g2_compressed m) + 1)%Z]> votes)) as [Ht Hk].
    rewrite Ht, total_add. split; [cbn [length]; lia|].
    intros key. destruct (Hk key) as [Hc Hkey]. rewrite Hc, filter_cons. split.
    + case_decide as Hd; [rewrite Hd, lookup_insert_eq; cbn [from_option snd length]; lia|rewrite lookup_insert_ne by done; lia].
    + intros Hold. apply Hkey. intros m' c'. rewrite lookup_insert_Some. intros [[<- [= <- _]]|[_ Hv]]; [done|by eapply Hold].
Qed.

Lemma vote_lookup l key m c : foldl add_vote ∅ l !! key = Some (m, c) -> g2_compressed m = key /\ c = count_key key l.
Proof.
  intros Hl. destruct (votes_counted l ∅) as [_ Hk]. destruct (Hk key) as [Hc Hm]. rewrite Hl, lookup_empty in Hc. cbn in Hc.
  split; [by eapply Hm|lia].
Qed.

Lemma count_others l m M : m <> M -> (count_key (g2_compressed m) l <= Z.of_nat (length (filter (fun m => m <> M) (omap valid_mpk l))))%Z.
Proof.
  intros Hne. unfold count_key. apply Nat2Z.inj_le. induction (omap valid_mpk l) as [|x keys IH]; [done|].
  rewrite !filter_cons. repeat case_decide; cbn [length]; try lia. destruct x as [bx], m as [bm]. cbn in *. subst. naive_solver.
Qed.

Lemma count_same l M : (Z.of_nat (length (filter (fun m => m = M) (omap valid_mpk l))) <= count_key (g2_compressed M) l)%Z.
Proof.
  unfold count_key. apply Nat2Z.inj_le. induction (omap valid_mpk l) as [|x keys IH]; [done|].
  rewrite !filter_cons. repeat case_decide; cbn [length]; try lia. by subst.
Qed.

(** The master key the client uses is the one a threshold of operators reports: if
    fewer than a threshold report another key and at least a threshold report some key, the
    client gets [M] or an error, and if a threshold reports [M] it gets [M], in whatever
    order the answers arrive and the votes are read. *)
Theorem master_key_agreement (get_pubkey : OperatorSetPeer -> res PubkeyResponse) (order : mpk_votes -> list bytes)
    (arrived operators : list OperatorSetPeer) (M : G2Point) :
  let keys := omap valid_mpk (pkr_MasterPublicKey <$> omap (pubkey_answer get_pubkey) arrived) in
  let t := CalculateThreshold (Z.of_nat (length operators)) in
  operators <> [] -> (forall v, order v ≡ₚ (map_to_list v).*1) ->
  (t <= Z.of_nat (length keys))%Z -> (Z.of_nat (length (filter (fun m => m <> M) keys)) < t)%Z ->
  (forall mpk, GetMasterPublicKey get_pubkey order arrived operators = Ok mpk -> mpk = M) /\
  ((t <= Z.of_nat (length (filter (fun m => m = M) keys)))%Z -> GetMasterPublicKey get_pubkey order arrived operators = Ok M).
Proof.
  intros keys t Hops Horder Hresp Hbad. unfold GetMasterPublicKey. fold t.
  set (results := omap (pubkey_answer get_pubkey) arrived) in *. set (l := pkr_MasterPublicKey <$> results) in *.
  destruct (votes_counted l ∅) as [Htot Hvotes]. pose proof (vote_lookup l) as Hlook. set (v := foldl add_vote ∅ l) in *.
  fold (total_votes v). fold keys in Htot. unfold total_votes at 2 in Htot. rewrite map_to_list_empty in Htot. cbn [fmap list_fmap foldr] in Htot.
  assert (Hwho : forall key m c, v !! key = Some (m, c) -> (t <= c)%Z -> m = M).
  { intros key m c [<- ->]%Hlook Hc. destruct (decide (m = M)) as [|Hne]; [done|]. pose proof (count_others l m M Hne) as Ho. fold keys in Ho. lia. }
  assert (Hok1 : (length operators =? 0)%nat = false) by (by destruct operators).
  assert (Hok2 : (length results =? 0)%nat = false).
  { apply Nat.eqb_neq. intros Hz%length_zero_iff_nil. assert (Hk : keys = []) by (unfold keys, l; by rewrite Hz).
    rewrite Hk in Hresp. change (t <= 0)%Z in Hresp. lia. }
  assert (Hv : (0 <? size v)%nat = true).
  { apply Nat.ltb_lt. destruct (size v) eqn:Hz; [|lia]. apply map_size_empty_inv in Hz. rewrite Hz in Htot. unfold total_votes in Htot.
    rewrite map_to_list_empty in Htot. cbn in Htot. lia. }
  rewrite Hok1, Hok2, Hv, Z.geb_leb, (proj2 (Z.leb_le t (total_votes v))) by lia. cbn [andb fail_if mbind res_bind]. split.
  - intros mpk. destruct (find _ (order v)) as [key|] eqn:Hf; [|done]. apply find_some in Hf as [_ Hc].
    destruct (v !! key) as [[m c]|] eqn:Hl; [|done]. cbn [fmap option_fmap option_map fst from_opt from_option snd] in *. intros [= <-].
    eapply Hwho; [exact Hl|lia].
  - intros Hm. pose proof (count_same l M) as Hsame. fold keys in Hsame. destruct (Hvotes (g2_compressed M)) as [Hcount _].
    rewrite lookup_empty in Hcount. destruct (find _ (order v)) as [key|] eqn:Hf.
    + apply find_some in Hf as [_ Hc']. destruct (v !! key) as [[m' c']|] eqn:Hl'; cbn [from_option snd] in Hc'; [|lia].
      cbn [fmap option_fmap option_map fst from_opt]. f_equal. eapply Hwho; [exact Hl'|lia].
    + exfalso. destruct (v !! g2_compressed M) as [[m c]|] eqn:Hl; cbn [from_option snd] in Hcount; [|lia].
      eapply find_none in Hf; [rewrite Hl in Hf; cbn [from_option snd] in Hf; lia|].
      apply list_elem_of_In. rewrite Horder. apply list_elem_of_fmap. exists (g2_compressed M, (m, c)). split; [done|by apply elem_of_map_to_list].
Qed.




Lemma retry_validated id (sigs : gmap Address G1Point) (threshold : Z) validate k : (0 <= threshold)%Z ->
  RecoverAppPrivateKeyWithRetry id sigs threshold validate = Ok k -> validate k = true.
Proof.
  intros Ht Hk. rewrite <- (Z2Nat.id threshold) in Hk by done. unfold RecoverAppPrivateKeyWithRetry in Hk.
  destruct (decide (Z.to_nat threshold <= size sigs)%nat) as [Hsz|Hsz].
  - apply retry_first_valid, head_Some_elem_of, list_elem_of_omap in Hk as (c & _ & [Hv _]%trySubset_sound); done.
  - unfold recoverAppPrivateKeyWithRetry in Hk. rewrite (proj2 (Z.ltb_lt _ _)) in Hk by lia. done.
Qed.
End ClientFacts.

Section RetrieveFacts.
Context `{GnarkLaws} `{SymLib} `{EthAddr} `{EcdsaLib} `{RsaLib}.

Lemma request_stack env appID opts req : build_request env appID opts = Ok req -> chosen_method opts <> "eigenx-snp"%string -> sreq_StackID req = ""%string.
Proof.
  unfold build_request, createECDSAAttestationRequest. intros Hr Hm. repeat case_bool_decide; cbn [orb] in Hr; try done; res_ok; by subst.
Qed.

(** C27: What [RetrieveSecretsWithOptions] returns was checked as far as it says: at least
    a threshold of operators answered with a partial signature encrypted to the caller; the
    encrypted environment is the one of every answer, unless a stack was named; a result
    marked verified holds the application's key under the master key obtained from the
    operators, an unmarked one means that no master key could be obtained.  The plain
    environment is whatever the first answer carried, and a stack is passed on only by the
    [eigenx-snp] method. *)
Theorem retrieved_secrets_checked env appID opts r : RetrieveSecretsWithOptions env appID (Some opts) = Ok r ->
  exists operators req answers first, ce_operators env = Ok operators /\ build_request env appID opts = Ok req /\
    answers = omap (secrets_answer env req (opt_RSAPrivateKeyPEM opts)) (secrets_arrived env) /\
    res_ResponseCount r = Z.of_nat (length answers) /\ CalculateThreshold (Z.of_nat (length operators)) <= res_ResponseCount r /\
    head answers = Some first /\ res_PublicEnv r = sresp_PublicEnv first.1.2 /\ res_EncryptedEnv r = sresp_EncryptedEnv first.1.2 /\
    (opt_StackID opts = ""%string -> forall x, x ∈ answers -> sresp_EncryptedEnv x.1.2 = res_EncryptedEnv r) /\
    (if res_Verified r
     then exists mpk, GetMasterPublicKey (ce_get_pubkey env) (ce_order env) (pubkey_arrived env) operators = Ok mpk /\
            VerifyAppPrivateKey appID (res_AppPrivateKey r) mpk = Ok true
     else is_ok (GetMasterPublicKey (ce_get_pubkey env) (ce_order env) (pubkey_arrived env) operators) = false) /\
    (chosen_method opts <> "eigenx-snp"%string -> sreq_StackID req = ""%string).
Proof.
  unfold RetrieveSecretsWithOptions. intros Hr. cbn [from_opt mbind res_bind] in Hr. apply res_bind_ok in Hr as ([] & _ & Hr).
  apply res_bind_ok in Hr as (ops & Hops%wrap_ok & Hr). unfold GetOperators in Hops. apply res_bind_ok in Hops as (ops' & Hops%wrap_ok & Hne).
  rewrite fail_if_bind in Hne. destruct Hne as [_ [= ->]]. cbv zeta in Hr. apply res_bind_ok in Hr as (req & Hreq & Hr).
  apply res_bind_ok in Hr as ([responses sigs] & Hget%wrap_ok & Hr). unfold GetEncryptedSecretsFromKMSNodesWithPartialSigs in Hget.
  set (answers := omap (secrets_answer env req (opt_RSAPrivateKeyPEM opts)) (secrets_arrived env)) in *.
  rewrite fail_if_bind in Hget. destruct Hget as [_ [= <- _]]. rewrite fail_if_bind, Z.ltb_ge, length_fmap in Hr. destruct Hr as [Hlen Hr].
  apply res_bind_ok in Hr as (first & Hfirst%from_opt_ok & Hr). apply res_bind_ok in Hr as ([] & Henv & Hr).
  apply res_bind_ok in Hr as ([k verified] & Hk & [= <-]). cbn [res_ResponseCount res_PublicEnv res_EncryptedEnv res_Verified res_AppPrivateKey].
  destruct (head answers) as [[[a0 resp0] s0]|] eqn:Hh.
  2: { apply head_None in Hh. by rewrite Hh in Hfirst. }
  assert (first = resp0) as -> by (destruct answers; [done|]; injection Hh as ->; by injection Hfirst).
  exists ops, req, answers, (a0, resp0, s0). split_and!; try done.
  - intros Hst x Hx. rewrite bool_decide_true in Henv by done. apply fail_if_ok in Henv. rewrite negb_false_iff, forallb_forall in Henv.
    specialize (Henv x.1.2). rewrite bool_decide_eq_true in Henv. apply Henv. apply list_elem_of_In, list_elem_of_fmap. exists x. split; [by destruct x as [[? ?] ?]|done].
  - unfold recover_key in Hk. destruct (GetMasterPublicKey _ _ _ _) as [mpk|e] eqn:Hmpk.
    + apply res_bind_ok in Hk as (k' & Hk%wrap_ok & [= <- <-]). exists mpk. split; [done|]. apply retry_validated in Hk; [|unfold CalculateThreshold; apply Z.quot_pos; lia].
      unfold validates in Hk. destruct (VerifyAppPrivateKey appID k' mpk) as [[]|]; done.
    + by apply res_bind_ok in Hk as (k' & _ & [= _ <-]).
  - by apply request_stack with (1 := Hreq).
Qed.
End RetrieveFacts.

(** ** Witnesses: three operators over the toy curve, the third of them dishonest *)

#[local] Existing Instances toy97 toy97_laws toy_sym toy_sym_laws toy_ecdsa toy_rsa.
#[local] Instance client_addr : EthAddr := { Hex a := if (a =? 1)%Z then "0x1" else if (a =? 2)%Z then "0x2" else "0x3"; HexToAddress _ := 0%Z }.

Definition client_peer (a : Address) : OperatorSetPeer := mkPeer a "" None a CurveTypeBN254.
Definition client_peers : list OperatorSetPeer := client_peer <$> [1%Z; 2%Z; 3%Z].
(** The addresses come back in other letters; the third signature is another operator's. *)
Definition client_sign (app : string) (time : Z) (op : OperatorSetPeer) : res SignResponse :=
  Ok (mkSignResponse (match OperatorAddress op with 1%Z => "0X1" | 2%Z => "0X2" | _ => "0X3" end)
        (if (OperatorAddress op =? 3)%Z then toy_psig 9 else toy_psig (OperatorAddress op))).

Lemma toy_open_is k n (m : bytes) ct a x : take (length ct - 16) ct = m -> gcm_Open k n ct a = Ok x -> x = m.
Proof. intros Ht. cbn [gcm_Open toy_sym]. case_bool_decide; [|done]. intros [= <-]. done. Qed.

(** The third answer is not honest, but no candidate opens the ciphertext to other data. *)
Lemma client_decrypts_witness : client_Decrypt client_sign "app-1" toy_ciphertext (client_peer <$> [3%Z; 1%Z; 2%Z]) client_peers 2%Z = Ok [72; 105]%Z /\
  client_Decrypt client_sign "app-1" toy_ciphertext (client_peer <$> [2%Z; 1%Z]) client_peers 2%Z = Ok [72; 105]%Z.
Proof.
  assert (Hsigns : forall op, op ∈ client_peer <$> [2%Z; 1%Z] -> signs (client_sign "app-1" 0%Z) toy_id toy_poly op).
  { intros op Hop. assert (Hc : op = client_peer 2 \/ op = client_peer 1) by (apply elem_of_cons in Hop as [-> | ->%list_elem_of_singleton]; auto).
    destruct Hc as [-> | ->]; (split; [by_compute|eexists; split; [reflexivity|by_compute]]). }
  assert (Hkey : hash_to_g1 (string_bytes "app-1") = Some toy_id) by reflexivity.
  assert (Hopens : opens (com (toy_fr 5)) (peval toy_poly fr_zero)) by (unfold opens; by_compute).
  assert (Hct : EncryptForApp (Ok (toy_fr 11)) (Ok toy_nonce) "app-1" (com (toy_fr 5)) [72; 105]%Z = Ok toy_ciphertext) by (vm_compute; reflexivity).
  split.
  - destruct (client_decrypts "app-1" toy_id toy_poly 2 (com (toy_fr 5)) (toy_fr 11) toy_nonce [72; 105]%Z toy_ciphertext client_sign
           (client_peer <$> [3%Z; 1%Z; 2%Z]) client_peers (client_peer <$> [2%Z; 1%Z])) as [(m & Hm & Hd) _];
      [exact Hkey|by_compute|exact Hopens|reflexivity|exact Hct|by_compute|by_compute|by_compute|by_compute|exact Hsigns|lia|vm_compute; lia|reflexivity|vm_compute; discriminate|].
    change (Z.of_nat 2) with 2%Z in Hm. rewrite Hm. f_equal. destruct Hd as [Hd|(_ & k & _ & _ & _ & _ & Hd)]; [exact Hd|].
    apply decrypt_opens in Hd as (key & a & Hd). revert Hd. apply toy_open_is. vm_compute. reflexivity.
  - apply (client_decrypts "app-1" toy_id toy_poly 2 (com (toy_fr 5)) (toy_fr 11) toy_nonce [72; 105]%Z toy_ciphertext client_sign
           (client_peer <$> [2%Z; 1%Z]) client_peers (client_peer <$> [2%Z; 1%Z]));
      [exact Hkey|by_compute|exact Hopens|reflexivity|exact Hct|by_compute|by_compute|done|by_compute|exact Hsigns|lia|vm_compute; lia|reflexivity|vm_compute; discriminate| |by_compute].
    intros op Hop. right. by apply Hsigns.
Defined.

(** The third operator reports another key. *)
Definition client_pubkey (op : OperatorSetPeer) : res PubkeyResponse :=
  Ok (mkPubkeyResponse "" (com <$> toy_poly) (Some (com (toy_fr (if (OperatorAddress op =? 3)%Z then 9 else 5)))) 1 true).
Definition map_order (v : mpk_votes) : list bytes := (map_to_list v).*1.

Lemma master_key_agreement_witness : GetMasterPublicKey client_pubkey map_order (client_peer <$> [3%Z; 1%Z; 2%Z]) client_peers = Ok (com (toy_fr 5)).
Proof.
  apply (master_key_agreement client_pubkey map_order (client_peer <$> [3%Z; 1%Z; 2%Z]) client_peers (com (toy_fr 5)));
    [discriminate|done|vm_compute; (discriminate || reflexivity)..].
Defined.



(** The operators answer the sample request with their partial signatures. *)
Definition client_env : ClientEnv :=
  mkClientEnv _ demo_now (Ok client_peers) (Ok 7%Z) (Ok demo_nonce) (fun _ => Err "unused") (fun b => Ok (mkG1Point b))
    (fun op req => c ← Encrypt [] (g1_compressed (toy_psig (OperatorAddress op))) (sreq_RSAPubKeyTmp req); Ok (mkSecretsResponseV1 "env" "public" c []))
    client_peers client_pubkey map_order client_peers.
Definition client_options : SecretsOptions := mkSecretsOptions _ "ecdsa" "" None [] [] [] [45; 49; 2048]%Z [45; 48; 2048]%Z [] "".

Definition client_result : SecretsResult :=
  match RetrieveSecretsWithOptions client_env "app-1" (Some client_options) with Ok r => r | Err _ => mkSecretsResult (mkG1Point []) "" "" ∅ 0%Z 0%Z [] false end.

Lemma retrieved_secrets_checked_witness : res_AppPrivateKey client_result = psig toy_id (toy_fr 5) /\ res_Verified client_result = true /\
  (CalculateThreshold 3 <= res_ResponseCount client_result)%Z.
Proof.
  assert (Hr : RetrieveSecretsWithOptions client_env "app-1" (Some client_options) = Ok client_result) by (vm_compute; reflexivity).
  split; [vm_compute; reflexivity|]. split; [vm_compute; reflexivity|].
  destruct (retrieved_secrets_checked client_env "app-1" client_options client_result Hr) as (ops & ? & ? & ? & Hops & _ & _ & _ & Ht & _).
  injection Hops as <-. exact Ht.
Defined.
