(* ===== verification/Stores.v ===== *)
(** * Durable stores: the operations of a store and how two stores are compared

    The persistence interface as a language of operations and answers.  [memory_do] runs an
    operation on the in-memory store, which is the reference the durable stores are compared
    with; [run] runs a program and logs what succeeded.  [keyed] relates a database that
    keeps values under printed keys to a finite map; its lemmas serve every durable store. *)

From S2P Require Import Prelude Bytes GoText Types Persistence.
From Stdlib Require Import Ascii.

(** ** Operations and answers *)

Section Ops.
Context {Fr : Type}.

Inductive op :=
| OpSaveKey (v : KeyShareVersion Fr) | OpLoadKey (t : Z) | OpListKeys | OpDeleteKey (t : Z)
| OpPoison (t : Z) | OpListPoisoned
| OpSetActive (t : Z) | OpGetActive
| OpSaveState (s : NodeState) | OpLoadState
| OpSaveSession (s : ProtocolSessionState) | OpLoadSession (t : Z) | OpDeleteSession (t : Z) | OpListSessions
| OpSaveBlock (r : BlockRecord) | OpLastBlock (chain : Z) | OpGetBlock (chain number : Z) | OpDeleteBlock (chain number : Z)
| OpClose | OpHealth.

Inductive answer :=
| Done
| AKey (v : option (KeyShareVersion Fr)) | AKeys (l : list (KeyShareVersion Fr))
| APoisoned (l : list Z) | AActive (t : Z) | AState (s : option NodeState)
| ASession (s : option ProtocolSessionState) | ASessions (l : list ProtocolSessionState)
| ABlock (r : option BlockRecord)
| AClosed (r : res unit).

(** Poisoned versions and sessions are listed in no order; the result of closing a database
    is the database's. *)
Definition same (a b : answer) : Prop :=
  match a, b with
  | APoisoned l, APoisoned l' => l ≡ₚ l'
  | ASessions l, ASessions l' => l ≡ₚ l'
  | AClosed _, AClosed _ => True
  | _, _ => a = b
  end.

(** A write leaves the store as it was when it fails, a read always. *)
Definition writing {S} (s : S) (r : res S) : S * res answer := match r with Ok s' => (s', Ok Done) | Err e => (s, Err e) end.
Definition reading {S A} (s : S) (f : A -> answer) (r : res A) : S * res answer := (s, f <$> r).

Definition memory_do (o : op) (m : Memory.MemoryPersistence Fr) : Memory.MemoryPersistence Fr * res answer :=
  match o with
  | OpSaveKey v => writing m (Memory.SaveKeyShareVersion v m)
  | OpLoadKey t => reading m AKey (Memory.LoadKeyShareVersion t m)
  | OpListKeys => reading m AKeys (Memory.ListKeyShareVersions m)
  | OpDeleteKey t => writing m (Memory.DeleteKeyShareVersion t m)
  | OpPoison t => writing m (Memory.AddPoisonedVersion t m)
  | OpListPoisoned => reading m APoisoned (Memory.ListPoisonedVersions m)
  | OpSetActive t => writing m (Memory.SetActiveVersionTimestamp t m)
  | OpGetActive => reading m AActive (Memory.GetActiveVersionTimestamp m)
  | OpSaveState s => writing m (Memory.SaveNodeState s m)
  | OpLoadState => reading m AState (Memory.LoadNodeState m)
  | OpSaveSession s => writing m (Memory.SaveProtocolSession s m)
  | OpLoadSession t => reading m ASession (Memory.LoadProtocolSession t m)
  | OpDeleteSession t => writing m (Memory.DeleteProtocolSession t m)
  | OpListSessions => reading m ASessions (Memory.ListProtocolSessions m)
  | OpSaveBlock r => writing m (Memory.SaveBlockRecord r m)
  | OpLastBlock c => reading m ABlock (Memory.GetLastProcessedBlockRecord c m)
  | OpGetBlock c n => reading m ABlock (Memory.GetBlockRecord c n m)
  | OpDeleteBlock c n => writing m (Memory.DeleteBlockRecord c n m)
  | OpClose => match Memory.Close m with Ok m' => (m', Ok (AClosed (Ok tt))) | Err e => (m, Err e) end
  | OpHealth => reading m (fun _ => Done) (Memory.HealthCheck m)
  end.

(** The operations that succeeded, with what they returned, and the store at the end. *)
Fixpoint run {S} (do_op : op -> S -> S * res answer) (ops : list op) (s : S) : list (op * answer) * S :=
  match ops with
  | [] => ([], s)
  | o :: ops =>
      match do_op o s with
      | (s, Ok a) => let '(log, s) := run do_op ops s in ((o, a) :: log, s)
      | (s, Err _) => run do_op ops s
      end
  end.

(** What the Go types and the JSON encoding of text require of an operation's arguments;
    the in-memory store takes a node state without address and boundary for none. *)
Definition plain (s : string) : Prop := Forall (fun c => nat_of_ascii c < 128)%nat (chars_of s).
Definition state_ok (s : NodeState) : Prop := plain (ns_OperatorAddress s) /\ (ns_OperatorAddress s = ""%string -> LastProcessedBoundary s <> 0).
Definition session_ok (s : ProtocolSessionState) : Prop :=
  is_int64 (ps_SessionTimestamp s) /\ plain (ps_Type s) /\ Forall plain (ps_OperatorAddresses s) /\
  map_Forall (fun k v => plain k /\ plain v) (ps_Shares s) /\ map_Forall (fun k _ => plain k) (ps_Commitments s) /\
  map_Forall (fun k acks => plain k /\ map_Forall (fun k' _ => plain k') acks) (ps_Acknowledgements s).
Definition block_ok (r : BlockRecord) : Prop := is_uint64 (br_ChainId r) /\ is_uint64 (br_Number r) /\ plain (br_Hash r) /\ plain (br_ParentHash r).
Definition op_ok (o : op) : Prop :=
  match o with
  | OpSaveKey v => is_int64 (Version v)
  | OpLoadKey t | OpDeleteKey t | OpPoison t | OpSetActive t | OpLoadSession t | OpDeleteSession t => is_int64 t
  | OpSaveState s => state_ok s
  | OpSaveSession s => session_ok s
  | OpSaveBlock r => block_ok r
  | OpLastBlock c => is_uint64 c
  | OpGetBlock c n | OpDeleteBlock c n => is_uint64 c /\ is_uint64 n
  | OpListKeys | OpListPoisoned | OpGetActive | OpLoadState | OpListSessions | OpClose | OpHealth => True
  end.
End Ops.
Arguments op Fr : clear implicits.
Arguments answer Fr : clear implicits.

(** The answer [x] of one store to an operation, and the answer [y] of the other, which was
    in the state [t]: an operation that fails on the first is not run on the second. *)
Definition matches {Fr S T} (R : S -> T -> Prop) (x : S * res (answer Fr)) (t : T) (y : T * res (answer Fr)) : Prop :=
  match x.2 with
  | Ok a => exists b, y.2 = Ok b /\ same a b /\ R x.1 y.1
  | Err _ => R x.1 t
  end.

Definition agree {Fr} (l l' : list (op Fr * answer Fr)) : Prop := Forall2 (fun x y => x.1 = y.1 /\ same x.2 y.2) l l'.

Section Simulation.
Context {Fr S T : Type} (do_s : op Fr -> S -> S * res (answer Fr)) (do_t : op Fr -> T -> T * res (answer Fr)) (R : S -> T -> Prop).
Hypothesis Hstep : forall o s t, op_ok o -> R s t -> matches R (do_s o s) t (do_t o t).

(** A simulation between the operations of two stores lifts to programs. *)
Lemma run_simulates ops s t : Forall op_ok ops -> R s t ->
  exists log t', run do_t (run do_s ops s).1.*1 t = (log, t') /\ R (run do_s ops s).2 t' /\ agree (run do_s ops s).1 log.
Proof using Hstep.
  intros Hok. revert s t. induction Hok as [|o ops Ho Hops IH]; intros s t HR; cbn [run].
  - exists [], t. split_and!; [done..|by constructor].
  - pose proof (Hstep o s t Ho HR) as Hm. unfold matches in Hm. destruct (do_s o s) as [s1 [a|e]]; cbn [fst snd] in Hm; [|by apply IH].
    destruct Hm as (b & Ht & Hab & HR1). destruct (do_t o t) as [t1 b'] eqn:Hdt. cbn [fst snd] in *. subst b'. destruct (IH s1 t1 HR1) as (log & t' & Hrun & HR' & Hlog).
    destruct (run do_s ops s1) as [l s'] eqn:Hl. cbn [fst snd] in *. exists ((o, b) :: log), t'.
    cbn [fmap list_fmap fst run]. rewrite Hdt, Hrun. split_and!; try done. by constructor.
Qed.

(** Two stores that succeed on the same operations log the same programs. *)
Lemma run_same_ops ops s t : (forall o s t, op_ok o -> R s t -> is_ok (do_s o s).2 = is_ok (do_t o t).2) ->
  (forall o t, is_ok (do_t o t).2 = false -> (do_t o t).1 = t) ->
  Forall op_ok ops -> R s t -> (run do_s ops s).1.*1 = (run do_t ops t).1.*1.
Proof using Hstep.
  intros Hav Hfail Hok. revert s t. induction Hok as [|o ops Ho Hops IH]; intros s t HR; [done|]. cbn [run].
  pose proof (Hav o s t Ho HR) as Ha. pose proof (Hstep o s t Ho HR) as Hm. pose proof (Hfail o t) as Hf. unfold matches in Hm.
  destruct (do_s o s) as [s1 [a|e]], (do_t o t) as [t1 [b|e']]; cbn [fst snd is_ok] in *; try done.
  - destruct Hm as (b' & [= <-] & _ & HR1). specialize (IH s1 t1 HR1). destruct (run do_s ops s1), (run do_t ops t1). cbn in *. by rewrite IH.
  - rewrite Hf by done. by apply IH.
Qed.
End Simulation.

(** One operation of two stores. *)
Lemma step_write {Fr S T} (R : S -> T -> Prop) s t (r : res S) (r' : res T) : R s t ->
  (forall s', r = Ok s' -> exists t', r' = Ok t' /\ R s' t') -> matches (Fr := Fr) R (writing s r) t (writing t r').
Proof. intros HR Hr. unfold matches, writing. destruct r as [s'|]; cbn; [|done]. destruct (Hr s' eq_refl) as (t' & -> & HR'). by exists Done. Qed.

Lemma step_read {Fr S T A} (R : S -> T -> Prop) s t (f : A -> answer Fr) (r r' : res A) : R s t ->
  (forall x, r = Ok x -> exists y, r' = Ok y /\ same (f x) (f y)) -> matches R (reading s f r) t (reading t f r').
Proof. intros HR Hr. unfold matches, reading. destruct r as [x|]; cbn; [|done]. destruct (Hr x eq_refl) as (y & -> & Hs). by exists (f y). Qed.

Lemma writing_ok {Fr S} (s : S) (r : res S) : is_ok (writing (Fr := Fr) s r).2 = is_ok r.
Proof. by destruct r. Qed.
Lemma reading_ok {Fr S A} (s : S) (f : A -> answer Fr) (r : res A) : is_ok (reading s f r).2 = is_ok r.
Proof. by destruct r. Qed.
Lemma is_ok_bind {A B} (r : res A) (f : A -> res B) : is_ok r = true -> (forall x, r = Ok x -> is_ok (f x) = true) -> is_ok (r ≫= f) = true.
Proof. destruct r as [x|]; [|done]. intros _ Hf. by apply Hf. Qed.
Lemma is_ok_wrap {A} msg (r : res A) : is_ok (wrap msg r) = is_ok r.
Proof. by destruct r. Qed.

Lemma memory_available {Fr} (o : op Fr) m : Memory.closed m = false -> is_ok (memory_do o m).2 = true.
Proof.
  destruct m as [ks av ns ss br lp ps cl]. cbn. intros ->.
  destruct o; try done; cbn; unfold Memory.GetLastProcessedBlockRecord, Memory.LoadNodeState, Memory.open; cbn; by case_match.
Qed.

Lemma memory_failed {Fr} (o : op Fr) m : is_ok (memory_do o m).2 = false -> (memory_do o m).1 = m.
Proof.
  destruct (Memory.closed m) eqn:Hm; [|by rewrite memory_available]. destruct m as [ks av ns ss br lp ps cl]. cbn in Hm. subst cl. by destruct o.
Qed.

(** A restart opens a durable store again. *)
Definition reopened {Fr} (m : Memory.MemoryPersistence Fr) : Memory.MemoryPersistence Fr :=
  Memory.mkMemory (Memory.keyShares m) (Memory.activeVersionTimestamp m) (Memory.nodeState m) (Memory.sessions m)
    (Memory.blockRecords m) (Memory.lastProcessedBlocks m) (Memory.poisoned m) false.

Section Facts.
Context {Fr : Type}.

Lemma deepCopyBlockRecord_id r : Memory.deepCopyBlockRecord r = r.
Proof. by destruct r. Qed.

Lemma deepCopyProtocolSessionState_id s : Memory.deepCopyProtocolSessionState s = s.
Proof.
  destruct s as [ts ty ph st ops sh cs acks]. unfold Memory.deepCopyProtocolSessionState. cbn. f_equal.
  - rewrite <- (map_fmap_id cs) at 2. apply map_fmap_ext. intros i l _. rewrite <- (list_fmap_id l) at 2. apply list_fmap_ext. by intros ? [] _.
  - rewrite <- (map_fmap_id acks) at 2. apply map_fmap_ext. intros i l _. rewrite <- (map_fmap_id l) at 2. apply map_fmap_ext. by intros ? [] _.
Qed.

Lemma opt_id {A} (f : A -> A) (o : option A) : (forall a, f a = a) -> f <$> o = o.
Proof. intros Hf. destruct o as [a|]; cbn; [by rewrite Hf|done]. Qed.
End Facts.

(** ** Printed keys *)

Lemma print_d_digits z : Z.abs z < 10 ^ 20 -> exists ds, print_d z = ((if z <? 0 then ["-"%char] else []) ++ ds)%list /\ reads ds (Z.abs z).
Proof.
  intros Hz. unfold print_d. destruct (decimal_reads 20 (Z.abs z) []) as (ds & Hds & Hr); [change (Z.of_nat 20) with 20; lia|done|].
  rewrite app_nil_r in Hds. exists ds. split; [|done]. destruct (Z.ltb_spec z 0); [rewrite Z.abs_neq in Hds by lia|rewrite Z.abs_eq in Hds by lia]; by rewrite Hds.
Qed.

Lemma reads_fun ds z z' : reads ds z -> reads ds z' -> z = z'.
Proof.
  intros (_ & _ & H1) (_ & _ & H2). specialize (H1 0 []). specialize (H2 0 []). rewrite app_nil_r in *. rewrite H1 in H2. cbn [digits] in H2.
  injection H2. lia.
Qed.

Lemma reads_head ds z c : reads ds z -> head ds = Some c -> digit c <> None.
Proof. intros (_ & Hf & _) Hc. destruct ds; [done|]. injection Hc as ->. inversion Hf as [|? ? [d Hd] _]; subst. by rewrite Hd. Qed.

Lemma print_d_inj z z' : Z.abs z < 10 ^ 20 -> Z.abs z' < 10 ^ 20 -> print_d z = print_d z' -> z = z'.
Proof.
  intros (ds & Hp & Hr)%print_d_digits (ds' & Hp' & Hr')%print_d_digits. rewrite Hp, Hp'.
  pose proof (reads_head ds (Z.abs z) "-" Hr) as Hh. pose proof (reads_head ds' (Z.abs z') "-" Hr') as Hh'.
  destruct (Z.ltb_spec z 0), (Z.ltb_spec z' 0); cbn [app].
  - intros [= ->]. pose proof (reads_fun _ _ _ Hr Hr'). lia.
  - intros <-. by destruct Hh'.
  - intros ->. by destruct Hh.
  - intros ->. pose proof (reads_fun _ _ _ Hr Hr'). lia.
Qed.

Lemma print_d_inj_int64 z z' : is_int64 z -> is_int64 z' -> print_d z = print_d z' -> z = z'.
Proof. unfold is_int64. intros Hz Hz'. apply print_d_inj; lia. Qed.

Lemma print_d_inj_uint64 z z' : is_uint64 z -> is_uint64 z' -> print_d z = print_d z' -> z = z'.
Proof. unfold is_uint64. intros Hz Hz'. apply print_d_inj; lia. Qed.

Lemma Atoi_print_d z : is_int64 z -> Atoi (print_d z) = Some z.
Proof.
  unfold is_int64. intros Hz. destruct (print_d_digits z) as (ds & Hp & Hr); [lia|]. rewrite Hp.
  pose proof (scan_digits_atoi ds (Z.abs z) Hr ltac:(lia) (z <? 0)) as Ha. destruct (Z.ltb_spec z 0) as [Hn|Hn].
  - rewrite Z.abs_neq, Z.opp_involutive in Ha by lia. apply Ha. done.
  - rewrite Z.abs_eq in Ha by lia. apply Ha. done.
Qed.

(** [%d:%d] *)
Definition print_pair (k : Z * Z) : list ascii := (print_d k.1 ++ ":"%char :: print_d k.2)%list.

Lemma print_pair_inj k k' : is_uint64 k.1 /\ is_uint64 k.2 -> is_uint64 k'.1 /\ is_uint64 k'.2 -> print_pair k = print_pair k' -> k = k'.
Proof.
  destruct k as [c n], k' as [c' n']. cbn [fst snd]. unfold is_uint64. intros [Hc Hn] [Hc' Hn'] Heq. unfold print_pair in Heq. cbn [fst snd] in Heq.
  destruct (print_d_digits c) as (ds & Hp & Hr); [lia|]. destruct (print_d_digits c') as (ds' & Hp' & Hr'); [lia|].
  rewrite (proj2 (Z.ltb_ge c 0)) in Hp by lia. rewrite (proj2 (Z.ltb_ge c' 0)) in Hp' by lia. cbn [app] in Hp, Hp'. rewrite Hp, Hp' in Heq.
  assert (Hsep : forall l ch, head (":"%char :: l) = Some ch -> digit ch = None) by (intros l ch [= <-]; done).
  pose proof (scan_digits_app ds _ (proj1 (proj2 Hr)) (Hsep (print_d n))) as H1. pose proof (scan_digits_app ds' _ (proj1 (proj2 Hr')) (Hsep (print_d n'))) as H2.
  rewrite Heq, H2 in H1. injection H1 as <- Hnn. pose proof (reads_fun _ _ _ Hr Hr'). f_equal; [lia|]. symmetry. apply print_d_inj; [lia|lia|done].
Qed.

(** ** Values under printed keys *)

Notation contents_map := (gmap (list ascii) bytes).

Section Keyed.
Context {K X : Type} `{Countable K} (pre : list ascii) (print : K -> list ascii) (ok : K -> Prop) (dec : bytes -> res (option X)).
Hypothesis print_inj : forall k k', ok k -> ok k' -> print k = print k' -> k = k'.

Definition full (k : K) : list ascii := (pre ++ print k)%list.

(** The entries with the prefix are those of [M], each under its key. *)
Record keyed (C : contents_map) (M : gmap K X) : Prop := {
  keyed_some k x : M !! k = Some x -> ok k /\ exists d, C !! full k = Some d /\ dec d = Ok (Some x);
  keyed_only key d : C !! key = Some d -> pre `prefix_of` key -> exists k x, key = full k /\ M !! k = Some x
}.

Lemma full_inj k k' : ok k -> ok k' -> full k = full k' -> k = k'.
Proof using print_inj. intros Hk Hk' Hf. apply app_inv_head in Hf. by apply print_inj. Qed.

Lemma keyed_lookup C M k : keyed C M -> ok k ->
  (C !! full k = None /\ M !! k = None) \/ exists d x, C !! full k = Some d /\ dec d = Ok (Some x) /\ M !! k = Some x.
Proof using print_inj.
  intros HC Hk. destruct (M !! k) as [x|] eqn:Hm.
  - right. destruct (keyed_some _ _ HC k x Hm) as (_ & d & Hd & Hdec). eauto.
  - left. split; [|done]. destruct (C !! full k) as [d|] eqn:Hc; [|done].
    destruct (keyed_only _ _ HC (full k) d Hc) as (k' & x & Heq & Hm'); [by eexists|].
    apply full_inj in Heq as <-; [congruence|done|]. by eapply keyed_some.
Qed.

Lemma keyed_insert C M k d x : keyed C M -> ok k -> dec d = Ok (Some x) -> keyed (<[full k := d]> C) (<[k := x]> M).
Proof using print_inj.
  intros HC Hk Hd. split.
  - intros k' x'. rewrite lookup_insert_Some. intros [[<- <-]|[Hne Hm]]; [split; [done|exists d; by rewrite lookup_insert_eq]|].
    destruct (keyed_some _ _ HC k' x' Hm) as (Hk' & d' & Hd' & Hx). split; [done|]. exists d'.
    rewrite lookup_insert_ne by (intros Heq; by apply full_inj in Heq). done.
  - intros key d'. rewrite lookup_insert_Some. intros [[<- <-]|[Hne Hc]] Hpre; [exists k, x; by rewrite lookup_insert_eq|].
    destruct (keyed_only _ _ HC key d' Hc Hpre) as (k' & x' & -> & Hm). exists k', x'. split; [done|]. by rewrite lookup_insert_ne by (by intros ->).
Qed.

Lemma keyed_delete C M k : keyed C M -> ok k -> keyed (delete (full k) C) (delete k M).
Proof using print_inj.
  intros HC Hk. split.
  - intros k' x'. rewrite lookup_delete_Some. intros [Hne Hm].
    destruct (keyed_some _ _ HC k' x' Hm) as (Hk' & d' & Hd' & Hx). split; [done|]. exists d'.
    rewrite lookup_delete_ne by (intros Heq; by apply full_inj in Heq). done.
  - intros key d'. rewrite lookup_delete_Some. intros [Hne Hc] Hpre.
    destruct (keyed_only _ _ HC key d' Hc Hpre) as (k' & x' & -> & Hm). exists k', x'. split; [done|]. by rewrite lookup_delete_ne by (by intros ->).
Qed.

Lemma keyed_ext C C' M : (forall key, pre `prefix_of` key -> C' !! key = C !! key) -> keyed C M -> keyed C' M.
Proof using Type.
  intros Hext HC. split.
  - intros k x Hm. destruct (keyed_some _ _ HC k x Hm) as (Hk & d & Hd & Hx). split; [done|]. exists d.
    by rewrite Hext by (by eexists).
  - intros key d Hc Hpre. rewrite Hext in Hc by done. by eapply keyed_only.
Qed.

Lemma keyed_empty C : (forall key d, C !! key = Some d -> ~ pre `prefix_of` key) -> keyed C ∅.
Proof using Type. intros HC. split; [by intros k x Hk|]. intros key d Hc Hpre. by destruct (HC key d Hc). Qed.

(** What an iteration over the prefix finds. *)
Lemma keyed_list C M l : keyed C M -> l ≡ₚ map_to_list (filter (fun kv => pre `prefix_of` kv.1) C) ->
  l ≡ₚ (fun kx => (full kx.1, default [] (C !! full kx.1))) <$> map_to_list M.
Proof using print_inj.
  intros HC ->. apply NoDup_Permutation.
  - apply NoDup_map_to_list.
  - apply NoDup_fmap_2_strong; [|apply NoDup_map_to_list]. intros [k x] [k' x'] Hkx%elem_of_map_to_list Hkx'%elem_of_map_to_list [= Heq _].
    destruct (keyed_some _ _ HC k x Hkx) as [Hk _]. destruct (keyed_some _ _ HC k' x' Hkx') as [Hk' _].
    apply app_inv_head in Heq. apply print_inj in Heq as <-; [congruence|done|done].
  - intros [key d]. rewrite elem_of_map_to_list, map_lookup_filter_Some, list_elem_of_fmap. cbn [fst]. split.
    + intros [Hc Hpre]. destruct (keyed_only _ _ HC key d Hc Hpre) as (k & x & -> & Hm). exists (k, x). cbn [fst]. rewrite Hc. split; [done|by apply elem_of_map_to_list].
    + intros ([k x] & [= -> ->] & Hkx%elem_of_map_to_list). destruct (keyed_some _ _ HC k x Hkx) as (_ & d' & Hd' & _). rewrite Hd'. split; [done|by eexists].
Qed.

Definition decoded (kv : list ascii * bytes) : option X := match dec kv.2 with Ok (Some x) => Some x | _ => None end.

Lemma keyed_values C M l : keyed C M -> l ≡ₚ map_to_list (filter (fun kv => pre `prefix_of` kv.1) C) -> omap decoded l ≡ₚ (map_to_list M).*2.
Proof using print_inj.
  intros HC Hl. rewrite (keyed_list C M l HC Hl). clear Hl.
  assert (Hin : Forall (fun kx => M !! kx.1 = Some kx.2) (map_to_list M)) by (apply Forall_forall; intros [k x]; apply elem_of_map_to_list).
  induction Hin as [|[k x] kxs Hkx Hin IH]; [done|]. cbn [fmap list_fmap omap list_omap fst snd] in *.
  destruct (keyed_some _ _ HC k x Hkx) as (_ & d & Hd & Hdec). unfold decoded at 1. cbn [snd]. rewrite Hd. cbn [default from_option id]. rewrite Hdec. by rewrite IH.
Qed.
End Keyed.
