(* ===== verification/Layout.v ===== *)
(** * How a store lays its values out under printed keys

    Badger and Redis keep the same values under keys that differ only in a stem: JSON under a
    printed version or time, a pointer as eight bytes.  [holds] relates such a database to
    the in-memory store; the lemmas say what each write does to the relation and what each
    read finds, so that the files on the two stores only deal with the database's calls. *)

From S2P Require Import Prelude Bytes GoText Types Persistence Stores.
From Stdlib Require Import Ascii.

(** [json.Marshal] and [json.Unmarshal] into a pointer; [None] is the literal [null]. *)
Class JsonStore (Fr : Type) := {
  marshal_key : KeyShareVersion Fr -> res bytes; unmarshal_key : bytes -> res (option (KeyShareVersion Fr));
  marshal_state : NodeState -> res bytes; unmarshal_state : bytes -> res (option NodeState);
  marshal_session : ProtocolSessionState -> res bytes; unmarshal_session : bytes -> res (option ProtocolSessionState);
  marshal_block : BlockRecord -> res bytes; unmarshal_block : bytes -> res (option BlockRecord)
}.
(** What was encoded is decoded again; text outside ASCII may be replaced. *)
Class JsonStoreLaws {Fr} `{JsonStore Fr} : Prop := {
  unmarshal_marshal_key v d : is_int64 (Version v) -> marshal_key v = Ok d -> unmarshal_key d = Ok (Some v);
  unmarshal_marshal_state s d : state_ok s -> marshal_state s = Ok d -> unmarshal_state d = Ok (Some s);
  unmarshal_marshal_session s d : session_ok s -> marshal_session s = Ok d -> unmarshal_session d = Ok (Some s);
  unmarshal_marshal_block r d : block_ok r -> marshal_block r = Ok d -> unmarshal_block d = Ok (Some r)
}.

(** The tail of the three loaders: decode the value found. *)
Definition decode_found {A} (what null : string) (unmarshal : bytes -> res (option A)) (data : option bytes) : res (option A) :=
  match data with
  | None => Ok None
  | Some data =>
      v ← wrap what (unmarshal data);
      match v with None => Err null | Some v => Ok (Some v) end
  end.

Definition decode_number (val : bytes) : res (option Z) :=
  _ ← fail_if (negb (length val =? 8)%nat) "invalid last block data length: %d"; Ok (Some (be_val val)).

Definition key_tail : list ascii := chars_of "keyshare:".
Definition active_tail : list ascii := chars_of "active:version".
Definition state_tail : list ascii := chars_of "nodestate:main".
Definition session_tail : list ascii := chars_of "session:".
Definition block_tail : list ascii := chars_of "blockRecord:".
Definition last_tail : list ascii := chars_of "lastBlock:".
Definition schema_tail : list ascii := chars_of "metadata:schema_version".

Definition uint64_pair (k : Z * Z) : Prop := is_uint64 k.1 /\ is_uint64 k.2.

(** A write sets a key, or removes it. *)
Definition apply_write (C : contents_map) (w : list ascii * option bytes) : contents_map := partial_alter (fun _ => w.2) w.1 C.

(** The bytes of the active version. *)
Definition decode_active (item : option bytes) : res Z :=
  match item with
  | None => Ok 0
  | Some val =>
      _ ← fail_if (negb (length val =? 8)%nat) "invalid active version data length: %d";
      Ok (int64 (be_val val))
  end.

Lemma be_val_put_uint64 n : is_uint64 n -> be_val (put_uint64 n) = n.
Proof.
  unfold is_uint64. intros Hn. unfold put_uint64, uint64. rewrite be_val_be_bytes. change (256 ^ Z.of_nat 8) with (2 ^ 64). rewrite Z.mod_mod by lia. by apply Z.mod_small.
Qed.

Lemma decode_number_put n : is_uint64 n -> decode_number (put_uint64 n) = Ok (Some n).
Proof. intros Hn. unfold decode_number. rewrite length_put_uint64. cbn [Nat.eqb negb fail_if mbind res_bind]. by rewrite be_val_put_uint64. Qed.

Section Layout.
Context {Fr : Type} `{JsonStoreLaws Fr} (stem : list ascii).
Implicit Types (m : Memory.MemoryPersistence Fr) (C : contents_map).

(** ** Keys of different kinds start with different letters after the stem *)

Definition tag (key : list ascii) : option ascii := head (drop (length stem) key).

Lemma tag_stem p : tag (stem ++ p) = head p.
Proof. unfold tag. by rewrite drop_app_length. Qed.

Lemma tag_full {K} p (print : K -> list ascii) k : p <> [] -> tag (full (stem ++ p) print k) = head p.
Proof. intros Hp. unfold full. rewrite <- app_assoc, tag_stem. by destruct p. Qed.

Lemma write_other C key o k : tag k <> tag key -> apply_write C (key, o) !! k = C !! k.
Proof. intros Hne. apply lookup_partial_alter_ne. intros Heq. cbn [fst] in Heq. by rewrite Heq in Hne. Qed.

Lemma write_same C key o : apply_write C (key, o) !! key = o.
Proof. unfold apply_write. cbn [fst snd]. apply lookup_partial_alter_eq. Qed.

Lemma keyed_write_other {K X} `{Countable K} p (print : K -> list ascii) ok (dec : bytes -> res (option X)) C M key o :
  p <> [] -> head p <> tag key -> keyed (stem ++ p) print ok dec C M -> keyed (stem ++ p) print ok dec (apply_write C (key, o)) M.
Proof.
  intros Hp Hne. apply keyed_ext. intros k [r ->]. apply write_other. rewrite <- app_assoc, tag_stem. by destruct p.
Qed.

Lemma keyed_set {K X} `{Countable K} pre (print : K -> list ascii) ok (dec : bytes -> res (option X)) C M k d x :
  (forall k k', ok k -> ok k' -> print k = print k' -> k = k') -> keyed pre print ok dec C M -> ok k -> dec d = Ok (Some x) ->
  keyed pre print ok dec (apply_write C (full pre print k, Some d)) (<[k := x]> M).
Proof. intros Hinj HC Hk Hd. exact (keyed_insert _ _ _ _ Hinj C M k d x HC Hk Hd). Qed.

Lemma keyed_unset {K X} `{Countable K} pre (print : K -> list ascii) ok (dec : bytes -> res (option X)) C M k :
  (forall k k', ok k -> ok k' -> print k = print k' -> k = k') -> keyed pre print ok dec C M -> ok k ->
  keyed pre print ok dec (apply_write C (full pre print k, None)) (delete k M).
Proof. intros Hinj HC Hk. exact (keyed_delete _ _ _ _ Hinj C M k HC Hk). Qed.

(** ** The relation *)

(** All but the poisoned versions, which the stores keep in different ways. *)
Record holds C m : Prop := {
  holds_schema : is_Some (C !! (stem ++ schema_tail));
  holds_keys : keyed (stem ++ key_tail) print_d is_int64 unmarshal_key C (Memory.keyShares m);
  holds_versions : map_Forall (fun t v => Version v = t) (Memory.keyShares m);
  holds_sessions : keyed (stem ++ session_tail) print_d is_int64 unmarshal_session C (Memory.sessions m);
  holds_blocks : keyed (stem ++ block_tail) print_pair uint64_pair unmarshal_block C (Memory.blockRecords m);
  holds_last : keyed (stem ++ last_tail) print_d is_uint64 decode_number C (Memory.lastProcessedBlocks m);
  holds_numbers : map_Forall (fun _ n => is_uint64 n) (Memory.lastProcessedBlocks m);
  holds_active : match C !! (stem ++ active_tail) with
                 | None => Memory.activeVersionTimestamp m = 0
                 | Some d => d = put_uint64 (Memory.activeVersionTimestamp m) /\ is_int64 (Memory.activeVersionTimestamp m)
                 end;
  holds_state : match C !! (stem ++ state_tail) with
                | None => Memory.nodeState m = empty_NodeState
                | Some d => unmarshal_state d = Ok (Some (Memory.nodeState m)) /\
                    (ns_OperatorAddress (Memory.nodeState m) = ""%string -> LastProcessedBoundary (Memory.nodeState m) <> 0)
                end
}.

(** The other fields do not matter. *)
Lemma holds_same C m m' : Memory.keyShares m' = Memory.keyShares m -> Memory.activeVersionTimestamp m' = Memory.activeVersionTimestamp m ->
  Memory.nodeState m' = Memory.nodeState m -> Memory.sessions m' = Memory.sessions m -> Memory.blockRecords m' = Memory.blockRecords m ->
  Memory.lastProcessedBlocks m' = Memory.lastProcessedBlocks m -> holds C m -> holds C m'.
Proof. destruct m, m'. cbn. intros -> -> -> -> -> -> []. by split. Qed.

(** A write to a key of another kind. *)
Lemma holds_other C m key o : tag key ∉ [head schema_tail; head key_tail; head session_tail; head block_tail; head last_tail; head active_tail; head state_tail] ->
  holds C m -> holds (apply_write C (key, o)) m.
Proof.
  rewrite !not_elem_of_cons. intros (H1 & H2 & H3 & H4 & H5 & H6 & H7 & _) [].
  split; try done; first [by apply keyed_write_other | by rewrite write_other by (by rewrite tag_stem)].
Qed.

(** ** Writes *)

Ltac fields := unfold Memory.with_keyShares, Memory.with_sessions, Memory.with_blocks;
  cbn [Memory.keyShares Memory.activeVersionTimestamp Memory.nodeState Memory.sessions Memory.blockRecords Memory.lastProcessedBlocks Memory.poisoned Memory.closed].
(** The parts of [holds] a write to another kind of key does not touch. *)
Ltac other := first
  [ done
  | apply keyed_write_other; [done|by rewrite ?tag_full, ?tag_stem|]
  | rewrite write_other by (by rewrite ?tag_full, ?tag_stem) ].

Lemma holds_save_key C m v d : holds C m -> is_int64 (Version v) -> unmarshal_key d = Ok (Some v) ->
  holds (apply_write C (full (stem ++ key_tail) print_d (Version v), Some d))
        (Memory.with_keyShares (<[Version v := v]> (Memory.keyShares m)) m).
Proof.
  intros [] Hv Hd. split; fields; repeat other.
  - apply keyed_set; [apply print_d_inj_int64|done..].
  - by apply map_Forall_insert_2.
Qed.

Lemma holds_delete_key C m t : holds C m -> is_int64 t ->
  holds (apply_write C (full (stem ++ key_tail) print_d t, None)) (Memory.with_keyShares (delete t (Memory.keyShares m)) m).
Proof.
  intros [] Ht. split; fields; repeat other.
  - apply keyed_unset; [apply print_d_inj_int64|done..].
  - by apply map_Forall_delete.
Qed.

Lemma holds_save_session C m s d : holds C m -> is_int64 (ps_SessionTimestamp s) -> unmarshal_session d = Ok (Some s) ->
  holds (apply_write C (full (stem ++ session_tail) print_d (ps_SessionTimestamp s), Some d))
        (Memory.with_sessions (<[ps_SessionTimestamp s := s]> (Memory.sessions m)) m).
Proof. intros [] Hs Hd. split; fields; repeat other. apply keyed_set; [apply print_d_inj_int64|done..]. Qed.

Lemma holds_delete_session C m t : holds C m -> is_int64 t ->
  holds (apply_write C (full (stem ++ session_tail) print_d t, None)) (Memory.with_sessions (delete t (Memory.sessions m)) m).
Proof. intros [] Ht. split; fields; repeat other. apply keyed_unset; [apply print_d_inj_int64|done..]. Qed.

Definition with_active t m : Memory.MemoryPersistence Fr := Memory.mkMemory (Memory.keyShares m) t (Memory.nodeState m) (Memory.sessions m)
  (Memory.blockRecords m) (Memory.lastProcessedBlocks m) (Memory.poisoned m) (Memory.closed m).
Definition with_state s m : Memory.MemoryPersistence Fr := Memory.mkMemory (Memory.keyShares m) (Memory.activeVersionTimestamp m) s (Memory.sessions m)
  (Memory.blockRecords m) (Memory.lastProcessedBlocks m) (Memory.poisoned m) (Memory.closed m).

Lemma holds_set_active C m t : holds C m -> is_int64 t -> holds (apply_write C (stem ++ active_tail, Some (put_uint64 t))) (with_active t m).
Proof. intros [] Ht. split; unfold with_active; fields; repeat other. by rewrite write_same. Qed.

Lemma holds_save_state C m s d : holds C m -> state_ok s -> unmarshal_state d = Ok (Some s) ->
  holds (apply_write C (stem ++ state_tail, Some d)) (with_state s m).
Proof. intros [] [_ Hs] Hd. split; unfold with_state; fields; repeat other. by rewrite write_same. Qed.

Lemma holds_save_block C m r d : holds C m -> block_ok r -> unmarshal_block d = Ok (Some r) ->
  holds (apply_write (apply_write C (full (stem ++ block_tail) print_pair (br_ChainId r, br_Number r), Some d))
                     (full (stem ++ last_tail) print_d (br_ChainId r), Some (put_uint64 (br_Number r))))
    (Memory.with_blocks (<[(br_ChainId r, br_Number r) := r]> (Memory.blockRecords m))
       (<[br_ChainId r := br_Number r]> (Memory.lastProcessedBlocks m)) m).
Proof.
  intros [] (Hc & Hn & _) Hd. split; fields; repeat other.
  - apply keyed_set; [apply print_pair_inj|done..].
  - apply keyed_set; [apply print_d_inj_uint64| |done|by apply decode_number_put]. by repeat other.
  - by apply map_Forall_insert_2.
Qed.

Lemma holds_delete_block C m c n : holds C m -> is_uint64 c -> is_uint64 n ->
  holds (apply_write C (full (stem ++ block_tail) print_pair (c, n), None))
    (Memory.with_blocks (delete (c, n) (Memory.blockRecords m)) (Memory.lastProcessedBlocks m) m).
Proof. intros [] Hc Hn. split; fields; repeat other. apply keyed_unset; [apply print_pair_inj|done..]. Qed.

(** ** Reads *)

Lemma load_keyed {K X} `{Countable K} pre (print : K -> list ascii) ok (dec : bytes -> res (option X)) C M k what null :
  (forall k k', ok k -> ok k' -> print k = print k' -> k = k') -> keyed pre print ok dec C M -> ok k ->
  decode_found what null dec (C !! full pre print k) = Ok (M !! k).
Proof.
  intros Hinj HC Hk. destruct (keyed_lookup _ _ _ _ Hinj C M k HC Hk) as [[Hc Hm]|(d & x & Hc & Hd & Hm)]; rewrite Hc, Hm; cbn [decode_found]; [done|].
  by rewrite Hd.
Qed.

Lemma found_key C m t what null : holds C m -> is_int64 t ->
  decode_found what null unmarshal_key (C !! full (stem ++ key_tail) print_d t) = Ok (Memory.deepCopyKeyShareVersion <$> Memory.keyShares m !! t).
Proof. intros [] Ht. rewrite Memory.deepCopy_opt. by eapply load_keyed; [apply print_d_inj_int64|..]. Qed.

Lemma found_session C m t what null : holds C m -> is_int64 t ->
  decode_found what null unmarshal_session (C !! full (stem ++ session_tail) print_d t) = Ok (Memory.deepCopyProtocolSessionState <$> Memory.sessions m !! t).
Proof. intros [] Ht. rewrite (opt_id _ _ deepCopyProtocolSessionState_id). by eapply load_keyed; [apply print_d_inj_int64|..]. Qed.

Lemma found_block C m c n what null : holds C m -> is_uint64 c -> is_uint64 n ->
  decode_found what null unmarshal_block (C !! full (stem ++ block_tail) print_pair (c, n)) = Ok (Memory.deepCopyBlockRecord <$> Memory.blockRecords m !! (c, n)).
Proof. intros [] Hc Hn. rewrite (opt_id _ _ deepCopyBlockRecord_id). by eapply load_keyed; [apply print_pair_inj|..]. Qed.

Lemma found_last C m c : holds C m -> is_uint64 c ->
  match C !! full (stem ++ last_tail) print_d c with None => Ok None | Some val => decode_number val end = Ok (Memory.lastProcessedBlocks m !! c).
Proof.
  intros [] Hc. destruct (keyed_lookup _ _ _ _ print_d_inj_uint64 _ _ c holds_last0 Hc) as [[Hk Hm]|(d & n & Hk & Hd & Hm)]; by rewrite Hk, Hm.
Qed.

Lemma found_active C m : holds C m -> decode_active (C !! (stem ++ active_tail)) = Ok (Memory.activeVersionTimestamp m).
Proof.
  intros []. destruct (C !! (stem ++ active_tail)) as [d|]; cbn [decode_active]; [|by rewrite holds_active0].
  destruct holds_active0 as [-> Hint]. rewrite length_put_uint64. cbn [Nat.eqb negb fail_if mbind res_bind].
  unfold put_uint64. rewrite be_val_be_bytes. change (256 ^ Z.of_nat 8) with (2 ^ 64). unfold uint64. rewrite Z.mod_mod by lia.
  f_equal. rewrite <- (int64_id (Memory.activeVersionTimestamp m)) at 2 by done. unfold int64. by rewrite Z.mod_mod by lia.
Qed.

Lemma found_state C m what null : holds C m ->
  decode_found what null unmarshal_state (C !! (stem ++ state_tail)) =
    (let s := Memory.nodeState m in if bool_decide (ns_OperatorAddress s = ""%string) && (LastProcessedBoundary s =? 0) then Ok None else Ok (Some s)).
Proof.
  intros []. destruct (C !! (stem ++ state_tail)) as [d|]; cbn [decode_found].
  - destruct holds_state0 as [Hd Hne]. rewrite Hd. cbn. case_bool_decide as Ha; cbn [andb]; [|done]. by rewrite (proj2 (Z.eqb_neq _ 0)) by auto.
  - by rewrite holds_state0.
Qed.

Lemma holds_fresh d : holds (apply_write ∅ (stem ++ schema_tail, Some d)) Memory.NewMemoryPersistence.
Proof.
  assert (Hk : forall p, p <> [] -> head p <> head schema_tail -> forall key x, apply_write ∅ (stem ++ schema_tail, Some d) !! key = Some x -> ~ (stem ++ p) `prefix_of` key).
  { intros p Hne Hh key x Hx [r ->]. rewrite write_other, lookup_empty in Hx; [done|]. rewrite <- app_assoc, !tag_stem. by destruct p. }
  unfold Memory.NewMemoryPersistence. split; fields; try (by apply keyed_empty, Hk); try done; try apply map_Forall_empty.
  - rewrite write_same. by eexists.
  - by rewrite write_other, lookup_empty by (by rewrite !tag_stem).
  - by rewrite write_other, lookup_empty by (by rewrite !tag_stem).
Qed.
End Layout.

(** ** Lists of versions *)

Section Sorted.
Context {Fr : Type}.
Lemma sorted_unique (l l' : list (KeyShareVersion Fr)) :
  StronglySorted (fun v w => Version v <= Version w) l -> StronglySorted Z.lt (Version <$> l') -> l ≡ₚ l' -> l = l'.
Proof.
  intros Hl. revert l'. induction Hl as [|x l Hl IH Hx]; intros l' Hl' Hp; [symmetry; by apply Permutation_nil_l in Hp|].
  destruct l' as [|y l']; [by apply Permutation_nil_r in Hp|]. cbn in Hl'. apply StronglySorted_inv in Hl' as [Hl' Hy].
  rewrite Forall_fmap, Forall_forall in Hy. rewrite Forall_forall in Hx.
  assert (x = y) as ->.
  { assert (Hin : x ∈ y :: l') by (rewrite <- Hp; by left). apply elem_of_cons in Hin as [->|Hin]; [done|]. pose proof (Hy x Hin) as Hyx. cbn in Hyx.
    assert (Hin' : y ∈ x :: l) by (rewrite Hp; by left). apply elem_of_cons in Hin' as [->|Hin']; [done|]. pose proof (Hx y Hin'). lia. }
  f_equal. apply IH; [done|]. by apply Permutation_cons_inv in Hp.
Qed.

Lemma go_sort_versions (l l' : list (KeyShareVersion Fr)) : StronglySorted Z.lt (Version <$> l') -> l ≡ₚ l' ->
  go_sort (fun v w => Version v <? Version w) l = l'.
Proof.
  intros Hs Hp. apply sorted_unique; [|done|by rewrite go_sort_perm].
  assert (Hle : forall v w : KeyShareVersion Fr, go_le (fun v w => Version v <? Version w) v w <-> Version v <= Version w).
  { intros v w. unfold go_le. by rewrite negb_true_iff, Z.ltb_ge. }
  assert (Total (go_le (fun v w : KeyShareVersion Fr => Version v <? Version w))) by (intros v w; rewrite !Hle; lia).
  assert (Transitive (go_le (fun v w : KeyShareVersion Fr => Version v <? Version w))) by (intros v w u; rewrite !Hle; lia).
  pose proof (StronglySorted_merge_sort (go_le (fun v w : KeyShareVersion Fr => Version v <? Version w)) l) as Hm. unfold go_sort.
  induction Hm as [|v vs Hm IH Hv]; constructor; [done|]. eapply Forall_impl; [exact Hv|]. intros w. by rewrite Hle.
Qed.

Lemma memory_list_perm (m : Memory.MemoryPersistence Fr) : omap (fun ts => Memory.deepCopyKeyShareVersion <$> Memory.keyShares m !! ts) (go_sort Z.ltb (map_to_list (Memory.keyShares m)).*1)
  ≡ₚ (map_to_list (Memory.keyShares m)).*2.
Proof.
  rewrite go_sort_perm.
  assert (Hin : Forall (fun kv => Memory.keyShares m !! kv.1 = Some kv.2) (map_to_list (Memory.keyShares m))) by (apply Forall_forall; intros [k v]; apply elem_of_map_to_list).
  induction Hin as [|[k v] kvs Hk Hin IH]; [done|]. cbn [fmap list_fmap omap list_omap fst snd] in *. rewrite Hk. cbn.
  rewrite Memory.deepCopyKeyShareVersion_id. by rewrite IH.
Qed.

(** The versions in order, however they were found. *)
Lemma memory_list (m : Memory.MemoryPersistence Fr) l : map_Forall (fun t v => Version v = t) (Memory.keyShares m) -> l ≡ₚ (map_to_list (Memory.keyShares m)).*2 ->
  go_sort (fun v w => Version v <? Version w) l =
    omap (fun ts => Memory.deepCopyKeyShareVersion <$> Memory.keyShares m !! ts) (go_sort Z.ltb (map_to_list (Memory.keyShares m)).*1).
Proof. intros Hk Hl. apply go_sort_versions; [by apply Memory.listing_sorted|]. by rewrite memory_list_perm. Qed.

Lemma memory_sessions (m : Memory.MemoryPersistence Fr) : Memory.deepCopyProtocolSessionState <$> (map_to_list (Memory.sessions m)).*2 = (map_to_list (Memory.sessions m)).*2.
Proof. rewrite <- (list_fmap_id (map_to_list (Memory.sessions m)).*2) at 2. apply list_fmap_ext. intros _ s _. apply deepCopyProtocolSessionState_id. Qed.
End Sorted.

(** ** An injective encoding, for the witnesses *)

#[local] Instance G2Point_countable : Countable G2Point := inj_countable' g2_compressed mkG2Point (fun '(mkG2Point _) => eq_refl).
#[local] Instance Acknowledgement_countable : Countable Acknowledgement.
Proof.
  refine (inj_countable' (fun a => (DealerAddress a, PlayerAddress a, ack_SessionTimestamp a, ShareHash a, CommitmentHash a, ack_Signature a))
            (fun '(d, p, t, s, c, g) => mkAck d p t s c g) _). by intros [].
Defined.
#[local] Instance KeyShareVersion_eq_dec : EqDecision (KeyShareVersion Z).
Proof. solve_decision. Defined.
#[local] Instance KeyShareVersion_countable : Countable (KeyShareVersion Z).
Proof.
  refine (inj_countable' (fun v => (Version v, PrivateShare v, Commitments v, MasterPublicKey v, IsActive v, ParticipantIDs v))
            (fun '(a, b, c, d, e, f) => mkKeyShareVersion a b c d e f) _). by intros [].
Defined.
#[local] Instance NodeState_countable : Countable NodeState.
Proof.
  refine (inj_countable' (fun s => (LastProcessedBoundary s, NodeStartTime s, ns_OperatorAddress s, TrackedSourceVersion s, ConsecutiveMPKAborts s, LastKnownGoodSourceVersion s))
            (fun '(a, b, c, d, e, f) => mkNodeState a b c d e f) _). by intros [].
Defined.
#[local] Instance BlockRecord_eq_dec : EqDecision BlockRecord.
Proof. solve_decision. Defined.
#[local] Instance BlockRecord_countable : Countable BlockRecord.
Proof.
  refine (inj_countable' (fun r => (br_Number r, br_Hash r, br_ParentHash r, br_Timestamp r, br_ChainId r)) (fun '(a, b, c, d, e) => mkBlockRecord a b c d e) _).
  by intros [].
Defined.
#[local] Instance Session_eq_dec : EqDecision ProtocolSessionState.
Proof. solve_decision. Defined.
#[local] Instance Session_countable : Countable ProtocolSessionState.
Proof.
  refine (inj_countable' (fun s => (ps_SessionTimestamp s, ps_Type s, ps_Phase s, ps_StartTime s, ps_OperatorAddresses s, ps_Shares s, ps_Commitments s, ps_Acknowledgements s))
            (fun '(a, b, c, d, e, f, g, h) => mkProtocolSessionState a b c d e f g h) _). by intros [].
Defined.

Definition number {A} `{Countable A} (a : A) : res bytes := Ok [Z.pos (encode a)].
Definition unnumber {A} `{Countable A} (d : bytes) : res (option A) := match d with [Z.pos p] => Ok (decode p) | _ => Err "invalid character" end.
Lemma unnumber_number {A} `{Countable A} (a : A) d : number a = Ok d -> unnumber d = Ok (Some a).
Proof. intros [= <-]. cbn. by rewrite decode_encode. Qed.

#[local] Instance number_json : JsonStore Z := {
  marshal_key := number; unmarshal_key := unnumber; marshal_state := number; unmarshal_state := unnumber;
  marshal_session := number; unmarshal_session := unnumber; marshal_block := number; unmarshal_block := unnumber }.
#[local] Instance number_json_laws : JsonStoreLaws (Fr := Z).
Proof. split; intros x d _; apply unnumber_number. Qed.


Definition demo_version (t : Z) : KeyShareVersion Z := mkKeyShareVersion t (Some 7) [] None false [1; 2].
Definition demo_ops : list (op Z) :=
  [OpSaveKey (demo_version 20); OpSaveKey (demo_version (-3)); OpSetActive 20; OpPoison (-3); OpListKeys; OpListPoisoned; OpGetActive;
   OpSaveState (mkNodeState 5 6 "0xAb" 0 0 0); OpLoadState; OpSaveBlock (mkBlockRecord 12 "0xaa" "0xbb" 99 1); OpLastBlock 1; OpDeleteKey 20; OpLoadKey 20;
   OpClose; OpGetActive].

Lemma demo_ops_ok : Forall (op_ok (Fr := Z)) demo_ops.
Proof. unfold demo_ops. repeat constructor; try (cbn; unfold is_int64; lia); try discriminate; repeat constructor; cbn; unfold is_uint64; lia. Qed.
