(* ===== verification/Badger.v ===== *)
(** * The Badger store: [pkg/persistence/badger/badger.go]

    The database is a parameter: [db_get] and [db_iterate] are what a read transaction sees,
    [db_update] is a write transaction, which happens as a whole or not at all.  The values
    are JSON, whose encoder and decoder are parameters too.  The theorem: a program over the
    store sees what it would see over the in-memory store, and what it wrote survives the
    process. *)

From S2P Require Import Prelude Bytes GoText Types Persistence Stores Layout.
From Stdlib Require Import Ascii.

(** [None] is [ErrKeyNotFound], and the value of a write is absent for a delete. *)
Class BadgerDB (DB : Type) := {
  db_get : list ascii -> DB -> res (option bytes);
  db_update : list (list ascii * option bytes) -> DB -> res DB;
  db_iterate : list ascii -> DB -> res (list (list ascii * bytes));
  db_close : DB -> res unit
}.

(** Transactions are serial: a read sees what the writes before it left. *)
Class BadgerLaws {DB : Type} `{BadgerDB DB} := {
  contents : DB -> contents_map;
  db_get_contents k db o : db_get k db = Ok o -> o = contents db !! k;
  db_update_contents ws db db' : db_update ws db = Ok db' -> contents db' = foldl apply_write (contents db) ws;
  db_iterate_contents pre db l : db_iterate pre db = Ok l -> l ≡ₚ map_to_list (filter (fun kv => pre `prefix_of` kv.1) (contents db))
}.

Definition keyPrefixKeyShare : list ascii := chars_of "keyshare:".
Definition keyPrefixActiveVersion : list ascii := chars_of "active:version".
Definition keyPrefixNodeState : list ascii := chars_of "nodestate:main".
Definition keyPrefixSession : list ascii := chars_of "session:".
Definition keyPrefixBlockRecord : list ascii := chars_of "blockRecord:".
Definition keyPrefixLastBlock : list ascii := chars_of "lastBlock:".
Definition keyPrefixPoisoned : list ascii := chars_of "poisoned:".
Definition keySchemaVersion : list ascii := chars_of "metadata:schema_version".
(** The bytes of [v1]. *)
Definition currentSchemaVersion : bytes := [118; 49].

Section Badger.
Context {Fr DB : Type} `{JsonStore Fr} `{BadgerDB DB}.

Record BadgerPersistence := mkBadger { db : DB; b_closed : bool }.

(** The write transaction, after the check that the store is open. *)
Definition Update (b : BadgerPersistence) (ws : list (list ascii * option bytes)) : res BadgerPersistence :=
  db' ← db_update ws (db b); Ok (mkBadger db' (b_closed b)).
Definition opened (b : BadgerPersistence) : res unit := fail_if (b_closed b) "persistence layer is closed".

Definition initSchema (d : DB) : res DB :=
  item ← wrap "failed to read schema version" (db_get keySchemaVersion d);
  match item with
  | None => db_update [(keySchemaVersion, Some currentSchemaVersion)] d
  | Some existingVersion =>
      _ ← fail_if (negb (bool_decide (existingVersion = currentSchemaVersion))) "unsupported schema version: %s (expected: %s)";
      Ok d
  end.

Definition NewBadgerPersistence (open_db : res DB) : res BadgerPersistence :=
  d ← wrap "failed to open badger database at %s" open_db;
  d ← wrap "failed to initialize schema" (initSchema d);
  Ok (mkBadger d false).

Definition SaveKeyShareVersion (version : KeyShareVersion Fr) (b : BadgerPersistence) : res BadgerPersistence :=
  _ ← opened b;
  data ← wrap "failed to marshal KeyShareVersion" (marshal_key version);
  Update b [(full keyPrefixKeyShare print_d (Version version), Some data)].

Definition LoadKeyShareVersion (timestamp : Z) (b : BadgerPersistence) : res (option (KeyShareVersion Fr)) :=
  _ ← opened b;
  data ← wrap "failed to load KeyShareVersion" (db_get (full keyPrefixKeyShare print_d timestamp) (db b));
  decode_found "failed to unmarshal KeyShareVersion" "stored KeyShareVersion at key %q is a JSON null" unmarshal_key data.

Definition ListKeyShareVersions (b : BadgerPersistence) : res (list (KeyShareVersion Fr)) :=
  _ ← opened b;
  items ← wrap "failed to list KeyShareVersions" (db_iterate keyPrefixKeyShare (db b));
  Ok (go_sort (fun v w => Version v <? Version w) (omap (M := list) (decoded unmarshal_key) items)).

Definition DeleteKeyShareVersion (timestamp : Z) (b : BadgerPersistence) : res BadgerPersistence :=
  _ ← opened b;
  Update b [(full keyPrefixKeyShare print_d timestamp, None)].

Definition AddPoisonedVersion (version : Z) (b : BadgerPersistence) : res BadgerPersistence :=
  _ ← opened b;
  Update b [(full keyPrefixPoisoned print_d version, Some [1])].

(** [strconv.ParseInt] of what follows the prefix; a key that is no number is skipped. *)
Definition poisoned_key (kv : list ascii * bytes) : option Z := Atoi (drop (length keyPrefixPoisoned) kv.1).

Definition ListPoisonedVersions (b : BadgerPersistence) : res (list Z) :=
  _ ← opened b;
  items ← wrap "failed to list poisoned versions" (db_iterate keyPrefixPoisoned (db b));
  Ok (omap (M := list) poisoned_key items).

Definition SetActiveVersionTimestamp (timestamp : Z) (b : BadgerPersistence) : res BadgerPersistence :=
  _ ← opened b;
  Update b [(keyPrefixActiveVersion, Some (put_uint64 timestamp))].

Definition GetActiveVersionTimestamp (b : BadgerPersistence) : res Z :=
  _ ← opened b;
  wrap "failed to get active version timestamp"
    (item ← db_get keyPrefixActiveVersion (db b); decode_active item).

Definition SaveNodeState (state : NodeState) (b : BadgerPersistence) : res BadgerPersistence :=
  _ ← opened b;
  data ← wrap "failed to marshal NodeState" (marshal_state state);
  Update b [(keyPrefixNodeState, Some data)].

Definition LoadNodeState (b : BadgerPersistence) : res (option NodeState) :=
  _ ← opened b;
  data ← wrap "failed to load NodeState" (db_get keyPrefixNodeState (db b));
  decode_found "failed to unmarshal NodeState" "stored NodeState at key %q is a JSON null" unmarshal_state data.

Definition SaveProtocolSession (session : ProtocolSessionState) (b : BadgerPersistence) : res BadgerPersistence :=
  _ ← opened b;
  data ← wrap "failed to marshal ProtocolSessionState" (marshal_session session);
  Update b [(full keyPrefixSession print_d (ps_SessionTimestamp session), Some data)].

Definition LoadProtocolSession (sessionTimestamp : Z) (b : BadgerPersistence) : res (option ProtocolSessionState) :=
  _ ← opened b;
  data ← wrap "failed to load ProtocolSessionState" (db_get (full keyPrefixSession print_d sessionTimestamp) (db b));
  decode_found "failed to unmarshal ProtocolSessionState" "stored ProtocolSessionState at key %q is a JSON null" unmarshal_session data.

Definition DeleteProtocolSession (sessionTimestamp : Z) (b : BadgerPersistence) : res BadgerPersistence :=
  _ ← opened b;
  Update b [(full keyPrefixSession print_d sessionTimestamp, None)].

Definition ListProtocolSessions (b : BadgerPersistence) : res (list ProtocolSessionState) :=
  _ ← opened b;
  items ← wrap "failed to list ProtocolSessionStates" (db_iterate keyPrefixSession (db b));
  Ok (omap (M := list) (decoded unmarshal_session) items).

(** The record and the pointer to it are written in one transaction. *)
Definition SaveBlockRecord (record : BlockRecord) (b : BadgerPersistence) : res BadgerPersistence :=
  _ ← opened b;
  data ← wrap "failed to marshal BlockRecord" (marshal_block record);
  Update b [(full keyPrefixBlockRecord print_pair (br_ChainId record, br_Number record), Some data);
            (full keyPrefixLastBlock print_d (br_ChainId record), Some (put_uint64 (br_Number record)))].

Definition getBlockRecordLocked (chainId blockNumber : Z) (b : BadgerPersistence) : res (option BlockRecord) :=
  data ← wrap "failed to load BlockRecord" (db_get (full keyPrefixBlockRecord print_pair (chainId, blockNumber)) (db b));
  decode_found "failed to unmarshal BlockRecord" "stored BlockRecord at key %q is a JSON null" unmarshal_block data.

Definition GetLastProcessedBlockRecord (chainId : Z) (b : BadgerPersistence) : res (option BlockRecord) :=
  _ ← opened b;
  blockNumber ← wrap "failed to get last processed block"
    (item ← db_get (full keyPrefixLastBlock print_d chainId) (db b);
     match item with None => Ok None | Some val => decode_number val end);
  match blockNumber with
  | None => Ok None
  | Some blockNumber => getBlockRecordLocked chainId blockNumber b
  end.

Definition GetBlockRecord (chainId blockNumber : Z) (b : BadgerPersistence) : res (option BlockRecord) :=
  _ ← opened b; getBlockRecordLocked chainId blockNumber b.

Definition DeleteBlockRecord (chainId blockNumber : Z) (b : BadgerPersistence) : res BadgerPersistence :=
  _ ← opened b; Update b [(full keyPrefixBlockRecord print_pair (chainId, blockNumber), None)].

(** The store is closed even when the database reports an error. *)
Definition Close (b : BadgerPersistence) : BadgerPersistence * res unit :=
  if b_closed b then (b, Ok tt)
  else (mkBadger (db b) true, wrap "failed to close badger database" (db_close (db b))).

Definition HealthCheck (b : BadgerPersistence) : res unit :=
  _ ← opened b;
  item ← db_get keySchemaVersion (db b);
  _ ← from_opt "schema version not found - database may be corrupted" item;
  Ok tt.

Definition badger_do (o : op Fr) (b : BadgerPersistence) : BadgerPersistence * res (answer Fr) :=
  match o with
  | OpSaveKey v => writing b (SaveKeyShareVersion v b)
  | OpLoadKey t => reading b AKey (LoadKeyShareVersion t b)
  | OpListKeys => reading b AKeys (ListKeyShareVersions b)
  | OpDeleteKey t => writing b (DeleteKeyShareVersion t b)
  | OpPoison t => writing b (AddPoisonedVersion t b)
  | OpListPoisoned => reading b APoisoned (ListPoisonedVersions b)
  | OpSetActive t => writing b (SetActiveVersionTimestamp t b)
  | OpGetActive => reading b AActive (GetActiveVersionTimestamp b)
  | OpSaveState s => writing b (SaveNodeState s b)
  | OpLoadState => reading b AState (LoadNodeState b)
  | OpSaveSession s => writing b (SaveProtocolSession s b)
  | OpLoadSession t => reading b ASession (LoadProtocolSession t b)
  | OpDeleteSession t => writing b (DeleteProtocolSession t b)
  | OpListSessions => reading b ASessions (ListProtocolSessions b)
  | OpSaveBlock r => writing b (SaveBlockRecord r b)
  | OpLastBlock c => reading b ABlock (GetLastProcessedBlockRecord c b)
  | OpGetBlock c n => reading b ABlock (GetBlockRecord c n b)
  | OpDeleteBlock c n => writing b (DeleteBlockRecord c n b)
  | OpClose => ((Close b).1, Ok (AClosed (Close b).2))
  | OpHealth => reading b (fun _ => Done) (HealthCheck b)
  end.
End Badger.
Arguments BadgerPersistence DB : clear implicits.

#[export] Instance badger_persistence {Fr DB} `{JsonStore Fr} `{BadgerDB DB} : INodePersistence Fr (BadgerPersistence DB) := {
  Persistence.SaveKeyShareVersion := SaveKeyShareVersion; Persistence.LoadKeyShareVersion := LoadKeyShareVersion;
  Persistence.ListKeyShareVersions := ListKeyShareVersions; Persistence.DeleteKeyShareVersion := DeleteKeyShareVersion;
  Persistence.AddPoisonedVersion := AddPoisonedVersion; Persistence.ListPoisonedVersions := ListPoisonedVersions;
  Persistence.SetActiveVersionTimestamp := SetActiveVersionTimestamp; Persistence.GetActiveVersionTimestamp := GetActiveVersionTimestamp;
  Persistence.SaveNodeState := SaveNodeState; Persistence.LoadNodeState := LoadNodeState;
  Persistence.SaveProtocolSession := SaveProtocolSession; Persistence.LoadProtocolSession := LoadProtocolSession;
  Persistence.DeleteProtocolSession := DeleteProtocolSession; Persistence.ListProtocolSessions := ListProtocolSessions
}.

(** ** Refinement of the in-memory store *)

Section Refinement.
Context {Fr DB : Type} `{JsonStoreLaws Fr} `{BadgerLaws DB}.
Implicit Types (b : BadgerPersistence DB) (m : Memory.MemoryPersistence Fr).

Definition marker (d : bytes) : res (option unit) := Ok (Some tt).

(** The keys have no stem; a poisoned version is a key. *)
Record refines b m : Prop := {
  ref_closed : b_closed b = Memory.closed m;
  ref_holds : holds [] (contents (db b)) m;
  ref_poisoned : keyed keyPrefixPoisoned print_d is_int64 marker (contents (db b)) (gset_to_gmap tt (Memory.poisoned m))
}.

Lemma opened_ok b (u : unit) : opened b = Ok u <-> b_closed b = false.
Proof. unfold opened. rewrite fail_if_ok. done. Qed.

Lemma Update_ok b ws b' : Update b ws = Ok b' -> b_closed b' = b_closed b /\ contents (db b') = foldl apply_write (contents (db b)) ws.
Proof. unfold Update. intros (d & Hd%db_update_contents & [= <-])%res_bind_ok. done. Qed.

Lemma refines_open b m {A} (k : res A) : refines b m -> b_closed b = false -> Memory.open m k = k.
Proof. intros [Hc _ _] Hb. unfold Memory.open. by rewrite <- Hc, Hb. Qed.

Lemma poisoned_other C M key o : head keyPrefixPoisoned <> head key -> keyed keyPrefixPoisoned print_d is_int64 marker C M ->
  keyed keyPrefixPoisoned print_d is_int64 marker (apply_write C (key, o)) M.
Proof. intros Hh HC. by apply (keyed_write_other [] keyPrefixPoisoned). Qed.

(** A write keeps the poisoned keys unless it is one. *)
Lemma refines_write b m b' ws m' : Update b ws = Ok b' -> refines b m -> Memory.closed m' = Memory.closed m -> Memory.poisoned m' = Memory.poisoned m ->
  Forall (fun w => head keyPrefixPoisoned <> head w.1) ws -> holds [] (foldl apply_write (contents (db b)) ws) m' -> refines b' m'.
Proof.
  intros [Hc HC]%Update_ok [Hcl _ Hp] Hm' Hp' Hws Hh. split; [by rewrite Hc, Hm'|by rewrite HC|]. rewrite HC, Hp'. clear HC Hh.
  generalize dependent (contents (db b)). induction Hws as [|[key o] ws Hw Hws IH]; intros C HC; [done|]. cbn [foldl]. by apply IH, poisoned_other.
Qed.

(** *** Reads *)

Lemma sim_load_key b m t x : refines b m -> is_int64 t -> LoadKeyShareVersion t b = Ok x -> Memory.LoadKeyShareVersion t m = Ok x.
Proof.
  intros HR Ht ([] & Ho%opened_ok & (d & ->%wrap_ok%db_get_contents & Hx)%res_bind_ok)%res_bind_ok.
  unfold Memory.LoadKeyShareVersion. rewrite (refines_open b), <- Hx by done. symmetry. by apply (found_key []); [apply HR|].
Qed.

Lemma sim_list_keys b m l : refines b m -> ListKeyShareVersions b = Ok l -> Memory.ListKeyShareVersions m = Ok l.
Proof.
  intros HR ([] & Ho%opened_ok & (items & Hi%wrap_ok%db_iterate_contents & [= <-])%res_bind_ok)%res_bind_ok.
  unfold Memory.ListKeyShareVersions. rewrite (refines_open b) by done. destruct HR as [_ [] _]. f_equal. symmetry. apply memory_list; [done|].
  by eapply (keyed_values _ print_d is_int64 unmarshal_key print_d_inj_int64).
Qed.

Lemma sim_list_poisoned b m l : refines b m -> ListPoisonedVersions b = Ok l -> exists l', Memory.ListPoisonedVersions m = Ok l' /\ l ≡ₚ l'.
Proof.
  intros HR ([] & Ho%opened_ok & (items & Hi%wrap_ok%db_iterate_contents & [= <-])%res_bind_ok)%res_bind_ok.
  unfold Memory.ListPoisonedVersions. rewrite (refines_open b) by done. eexists. split; [done|]. destruct HR as [_ _ Hpois].
  rewrite (keyed_list _ _ _ _ print_d_inj_int64 _ _ items Hpois Hi).
  etrans; [|apply NoDup_Permutation; [apply (NoDup_fst_map_to_list (gset_to_gmap tt (Memory.poisoned m)))|apply NoDup_elements|]].
  - assert (Hin : Forall (fun kv => is_int64 kv.1) (map_to_list (gset_to_gmap tt (Memory.poisoned m)))).
    { apply Forall_forall. intros [k v] Hk%elem_of_map_to_list. by apply (keyed_some _ _ _ _ _ _ Hpois) in Hk as [Hk _]. }
    induction Hin as [|[k v] kvs Hk Hin IH]; [done|]. cbn [fmap list_fmap omap list_omap fst snd] in *.
    unfold poisoned_key at 1. cbn [fst]. unfold full. rewrite drop_app_length, Atoi_print_d by done. by rewrite IH.
  - intros t. rewrite elem_of_elements, elem_of_keys, lookup_gset_to_gmap. unfold is_Some. split.
    + intros [u Hu]. by apply option_guard_Some in Hu as [Hin _] || (revert Hu; case_guard; done).
    + intros Hin. exists tt. rewrite option_guard_True by done. done.
Qed.

Lemma sim_get_active b m t : refines b m -> GetActiveVersionTimestamp b = Ok t -> Memory.GetActiveVersionTimestamp m = Ok t.
Proof.
  intros HR ([] & Ho%opened_ok & (item & ->%db_get_contents & Ht)%wrap_ok%res_bind_ok)%res_bind_ok.
  unfold Memory.GetActiveVersionTimestamp. rewrite (refines_open b), <- Ht by done. symmetry. by apply (found_active []), HR.
Qed.

Lemma sim_load_state b m s : refines b m -> LoadNodeState b = Ok s -> Memory.LoadNodeState m = Ok s.
Proof.
  intros HR ([] & Ho%opened_ok & (d & ->%wrap_ok%db_get_contents & Hs)%res_bind_ok)%res_bind_ok.
  unfold Memory.LoadNodeState. rewrite (refines_open b), <- Hs by done. symmetry. etrans; [by apply (found_state []), HR|].
  cbv zeta. by destruct (Memory.nodeState m).
Qed.

Lemma sim_load_session b m t x : refines b m -> is_int64 t -> LoadProtocolSession t b = Ok x -> Memory.LoadProtocolSession t m = Ok x.
Proof.
  intros HR Ht ([] & Ho%opened_ok & (d & ->%wrap_ok%db_get_contents & Hx)%res_bind_ok)%res_bind_ok.
  unfold Memory.LoadProtocolSession. rewrite (refines_open b), <- Hx by done. symmetry. by apply (found_session []); [apply HR|].
Qed.

Lemma sim_list_sessions b m l : refines b m -> ListProtocolSessions b = Ok l -> exists l', Memory.ListProtocolSessions m = Ok l' /\ l ≡ₚ l'.
Proof.
  intros HR ([] & Ho%opened_ok & (items & Hi%wrap_ok%db_iterate_contents & [= <-])%res_bind_ok)%res_bind_ok.
  unfold Memory.ListProtocolSessions. rewrite (refines_open b), memory_sessions by done. destruct HR as [_ [] _]. eexists. split; [done|].
  by eapply (keyed_values _ print_d is_int64 unmarshal_session print_d_inj_int64).
Qed.

Lemma sim_block b m c n x : refines b m -> is_uint64 c -> is_uint64 n -> getBlockRecordLocked c n b = Ok x ->
  Ok x = Ok (Memory.deepCopyBlockRecord <$> Memory.blockRecords m !! (c, n)).
Proof.
  intros HR Hc Hn (d & ->%wrap_ok%db_get_contents & Hx)%res_bind_ok. rewrite <- Hx. by apply (found_block []); [apply HR|..].
Qed.

Lemma sim_get_block b m c n x : refines b m -> is_uint64 c -> is_uint64 n -> GetBlockRecord c n b = Ok x -> Memory.GetBlockRecord c n m = Ok x.
Proof.
  intros HR Hc Hn ([] & Ho%opened_ok & Hx)%res_bind_ok. unfold Memory.GetBlockRecord. rewrite (refines_open b) by done.
  symmetry. by apply sim_block with (b := b).
Qed.

Lemma sim_last_block b m c x : refines b m -> is_uint64 c -> GetLastProcessedBlockRecord c b = Ok x -> Memory.GetLastProcessedBlockRecord c m = Ok x.
Proof.
  intros HR Hc ([] & Ho%opened_ok & (num & (item & ->%db_get_contents & Hn)%wrap_ok%res_bind_ok & Hx)%res_bind_ok)%res_bind_ok.
  unfold Memory.GetLastProcessedBlockRecord. rewrite (refines_open b) by done.
  pose proof (eq_trans (eq_sym Hn) (found_last [] _ m c (ref_holds _ _ HR) Hc)) as [= ->].
  destruct (Memory.lastProcessedBlocks m !! c) as [n|] eqn:Hl; [|done]. symmetry. eapply sim_block; [done|done| |done].
  by eapply (holds_numbers [] _ m (ref_holds _ _ HR)).
Qed.

(** *** Writes *)

Ltac write b := rewrite (refines_open b) by done; eexists; split; [done|]; eapply refines_write; [done|done|done|done|by repeat constructor|].

Lemma sim_save_key b m v b' : is_int64 (Version v) -> refines b m -> SaveKeyShareVersion v b = Ok b' ->
  exists m', Memory.SaveKeyShareVersion v m = Ok m' /\ refines b' m'.
Proof.
  intros Hv HR ([] & Ho%opened_ok & (d & Hd%wrap_ok & Hu)%res_bind_ok)%res_bind_ok. unfold Memory.SaveKeyShareVersion.
  rewrite Memory.deepCopyKeyShareVersion_id. write b. apply (holds_save_key []); [apply HR|done|by eapply unmarshal_marshal_key].
Qed.

Lemma sim_delete_key b m t b' : is_int64 t -> refines b m -> DeleteKeyShareVersion t b = Ok b' ->
  exists m', Memory.DeleteKeyShareVersion t m = Ok m' /\ refines b' m'.
Proof. intros Ht HR ([] & Ho%opened_ok & Hu)%res_bind_ok. unfold Memory.DeleteKeyShareVersion. write b. apply (holds_delete_key []); [apply HR|done]. Qed.

Lemma sim_poison b m t b' : is_int64 t -> refines b m -> AddPoisonedVersion t b = Ok b' ->
  exists m', Memory.AddPoisonedVersion t m = Ok m' /\ refines b' m'.
Proof.
  intros Ht HR ([] & Ho%opened_ok & [Hc HC]%Update_ok)%res_bind_ok. unfold Memory.AddPoisonedVersion. rewrite (refines_open b) by done.
  eexists. split; [done|]. destruct HR as [Hcl Hh Hp]. cbn [foldl] in HC. split; cbn; rewrite ?HC; [by rewrite Hc|..].
  - apply (holds_same [] _ m); [done..|]. apply holds_other; [|done]. change (tag [] _) with (head keyPrefixPoisoned). by_compute.
  - rewrite gset_to_gmap_union_singleton. apply keyed_set; [apply print_d_inj_int64|done..].
Qed.

Lemma sim_set_active b m t b' : is_int64 t -> refines b m -> SetActiveVersionTimestamp t b = Ok b' ->
  exists m', Memory.SetActiveVersionTimestamp t m = Ok m' /\ refines b' m'.
Proof. intros Ht HR ([] & Ho%opened_ok & Hu)%res_bind_ok. unfold Memory.SetActiveVersionTimestamp. write b. apply (holds_set_active []); [apply HR|done]. Qed.

Lemma sim_save_state b m s b' : state_ok s -> refines b m -> SaveNodeState s b = Ok b' ->
  exists m', Memory.SaveNodeState s m = Ok m' /\ refines b' m'.
Proof.
  intros Hs HR ([] & Ho%opened_ok & (d & Hd%wrap_ok & Hu)%res_bind_ok)%res_bind_ok. unfold Memory.SaveNodeState.
  replace (mkNodeState _ _ _ _ _ _) with s by (by destruct s). write b. apply (holds_save_state []); [apply HR|done|by eapply unmarshal_marshal_state].
Qed.

Lemma sim_save_session b m s b' : session_ok s -> refines b m -> SaveProtocolSession s b = Ok b' ->
  exists m', Memory.SaveProtocolSession s m = Ok m' /\ refines b' m'.
Proof.
  intros Hs HR ([] & Ho%opened_ok & (d & Hd%wrap_ok & Hu)%res_bind_ok)%res_bind_ok. unfold Memory.SaveProtocolSession.
  rewrite deepCopyProtocolSessionState_id. write b. apply (holds_save_session []); [apply HR|by destruct Hs|by eapply unmarshal_marshal_session].
Qed.

Lemma sim_delete_session b m t b' : is_int64 t -> refines b m -> DeleteProtocolSession t b = Ok b' ->
  exists m', Memory.DeleteProtocolSession t m = Ok m' /\ refines b' m'.
Proof. intros Ht HR ([] & Ho%opened_ok & Hu)%res_bind_ok. unfold Memory.DeleteProtocolSession. write b. apply (holds_delete_session []); [apply HR|done]. Qed.

Lemma sim_save_block b m r b' : block_ok r -> refines b m -> SaveBlockRecord r b = Ok b' ->
  exists m', Memory.SaveBlockRecord r m = Ok m' /\ refines b' m'.
Proof.
  intros Hr HR ([] & Ho%opened_ok & (d & Hd%wrap_ok & Hu)%res_bind_ok)%res_bind_ok. unfold Memory.SaveBlockRecord.
  rewrite deepCopyBlockRecord_id. write b. apply (holds_save_block []); [apply HR|done|by eapply unmarshal_marshal_block].
Qed.

Lemma sim_delete_block b m c n b' : is_uint64 c -> is_uint64 n -> refines b m -> DeleteBlockRecord c n b = Ok b' ->
  exists m', Memory.DeleteBlockRecord c n m = Ok m' /\ refines b' m'.
Proof. intros Hc Hn HR ([] & Ho%opened_ok & Hu)%res_bind_ok. unfold Memory.DeleteBlockRecord. write b. apply (holds_delete_block []); [apply HR|done|done]. Qed.

Lemma sim_close b m : refines b m -> exists m', Memory.Close m = Ok m' /\ refines (Close b).1 m'.
Proof.
  intros [Hc HC Hp]. eexists. split; [done|]. unfold Close. destruct (b_closed b) eqn:Hb; cbn [fst]; by split; [..|by apply (holds_same [] _ m)|].
Qed.


Lemma badger_step o b m : op_ok o -> refines b m -> matches refines (badger_do o b) m (memory_do o m).
Proof.
  intros Hok HR. destruct o; cbn [badger_do memory_do op_ok] in *;
    try (apply step_write; [done|]; intros b1 Hb); try (apply step_read; [done|]; intros x Hx).
  - by eapply sim_save_key.
  - exists x. split; [by eapply sim_load_key|done].
  - exists x. split; [by eapply sim_list_keys|done].
  - by eapply sim_delete_key.
  - by eapply sim_poison.
  - by eapply sim_list_poisoned.
  - by eapply sim_set_active.
  - exists x. split; [by eapply sim_get_active|done].
  - by eapply sim_save_state.
  - exists x. split; [by eapply sim_load_state|done].
  - by eapply sim_save_session.
  - exists x. split; [by eapply sim_load_session|done].
  - by eapply sim_delete_session.
  - by eapply sim_list_sessions.
  - by eapply sim_save_block.
  - exists x. split; [by eapply sim_last_block|done].
  - destruct Hok. exists x. split; [by eapply sim_get_block|done].
  - destruct Hok. by eapply sim_delete_block.
  - destruct (sim_close b m HR) as (m' & Hm & HR'). rewrite Hm. by exists (AClosed (Ok tt)).
  - exists tt. split; [|done]. revert Hx. intros ([] & Ho%opened_ok & _)%res_bind_ok. unfold Memory.HealthCheck. by apply (refines_open b).
Qed.

(** *** Availability *)

Definition reliable : Prop :=
  (forall k d, is_ok (db_get k d) = true) /\ (forall ws (d : DB), is_ok (db_update ws d) = true) /\ (forall pre (d : DB), is_ok (db_iterate pre d) = true) /\
  (forall v : KeyShareVersion Fr, is_ok (marshal_key v) = true) /\ (forall s, is_ok (marshal_state s) = true) /\
  (forall s, is_ok (marshal_session s) = true) /\ (forall r, is_ok (marshal_block r) = true).

Lemma closed_store o b m : b_closed b = Memory.closed m -> Memory.closed m = true -> is_ok (badger_do o b).2 = is_ok (memory_do o m).2.
Proof. destruct b as [d c], m as [ks av ns ss br lp ps cl]. cbn. intros -> ->. by destruct o. Qed.

Lemma get_found {A} k b msg (f : option bytes -> res A) : reliable -> is_ok (f (contents (db b) !! k)) = true ->
  is_ok (data ← wrap msg (db_get k (db b)); f data) = true.
Proof. intros (Hget & _) Hf. apply is_ok_bind; [by rewrite is_ok_wrap|]. by intros d ->%wrap_ok%db_get_contents. Qed.

Lemma update_available b ws : reliable -> is_ok (Update b ws) = true.
Proof. intros (_ & Hup & _). apply is_ok_bind; [apply Hup|done]. Qed.

Lemma block_available b m c n : reliable -> refines b m -> is_uint64 c -> is_uint64 n -> is_ok (getBlockRecordLocked c n b) = true.
Proof. intros Hrel HR Hc Hn. apply get_found; [done|]. exact (f_equal is_ok (found_block [] _ m c n _ _ (ref_holds _ _ HR) Hc Hn)). Qed.

Lemma last_available b m c : reliable -> refines b m -> is_uint64 c -> b_closed b = false -> is_ok (GetLastProcessedBlockRecord c b) = true.
Proof.
  intros Hrel HR Hc Hb. pose proof Hrel as (Hget & _). pose proof (ref_holds _ _ HR) as HC. pose proof (found_last [] _ m c HC Hc) as Hf.
  unfold GetLastProcessedBlockRecord, opened. rewrite Hb. cbn [fail_if mbind res_bind]. apply is_ok_bind.
  - rewrite is_ok_wrap. apply is_ok_bind; [apply Hget|]. intros item ->%db_get_contents. exact (f_equal is_ok Hf).
  - intros num (item & ->%db_get_contents & Hn)%wrap_ok%res_bind_ok. pose proof (eq_trans (eq_sym Hn) Hf) as [= ->].
    destruct (Memory.lastProcessedBlocks m !! c) as [n|] eqn:Hl; [|done]. eapply block_available; [done|done|done|]. by eapply (holds_numbers [] _ m HC).
Qed.

Lemma badger_available o b m : reliable -> op_ok o -> refines b m -> is_ok (badger_do o b).2 = is_ok (memory_do o m).2.
Proof.
  intros Hrel Hok HR. destruct (Memory.closed m) eqn:Hm; [by apply closed_store; [apply HR|]|]. rewrite memory_available by done.
  assert (Hb : b_closed b = false) by (destruct HR; congruence). pose proof Hrel as (Hget & Hup & Hit & Hk & Hst & Hse & Hbl).
  assert (Ho : opened b = Ok tt) by (unfold opened; by rewrite Hb). pose proof (ref_holds _ _ HR) as HC.
  destruct o; cbn [badger_do op_ok] in *; rewrite ?writing_ok, ?reading_ok;
    unfold SaveKeyShareVersion, LoadKeyShareVersion, ListKeyShareVersions, DeleteKeyShareVersion, AddPoisonedVersion, ListPoisonedVersions,
      SetActiveVersionTimestamp, GetActiveVersionTimestamp, SaveNodeState, LoadNodeState, SaveProtocolSession, LoadProtocolSession,
      DeleteProtocolSession, ListProtocolSessions, SaveBlockRecord, GetBlockRecord, DeleteBlockRecord, HealthCheck;
    rewrite ?Ho; cbn [mbind res_bind];
    try (by apply update_available);
    try (by apply is_ok_bind; [rewrite is_ok_wrap; auto|intros; by apply update_available]);
    try (by apply is_ok_bind; [rewrite is_ok_wrap; auto|]).
  - apply get_found; [done|]. exact (f_equal is_ok (found_key [] _ m t _ _ HC Hok)).
  - rewrite is_ok_wrap. apply is_ok_bind; [apply Hget|]. intros item ->%db_get_contents. exact (f_equal is_ok (found_active [] _ m HC)).
  - apply get_found; [done|]. etrans; [exact (f_equal is_ok (found_state [] _ m _ _ HC))|]. cbv zeta. by case_match.
  - apply get_found; [done|]. exact (f_equal is_ok (found_session [] _ m t _ _ HC Hok)).
  - by eapply last_available.
  - destruct Hok. by eapply block_available.
  - done.
  - apply is_ok_bind; [apply Hget|]. intros item ->%db_get_contents. destruct (holds_schema [] _ m HC) as [d Hd].
    change (contents (db b) !! keySchemaVersion = Some d) in Hd. by rewrite Hd.
Qed.

(** ** The theorem *)

Lemma new_contents (d : DB) b : NewBadgerPersistence (Ok d) = Ok b -> b_closed b = false /\
  contents (db b) = (if bool_decide (is_Some (contents d !! keySchemaVersion)) then contents d else apply_write (contents d) (keySchemaVersion, Some currentSchemaVersion)).
Proof.
  intros Hn. unfold NewBadgerPersistence in Hn. cbn [wrap mbind res_bind] in Hn. apply res_bind_ok in Hn as (d' & Hi%wrap_ok & [= <-]). split; [done|]. cbn [db].
  unfold initSchema in Hi. apply res_bind_ok in Hi as (item & ->%wrap_ok%db_get_contents & Hi). destruct (contents d !! keySchemaVersion) as [v|] eqn:Hv.
  - rewrite bool_decide_true by done. by apply fail_if_bind in Hi as [_ [= <-]].
  - rewrite bool_decide_false by (by intros []). by apply db_update_contents in Hi.
Qed.

Lemma new_fresh (d : DB) b : contents d = ∅ -> NewBadgerPersistence (Ok d) = Ok b -> refines b Memory.NewMemoryPersistence.
Proof.
  intros Hd [Hc HC]%new_contents. rewrite Hd, bool_decide_false in HC by (rewrite lookup_empty; by intros []). split; [done| |]; rewrite HC.
  - apply holds_fresh.
  - cbn [Memory.poisoned Memory.NewMemoryPersistence]. rewrite gset_to_gmap_empty. apply poisoned_other; [done|]. by apply keyed_empty.
Qed.

Lemma new_reopened b m b' : refines b m -> NewBadgerPersistence (Ok (db b)) = Ok b' -> refines b' (reopened m).
Proof.
  intros [_ Hh Hp] [Hc HC]%new_contents. rewrite bool_decide_true in HC by apply (holds_schema [] _ m Hh). split; [done| |by rewrite HC].
  rewrite HC. by apply (holds_same [] _ m).
Qed.

(** C34: The Badger store implements the in-memory one.  Whatever the program does with a
    store opened on an empty database, the operations that succeeded returned what the
    in-memory store returns when it runs them; if no call of the database or the encoder
    fails, the same operations succeed; and after a restart, in the middle of the program or
    after a close, the store goes on where it was.  The arguments are those the Go types
    admit (numbers of 64 bits), their texts, as those of the node, are plain ASCII, and a
    saved node state names an operator or a boundary. *)
Theorem badger_refines_memory (d : DB) b ops : contents d = ∅ -> NewBadgerPersistence (Ok d) = Ok b -> Forall op_ok ops ->
  let '(log, b') := run badger_do ops b in
  let '(log', m') := run memory_do log.*1 Memory.NewMemoryPersistence in
  agree log log' /\
  (reliable -> log.*1 = (run memory_do ops Memory.NewMemoryPersistence).1.*1) /\
  (forall b2 ops2, NewBadgerPersistence (Ok (db b')) = Ok b2 -> Forall op_ok ops2 ->
     agree (run badger_do ops2 b2).1 (run memory_do (run badger_do ops2 b2).1.*1 (reopened m')).1).
Proof.
  intros Hd Hn Hok. pose proof (new_fresh d b Hd Hn) as HR.
  destruct (run_simulates badger_do memory_do refines badger_step ops b Memory.NewMemoryPersistence Hok HR) as (log' & m' & Hrun & HR' & Hlog).
  pose proof (fun Hrel => run_same_ops badger_do memory_do refines badger_step ops b _ (fun o b m => badger_available o b m Hrel) memory_failed Hok HR) as Hav.
  destruct (run badger_do ops b) as [log b']. cbn [fst snd] in *. rewrite Hrun. split_and!; [done|done|].
  intros b2 ops2 Hn2 Hok2. pose proof (new_reopened b' m' b2 HR' Hn2) as HR2.
  destruct (run_simulates badger_do memory_do refines badger_step ops2 b2 _ Hok2 HR2) as (log2 & m2 & Hrun2 & _ & Hlog2). by rewrite Hrun2.
Qed.
End Refinement.

(** ** Witness: a map as the database *)

#[local] Instance map_db : BadgerDB contents_map := {
  db_get k d := Ok (d !! k);
  db_update ws d := Ok (foldl apply_write d ws);
  db_iterate pre d := Ok (map_to_list (filter (fun kv => pre `prefix_of` kv.1) d));
  db_close _ := Ok tt }.
#[local] Instance map_db_laws : BadgerLaws (DB := contents_map).
Proof.
  refine {| contents d := d |}.
  - by intros k d o [= <-].
  - by intros ws d d' [= <-].
  - by intros pre d l [= <-].
Defined.

#[local] Existing Instances number_json number_json_laws.

Definition demo_badger : BadgerPersistence contents_map := mkBadger (apply_write ∅ (keySchemaVersion, Some currentSchemaVersion)) false.

Lemma badger_refines_memory_witness :
  agree (run badger_do demo_ops demo_badger).1 (run memory_do demo_ops Memory.NewMemoryPersistence).1 /\ length (run badger_do demo_ops demo_badger).1 = 14%nat.
Proof.
  pose proof (badger_refines_memory (Fr := Z) ∅ demo_badger demo_ops eq_refl eq_refl) as HT.
  specialize (HT demo_ops_ok). split; [|vm_compute; reflexivity].
  assert (Hall : (run badger_do demo_ops demo_badger).1.*1 = take 14 demo_ops) by (vm_compute; reflexivity).
  assert (Hmem : (run memory_do demo_ops Memory.NewMemoryPersistence) = run memory_do (take 14 demo_ops) Memory.NewMemoryPersistence) by (vm_compute; reflexivity).
  rewrite Hmem. destruct (run badger_do demo_ops demo_badger) as [log b']. cbn [fst] in *. rewrite <- Hall.
  destruct (run memory_do log.*1 Memory.NewMemoryPersistence) as [log' m']. exact (proj1 HT).
Defined.
