(* ===== verification/Redis.v ===== *)
(** * The Redis store: [pkg/persistence/redis/redis.go]

    The same interface over a Redis client.  Versions and sessions are listed through an
    index, a set of their printed keys, because Redis has no iteration by prefix; a value and
    its index entry are written by one pipeline.  The comments call a pipeline atomic, but the
    client's [Pipeline] only sends its commands together: when it fails, some of them may
    have been executed.  The theorems: with atomic pipelines the store implements the
    in-memory one; with pipelines as they are, a save that fails can leave a version that is
    loaded but not listed. *)

From S2P Require Import Prelude Bytes GoText Types Persistence Stores Layout.
From Stdlib Require Import Ascii.

Inductive cmd :=
| CSet (k : list ascii) (v : bytes)
| CDel (k : list ascii)
| CSAdd (k member : list ascii)
| CSRem (k member : list ascii).

(** [r_exec] runs a pipeline, or one command; [None] is [redis.Nil]. *)
Class RedisClient (DB : Type) := {
  r_get : list ascii -> DB -> res (option bytes);
  r_smembers : list ascii -> DB -> res (list (list ascii));
  r_mget : list (list ascii) -> DB -> res (list (option bytes));
  r_exec : list cmd -> DB -> DB * res unit;
  r_ping : DB -> res unit;
  r_close : DB -> res unit
}.

(** One command on the values and on the sets; a key holds one or the other. *)
Definition apply_value (C : contents_map) (c : cmd) : contents_map :=
  match c with CSet k v => apply_write C (k, Some v) | CDel k => apply_write C (k, None) | _ => C end.
Definition apply_member (M : list ascii -> gset (list ascii)) (c : cmd) (key : list ascii) : gset (list ascii) :=
  match c with
  | CSet k _ | CDel k => if decide (key = k) then ∅ else M key
  | CSAdd k x => if decide (key = k) then {[x]} ∪ M key else M key
  | CSRem k x => if decide (key = k) then M key ∖ {[x]} else M key
  end.

(** Commands are executed in order; of a pipeline that fails, some may have been. *)
Class RedisLaws {DB : Type} `{RedisClient DB} := {
  contents : DB -> contents_map;
  members : DB -> list ascii -> gset (list ascii);
  r_get_contents k db o : r_get k db = Ok o -> o = contents db !! k;
  r_smembers_members k db l : r_smembers k db = Ok l -> l ≡ₚ elements (members db k);
  r_mget_contents ks db l : r_mget ks db = Ok l -> l = (fun k => contents db !! k) <$> ks;
  r_exec_commands cs db : exists executed, executed `sublist_of` cs /\ ((r_exec cs db).2 = Ok tt -> executed = cs) /\
    contents (r_exec cs db).1 = foldl apply_value (contents db) executed /\
    forall k, members (r_exec cs db).1 k = foldl apply_member (members db) executed k
}.

Definition keyPrefixKeyShare : list ascii := chars_of "kms:keyshare:".
Definition keyPrefixActiveVersion : list ascii := chars_of "kms:active:version".
Definition keyPrefixNodeState : list ascii := chars_of "kms:nodestate:main".
Definition keyPrefixSession : list ascii := chars_of "kms:session:".
Definition keyPrefixBlockRecord : list ascii := chars_of "kms:blockRecord:".
Definition keyPrefixLastBlock : list ascii := chars_of "kms:lastBlock:".
Definition keySchemaVersion : list ascii := chars_of "kms:metadata:schema_version".
(** The bytes of [v1]. *)
Definition currentSchemaVersion : bytes := [118; 49].
Definition keySetKeyShares : list ascii := chars_of "kms:keyshares:index".
Definition keySetSessions : list ascii := chars_of "kms:sessions:index".
Definition keyPrefixPoisoned : list ascii := chars_of "kms:poisoned".

Section Redis.
Context {Fr DB : Type} `{JsonStore Fr} `{RedisClient DB}.

Record RedisPersistence := mkRedis { client : DB; keyPrefix : list ascii; r_closed : bool }.
Record RedisConfig := mkRedisConfig { Address : string; KeyPrefix : list ascii }.

Definition prefixed (keyPrefix key : list ascii) : list ascii := if bool_decide (keyPrefix = []) then key else (keyPrefix ++ key)%list.
Definition prefixKey (r : RedisPersistence) (key : list ascii) : list ascii := prefixed (keyPrefix r) key.

(** [r.client] after a command. *)
Definition with_client (d : DB) (r : RedisPersistence) : RedisPersistence := mkRedis d (keyPrefix r) (r_closed r).
Definition exec (r : RedisPersistence) (cs : list cmd) : RedisPersistence * res unit :=
  let '(d, e) := r_exec cs (client r) in (with_client d r, e).
Definition opened (r : RedisPersistence) : res unit := fail_if (r_closed r) "persistence layer is closed".
(** A write: what it needs, then its commands; its error is passed on with a message. *)
Definition save {A} (r : RedisPersistence) (prepare : res A) (cs : A -> list cmd) (msg : option string) : RedisPersistence * res unit :=
  match prepare with
  | Err e => (r, Err e)
  | Ok a => let '(r', e) := exec r (cs a) in (r', match msg with Some msg => wrap msg e | None => e end)
  end.

Definition initSchema (keyPrefix : list ascii) (d : DB) : DB * res unit :=
  let schemaKey := prefixed keyPrefix keySchemaVersion in
  match r_get schemaKey d with
  | Err e => (d, wrap "failed to read schema version" (Err e))
  | Ok None => r_exec [CSet schemaKey currentSchemaVersion] d
  | Ok (Some existingVersion) =>
      (d, fail_if (negb (bool_decide (existingVersion = currentSchemaVersion))) "unsupported schema version: %s (expected: %s)")
  end.

Definition NewRedisPersistence (cfg : option RedisConfig) (d : DB) : res RedisPersistence :=
  cfg ← from_opt "redis config cannot be nil" cfg;
  _ ← fail_if (bool_decide (Address cfg = ""%string)) "redis address cannot be empty";
  _ ← wrap "failed to connect to Redis at %s" (r_ping d);
  let '(d, e) := initSchema (KeyPrefix cfg) d in
  _ ← wrap "failed to initialize schema" e;
  Ok (mkRedis d (KeyPrefix cfg) false).

Definition SaveKeyShareVersion (version : KeyShareVersion Fr) (r : RedisPersistence) : RedisPersistence * res unit :=
  save r (_ ← opened r; wrap "failed to marshal KeyShareVersion" (marshal_key version))
    (fun data => [CSet (prefixKey r (full keyPrefixKeyShare print_d (Version version))) data;
                  CSAdd (prefixKey r keySetKeyShares) (print_d (Version version))])
    (Some "failed to save KeyShareVersion"%string).

Definition LoadKeyShareVersion (timestamp : Z) (r : RedisPersistence) : res (option (KeyShareVersion Fr)) :=
  _ ← opened r;
  data ← wrap "failed to load KeyShareVersion" (r_get (prefixKey r (full keyPrefixKeyShare print_d timestamp)) (client r));
  decode_found "failed to unmarshal KeyShareVersion" "stored KeyShareVersion at key %q is a JSON null" unmarshal_key data.

(** The values of an index: an entry without a value is removed from the index, whether or
    not that succeeds; a value that does not decode is skipped. *)
Definition parse_values {A} (unmarshal : bytes -> res (option A)) (indexKey : list ascii) (r : RedisPersistence)
    (entries : list (list ascii * option bytes)) : RedisPersistence * list A :=
  foldl (fun '(r, found) '(entry, val) =>
           match val with
           | None => ((exec r [CSRem indexKey entry]).1, found)
           | Some data => match unmarshal data with Ok (Some v) => (r, (found ++ [v])%list) | _ => (r, found) end
           end) (r, []) entries.

(** The tail of the two listings. *)
Definition list_index {A} (unmarshal : bytes -> res (option A)) (prefix indexKey : list ascii) (msg msg' : string) (r : RedisPersistence)
    : RedisPersistence * res (list A) :=
  match (_ ← opened r;
         epochs ← wrap msg (r_smembers indexKey (client r));
         if (length epochs =? 0)%nat then Ok [] else
         values ← wrap msg' (r_mget ((fun epoch => prefixKey r (prefix ++ epoch)%list) <$> epochs) (client r));
         Ok (zip epochs values)) with
  | Err e => (r, Err e)
  | Ok entries => let '(r, found) := parse_values unmarshal indexKey r entries in (r, Ok found)
  end.

Definition ListKeyShareVersions (r : RedisPersistence) : RedisPersistence * res (list (KeyShareVersion Fr)) :=
  let '(r', versions) := list_index unmarshal_key keyPrefixKeyShare (prefixKey r keySetKeyShares)
    "failed to list KeyShareVersion epochs" "failed to fetch KeyShareVersions" r in
  (r', go_sort (fun v w => Version v <? Version w) <$> versions).

Definition DeleteKeyShareVersion (timestamp : Z) (r : RedisPersistence) : RedisPersistence * res unit :=
  save r (opened r) (fun _ => [CDel (prefixKey r (full keyPrefixKeyShare print_d timestamp)); CSRem (prefixKey r keySetKeyShares) (print_d timestamp)]) None.

Definition AddPoisonedVersion (version : Z) (r : RedisPersistence) : RedisPersistence * res unit :=
  save r (opened r) (fun _ => [CSAdd (prefixKey r keyPrefixPoisoned) (print_d version)]) None.

Definition ListPoisonedVersions (r : RedisPersistence) : res (list Z) :=
  _ ← opened r;
  vals ← wrap "failed to list poisoned versions" (r_smembers (prefixKey r keyPrefixPoisoned) (client r));
  Ok (omap (M := list) Atoi vals).

Definition SetActiveVersionTimestamp (timestamp : Z) (r : RedisPersistence) : RedisPersistence * res unit :=
  save r (opened r) (fun _ => [CSet (prefixKey r keyPrefixActiveVersion) (put_uint64 timestamp)]) None.

Definition GetActiveVersionTimestamp (r : RedisPersistence) : res Z :=
  _ ← opened r;
  data ← wrap "failed to get active version timestamp" (r_get (prefixKey r keyPrefixActiveVersion) (client r));
  decode_active data.

Definition SaveNodeState (state : NodeState) (r : RedisPersistence) : RedisPersistence * res unit :=
  save r (_ ← opened r; wrap "failed to marshal NodeState" (marshal_state state)) (fun data => [CSet (prefixKey r keyPrefixNodeState) data]) None.

Definition LoadNodeState (r : RedisPersistence) : res (option NodeState) :=
  _ ← opened r;
  data ← wrap "failed to load NodeState" (r_get (prefixKey r keyPrefixNodeState) (client r));
  decode_found "failed to unmarshal NodeState" "stored NodeState at key %q is a JSON null" unmarshal_state data.

Definition SaveProtocolSession (session : ProtocolSessionState) (r : RedisPersistence) : RedisPersistence * res unit :=
  save r (_ ← opened r; wrap "failed to marshal ProtocolSessionState" (marshal_session session))
    (fun data => [CSet (prefixKey r (full keyPrefixSession print_d (ps_SessionTimestamp session))) data;
                  CSAdd (prefixKey r keySetSessions) (print_d (ps_SessionTimestamp session))])
    (Some "failed to save ProtocolSessionState"%string).

Definition LoadProtocolSession (sessionTimestamp : Z) (r : RedisPersistence) : res (option ProtocolSessionState) :=
  _ ← opened r;
  data ← wrap "failed to load ProtocolSessionState" (r_get (prefixKey r (full keyPrefixSession print_d sessionTimestamp)) (client r));
  decode_found "failed to unmarshal ProtocolSessionState" "stored ProtocolSessionState at key %q is a JSON null" unmarshal_session data.

Definition DeleteProtocolSession (sessionTimestamp : Z) (r : RedisPersistence) : RedisPersistence * res unit :=
  save r (opened r) (fun _ => [CDel (prefixKey r (full keyPrefixSession print_d sessionTimestamp)); CSRem (prefixKey r keySetSessions) (print_d sessionTimestamp)]) None.

Definition ListProtocolSessions (r : RedisPersistence) : RedisPersistence * res (list ProtocolSessionState) :=
  list_index unmarshal_session keyPrefixSession (prefixKey r keySetSessions)
    "failed to list ProtocolSession timestamps" "failed to fetch ProtocolSessionStates" r.

Definition SaveBlockRecord (record : BlockRecord) (r : RedisPersistence) : RedisPersistence * res unit :=
  save r (_ ← opened r; wrap "failed to marshal BlockRecord" (marshal_block record))
    (fun data => [CSet (prefixKey r (full keyPrefixBlockRecord print_pair (br_ChainId record, br_Number record))) data;
                  CSet (prefixKey r (full keyPrefixLastBlock print_d (br_ChainId record))) (put_uint64 (br_Number record))])
    (Some "failed to save BlockRecord"%string).

Definition getBlockRecord (chainId blockNumber : Z) (r : RedisPersistence) : res (option BlockRecord) :=
  data ← wrap "failed to load BlockRecord" (r_get (prefixKey r (full keyPrefixBlockRecord print_pair (chainId, blockNumber))) (client r));
  decode_found "failed to unmarshal BlockRecord" "stored BlockRecord at key %q is a JSON null" unmarshal_block data.

Definition GetLastProcessedBlockRecord (chainId : Z) (r : RedisPersistence) : res (option BlockRecord) :=
  _ ← opened r;
  data ← wrap "failed to get last processed block" (r_get (prefixKey r (full keyPrefixLastBlock print_d chainId)) (client r));
  blockNumber ← match data return res (option Z) with None => Ok None | Some val => decode_number val end;
  match blockNumber with
  | None => Ok None
  | Some blockNumber => getBlockRecord chainId blockNumber r
  end.

Definition GetBlockRecord (chainId blockNumber : Z) (r : RedisPersistence) : res (option BlockRecord) :=
  _ ← opened r; getBlockRecord chainId blockNumber r.

Definition DeleteBlockRecord (chainId blockNumber : Z) (r : RedisPersistence) : RedisPersistence * res unit :=
  save r (opened r) (fun _ => [CDel (prefixKey r (full keyPrefixBlockRecord print_pair (chainId, blockNumber)))]) None.

Definition Close (r : RedisPersistence) : RedisPersistence * res unit :=
  if r_closed r then (r, Ok tt)
  else (mkRedis (client r) (keyPrefix r) true, wrap "failed to close Redis client" (r_close (client r))).

Definition HealthCheck (r : RedisPersistence) : res unit :=
  _ ← opened r;
  _ ← wrap "redis health check failed" (r_ping (client r));
  item ← wrap "failed to verify schema version" (r_get (prefixKey r keySchemaVersion) (client r));
  _ ← from_opt "schema version not found - database may not be properly initialized" item;
  Ok tt.

(** A write and a listing, whose store may change even when they fail. *)
Definition after {A} (f : A -> answer Fr) (x : RedisPersistence * res A) : RedisPersistence * res (answer Fr) := (x.1, f <$> x.2).

Definition redis_do (o : op Fr) (r : RedisPersistence) : RedisPersistence * res (answer Fr) :=
  match o with
  | OpSaveKey v => after (fun _ => Done) (SaveKeyShareVersion v r)
  | OpLoadKey t => reading r AKey (LoadKeyShareVersion t r)
  | OpListKeys => after AKeys (ListKeyShareVersions r)
  | OpDeleteKey t => after (fun _ => Done) (DeleteKeyShareVersion t r)
  | OpPoison t => after (fun _ => Done) (AddPoisonedVersion t r)
  | OpListPoisoned => reading r APoisoned (ListPoisonedVersions r)
  | OpSetActive t => after (fun _ => Done) (SetActiveVersionTimestamp t r)
  | OpGetActive => reading r AActive (GetActiveVersionTimestamp r)
  | OpSaveState s => after (fun _ => Done) (SaveNodeState s r)
  | OpLoadState => reading r AState (LoadNodeState r)
  | OpSaveSession s => after (fun _ => Done) (SaveProtocolSession s r)
  | OpLoadSession t => reading r ASession (LoadProtocolSession t r)
  | OpDeleteSession t => after (fun _ => Done) (DeleteProtocolSession t r)
  | OpListSessions => after ASessions (ListProtocolSessions r)
  | OpSaveBlock b => after (fun _ => Done) (SaveBlockRecord b r)
  | OpLastBlock c => reading r ABlock (GetLastProcessedBlockRecord c r)
  | OpGetBlock c n => reading r ABlock (GetBlockRecord c n r)
  | OpDeleteBlock c n => after (fun _ => Done) (DeleteBlockRecord c n r)
  | OpClose => ((Close r).1, Ok (AClosed (Close r).2))
  | OpHealth => reading r (fun _ => Done) (HealthCheck r)
  end.
End Redis.
Arguments RedisPersistence DB : clear implicits.

(** ** Refinement of the in-memory store *)

Definition kms : list ascii := chars_of "kms:".
Definition stem {DB} (r : RedisPersistence DB) : list ascii := (keyPrefix r ++ kms)%list.
Definition key_index : list ascii := chars_of "keyshares:index".
Definition session_index : list ascii := chars_of "sessions:index".
Definition poisoned_set : list ascii := chars_of "poisoned".

Lemma prefixKey_tail {DB} (r : RedisPersistence DB) tail : prefixKey r (kms ++ tail) = (stem r ++ tail)%list.
Proof. unfold prefixKey, prefixed, stem. case_bool_decide as Hk; [by rewrite Hk|]. by rewrite app_assoc. Qed.

Lemma prefixKey_full {DB K} (r : RedisPersistence DB) tail (print : K -> list ascii) k :
  prefixKey r (full (kms ++ tail) print k) = full (stem r ++ tail) print k.
Proof. unfold full. rewrite <- !app_assoc. apply (prefixKey_tail r (tail ++ print k)). Qed.

Section Refinement.
Context {Fr DB : Type} `{JsonStoreLaws Fr} `{RedisLaws DB}.
Implicit Types (r : RedisPersistence DB) (m : Memory.MemoryPersistence Fr).

(** The set holds the printed keys of the map. *)
Definition listed {A : Type} (S : gset (list ascii)) (M : gmap Z A) : Prop := forall x, x ∈ S <-> exists t, is_Some (M !! t) /\ x = print_d t.

Record refines r m : Prop := {
  ref_closed : r_closed r = Memory.closed m;
  ref_holds : holds (stem r) (contents (client r)) m;
  ref_keys : listed (members (client r) (stem r ++ key_index)) (Memory.keyShares m);
  ref_sessions : listed (members (client r) (stem r ++ session_index)) (Memory.sessions m);
  ref_poisoned : listed (members (client r) (stem r ++ poisoned_set)) (gset_to_gmap tt (Memory.poisoned m));
  ref_poisoned_ok : forall t, t ∈ Memory.poisoned m -> is_int64 t
}.

(** What the comments say of a pipeline: all of it or nothing. *)
Definition atomic : Prop := forall cs (d : DB), (r_exec cs d).2 <> Ok tt ->
  contents (r_exec cs d).1 = contents d /\ forall k, members (r_exec cs d).1 k = members d k.

Lemma redis_opened_ok r (u : unit) : opened r = Ok u <-> r_closed r = false.
Proof. unfold opened. rewrite fail_if_ok. done. Qed.

Lemma redis_refines_open r m {A} (k : res A) : refines r m -> r_closed r = false -> Memory.open m k = k.
Proof. intros [Hc _ _ _ _ _] Hb. unfold Memory.open. by rewrite <- Hc, Hb. Qed.

Lemma refines_ext r m d : contents d = contents (client r) -> (forall k, members d k = members (client r) k) -> refines r m -> refines (with_client d r) m.
Proof. intros HC HM []. split; cbn [with_client client keyPrefix r_closed] in *; unfold stem in *; cbn [with_client keyPrefix]; rewrite ?HC, ?HM; done. Qed.

(** A write of the store and the write of the in-memory store. *)
Lemma save_step {A} r m (prepare : res A) cs msg (M : res (Memory.MemoryPersistence Fr)) : atomic -> refines r m ->
  (forall a d, prepare = Ok a -> contents d = foldl apply_value (contents (client r)) (cs a) ->
     (forall k, members d k = foldl apply_member (members (client r)) (cs a) k) -> exists m', M = Ok m' /\ refines (with_client d r) m') ->
  matches (Fr := Fr) refines (after (fun _ => Done) (save r prepare cs msg)) m (writing m M).
Proof.
  intros Hat HR Hs. unfold matches, save. destruct prepare as [a|e]; [|done]. unfold exec. pose proof (r_exec_commands (cs a) (client r)) as (done & _ & Hdone & HC & HM).
  pose proof (Hat (cs a) (client r)) as Hfail. destruct (r_exec (cs a) (client r)) as [d [[]|e]]; cbn [fst snd after] in *.
  - rewrite (Hdone eq_refl) in *. destruct (Hs a d eq_refl HC HM) as (m' & -> & HR'). destruct msg; by exists Done.
  - destruct Hfail as [HC' HM']; [done|]. destruct msg; cbn; by apply refines_ext.
Qed.

(** *** The sets *)

Lemma listed_insert {A : Type} S (M : gmap Z A) t v : listed S M -> listed ({[print_d t]} ∪ S) (<[t := v]> M).
Proof.
  intros HS x. rewrite elem_of_union, elem_of_singleton, (HS x). split.
  - intros [->|(t' & Ht' & ->)]; [exists t; by rewrite lookup_insert_eq|]. exists t'. split; [|done]. by apply lookup_insert_is_Some'; right.
  - intros (t' & Ht' & ->). apply lookup_insert_is_Some' in Ht' as [->|Ht']; [by left|right; eauto].
Qed.

Lemma listed_delete {A : Type} S (M : gmap Z A) t : (forall t' v, M !! t' = Some v -> is_int64 t') -> is_int64 t -> listed S M -> listed (S ∖ {[print_d t]}) (delete t M).
Proof.
  intros Hok Ht HS x. rewrite elem_of_difference, elem_of_singleton, (HS x). split.
  - intros [(t' & [v Hv] & ->) Hne]. exists t'. split; [|done]. rewrite lookup_delete_ne by (by intros ->). eauto.
  - intros (t' & [v [Hne Hv]%lookup_delete_Some] & ->). split; [eauto|]. intros Heq. apply Hne. symmetry. apply print_d_inj_int64; [by eapply Hok|done|done].
Qed.

Lemma listed_keys {A : Type} S (M : gmap Z A) l : (forall t v, M !! t = Some v -> is_int64 t) -> listed S M -> l ≡ₚ elements S -> l ≡ₚ print_d <$> (map_to_list M).*1.
Proof.
  intros Hok HS ->. apply NoDup_Permutation; [apply NoDup_elements| |].
  - apply NoDup_fmap_2_strong; [|apply NoDup_fst_map_to_list]. intros t t' [v Hv]%elem_of_keys [v' Hv']%elem_of_keys. apply print_d_inj_int64; by eapply Hok.
  - intros x. rewrite elem_of_elements, (HS x), list_elem_of_fmap. split.
    + intros (t & Ht & ->). exists t. split; [done|by apply elem_of_keys].
    + intros (t & -> & Ht%elem_of_keys). eauto.
Qed.

(** *** Listings *)

Lemma zip_fmap_self {A B} (f : A -> B) l : zip l (f <$> l) = (fun a => (a, f a)) <$> l.
Proof. induction l as [|a l IH]; [done|]. cbn [fmap list_fmap zip zip_with]. by rewrite <- IH. Qed.

Lemma parse_found {A} (unmarshal : bytes -> res (option A)) idx r entries found :
  Forall (fun e => exists d x, e.2 = Some d /\ unmarshal d = Ok (Some x)) entries ->
  foldl (fun '(r, found) '(entry, val) =>
           match val with
           | None => ((exec r [CSRem idx entry]).1, found)
           | Some data => match unmarshal data with Ok (Some v) => (r, (found ++ [v])%list) | _ => (r, found) end
           end) (r, found) entries =
  (r, (found ++ omap (fun e : list ascii * option bytes => d ← e.2; match unmarshal d with Ok (Some v) => Some v | _ => None end) entries)%list).
Proof.
  intros Hall. revert found. induction Hall as [|[e val] entries (d & x & Hd & Hx) Hall IH]; intros found; cbn [foldl omap list_omap]; [by rewrite app_nil_r|].
  cbn [snd] in Hd. subst val. cbn [snd mbind option_bind]. rewrite Hx, IH. by rewrite <- app_assoc.
Qed.

(** The index of [M] leads to the values of [M], and nothing is cleaned up. *)
Lemma list_index_sim {A : Type} (unmarshal : bytes -> res (option A)) tail idx msg msg' r (M : gmap Z A) :
  (forall t v, M !! t = Some v -> is_int64 t /\ exists d, contents (client r) !! full (stem r ++ tail) print_d t = Some d /\ unmarshal d = Ok (Some v)) ->
  listed (members (client r) idx) M ->
  let x := list_index unmarshal (kms ++ tail) idx msg msg' r in
  x.1 = r /\ forall l, x.2 = Ok l -> r_closed r = false /\ l ≡ₚ (map_to_list M).*2.
Proof.
  intros HM Hidx x. subst x. unfold list_index.
  destruct (_ ← opened r; _) as [entries|e] eqn:He; [|by split].
  apply res_bind_ok in He as ([] & Ho%redis_opened_ok & (epochs & Hep%wrap_ok%r_smembers_members & He)%res_bind_ok).
  assert (Hok : forall t v, M !! t = Some v -> is_int64 t) by (by intros t v [Hv _]%HM).
  pose proof (listed_keys _ M epochs Hok Hidx Hep) as Hperm.
  assert (Hent : entries = (fun e => (e, contents (client r) !! prefixKey r ((kms ++ tail) ++ e))) <$> epochs).
  { destruct epochs as [|e0 epochs0]; [by injection He as <-|]. cbn [length Nat.eqb] in He. apply res_bind_ok in He as (values & Hv%wrap_ok%r_mget_contents & Hz).
    rewrite Hv, <- list_fmap_compose, zip_fmap_self in Hz. by injection Hz as <-. }
  assert (Hkey : forall t, prefixKey r ((kms ++ tail) ++ print_d t) = full (stem r ++ tail) print_d t) by (intros t; apply (prefixKey_full r tail print_d t)).
  assert (Hall : Forall (fun e => exists d x, e.2 = Some d /\ unmarshal d = Ok (Some x)) entries).
  { rewrite Hent. apply Forall_fmap, Forall_forall. intros e. rewrite Hperm. intros (t & -> & [v Hv]%elem_of_keys)%list_elem_of_fmap.
    destruct (HM t v Hv) as (_ & d & Hd & Hx). exists d, v. cbn [snd]. by rewrite Hkey. }
  unfold parse_values. rewrite (parse_found unmarshal idx r entries [] Hall). split; [done|]. intros l [= <-]. split; [done|]. cbn [app].
  rewrite Hent, Hperm. clear Hall Hent Hperm Hep He.
  assert (Hin : Forall (fun kx => M !! kx.1 = Some kx.2) (map_to_list M)) by (apply Forall_forall; intros [k v]; apply elem_of_map_to_list).
  induction Hin as [|[t v] kxs Hv Hin IH]; [done|]. cbn [fmap list_fmap omap list_omap fst snd] in *.
  destruct (HM t v Hv) as (_ & d & Hd & Hx). rewrite Hkey, Hd. cbn [mbind option_bind]. rewrite Hx. by rewrite IH.
Qed.

Lemma redis_sim_list_keys r m : refines r m -> matches (Fr := Fr) refines (after AKeys (ListKeyShareVersions r)) m (reading m AKeys (Memory.ListKeyShareVersions m)).
Proof.
  intros HR. unfold matches, after, reading, ListKeyShareVersions. pose proof (ref_holds _ _ HR) as [].
  destruct (list_index_sim unmarshal_key key_tail (prefixKey r keySetKeyShares) "failed to list KeyShareVersion epochs" "failed to fetch KeyShareVersions" r _ (keyed_some _ _ _ _ _ _ holds_keys))
    as [Hr Hl]; [change keySetKeyShares with (kms ++ key_index)%list; rewrite prefixKey_tail; apply HR|].
  change (kms ++ key_tail)%list with keyPrefixKeyShare in *. destruct (list_index _ _ _ _ _ _) as [r' [l|e]]; cbn [fst snd] in *; subst r'; [|done].
  destruct (Hl l eq_refl) as [Hc Hp]. unfold Memory.ListKeyShareVersions. rewrite (redis_refines_open r) by done. cbn. eexists. split; [done|]. split; [|done].
  cbn. f_equal. by apply memory_list.
Qed.

Lemma redis_sim_list_sessions r m : refines r m -> matches (Fr := Fr) refines (after ASessions (ListProtocolSessions r)) m (reading m ASessions (Memory.ListProtocolSessions m)).
Proof.
  intros HR. unfold matches, after, reading, ListProtocolSessions. pose proof (ref_holds _ _ HR) as [].
  destruct (list_index_sim unmarshal_session session_tail (prefixKey r keySetSessions) "failed to list ProtocolSession timestamps" "failed to fetch ProtocolSessionStates" r _ (keyed_some _ _ _ _ _ _ holds_sessions))
    as [Hr Hl]; [change keySetSessions with (kms ++ session_index)%list; rewrite prefixKey_tail; apply HR|].
  change (kms ++ session_tail)%list with keyPrefixSession in *. destruct (list_index _ _ _ _ _ _) as [r' [l|e]]; cbn [fst snd] in *; subst r'; [|done].
  destruct (Hl l eq_refl) as [Hc Hp]. unfold Memory.ListProtocolSessions. rewrite (redis_refines_open r), memory_sessions by done. cbn. eexists. split; [done|]. by split.
Qed.

Lemma redis_sim_list_poisoned r m l : refines r m -> ListPoisonedVersions r = Ok l -> exists l', Memory.ListPoisonedVersions m = Ok l' /\ l ≡ₚ l'.
Proof.
  intros HR ([] & Ho%redis_opened_ok & (vals & Hv%wrap_ok%r_smembers_members & [= <-])%res_bind_ok)%res_bind_ok.
  unfold Memory.ListPoisonedVersions. rewrite (redis_refines_open r) by done. eexists. split; [done|].
  assert (Hok : forall t v, gset_to_gmap tt (Memory.poisoned m) !! t = Some v -> is_int64 t) by (intros t v [Hin _]%lookup_gset_to_gmap_Some; by apply (ref_poisoned_ok _ _ HR)).
  assert (Hset : prefixKey r keyPrefixPoisoned = (stem r ++ poisoned_set)%list) by apply (prefixKey_tail r poisoned_set). rewrite Hset in Hv.
  rewrite (listed_keys _ _ vals Hok (ref_poisoned _ _ HR) Hv).
  etrans; [|apply NoDup_Permutation; [apply (NoDup_fst_map_to_list (gset_to_gmap tt (Memory.poisoned m)))|apply NoDup_elements|]].
  - assert (Hin : Forall is_int64 (map_to_list (gset_to_gmap tt (Memory.poisoned m))).*1) by (apply Forall_forall; intros t [v Ht]%elem_of_keys; by eapply Hok).
    induction Hin as [|t ts Ht Hin IH]; [done|]. cbn [fmap list_fmap omap list_omap]. rewrite Atoi_print_d by done. by rewrite IH.
  - intros t. rewrite elem_of_elements, elem_of_keys. unfold is_Some. setoid_rewrite lookup_gset_to_gmap_Some. naive_solver.
Qed.

(** *** Reads *)

(** Keys as a stem and a tail. *)
Ltac keys_in h :=
  change keyPrefixKeyShare with (kms ++ key_tail)%list in h; change keyPrefixSession with (kms ++ session_tail)%list in h;
  change keyPrefixBlockRecord with (kms ++ block_tail)%list in h; change keyPrefixLastBlock with (kms ++ last_tail)%list in h;
  change keyPrefixActiveVersion with (kms ++ active_tail)%list in h; change keyPrefixNodeState with (kms ++ state_tail)%list in h;
  change keySchemaVersion with (kms ++ schema_tail)%list in h;
  change keySetKeyShares with (kms ++ key_index)%list in h; change keySetSessions with (kms ++ session_index)%list in h;
  change keyPrefixPoisoned with (kms ++ poisoned_set)%list in h;
  rewrite ?prefixKey_full, ?prefixKey_tail in h.

Lemma redis_sim_load_key r m t x : refines r m -> is_int64 t -> LoadKeyShareVersion t r = Ok x -> Memory.LoadKeyShareVersion t m = Ok x.
Proof.
  intros HR Ht ([] & Ho%redis_opened_ok & (d & ->%wrap_ok%r_get_contents & Hx)%res_bind_ok)%res_bind_ok. keys_in Hx.
  unfold Memory.LoadKeyShareVersion. rewrite (redis_refines_open r), <- Hx by done. symmetry. by apply (found_key (stem r)); [apply HR|].
Qed.

Lemma redis_sim_get_active r m t : refines r m -> GetActiveVersionTimestamp r = Ok t -> Memory.GetActiveVersionTimestamp m = Ok t.
Proof.
  intros HR ([] & Ho%redis_opened_ok & (item & ->%wrap_ok%r_get_contents & Ht)%res_bind_ok)%res_bind_ok. keys_in Ht.
  unfold Memory.GetActiveVersionTimestamp. rewrite (redis_refines_open r), <- Ht by done. symmetry. by apply (found_active (stem r)), HR.
Qed.

Lemma redis_sim_load_state r m s : refines r m -> LoadNodeState r = Ok s -> Memory.LoadNodeState m = Ok s.
Proof.
  intros HR ([] & Ho%redis_opened_ok & (d & ->%wrap_ok%r_get_contents & Hs)%res_bind_ok)%res_bind_ok. keys_in Hs.
  unfold Memory.LoadNodeState. rewrite (redis_refines_open r), <- Hs by done. symmetry. etrans; [by apply (found_state (stem r)), HR|].
  cbv zeta. by destruct (Memory.nodeState m).
Qed.

Lemma redis_sim_load_session r m t x : refines r m -> is_int64 t -> LoadProtocolSession t r = Ok x -> Memory.LoadProtocolSession t m = Ok x.
Proof.
  intros HR Ht ([] & Ho%redis_opened_ok & (d & ->%wrap_ok%r_get_contents & Hx)%res_bind_ok)%res_bind_ok. keys_in Hx.
  unfold Memory.LoadProtocolSession. rewrite (redis_refines_open r), <- Hx by done. symmetry. by apply (found_session (stem r)); [apply HR|].
Qed.

Lemma redis_sim_block r m c n x : refines r m -> is_uint64 c -> is_uint64 n -> getBlockRecord c n r = Ok x ->
  Ok x = Ok (Memory.deepCopyBlockRecord <$> Memory.blockRecords m !! (c, n)).
Proof.
  intros HR Hc Hn (d & ->%wrap_ok%r_get_contents & Hx)%res_bind_ok. keys_in Hx. rewrite <- Hx. by apply (found_block (stem r)); [apply HR|..].
Qed.

Lemma redis_sim_get_block r m c n x : refines r m -> is_uint64 c -> is_uint64 n -> GetBlockRecord c n r = Ok x -> Memory.GetBlockRecord c n m = Ok x.
Proof.
  intros HR Hc Hn ([] & Ho%redis_opened_ok & Hx)%res_bind_ok. unfold Memory.GetBlockRecord. rewrite (redis_refines_open r) by done.
  symmetry. by apply redis_sim_block with (r := r).
Qed.

Lemma redis_sim_last_block r m c x : refines r m -> is_uint64 c -> GetLastProcessedBlockRecord c r = Ok x -> Memory.GetLastProcessedBlockRecord c m = Ok x.
Proof.
  intros HR Hc ([] & Ho%redis_opened_ok & (item & ->%wrap_ok%r_get_contents & (num & Hn & Hx)%res_bind_ok)%res_bind_ok)%res_bind_ok. keys_in Hn.
  unfold Memory.GetLastProcessedBlockRecord. rewrite (redis_refines_open r) by done.
  pose proof (eq_trans (eq_sym Hn) (found_last (stem r) _ m c (ref_holds _ _ HR) Hc)) as [= ->].
  destruct (Memory.lastProcessedBlocks m !! c) as [n|] eqn:Hl; [|done]. symmetry. eapply redis_sim_block; [done|done| |done].
  by eapply (holds_numbers _ _ m (ref_holds _ _ HR)).
Qed.

(** *** Writes *)

Ltac distinct := unfold full; rewrite <- ?app_assoc; let Hd := fresh in intros Hd%app_inv_head; discriminate Hd.
(** The sets after the commands of one write. *)
Ltac sets := cbn [foldl apply_member]; repeat first [rewrite decide_True by done | rewrite decide_False by distinct].
(** Runs the write on the in-memory store and leaves the relation after it. *)
Ltac store r HC HM := keys_in HC; keys_in HM; rewrite (redis_refines_open r) by done; eexists; split; [done|];
  cbn [foldl apply_value] in HC; split; cbn [with_client client keyPrefix r_closed]; unfold stem; cbn [with_client keyPrefix];
  fold (stem r); rewrite ?HC, ?HM; sets; unfold Memory.with_keyShares, Memory.with_sessions, Memory.with_blocks;
  cbn [Memory.keyShares Memory.activeVersionTimestamp Memory.nodeState Memory.sessions Memory.blockRecords Memory.lastProcessedBlocks Memory.poisoned Memory.closed].

Lemma redis_sim_save_key r m v : atomic -> refines r m -> is_int64 (Version v) ->
  matches (Fr := Fr) refines (after (fun _ => Done) (SaveKeyShareVersion v r)) m (writing m (Memory.SaveKeyShareVersion v m)).
Proof.
  intros Hat HR Hv. apply save_step; [done|done|]. intros data d ([] & Ho%redis_opened_ok & Hd%wrap_ok)%res_bind_ok HC HM.
  unfold Memory.SaveKeyShareVersion. rewrite Memory.deepCopyKeyShareVersion_id. pose proof HR as []. store r HC HM; try done.
  - apply (holds_save_key (stem r)); [done|done|by eapply unmarshal_marshal_key].
  - by apply listed_insert.
Qed.

Lemma redis_sim_delete_key r m t : atomic -> refines r m -> is_int64 t ->
  matches (Fr := Fr) refines (after (fun _ => Done) (DeleteKeyShareVersion t r)) m (writing m (Memory.DeleteKeyShareVersion t m)).
Proof.
  intros Hat HR Ht. apply save_step; [done|done|]. intros [] d Ho%redis_opened_ok HC HM.
  unfold Memory.DeleteKeyShareVersion. pose proof HR as []. store r HC HM; try done.
  - by apply (holds_delete_key (stem r)).
  - apply listed_delete; [|done|done]. intros t' v Hv. by apply (keyed_some _ _ _ _ _ _ (holds_keys _ _ _ ref_holds0)) in Hv as [Hv _].
Qed.

Lemma redis_sim_save_session r m s : atomic -> refines r m -> session_ok s ->
  matches (Fr := Fr) refines (after (fun _ => Done) (SaveProtocolSession s r)) m (writing m (Memory.SaveProtocolSession s m)).
Proof.
  intros Hat HR Hs. apply save_step; [done|done|]. intros data d ([] & Ho%redis_opened_ok & Hd%wrap_ok)%res_bind_ok HC HM.
  unfold Memory.SaveProtocolSession. rewrite deepCopyProtocolSessionState_id. pose proof HR as []. store r HC HM; try done.
  - apply (holds_save_session (stem r)); [done|by destruct Hs|by eapply unmarshal_marshal_session].
  - by apply listed_insert.
Qed.

Lemma redis_sim_delete_session r m t : atomic -> refines r m -> is_int64 t ->
  matches (Fr := Fr) refines (after (fun _ => Done) (DeleteProtocolSession t r)) m (writing m (Memory.DeleteProtocolSession t m)).
Proof.
  intros Hat HR Ht. apply save_step; [done|done|]. intros [] d Ho%redis_opened_ok HC HM.
  unfold Memory.DeleteProtocolSession. pose proof HR as []. store r HC HM; try done.
  - by apply (holds_delete_session (stem r)).
  - apply listed_delete; [|done|done]. intros t' v Hv. by apply (keyed_some _ _ _ _ _ _ (holds_sessions _ _ _ ref_holds0)) in Hv as [Hv _].
Qed.

Lemma redis_sim_poison r m t : atomic -> refines r m -> is_int64 t ->
  matches (Fr := Fr) refines (after (fun _ => Done) (AddPoisonedVersion t r)) m (writing m (Memory.AddPoisonedVersion t m)).
Proof.
  intros Hat HR Ht. apply save_step; [done|done|]. intros [] d Ho%redis_opened_ok HC HM.
  unfold Memory.AddPoisonedVersion. pose proof HR as []. store r HC HM; try done.
  - by apply (holds_same (stem r) _ m).
  - rewrite gset_to_gmap_union_singleton. by apply listed_insert.
  - intros t' [->%elem_of_singleton|Hin]%elem_of_union; auto.
Qed.

Lemma redis_sim_set_active r m t : atomic -> refines r m -> is_int64 t ->
  matches (Fr := Fr) refines (after (fun _ => Done) (SetActiveVersionTimestamp t r)) m (writing m (Memory.SetActiveVersionTimestamp t m)).
Proof.
  intros Hat HR Ht. apply save_step; [done|done|]. intros [] d Ho%redis_opened_ok HC HM.
  unfold Memory.SetActiveVersionTimestamp. pose proof HR as []. store r HC HM; try done. by apply (holds_set_active (stem r)).
Qed.

Lemma redis_sim_save_state r m s : atomic -> refines r m -> state_ok s ->
  matches (Fr := Fr) refines (after (fun _ => Done) (SaveNodeState s r)) m (writing m (Memory.SaveNodeState s m)).
Proof.
  intros Hat HR Hs. apply save_step; [done|done|]. intros data d ([] & Ho%redis_opened_ok & Hd%wrap_ok)%res_bind_ok HC HM.
  unfold Memory.SaveNodeState. replace (mkNodeState _ _ _ _ _ _) with s by (by destruct s). pose proof HR as []. store r HC HM; try done.
  apply (holds_save_state (stem r)); [done|done|by eapply unmarshal_marshal_state].
Qed.

Lemma redis_sim_save_block r m b : atomic -> refines r m -> block_ok b ->
  matches (Fr := Fr) refines (after (fun _ => Done) (SaveBlockRecord b r)) m (writing m (Memory.SaveBlockRecord b m)).
Proof.
  intros Hat HR Hb. apply save_step; [done|done|]. intros data d ([] & Ho%redis_opened_ok & Hd%wrap_ok)%res_bind_ok HC HM.
  unfold Memory.SaveBlockRecord. rewrite deepCopyBlockRecord_id. pose proof HR as []. store r HC HM; try done.
  apply (holds_save_block (stem r)); [done|done|by eapply unmarshal_marshal_block].
Qed.

Lemma redis_sim_delete_block r m c n : atomic -> refines r m -> is_uint64 c -> is_uint64 n ->
  matches (Fr := Fr) refines (after (fun _ => Done) (DeleteBlockRecord c n r)) m (writing m (Memory.DeleteBlockRecord c n m)).
Proof.
  intros Hat HR Hc Hn. apply save_step; [done|done|]. intros [] d Ho%redis_opened_ok HC HM.
  unfold Memory.DeleteBlockRecord. pose proof HR as []. store r HC HM; try done. by apply (holds_delete_block (stem r)).
Qed.

Lemma redis_sim_close r m : refines r m -> exists m', Memory.Close m = Ok m' /\ refines (Close r).1 m'.
Proof.
  intros []. eexists. split; [done|]. unfold Close. destruct (r_closed r) eqn:Hc; cbn [fst]; by split; [..|by apply (holds_same _ _ m)| | | |].
Qed.

Lemma redis_step o r m : atomic -> op_ok o -> refines r m -> matches refines (redis_do o r) m (memory_do o m).
Proof.
  intros Hat Hok HR. destruct o; cbn [redis_do memory_do op_ok] in *; try (apply step_read; [done|]; intros x Hx).
  - by apply redis_sim_save_key.
  - exists x. split; [by eapply redis_sim_load_key|done].
  - by apply redis_sim_list_keys.
  - by apply redis_sim_delete_key.
  - by apply redis_sim_poison.
  - by eapply redis_sim_list_poisoned.
  - by apply redis_sim_set_active.
  - exists x. split; [by eapply redis_sim_get_active|done].
  - by apply redis_sim_save_state.
  - exists x. split; [by eapply redis_sim_load_state|done].
  - by apply redis_sim_save_session.
  - exists x. split; [by eapply redis_sim_load_session|done].
  - by apply redis_sim_delete_session.
  - by apply redis_sim_list_sessions.
  - by apply redis_sim_save_block.
  - exists x. split; [by eapply redis_sim_last_block|done].
  - destruct Hok. exists x. split; [by eapply redis_sim_get_block|done].
  - destruct Hok. by apply redis_sim_delete_block.
  - destruct (redis_sim_close r m HR) as (m' & Hm & HR'). rewrite Hm. by exists (AClosed (Ok tt)).
  - exists tt. split; [|done]. revert Hx. intros ([] & Ho%redis_opened_ok & _)%res_bind_ok. unfold Memory.HealthCheck. by apply (redis_refines_open r).
Qed.

(** ** The theorems *)

Lemma listed_empty {A : Type} S : S = ∅ -> listed S (∅ : gmap Z A).
Proof. intros -> x. split; [set_solver|]. by intros (t & [v Hv] & _). Qed.

Lemma redis_new_fresh cfg d r : atomic -> contents d = ∅ -> (forall k, members d k = ∅) -> NewRedisPersistence cfg d = Ok r -> refines r Memory.NewMemoryPersistence.
Proof.
  intros Hat Hd Hm Hn. unfold NewRedisPersistence in Hn. apply res_bind_ok in Hn as (c & _ & Hn). rewrite fail_if_bind in Hn. destruct Hn as [_ Hn].
  apply res_bind_ok in Hn as (? & _ & Hn). unfold initSchema in Hn. destruct (r_get _ d) as [item|] eqn:Hg; [|done].
  apply r_get_contents in Hg. rewrite Hd, lookup_empty in Hg. subst item. set (cs := [CSet _ _]) in *.
  pose proof (r_exec_commands cs d) as (done & _ & Hdone & HC & HM). destruct (r_exec cs d) as [d' [[]|]]; [|done]. cbn [fst snd] in *.
  rewrite (Hdone eq_refl), Hd in HC. cbn [foldl apply_value cs] in HC. cbn in Hn. injection Hn as <-.
  assert (Hempty : forall k, members d' k = ∅) by (intros k; rewrite HM, (Hdone eq_refl); cbn; case_decide; [done|apply Hm]).
  assert (Hkey : prefixed (KeyPrefix c) keySchemaVersion = (KeyPrefix c ++ kms ++ schema_tail)%list) by (unfold prefixed; by case_bool_decide as Hk; rewrite ?Hk).
  split; cbn; rewrite ?gset_to_gmap_empty; try done; try (by apply listed_empty); try set_solver.
  rewrite HC, Hkey. unfold stem. cbn [keyPrefix]. rewrite app_assoc. apply holds_fresh.
Qed.

Lemma redis_new_reopened r cfg m r' : refines r m -> KeyPrefix cfg = keyPrefix r -> NewRedisPersistence (Some cfg) (client r) = Ok r' -> refines r' (reopened m).
Proof.
  intros HR Hk Hn. unfold NewRedisPersistence in Hn. cbn [from_opt mbind res_bind] in Hn. rewrite fail_if_bind in Hn. destruct Hn as [_ Hn].
  apply res_bind_ok in Hn as (? & _ & Hn). unfold initSchema in Hn. destruct (r_get _ (client r)) as [item|] eqn:Hg; [|done].
  apply r_get_contents in Hg. rewrite Hk in *. destruct (holds_schema _ _ _ (ref_holds _ _ HR)) as [v Hv].
  assert (Hkey : prefixed (keyPrefix r) keySchemaVersion = (stem r ++ schema_tail)%list) by apply (prefixKey_tail r schema_tail).
  rewrite Hkey, Hv in Hg. subst item. cbn in Hn. destruct (fail_if _ _) as [[]|]; [|done]. cbn in Hn. injection Hn as <-.
  destruct HR. split; try done. by apply (holds_same _ _ m).
Qed.

Definition reliable : Prop :=
  (forall k d, is_ok (r_get k d) = true) /\ (forall cs (d : DB), (r_exec cs d).2 = Ok tt) /\ (forall k (d : DB), is_ok (r_smembers k d) = true) /\
  (forall ks (d : DB), is_ok (r_mget ks d) = true) /\ (forall d : DB, is_ok (r_ping d) = true) /\
  (forall v : KeyShareVersion Fr, is_ok (marshal_key v) = true) /\ (forall s, is_ok (marshal_state s) = true) /\
  (forall s, is_ok (marshal_session s) = true) /\ (forall b, is_ok (marshal_block b) = true).

Lemma reliable_atomic : reliable -> atomic.
Proof. intros (_ & Hex & _) cs d Hne. by rewrite Hex in Hne. Qed.

Lemma after_ok {A} (f : A -> answer Fr) (x : RedisPersistence DB * res A) : is_ok (after f x).2 = is_ok x.2.
Proof. by destruct x as [r []]. Qed.

Lemma save_available {A} r (prepare : res A) cs msg : reliable -> is_ok prepare = true -> is_ok (save r prepare cs msg).2 = true.
Proof.
  intros (_ & Hex & _) Hp. unfold save, exec. destruct prepare as [a|]; [|done]. specialize (Hex (cs a) (client r)). destruct (r_exec (cs a) (client r)) as [d e].
  cbn in *. subst e. by destruct msg.
Qed.

Lemma list_available {A} (unmarshal : bytes -> res (option A)) prefix idx msg msg' r : reliable -> r_closed r = false ->
  is_ok (list_index unmarshal prefix idx msg msg' r).2 = true.
Proof.
  intros (_ & _ & Hsm & Hmg & _) Hc. unfold list_index, opened. rewrite Hc. cbn [fail_if mbind res_bind].
  specialize (Hsm idx (client r)). destruct (r_smembers idx (client r)) as [epochs|]; [|done]. cbn [wrap mbind res_bind]. destruct (length epochs =? 0)%nat; [done|].
  match goal with |- context [r_mget ?ks ?d] => specialize (Hmg ks d); destruct (r_mget ks d); [|done] end. cbn. by destruct (parse_values _ _ _ _).
Qed.

Lemma redis_get_found {A} k r msg (f : option bytes -> res A) : reliable -> is_ok (f (contents (client r) !! k)) = true ->
  is_ok (data ← wrap msg (r_get k (client r)); f data) = true.
Proof. intros (Hget & _) Hf. apply is_ok_bind; [by rewrite is_ok_wrap|]. by intros d ->%wrap_ok%r_get_contents. Qed.

Lemma redis_block_available r m c n : reliable -> refines r m -> is_uint64 c -> is_uint64 n -> is_ok (getBlockRecord c n r) = true.
Proof.
  intros Hrel HR Hc Hn. apply redis_get_found; [done|]. change keyPrefixBlockRecord with (kms ++ block_tail)%list. rewrite prefixKey_full.
  exact (f_equal is_ok (found_block (stem r) _ m c n _ _ (ref_holds _ _ HR) Hc Hn)).
Qed.

Lemma redis_last_available r m c : reliable -> refines r m -> is_uint64 c -> r_closed r = false -> is_ok (GetLastProcessedBlockRecord c r) = true.
Proof.
  intros Hrel HR Hc Hb. pose proof (ref_holds _ _ HR) as HC. pose proof (found_last (stem r) _ m c HC Hc) as Hf.
  unfold GetLastProcessedBlockRecord, opened. rewrite Hb. cbn [fail_if mbind res_bind]. apply redis_get_found; [done|].
  change keyPrefixLastBlock with (kms ++ last_tail)%list. rewrite prefixKey_full. apply is_ok_bind; [exact (f_equal is_ok Hf)|].
  intros num Hn. pose proof (eq_trans (eq_sym Hn) Hf) as [= ->].
  destruct (Memory.lastProcessedBlocks m !! c) as [n|] eqn:Hl; [|done]. eapply redis_block_available; [done|done|done|]. by eapply (holds_numbers _ _ m HC).
Qed.

Lemma redis_closed_store o r m : r_closed r = Memory.closed m -> Memory.closed m = true -> is_ok (redis_do o r).2 = is_ok (memory_do o m).2.
Proof. destruct r as [d k c], m as [ks av ns ss br lp ps cl]. cbn. intros -> ->. by destruct o. Qed.

Lemma redis_available o r m : reliable -> op_ok o -> refines r m -> is_ok (redis_do o r).2 = is_ok (memory_do o m).2.
Proof.
  intros Hrel Hok HR. destruct (Memory.closed m) eqn:Hm; [by apply redis_closed_store; [apply HR|]|]. rewrite memory_available by done.
  assert (Hb : r_closed r = false) by (destruct HR; congruence). pose proof Hrel as (Hget & Hex & Hsm & Hmg & Hping & Hk & Hst & Hse & Hbl).
  assert (Ho : opened r = Ok tt) by (unfold opened; by rewrite Hb). pose proof (ref_holds _ _ HR) as HC.
  destruct o; cbn [redis_do op_ok] in *; rewrite ?after_ok, ?reading_ok;
    try (by apply save_available; [done|]; rewrite Ho; cbn [mbind res_bind]; rewrite ?is_ok_wrap);
    unfold LoadKeyShareVersion, ListPoisonedVersions, GetActiveVersionTimestamp, LoadNodeState, LoadProtocolSession, GetBlockRecord, HealthCheck;
    rewrite ?Ho; cbn [mbind res_bind].
  - apply redis_get_found; [done|]. change keyPrefixKeyShare with (kms ++ key_tail)%list. rewrite prefixKey_full. exact (f_equal is_ok (found_key _ _ m t _ _ HC Hok)).
  - unfold ListKeyShareVersions. pose proof (list_available (unmarshal_key (Fr := Fr)) keyPrefixKeyShare (prefixKey r keySetKeyShares)
      "failed to list KeyShareVersion epochs" "failed to fetch KeyShareVersions" r Hrel Hb) as Hl. by destruct (list_index _ _ _ _ _ _) as [r' []].
  - by apply is_ok_bind; [rewrite is_ok_wrap|].
  - apply redis_get_found; [done|]. change keyPrefixActiveVersion with (kms ++ active_tail)%list. rewrite prefixKey_tail. exact (f_equal is_ok (found_active _ _ m HC)).
  - apply redis_get_found; [done|]. change keyPrefixNodeState with (kms ++ state_tail)%list. rewrite prefixKey_tail.
    etrans; [exact (f_equal is_ok (found_state _ _ m _ _ HC))|]. cbv zeta. by case_match.
  - apply redis_get_found; [done|]. change keyPrefixSession with (kms ++ session_tail)%list. rewrite prefixKey_full. exact (f_equal is_ok (found_session _ _ m t _ _ HC Hok)).
  - by apply list_available.
  - by eapply redis_last_available.
  - destruct Hok. by eapply redis_block_available.
  - done.
  - apply is_ok_bind; [by rewrite is_ok_wrap|]. intros _ _. apply redis_get_found; [done|]. change keySchemaVersion with (kms ++ schema_tail)%list. rewrite prefixKey_tail.
    destruct (holds_schema _ _ m HC) as [v Hv]. by rewrite Hv.
Qed.

(** C35: The Redis store implements the in-memory one, if a pipeline is executed as a whole
    or not at all: on an empty database the operations that succeeded returned what the
    in-memory store returns when it runs them; if no call fails, the same operations
    succeed; a client opened later on the same database and prefix goes on where this one
    was.  The arguments are those the Go types admit (numbers of 64 bits), their texts, as
    those of the node, are plain ASCII, and a saved node state names an
    operator or a boundary. *)
Theorem redis_refines_memory cfg (d : DB) r ops : atomic -> contents d = ∅ -> (forall k, members d k = ∅) ->
  NewRedisPersistence (Some cfg) d = Ok r -> Forall op_ok ops ->
  let '(log, r') := run redis_do ops r in
  let '(log', m') := run memory_do log.*1 Memory.NewMemoryPersistence in
  agree log log' /\
  (reliable -> log.*1 = (run memory_do ops Memory.NewMemoryPersistence).1.*1) /\
  (forall cfg2 r2 ops2, KeyPrefix cfg2 = keyPrefix r' -> NewRedisPersistence (Some cfg2) (client r') = Ok r2 -> Forall op_ok ops2 ->
     agree (run redis_do ops2 r2).1 (run memory_do (run redis_do ops2 r2).1.*1 (reopened m')).1).
Proof.
  intros Hat Hd Hm Hn Hok. pose proof (redis_new_fresh _ d r Hat Hd Hm Hn) as HR.
  pose proof (fun o r m => redis_step o r m Hat) as Hstep.
  destruct (run_simulates redis_do memory_do refines Hstep ops r Memory.NewMemoryPersistence Hok HR) as (log' & m' & Hrun & HR' & Hlog).
  pose proof (fun Hrel => run_same_ops redis_do memory_do refines Hstep ops r _ (fun o r m => redis_available o r m Hrel) memory_failed Hok HR) as Hav.
  destruct (run redis_do ops r) as [log r']. cbn [fst snd] in *. rewrite Hrun. split_and!; [done|done|].
  intros cfg2 r2 ops2 Hk Hn2 Hok2. pose proof (redis_new_reopened r' cfg2 m' r2 HR' Hk Hn2) as HR2.
  destruct (run_simulates redis_do memory_do refines Hstep ops2 r2 _ Hok2 HR2) as (log2 & m2 & Hrun2 & _ & Hlog2). by rewrite Hrun2.
Qed.

(** Pipelines are not atomic.  If the connection breaks after the first command of a
    save, the save reports an error, the version is loaded from then on, and the listing
    that a restart reads leaves it out. *)
Theorem torn_save r m v data d e : refines r m -> Memory.keyShares m !! Version v = None -> is_int64 (Version v) -> r_closed r = false ->
  marshal_key v = Ok data ->
  let set := CSet (prefixKey r (full keyPrefixKeyShare print_d (Version v))) data in
  let add := CSAdd (prefixKey r keySetKeyShares) (print_d (Version v)) in
  r_exec [set; add] (client r) = (d, Err e) ->
  contents d = apply_value (contents (client r)) set -> (forall k, members d k = apply_member (members (client r)) set k) ->
  let r' := with_client d r in
  (SaveKeyShareVersion v r).1 = r' /\ is_ok (SaveKeyShareVersion v r).2 = false /\
  (forall x, LoadKeyShareVersion (Version v) r' = Ok x -> x = Some v) /\
  (forall l, (ListKeyShareVersions r').2 = Ok l -> v ∉ l).
Proof.
  intros HR Hnew Hv Hc Hdata set add Hex HC HM r'.
  assert (Hsave : SaveKeyShareVersion v r = (r', wrap "failed to save KeyShareVersion" (Err e))).
  { unfold SaveKeyShareVersion, save, opened, exec. rewrite Hc, Hdata. cbn [fail_if wrap mbind res_bind]. fold set add. by rewrite Hex. }
  rewrite Hsave. split_and!; [done|done| |]; subst set; keys_in HC; keys_in HM.
  - intros x ([] & _ & (d' & ->%wrap_ok%r_get_contents & Hx)%res_bind_ok)%res_bind_ok. subst r'. cbn [with_client client] in Hx.
    change (prefixKey (with_client d r)) with (prefixKey r) in Hx. keys_in Hx. rewrite HC in Hx. cbn [apply_value] in Hx. rewrite write_same in Hx.
    cbn [decode_found] in Hx. rewrite (unmarshal_marshal_key v data Hv Hdata) in Hx. by injection Hx as <-.
  - intros l Hl Hin. unfold ListKeyShareVersions in Hl. pose proof (ref_holds _ _ HR) as [].
    assert (Hk : keyed (stem r ++ key_tail) print_d is_int64 unmarshal_key (contents d) (<[Version v := v]> (Memory.keyShares m))).
    { rewrite HC. apply keyed_set; [apply print_d_inj_int64|done|done|by apply unmarshal_marshal_key]. }
    destruct (list_index_sim unmarshal_key key_tail (prefixKey r' keySetKeyShares) "failed to list KeyShareVersion epochs" "failed to fetch KeyShareVersions" r' (Memory.keyShares m)) as [_ Hp].
    { intros t w Hw. apply (keyed_some _ _ _ _ _ _ Hk). rewrite lookup_insert_ne; [done|]. intros <-. congruence. }
    { change (prefixKey r') with (prefixKey r). change keySetKeyShares with (kms ++ key_index)%list. rewrite prefixKey_tail. cbn [client r' with_client].
      rewrite HM. cbn [apply_member]. rewrite decide_False by distinct. apply HR. }
    change (kms ++ key_tail)%list with keyPrefixKeyShare in Hp. destruct (list_index _ _ _ _ _ _) as [r2 [found|]]; [|done]. cbn in Hl. injection Hl as <-.
    destruct (Hp found eq_refl) as [_ Hperm]. rewrite go_sort_perm, Hperm in Hin. apply list_elem_of_fmap in Hin as ([t w] & -> & Htw%elem_of_map_to_list).
    cbn [snd] in *. rewrite <- (holds_versions t w Htw) in Htw. congruence.
Qed.
End Refinement.

(** ** Witnesses: two maps as the database *)

#[local] Existing Instances number_json number_json_laws.

Definition map_redis : Type := contents_map * gmap (list ascii) (gset (list ascii)).
Definition map_members (d : map_redis) (k : list ascii) : gset (list ascii) := default ∅ (d.2 !! k).
Definition map_apply (d : map_redis) (c : cmd) : map_redis :=
  (apply_value d.1 c,
   match c with
   | CSet k _ | CDel k => delete k d.2
   | CSAdd k x => <[k := {[x]} ∪ map_members d k]> d.2
   | CSRem k x => <[k := map_members d k ∖ {[x]}]> d.2
   end).
Definition map_index (d : map_redis) (k : list ascii) : list (list ascii) := elements (map_members d k).

Lemma map_apply_member d c k : map_members (map_apply d c) k = apply_member (map_members d) c k.
Proof.
  unfold map_members at 1. destruct c as [k' v|k'|k' x|k' x]; cbn [map_apply snd apply_member]; case_decide as Hk; subst;
    rewrite ?lookup_delete_eq, ?lookup_insert_eq, ?lookup_delete_ne, ?lookup_insert_ne by done; done.
Qed.

Lemma apply_member_ext M M' cs k : (forall k, M k = M' k) -> foldl apply_member M cs k = foldl apply_member M' cs k.
Proof.
  revert M M'. induction cs as [|c cs IH]; intros M M' HM; cbn [foldl]; [apply HM|]. apply IH. intros k'. destruct c; cbn [apply_member]; by rewrite HM.
Qed.

Lemma map_apply_all cs d : (foldl map_apply d cs).1 = foldl apply_value d.1 cs /\ forall k, map_members (foldl map_apply d cs) k = foldl apply_member (map_members d) cs k.
Proof.
  revert d. induction cs as [|c cs IH]; intros d; cbn [foldl]; [done|]. destruct (IH (map_apply d c)) as [HC HM]. split; [done|].
  intros k. rewrite HM. apply apply_member_ext. intros k'. apply map_apply_member.
Qed.

#[local] Instance map_client : RedisClient map_redis := {
  r_get k d := Ok (d.1 !! k); r_smembers k d := Ok (map_index d k); r_mget ks d := Ok ((fun k => d.1 !! k) <$> ks);
  r_exec cs d := (foldl map_apply d cs, Ok tt); r_ping _ := Ok tt; r_close _ := Ok tt }.
#[local] Instance map_client_laws : RedisLaws (DB := map_redis).
Proof.
  refine {| contents d := d.1; members := map_members |}.
  - by intros k d o [= <-].
  - by intros k d l [= <-].
  - by intros ks d l [= <-].
  - intros cs d. exists cs. split; [done|]. split; [done|]. apply map_apply_all.
Defined.

Definition demo_config : RedisConfig := mkRedisConfig "localhost:6379" (chars_of "tenant:").
Definition demo_redis : RedisPersistence map_redis := mkRedis (map_apply (∅, ∅) (CSet (chars_of "tenant:kms:metadata:schema_version") currentSchemaVersion)) (chars_of "tenant:") false.

Lemma redis_refines_memory_witness :
  agree (run redis_do demo_ops demo_redis).1 (run memory_do demo_ops Memory.NewMemoryPersistence).1 /\ length (run redis_do demo_ops demo_redis).1 = 14%nat.
Proof.
  pose proof (redis_refines_memory (Fr := Z) (DB := map_redis) demo_config (∅, ∅) demo_redis demo_ops (fun cs d Hne => False_ind _ (Hne eq_refl)) eq_refl (fun k => eq_refl) eq_refl) as HT.
  specialize (HT demo_ops_ok). split; [|vm_compute; reflexivity].
  assert (Hall : (run redis_do demo_ops demo_redis).1.*1 = take 14 demo_ops) by (vm_compute; reflexivity).
  assert (Hmem : (run memory_do demo_ops Memory.NewMemoryPersistence) = run memory_do (take 14 demo_ops) Memory.NewMemoryPersistence) by (vm_compute; reflexivity).
  rewrite Hmem. destruct (run redis_do demo_ops demo_redis) as [log r']. cbn [fst] in *. rewrite <- Hall.
  destruct (run memory_do log.*1 Memory.NewMemoryPersistence) as [log' m']. exact (proj1 HT).
Defined.

(** A connection that breaks after the first command. *)
Inductive broken : Type := Broken (d : map_redis).
Definition unbroken (b : broken) : map_redis := let '(Broken d) := b in d.
#[local] Instance broken_client : RedisClient broken := {
  r_get k b := Ok ((unbroken b).1 !! k); r_smembers k b := Ok (map_index (unbroken b) k); r_mget ks b := Ok ((fun k => (unbroken b).1 !! k) <$> ks);
  r_exec cs b := match cs with
                 | [] => (b, Ok tt)
                 | [c] => (Broken (map_apply (unbroken b) c), Ok tt)
                 | c :: _ => (Broken (map_apply (unbroken b) c), Err "EOF")
                 end;
  r_ping _ := Ok tt; r_close _ := Ok tt }.
#[local] Instance broken_client_laws : RedisLaws (DB := broken).
Proof.
  refine {| contents b := (unbroken b).1; members b := map_members (unbroken b) |}.
  - by intros k d o [= <-].
  - by intros k d l [= <-].
  - by intros ks d l [= <-].
  - intros cs d. exists (take 1 cs). split; [apply sublist_take|]. destruct cs as [|c [|c' cs]]; cbn; split_and!; try done; intros; apply map_apply_member.
Defined.

Definition broken_redis : RedisPersistence broken := mkRedis (Broken (map_apply (∅, ∅) (CSet (chars_of "kms:metadata:schema_version") currentSchemaVersion))) [] false.

Lemma broken_redis_fresh : refines (Fr := Z) broken_redis Memory.NewMemoryPersistence.
Proof.
  split; try done.
  - exact (holds_fresh (chars_of "kms:") currentSchemaVersion).
  - by apply listed_empty.
  - by apply listed_empty.
  - apply (listed_empty (A := unit)). reflexivity.
Qed.

Definition demo_data : bytes := match marshal_key (demo_version 20) with Ok d => d | Err _ => [] end.

Lemma torn_save_witness : let r' := (SaveKeyShareVersion (demo_version 20) broken_redis).1 in
  is_ok (SaveKeyShareVersion (demo_version 20) broken_redis).2 = false /\ LoadKeyShareVersion 20 r' = Ok (Some (demo_version 20)) /\
  (ListKeyShareVersions r').2 = Ok (A := list (KeyShareVersion Z)) [].
Proof.
  pose proof (torn_save (Fr := Z) broken_redis Memory.NewMemoryPersistence (demo_version 20) demo_data
    (Broken (map_apply (unbroken (client broken_redis)) (CSet (chars_of "kms:keyshare:20") demo_data))) "EOF" broken_redis_fresh) as HT.
  cbv zeta in HT. destruct HT as (Hs & Hf & Hload & _); [reflexivity|unfold is_int64; cbn; lia|reflexivity|reflexivity|reflexivity|reflexivity|intros k; apply map_apply_member|].
  cbv zeta. rewrite Hs. split; [exact Hf|]. split; [|vm_compute; reflexivity].
  destruct (LoadKeyShareVersion 20 _) as [x|e] eqn:Hx; [|vm_compute in Hx; discriminate Hx]. by rewrite (Hload x Hx).
Defined.
