(* ===== verification/BlockLookup.v ===== *)
(** * Block lookup by timestamp: [pkg/contractCaller/caller/blockLookup.go]

    The binary search every node runs to turn the cutoff time of a reshare into a block
    of the second chain.  Block numbers and timestamps are unsigned 64-bit integers; the
    search halves its range, so 64 rounds are enough for every head. *)

From S2P Require Import Prelude Agreement.

(** A header: its number and its time. *)
Record Header := mkHeader { Number : Z; Time : Z }.

Section Lookup.
(** [ethclient.HeaderByNumber]; [None] asks for the head. *)
Variable HeaderByNumber : option Z -> res Header.

Definition HeaderTimestampAt (blockNumber : Z) : res Z :=
  let num := if negb (blockNumber =? 0) then Some blockNumber else None in
  header ← wrap "failed to fetch header for block %d" (HeaderByNumber num);
  Ok (Time header).

(** The loop; [None] when the fuel is used up. *)
Fixpoint search_block (fuel : nat) (target : Z) (tsAt : Z -> res Z) (lo hi : Z) : option (res Z) :=
  if lo <? hi then
    match fuel with
    | O => None
    | S fuel =>
        let mid := uint64 (lo + (hi - lo) / 2) in
        match tsAt mid with
        | Err e => Some (Err e)
        | Ok ts => if ts >=? target then search_block fuel target tsAt lo mid else search_block fuel target tsAt (uint64 (mid + 1)) hi
        end
    end
  else Some (Ok lo).

Definition firstBlockAtOrAfterTimestamp (target head : Z) (tsAt : Z -> res Z) : option (res Z) :=
  if head =? 0 then Some (Err "no blocks available (head is 0)")
  else match tsAt head with
       | Err e => Some (Err e)
       | Ok headTs =>
           if headTs <? target then Some (Err "head block %d timestamp %d is below target %d; chain not advanced yet")
           else search_block 64 target tsAt 1 head
       end.

Definition FirstBlockAtOrAfterTimestamp (targetTimestamp : Z) : option (res Z) :=
  match wrap "failed to fetch head header" (HeaderByNumber None) with
  | Err e => Some (Err e)
  | Ok headNum => firstBlockAtOrAfterTimestamp targetTimestamp (Number headNum) HeaderTimestampAt
  end.
End Lookup.

(** A block at or after the target. *)
Definition reached (tsAt : Z -> res Z) (target n : Z) : Prop := exists ts, tsAt n = Ok ts /\ target <= ts.
Definition before (tsAt : Z -> res Z) (target n : Z) : Prop := exists ts, tsAt n = Ok ts /\ ts < target.

Lemma search_block_spec fuel target tsAt lo hi : is_uint64 lo -> is_uint64 hi -> lo <= hi -> hi - lo < 2 ^ Z.of_nat fuel ->
  reached tsAt target hi -> (lo = 1 \/ before tsAt target (lo - 1)) ->
  exists r, search_block fuel target tsAt lo hi = Some r /\
    match r with
    | Ok n => lo <= n <= hi /\ reached tsAt target n /\ (n = 1 \/ before tsAt target (n - 1))
    | Err e => exists n, lo <= n <= hi /\ tsAt n = Err e
    end.
Proof.
  unfold is_uint64. revert lo hi. induction fuel as [|fuel IH]; intros lo hi Hlo Hhi Hle Hf Hr Hb; cbn [search_block].
  - rewrite (proj2 (Z.ltb_ge lo hi)) by lia. exists (Ok lo). assert (lo = hi) as -> by lia. naive_solver lia.
  - rewrite Nat2Z.inj_succ, Z.pow_succ_r in Hf by lia. destruct (Z.ltb_spec lo hi) as [Hlt|Hge].
    2: { exists (Ok lo). assert (lo = hi) as -> by lia. naive_solver lia. }
    set (mid := uint64 (lo + (hi - lo) / 2)).
    assert (Hmid : lo <= mid < hi /\ mid = lo + (hi - lo) / 2).
    { pose proof (Z.div_lt (hi - lo) 2). pose proof (Z.div_pos (hi - lo) 2). unfold mid, uint64. rewrite Z.mod_small by lia. lia. }
    destruct Hmid as [Hmid Heq]. pose proof (Z.div_mod (hi - lo) 2). pose proof (Z.mod_pos_bound (hi - lo) 2).
    destruct (tsAt mid) as [ts|e] eqn:Hts; [|exists (Err e); split; [done|exists mid; split; [lia|done]]].
    rewrite Z.geb_leb. destruct (Z.leb_spec target ts) as [Hge|Hlt'].
    + destruct (IH lo mid) as (r & Hs & Hres); [lia..|by exists ts|done|]. exists r. split; [done|].
      destruct r as [n|e]; [destruct Hres as (Hn & Hr' & Hb'); split; [lia|done]|destruct Hres as (n & Hn & He); exists n; split; [lia|done]].
    + assert (uint64 (mid + 1) = mid + 1) as -> by (unfold uint64; rewrite Z.mod_small; lia).
      destruct (IH (mid + 1) hi) as (r & Hs & Hres); [lia..|done| |].
      * right. replace (mid + 1 - 1) with mid by lia. by exists ts.
      * exists r. split; [done|]. destruct r as [n|e]; [|destruct Hres as (n & Hn & He); exists n; split; [lia|done]].
        destruct Hres as (Hn & Hr' & Hb'). split; [lia|done].
Qed.

(** C23: The search ends for every 64-bit head, whatever the blocks' timestamps, and what it
    returns does not depend on a precondition: an answer is a block at or after the target
    whose predecessor is before it, so on a chain whose timestamps do not decrease it is the
    first such block; an error means that there is no block, that the head is before the
    target, or that the lookup of a block of the range failed. *)
Theorem first_block_search (target head : Z) (tsAt : Z -> res Z) : is_uint64 head ->
  exists r, firstBlockAtOrAfterTimestamp target head tsAt = Some r /\
    match r with
    | Ok n => 1 <= n <= head /\ reached tsAt target n /\ (n = 1 \/ before tsAt target (n - 1)) /\
        ((forall i j a b, 1 <= i <= j -> j <= head -> tsAt i = Ok a -> tsAt j = Ok b -> a <= b) ->
         (forall i, 1 <= i <= head -> is_ok (tsAt i) = true) -> forall i, 1 <= i <= head -> reached tsAt target i <-> n <= i)
    | Err e => head = 0 \/ before tsAt target head \/ exists n, 1 <= n <= head /\ tsAt n = Err e
    end.
Proof.
  intros Hh. unfold firstBlockAtOrAfterTimestamp. destruct (Z.eqb_spec head 0) as [->|Hne]; [eexists; split; [done|by left]|].
  destruct (tsAt head) as [headTs|e] eqn:Hts.
  2: { eexists. split; [done|]. right. right. exists head. unfold is_uint64 in *. split; [lia|done]. }
  destruct (Z.ltb_spec headTs target) as [Hlt|Hge]; [eexists; split; [done|]; right; left; by exists headTs|].
  destruct (search_block_spec 64 target tsAt 1 head) as (r & Hs & Hres); unfold is_uint64 in *; [lia|lia|lia|change (2 ^ Z.of_nat 64) with (2 ^ 64); lia|by exists headTs|by left|].
  exists r. split; [exact Hs|]. destruct r as [n|e]; [|right; right; exact Hres].
  destruct Hres as (Hn & Hr & Hb). split_and!; try (done || lia). intros Hmono Hall i Hi. split.
  - intros (ts & Hti & Hle). destruct Hb as [->|(b & Hb & Hlt)]; [lia|]. destruct (Z.le_gt_cases n i) as [|Hgt]; [done|].
    pose proof (Hmono i (n - 1) ts b ltac:(lia) ltac:(lia) Hti Hb). lia.
  - intros Hle. destruct Hr as (a & Ha & Hta). specialize (Hall i Hi). destruct (tsAt i) as [ts|] eqn:Hti; [|done].
    exists ts. split; [done|]. pose proof (Hmono n i a ts ltac:(lia) ltac:(lia) Ha Hti). lia.
Qed.

(** ** The search and the shared ledger *)

(** The first block of a chain at or after a time. *)
Definition first_at (block_time : Z -> Z) (target n : Z) : Prop := 1 <= n /\ target <= block_time n /\ forall i, 1 <= i < n -> block_time i < target.

Lemma search_finds_first block_time target head tsAt n : is_uint64 head -> (forall i j, 1 <= i <= j -> block_time i <= block_time j) ->
  (forall i ts, tsAt i = Ok ts -> ts = block_time i) -> firstBlockAtOrAfterTimestamp target head tsAt = Some (Ok n) -> first_at block_time target n.
Proof.
  intros Hh Hmono Hts Hs. unfold firstBlockAtOrAfterTimestamp in Hs. destruct (Z.eqb_spec head 0) as [->|Hne]; [done|].
  destruct (tsAt head) as [headTs|] eqn:Hhead; [|done]. destruct (Z.ltb_spec headTs target); [done|].
  destruct (search_block_spec 64 target tsAt 1 head) as (r & Hr & Hres); unfold is_uint64 in *; [lia|lia|lia|change (2 ^ Z.of_nat 64) with (2 ^ 64); lia|by exists headTs|by left|].
  rewrite Hr in Hs. injection Hs as ->. destruct Hres as (Hn & (ts & Hat & Hge) & Hb). apply Hts in Hat as ->. split_and!; [lia|done|].
  intros i Hi. destruct Hb as [->|(b & Hb & Hlt)]; [lia|]. apply Hts in Hb as ->. pose proof (Hmono i (n - 1) ltac:(lia)). lia.
Qed.

Lemma first_at_unique block_time target n m : first_at block_time target n -> first_at block_time target m -> n = m.
Proof.
  intros (Hn & Hnt & Hnb) (Hm & Hmt & Hmb). destruct (Z.lt_trichotomy n m) as [Hlt|[->|Hlt]]; [|done|].
  - specialize (Hmb n ltac:(lia)). lia.
  - specialize (Hnb m ltac:(lia)). lia.
Qed.

(** The reads of [Agreement.reads]: nodes whose heads differ, and whose lookups fail at
    different blocks, resolve a time to one block of the chain they share. *)
Lemma search_reads block_time (L : Ledger) (head : Z -> Z) (tsAt : Z -> Z -> res Z) (now t b : Z) :
  (forall i j, 1 <= i <= j -> block_time i <= block_time j) -> is_uint64 (head now) ->
  (forall i ts, tsAt now i = Ok ts -> ts = block_time i) -> first_at block_time t (first_block L t) ->
  firstBlockAtOrAfterTimestamp t (head now) (tsAt now) = Some (Ok b) -> b = first_block L t.
Proof. intros Hmono Hh Hts HL Hs. eapply first_at_unique; [|exact HL]. by eapply search_finds_first. Qed.

(** ** Witness: a block every twelve seconds *)

Definition twelve_seconds (n : Z) : res Z := Ok (1000 + 12 * n).

Lemma first_block_search_witness : firstBlockAtOrAfterTimestamp 2001 (2 ^ 64 - 1) twelve_seconds = Some (Ok 84) /\ reached twelve_seconds 2001 84 /\ before twelve_seconds 2001 83.
Proof.
  assert (Hv : firstBlockAtOrAfterTimestamp 2001 (2 ^ 64 - 1) twelve_seconds = Some (Ok 84)) by (vm_compute; reflexivity). split; [exact Hv|].
  destruct (first_block_search 2001 (2 ^ 64 - 1) twelve_seconds) as (r & Hr & Hres); [unfold is_uint64; lia|].
  rewrite Hv in Hr. injection Hr as <-. destruct Hres as (_ & Hreached & [Hone | Hbefore] & _); [discriminate Hone|exact (conj Hreached Hbefore)].
Defined.
