(* ===== verification/Config.v ===== *)
(** * Server configuration: [pkg/config/config.go] and its use in [cmd/kmsServer]

    The configuration records, their [Validate] methods (which also fill in defaults, so they
    are methods in the state monad [SM]), the tables of chains and contracts, and how the
    server reads its flags and chooses a store and a signer.  The theorems: the fixed points
    of validation are exactly the well-formed configurations, every accepted configuration
    becomes one without any other change, and a server whose flags were accepted starts
    without following a nil pointer. *)

From S2P Require Import Prelude Bytes Persistence NodeCore NodeOps.

(** The checks of the libraries: [common.IsHexAddress] of go-ethereum and the text of the
    aggregate of a [field.ErrorList]. *)
Record RemoteSignerConfig := mkRemoteSignerConfig {
  rsc_Url : string;
  rsc_CACert : string;
  rsc_Cert : string;
  rsc_Key : string;
  rsc_FromAddress : string;
  rsc_PublicKey : string
}.

Inductive field_error :=
| Required (path detail : string)
| Invalid (path : string) (value : RemoteSignerConfig) (detail : string).

Class ConfigLib := {
  IsHexAddress : string -> bool;
  ToAggregate : list field_error -> string
}.

(** ** Curves and chains *)

Definition CurveTypeUnknown : string := "unknown".
Definition CurveTypeECDSA : string := "ecdsa".
Definition CurveTypeBN254 : string := "bn254".

Definition ConvertCurveTypeToSolidityEnum (curveType : string) : res Z :=
  if bool_decide (curveType = CurveTypeUnknown) then Ok 0
  else if bool_decide (curveType = CurveTypeECDSA) then Ok 1
  else if bool_decide (curveType = CurveTypeBN254) then Ok 2
  else Err "unsupported curve type: %s".

Definition ConvertSolidityEnumToCurveType (enumValue : Z) : res string :=
  if enumValue =? 0 then Ok CurveTypeUnknown
  else if enumValue =? 1 then Ok CurveTypeECDSA
  else if enumValue =? 2 then Ok CurveTypeBN254
  else Err "unsupported curve type enum value: %d".

Definition ChainName_EthereumMainnet : string := "mainnet".
Definition ChainName_EthereumSepolia : string := "sepolia".
Definition ChainName_PreProdSepolia : string := "dev".
Definition ChainName_EthereumAnvil : string := "devnet".
Definition ChainName_BaseAnvil : string := "base-devnet".
Definition ChainName_BaseSepolia : string := "base-sepolia".

Definition ChainIdToName : gmap Z string := list_to_map [
  (ChainId_EthereumMainnet, ChainName_EthereumMainnet);
  (ChainId_EthereumSepolia, ChainName_EthereumSepolia);
  (ChainId_EthereumAnvil, ChainName_EthereumAnvil);
  (ChainId_BaseAnvil, ChainName_BaseAnvil);
  (ChainId_BaseSepolia, ChainName_BaseSepolia)].

Definition ChainNameToId : gmap string Z := list_to_map [
  (ChainName_EthereumMainnet, ChainId_EthereumMainnet);
  (ChainName_EthereumSepolia, ChainId_EthereumSepolia);
  (ChainName_EthereumAnvil, ChainId_EthereumAnvil);
  (ChainName_BaseAnvil, ChainId_BaseAnvil);
  (ChainName_BaseSepolia, ChainId_BaseSepolia)].

(** In seconds. *)
Definition GetDefaultPollerIntervalForChainId (chainId : Z) : Z :=
  if chainId =? ChainId_EthereumMainnet then 6
  else if chainId =? ChainId_EthereumSepolia then 6
  else if chainId =? ChainId_BaseAnvil then 1
  else if chainId =? ChainId_BaseSepolia then 1
  else if chainId =? ChainId_EthereumAnvil then 2
  else 6.

Definition GetEnvironmentNameForChainName (chainName : string) : res string :=
  if bool_decide (chainName = ChainName_EthereumMainnet) then Ok "mainnet-ethereum"%string
  else if bool_decide (chainName = ChainName_EthereumSepolia) then Ok "testnet-sepolia"%string
  else if bool_decide (chainName = ChainName_EthereumAnvil) then Ok "devnet-sepolia"%string
  else if bool_decide (chainName = ChainName_PreProdSepolia) then Ok "preprod-sepolia"%string
  else Err "unsupported chain name: %s".

Definition GetSupportedChainIDs : list Z := [ChainId_EthereumMainnet; ChainId_EthereumSepolia; ChainId_EthereumAnvil].

Record CoreContractAddresses := mkCoreContracts {
  AllocationManager : string;
  DelegationManager : string;
  ReleaseManager : string;
  KeyRegistrar : string
}.

Definition ethereumSepoliaCoreContracts : CoreContractAddresses := mkCoreContracts
  "0x42583067658071247ec8ce0a516a58f682002d07" "0xd4a7e1bd8015057293f0d0a557088c286942e84b"
  "0x59c8D715DCa616e032B744a753C017c9f3E16bf4" "0xa4db30d08d8bbca00d40600bee9f029984db162a".

Definition CoreContracts : gmap Z CoreContractAddresses := list_to_map [
  (ChainId_EthereumMainnet, mkCoreContracts "0x42583067658071247ec8CE0A516A58f682002d07" "0xD4A7E1Bd8015057293f0D0A557088c286942e84b" "" "");
  (ChainId_EthereumSepolia, ethereumSepoliaCoreContracts);
  (ChainId_EthereumAnvil, ethereumSepoliaCoreContracts);
  (ChainId_BaseAnvil, ethereumSepoliaCoreContracts);
  (ChainId_BaseSepolia, mkCoreContracts "" "" "" "")].

Definition GetCoreContractsForChainId (chainId : Z) : res CoreContractAddresses :=
  from_opt "unsupported chain ID: %d" (CoreContracts !! chainId).

(** ** The configuration records *)

Record ECDSAKeyConfig := mkECDSAKeyConfig {
  ekc_UseRemoteSigner : bool;
  ekc_RemoteSignerConfig : option RemoteSignerConfig;
  ekc_PrivateKey : string
}.

Record OperatorConfig := mkOperatorConfig {
  oc_Address : string;
  oc_SigningConfig : option ECDSAKeyConfig
}.

Record RedisConfig := mkRedisConfig {
  rc_Address : string;
  rc_Password : string;
  rc_DB : Z;
  rc_KeyPrefix : string
}.

Record PersistenceConfig := mkPersistenceConfig {
  pc_Type : string;
  pc_DataPath : string;
  pc_RedisConfig : option RedisConfig
}.

Record KMSServerConfig := mkKMSServerConfig {
  c_OperatorAddress : string;
  c_Port : Z;
  c_ChainID : Z;
  c_ChainName : string;
  c_RpcUrl : string;
  c_AVSAddress : string;
  c_OperatorSetId : Z;
  c_BaseRpcUrl : string;
  c_CommitmentRegistryAddress : string;
  c_Debug : bool;
  c_Verbose : bool;
  c_AppAllowlist : list string;
  c_PersistenceConfig : PersistenceConfig;
  c_CoreContracts : option CoreContractAddresses;
  c_OperatorConfig : option OperatorConfig
}.

(** The assignments of [Validate]. *)
Definition set_Type (t : string) (pc : PersistenceConfig) : PersistenceConfig := mkPersistenceConfig t (pc_DataPath pc) (pc_RedisConfig pc).
Definition set_DataPath (p : string) (pc : PersistenceConfig) : PersistenceConfig := mkPersistenceConfig (pc_Type pc) p (pc_RedisConfig pc).
Definition set_ChainName (s : string) (c : KMSServerConfig) : KMSServerConfig :=
  mkKMSServerConfig (c_OperatorAddress c) (c_Port c) (c_ChainID c) s (c_RpcUrl c) (c_AVSAddress c) (c_OperatorSetId c) (c_BaseRpcUrl c)
    (c_CommitmentRegistryAddress c) (c_Debug c) (c_Verbose c) (c_AppAllowlist c) (c_PersistenceConfig c) (c_CoreContracts c) (c_OperatorConfig c).
Definition set_CoreContracts (a : CoreContractAddresses) (c : KMSServerConfig) : KMSServerConfig :=
  mkKMSServerConfig (c_OperatorAddress c) (c_Port c) (c_ChainID c) (c_ChainName c) (c_RpcUrl c) (c_AVSAddress c) (c_OperatorSetId c) (c_BaseRpcUrl c)
    (c_CommitmentRegistryAddress c) (c_Debug c) (c_Verbose c) (c_AppAllowlist c) (c_PersistenceConfig c) (Some a) (c_OperatorConfig c).
Definition set_PersistenceConfig (p : PersistenceConfig) (c : KMSServerConfig) : KMSServerConfig :=
  mkKMSServerConfig (c_OperatorAddress c) (c_Port c) (c_ChainID c) (c_ChainName c) (c_RpcUrl c) (c_AVSAddress c) (c_OperatorSetId c) (c_BaseRpcUrl c)
    (c_CommitmentRegistryAddress c) (c_Debug c) (c_Verbose c) (c_AppAllowlist c) p (c_CoreContracts c) (c_OperatorConfig c).

(** ** Validation *)

Section Validate.
Context `{ConfigLib}.

(** [if len(allErrors) > 0 { return allErrors.ToAggregate() }]. *)
Definition aggregate (allErrors : list field_error) : res unit :=
  match allErrors with [] => Ok tt | _ :: _ => Err (ToAggregate allErrors) end.

Definition RemoteSignerConfig_Validate (rsc : RemoteSignerConfig) : res unit :=
  aggregate
    ((if bool_decide (rsc_FromAddress rsc = "") then [Required "fromAddress" "fromAddress is required"] else []) ++
     (if bool_decide (rsc_PublicKey rsc = "") then [Required "publicKey" "publicKey is required"] else [])).

Definition ECDSAKeyConfig_Validate (ekc : ECDSAKeyConfig) : res unit :=
  aggregate
    (if ekc_UseRemoteSigner ekc then
       match ekc_RemoteSignerConfig ekc with
       | None => [Required "remoteSignerConfig" "remoteSignerConfig is required when UseRemoteSigner is true"]
       | Some rsc => match RemoteSignerConfig_Validate rsc with Err e => [Invalid "remoteSignerConfig" rsc e] | Ok _ => [] end
       end
     else []).

Definition OperatorConfig_Validate (oc : OperatorConfig) : res unit :=
  aggregate
    ((if bool_decide (oc_Address oc = "") then [Required "address" "address is required"] else []) ++
     (if bool_decide (oc_SigningConfig oc = None) then [Required "signingConfig" "signingConfig is required"] else [])).

Definition PersistenceConfig_Validate : SM PersistenceConfig unit :=
  _ ← sm_modify (fun pc => if bool_decide (pc_Type pc = "") then set_Type "badger" pc else pc);
  pc ← sm_get;
  _ ← sm_lift (fail_if (negb (bool_decide (pc_Type pc = "memory")) && negb (bool_decide (pc_Type pc = "badger")) && negb (bool_decide (pc_Type pc = "redis")))
         "persistence type must be 'memory', 'badger', or 'redis', got '%s'");
  _ ← sm_modify (fun pc => if bool_decide (pc_Type pc = "badger") && bool_decide (pc_DataPath pc = "") then set_DataPath "./kms-data" pc else pc);
  if bool_decide (pc_Type pc = "redis") then
    rc ← sm_lift (from_opt "redis_config is required when persistence type is 'redis'" (pc_RedisConfig pc));
    _ ← sm_lift (fail_if (bool_decide (rc_Address rc = "")) "redis address cannot be empty");
    sm_lift (fail_if ((rc_DB rc <? 0) || (rc_DB rc >? 15)) "redis DB must be between 0 and 15, got %d")
  else mret tt.

(** [c.PersistenceConfig.Validate()] changes [c] in place. *)
Definition on_PersistenceConfig {A} (m : SM PersistenceConfig A) : SM KMSServerConfig A := fun c =>
  let '(pc, r) := m (c_PersistenceConfig c) in (set_PersistenceConfig pc c, r).

Definition KMSServerConfig_Validate : SM KMSServerConfig unit :=
  c ← sm_get;
  _ ← sm_lift (fail_if (bool_decide (c_OperatorAddress c = "")) "operator address cannot be empty");
  _ ← sm_lift (fail_if (negb (IsHexAddress (c_OperatorAddress c))) "invalid operator address format: %s");
  oc ← sm_lift (from_opt "operator config cannot be nil" (c_OperatorConfig c));
  _ ← sm_lift (wrap "invalid operator config" (OperatorConfig_Validate oc));
  _ ← sm_lift (fail_if ((c_Port c <? 1) || (c_Port c >? 65535)) "port must be between 1-65535, got %d");
  chainName ← sm_lift (from_opt "unsupported chain ID %d. Supported: %d (mainnet), %d (sepolia), %d (anvil)" (ChainIdToName !! c_ChainID c));
  _ ← sm_modify (set_ChainName chainName);
  coreContracts ← sm_lift (wrap "failed to get core contracts" (GetCoreContractsForChainId (c_ChainID c)));
  _ ← sm_modify (set_CoreContracts coreContracts);
  sm_wrap "invalid persistence config" (on_PersistenceConfig PersistenceConfig_Validate).

End Validate.

(** ** The server: [cmd/kmsServer/main.go] *)

(** The flags as the command-line library returns them. *)
Record cli_Context := mkContext {
  flag_String : string -> string;
  flag_Bool : string -> bool;
  flag_Int : string -> Z;
  flag_Uint64 : string -> Z;
  flag_Uint : string -> Z;
  flag_StringSlice : string -> list string
}.

Definition parseKMSConfig (c : cli_Context) : KMSServerConfig :=
  let operatorConfig :=
    if flag_Bool c "use-remote-signer" then
      mkOperatorConfig (flag_String c "operator-address")
        (Some (mkECDSAKeyConfig true
          (Some (mkRemoteSignerConfig (flag_String c "web3signer-url") (flag_String c "web3signer-ca-cert") (flag_String c "web3signer-cert")
             (flag_String c "web3signer-key") (flag_String c "web3signer-from-address") (flag_String c "web3signer-public-key"))) ""))
    else
      mkOperatorConfig (flag_String c "operator-address") (Some (mkECDSAKeyConfig false None (flag_String c "ecdsa-private-key"))) in
  let persistenceConfig := mkPersistenceConfig (flag_String c "persistence-type") (flag_String c "persistence-data-path")
    (if bool_decide (flag_String c "persistence-type" = "redis")
     then Some (mkRedisConfig (flag_String c "redis-address") (flag_String c "redis-password") (flag_Int c "redis-db") (flag_String c "redis-key-prefix"))
     else None) in
  mkKMSServerConfig (flag_String c "operator-address") (flag_Int c "port") (flag_Uint64 c "chain-id") "" (flag_String c "rpc-url")
    (flag_String c "avs-address") (flag_Uint c "operator-set-id" `mod` 2 ^ 32) (flag_String c "base-rpc-url")
    (flag_String c "commitment-registry-address") (flag_Bool c "verbose") (flag_Bool c "verbose") (flag_StringSlice c "app-allowlist")
    persistenceConfig None (Some operatorConfig).

(** What [runKMSServer] makes of the configuration; following a [nil] pointer is [None]. *)
Definition node_config (c : KMSServerConfig) : NodeOps.Config :=
  NodeOps.mkConfig (c_OperatorAddress c) (c_ChainID c) (c_AppAllowlist c).

Inductive signer_choice :=
| RemoteSigner (rsc : RemoteSignerConfig)
| LocalKey (privateKey : string).

Definition choose_signer (c : KMSServerConfig) : option signer_choice :=
  oc ← c_OperatorConfig c;
  ekc ← oc_SigningConfig oc;
  if ekc_UseRemoteSigner ekc then RemoteSigner <$> ekc_RemoteSignerConfig ekc else Some (LocalKey (ekc_PrivateKey ekc)).

Inductive store_choice :=
| UseBadger (path : string)
| UseRedis (rc : RedisConfig)
| UseMemory.

Definition choose_store (c : KMSServerConfig) : option store_choice :=
  if bool_decide (pc_Type (c_PersistenceConfig c) = "badger") then Some (UseBadger (pc_DataPath (c_PersistenceConfig c)))
  else if bool_decide (pc_Type (c_PersistenceConfig c) = "redis") then UseRedis <$> pc_RedisConfig (c_PersistenceConfig c)
  else Some UseMemory.

(** ** Well-formed configurations *)

Record persistence_ok (pc : PersistenceConfig) : Prop := {
  pc_known : pc_Type pc = "memory" \/ pc_Type pc = "badger" \/ pc_Type pc = "redis";
  pc_badger : pc_Type pc = "badger" -> pc_DataPath pc <> "";
  pc_redis : pc_Type pc = "redis" -> exists rc, pc_RedisConfig pc = Some rc /\ rc_Address rc <> "" /\ 0 <= rc_DB rc <= 15
}.

Record well_configured `{ConfigLib} (c : KMSServerConfig) : Prop := {
  wc_address : c_OperatorAddress c <> "" /\ IsHexAddress (c_OperatorAddress c) = true;
  wc_operator : exists oc, c_OperatorConfig c = Some oc /\ oc_Address oc <> "" /\ oc_SigningConfig oc <> None;
  wc_port : 1 <= c_Port c <= 65535;
  wc_chain : ChainIdToName !! c_ChainID c = Some (c_ChainName c);
  wc_contracts : c_CoreContracts c = CoreContracts !! c_ChainID c;
  wc_persistence : persistence_ok (c_PersistenceConfig c)
}.

(** What validation may change: the chain name and the contracts, which it derives from the
    chain, and the persistence settings left empty. *)
Definition completes (c c' : KMSServerConfig) : Prop :=
  exists name contracts pc,
    c' = set_PersistenceConfig pc (set_CoreContracts contracts (set_ChainName name c)) /\
    pc_RedisConfig pc = pc_RedisConfig (c_PersistenceConfig c) /\
    (pc_Type (c_PersistenceConfig c) <> "" -> pc_Type pc = pc_Type (c_PersistenceConfig c)) /\
    (pc_DataPath (c_PersistenceConfig c) <> "" -> pc_DataPath pc = pc_DataPath (c_PersistenceConfig c)).

(** ** Facts *)

Lemma sm_wrap_ok {S A} msg (m : SM S A) s s' a : sm_wrap msg m s = (s', Ok a) <-> m s = (s', Ok a).
Proof. unfold sm_wrap. destruct (m s) as [s1 [b|e]]; cbn; split; congruence. Qed.
Lemma sm_lift_ok {S A} (r : res A) (s s' : S) a : sm_lift r s = (s', Ok a) <-> s' = s /\ r = Ok a.
Proof. unfold sm_lift. split; [by intros [= -> ->]|by intros [-> ->]]. Qed.
Lemma sm_modify_ok {S} (f : S -> S) s s' u : sm_modify f s = (s', Ok u) <-> s' = f s.
Proof. unfold sm_modify. destruct u. split; congruence. Qed.
Lemma sm_get_ok {S} (s s' a : S) : sm_get s = (s', Ok a) <-> s' = s /\ a = s.
Proof. unfold sm_get. split; [by intros [= -> ->]|by intros [-> ->]]. Qed.

Lemma aggregate_ok `{ConfigLib} es u : aggregate es = Ok u <-> es = [].
Proof. destruct es, u; cbn; split; congruence. Qed.

Lemma OperatorConfig_Validate_ok `{ConfigLib} oc u : OperatorConfig_Validate oc = Ok u <-> oc_Address oc <> "" /\ oc_SigningConfig oc <> None.
Proof. unfold OperatorConfig_Validate. rewrite aggregate_ok. repeat case_bool_decide; cbn; split; (done || tauto). Qed.

(** What [PersistenceConfig.Validate] leaves in place of the empty settings. *)
Definition with_defaults (pc : PersistenceConfig) : PersistenceConfig :=
  let pc := if bool_decide (pc_Type pc = "") then set_Type "badger" pc else pc in
  if bool_decide (pc_Type pc = "badger") && bool_decide (pc_DataPath pc = "") then set_DataPath "./kms-data" pc else pc.

Lemma PersistenceConfig_Validate_ok pc pc' :
  PersistenceConfig_Validate pc = (pc', Ok tt) <-> pc' = with_defaults pc /\ persistence_ok (with_defaults pc).
Proof.
  unfold PersistenceConfig_Validate, with_defaults, mbind, sm_bind, sm_modify. cbv beta iota zeta.
  generalize (if bool_decide (pc_Type pc = "") then set_Type "badger" pc else pc). clear pc. intros [t p rc].
  unfold sm_get, sm_lift, fail_if, mret, sm_ret, set_DataPath. cbn [pc_Type pc_DataPath pc_RedisConfig].
  destruct (decide (t = "memory")) as [->|Hm]; [|destruct (decide (t = "badger")) as [->|Hb]; [|destruct (decide (t = "redis")) as [->|Hr]]].
  - cbn. split; [intros [= <-]; split; [done|constructor; cbn; [tauto|done|done]]|by intros [-> _]].
  - change (bool_decide ("badger" = "memory")%string) with false. change (bool_decide ("badger" = "badger")%string) with true.
    change (bool_decide ("badger" = "redis")%string) with false. cbn. case_bool_decide as Hp; cbn.
    + split; [intros [= <-]; split; [done|constructor; cbn; [tauto|done|done]]|by intros [-> _]].
    + split; [intros [= <-]; split; [done|constructor; cbn; [tauto|done|done]]|by intros [-> _]].
  - change (bool_decide ("redis" = "memory")%string) with false. change (bool_decide ("redis" = "badger")%string) with false.
    change (bool_decide ("redis" = "redis")%string) with true. cbn. destruct rc as [rc|]; cbn.
    2: { split; [done|]. intros [_ [_ _ (? & ? & _)%(fun H => H eq_refl)]]. done. }
    case_bool_decide as Ha; cbn.
    { split; [done|]. intros [_ [_ _ (? & [= <-] & ? & _)%(fun H => H eq_refl)]]. done. }
    rewrite Z.gtb_ltb. destruct (Z.ltb_spec (rc_DB rc) 0), (Z.ltb_spec 15 (rc_DB rc)); cbn.
    1-3: split; [done|]; intros [_ [_ _ (? & [= <-] & _ & ?)%(fun H => H eq_refl)]]; lia.
    split; [intros [= <-]; split; [done|constructor; cbn; [tauto|done|]]|by intros [-> _]]. intros _. exists rc. auto.
  - rewrite !bool_decide_false by done. cbn. split; [done|]. intros [_ [[?|[?|?]] _ _]]; done.
Qed.

Lemma with_defaults_id pc : persistence_ok pc -> with_defaults pc = pc.
Proof.
  intros [Hk Hb _]. unfold with_defaults. cbv zeta.
  rewrite (bool_decide_false (pc_Type pc = "")) by (destruct Hk as [-> | [-> | ->]]; done).
  destruct (decide (pc_Type pc = "badger")) as [Ht|Ht]; [|by rewrite (bool_decide_false (pc_Type pc = "badger"))].
  by rewrite (bool_decide_false (pc_DataPath pc = "")), andb_false_r by auto.
Qed.

Lemma with_defaults_keeps pc : pc_RedisConfig (with_defaults pc) = pc_RedisConfig pc /\
  (pc_Type pc <> "" -> pc_Type (with_defaults pc) = pc_Type pc) /\
  (pc_DataPath pc <> "" -> pc_DataPath (with_defaults pc) = pc_DataPath pc).
Proof.
  unfold with_defaults. cbv zeta. destruct (bool_decide (pc_Type pc = "")) eqn:Ht.
  all: match goal with |- context [if ?b then _ else _] => destruct b eqn:Hb end; cbn; split_and!; try done.
  all: try (apply bool_decide_eq_true in Ht; by intros []).
  all: apply andb_true_iff in Hb as [_ Hp%bool_decide_eq_true]; cbn in Hp; by intros [].
Qed.

Lemma chain_contracts chainId name : ChainIdToName !! chainId = Some name -> exists contracts, CoreContracts !! chainId = Some contracts.
Proof.
  unfold ChainIdToName, CoreContracts. cbn [list_to_map foldr]. intros Hn. apply elem_of_dom.
  rewrite !dom_insert. apply elem_of_dom_2 in Hn. by rewrite !dom_insert in Hn.
Qed.

(** [sm_ok H] opens every successful step of a stateful computation. *)
Ltac sm_ok H := repeat match type of H with
  | (_ ≫= _) _ = (_, Ok _) =>
      let Hs := fresh "Hs" in apply sm_bind_ok in H as (? & ? & Hs & H);
      first [apply sm_get_ok in Hs as [? ?] | apply sm_modify_ok in Hs | apply sm_lift_ok in Hs as [? Hs]]; subst
  end; repeat match goal with
  | Hs : wrap _ _ = Ok _ |- _ => apply wrap_ok in Hs
  | Hs : fail_if _ _ = Ok _ |- _ => apply fail_if_ok in Hs
  | Hs : from_opt _ _ = Ok _ |- _ => apply from_opt_ok in Hs
  end.

Section Facts.
Context `{ConfigLib}.

Lemma on_PersistenceConfig_ok {A} (m : SM PersistenceConfig A) c c' a :
  on_PersistenceConfig m c = (c', Ok a) <-> exists pc, m (c_PersistenceConfig c) = (pc, Ok a) /\ c' = set_PersistenceConfig pc c.
Proof. unfold on_PersistenceConfig. destruct (m _) as [pc [b|e]]; split; naive_solver. Qed.

Lemma port_ok p : (p <? 1) || (p >? 65535) = false <-> 1 <= p <= 65535.
Proof. rewrite orb_false_iff, Z.gtb_ltb, !Z.ltb_ge. lia. Qed.

(** The configuration [c] once validated on a chain of this name and these contracts. *)
Definition validated (name : string) (contracts : CoreContractAddresses) (c : KMSServerConfig) : KMSServerConfig :=
  set_PersistenceConfig (with_defaults (c_PersistenceConfig c)) (set_CoreContracts contracts (set_ChainName name c)).

Record acceptable (c : KMSServerConfig) : Prop := {
  acc_address : c_OperatorAddress c <> "" /\ IsHexAddress (c_OperatorAddress c) = true;
  acc_operator : exists oc, c_OperatorConfig c = Some oc /\ oc_Address oc <> "" /\ oc_SigningConfig oc <> None;
  acc_port : 1 <= c_Port c <= 65535;
  acc_persistence : persistence_ok (with_defaults (c_PersistenceConfig c))
}.

Lemma KMSServerConfig_Validate_ok c c' : KMSServerConfig_Validate c = (c', Ok tt) <->
  acceptable c /\ exists name contracts,
    ChainIdToName !! c_ChainID c = Some name /\ CoreContracts !! c_ChainID c = Some contracts /\ c' = validated name contracts c.
Proof.
  unfold KMSServerConfig_Validate. split.
  - intros Hv. sm_ok Hv. apply sm_wrap_ok, on_PersistenceConfig_ok in Hv as (pc & [-> Hpc]%PersistenceConfig_Validate_ok & ->).
    apply bool_decide_eq_false in Hs. apply negb_false_iff in Hs0. apply OperatorConfig_Validate_ok in Hs2. apply port_ok in Hs3. apply from_opt_ok in Hs5.
    split; [constructor; eauto|]. eauto.
  - intros ([[Ha1 Ha2] (oc & Hoc & Hop) Hp Hpc] & name & contracts & Hn & Hc & ->).
    unfold mbind, sm_bind, sm_get, sm_modify, sm_lift, GetCoreContractsForChainId.
    rewrite (bool_decide_false (c_OperatorAddress c = "")), Ha2, Hoc, Hn, Hc by done. cbn [negb fail_if from_opt wrap].
    rewrite (proj2 (OperatorConfig_Validate_ok oc tt) Hop), (proj2 (port_ok _) Hp). cbn [fail_if wrap].
    apply sm_wrap_ok, on_PersistenceConfig_ok. eexists. split; [|done]. by apply PersistenceConfig_Validate_ok.
Qed.

(** C39: A configuration is well formed when its operator address is one, its operator names
    an address and has a signing configuration (which is not looked into), its port is one,
    its chain is supported and named by its name and contracts, and its store is known and
    has what it needs (a path, or a Redis address and a database from 0 to 15).  The
    configurations that validation accepts and leaves as they are are exactly the
    well-formed ones; whatever it accepts it makes well formed, changing only the chain
    name, the contracts and the store settings that were empty. *)
Theorem validated_config c c' : KMSServerConfig_Validate c = (c', Ok tt) ->
  well_configured c' /\ completes c c' /\ KMSServerConfig_Validate c' = (c', Ok tt) /\
  (forall d, well_configured d <-> KMSServerConfig_Validate d = (d, Ok tt)).
Proof.
  assert (Hwf : forall d, well_configured d -> KMSServerConfig_Validate d = (d, Ok tt)).
  { intros d [Ha Ho Hp Hch Hcc Hpc]. apply KMSServerConfig_Validate_ok.
    destruct (chain_contracts _ _ Hch) as [contracts Hcon]. rewrite Hcon in Hcc.
    split; [constructor; auto; by rewrite with_defaults_id|]. exists (c_ChainName d), contracts. split_and!; [done..|].
    unfold validated. rewrite with_defaults_id by done. unfold set_PersistenceConfig, set_CoreContracts. cbn. rewrite <- Hcc. by destruct d. }
  assert (Hto : forall d d', KMSServerConfig_Validate d = (d', Ok tt) -> well_configured d').
  { intros d d' ([Ha Ho Hp Hpc] & name & contracts & Hn & Hc & ->)%KMSServerConfig_Validate_ok. by constructor. }
  intros Hv. pose proof (Hto _ _ Hv) as Hw. split_and!; [done| |by apply Hwf|split; [by apply Hwf|by apply Hto]].
  apply KMSServerConfig_Validate_ok in Hv as (_ & name & contracts & _ & _ & ->).
  exists name, contracts, (with_defaults (c_PersistenceConfig c)). split; [done|]. apply with_defaults_keeps.
Qed.

(** The store that the flags name. *)
Definition named (f : cli_Context) (store : store_choice) : Prop :=
  match store with
  | UseMemory => flag_String f "persistence-type" = "memory"
  | UseBadger path => (flag_String f "persistence-type" = "" \/ flag_String f "persistence-type" = "badger") /\
      path = (if decide (flag_String f "persistence-data-path" = "") then "./kms-data"%string else flag_String f "persistence-data-path")
  | UseRedis rc => flag_String f "persistence-type" = "redis" /\ rc_Address rc = flag_String f "redis-address" /\
      rc_Address rc <> "" /\ rc_DB rc = flag_Int f "redis-db" /\ 0 <= rc_DB rc <= 15
  end.

Lemma store_named f c : c_PersistenceConfig c = with_defaults (c_PersistenceConfig (parseKMSConfig f)) ->
  persistence_ok (c_PersistenceConfig c) -> exists store, choose_store c = Some store /\ named f store.
Proof.
  unfold choose_store. intros Hc. rewrite Hc. clear Hc c. cbn [c_PersistenceConfig parseKMSConfig].
  set (t := flag_String f "persistence-type"). set (d := flag_String f "persistence-data-path").
  set (rc := if bool_decide (t = "redis") then _ else _).
  assert (Hd : forall t0, t0 = "badger" -> (t = "" \/ t = "badger") ->
    with_defaults (mkPersistenceConfig t d rc) = with_defaults (mkPersistenceConfig t0 d rc)) by (intros t0 -> [-> | ->]; done).
  assert (Hbad : with_defaults (mkPersistenceConfig "badger" d rc) = mkPersistenceConfig "badger" (if decide (d = "") then "./kms-data"%string else d) rc).
  { unfold with_defaults. cbn. destruct (decide (d = "")) as [Hd0|Hd0]; [by rewrite (bool_decide_true (d = "")) by done|by rewrite (bool_decide_false (d = "")) by done]. }
  destruct (decide (t = "" \/ t = "badger")) as [Hb|Hb].
  { rewrite (Hd "badger"%string eq_refl Hb), Hbad. intros _. eexists. split; [done|]. by split. }
  unfold with_defaults. cbn [pc_Type]. rewrite (bool_decide_false (t = "")) by tauto. cbn [pc_Type]. rewrite (bool_decide_false (t = "badger")) by tauto.
  cbn [andb pc_Type pc_RedisConfig]. rewrite (bool_decide_false (t = "badger")) by tauto. intros [Hk _ Hr].
  cbn in Hk, Hr. destruct (decide (t = "redis")) as [Ht|Ht].
  - rewrite bool_decide_true by done. destruct (Hr Ht) as (r & Hrc & Ha & Hdb). rewrite Hrc. eexists. split; [done|].
    unfold rc in Hrc. rewrite bool_decide_true in Hrc by done. injection Hrc as <-. cbn in *. auto.
  - rewrite bool_decide_false by done. eexists. split; [done|]. cbn. fold t. tauto.
Qed.

(** A server whose flags passed validation starts: it follows no nil pointer when it
    chooses a signer and a store, the store is the one the flags name (Badger by default, at
    [./kms-data] by default; a Redis store has an address and a database from 0 to 15), and the
    node it makes runs on the chain of the flags, which is a supported one. *)
Theorem server_start_safe `{EthAddr} {Fr P : Type} (f : cli_Context) c : KMSServerConfig_Validate (parseKMSConfig f) = (c, Ok tt) ->
  choose_signer c = Some
    (if flag_Bool f "use-remote-signer"
     then RemoteSigner (mkRemoteSignerConfig (flag_String f "web3signer-url") (flag_String f "web3signer-ca-cert") (flag_String f "web3signer-cert")
            (flag_String f "web3signer-key") (flag_String f "web3signer-from-address") (flag_String f "web3signer-public-key"))
     else LocalKey (flag_String f "ecdsa-private-key")) /\
  (exists store, choose_store c = Some store /\ named f store) /\
  (forall registry (p : P), registry <> 0 -> exists n : Node Fr P,
    NewNode (node_config c) true true registry p = Ok n /\ ChainID n = flag_Uint64 f "chain-id" /\ is_Some (ChainIdToName !! ChainID n)).
Proof.
  intros (Hacc & name & contracts & Hn & _ & ->)%KMSServerConfig_Validate_ok. split_and!.
  - unfold choose_signer. cbn. by destruct (flag_Bool f "use-remote-signer").
  - apply store_named; [done|]. by destruct Hacc.
  - intros registry p Hreg. unfold NewNode. cbn [negb]. rewrite (proj2 (Z.eqb_neq registry 0) Hreg). eexists. split; [done|]. by cbn in *.
Qed.

End Facts.

(** Validation does not look at the signing configuration: a remote signer without address
    and public key, or without any configuration, passes. *)
Lemma signing_unchecked `{ConfigLib} c c' oc signing :
  KMSServerConfig_Validate c = (c', Ok tt) -> c_OperatorConfig c = Some oc ->
  exists d, KMSServerConfig_Validate
    (mkKMSServerConfig (c_OperatorAddress c) (c_Port c) (c_ChainID c) (c_ChainName c) (c_RpcUrl c) (c_AVSAddress c) (c_OperatorSetId c)
       (c_BaseRpcUrl c) (c_CommitmentRegistryAddress c) (c_Debug c) (c_Verbose c) (c_AppAllowlist c) (c_PersistenceConfig c) (c_CoreContracts c)
       (Some (mkOperatorConfig (oc_Address oc) (Some signing)))) = (d, Ok tt).
Proof.
  intros ([Ha (o & Ho & Hoa & _) Hp Hpc] & name & contracts & Hn & Hc & _)%KMSServerConfig_Validate_ok Hoc. rewrite Ho in Hoc. injection Hoc as ->.
  eexists. apply KMSServerConfig_Validate_ok. split; [constructor; cbn; [done| |done..]|].
  - eexists. split; [done|]. by split.
  - exists name, contracts. split_and!; [exact Hn|exact Hc|reflexivity].
Qed.

(** ** Witnesses *)

#[local] Instance demo_lib : ConfigLib := {
  IsHexAddress s := (String.length s =? 42)%nat;
  ToAggregate es := "aggregate"
}.

Definition demo_flags : cli_Context := mkContext
  (fun name => if bool_decide (name = "operator-address") then "0x00000000000000000000000000000000000000a1"%string
               else if bool_decide (name = "ecdsa-private-key") then "0x01"%string else ""%string)
  (fun _ => false) (fun name => if bool_decide (name = "port") then 8080 else 0)
  (fun name => if bool_decide (name = "chain-id") then 31337 else 0) (fun _ => 0) (fun _ => []).

Definition demo_config : KMSServerConfig := (KMSServerConfig_Validate (parseKMSConfig demo_flags)).1.

Lemma validated_config_witness : well_configured demo_config /\ c_ChainName demo_config = "devnet".
Proof.
  split; [|reflexivity].
  destruct (validated_config (parseKMSConfig demo_flags) demo_config) as (Hw & _); [reflexivity|exact Hw].
Defined.

#[local] Instance demo_addr : EthAddr := { Hex _ := "0x"; HexToAddress _ := 1 }.

Lemma server_start_safe_witness : choose_signer demo_config = Some (LocalKey "0x01") /\ choose_store demo_config = Some (UseBadger "./kms-data").
Proof.
  destruct (server_start_safe (Fr := Z) (P := unit) demo_flags demo_config) as (Hs & (store & Hst & Hn) & _); [reflexivity|].
  split; [exact Hs|]. rewrite Hst. vm_compute in Hst. injection Hst as <-. reflexivity.
Defined.
