(* ===== verification/InitData.v ===== *)
(** * The init-data document of an [eigenx-snp] guest

    The document a guest is launched with ([cc_init_data]): its wire format, raw TOML or
    base64 of gzip, and the image reference that is taken from the policy inside it
    ([parseInitDataPolicy] of [pkg/attestation/eigenx_snp_method.go]).  The regular expression
    of the source is written out as a search.  The theorems: the search returns the leftmost
    match and the longest one there, which lies on one line that is not a comment; the wire
    format is undone, padded or not. *)

From S2P Require Import Prelude Bytes GoText Base64 Attestation.
From Stdlib Require Import Ascii.

(** [compress/gzip] and the TOML library: a reader after its header; what it yields up to a
    limit ([io.LimitReader]); the [data] table of a document. *)
Class InitDataLib := {
  gzip_Reader : Type;
  gzip_NewReader : bytes -> res gzip_Reader;
  gzip_ReadAll : Z -> gzip_Reader -> res bytes;
  toml_data : bytes -> res (gmap string any)
}.

(** ** The wire format *)

Definition maxDecompressedInitData : Z := Z.shiftl 8 20.

(** [bytes.TrimSpace] *)
Definition trim (input : bytes) : list ascii := chars_of (TrimSpace (string_of (bytes_text input))).

Section Wire.
Context `{InitDataLib}.

(** Base64 is decoded as the gzip reader reads; whichever of the two finds the error, it is
    returned. *)
Definition decodeInitDataWire (input : bytes) : res bytes :=
  let trimmed := trim input in
  _ ← fail_if (bool_decide (trimmed = [])) "empty cc_init_data";
  if bool_decide (strip (chars_of "H4sI") trimmed = None) then Ok (text_bytes trimmed) else
  let stripped := TrimRight_pad trimmed in
  raw ← wrap "gzip reader" (DecodeString RawStdEncoding stripped);
  gzReader ← wrap "gzip reader" (gzip_NewReader raw);
  out ← wrap "read decompressed cc_init_data" (gzip_ReadAll (maxDecompressedInitData + 1) gzReader);
  _ ← fail_if (Z.of_nat (length out) >? maxDecompressedInitData) "decompressed cc_init_data exceeds %d bytes";
  Ok out.
End Wire.

(** ** The policy *)

Definition initDataPolicyKey : string := "policy.rego".

(** [strings.Join(lines, "\n")] *)
Fixpoint Join (c : ascii) (lines : list (list ascii)) : list ascii :=
  match lines with
  | [] => []
  | [l] => l
  | l :: lines => l ++ c :: Join c lines
  end.

Fixpoint trim_blanks (l : list ascii) : list ascii :=
  match l with
  | c :: l' => if Ascii.eqb c " " || Ascii.eqb c (byte 9) then trim_blanks l' else l
  | [] => []
  end.
Definition is_comment (line : list ascii) : bool := bool_decide (head (trim_blanks line) = Some "#"%char).

Definition line_feed : ascii := byte 10.
Definition stripRegoComments (rego : list ascii) : list ascii :=
  Join line_feed (filter (fun l => is_comment l = false) (Split line_feed rego)).

(** *** [(\S+)@sha256:([a-f0-9]{64})] *)

Definition nonspace (c : ascii) : bool := negb (existsb (Ascii.eqb c) (byte <$> [9; 10; 12; 13; 32]%nat)).
Definition lower_hex (c : ascii) : bool :=
  let n := nat_of_ascii c in ((48 <=? n) && (n <=? 57) || (97 <=? n) && (n <=? 102))%nat.

Definition at_sha256 : list ascii := chars_of "@sha256:".

Definition digest_here (l : list ascii) : option (list ascii) :=
  rest ← strip at_sha256 l;
  let d := take 64 rest in
  if (length d =? 64)%nat && forallb lower_hex d then Some d else None.

(** [\S+] takes as much as it can and gives back until the rest matches; [n] bytes are taken. *)
Fixpoint greedy (n : nat) (l : list ascii) : option (nat * list ascii) :=
  let here := if (0 <? n)%nat then pair n <$> digest_here l else None in
  match l with
  | c :: l => if nonspace c then match greedy (S n) l with Some m => Some m | None => here end else here
  | [] => here
  end.

Fixpoint FindStringSubmatch (l : list ascii) : option (list ascii * list ascii) :=
  match greedy 0 l with
  | Some (n, d) => Some (take n l, d)
  | None => match l with [] => None | _ :: l => FindStringSubmatch l end
  end.

(** *** [parseInitDataPolicy] *)

Definition quote (c : ascii) : bool := Ascii.eqb c (byte 34) || Ascii.eqb c "'" || Ascii.eqb c "`".
Fixpoint drop_quotes (l : list ascii) : list ascii :=
  match l with c :: l' => if quote c then drop_quotes l' else l | [] => [] end.
Definition trim_quotes (l : list ascii) : list ascii := rev (drop_quotes (rev (drop_quotes l))).

Definition parseInitDataPolicy `{InitDataLib} (ccInitData : bytes) : res (string * string) :=
  tomlBytes ← wrap "decode wire format" (decodeInitDataWire ccInitData);
  data ← wrap "decode TOML" (toml_data tomlBytes);
  rawRego ← from_opt "[data].%q not found in cc_init_data" (data !! initDataPolicyKey);
  regoStr ← match rawRego with AnyString s => Ok s | _ => Err "[data].%q is %T, want string" end;
  let stripped := stripRegoComments (chars_of regoStr) in
  '(registry, digest) ← from_opt "no `<registry>@sha256:<hex>` reference found in policy.rego" (FindStringSubmatch stripped);
  Ok (string_of (trim_quotes registry), string_of digest).

(** ** What the search finds *)

(** A reference in [l]: what is before it, its image name, its digest. *)
Record reference (l pre name digest : list ascii) : Prop := {
  ref_at : exists post, l = (pre ++ name ++ at_sha256 ++ digest ++ post)%list;
  ref_name : name <> [] /\ forallb nonspace name = true;
  ref_digest : length digest = 64%nat /\ forallb lower_hex digest = true
}.

Lemma digest_here_spec l d : digest_here l = Some d <->
  (exists post, l = (at_sha256 ++ d ++ post)%list) /\ length d = 64%nat /\ forallb lower_hex d = true.
Proof.
  unfold digest_here. destruct (strip at_sha256 l) as [rest|] eqn:Hs; cbn [mbind option_bind].
  - apply strip_spec in Hs as ->. destruct (_ && _) eqn:Hd.
    + apply andb_true_iff in Hd as [Hl%Nat.eqb_eq Hh]. split.
      * intros [= <-]. split; [|done]. exists (drop 64 rest). by rewrite take_drop.
      * intros [[post Hp] [Hd _]]. apply app_inv_head in Hp as ->. by rewrite take_app_length'.
    + split; [done|]. intros [[post Hp] [Hl Hh]]. apply app_inv_head in Hp as ->.
      rewrite take_app_length', Hl, Hh in Hd by done. done.
  - split; [done|]. intros [[post ->] _]. rewrite (proj2 (strip_one_prefix _ _ _) eq_refl) in Hs. done.
Qed.

(** The ways to match at the start of [l] after [n] bytes. *)
Definition candidate (n : nat) (l t d : list ascii) : Prop :=
  (exists post, l = (t ++ at_sha256 ++ d ++ post)%list) /\ forallb nonspace t = true /\ (0 < n + length t)%nat /\
  length d = 64%nat /\ forallb lower_hex d = true.

Lemma candidate_nil n l d : candidate n l [] d <-> (0 < n)%nat /\ digest_here l = Some d.
Proof. unfold candidate. rewrite digest_here_spec. cbn. rewrite Nat.add_0_r. tauto. Qed.

Lemma candidate_cons n c l t d : candidate n (c :: l) (c :: t) d <-> nonspace c = true /\ candidate (S n) l t d.
Proof.
  unfold candidate. cbn [forallb length app]. rewrite andb_true_iff. split.
  - intros ((post & [= Hp]) & [Hc Ht] & Hn & Hd). split; [done|]. split_and!; [by exists post|done|lia|apply Hd..].
  - intros (Hc & (post & ->) & Ht & Hn & Hd). split_and!; [by exists post|done|done|lia|apply Hd..].
Qed.

Lemma candidate_head n c l x t d : candidate n (c :: l) (x :: t) d -> x = c.
Proof. by intros ((post & [= <- _]) & _). Qed.

(** When no longer match exists, the candidates are those that take nothing more. *)
Lemma candidates_here n c l : (nonspace c = true -> forall t d, ~ candidate (S n) l t d) ->
  match (if (0 <? n)%nat then pair n <$> digest_here (c :: l) else None) with
  | Some (k, d) => exists t, candidate n (c :: l) t d /\ k = (n + length t)%nat /\ forall t' d', candidate n (c :: l) t' d' -> (length t' <= length t)%nat
  | None => forall t d, ~ candidate n (c :: l) t d
  end.
Proof.
  intros Hno. assert (Hnil : forall t d, candidate n (c :: l) t d -> t = []).
  { intros [|x t] d Ht; [done|]. pose proof (candidate_head _ _ _ _ _ _ Ht) as ->. apply candidate_cons in Ht as [Hc Ht]. by destruct (Hno Hc t d). }
  destruct (Nat.ltb_spec 0 n) as [Hn|Hn].
  - destruct (digest_here (c :: l)) as [d|] eqn:Hd; cbn.
    + exists []. split_and!; [by apply candidate_nil|cbn; lia|]. intros t' d' Ht. by rewrite (Hnil _ _ Ht).
    + intros t d Ht. rewrite (Hnil _ _ Ht) in Ht. apply candidate_nil in Ht as [_ ?]. congruence.
  - intros t d Ht. rewrite (Hnil _ _ Ht) in Ht. apply candidate_nil in Ht as [? _]. lia.
Qed.

Lemma greedy_spec n l :
  match greedy n l with
  | Some (k, d) => exists t, candidate n l t d /\ k = (n + length t)%nat /\ forall t' d', candidate n l t' d' -> (length t' <= length t)%nat
  | None => forall t d, ~ candidate n l t d
  end.
Proof.
  revert n. induction l as [|c l IH]; intros n; cbn [greedy].
  - replace (if (0 <? n)%nat then pair n <$> digest_here [] else None) with (@None (nat * list ascii)) by by destruct (0 <? n)%nat.
    intros t d ((post & Hp) & _). by destruct t.
  - specialize (IH (S n)). destruct (nonspace c) eqn:Hc; [|by apply candidates_here; congruence].
    destruct (greedy (S n) l) as [[k d]|]; [|by apply candidates_here].
    destruct IH as (t & Ht & -> & Hmax). exists (c :: t). split_and!; [by apply candidate_cons|cbn; lia|].
    intros [|x t'] d' Ht'; [cbn; lia|]. pose proof (candidate_head _ _ _ _ _ _ Ht') as ->.
    apply candidate_cons in Ht' as [_ Ht']. apply Hmax in Ht'. cbn. lia.
Qed.

Lemma candidate_reference l t d : candidate 0 l t d <-> reference l [] t d.
Proof.
  split.
  - intros (Hp & Hs & Hn & Hd & Hh). constructor; [done| |done]. split; [intros ->; cbn in Hn; lia|done].
  - intros [Hp [Hne Hs] [Hd Hh]]. split_and!; [done|done| |done|done]. destruct t; [done|cbn; lia].
Qed.

Lemma reference_cons c l x pre t d : reference (c :: l) (x :: pre) t d <-> x = c /\ reference l pre t d.
Proof.
  split.
  - intros [[post [= -> ->]] Hn Hd]. split; [done|]. constructor; [by exists post|done|done].
  - intros [-> [[post ->] Hn Hd]]. constructor; [by exists post|done|done].
Qed.

(** The search returns the leftmost reference, the longest of those that start there, and
    fails only when there is none. *)
Lemma FindStringSubmatch_spec l :
  match FindStringSubmatch l with
  | Some (name, d) => exists pre, reference l pre name d /\
      forall pre' name' d', reference l pre' name' d' -> (length pre <= length pre')%nat /\
        (length pre' = length pre -> (length name' <= length name)%nat)
  | None => forall pre name d, ~ reference l pre name d
  end.
Proof.
  induction l as [|c l IH]; cbn [FindStringSubmatch].
  - cbn. intros [|] [|] d [[post Hp] [Hn _] _]; done.
  - pose proof (greedy_spec 0 (c :: l)) as Hg. destruct (greedy 0 (c :: l)) as [[k d]|].
    + destruct Hg as (t & Ht & -> & Hmax). assert (Htake : take (0 + length t) (c :: l) = t).
      { destruct Ht as ((post & ->) & _). cbn. by rewrite take_app_length. }
      rewrite Htake. exists []. split; [by apply candidate_reference|]. intros pre' name' d' Hr. split; [cbn; lia|].
      intros Hl. destruct pre'; [|done]. apply candidate_reference in Hr. by eapply Hmax.
    + assert (Hcons : forall pre t d, reference (c :: l) pre t d -> exists pre', pre = c :: pre' /\ reference l pre' t d).
      { intros [|x pre] t d Hr; [by apply candidate_reference, Hg in Hr|]. apply reference_cons in Hr as [-> Hr]. by exists pre. }
      destruct (FindStringSubmatch l) as [[name d]|].
      * destruct IH as (pre & Hr & Hmin). exists (c :: pre). split; [by apply reference_cons|].
        intros pre' name' d' (pre1 & -> & Hr1)%Hcons. cbn. destruct (Hmin _ _ _ Hr1) as [Hle Hlong]. split; [lia|]. intros [= Hl]. by apply Hlong.
      * intros pre t d (pre' & _ & Hr)%Hcons. by apply IH in Hr.
Qed.

(** ** References lie on lines that are not comments *)

Lemma Join_line lines m l1 l2 : m <> [] -> line_feed ∉ m -> Join line_feed lines = (l1 ++ m ++ l2)%list ->
  exists line a b, line ∈ lines /\ line = (a ++ m ++ b)%list.
Proof.
  intros Hm Hlf. revert l1. induction lines as [|l lines IH]; intros l1; cbn [Join].
  { intros Hj. symmetry in Hj. apply app_nil in Hj as [_ [? _]%app_nil]. done. }
  destruct lines as [|l' lines]; [intros ->; exists (l1 ++ m ++ l2)%list, l1, l2; split; [by left|done]|].
  intros Hj. apply app_eq_inv in Hj as [(k & Hl & Hk)|(k & Hl1 & Hk)].
  - symmetry in Hk. apply app_eq_inv in Hk as [(k' & -> & Hk')|(k' & -> & Hk')].
    + exists l, l1, k'. subst l. split; [by left|done].
    + destruct k' as [|x k']; [|cbn in Hk'; injection Hk' as <- _; by destruct Hlf; rewrite elem_of_app; right; left].
      exists l, l1, []. subst l. rewrite !app_nil_r. split; [by left|done].
  - destruct k as [|x k]; cbn in Hk.
    + destruct m as [|x m]; [done|]. cbn in Hk. injection Hk as <- _. by destruct Hlf; left.
    + injection Hk as <- Hk. destruct (IH k Hk) as (line & a & b & Hin & Hline). exists line, a, b. split; [by right|done].
Qed.

Lemma nonspace_no_lf l : forallb nonspace l = true -> line_feed ∉ l.
Proof. rewrite forallb_forall. intros Hl Hin. apply list_elem_of_In, Hl in Hin. by vm_compute in Hin. Qed.
Lemma lower_hex_no_lf l : forallb lower_hex l = true -> line_feed ∉ l.
Proof. rewrite forallb_forall. intros Hl Hin. apply list_elem_of_In, Hl in Hin. by vm_compute in Hin. Qed.

Lemma lower_hex_nonspace c : lower_hex c = true -> nonspace c = true.
Proof. destruct c as [[] [] [] [] [] [] [] []]; vm_compute; done. Qed.

Lemma reference_line rego pre name d : reference (stripRegoComments rego) pre name d ->
  exists line pre', line ∈ Split line_feed rego /\ is_comment line = false /\ reference line pre' name d.
Proof.
  intros [[post Hp] [Hne Hn] [Hl Hh]]. set (m := (name ++ at_sha256 ++ d)%list).
  destruct (Join_line (filter (fun l => is_comment l = false) (Split line_feed rego)) m pre post) as (line & a & b & Hin & Hline).
  - by destruct name.
  - unfold m. rewrite !not_elem_of_app. split_and!; [by apply nonspace_no_lf| |by apply lower_hex_no_lf]. by apply nonspace_no_lf.
  - unfold m. rewrite <- !app_assoc. exact Hp.
  - apply list_elem_of_filter in Hin as [Hc Hin]. exists line, a. split_and!; [done..|].
    constructor; [|done|done]. exists b. rewrite Hline. unfold m. by rewrite <- !app_assoc.
Qed.

(** The image a guest is said to run is named on a line of its policy that is not a
    comment: the registry is the text before the at sign without the quotes around it and the
    digest is the 64 lowercase hexadecimal digits behind it; among the references of the
    policy without its comments it is the leftmost one, and the longest that starts there. *)
Theorem init_data_reference `{InitDataLib} ccInitData registry digest : parseInitDataPolicy ccInitData = Ok (registry, digest) ->
  exists toml data rego line pre name,
    decodeInitDataWire ccInitData = Ok toml /\ toml_data toml = Ok data /\ data !! initDataPolicyKey = Some (AnyString rego) /\
    line ∈ Split line_feed (chars_of rego) /\ is_comment line = false /\
    reference line pre name (chars_of digest) /\ registry = string_of (trim_quotes name) /\
    exists pre0, reference (stripRegoComments (chars_of rego)) pre0 name (chars_of digest) /\
      forall pre' name' d', reference (stripRegoComments (chars_of rego)) pre' name' d' ->
        (length pre0 <= length pre')%nat /\ (length pre' = length pre0 -> (length name' <= length name)%nat).
Proof.
  unfold parseInitDataPolicy. intros Hp.
  apply res_bind_ok in Hp as (toml & Hw%wrap_ok & Hp). apply res_bind_ok in Hp as (data & Hd%wrap_ok & Hp).
  apply res_bind_ok in Hp as (raw & Hr%from_opt_ok & Hp). apply res_bind_ok in Hp as (rego & Hs & Hp).
  destruct raw as [|s| |]; try done. injection Hs as ->. apply res_bind_ok in Hp as ([name d] & Hf%from_opt_ok & [= <- <-]).
  pose proof (FindStringSubmatch_spec (stripRegoComments (chars_of rego))) as Hspec. rewrite Hf in Hspec. destruct Hspec as (pre0 & Href & Hmin).
  destruct (reference_line _ _ _ _ Href) as (line & pre & Hin & Hc & Hline).
  assert (Hd' : chars_of (string_of d) = d) by apply String.list_ascii_of_string_of_list_ascii.
  exists toml, data, rego, line, pre, name. rewrite Hd'. split_and!; try done. exists pre0. split; [done|exact Hmin].
Qed.

(** In a run of text without spaces the last reference is taken, not the first: with two
    image references and no space between them the digest is that of the second, and the name
    contains the whole first reference. *)
Theorem last_reference_wins (name1 d1 sep name2 d2 : list ascii) :
  name1 <> [] -> forallb nonspace (name1 ++ sep ++ name2) = true ->
  length d1 = 64%nat -> forallb lower_hex d1 = true -> length d2 = 64%nat -> forallb lower_hex d2 = true ->
  FindStringSubmatch (name1 ++ at_sha256 ++ d1 ++ sep ++ name2 ++ at_sha256 ++ d2) = Some ((name1 ++ at_sha256 ++ d1 ++ sep ++ name2)%list, d2).
Proof.
  intros Hn1 Hsp Hl1 Hh1 Hl2 Hh2. set (l := (name1 ++ at_sha256 ++ d1 ++ sep ++ name2 ++ at_sha256 ++ d2)%list).
  set (t := (name1 ++ at_sha256 ++ d1 ++ sep ++ name2)%list). rewrite !forallb_app in Hsp.
  assert (Hd1 : forallb nonspace d1 = true).
  { rewrite forallb_forall in Hh1 |- *. intros c Hc. apply Hh1 in Hc. by apply lower_hex_nonspace. }
  assert (Hl : l = (t ++ at_sha256 ++ d2)%list) by (unfold l, t; by rewrite <- !app_assoc).
  assert (Ht : reference l [] t d2).
  { constructor; [exists []; by rewrite app_nil_r| |done]. split; [by destruct name1|]. unfold t. rewrite !forallb_app, Hd1.
    apply andb_true_iff in Hsp as [-> [-> ->]%andb_true_iff]. done. }
  pose proof (FindStringSubmatch_spec l) as Hf. destruct (FindStringSubmatch l) as [[name d]|]; [|by apply Hf in Ht].
  destruct Hf as (pre & [[post Hp] [_ _] [Hd Hh]] & Hmin). destruct (Hmin _ _ _ Ht) as [Hpre Hlong].
  destruct pre as [|]; [|cbn in Hpre; lia]. specialize (Hlong eq_refl).
  assert (Hlen := f_equal length Hp). rewrite Hl in Hlen, Hp. cbn [app] in Hp, Hlen. rewrite !length_app in Hlen. cbn in Hlen.
  assert (Hpost : post = []) by (destruct post; [done|cbn in Hlen; lia]). subst post. rewrite app_nil_r in Hp.
  apply app_inj_1 in Hp as [-> Hp]; [|cbn in Hlen; lia]. by apply app_inv_head in Hp as ->.
Qed.

(** ** The wire format is undone *)

Class InitDataLaws `{InitDataLib} := {
  gzip : bytes -> bytes;
  gzip_magic b : Forall is_byte b -> exists rest, gzip b = 31 :: 139 :: 8 :: rest /\ Forall is_byte rest;
  gzip_read b : Forall is_byte b -> exists r, gzip_NewReader (gzip b) = Ok r /\ forall limit, gzip_ReadAll limit r = Ok (take (Z.to_nat limit) b)
}.

Lemma encode_char_firm enc v : 0 <= v < 64 -> firm (encode_char enc v) = true.
Proof.
  revert v. apply sextets. intros n Hn. destruct enc as [[] p].
  all: do 64 (destruct n as [|n]; [vm_compute; reflexivity|]); lia.
Qed.

Lemma legal_firm enc c : legal enc c -> firm c = true.
Proof. intros [(v & Hv & ->)|[_ ->]]; [by apply encode_char_firm|by vm_compute]. Qed.

Lemma trim_firm c l d l' : (c :: l = l' ++ [d])%list -> firm c = true -> firm d = true -> trim (text_bytes (c :: l)) = c :: l.
Proof.
  intros Hl Hc Hd. unfold trim. rewrite bytes_text_bytes, (TrimSpace_firm _ _ _ _ Hl Hc Hd). apply String.list_ascii_of_string_of_list_ascii.
Qed.

(** The document survives its wire format: base64 of gzip, padded or not, is read back as
    the bytes that were compressed, up to 8 MiB; more is refused; text that is not gzip is
    taken as it is, without the spaces around it. *)
Theorem init_data_wire `{InitDataLaws} toml enc : Forall is_byte toml -> enc = StdEncoding \/ enc = RawStdEncoding ->
  decodeInitDataWire (text_bytes (EncodeToString enc (gzip toml))) =
    (if Z.of_nat (length toml) <=? maxDecompressedInitData then Ok toml else Err "decompressed cc_init_data exceeds %d bytes") /\
  (forall input, trim input <> [] -> strip (chars_of "H4sI") (trim input) = None -> decodeInitDataWire input = Ok (text_bytes (trim input))).
Proof.
  intros Htoml Henc. split.
  - destruct (gzip_magic toml Htoml) as (rest & Hmagic & Hrest). destruct (gzip_read toml Htoml) as (r & Hr & Hread).
    assert (Hb : Forall is_byte (gzip toml)) by (rewrite Hmagic; repeat constructor; done).
    destruct (encode_gzip enc rest Hrest) as [tail Htail]. rewrite <- Hmagic in Htail.
    assert (Htrim : trim (text_bytes (EncodeToString enc (gzip toml))) = EncodeToString enc (gzip toml)).
    { pose proof (EncodeToString_chars enc _ Hb) as Hch. destruct (EncodeToString enc (gzip toml)) as [|c l] eqn:He; [done|].
      destruct (exists_last (l := c :: l) ltac:(done)) as (l' & d & Hl). eapply trim_firm; [exact Hl| |].
      - apply (legal_firm enc). by inversion Hch.
      - apply (legal_firm enc). rewrite Hl in Hch. apply Forall_app in Hch as [_ Hch]. by inversion Hch. }
    unfold decodeInitDataWire. rewrite Htrim. rewrite (bool_decide_false (_ = [])) by by rewrite Htail.
    rewrite bool_decide_false by by rewrite (proj2 (strip_one_prefix _ _ _) Htail). cbn [fail_if mbind res_bind].
    assert (Hdec : DecodeString RawStdEncoding (TrimRight_pad (EncodeToString enc (gzip toml))) = Ok (gzip toml)).
    { destruct Henc as [-> | ->]; [exact (decode_trimmed StdEncoding _ Hb)|exact (decode_trimmed RawStdEncoding _ Hb)]. }
    rewrite Hdec. cbn [wrap mbind res_bind]. rewrite Hr. cbn [wrap mbind res_bind]. rewrite Hread. cbn [wrap mbind res_bind].
    rewrite length_take. destruct (Z.leb_spec (Z.of_nat (length toml)) maxDecompressedInitData) as [Hle|Hgt].
    + assert (Htk : take (Z.to_nat (maxDecompressedInitData + 1)) toml = toml) by (apply take_ge; lia).
      rewrite Htk, Z.gtb_ltb, (proj2 (Z.ltb_ge _ _)) by lia. done.
    + rewrite Z.gtb_ltb, (proj2 (Z.ltb_lt _ _)); [done|]. assert (0 <= maxDecompressedInitData) by (apply Z.shiftl_nonneg; lia). lia.
  - intros input Hne Hs. unfold decodeInitDataWire. cbv zeta. rewrite (bool_decide_false (trim input = [])) by done. by rewrite Hs.
Qed.

(** ** Witnesses *)

Definition toy_gunzip (b : bytes) : res bytes :=
  match b with 31 :: 139 :: 8 :: b => Ok b | _ => Err "gzip: invalid header" end.

(** Gzip that stores; a document whose policy is all of it. *)
#[local] Instance toy_init_data : InitDataLib := {
  gzip_Reader := bytes;
  gzip_NewReader := toy_gunzip;
  gzip_ReadAll limit b := Ok (take (Z.to_nat limit) b);
  toml_data b := Ok {[initDataPolicyKey := AnyString (string_of (bytes_text b))]}
}.
#[local] Instance toy_init_data_laws : InitDataLaws.
Proof. refine {| gzip := fun b => 31 :: 139 :: 8 :: b |}; intros b Hb; by exists b. Defined.

Definition hex_a : list ascii := repeat "a"%char 64.
Definition hex_b : list ascii := repeat "b"%char 64.

(** A policy with a reference in a comment before the active one. *)
Definition demo_rego : list ascii :=
  (chars_of "# was: old@sha256:" ++ hex_b ++ [line_feed] ++ chars_of "image == 'ghcr.io/app@sha256:" ++ hex_a ++ chars_of "'")%list.

Lemma init_data_reference_witness :
  parseInitDataPolicy (text_bytes demo_rego) = Ok ("ghcr.io/app"%string, string_of hex_a) /\
  exists line, line ∈ Split line_feed demo_rego /\ is_comment line = false.
Proof.
  assert (Hp : parseInitDataPolicy (text_bytes demo_rego) = Ok ("ghcr.io/app"%string, string_of hex_a)) by (vm_compute; reflexivity).
  split; [exact Hp|]. destruct (init_data_reference _ _ _ Hp) as (toml & data & rego & line & pre & name & Hw & Ht & Hd & Hin & Hc & _).
  exists line. split; [|exact Hc]. vm_compute in Hw. injection Hw as <-. vm_compute in Ht. injection Ht as <-. vm_compute in Hd. injection Hd as <-. exact Hin.
Defined.

Lemma last_reference_wins_witness :
  FindStringSubmatch (chars_of "[good@sha256:" ++ hex_a ++ chars_of ",evil@sha256:" ++ hex_b)%list =
    Some ((chars_of "[good@sha256:" ++ hex_a ++ chars_of ",evil")%list, hex_b).
Proof.
  exact (last_reference_wins (chars_of "[good") hex_a [","%char] (chars_of "evil") hex_b ltac:(discriminate) eq_refl eq_refl eq_refl eq_refl eq_refl).
Defined.

Lemma init_data_wire_witness : decodeInitDataWire (text_bytes (EncodeToString StdEncoding (31 :: 139 :: 8 :: [1; 2; 3]))) = Ok [1; 2; 3].
Proof.
  destruct (init_data_wire [1; 2; 3] StdEncoding) as [Hd _]; [by_compute|by left|]. exact Hd.
Defined.
