(* ===== verification/Snp.v ===== *)
(** * Raw SEV-SNP evidence: [pkg/attestation/eigenx_snp_method.go]

    The [eigenx-snp] method: the evidence is decoded, the report and its certificate chain are
    given to the verifier and the validator of go-sev-guest, the measurement is looked up in
    the allowlist, the report data is compared with the hashes of the requester's key and of
    the init-data document, and the image is read from the document's policy ([InitData]).
    The theorems: what an accepted request satisfies; one report is good for one key and one
    document; the chain keeps the first certificate of each kind. *)

From S2P Require Import Prelude Bytes Types Fr Gnark Toy Crypto GoText Base64 Attestation InitData.
From Stdlib Require Import Ascii.

Definition EigenXSNPMethodName : string := "eigenx-snp".
(** [abi.ReportSize], 0x4A0, and [abi.MeasurementSize]. *)
Definition snpReportSize : nat := 1184.
Definition snpReportDataSize : nat := 64.
Definition MeasurementSize : nat := 48.

(** [spb.CertificateChain]; [nil] is [None]. *)
Record CertificateChain := mkCertificateChain {
  ArkCert : option bytes;
  AskCert : option bytes;
  VcekCert : option bytes;
  VlekCert : option bytes
}.

(** The evidence as the attestation agent sends it. *)
Record rawSNPEvidence := mkRawSNPEvidence { AttestationReport : bytes; CertChain : list (list ascii) }.

(** The fields of [validate.Options] and [abi.SnpPolicy] the code sets. *)
Record SnpPolicy := mkSnpPolicy { policy_Debug : bool; policy_MigrateMA : bool; policy_SMT : bool }.
Record validate_Options := mkValidateOptions { GuestPolicy : SnpPolicy; VMPL : option Z }.

(** The fields of [verify.Options] the code touches; absent roots are [None]. *)
Record verify_Options (Root : Type) := mkVerifyOptions {
  DisableCertFetching : bool;
  TrustedRoots : option (gmap string (list Root))
}.
Arguments mkVerifyOptions {Root} _ _.
Arguments DisableCertFetching {Root} _.
Arguments TrustedRoots {Root} _.

(** go-sev-guest, [encoding/json], [encoding/pem], [crypto/x509] (the common name of a
    certificate) and SHA-384. *)
Class SnpLib := {
  Report : Type;
  ReportToProto : bytes -> res Report;
  GetMeasurement : Report -> bytes;
  GetReportData : Report -> bytes;
  AMDRootCerts : Type;
  AskArkVlekBytes : string -> bytes;
  FromKDSCertBytes : string -> bytes -> res AMDRootCerts;
  verify_DefaultOptions : verify_Options AMDRootCerts;
  json_evidence : bytes -> res rawSNPEvidence;
  pem_Bytes : list ascii -> option bytes;
  x509_CommonName : bytes -> res (list ascii);
  Sum384 : bytes -> bytes
}.

Section Snp.
Context `{SnpLib} `{InitDataLib} `{Gnark}.

Notation verify_Options := (verify_Options AMDRootCerts).

Record spb_Attestation := mkAttestation { att_Report : Report; att_CertificateChain : CertificateChain }.

Record EigenXSNPAttestationMethod := mkEigenXSNP {
  verifier : spb_Attestation -> verify_Options -> res unit;
  validator : spb_Attestation -> validate_Options -> res unit;
  options : verify_Options;
  validateOptions : validate_Options;
  measurementAllowlist : list bytes
}.

(** ** Construction *)

Definition defaultValidateOptions : validate_Options := mkValidateOptions (mkSnpPolicy false false true) (Some 0).

(** A bundle that is missing or broken is skipped. *)
Definition load_root (product : string) (roots : gmap string (list AMDRootCerts)) : gmap string (list AMDRootCerts) :=
  let bundle := AskArkVlekBytes product in
  if bool_decide (bundle = []) then roots
  else match FromKDSCertBytes product bundle with
       | Err _ => roots
       | Ok root => <[product := default [] (roots !! product) ++ [root]]> roots
       end.
Definition embeddedVLEKTrustedRoots : gmap string (list AMDRootCerts) := for_acc load_root ["Milan"; "Genoa"; "Turin"]%string ∅.

Definition newEigenXSNPMethod (v : spb_Attestation -> verify_Options -> res unit) (vd : spb_Attestation -> validate_Options -> res unit)
    (opts : option verify_Options) : EigenXSNPAttestationMethod :=
  let opts := match opts with
              | None => mkVerifyOptions true (TrustedRoots verify_DefaultOptions)
              | Some opts => opts
              end in
  let opts := match TrustedRoots opts with
              | None => mkVerifyOptions (DisableCertFetching opts) (Some embeddedVLEKTrustedRoots)
              | Some _ => opts
              end in
  mkEigenXSNP v vd opts defaultValidateOptions [].

Definition SetMeasurementAllowlist (measurements : list bytes) (m : EigenXSNPAttestationMethod) : EigenXSNPAttestationMethod * res unit :=
  if forallb (fun ms => length ms =? MeasurementSize)%nat measurements
  then (mkEigenXSNP (verifier m) (validator m) (options m) (validateOptions m) measurements, Ok tt)
  else (m, Err "measurement[%d] is %d bytes, want %d").

Definition checkMeasurementAllowed (m : EigenXSNPAttestationMethod) (measurement : bytes) : res unit :=
  fail_if (negb (existsb (fun allowed => bool_decide (measurement = allowed)) (measurementAllowlist m)))
    "report MEASUREMENT %s is not in the allowlist (%d entries)".

(** ** Certificates *)

(** The first of the four encodings that accepts the text. *)
Definition base64_variants : list Encoding := [StdEncoding; RawStdEncoding; URLEncoding; RawURLEncoding].
Fixpoint decode_any (encs : list Encoding) (msg : string) (s : list ascii) : res bytes :=
  match encs with
  | [] => Err msg
  | enc :: encs => match DecodeString enc s with Ok b => Ok b | Err _ => decode_any encs msg s end
  end.

Definition trim_text (s : list ascii) : list ascii := chars_of (TrimSpace (string_of s)).

Definition decodeCert (raw : list ascii) : res bytes :=
  let raw := trim_text raw in
  if HasPrefix raw (chars_of "-----BEGIN") then from_opt "PEM block not found" (pem_Bytes raw)
  else decode_any base64_variants "cert is neither PEM nor any recognised base64 variant" raw.

Definition maxCertChainLen : nat := 10.

(** [if chain.X == nil { chain.X = der }] *)
Definition first_wins (old : option bytes) (der : bytes) : option bytes := match old with None => Some der | Some _ => old end.

(** The loop body: the chain so far and the names that were dropped. *)
Definition place_cert (cn : list ascii) (der : bytes) (st : CertificateChain * list (list ascii)) : CertificateChain * list (list ascii) :=
  let '(chain, dropped) := st in
  if HasPrefix cn (chars_of "ARK-") then (mkCertificateChain (first_wins (ArkCert chain) der) (AskCert chain) (VcekCert chain) (VlekCert chain), dropped)
  else if bool_decide (cn = chars_of "SEV-VCEK") then
    (mkCertificateChain (ArkCert chain) (AskCert chain) (first_wins (VcekCert chain) der) (VlekCert chain), dropped)
  else if bool_decide (cn = chars_of "SEV-VLEK") then
    (mkCertificateChain (ArkCert chain) (AskCert chain) (VcekCert chain) (first_wins (VlekCert chain) der), dropped)
  else if HasPrefix cn (chars_of "SEV-VLEK-") then
    (mkCertificateChain (ArkCert chain) (first_wins (AskCert chain) der) (VcekCert chain) (VlekCert chain), dropped)
  else if HasPrefix cn (chars_of "SEV-") then
    match AskCert chain with
    | None => (mkCertificateChain (ArkCert chain) (Some der) (VcekCert chain) (VlekCert chain), dropped)
    | Some _ => (chain, dropped ++ [cn])
    end
  else (chain, dropped ++ [cn]).

Definition buildCertChain (pemCerts : list (list ascii)) : res (CertificateChain * list (list ascii)) :=
  _ ← fail_if (maxCertChainLen <? length pemCerts)%nat "cert_chain too long: %d (max %d)";
  for_each (fun raw st =>
      der ← wrap "cert_chain[%d]" (decodeCert raw);
      cn ← wrap "cert_chain[%d]: parse x509" (x509_CommonName der);
      Ok (place_cert cn der st))
    pemCerts (mkCertificateChain None None None None, []).

(** ** Verification *)

Definition decodeBase64Lenient (data : bytes) : res bytes :=
  let s := trim data in
  match s with
  | [] => Err "attestation evidence is empty"
  | c :: _ =>
      if Ascii.eqb c "{" || Ascii.eqb c "[" then Ok (text_bytes s)
      else decode_any base64_variants "attestation evidence is neither base64 nor raw JSON" s
  end.

(** The report data a key and a document call for. *)
Definition nonce_hex (rsaPubKey extraData : bytes) : list ascii := hex_EncodeToString (take 16 (sha256 (rsaPubKey ++ extraData))).
Definition expected_report_data (rsaPubKey extraData ccInitData : bytes) : bytes :=
  text_bytes (nonce_hex rsaPubKey extraData) ++ text_bytes (hex_EncodeToString (take 16 (Sum384 ccInitData))).

Definition eigenx_snp_Verify (m : EigenXSNPAttestationMethod) (request : option AttestationRequest) : res AttestationClaims :=
  request ← from_opt "attestation request is nil" request;
  _ ← fail_if (bool_decide (areq_Attestation request = [])) "empty attestation evidence";
  _ ← fail_if (bool_decide (areq_RSAPubKeyTmp request = [])) "RSAPubKeyTmp is required for nonce binding";
  _ ← fail_if (bool_decide (areq_CCInitData request = [])) "CCInitData is required for eigenx-snp attestation method";
  evidenceJSON ← wrap "decode attestation base64" (decodeBase64Lenient (areq_Attestation request));
  ev ← wrap "parse SNP evidence JSON" (json_evidence evidenceJSON);
  _ ← fail_if (length (AttestationReport ev) <? snpReportSize)%nat "attestation_report too short: got %d bytes, want >=%d";
  reportProto ← wrap "parse SEV-SNP report" (ReportToProto (take snpReportSize (AttestationReport ev)));
  '(certChain, _) ← wrap "parse cert_chain" (buildCertChain (CertChain ev));
  let att := mkAttestation reportProto certChain in
  _ ← wrap "AMD SEV-SNP attestation verification failed" (verifier m att (options m));
  _ ← (if bool_decide (measurementAllowlist m = []) then Ok tt else checkMeasurementAllowed m (GetMeasurement reportProto));
  _ ← wrap "SEV-SNP report field validation failed (policy/VMPL)" (validator m att (validateOptions m));
  let reportData := GetReportData reportProto in
  _ ← fail_if (negb (length reportData =? snpReportDataSize)%nat) "unexpected REPORT_DATA size: got %d, want %d";
  _ ← fail_if (negb (bool_decide (reportData = expected_report_data (areq_RSAPubKeyTmp request) (areq_ExtraData request) (areq_CCInitData request))))
        "REPORT_DATA mismatch: rsa_pubkey/extra_data/cc_init_data not bound to attestation report";
  '(registry, digestHex) ← wrap "parse cc_init_data" (parseInitDataPolicy (areq_CCInitData request));
  Ok (mkAttestationClaims (areq_AppID request) ("sha256:" +:+ digestHex) (string_of (nonce_hex (areq_RSAPubKeyTmp request) (areq_ExtraData request)))
        "" 0 0 [] (mkContainerPolicy [] [] ∅ ∅ "") (areq_ExtraData request) registry).

(** The clock is not read. *)
Definition EigenXSNPMethod (m : EigenXSNPAttestationMethod) : AttestationMethod :=
  mkAttestationMethod EigenXSNPMethodName (fun _ => eigenx_snp_Verify m).
End Snp.

(** ** Facts *)

(** The first certificate whose name satisfies the test. *)
Definition first_cert (test : list ascii -> bool) (certs : list (list ascii * bytes)) : option bytes :=
  snd <$> head (filter (fun c => test c.1 = true) certs).

Definition is_ark (cn : list ascii) : bool := HasPrefix cn (chars_of "ARK-").
Definition is_vcek (cn : list ascii) : bool := bool_decide (cn = chars_of "SEV-VCEK").
Definition is_vlek (cn : list ascii) : bool := bool_decide (cn = chars_of "SEV-VLEK").
Definition is_ask (cn : list ascii) : bool := HasPrefix cn (chars_of "SEV-") && negb (is_vcek cn) && negb (is_vlek cn).

(** A chain keeps the first certificate of each kind. *)
Record chain_of (certs : list (list ascii * bytes)) (chain : CertificateChain) : Prop := {
  co_ark : ArkCert chain = first_cert is_ark certs;
  co_ask : AskCert chain = first_cert is_ask certs;
  co_vcek : VcekCert chain = first_cert is_vcek certs;
  co_vlek : VlekCert chain = first_cert is_vlek certs
}.

Lemma first_cert_snoc test certs cn der :
  first_cert test (certs ++ [(cn, der)]) = if test cn then first_wins (first_cert test certs) der else first_cert test certs.
Proof.
  unfold first_cert. rewrite filter_app. destruct (test cn) eqn:Ht.
  - rewrite filter_cons_True by done. destruct (filter _ certs); done.
  - rewrite filter_cons_False by (cbn; congruence). by rewrite filter_nil, app_nil_r.
Qed.

Lemma HasPrefix_app p q s : HasPrefix s (p ++ q) = true -> HasPrefix s p = true.
Proof.
  unfold HasPrefix. rewrite !bool_decide_eq_true. intros [r Hr%strip_spec]. exists (q ++ r)%list. apply strip_one_prefix. by rewrite app_assoc.
Qed.

(** The kinds of a name: at most one of them. *)
Lemma ark_only cn : is_ark cn = true -> is_ask cn = false /\ is_vcek cn = false /\ is_vlek cn = false.
Proof.
  unfold is_ark, is_ask, is_vcek, is_vlek, HasPrefix. rewrite bool_decide_eq_true. intros [r Hr%strip_spec]. subst cn. done.
Qed.
Lemma vcek_only cn : is_vcek cn = true -> is_ark cn = false /\ is_ask cn = false /\ is_vlek cn = false.
Proof. unfold is_vcek. rewrite bool_decide_eq_true. by intros ->. Qed.
Lemma vlek_only cn : is_vlek cn = true -> is_ark cn = false /\ is_ask cn = false /\ is_vcek cn = false.
Proof. unfold is_vlek. rewrite bool_decide_eq_true. by intros ->. Qed.

Lemma place_cert_chain certs chain dropped cn der : chain_of certs chain ->
  chain_of (certs ++ [(cn, der)]) (place_cert cn der (chain, dropped)).1.
Proof.
  intros [Ha Hk Hc Hl].
  assert (Hput : forall chain', ArkCert chain' = (if is_ark cn then first_wins (ArkCert chain) der else ArkCert chain) ->
    AskCert chain' = (if is_ask cn then first_wins (AskCert chain) der else AskCert chain) ->
    VcekCert chain' = (if is_vcek cn then first_wins (VcekCert chain) der else VcekCert chain) ->
    VlekCert chain' = (if is_vlek cn then first_wins (VlekCert chain) der else VlekCert chain) -> chain_of (certs ++ [(cn, der)]) chain').
  { intros chain' H1' H2' H3' H4'. rewrite Ha in H1'. rewrite Hk in H2'. rewrite Hc in H3'. rewrite Hl in H4'. by constructor; rewrite first_cert_snoc. }
  unfold place_cert. change (HasPrefix cn (chars_of "ARK-")) with (is_ark cn).
  change (bool_decide (cn = chars_of "SEV-VCEK")) with (is_vcek cn). change (bool_decide (cn = chars_of "SEV-VLEK")) with (is_vlek cn).
  destruct (is_ark cn) eqn:Eark; [|destruct (is_vcek cn) eqn:Ec; [|destruct (is_vlek cn) eqn:El]].
  - destruct (ark_only cn Eark) as (E1 & E2 & E3). apply Hput; rewrite ?Eark, ?E1, ?E2, ?E3; done.
  - destruct (vcek_only cn Ec) as (E1 & E2 & E3). apply Hput; rewrite ?Ec, ?E1, ?E2, ?E3; done.
  - destruct (vlek_only cn El) as (E1 & E2 & E3). apply Hput; rewrite ?El, ?E1, ?E2, ?E3; done.
  - destruct (HasPrefix cn (chars_of "SEV-VLEK-")) eqn:Ev.
    + apply (HasPrefix_app (chars_of "SEV-") (chars_of "VLEK-")) in Ev.
      assert (Eask : is_ask cn = true) by (unfold is_ask; by rewrite Ev, Ec, El). apply Hput; rewrite ?Eark, ?Ec, ?El, ?Eask; done.
    + destruct (HasPrefix cn (chars_of "SEV-")) eqn:Es.
      * assert (Eask : is_ask cn = true) by (unfold is_ask; by rewrite Es, Ec, El).
        destruct (AskCert chain) eqn:Eac; apply Hput; cbn; rewrite ?Eark, ?Ec, ?El, ?Eask, ?Eac; done.
      * assert (Eask : is_ask cn = false) by (unfold is_ask; by rewrite Es). apply Hput; rewrite ?Eark, ?Ec, ?El, ?Eask; done.
Qed.

Section Facts.
Context `{SnpLib} `{InitDataLib} `{Gnark}.

Definition decoded_cert (raw : list ascii) (c : list ascii * bytes) : Prop := decodeCert raw = Ok c.2 /\ x509_CommonName c.2 = Ok c.1.

Lemma buildCertChain_ok pemCerts chain dropped : buildCertChain pemCerts = Ok (chain, dropped) ->
  (length pemCerts <= maxCertChainLen)%nat /\ exists certs, Forall2 decoded_cert pemCerts certs /\ chain_of certs chain.
Proof.
  unfold buildCertChain. rewrite fail_if_bind, Nat.ltb_ge. intros [Hlen Hl]. split; [done|].
  enough (Hgen : forall certs0 chain0 dropped0, chain_of certs0 chain0 ->
    for_each (fun raw st => der ← wrap "cert_chain[%d]" (decodeCert raw); cn ← wrap "cert_chain[%d]: parse x509" (x509_CommonName der); Ok (place_cert cn der st))
      pemCerts (chain0, dropped0) = Ok (chain, dropped) ->
    exists certs, Forall2 decoded_cert pemCerts certs /\ chain_of (certs0 ++ certs) chain).
  { destruct (Hgen [] (mkCertificateChain None None None None) [] ltac:(by constructor) Hl) as (certs & Hf & Hc). by exists certs. }
  clear Hl Hlen. induction pemCerts as [|raw pems IH]; intros certs0 chain0 dropped0 Hch; cbn [for_each].
  - intros [= <- <-]. exists []. rewrite app_nil_r. by split.
  - intros Hl. apply res_bind_ok in Hl as ([chain1 dropped1] & Hp & Hl). apply res_bind_ok in Hp as (der & Hder%wrap_ok & Hp).
    apply res_bind_ok in Hp as (cn & Hcn%wrap_ok & Hp).
    assert (Hpl : place_cert cn der (chain0, dropped0) = (chain1, dropped1)) by congruence.
    pose proof (place_cert_chain certs0 chain0 dropped0 cn der Hch) as Hch1. rewrite Hpl in Hch1. cbn [fst] in Hch1.
    destruct (IH _ _ _ Hch1 Hl) as (certs & Hf & Hc). exists ((cn, der) :: certs). split; [by constructor|]. by rewrite <- app_assoc in Hc.
Qed.

(** The report and the chain that the evidence of a request holds. *)
Record evidence_of (request : AttestationRequest) (report : Report) (chain : CertificateChain) : Prop := {
  ev_decoded : exists json ev, decodeBase64Lenient (areq_Attestation request) = Ok json /\ json_evidence json = Ok ev /\
    (snpReportSize <= length (AttestationReport ev))%nat /\ ReportToProto (take snpReportSize (AttestationReport ev)) = Ok report /\
    (length (CertChain ev) <= maxCertChainLen)%nat /\ exists certs, Forall2 decoded_cert (CertChain ev) certs /\ chain_of certs chain
}.

Lemma eigenx_snp_accepted (m : EigenXSNPAttestationMethod) (request : AttestationRequest) (claims : AttestationClaims) :
  eigenx_snp_Verify m (Some request) = Ok claims ->
  exists report chain registry digest,
    evidence_of request report chain /\
    verifier m (mkAttestation report chain) (options m) = Ok tt /\ validator m (mkAttestation report chain) (validateOptions m) = Ok tt /\
    (measurementAllowlist m <> [] -> GetMeasurement report ∈ measurementAllowlist m) /\
    GetReportData report = expected_report_data (areq_RSAPubKeyTmp request) (areq_ExtraData request) (areq_CCInitData request) /\
    length (GetReportData report) = snpReportDataSize /\
    areq_RSAPubKeyTmp request <> [] /\ parseInitDataPolicy (areq_CCInitData request) = Ok (registry, digest) /\
    claims = mkAttestationClaims (areq_AppID request) ("sha256:" +:+ digest) (string_of (nonce_hex (areq_RSAPubKeyTmp request) (areq_ExtraData request)))
      "" 0 0 [] (mkContainerPolicy [] [] ∅ ∅ "") (areq_ExtraData request) registry.
Proof.
  unfold eigenx_snp_Verify. cbn [from_opt mbind res_bind]. rewrite !fail_if_bind, !bool_decide_eq_false. intros (_ & Hrsa & _ & Hv).
  apply res_bind_ok in Hv as (json & Hj%wrap_ok & Hv). apply res_bind_ok in Hv as (ev & He%wrap_ok & Hv).
  rewrite fail_if_bind, Nat.ltb_ge in Hv. destruct Hv as [Hlen Hv]. apply res_bind_ok in Hv as (report & Hrep%wrap_ok & Hv).
  apply res_bind_ok in Hv as ([chain dropped] & Hch%wrap_ok & Hv). apply buildCertChain_ok in Hch as (Hmax & certs & Hdec & Hchain).
  apply res_bind_ok in Hv as ([] & Hver%wrap_ok & Hv). apply res_bind_ok in Hv as ([] & Hmeas & Hv).
  apply res_bind_ok in Hv as ([] & Hval%wrap_ok & Hv). cbv zeta in Hv. rewrite !fail_if_bind, !negb_false_iff, bool_decide_eq_true, Nat.eqb_eq in Hv.
  destruct Hv as (Hsz & Hrd & Hv). apply res_bind_ok in Hv as ([registry digest] & Hp%wrap_ok & [= <-]).
  exists report, chain, registry, digest. split_and!; try done.
  - constructor. exists json, ev. split_and!; try done. by exists certs.
  - intros Hne. rewrite bool_decide_false in Hmeas by done. unfold checkMeasurementAllowed in Hmeas.
    rewrite fail_if_ok, negb_false_iff, existsb_exists in Hmeas. destruct Hmeas as (x & Hin & ->%bool_decide_eq_true). by apply list_elem_of_In.
Qed.
End Facts.

(** ** One report, one key *)

(** The hashes are strings of bytes of their size. *)
Class HashLaws `{SnpLib} `{Gnark} : Prop := {
  sha256_size m : length (sha256 m) = 32%nat;
  sha256_bytes m : Forall is_byte (sha256 m);
  sum384_size m : length (Sum384 m) = 48%nat;
  sum384_bytes m : Forall is_byte (Sum384 m)
}.

(** Two inputs that a hash cut to sixteen bytes does not tell apart. *)
Definition collision (h : bytes -> bytes) (x y : bytes) : Prop := x <> y /\ take 16 (h x) = take 16 (h y).

Section Binding.
Context `{HashLaws} `{InitDataLib}.

Lemma text_bytes_inj l l' : text_bytes l = text_bytes l' -> l = l'.
Proof. intros Heq%(f_equal bytes_text). by rewrite !bytes_text_bytes in Heq. Qed.

Lemma expected_report_data_inj k e c k' e' c' : expected_report_data k e c = expected_report_data k' e' c' ->
  take 16 (sha256 (k ++ e)) = take 16 (sha256 (k' ++ e')) /\ take 16 (Sum384 c) = take 16 (Sum384 c').
Proof.
  unfold expected_report_data, nonce_hex. intros Heq. apply app_inj_len in Heq as [Hn Hc].
  - apply text_bytes_inj in Hn, Hc. apply hex_inj in Hn, Hc; [done|..]; apply Forall_take; apply sum384_bytes || apply sha256_bytes.
  - unfold text_bytes. rewrite !length_fmap, !length_hex, !length_take, !sha256_size. done.
Qed.

Lemma evidence_unique request request' report report' chain chain' : areq_Attestation request = areq_Attestation request' ->
  evidence_of request report chain -> evidence_of request' report' chain' -> report = report'.
Proof. intros Ha [(j & ev & Hj & He & _ & Hr & _)] [(j' & ev' & Hj' & He' & _ & Hr' & _)]. congruence. Qed.

(** Evidence is good for one key and one document: when the same evidence is accepted in
    two requests, by whatever methods, the requests carry the same key with extra data, the
    same init-data document and the claims the same image, unless a hash collides on its
    first sixteen bytes.  The key and the extra data are bound only together. *)
Theorem snp_evidence_binds m m' request request' claims claims' :
  eigenx_snp_Verify m (Some request) = Ok claims -> eigenx_snp_Verify m' (Some request') = Ok claims' ->
  areq_Attestation request = areq_Attestation request' ->
  ~ collision sha256 (areq_RSAPubKeyTmp request ++ areq_ExtraData request) (areq_RSAPubKeyTmp request' ++ areq_ExtraData request') ->
  ~ collision Sum384 (areq_CCInitData request) (areq_CCInitData request') ->
  areq_RSAPubKeyTmp request ++ areq_ExtraData request = areq_RSAPubKeyTmp request' ++ areq_ExtraData request' /\
  areq_CCInitData request = areq_CCInitData request' /\
  claims_ImageDigest claims = claims_ImageDigest claims' /\ claims_Registry claims = claims_Registry claims'.
Proof.
  intros Hv Hv' Hsame Hk Hc.
  apply eigenx_snp_accepted in Hv as (report & chain & registry & digest & Hev & _ & _ & _ & Hrd & _ & _ & Hp & ->).
  apply eigenx_snp_accepted in Hv' as (report' & chain' & registry' & digest' & Hev' & _ & _ & _ & Hrd' & _ & _ & Hp' & ->).
  rewrite (evidence_unique _ _ _ _ _ _ Hsame Hev Hev') in Hrd. rewrite Hrd in Hrd'. apply expected_report_data_inj in Hrd' as [Hk' Hc'].
  assert (Hkey : areq_RSAPubKeyTmp request ++ areq_ExtraData request = areq_RSAPubKeyTmp request' ++ areq_ExtraData request').
  { destruct (decide (areq_RSAPubKeyTmp request ++ areq_ExtraData request = areq_RSAPubKeyTmp request' ++ areq_ExtraData request')); [done|]. by destruct Hk. }
  assert (Hdoc : areq_CCInitData request = areq_CCInitData request').
  { destruct (decide (areq_CCInitData request = areq_CCInitData request')); [done|]. by destruct Hc. }
  rewrite Hdoc, Hp' in Hp. injection Hp as -> ->. done.
Qed.
End Binding.

(** ** Witnesses *)

#[local] Existing Instances toy97 toy_init_data.

Definition toy_sum384 (m : bytes) : bytes := toy_digest m ++ take 16 (toy_digest (m ++ [1])).

(** The key, and the document with its policy, of the demonstration. *)
Definition demo_key : bytes := [45; 48; 2048].
Definition demo_extra : bytes := [7; 8; 9].
Definition demo_init : bytes := text_bytes demo_rego.
Definition demo_report_data : bytes :=
  text_bytes (hex_EncodeToString (take 16 (toy_digest (demo_key ++ demo_extra)))) ++ text_bytes (hex_EncodeToString (take 16 (toy_sum384 demo_init))).

(** A report is its bytes, with the report data at 0x50 and the measurement at 0x90; a
    certificate is its name; the JSON text is one byte behind a brace. *)
Definition toy_report : bytes := repeat 0 80 ++ demo_report_data ++ repeat 5 48 ++ repeat 0 992.
#[export] Instance toy_snp : SnpLib := {
  Report := bytes;
  ReportToProto b := Ok b;
  GetMeasurement r := take 48 (drop 144 r);
  GetReportData r := take 64 (drop 80 r);
  AMDRootCerts := unit;
  AskArkVlekBytes _ := [1];
  FromKDSCertBytes _ _ := Ok tt;
  verify_DefaultOptions := mkVerifyOptions false None;
  json_evidence b := match b with
                     | [123; 49] => Ok (mkRawSNPEvidence toy_report [chars_of "U0VWLU1pbGFu"; chars_of "QVJLLU1pbGFu"; chars_of "U0VWLVZMRUs="])
                     | _ => Err "unexpected end of JSON input"
                     end;
  pem_Bytes _ := None;
  x509_CommonName b := Ok (bytes_text b);
  Sum384 := toy_sum384
}.

(** The verifier wants a root certificate and a signing one. *)
Definition demo_method : EigenXSNPAttestationMethod :=
  (SetMeasurementAllowlist [repeat 4 48; repeat 5 48]
    (newEigenXSNPMethod
      (fun att opts => fail_if (negb (DisableCertFetching opts && bool_decide (is_Some (ArkCert (att_CertificateChain att)))
                                      && bool_decide (is_Some (VlekCert (att_CertificateChain att))))) "no chain")
      (fun _ opts => fail_if (policy_Debug (GuestPolicy opts)) "debug") None)).1.

Definition demo_snp_request (appID : string) : AttestationRequest :=
  mkAttestationRequest EigenXSNPMethodName [123; 49] appID [] [] ∅ demo_key demo_extra demo_init.

Definition demo_snp_claims (appID : string) : AttestationClaims :=
  mkAttestationClaims appID ("sha256:" +:+ string_of hex_a) (string_of (nonce_hex demo_key demo_extra)) "" 0 0 [] (mkContainerPolicy [] [] ∅ ∅ "") demo_extra "ghcr.io/app".

Lemma demo_snp_accepted appID : eigenx_snp_Verify demo_method (Some (demo_snp_request appID)) = Ok (demo_snp_claims appID).
Proof. vm_compute. reflexivity. Qed.

Lemma be_bytes_bytes n z : Forall is_byte (be_bytes n z).
Proof. induction n as [|n IH]; cbn [be_bytes]; constructor; [apply Z.mod_pos_bound; lia|done]. Qed.

#[local] Instance toy_hash_laws : HashLaws.
Proof.
  constructor; intros m; cbn [sha256 Sum384 toy97 toy_gnark toy_snp]; unfold toy_sum384, toy_digest.
  - apply length_be_bytes.
  - apply be_bytes_bytes.
  - rewrite length_app, length_take, !length_be_bytes. done.
  - apply Forall_app_2; [|apply Forall_take]; apply be_bytes_bytes.
Qed.

Lemma snp_evidence_binds_witness : areq_CCInitData (demo_snp_request "a") = areq_CCInitData (demo_snp_request "b") /\
  claims_ImageDigest (demo_snp_claims "a") = claims_ImageDigest (demo_snp_claims "b").
Proof.
  destruct (snp_evidence_binds demo_method demo_method (demo_snp_request "a") (demo_snp_request "b") (demo_snp_claims "a") (demo_snp_claims "b")
    (demo_snp_accepted "a") (demo_snp_accepted "b") eq_refl) as (_ & Hc & Hi & _).
  - intros [Hne _]. by apply Hne.
  - intros [Hne _]. by apply Hne.
  - split; [exact Hc|exact Hi].
Defined.
