(* ===== verification/SnpSecrets.v ===== *)
(** * Secrets for a SEV-SNP guest: [/secrets] with the [eigenx-snp] method

    [Secrets] and [Snp] together: what a guest that was answered has proved.  Every partial
    signature released through the method is encrypted under a key that the report of a
    verified guest commits to, for the image its init-data document names, which the
    platform or the chain has released. *)

From S2P Require Import Prelude Bytes Types Fr Gnark Toy Crypto KeyStore Persistence Session NodeCore GoText Attestation Encryption Handlers Secrets InitData Snp.
From Stdlib Require Import Ascii.

Section SnpSecrets.
Context `{SnpLib} `{InitDataLib} `{Gnark} `{EcdsaLib} `{RsaLib} `{EthAddr} `{SecretsLib} {P : Type}.

(** The report, its chain and the document of a request prove the image [digest] of [registry]. *)
Record proves (m : EigenXSNPAttestationMethod) (req : SecretsRequestV1) (registry digest : string) : Prop := {
  pr_report : exists report chain, evidence_of (attestation_request req) report chain /\
    verifier m (mkAttestation report chain) (options m) = Ok tt /\ validator m (mkAttestation report chain) (validateOptions m) = Ok tt /\
    (measurementAllowlist m <> [] -> GetMeasurement report ∈ measurementAllowlist m) /\
    GetReportData report = expected_report_data (sreq_RSAPubKeyTmp req) (sreq_ExtraData req) (sreq_CCInitData req);
  pr_image : parseInitDataPolicy (sreq_CCInitData req) = Ok (registry, digest)
}.

(** C11: A guest that gets an answer through the [eigenx-snp] method has proved who it is: its
    evidence passed the verifier and the validator, its measurement is allowed, its report
    commits to the very key the partial signature is encrypted under and to its init-data
    document, and the image of that document is the one that the platform has deployed for
    the stack or that the chain holds for the application, with the same registry where both
    name one and no container policy.  The server does not change: the answer can be had again. *)
Theorem snp_secrets_released (m : EigenXSNPAttestationMethod) env r req (s s' : Server Fr P) resp :
  handleSecretsRequest env r s = (s', Reply resp) -> json_secrets (Body (limited maxSecretsBodyBytes r)) = Ok req ->
  sreq_AttestationMethod req = "eigenx-snp"%string -> attestationManager env !! "eigenx-snp"%string = Some (EigenXSNPMethod m) ->
  s' = s /\ exists registry digest rel, proves m req registry digest /\ answers env req (srv_node s) rel resp /\
    match rel with
    | Some rel => sreq_StackID req = ""%string /\ GetLatestReleaseAsRelease env (sreq_AppID req) = Ok rel /\ rel_ImageDigest rel = ("sha256:" +:+ digest)%string /\
        (registry <> ""%string -> rel_Registry rel <> ""%string -> registry = rel_Registry rel) /\ hasContainerPolicy (rel_ContainerPolicy rel) = false
    | None => sreq_StackID req <> ""%string /\ exists lookup apps app pre, platformClient env = Some lookup /\ lookup (sreq_StackID req) = inl apps /\ app ∈ apps /\
        chars_of (Image app) = (pre ++ "@"%char :: chars_of ("sha256:" +:+ digest))%list
    end.
Proof.
  intros Hr Hq Hmeth Hman. apply handleSecretsRequest_ok in Hr as (req' & claims & rel & _ & Hq' & _ & _ & _ & Hat & Hc & Hau & Hans).
  rewrite Hq in Hq'. injection Hq' as <-. unfold attested, VerifyWithMethod in Hat. rewrite Hmeth, Hman in Hat. cbn [from_opt mbind res_bind Verify EigenXSNPMethod] in Hat.
  destruct (eigenx_snp_Verify m (Some (attestation_request req))) as [claims'|e] eqn:Hv; [|done]. cbn [wrap] in Hat. case_bool_decide as Happ; [|done]. injection Hat as ->.
  apply eigenx_snp_accepted in Hv as (report & chain & registry & digest & Hev & Hver & Hval & Hmeas & Hrd & _ & _ & Hp & ->).
  split. { by destruct Hc as [[_ ->]|[Hj _]]. }
  exists registry, digest, rel. split; [|split; [done|]].
  - constructor; [|done]. exists report, chain. by split_and!.
  - inversion Hau as [lookup apps app pre ? ? ? ? ? Hi ?|pub rel0 ? Hm|rel0 ? ? Hrel Hdig Hreg Hpol]; subst.
    + split; [done|]. by exists lookup, apps, app, pre.
    + by rewrite Hmeth in Hm.
    + split_and!; [done|done|by rewrite <- Hdig|done|by apply Hpol].
Qed.
End SnpSecrets.

(** ** Witness: the demonstration evidence, on-chain *)

#[local] Existing Instances toy97 toy97_laws toy_ecdsa toy_rsa toy_init_data.
#[local] Instance snp_addr : EthAddr := { Hex _ := "0x"; HexToAddress _ := 7 }.

Definition snp_secrets : SecretsRequestV1 :=
  mkSecretsRequestV1 "0xAb" "" "eigenx-snp" [123; 49] demo_key 0 [] [] demo_extra demo_init.
#[local] Instance snp_secrets_lib : SecretsLib := {
  IsHexAddress _ := true;
  json_secrets _ := Ok snp_secrets;
  json_app_sign _ := Err "unexpected end of JSON input";
  json_marshal_G1 g := Ok (g1_compressed g) }.

Definition snp_env : SecretsEnv := mkSecretsEnv 0 {["eigenx-snp"%string := EigenXSNPMethod demo_method]} (fun _ => Err "execution reverted")
  (fun _ => Ok (mkRelease ("sha256:" +:+ string_of hex_a) "ghcr.io/app" "env" "public" 0 (mkContainerPolicy [] [] ∅ ∅ ""))) None [].
Definition snp_server : Server (@Fr toy97) unit :=
  let '(l, ks) := alloc (mkKeyShareVersion 100 (Some (toy_fr 3)) [] None true [1]) NewKeyStore in
  mkServer (mkNode 1 1 (AddVersion l ks) tt (mkAbortTracker 0 0) ∅ ∅ [] 0 "" None []) ∅.
Definition snp_result := handleSecretsRequest snp_env (mkRequest "POST" [1]) snp_server.

Lemma snp_secrets_released_witness : exists resp, snp_result = (snp_server, Reply resp) /\
  exists registry digest, proves demo_method snp_secrets registry digest /\ registry = "ghcr.io/app"%string.
Proof.
  unfold snp_result. destruct (handleSecretsRequest snp_env (mkRequest "POST" [1]) snp_server) as [s' [resp|c e]] eqn:Hr; [|vm_compute in Hr; discriminate Hr].
  destruct (snp_secrets_released demo_method snp_env (mkRequest "POST" [1]) snp_secrets snp_server s' resp Hr eq_refl eq_refl) as (-> & registry & digest & rel & Hp & _).
  { apply lookup_insert_eq. }
  exists resp. split; [reflexivity|]. exists registry, digest. split; [exact Hp|]. destruct Hp as [_ Hp]. vm_compute in Hp. by injection Hp as <- _.
Defined.
