(* ===== verification/Tpm.v ===== *)
(** * TPM attestation: [pkg/attestation/tpm_method.go] and [tpm_verifier.go]

    The method that verifies a bound TPM and TEE attestation, over go-tpm-tools; the challenge
    that binds the requester's key; the comparison of a machine type with a platform.  The
    theorems: a guest that is answered through it was verified against the challenge of its
    own key, by the TPM and, but for a shielded VM, by the TEE; one attestation is good for
    one key. *)

From S2P Require Import Prelude Bytes Types Fr Gnark Toy Crypto KeyStore Persistence Session NodeCore GoText Attestation Encryption Handlers Secrets.
From Stdlib Require Import Ascii.

(** ** The library *)

Inductive Platform := PlatformIntelTDX | PlatformAMDSevSnp | PlatformGCPShieldedVM | OtherPlatform (p : Z).
#[export] Instance Platform_eq_dec : EqDecision Platform.
Proof. solve_decision. Defined.

Record TPMClaims := mkTPMClaims { GCE_Instance : option string }.
Record ContainerInfo := mkContainerInfo {
  ci_Args : list string;
  ci_EnvVars : gmap string string;
  ci_RestartPolicy : string;
  ci_ImageDigest : string
}.

(** [attest]: parsing, the two verifications against a challenge, and what they yield. *)
Class AttestLib := {
  attest_Attestation : Type;
  attest_VerifiedTPM : Type;
  attest_VerifiedTEE : Type;
  TEEClaims : Type;
  attest_Parse : bytes -> res attest_Attestation;
  attest_Platform : attest_Attestation -> Platform;
  VerifyTPM : attest_Attestation -> bytes -> res attest_VerifiedTPM;
  ExtractTPMClaims : attest_VerifiedTPM -> list Z -> res (option TPMClaims);
  ExtractContainerClaims : attest_Attestation -> res (option ContainerInfo);
  VerifyBoundTEE : attest_Attestation -> bytes -> res attest_VerifiedTEE;
  ExtractTEEClaims : attest_VerifiedTEE -> res TEEClaims
}.

(** ** [tpm_verifier.go] *)

Definition EnvRequestRSAKeyHeader : bytes := string_bytes "COMPUTE_APP_ENV_REQUEST_RSA_KEY_V1".

Definition machineTypeSuffixToPlatform (c : ascii) : option Platform :=
  if Ascii.eqb c "t" then Some PlatformIntelTDX
  else if Ascii.eqb c "s" then Some PlatformAMDSevSnp
  else if Ascii.eqb c "v" then Some PlatformGCPShieldedVM
  else None.

Section Tpm.
Context `{AttestLib} `{Gnark}.

Record VerifiedAttestation := mkVerifiedAttestation {
  va_TPMClaims : option TPMClaims;
  va_TEEClaims : option TEEClaims;
  va_Container : option ContainerInfo;
  va_Platform : Platform
}.

Definition VerifyPlatform (v : VerifiedAttestation) (machineType : string) : res unit :=
  match last (chars_of machineType) with
  | None => fail_if (negb (bool_decide (va_Platform v = PlatformIntelTDX)))
              "platform mismatch: empty machine type defaults to %s but attestation is %s"
  | Some suffix =>
      expected ← from_opt "unknown machine type suffix in %s" (machineTypeSuffixToPlatform suffix);
      fail_if (negb (bool_decide (expected = va_Platform v))) "platform mismatch: %s indicates %s but attestation is %s"
  end.

Definition CalculateChallenge (header data : bytes) : bytes := sha256 (header ++ [0] ++ data).

Definition attestVerifier_Verify (attestationBytes challenge : bytes) : res VerifiedAttestation :=
  a ← wrap "attestation parsing failed" (attest_Parse attestationBytes);
  verified ← wrap "TPM verification failed" (VerifyTPM a challenge);
  claims ← wrap "failed to extract claims" (ExtractTPMClaims verified [4; 8; 9]);
  container ← wrap "failed to extract container claims" (ExtractContainerClaims a);
  if bool_decide (attest_Platform a = PlatformGCPShieldedVM) then Ok (mkVerifiedAttestation claims None container (attest_Platform a)) else
  teeVerified ← wrap "TEE verification failed" (VerifyBoundTEE a challenge);
  teeClaims ← wrap "failed to extract TEE claims" (ExtractTEEClaims teeVerified);
  Ok (mkVerifiedAttestation claims (Some teeClaims) container (attest_Platform a)).

(** ** [tpm_method.go] *)

(** The handler stores only byte strings in the metadata, so the type test is not modelled. *)
Definition tpm_Verify (verify : bytes -> bytes -> res VerifiedAttestation) (request : option AttestationRequest) : res AttestationClaims :=
  request ← from_opt "attestation request is nil" request;
  _ ← fail_if (bool_decide (areq_Attestation request = [])) "empty attestation data";
  rsaPubKey ← from_opt "rsa_pubkey not found in request metadata" (areq_Metadata request !! "rsa_pubkey"%string);
  _ ← fail_if (bool_decide (rsaPubKey = [])) "empty rsa_pubkey in metadata";
  let challenge := CalculateChallenge EnvRequestRSAKeyHeader rsaPubKey in
  result ← wrap "TPM attestation verification failed" (verify (areq_Attestation request) challenge);
  instanceName ← from_opt "GCE instance info not found in attestation" (va_TPMClaims result ≫= GCE_Instance);
  container ← from_opt "container info not found in attestation" (va_Container result);
  appID ← wrap "failed to extract app ID from instance name" (extractAppIDFromInstanceName instanceName);
  Ok (mkAttestationClaims appID (ci_ImageDigest container) "" "" 0 0 []
        (mkContainerPolicy (ci_Args container) [] (ci_EnvVars container) ∅ (ci_RestartPolicy container)) [] "").

Definition TPMAttestationMethod (verify : bytes -> bytes -> res VerifiedAttestation) : AttestationMethod :=
  mkAttestationMethod "tpm" (fun _ => tpm_Verify verify).
(** [NewTPMAttestationMethod] *)
Definition NewTPMAttestationMethod : AttestationMethod := TPMAttestationMethod attestVerifier_Verify.
End Tpm.

(** ** Facts *)

Section Facts.
Context `{AttestLib} `{Gnark}.

(** The attestation was verified against the challenge of this key. *)
Record bound (attestation key : bytes) (claims : AttestationClaims) : Prop := {
  bd_tpm : exists a tpm tc instance container, attest_Parse attestation = Ok a /\
    VerifyTPM a (CalculateChallenge EnvRequestRSAKeyHeader key) = Ok tpm /\ ExtractTPMClaims tpm [4; 8; 9] = Ok (Some tc) /\
    GCE_Instance tc = Some instance /\ extractAppIDFromInstanceName instance = Ok (claims_AppID claims) /\
    ExtractContainerClaims a = Ok (Some container) /\ claims_ImageDigest claims = ci_ImageDigest container /\
    claims_ContainerPolicy claims = mkContainerPolicy (ci_Args container) [] (ci_EnvVars container) ∅ (ci_RestartPolicy container) /\
    (attest_Platform a <> PlatformGCPShieldedVM -> exists tee, VerifyBoundTEE a (CalculateChallenge EnvRequestRSAKeyHeader key) = Ok tee /\
       is_ok (ExtractTEEClaims tee) = true);
  bd_rest : claims_Nonce claims = ""%string /\ claims_JTI claims = ""%string /\ claims_Registry claims = ""%string
}.

Lemma attestVerifier_ok attestation challenge v : attestVerifier_Verify attestation challenge = Ok v ->
  exists a tpm, attest_Parse attestation = Ok a /\ VerifyTPM a challenge = Ok tpm /\ ExtractTPMClaims tpm [4; 8; 9] = Ok (va_TPMClaims v) /\
    ExtractContainerClaims a = Ok (va_Container v) /\
    (attest_Platform a <> PlatformGCPShieldedVM -> exists tee, VerifyBoundTEE a challenge = Ok tee /\ is_ok (ExtractTEEClaims tee) = true).
Proof.
  unfold attestVerifier_Verify. intros Hv. apply res_bind_ok in Hv as (a & Ha%wrap_ok & Hv). apply res_bind_ok in Hv as (tpm & Ht%wrap_ok & Hv).
  apply res_bind_ok in Hv as (claims & Hc%wrap_ok & Hv). apply res_bind_ok in Hv as (container & Hco%wrap_ok & Hv).
  exists a, tpm. case_bool_decide as Hp.
  - injection Hv as <-. split_and!; try done.
  - apply res_bind_ok in Hv as (tee & Htee%wrap_ok & Hv). apply res_bind_ok in Hv as (tc & Htc%wrap_ok & [= <-]).
    split_and!; try done. intros _. exists tee. by rewrite Htc.
Qed.

Lemma tpm_accepted request claims : tpm_Verify attestVerifier_Verify (Some request) = Ok claims ->
  exists key, areq_Metadata request !! "rsa_pubkey"%string = Some key /\ key <> [] /\ bound (areq_Attestation request) key claims.
Proof.
  unfold tpm_Verify. cbn [from_opt mbind res_bind]. rewrite fail_if_bind. intros [_ Hv].
  apply res_bind_ok in Hv as (key & Hk%from_opt_ok & Hv). rewrite fail_if_bind, bool_decide_eq_false in Hv. destruct Hv as [Hne Hv]. cbv zeta in Hv.
  apply res_bind_ok in Hv as (v & Hver%wrap_ok & Hv). apply attestVerifier_ok in Hver as (a & tpm & Ha & Ht & Hc & Hco & Htee).
  apply res_bind_ok in Hv as (instance & Hi%from_opt_ok & Hv). apply res_bind_ok in Hv as (container & Hcont%from_opt_ok & Hv).
  apply res_bind_ok in Hv as (appID & Happ%wrap_ok & [= <-]).
  destruct (va_TPMClaims v) as [tc|]; [|done]. cbn in Hi. rewrite Hcont in Hco.
  exists key. split; [done|]. split; [done|]. constructor; [|done]. exists a, tpm, tc, instance, container. by split_and!.
Qed.

Lemma challenge_injective key key' : EnvRequestRSAKeyHeader ++ [0] ++ key = EnvRequestRSAKeyHeader ++ [0] ++ key' -> key = key'.
Proof. by intros ?%app_inv_head%app_inv_head. Qed.
End Facts.

Section TpmSecrets.
Context `{AttestLib} `{Gnark} `{EcdsaLib} `{RsaLib} `{EthAddr} `{SecretsLib} {P : Type}.

(** A guest that gets an answer through the [tpm] method was verified against the challenge
    of the key the answer is encrypted under, by its TPM and, unless it is a shielded VM, by
    its TEE; its instance is named after the application, and the image and the settings of
    its container are those the release asks for.  The server does not change. *)
Theorem tpm_secrets_released env r req (s s' : Server Fr P) resp :
  handleSecretsRequest env r s = (s', Reply resp) -> json_secrets (Body (limited maxSecretsBodyBytes r)) = Ok req ->
  sreq_AttestationMethod req = "tpm"%string -> attestationManager env !! "tpm"%string = Some NewTPMAttestationMethod ->
  s' = s /\ exists claims rel, bound (sreq_Attestation req) (sreq_RSAPubKeyTmp req) claims /\ claims_AppID claims = sreq_AppID req /\
    answers env req (srv_node s) rel resp /\
    (sreq_StackID req = ""%string -> exists rel0, rel = Some rel0 /\ GetLatestReleaseAsRelease env (sreq_AppID req) = Ok rel0 /\
       claims_ImageDigest claims = rel_ImageDigest rel0 /\ policy_satisfied (claims_ContainerPolicy claims) (rel_ContainerPolicy rel0) /\
       CmdOverride (rel_ContainerPolicy rel0) = [] /\ EnvOverride (rel_ContainerPolicy rel0) = ∅).
Proof.
  intros Hr Hq Hmeth Hman. apply handleSecretsRequest_ok in Hr as (req' & claims & rel & _ & Hq' & _ & _ & _ & Hat & Hc & Hau & Hans).
  rewrite Hq in Hq'. injection Hq' as <-. unfold attested, VerifyWithMethod in Hat. rewrite Hmeth, Hman in Hat.
  cbn [from_opt mbind res_bind Verify NewTPMAttestationMethod TPMAttestationMethod] in Hat.
  destruct (tpm_Verify attestVerifier_Verify (Some (attestation_request req))) as [claims'|e] eqn:Hv; [|done]. cbn [wrap] in Hat.
  case_bool_decide as Happ; [|done]. injection Hat as ->. apply tpm_accepted in Hv as (key & Hk & _ & Hb).
  cbn [attestation_request areq_Metadata areq_Attestation] in Hk, Hb. rewrite bool_decide_true in Hk by done. rewrite lookup_singleton_eq in Hk. injection Hk as <-.
  pose proof Hb as [(a & tpm & tc & inst & container & _ & _ & _ & _ & _ & _ & _ & Hpolicy & _) (_ & Hj & _)].
  split; [by destruct Hc as [[_ ->]|[? _]]|]. exists claims, rel. split_and!; [done|done|done|]. intros Hst.
  inversion Hau as [? ? ? ? Hs|pub rel0 ? Hm|rel0 ? ? Hrel Hdig Hreg Hpol Hsat]; subst; [done|by rewrite Hmeth in Hm|].
  exists rel0. split_and!; try done; destruct Hsat as (_ & Hcmd & _ & Hover & _); rewrite Hpolicy in Hcmd, Hover; cbn in Hcmd, Hover.
  - destruct (CmdOverride (rel_ContainerPolicy rel0)); [done|]. by specialize (Hcmd ltac:(done)).
  - apply map_empty. intros i. apply eq_None_not_Some. intros [x Hx]. by apply (lookup_weaken _ _ _ _ Hx) in Hover.
Qed.
End TpmSecrets.

(** ** Witness *)

#[local] Existing Instances toy97 toy97_laws toy_ecdsa toy_rsa.
#[local] Instance tpm_addr : EthAddr := { Hex _ := "0x"; HexToAddress _ := 7 }.

(** An attestation is the challenge it was made for. *)
#[local] Instance toy_attest : AttestLib := {
  attest_Attestation := bytes;
  attest_VerifiedTPM := unit;
  attest_VerifiedTEE := unit;
  TEEClaims := unit;
  attest_Parse b := Ok b;
  attest_Platform _ := PlatformIntelTDX;
  VerifyTPM a challenge := fail_if (negb (bool_decide (a = challenge))) "qualifying data mismatch";
  ExtractTPMClaims _ _ := Ok (Some (mkTPMClaims (Some "vm-0xAb"%string)));
  ExtractContainerClaims _ := Ok (Some (mkContainerInfo ["serve"%string] ∅ "Never" "sha256:ab"));
  VerifyBoundTEE a challenge := fail_if (negb (bool_decide (a = challenge))) "report data mismatch";
  ExtractTEEClaims _ := Ok tt
}.

Definition tpm_key : bytes := [45; 48; 2048].
Definition tpm_secrets : SecretsRequestV1 :=
  mkSecretsRequestV1 "0xAb" "" "tpm" (CalculateChallenge EnvRequestRSAKeyHeader tpm_key) tpm_key 0 [] [] [] [].
#[local] Instance tpm_secrets_lib : SecretsLib := {
  IsHexAddress _ := true;
  json_secrets _ := Ok tpm_secrets;
  json_app_sign _ := Err "unexpected end of JSON input";
  json_marshal_G1 g := Ok (g1_compressed g) }.

Definition tpm_env : SecretsEnv := mkSecretsEnv 0 {["tpm"%string := NewTPMAttestationMethod]} (fun _ => Err "execution reverted")
  (fun _ => Ok (mkRelease "sha256:ab" "" "env" "public" 0 (mkContainerPolicy ["serve"%string] [] ∅ ∅ "Never"))) None [].
Definition tpm_server : Server (@Fr toy97) unit :=
  let '(l, ks) := alloc (mkKeyShareVersion 100 (Some (toy_fr 3)) [] None true [1]) NewKeyStore in
  mkServer (mkNode 1 1 (AddVersion l ks) tt (mkAbortTracker 0 0) ∅ ∅ [] 0 "" None []) ∅.
Definition tpm_result := handleSecretsRequest tpm_env (mkRequest "POST" [1]) tpm_server.

Lemma tpm_secrets_released_witness : exists resp, tpm_result = (tpm_server, Reply resp) /\
  exists claims, bound (sreq_Attestation tpm_secrets) tpm_key claims /\ claims_AppID claims = "0xAb"%string.
Proof.
  unfold tpm_result. destruct (handleSecretsRequest tpm_env (mkRequest "POST" [1]) tpm_server) as [s' [resp|c e]] eqn:Hr; [|vm_compute in Hr; discriminate Hr].
  destruct (tpm_secrets_released tpm_env (mkRequest "POST" [1]) tpm_secrets tpm_server s' resp Hr eq_refl eq_refl) as (-> & claims & rel & Hb & Happ & _).
  { apply lookup_insert_eq. }
  exists resp. split; [reflexivity|]. exists claims. split; [exact Hb|exact Happ].
Defined.
