(* ===== verification/Evidence.v ===== *)
(** * The evidence of a SEV-SNP guest: [cmd/kmsCDHHelper/main.go]

    The other side of [Snp]: the helper inside the guest composes the report data, asks the
    attestation agent for a report over it, and rewrites the agent's JSON into the evidence
    the server consumes.  The theorems: what the helper makes is what the server accepts,
    for the image of the init-data document; the packing of a TCB version loses nothing. *)

From S2P Require Import Prelude Bytes Types Fr Gnark Toy Crypto GoText Base64 Attestation InitData Snp.
From Stdlib Require Import Ascii.

(** ** The agent's evidence *)

Record aaTcbVersion := mkTcb { tcb_Fmc : option Z; tcb_Bootloader : Z; tcb_Tee : Z; tcb_Snp : Z; tcb_Microcode : Z }.
Record aaVersion := mkVersion { v_Major : Z; v_Minor : Z; v_Build : Z }.
Record aaSignature := mkSignature { sig_R : bytes; sig_S : bytes }.
Record aaCertEntry := mkCertEntry { CertType : string; Data : bytes }.

Record aaAttestationReport := mkAaReport {
  aa_Version : Z;
  aa_GuestSvn : Z;
  aa_Policy : Z;
  aa_FamilyId : bytes;
  aa_ImageId : bytes;
  aa_Vmpl : Z;
  aa_SigAlgo : Z;
  aa_CurrentTcb : aaTcbVersion;
  aa_PlatInfo : Z;
  aa_KeyInfo : Z;
  aa_ReportData : bytes;
  aa_Measurement : bytes;
  aa_HostData : bytes;
  aa_IdKeyDigest : bytes;
  aa_AuthorKeyDigest : bytes;
  aa_ReportId : bytes;
  aa_ReportIdMa : bytes;
  aa_ReportedTcb : aaTcbVersion;
  aa_CpuidFamId : option Z;
  aa_CpuidModId : option Z;
  aa_CpuidStep : option Z;
  aa_ChipId : bytes;
  aa_CommittedTcb : aaTcbVersion;
  aa_Current : aaVersion;
  aa_Committed : aaVersion;
  aa_LaunchTcb : aaTcbVersion;
  aa_LaunchMitVector : option Z;
  aa_CurMitVector : option Z;
  aa_Signature : aaSignature
}.
Record aaSnpEvidence := mkAaEvidence { aa_AttestationReport : aaAttestationReport; aa_CertChain : list aaCertEntry }.

(** [spb.Report] *)
Record spb_Report := mkSpbReport {
  pb_Version : Z;
  pb_GuestSvn : Z;
  pb_Policy : Z;
  pb_FamilyId : bytes;
  pb_ImageId : bytes;
  pb_Vmpl : Z;
  pb_SignatureAlgo : Z;
  pb_CurrentTcb : Z;
  pb_PlatformInfo : Z;
  pb_SignerInfo : Z;
  pb_ReportData : bytes;
  pb_Measurement : bytes;
  pb_HostData : bytes;
  pb_IdKeyDigest : bytes;
  pb_AuthorKeyDigest : bytes;
  pb_ReportId : bytes;
  pb_ReportIdMa : bytes;
  pb_ReportedTcb : Z;
  pb_ChipId : bytes;
  pb_CommittedTcb : Z;
  pb_CurrentBuild : Z;
  pb_CurrentMinor : Z;
  pb_CurrentMajor : Z;
  pb_CommittedBuild : Z;
  pb_CommittedMinor : Z;
  pb_CommittedMajor : Z;
  pb_LaunchTcb : Z;
  pb_Signature : bytes;
  pb_Cpuid1EaxFms : Z;
  pb_LaunchMitVector : Z;
  pb_CurrentMitVector : Z
}.

(** JSON, PEM and go-sev-guest's encoder. *)
Class AgentLib := {
  json_aa_evidence : bytes -> res aaSnpEvidence;
  json_marshal_evidence : rawSNPEvidence -> res bytes;
  pem_EncodeToMemory : string -> bytes -> option (list ascii);
  ReportToAbiBytes : spb_Report -> res bytes;
  FmsToCpuid1Eax : Z -> Z -> Z -> Z
}.

(** ** [packLegacyTcb] *)

Definition packLegacyTcb (t : aaTcbVersion) : Z :=
  let b := [tcb_Bootloader t; tcb_Tee t; 0; 0; 0; 0; tcb_Snp t; tcb_Microcode t] in
  Z.lor (Z.lor (Z.lor (Z.lor (Z.lor (Z.lor (Z.lor
    (nth 0 b 0) (Z.shiftl (nth 1 b 0) 8)) (Z.shiftl (nth 2 b 0) 16)) (Z.shiftl (nth 3 b 0) 24)) (Z.shiftl (nth 4 b 0) 32))
    (Z.shiftl (nth 5 b 0) 40)) (Z.shiftl (nth 6 b 0) 48)) (Z.shiftl (nth 7 b 0) 56).

Section Evidence.
Context `{AgentLib} `{SnpLib} `{Gnark}.

(** ** [buildReportData] *)

(** [copy(out[:32], lower); copy(out[32:], upper)] into 64 zero bytes. *)
Definition copy_into (out : bytes) (i : nat) (n : nat) (src : bytes) : bytes :=
  let src := take n src in take i out ++ src ++ drop (i + length src) out.
Definition buildReportData (rsaPubPEM extraData ccInitData : bytes) : bytes :=
  let lower := sha256 (rsaPubPEM ++ extraData) in
  let upperFull := Sum384 ccInitData in
  let lowerHex := text_bytes (hex_EncodeToString (take 16 lower)) in
  let upperHex := text_bytes (hex_EncodeToString (take 16 upperFull)) in
  copy_into (copy_into (repeat 0 64) 0 32 lowerHex) 32 32 upperHex.

(** ** [aaReportToProto] *)

Definition size_is (b : bytes) (n : nat) (msg : string) : res unit := fail_if (negb (length b =? n)%nat) msg.

Definition aaReportToProto (r : aaAttestationReport) : res spb_Report :=
  _ ← fail_if (bool_decide (is_Some (tcb_Fmc (aa_CurrentTcb r))) || bool_decide (is_Some (tcb_Fmc (aa_ReportedTcb r)))
               || bool_decide (is_Some (tcb_Fmc (aa_CommittedTcb r))) || bool_decide (is_Some (tcb_Fmc (aa_LaunchTcb r))))
        "TCB version sets fmc: Turin/Venice not yet supported (only Milan/Genoa)";
  _ ← size_is (aa_ReportData r) 64 "report_data: got %d bytes, want 64";
  _ ← size_is (aa_Measurement r) 48 "measurement: got %d bytes, want 48";
  _ ← size_is (aa_HostData r) 32 "host_data: got %d bytes, want 32";
  _ ← size_is (aa_FamilyId r) 16 "family_id: got %d bytes, want 16";
  _ ← size_is (aa_ImageId r) 16 "image_id: got %d bytes, want 16";
  _ ← size_is (aa_IdKeyDigest r) 48 "id_key_digest: got %d bytes, want 48";
  _ ← size_is (aa_AuthorKeyDigest r) 48 "author_key_digest: got %d bytes, want 48";
  _ ← size_is (aa_ReportId r) 32 "report_id: got %d bytes, want 32";
  _ ← size_is (aa_ReportIdMa r) 32 "report_id_ma: got %d bytes, want 32";
  _ ← size_is (aa_ChipId r) 64 "chip_id: got %d bytes, want 64";
  _ ← size_is (sig_R (aa_Signature r)) 72 "signature.r: got %d bytes, want 72";
  _ ← size_is (sig_S (aa_Signature r)) 72 "signature.s: got %d bytes, want 72";
  let sig := copy_into (copy_into (repeat 0 512) 0 72 (sig_R (aa_Signature r))) 72 72 (sig_S (aa_Signature r)) in
  let fms :=
    if bool_decide (is_Some (aa_CpuidFamId r)) || bool_decide (is_Some (aa_CpuidModId r)) || bool_decide (is_Some (aa_CpuidStep r))
    then FmsToCpuid1Eax (default 0 (aa_CpuidFamId r)) (default 0 (aa_CpuidModId r)) (default 0 (aa_CpuidStep r))
    else 0 in
  Ok (mkSpbReport (aa_Version r) (aa_GuestSvn r) (aa_Policy r) (aa_FamilyId r) (aa_ImageId r) (aa_Vmpl r) (aa_SigAlgo r)
        (packLegacyTcb (aa_CurrentTcb r)) (aa_PlatInfo r) (aa_KeyInfo r) (aa_ReportData r) (aa_Measurement r) (aa_HostData r)
        (aa_IdKeyDigest r) (aa_AuthorKeyDigest r) (aa_ReportId r) (aa_ReportIdMa r) (packLegacyTcb (aa_ReportedTcb r)) (aa_ChipId r)
        (packLegacyTcb (aa_CommittedTcb r)) (v_Build (aa_Current r)) (v_Minor (aa_Current r)) (v_Major (aa_Current r))
        (v_Build (aa_Committed r)) (v_Minor (aa_Committed r)) (v_Major (aa_Committed r)) (packLegacyTcb (aa_LaunchTcb r))
        sig fms (default 0 (aa_LaunchMitVector r)) (default 0 (aa_CurMitVector r))).

(** ** [transformAAEvidence] *)

Definition pem_cert (entry : aaCertEntry) (pemCerts : list (list ascii)) : res (list (list ascii)) :=
  if (length (Data entry) =? 0)%nat then Ok pemCerts else
  pemBlock ← from_opt "cert_chain[%d] (%s): PEM encode returned nil" (pem_EncodeToMemory "CERTIFICATE" (Data entry));
  Ok (pemCerts ++ [pemBlock]).

Definition transformAAEvidence (raw : bytes) : res bytes :=
  ev ← wrap "decode AA evidence JSON" (json_aa_evidence raw);
  reportProto ← wrap "convert AA report to pb.Report" (aaReportToProto (aa_AttestationReport ev));
  rawReport ← wrap "encode pb.Report to ABI bytes" (ReportToAbiBytes reportProto);
  pemCerts ← for_each pem_cert (aa_CertChain ev) [];
  wrap "marshal legacy evidence" (json_marshal_evidence (mkRawSNPEvidence rawReport pemCerts)).
End Evidence.

(** ** Packing *)

Definition tcb_bytes (t : aaTcbVersion) : Prop :=
  is_byte (tcb_Bootloader t) /\ is_byte (tcb_Tee t) /\ is_byte (tcb_Snp t) /\ is_byte (tcb_Microcode t).

(** Bits put above a number are added to it. *)
Lemma lor_shift a b n : 0 <= n -> 0 <= a < 2 ^ n -> 0 <= b -> Z.lor a (Z.shiftl b n) = a + b * 2 ^ n.
Proof.
  intros Hn Ha Hb. rewrite <- Z.shiftl_mul_pow2 by done. pose proof (Z.add_lor_land a (Z.shiftl b n)) as Hs.
  assert (Hl : Z.land a (Z.shiftl b n) = 0); [|lia].
  apply Z.bits_inj'. intros i Hi. rewrite Z.land_spec, Z.bits_0. destruct (Z.lt_ge_cases i n).
  - rewrite Z.shiftl_spec_low by done. apply andb_false_r.
  - destruct (Z.eq_dec a 0) as [->|]; [by rewrite Z.bits_0|].
    assert (Z.log2 a < n) by (apply Z.log2_lt_pow2; lia). by rewrite (Z.bits_above_log2 a i) by lia.
Qed.

Lemma packLegacyTcb_value t : tcb_bytes t ->
  packLegacyTcb t = tcb_Bootloader t + tcb_Tee t * 2 ^ 8 + tcb_Snp t * 2 ^ 48 + tcb_Microcode t * 2 ^ 56.
Proof.
  intros (Hb & Ht & Hs & Hm). unfold packLegacyTcb, is_byte in *. cbn [nth]. rewrite !Z.shiftl_0_l, !Z.lor_0_r.
  rewrite (lor_shift (tcb_Bootloader t) (tcb_Tee t) 8) by lia. rewrite (lor_shift _ (tcb_Snp t) 48) by lia. rewrite (lor_shift _ (tcb_Microcode t) 56) by lia. done.
Qed.

(** The packed version is the little-endian 64-bit word of the wire: its bytes are the four
    fields at 0, 1, 6 and 7 and zeros between, so it fits and two versions with one word are
    equal in the four fields. *)
Theorem tcb_packing t t' : tcb_bytes t -> tcb_bytes t' ->
  0 <= packLegacyTcb t < 2 ^ 64 /\
  rev (be_bytes 8 (packLegacyTcb t)) = [tcb_Bootloader t; tcb_Tee t; 0; 0; 0; 0; tcb_Snp t; tcb_Microcode t] /\
  (packLegacyTcb t = packLegacyTcb t' -> tcb_Bootloader t = tcb_Bootloader t' /\ tcb_Tee t = tcb_Tee t' /\ tcb_Snp t = tcb_Snp t' /\ tcb_Microcode t = tcb_Microcode t').
Proof.
  intros Ht Ht'. rewrite !packLegacyTcb_value by done. destruct Ht as (Hb & Hte & Hs & Hm), Ht' as (Hb' & Hte' & Hs' & Hm'). unfold is_byte in *.
  split_and!; [lia|lia| |intros; lia].
  cbn [be_bytes rev app]. change (Z.of_nat 7) with 7. change (Z.of_nat 6) with 6. change (Z.of_nat 5) with 5. change (Z.of_nat 4) with 4.
  change (Z.of_nat 3) with 3. change (Z.of_nat 2) with 2. change (Z.of_nat 1) with 1. change (Z.of_nat 0) with 0.
  repeat f_equal; Z.to_euclidean_division_equations; lia.
Qed.

Lemma copy_into_all out i n src : length src = n -> (i + n <= length out)%nat -> copy_into out i n src = (take i out ++ src ++ drop (i + n) out)%list.
Proof. intros <- Hl. unfold copy_into. by rewrite (take_ge src). Qed.

Section EvidenceFacts.
Context `{AgentLib} `{HashLaws} `{InitDataLib}.

Lemma length_hex16 h : (16 <= length h)%nat -> length (text_bytes (hex_EncodeToString (take 16 h))) = 32%nat.
Proof. intros Hh. unfold text_bytes. rewrite length_fmap, length_hex, length_take. lia. Qed.

(** The helper and the server compute the same report data. *)
Lemma buildReportData_expected rsa extra cc : buildReportData rsa extra cc = expected_report_data rsa extra cc.
Proof.
  unfold buildReportData, expected_report_data, nonce_hex.
  pose proof (length_hex16 (sha256 (rsa ++ extra)) ltac:(rewrite sha256_size; lia)) as Hl.
  pose proof (length_hex16 (Sum384 cc) ltac:(rewrite sum384_size; lia)) as Hu.
  set (l := text_bytes (hex_EncodeToString (take 16 (sha256 (rsa ++ extra))))) in *. set (u := text_bytes (hex_EncodeToString (take 16 (Sum384 cc)))) in *.
  assert (Hfirst : copy_into (repeat 0 64) 0 32 l = (l ++ repeat 0 32)%list) by (rewrite copy_into_all; [done|done|cbn; lia]).
  rewrite Hfirst, copy_into_all; [|done|rewrite length_app, Hl; cbn; lia].
  rewrite take_app_length' by done. rewrite drop_ge by (rewrite length_app, Hl; cbn; lia). by rewrite app_nil_r.
Qed.

(** ** Certificates survive *)

Definition cert_entries (ev : aaSnpEvidence) : list bytes := filter (fun d => d <> []) (Data <$> aa_CertChain ev).

Lemma pem_certs_ok entries certs0 : (forall e, e ∈ entries -> Data e <> [] -> is_Some (pem_EncodeToMemory "CERTIFICATE" (Data e))) ->
  exists certs, for_each pem_cert entries certs0 = Ok (certs0 ++ certs) /\
    Forall2 (fun t d => pem_EncodeToMemory "CERTIFICATE" d = Some t) certs (filter (fun d => d <> []) (Data <$> entries)).
Proof.
  revert certs0. induction entries as [|e entries IH]; intros certs0 Hpem; cbn [for_each].
  - exists []. rewrite app_nil_r. by split.
  - destruct (decide (Data e = [])) as [He|He].
    + assert (Hskip : pem_cert e certs0 = Ok certs0) by (unfold pem_cert; by rewrite He).
      rewrite Hskip. cbn [mbind res_bind fmap list_fmap]. rewrite filter_cons_False by naive_solver.
      apply IH. intros e' Hin. apply Hpem. by right.
    + destruct (Hpem e) as [t Ht]; [by left|done|].
      assert (Hput : pem_cert e certs0 = Ok (certs0 ++ [t])).
      { unfold pem_cert. destruct (Nat.eqb_spec (length (Data e)) 0) as [Hz|_]; [by destruct (Data e)|]. by rewrite Ht. }
      rewrite Hput. cbn [mbind res_bind]. destruct (IH (certs0 ++ [t])) as (certs & Hf & Hc); [intros e' Hin; apply Hpem; by right|].
      exists (t :: certs). rewrite Hf, <- app_assoc. split; [done|]. cbn [fmap list_fmap]. rewrite filter_cons_True by done. by constructor.
Qed.

Lemma buildCertChain_total pemCerts certs : (length pemCerts <= maxCertChainLen)%nat -> Forall2 decoded_cert pemCerts certs ->
  exists chain dropped, buildCertChain pemCerts = Ok (chain, dropped) /\ chain_of certs chain.
Proof.
  intros Hlen Hf. assert (Hok : exists st, buildCertChain pemCerts = Ok st).
  { unfold buildCertChain. rewrite (proj2 (Nat.ltb_ge _ _) Hlen). cbn [fail_if mbind res_bind].
    generalize (mkCertificateChain None None None None, @nil (list ascii)). clear Hlen.
    induction Hf as [|raw [cn der] pems certs [Hd Hc] Hf IH]; intros st; cbn [for_each]; [by eexists|].
    cbn [fst snd] in Hd, Hc. rewrite Hd. cbn [wrap mbind res_bind]. rewrite Hc. cbn [wrap mbind res_bind]. apply IH. }
  destruct Hok as [[chain dropped] Hok]. exists chain, dropped. split; [done|].
  apply buildCertChain_ok in Hok as (_ & certs' & Hf' & Hc). assert (Heq : certs' = certs); [|by subst].
  clear -Hf Hf'. revert certs' Hf'. induction Hf as [|raw [cn der] pems certs [Hd Hc] Hf IH]; intros certs' Hf'; inversion Hf' as [|? [cn' der'] ? ? [Hd' Hc']]; subst; [done|].
  cbn [fst snd] in *. assert (der' = der) by congruence. subst. assert (cn' = cn) by congruence. subst. f_equal. by apply IH.
Qed.
End EvidenceFacts.

(** What the libraries document: a report survives its binary form, evidence of text its JSON
    form (one object, without space around it) and a certificate its PEM form. *)
Definition ascii_text (l : list ascii) : Prop := Forall (fun c => (nat_of_ascii c < 128)%nat) l.
Class AgentLaws `{AgentLib} `{SnpLib} := {
  to_Report : spb_Report -> Report;
  abi_round r b : ReportToAbiBytes r = Ok b -> length b = snpReportSize /\ ReportToProto b = Ok (to_Report r) /\
    GetReportData (to_Report r) = pb_ReportData r /\ GetMeasurement (to_Report r) = pb_Measurement r;
  json_round ev b : json_marshal_evidence ev = Ok b -> Forall ascii_text (CertChain ev) ->
    json_evidence b = Ok ev /\ exists body, b = text_bytes ("{"%char :: body ++ ["}"%char]);
  pem_total d : is_Some (pem_EncodeToMemory "CERTIFICATE" d);
  pem_round d t : Forall is_byte d -> pem_EncodeToMemory "CERTIFICATE" d = Some t ->
    ascii_text t /\ HasPrefix (trim_text t) (chars_of "-----BEGIN") = true /\ pem_Bytes (trim_text t) = Some d
}.

Section Accepted.
Context `{AgentLaws} `{!Gnark} `{!HashLaws} `{InitDataLib}.

(** The certificates of the agent, with their names. *)
Definition named_certs (ev : aaSnpEvidence) (certs : list (list ascii * bytes)) : Prop :=
  Forall2 (fun d c => c.2 = d /\ Forall is_byte d /\ x509_CommonName d = Ok c.1) (cert_entries ev) certs.

Lemma pem_named ev certs pems : named_certs ev certs -> Forall2 (fun t d => pem_EncodeToMemory "CERTIFICATE" d = Some t) pems (cert_entries ev) ->
  Forall2 decoded_cert pems certs /\ Forall ascii_text pems.
Proof.
  unfold named_certs. intros Hn. revert pems. induction Hn as [|d c ds cs (Hc & Hb & Hx) Hn IH]; intros pems Hp; inversion Hp as [|t d' pems' ds' Ht Hp']; subst.
  - by split.
  - destruct (IH _ Hp') as [Hd Ha]. destruct (pem_round c.2 t Hb Ht) as (Hat & Hpre & Hdec). split; constructor; try done.
    unfold decoded_cert, decodeCert. cbv zeta. by rewrite Hpre, Hdec.
Qed.

Lemma brace_text body : decodeBase64Lenient (text_bytes ("{"%char :: body ++ ["}"%char])) = Ok (text_bytes ("{"%char :: body ++ ["}"%char])).
Proof. unfold decodeBase64Lenient. cbv zeta. rewrite (trim_firm "{" (body ++ ["}"%char]) "}" ("{"%char :: body)); done. Qed.

(** What the helper makes, the server reads: the report, and the chain of the certificates. *)
Lemma transformed_evidence raw evidence ev pb certs : json_aa_evidence raw = Ok ev -> aaReportToProto (aa_AttestationReport ev) = Ok pb ->
  transformAAEvidence raw = Ok evidence -> named_certs ev certs -> (length certs <= maxCertChainLen)%nat ->
  exists rep pems chain dropped, decodeBase64Lenient evidence = Ok evidence /\ evidence <> [] /\ json_evidence evidence = Ok (mkRawSNPEvidence rep pems) /\
    length rep = snpReportSize /\ ReportToProto rep = Ok (to_Report pb) /\ buildCertChain pems = Ok (chain, dropped) /\ chain_of certs chain /\
    GetReportData (to_Report pb) = pb_ReportData pb /\ GetMeasurement (to_Report pb) = pb_Measurement pb.
Proof.
  intros Hj Hp Ht Hn Hlen. unfold transformAAEvidence in Ht. rewrite Hj in Ht. cbn [wrap mbind res_bind] in Ht. rewrite Hp in Ht. cbn [wrap mbind res_bind] in Ht.
  apply res_bind_ok in Ht as (rep & Hrep%wrap_ok & Ht). apply abi_round in Hrep as (Hsize & Hproto & Hrd & Hms).
  destruct (pem_certs_ok (aa_CertChain ev) []) as (pems & Hpems & Hf); [intros; apply pem_total|]. rewrite Hpems in Ht. cbn [mbind res_bind app] in Ht.
  destruct (pem_named ev certs pems Hn Hf) as [Hdec Hat]. apply wrap_ok, json_round in Ht as [Hround [body ->]]; [|done].
  destruct (buildCertChain_total pems certs) as (chain & dropped & Hch & Hco); [by rewrite (Forall2_length _ _ _ Hdec)|done|].
  exists rep, pems, chain, dropped. split_and!; try done. apply brace_text.
Qed.

Lemma aaReportToProto_keeps r pb : aaReportToProto r = Ok pb -> pb_ReportData pb = aa_ReportData r /\ pb_Measurement pb = aa_Measurement r /\ length (aa_ReportData r) = 64%nat.
Proof.
  unfold aaReportToProto, size_is. rewrite !fail_if_bind. intros (_ & Hl & _ & _ & _ & _ & _ & _ & _ & _ & _ & _ & _ & Hr).
  apply negb_false_iff, Nat.eqb_eq in Hl. by injection Hr as <-.
Qed.

(** C12: The helper and the server fit together: when the agent's report is over the report data
    that the helper composed, and the verifier, the allowlist and the validator accept the
    report with the chain of the agent's certificates, then the evidence the helper makes is
    accepted, with claims for the application and the image of the init-data document. *)
Theorem helper_evidence_accepted (m : EigenXSNPAttestationMethod) (raw evidence rsa extra cc : bytes) ev pb certs (appID registry digest : string) :
  json_aa_evidence raw = Ok ev -> aaReportToProto (aa_AttestationReport ev) = Ok pb -> transformAAEvidence raw = Ok evidence ->
  aa_ReportData (aa_AttestationReport ev) = buildReportData rsa extra cc -> rsa <> [] -> cc <> [] -> parseInitDataPolicy cc = Ok (registry, digest) ->
  named_certs ev certs -> (length certs <= maxCertChainLen)%nat ->
  (forall chain, chain_of certs chain -> verifier m (mkAttestation (to_Report pb) chain) (options m) = Ok tt /\
     validator m (mkAttestation (to_Report pb) chain) (validateOptions m) = Ok tt) ->
  (measurementAllowlist m = [] \/ aa_Measurement (aa_AttestationReport ev) ∈ measurementAllowlist m) ->
  exists claims, eigenx_snp_Verify m (Some (mkAttestationRequest EigenXSNPMethodName evidence appID [] [] ∅ rsa extra cc)) = Ok claims /\
    claims_AppID claims = appID /\ claims_ImageDigest claims = ("sha256:" +:+ digest)%string /\ claims_Registry claims = registry.
Proof.
  intros Hj Hp Ht Hrd Hrsa Hcc Hpol Hn Hlen Hacc Hallow.
  destruct (transformed_evidence raw evidence ev pb certs Hj Hp Ht Hn Hlen) as (rep & pems & chain & dropped & Hd & Hne & Hje & Hsz & Hrp & Hch & Hco & Hgd & Hgm).
  apply aaReportToProto_keeps in Hp as (Hpd & Hpm & Hdl). destruct (Hacc chain Hco) as [Hver Hval].
  rewrite Hpd in Hgd. rewrite Hpm in Hgm. rewrite Hrd in Hdl, Hgd. rewrite buildReportData_expected in Hdl, Hgd.
  unfold eigenx_snp_Verify. cbn [from_opt mbind res_bind areq_Attestation areq_RSAPubKeyTmp areq_CCInitData areq_ExtraData areq_AppID].
  rewrite (bool_decide_false (evidence = [])), (bool_decide_false (rsa = [])), (bool_decide_false (cc = [])) by done. cbn [fail_if mbind res_bind].
  rewrite Hd. cbn [wrap mbind res_bind]. rewrite Hje. cbn [wrap mbind res_bind AttestationReport CertChain]. rewrite Hsz, Nat.ltb_irrefl. cbn [fail_if mbind res_bind].
  rewrite (take_ge rep) by lia. rewrite Hrp. cbn [wrap mbind res_bind]. rewrite Hch. cbn [wrap mbind res_bind]. cbv zeta. rewrite Hver. cbn [wrap mbind res_bind].
  assert (Hm : (if bool_decide (measurementAllowlist m = []) then Ok tt else checkMeasurementAllowed m (GetMeasurement (to_Report pb))) = Ok tt).
  { case_bool_decide; [done|]. destruct Hallow as [|Hin]; [done|]. unfold checkMeasurementAllowed. apply fail_if_ok. rewrite Hgm. apply negb_false_iff, existsb_exists.
    exists (aa_Measurement (aa_AttestationReport ev)). split; [by apply list_elem_of_In|by apply bool_decide_eq_true]. }
  rewrite Hm. cbn [mbind res_bind]. rewrite Hval. cbn [wrap mbind res_bind]. rewrite Hgd, Hdl. change (negb (64 =? snpReportDataSize)%nat) with false. cbn [fail_if mbind res_bind].
  rewrite (bool_decide_true (expected_report_data rsa extra cc = expected_report_data rsa extra cc)) by done. cbn [negb fail_if mbind res_bind]. rewrite Hpol. cbn [wrap mbind res_bind].
  by eexists.
Qed.
End Accepted.

(** ** Witnesses *)

#[local] Existing Instances toy97 toy_init_data.
#[local] Instance rawSNPEvidence_eq_dec : EqDecision rawSNPEvidence := ltac:(solve_decision).

(** A report is its bytes, with the report data at 0x50 and the measurement at 0x90; a
    certificate is its name. *)
Definition toy_layout (r : spb_Report) : bytes := repeat 0 80 ++ pb_ReportData r ++ pb_Measurement r ++ repeat 0 992.
Definition toy_pem (der : bytes) : list ascii := chars_of "-----BEGIN" ++ EncodeToString StdEncoding der ++ ["-"%char].
Definition toy_unpem (s : list ascii) : option bytes :=
  match strip (chars_of "-----BEGIN") s with
  | Some body => match DecodeString StdEncoding (take (length body - 1) body) with Ok b => Some b | Err _ => None end
  | None => None
  end.

Definition guest_tcb : aaTcbVersion := mkTcb None 3 0 22 213.
Definition guest_report : aaAttestationReport :=
  mkAaReport 2 0 196608 (repeat 0 16) (repeat 0 16) 0 1 guest_tcb 0 0
    (text_bytes (hex_EncodeToString (take 16 (toy_digest (demo_key ++ demo_extra)))) ++ text_bytes (hex_EncodeToString (take 16 (toy_sum384 demo_init))))
    (repeat 5 48) (repeat 0 32) (repeat 0 48) (repeat 0 48) (repeat 0 32) (repeat 0 32) guest_tcb None None None (repeat 9 64)
    guest_tcb (mkVersion 1 55 8) (mkVersion 1 55 8) guest_tcb None None (mkSignature (repeat 1 72) (repeat 2 72)).
Definition guest_certs : list (list ascii * bytes) :=
  (fun n => (chars_of n, text_bytes (chars_of n))) <$> ["SEV-VLEK-Milan"; "SEV-VLEK"; "ARK-Milan"]%string.
Definition guest_evidence : aaSnpEvidence :=
  mkAaEvidence guest_report (mkCertEntry "CRL" [] :: ((fun c => mkCertEntry "VLEK" c.2) <$> guest_certs)).
Definition guest_raw : rawSNPEvidence :=
  mkRawSNPEvidence (repeat 0 80 ++ aa_ReportData guest_report ++ aa_Measurement guest_report ++ repeat 0 992) ((fun c => toy_pem c.2) <$> guest_certs).

#[local] Instance guest_agent : AgentLib := {
  json_aa_evidence b := match b with [123; 125] => Ok guest_evidence | _ => Err "invalid character" end;
  json_marshal_evidence ev := if bool_decide (ev = guest_raw) then Ok (text_bytes (chars_of "{0}")) else Err "json: unsupported value";
  pem_EncodeToMemory _ der := Some (toy_pem der);
  ReportToAbiBytes r := if (length (pb_ReportData r) =? 64)%nat && (length (pb_Measurement r) =? 48)%nat then Ok (toy_layout r) else Err "size";
  FmsToCpuid1Eax f m s := 0
}.
#[local] Instance guest_snp : SnpLib := {
  Report := bytes;
  ReportToProto b := Ok b;
  GetMeasurement r := take 48 (drop 144 r);
  GetReportData r := take 64 (drop 80 r);
  AMDRootCerts := unit;
  AskArkVlekBytes _ := [1];
  FromKDSCertBytes _ _ := Ok tt;
  verify_DefaultOptions := mkVerifyOptions false None;
  json_evidence b := if bool_decide (b = text_bytes (chars_of "{0}")) then Ok guest_raw else Err "unexpected end of JSON input";
  pem_Bytes := toy_unpem;
  x509_CommonName b := Ok (bytes_text b);
  Sum384 := toy_sum384
}.

#[local] Instance guest_hash_laws : HashLaws.
Proof.
  constructor; intros m; cbn [sha256 Sum384 toy97 toy_gnark guest_snp]; unfold toy_sum384, toy_digest.
  - apply length_be_bytes.
  - apply be_bytes_bytes.
  - rewrite length_app, length_take, !length_be_bytes. done.
  - apply Forall_app_2; [|apply Forall_take]; apply be_bytes_bytes.
Qed.

Lemma encode_char_ascii enc v : 0 <= v < 64 -> (nat_of_ascii (encode_char enc v) < 128)%nat.
Proof.
  revert v. apply sextets. intros n Hn. do 64 (destruct n as [|n]; [destruct enc as [[] ?]; apply Nat.ltb_lt; vm_compute; reflexivity|]). lia.
Qed.

Lemma toy_pem_round d : Forall is_byte d ->
  ascii_text (toy_pem d) /\ HasPrefix (trim_text (toy_pem d)) (chars_of "-----BEGIN") = true /\ toy_unpem (trim_text (toy_pem d)) = Some d.
Proof.
  intros Hb. assert (Htrim : trim_text (toy_pem d) = toy_pem d).
  { assert (Heq : trim_text (toy_pem d) = trim (text_bytes (toy_pem d))) by (unfold trim; by rewrite bytes_text_bytes). rewrite Heq.
    unfold toy_pem. cbn [chars_of String.list_ascii_of_string app].
    by apply (trim_firm _ _ "-" ("-" :: "-" :: "-" :: "-" :: "-" :: "B" :: "E" :: "G" :: "I" :: "N" :: EncodeToString StdEncoding d)%char). }
  rewrite Htrim. assert (Hs : strip (chars_of "-----BEGIN") (toy_pem d) = Some (EncodeToString StdEncoding d ++ ["-"%char])%list) by by apply strip_one_prefix.
  split_and!.
  - unfold toy_pem, ascii_text. apply Forall_app_2; [by_compute|]. apply Forall_app_2; [|by_compute].
    eapply Forall_impl; [by apply (EncodeToString_chars StdEncoding)|]. intros c [(v & Hv & ->)|[_ ->]]; [by apply encode_char_ascii|by_compute].
  - unfold HasPrefix. by rewrite Hs.
  - unfold toy_unpem. rewrite Hs, length_app, Nat.add_sub, take_app_length, decode_encode; done.
Qed.

#[local] Instance guest_laws : AgentLaws.
Proof.
  refine {| to_Report := toy_layout |}.
  - intros r b. cbn [ReportToAbiBytes guest_agent]. destruct (_ && _) eqn:Hl; [|done]. apply andb_true_iff in Hl as [Hd%Nat.eqb_eq Hm%Nat.eqb_eq]. intros [= <-].
    cbn [ReportToProto GetReportData GetMeasurement guest_snp]. unfold toy_layout. split_and!; [|done|..].
    + rewrite !length_app, Hd, Hm, !repeat_length. done.
    + rewrite (drop_app_length' _ _ 80), take_app_length' by (by rewrite ?repeat_length). done.
    + rewrite (assoc_L (++)), (drop_app_length' _ _ 144), take_app_length' by (by rewrite ?length_app, ?repeat_length, ?Hd). done.
  - intros ev b. cbn [json_marshal_evidence guest_agent]. case_bool_decide as He; [|done]. intros [= <-] _. subst ev. split; [reflexivity|]. by exists ["0"%char].
  - intros d. by eexists.
  - intros d t Hb. cbn [pem_EncodeToMemory guest_agent pem_Bytes guest_snp]. intros [= <-]. by apply toy_pem_round.
Defined.

Definition guest_method : EigenXSNPAttestationMethod :=
  (SetMeasurementAllowlist [repeat 4 48; repeat 5 48]
    (newEigenXSNPMethod
      (fun att opts => fail_if (negb (DisableCertFetching opts && bool_decide (is_Some (ArkCert (att_CertificateChain att)))
                                      && bool_decide (is_Some (VlekCert (att_CertificateChain att))))) "no chain")
      (fun _ opts => fail_if (policy_Debug (GuestPolicy opts)) "debug") None)).1.

Lemma tcb_packing_witness : packLegacyTcb guest_tcb = 15354459979566284803 /\ 0 <= packLegacyTcb guest_tcb < 2 ^ 64.
Proof.
  split; [vm_compute; reflexivity|]. apply (tcb_packing guest_tcb guest_tcb); unfold tcb_bytes, is_byte; cbn; lia.
Defined.

Lemma helper_evidence_accepted_witness : exists claims,
  eigenx_snp_Verify guest_method (Some (mkAttestationRequest EigenXSNPMethodName (text_bytes (chars_of "{0}")) "app" [] [] ∅ demo_key demo_extra demo_init)) = Ok claims /\
  claims_AppID claims = "app"%string /\ claims_ImageDigest claims = ("sha256:" +:+ string_of hex_a)%string /\ claims_Registry claims = "ghcr.io/app"%string.
Proof.
  destruct (aaReportToProto guest_report) as [pb|e] eqn:Hpb; [|vm_compute in Hpb; discriminate].
  apply (helper_evidence_accepted guest_method [123; 125] (text_bytes (chars_of "{0}")) demo_key demo_extra demo_init guest_evidence pb guest_certs).
  - reflexivity.
  - exact Hpb.
  - vm_compute. reflexivity.
  - vm_compute. reflexivity.
  - done.
  - done.
  - vm_compute. reflexivity.
  - unfold named_certs. change (cert_entries guest_evidence) with (snd <$> guest_certs).
    repeat (apply Forall2_cons_2; [split_and!; [reflexivity|unfold is_byte; by_compute|reflexivity]|]). apply Forall2_nil_2.
  - unfold maxCertChainLen; cbn; lia.
  - intros chain Hc. destruct Hc as [Ha _ _ Hv]. split.
    + cbn [verifier guest_method]. change (fail_if (negb (true && bool_decide (is_Some (ArkCert chain)) && bool_decide (is_Some (VlekCert chain)))) "no chain" = Ok tt).
      rewrite Ha, Hv. vm_compute. reflexivity.
    + reflexivity.
  - right. change (repeat 5 48 ∈ [repeat 4 48; repeat 5 48]). right. left.
Defined.
