(* ===== verification/EnvCache.v ===== *)
(** * The environment cache of a guest: [cmd/kmsCDHHelper/env_cache.go]

    The helper runs once for every sealed variable; the first run writes the whole
    environment to a file on tmpfs, the later ones read it.  The file system is a map from
    paths to contents that the operations thread in [SM]; what the system calls return is a
    parameter.  The theorem: a stored environment is loaded by the stack it belongs to and by
    no other, a store that fails changes nothing a reader sees; text that is not UTF-8 comes
    back replaced. *)

From S2P Require Import Prelude Types NodeCore GoText.
From Stdlib Require Import Ascii.

(** ** UTF-8 as [encoding/json] writes it *)

Definition between (lo hi : nat) (c : ascii) : bool := ((lo <=? nat_of_ascii c) && (nat_of_ascii c <=? hi))%nat.
Definition continuation : ascii -> bool := between 128 191.

(** The bytes of the character a text begins with; 0 where there is none. *)
Definition rune_len (l : list ascii) : nat :=
  match l with
  | [] => 0
  | a :: l1 =>
      if between 0 127 a then 1 else
      match l1 with
      | [] => 0
      | b :: l2 =>
          if between 194 223 a then (if continuation b then 2 else 0) else
          match l2 with
          | [] => 0
          | c :: l3 =>
              let second := if between 224 224 a then between 160 191 b
                            else if between 237 237 a then between 128 159 b
                            else between 225 239 a && continuation b in
              if second then (if continuation c then 3 else 0) else
              match l3 with
              | [] => 0
              | d :: _ =>
                  let second := if between 240 240 a then between 144 191 b
                                else if between 244 244 a then between 128 143 b
                                else between 241 243 a && continuation b in
                  if second && continuation c && continuation d then 4 else 0
              end
          end
      end
  end.

(** U+FFFD *)
Definition replacement : list ascii := byte <$> [239; 191; 189]%nat.

(** A byte that begins no character becomes U+FFFD.  Each step takes a byte at least. *)
Fixpoint coerce_n (fuel : nat) (l : list ascii) : list ascii :=
  match fuel, l with
  | S fuel, _ :: l' =>
      match rune_len l with
      | O => replacement ++ coerce_n fuel l'
      | n => take n l ++ coerce_n fuel (drop n l)
      end
  | _, _ => []
  end.
Definition coerce (s : string) : string := string_of (coerce_n (String.length s) (chars_of s)).
Definition valid_text (s : string) : Prop := coerce s = s.

(** ** The cache *)

Definition envCacheDir : string := "/run/eigenx".
Definition separator : ascii := "/".

(** The name has no separator and does not end in a dot, so [filepath.Join] only joins. *)
Definition cachePath (stackID : string) : string :=
  let safe := (fun c => if Ascii.eqb c separator then "_"%char else c) <$> chars_of stackID in
  envCacheDir +:+ "/" +:+ string_of safe +:+ ".json".

(** [encoding/json] on the environment. *)
Class EnvJson := {
  json_marshal_env : gmap string string -> res (list Z);
  json_env : list Z -> res (gmap string string)
}.

(** What it documents: a map of strings has a form, text is coerced to UTF-8, keys that are
    text stay. *)
Class EnvJsonLaws `{EnvJson} : Prop := {
  env_total env : is_ok (json_marshal_env env) = true;
  env_round env b : json_marshal_env env = Ok b -> map_Forall (fun name _ => valid_text name) env -> json_env b = Ok (coerce <$> env)
}.

(** What the system calls return.  [io_open] is an error other than the absence of the file;
    a write stops after some bytes ([Some n]) or is complete. *)
Record CacheIO := mkCacheIO {
  io_open : res unit;
  io_flock_shared : res unit;
  io_mkdir : res unit;
  io_open_lock : res unit;
  io_flock_exclusive : res unit;
  io_temp : res string;
  io_chmod : res unit;
  io_short_write : option nat;
  io_close : res unit;
  io_rename : res unit
}.

Notation files := (gmap string (list Z)).

Section Cache.
Context `{EnvJson}.

Definition loadCachedEnv (io : CacheIO) (stackID : string) : SM files (option (gmap string string)) :=
  _ ← sm_lift (io_open io);
  fs ← sm_get;
  match fs !! cachePath stackID with
  | None => mret None
  | Some content =>
      _ ← sm_lift (wrap "flock(shared)" (io_flock_shared io));
      mret (match json_env content with Ok env => Some env | Err _ => None end)
  end.

(** [os.CreateTemp(envCacheDir, ".env-*.tmp")] *)
Definition temp_path (random : string) : string := envCacheDir +:+ "/.env-" +:+ random +:+ ".tmp".
Definition touch (path : string) (fs : files) : files := match fs !! path with Some _ => fs | None => <[path := []]> fs end.
Definition rename (from to : string) (fs : files) : files := <[to := default [] (fs !! from)]> (delete from fs).

Definition write_temp (io : CacheIO) (tmpName : string) (data : list Z) : SM files unit :=
  match io_short_write io with
  | Some n => _ ← sm_modify (<[tmpName := take n data]>); sm_fail "write temp"
  | None => sm_modify (<[tmpName := data]>)
  end.

Definition storeCachedEnv (io : CacheIO) (stackID : string) (env : gmap string string) : SM files unit :=
  _ ← sm_lift (wrap "mkdir %s" (io_mkdir io));
  let final := cachePath stackID in
  _ ← sm_lift (wrap "open lock file" (io_open_lock io));
  _ ← sm_modify (touch (final +:+ ".lock"));
  _ ← sm_lift (wrap "flock(exclusive)" (io_flock_exclusive io));
  data ← sm_lift (wrap "marshal env" (json_marshal_env env));
  random ← sm_lift (wrap "create temp" (io_temp io));
  let tmpName := temp_path random in
  _ ← sm_modify (<[tmpName := []]>);
  sm_defer (delete tmpName) (
    _ ← sm_lift (wrap "chmod temp" (io_chmod io));
    _ ← write_temp io tmpName data;
    _ ← sm_lift (wrap "close temp" (io_close io));
    _ ← sm_lift (wrap "rename temp into place" (io_rename io));
    sm_modify (rename tmpName final)).

(** The value for the key is what is written to the standard output. *)
Definition emitKey (stdout : res unit) (env : gmap string string) (key : string) : res string :=
  val ← from_opt "key %q not present in app env (release has %d keys)" (env !! key);
  _ ← wrap "write stdout" stdout;
  Ok val.
End Cache.

(** ** Stack ids: [validateStackID] of [main.go] *)

Definition stack_char (c : ascii) : bool :=
  between 65 90 c || between 97 122 c || between 48 57 c || Ascii.eqb c "." || Ascii.eqb c "_" || Ascii.eqb c "-".

Definition validateStackID (stackID : string) : res unit :=
  _ ← fail_if (bool_decide (stackID = ""%string)) "stack_id: empty";
  _ ← fail_if (bool_decide (stackID = "."%string) || bool_decide (stackID = ".."%string)) "stack_id: %q is not a valid path segment";
  fail_if (negb (forallb stack_char (chars_of stackID))) "stack_id: %q contains characters outside [A-Za-z0-9._-]".

(** ** Text *)

Lemma coerce_n_valid fuel l : (length l <= fuel)%nat -> Forall (fun c => between 0 127 c = true) l -> coerce_n fuel l = l.
Proof.
  revert l. induction fuel as [|fuel IH]; intros l Hf Hl; [by destruct l; [|cbn in Hf; lia]|]. destruct Hl as [|c l Hc Hl]; [done|].
  cbn [coerce_n rune_len]. rewrite Hc. cbn [take drop app]. f_equal. apply IH; [cbn in Hf; lia|done].
Qed.

(** What is ASCII is text. *)
Lemma ascii_valid s : Forall (fun c => between 0 127 c = true) (chars_of s) -> valid_text s.
Proof.
  intros Hs. unfold valid_text, coerce. rewrite coerce_n_valid; [apply String.string_of_list_ascii_of_string| |done].
  clear Hs. induction s; cbn; [lia|]. by apply le_n_S.
Qed.

(** ** Paths *)

Lemma safe_id stackID : validateStackID stackID = Ok tt -> (fun c => if Ascii.eqb c separator then "_"%char else c) <$> chars_of stackID = chars_of stackID.
Proof.
  unfold validateStackID. rewrite !fail_if_bind, fail_if_ok, negb_false_iff, forallb_forall. intros (_ & _ & Hc).
  rewrite <- (list_fmap_id (chars_of stackID)) at 2. apply list_fmap_ext. intros i c Hi. apply list_elem_of_lookup_2, list_elem_of_In, Hc in Hi.
  cbn. destruct (Ascii.eqb_spec c separator) as [->|]; [vm_compute in Hi; discriminate|done].
Qed.

(** Two stacks do not share a file. *)
Lemma cachePath_inj a b : validateStackID a = Ok tt -> validateStackID b = Ok tt -> cachePath a = cachePath b -> a = b.
Proof.
  intros Ha Hb Hp. unfold cachePath in Hp. cbv zeta in Hp. rewrite (safe_id a Ha), (safe_id b Hb) in Hp. apply (f_equal chars_of) in Hp.
  rewrite !chars_of_app, !chars_of_string_of in Hp. apply app_inv_head, app_inv_head, app_inv_tail in Hp. by apply chars_of_inj.
Qed.

Lemma last_suffix s t c : last (chars_of t) = Some c -> last (chars_of (s +:+ t)) = Some c.
Proof. intros Ht. rewrite chars_of_app. destruct (chars_of t) as [|x l] eqn:He; [done|]. by rewrite last_app, Ht. Qed.

Lemma cache_last id : last (chars_of (cachePath id)) = Some "n"%char.
Proof. unfold cachePath. cbv zeta. by do 3 apply last_suffix. Qed.
Lemma cache_not_lock id id' : cachePath id <> (cachePath id' +:+ ".lock")%string.
Proof. intros Heq%(f_equal (fun s => last (chars_of s))). rewrite cache_last, (last_suffix _ _ "k") in Heq; done. Qed.
Lemma cache_not_temp id r : cachePath id <> temp_path r.
Proof. intros Heq%(f_equal (fun s => last (chars_of s))). unfold temp_path in Heq. rewrite cache_last, (last_suffix _ _ "p") in Heq; [done|by do 2 apply last_suffix]. Qed.

(** ** What a store does *)

Section CacheFacts.
Context `{EnvJsonLaws}.

(** The environment that a reader finds. *)
Definition cached (fs : files) (stackID : string) : option (gmap string string) :=
  content ← fs !! cachePath stackID;
  match json_env content with Ok env => Some env | Err _ => None end.

Lemma load_cached io id fs : io_open io = Ok tt -> io_flock_shared io = Ok tt -> loadCachedEnv io id fs = (fs, Ok (cached fs id)).
Proof.
  intros Ho Hf. unfold loadCachedEnv, cached. sm_steps. rewrite Ho. destruct (fs !! cachePath id) as [b|]; [|reflexivity].
  by rewrite Hf.
Qed.

(** A load reads. *)
Lemma load_reads io id fs fs' r : loadCachedEnv io id fs = (fs', r) -> fs' = fs /\ forall o, r = Ok o -> o = cached fs id.
Proof.
  unfold loadCachedEnv, cached. sm_steps. destruct (io_open io); [|by intros [= <- <-]].
  destruct (fs !! cachePath id) as [b|]; [|intros [= <- <-]; split; [done|by intros o [= <-]]].
  destruct (io_flock_shared io); intros [= <- <-]; (split; [done|]); [by intros o [= <-]|done].
Qed.

(** The paths a store for a stack may write. *)
Definition scratch (id p : string) : Prop := p = (cachePath id +:+ ".lock")%string \/ exists r, p = temp_path r.

Lemma touch_other p q fs : p <> q -> touch q fs !! p = fs !! p.
Proof. intros Hne. unfold touch. destruct (fs !! q); [done|]. by rewrite lookup_insert_ne. Qed.

(** All that a store does to a path that is not scratch: its own file holds the whole
    content after a success and is as it was after an error. *)
Lemma store_effect io id env fs fs' r p : storeCachedEnv io id env fs = (fs', r) -> ~ scratch id p ->
  fs' !! p = match r with
             | Ok _ => if decide (p = cachePath id) then match json_marshal_env env with Ok data => Some data | Err _ => fs !! p end else fs !! p
             | Err _ => fs !! p
             end.
Proof.
  intros Hs Hp. assert (Hlock : p <> (cachePath id +:+ ".lock")%string) by (intros ->; apply Hp; by left).
  assert (Htmp : forall r, p <> temp_path r) by (intros r' ->; apply Hp; right; by exists r').
  revert Hs. unfold storeCachedEnv. sm_steps.
  destruct (io_mkdir io); cbn [wrap]; [|by intros [= <- <-]]. destruct (io_open_lock io); cbn [wrap]; [|by intros [= <- <-]].
  destruct (io_flock_exclusive io); cbn [wrap]; [|by intros [= <- <-]; apply touch_other].
  destruct (json_marshal_env env) as [data|]; cbn [wrap]; [|by intros [= <- <-]; apply touch_other].
  destruct (io_temp io) as [rnd|]; cbn [wrap]; [|by intros [= <- <-]; apply touch_other]. unfold sm_defer, write_temp. sm_steps.
  assert (Hkeep : forall b fs1, fs1 !! p = fs !! p -> delete (temp_path rnd) (<[temp_path rnd := b]> fs1) !! p = fs !! p)
    by (intros b fs1 Hfs; rewrite lookup_delete_ne, lookup_insert_ne by (apply not_eq_sym, Htmp); exact Hfs).
  assert (Hne : forall r', temp_path r' <> p) by (intros r' Heq; by apply (Htmp r')).
  pose proof (touch_other p (cachePath id +:+ ".lock") fs Hlock) as Ht. set (t := touch _ fs) in *. clearbody t.
  destruct (io_chmod io); cbn [wrap]; [|intros [= <- <-]; by apply Hkeep].
  destruct (io_short_write io) as [n|]; [intros [= <- <-]; by apply Hkeep; rewrite lookup_insert_ne|].
  destruct (io_close io); cbn [wrap]; [|intros [= <- <-]; by apply Hkeep; rewrite lookup_insert_ne].
  destruct (io_rename io); cbn [wrap]; [|intros [= <- <-]; by apply Hkeep; rewrite lookup_insert_ne].
  intros [= <- <-]. unfold rename. rewrite lookup_delete_ne, lookup_insert_eq by done. cbn [default]. case_decide as He.
  - by rewrite He, lookup_insert_eq.
  - rewrite lookup_insert_ne, lookup_delete_ne, !lookup_insert_ne by done. done.
Qed.

Lemma cache_not_scratch id id' : ~ scratch id (cachePath id').
Proof. intros [Hl|[r Hr]]; [by apply cache_not_lock in Hl|by apply cache_not_temp in Hr]. Qed.

Lemma store_cached io id env fs fs' u : storeCachedEnv io id env fs = (fs', Ok u) -> map_Forall (fun name _ => valid_text name) env ->
  cached fs' id = Some (coerce <$> env).
Proof.
  intros Hs Hnames. unfold cached. rewrite (store_effect _ _ _ _ _ _ _ Hs (cache_not_scratch id id)), decide_True by done.
  assert (Hm : exists data, json_marshal_env env = Ok data).
  { revert Hs. unfold storeCachedEnv. sm_steps. destruct (io_mkdir io); [|done]. destruct (io_open_lock io); [|done].
    destruct (io_flock_exclusive io); [|done]. destruct (json_marshal_env env) as [data|]; [by exists data|done]. }
  destruct Hm as [data Hm]. rewrite Hm. cbn [mbind option_bind]. by rewrite (env_round _ _ Hm Hnames).
Qed.

(** System calls that succeed. *)
Record reliable (io : CacheIO) : Prop := {
  rel_open : io_open io = Ok tt; rel_shared : io_flock_shared io = Ok tt; rel_mkdir : io_mkdir io = Ok tt;
  rel_lock : io_open_lock io = Ok tt; rel_exclusive : io_flock_exclusive io = Ok tt; rel_temp : is_ok (io_temp io) = true;
  rel_chmod : io_chmod io = Ok tt; rel_write : io_short_write io = None; rel_close : io_close io = Ok tt; rel_rename : io_rename io = Ok tt
}.

Lemma store_succeeds io id env fs : reliable io -> exists fs', storeCachedEnv io id env fs = (fs', Ok tt).
Proof.
  intros [H1 H2 H3 H4 H5 H6 H7 H8 H9 H10]. unfold storeCachedEnv, sm_defer, write_temp. sm_steps. rewrite H3, H4, H5, H7, H8, H9, H10.
  pose proof (env_total env) as Hm. destruct (json_marshal_env env); [|done]. destruct (io_temp io); [|done]. cbn [wrap]. by eexists.
Qed.

(** A stored environment is what the runs for its stack read, with text that is not UTF-8
    replaced, and nothing else changes for a reader: a store that fails at any point leaves
    the environment of its stack as it was, whole, and no store touches another stack's. *)
Theorem env_cache io id env fs fs' r : storeCachedEnv io id env fs = (fs', r) -> validateStackID id = Ok tt ->
  map_Forall (fun name _ => valid_text name) env ->
  (r = Ok tt -> cached fs' id = Some (coerce <$> env)) /\ (is_ok r = false -> cached fs' id = cached fs id) /\
  (forall id', validateStackID id' = Ok tt -> id' <> id -> cached fs' id' = cached fs id').
Proof.
  intros Hs Hid Hnames. split_and!.
  - intros ->. by apply store_cached in Hs.
  - intros Hr. unfold cached. rewrite (store_effect _ _ _ _ _ _ _ Hs (cache_not_scratch id id)). by destruct r.
  - intros id' Hid' Hne. unfold cached. rewrite (store_effect _ _ _ _ _ _ _ Hs (cache_not_scratch id id')). destruct r; [|done]. rewrite decide_False; [done|].
    intros Heq%cachePath_inj; done.
Qed.
End CacheFacts.

(** ** Witness: the encoder of a finite map *)

#[local] Instance toy_env_json : EnvJson := {
  json_marshal_env env := Ok [Zpos (encode (coerce <$> env : gmap string string))];
  json_env b := match b with [Zpos p] => from_opt "invalid character" (decode p) | _ => Err "EOF" end
}.
#[local] Instance toy_env_laws : EnvJsonLaws.
Proof. constructor; [done|]. intros env b [= <-] _. cbn [json_env toy_env_json]. by rewrite decode_encode. Qed.

Definition quiet : CacheIO := mkCacheIO (Ok tt) (Ok tt) (Ok tt) (Ok tt) (Ok tt) (Ok "1"%string) (Ok tt) None (Ok tt) (Ok tt).
(** A value that is a byte 255. *)
Definition demo_env : gmap string string := <["B" := string_of [byte 255]]> {["A" := "x"]}%string.

Lemma env_cache_witness : cached (storeCachedEnv quiet "ver..2" demo_env ∅).1 "ver..2" = Some (<["B" := string_of replacement]> {["A" := "x"]})%string /\
  cached (storeCachedEnv quiet "ver..2" demo_env ∅).1 "ver_2" = None.
Proof.
  destruct (env_cache quiet "ver..2" demo_env ∅ (storeCachedEnv quiet "ver..2" demo_env ∅).1 (storeCachedEnv quiet "ver..2" demo_env ∅).2) as (Hok & _ & Hother).
  - apply surjective_pairing.
  - reflexivity.
  - apply map_Forall_insert_2; [by apply ascii_valid; by_compute|]. apply map_Forall_singleton, ascii_valid. by_compute.
  - split; [rewrite Hok by reflexivity; f_equal; unfold demo_env; by_compute|]. rewrite Hother; done.
Defined.
