(* ===== verification/Helper.v ===== *)
(** * The helper inside the guest: [cmd/kmsCDHHelper/main.go], [platform_secrets.go]

    One run serves one sealed variable: the request comes from an untrusted caller, everything
    else from the init-data document; unless the environment is cached, the helper attests
    ([Evidence]), recovers the stack's key from the operators ([Client]), fetches the sealed
    secrets from the platform, opens them ([Ibe]) and caches the environment ([EnvCache]).
    The theorems: the caller chooses nothing but the key; the root key is emitted only after it
    was checked, and never stored; one attestation serves a stack; what was sealed for the
    stack is what the environment holds; the helper and the server read one document. *)

From S2P Require Import Prelude Bytes Types Fr Lagrange Gnark Toy Crypto CryptoFacts Recover Dkg Persistence NodeCore GoText Attestation Encryption Secrets Ibe Client InitData Base64 Snp Evidence EnvCache.
From Stdlib Require Import Ascii.

(** ** Data *)

Definition defaultSingleOperatorAddress : string := "0x0000000000000000000000000000000000000001".
Definition envAllowSingleOperatorKMS : string := "EIGENX_ALLOW_SINGLE_OPERATOR_KMS".
Definition aaEvidenceURL : string := "http://127.0.0.1:8006/aa/evidence".
Definition aaMaxBodyBytes : Z := Z.shiftl 1 20.
Definition rsaKeyBits : Z := 2048.
Definition maxInitDataFileSize : Z := Z.shiftl 1 20.
Definition platformSecretsMaxBody : Z := Z.shiftl 8 20.
Definition appPrivateKeyKey : string := "__EIGENX_APP_PRIVATE_KEY__".
Definition appPrivateKeyG1Bytes : nat := 48.

Record Request := mkRequest {
  KMSURL : string;
  AVSAddress : string;
  OperatorSetID : Z;
  RPCURL : string;
  req_OperatorAddress : string;
  StackID : string;
  PlatformSecretsURL : string;
  PlatformInternalAPIKey : string;
  Key : string
}.

Record initdataKMSConfig := mkKMSConfig {
  cfg_KMSURL : string;
  cfg_AVSAddress : string;
  cfg_OperatorSetID : Z;
  cfg_RPCURL : string;
  cfg_OperatorAddress : string;
  cfg_StackID : string;
  cfg_PlatformSecretsURL : string;
  cfg_PlatformInternalAPIKey : string
}.

(** [url.URL] *)
Record URL := mkURL {
  Scheme : string;
  Opaque : string;
  User : option string;
  Host : string;
  Path : string;
  RawPath : string;
  OmitHost : bool;
  ForceQuery : bool;
  RawQuery : string;
  Fragment : string;
  RawFragment : string
}.

Record stackSecret := mkStackSecret { secret_Name : string; secret_Value : bytes }.

(** JSON, TOML and [net/url]'s parser and printer. *)
Class HelperLib := {
  json_request : bytes -> res Request;
  toml_kms : string -> res initdataKMSConfig;
  json_list_secrets : bytes -> res (list stackSecret);
  url_Parse : string -> res URL;
  url_String : URL -> string
}.

(** ** [net/url]: escapes *)

Definition unreserved (c : ascii) : bool :=
  between 65 90 c || between 97 122 c || between 48 57 c || existsb (Ascii.eqb c) ["-"; "_"; "."; "~"]%char.
Definition upper_hex (d : Z) : ascii := if d <? 10 then digit_char d else ascii_of_nat (Z.to_nat (55 + d)).
Definition percent (c : ascii) : list ascii := let n := Z.of_nat (nat_of_ascii c) in ["%"%char; upper_hex (n / 16); upper_hex (n mod 16)].
Definition PathEscape (s : string) : string :=
  string_of (flat_map (fun c => if unreserved c || existsb (Ascii.eqb c) ["$"; "&"; "+"; "="; ":"; "@"]%char then [c] else percent c) (chars_of s)).
Definition QueryEscape (l : list ascii) : string :=
  string_of (flat_map (fun c => if unreserved c then [c] else if Ascii.eqb c " " then ["+"%char] else percent c) l).

Fixpoint drop_slashes (l : list ascii) : list ascii :=
  match l with c :: l' => if Ascii.eqb c separator then drop_slashes l' else l | [] => [] end.
Definition TrimRight_slash (s : string) : string := string_of (rev (drop_slashes (rev (chars_of s)))).

(** [io.LimitReader] *)
Definition limit_read (n : Z) (b : bytes) : bytes := if Z.of_nat (length b) <=? n then b else take (Z.to_nat n) b.

Section Helper.
Context `{HelperLib}.

(** ** The request *)

Definition cacheable (key : string) : bool := negb (bool_decide (key = appPrivateKeyKey)).

(** The platform's address is not a field of the JSON. *)
Definition readRequest (r : bytes) : res Request :=
  req ← wrap "decode JSON" (json_request r);
  _ ← fail_if (bool_decide (StackID req = ""%string)) "stack_id is required";
  _ ← fail_if (bool_decide (Key req = ""%string)) "key is required";
  Ok (mkRequest (KMSURL req) (AVSAddress req) (OperatorSetID req) (RPCURL req) (req_OperatorAddress req) (StackID req) "" "" (Key req)).

Definition validateHTTPURL (raw field : string) : res unit :=
  u ← wrap (field +:+ ": parse") (url_Parse raw);
  _ ← fail_if (negb (bool_decide (Scheme u = "http"%string) || bool_decide (Scheme u = "https"%string))) "%s: scheme %q not allowed (must be http or https)";
  fail_if (bool_decide (Host u = ""%string)) "%s: missing host".

Definition applyInitdataKMSConfig (Getenv : string -> string) (req : Request) (cfg : option initdataKMSConfig) : res Request :=
  cfg ← from_opt "cc_init_data missing eigenx.toml; KMS coords cannot be sourced safely" cfg;
  _ ← fail_if (bool_decide (cfg_KMSURL cfg = ""%string) && bool_decide (cfg_RPCURL cfg = ""%string)) "eigenx.toml must set kms_url or rpc_url";
  _ ← fail_if (bool_decide (cfg_AVSAddress cfg = ""%string)) "eigenx.toml must set avs_address";
  _ ← (if bool_decide (cfg_KMSURL cfg = ""%string) then Ok tt else validateHTTPURL (cfg_KMSURL cfg) "kms_url");
  _ ← (if bool_decide (cfg_RPCURL cfg = ""%string) then Ok tt else validateHTTPURL (cfg_RPCURL cfg) "rpc_url");
  _ ← fail_if (negb (bool_decide (cfg_KMSURL cfg = ""%string)) && negb (bool_decide (Getenv envAllowSingleOperatorKMS = "1"%string)))
        "cc_init_data sets kms_url but the single-operator path is not enabled; refusing trust downgrade";
  _ ← fail_if (bool_decide (cfg_StackID cfg = ""%string)) "eigenx.toml must set stack_id";
  _ ← wrap "eigenx.toml" (validateStackID (cfg_StackID cfg));
  _ ← fail_if (bool_decide (cfg_PlatformSecretsURL cfg = ""%string)) "eigenx.toml must set platform_secrets_url";
  _ ← fail_if (bool_decide (cfg_PlatformInternalAPIKey cfg = ""%string)) "eigenx.toml must set platform_internal_api_key";
  _ ← validateHTTPURL (cfg_PlatformSecretsURL cfg) "platform_secrets_url";
  Ok (mkRequest (cfg_KMSURL cfg) (cfg_AVSAddress cfg) (cfg_OperatorSetID cfg) (cfg_RPCURL cfg) (cfg_OperatorAddress cfg) (cfg_StackID cfg)
        (cfg_PlatformSecretsURL cfg) (cfg_PlatformInternalAPIKey cfg) (Key req)).

(** ** The document *)

Context `{InitDataLib}.

Definition decodeInitdata (input : bytes) : res bytes :=
  let trimmed := trim input in
  _ ← fail_if (bool_decide (trimmed = [])) "empty initdata";
  if HasPrefix trimmed (chars_of "H4sI") then
    let stripped := TrimRight_pad trimmed in
    raw ← wrap "gzip reader" (DecodeString RawStdEncoding stripped);
    gzipReader ← wrap "gzip reader" (gzip_NewReader raw);
    out ← wrap "read decompressed initdata" (gzip_ReadAll (maxDecompressedInitData + 1) gzipReader);
    _ ← fail_if (Z.of_nat (length out) >? maxDecompressedInitData) "decompressed initdata exceeds %d bytes";
    Ok out
  else Ok (text_bytes trimmed).

Definition parseInitdataKMSConfig (ccInitData : bytes) : res (option initdataKMSConfig) :=
  tomlBytes ← wrap "decode cc_init_data wire format" (decodeInitdata ccInitData);
  data ← wrap "parse cc_init_data TOML" (toml_data tomlBytes);
  match data !! "eigenx.toml"%string with
  | Some (AnyString raw) => cfg ← wrap "parse eigenx.toml" (toml_kms raw); Ok (Some cfg)
  | _ => Ok None
  end.

(** ** HTTP: a URL and a bearer to a status and a body *)

Definition http_client : Type := string -> option string -> res (Z * res bytes).

(** The address has no query of its own. *)
Definition fetchAAEvidence (get : http_client) (reportData : bytes) : res bytes :=
  '(status, body) ← wrap "GET" (get (aaEvidenceURL +:+ "?runtime_data=" +:+ QueryEscape (bytes_text reportData)) None);
  body ← wrap "read AA response" body;
  let body := limit_read aaMaxBodyBytes body in
  _ ← fail_if (negb (status =? 200)) "AA returned status %d: %s";
  _ ← fail_if (length body =? 0)%nat "AA returned empty body";
  Ok body.

Definition fetchStackSecrets (get : http_client) (baseURL apiKey stackID : string) : res (list stackSecret) :=
  u ← wrap "parse platform secrets URL" (url_Parse baseURL);
  let base := TrimRight_slash (Path u) in
  let u := mkURL (Scheme u) (Opaque u) (User u) (Host u) (base +:+ "/internal/v1/stacks/" +:+ PathEscape stackID +:+ "/secrets")
             (RawPath u) (OmitHost u) (ForceQuery u) "" "" (RawFragment u) in
  _ ← wrap "build ListSecrets request" (url_Parse (url_String u));
  '(status, body) ← wrap "GET" (get (url_String u) (Some ("Bearer " +:+ apiKey)));
  body ← wrap "read ListSecrets response" body;
  let body := limit_read platformSecretsMaxBody body in
  _ ← fail_if (negb (status =? 200)) "platform ListSecrets returned status %d: %s";
  wrap "decode ListSecrets response" (json_list_secrets body).
End Helper.

(** ** The environment *)

Section Env.
Context `{Gnark} `{SymLib} `{EthAddr} `{EcdsaLib} `{RsaLib} `{HelperLib} `{InitDataLib} `{AgentLib} `{SnpLib} `{EnvJson}.

Definition emitAppPrivateKey (result : SecretsResult) (appID : string) : res (gmap string string) :=
  _ ← fail_if (negb (res_Verified result)) "refusing to emit app_private_key for app %q: not verified against master public key (degraded recovery)";
  _ ← fail_if (negb (length (g1_compressed (res_AppPrivateKey result)) =? appPrivateKeyG1Bytes)%nat) "KMS returned app_private_key of %d bytes for app %q, want %d";
  Ok {[appPrivateKeyKey := string_of (hex_EncodeToString (g1_compressed (res_AppPrivateKey result)))]}.

Definition assembleEnvFromSecrets (stackID : string) (appPrivateKey : G1Point) (secrets : list stackSecret) : res (gmap string string) :=
  for_each (fun s env =>
      plaintext ← wrap "decrypt secret %q for stack %q" (DecryptForApp stackID appPrivateKey (secret_Value s));
      Ok (<[secret_Name s := string_of (bytes_text plaintext)]> env))
    secrets ∅.

Definition resolveEnv (req : Request) (result : SecretsResult) (fetch : string -> string -> string -> res (list stackSecret)) : res (gmap string string) :=
  if bool_decide (Key req = appPrivateKeyKey) then emitAppPrivateKey result (StackID req) else
  secrets ← wrap "fetch stack secrets" (fetch (PlatformSecretsURL req) (PlatformInternalAPIKey req) (StackID req));
  wrap "assemble stack env for stack %q" (assembleEnvFromSecrets (StackID req) (res_AppPrivateKey result) secrets).

(** A contract caller: what [GetOperatorSetMembersWithPeering] answers. *)
Definition ContractCaller : Type := string -> Z -> res (list OperatorSetPeer).

Definition newSingleOperatorContractCaller (socketAddress operatorAddress : string) : ContractCaller := fun avsAddress operatorSetID =>
  let operatorAddress := if bool_decide (TrimSpace operatorAddress = ""%string) then defaultSingleOperatorAddress else operatorAddress in
  Ok [mkPeer (HexToAddress operatorAddress) socketAddress None 0 CurveTypeUnknown].

(** What one run of the helper sees of the system. *)
Record Guest := mkGuest {
  g_stdin : bytes;
  g_stat : res Z;
  g_initdata : res bytes;
  Getenv : string -> string;
  g_cache : CacheIO;
  g_rand : bytes;
  g_http : http_client;
  g_logger : res unit;
  NewContractCaller : string -> res ContractCaller;
  g_client : ClientEnv;
  g_stdout : res unit
}.

Definition generateRSAKeypair (rand : bytes) : res (rsa_PrivateKey * bytes) :=
  priv ← wrap "rsa.GenerateKey" (rsa_GenerateKey rand rsaKeyBits);
  pubBytes ← wrap "MarshalPKIXPublicKey" (MarshalPKIXPublicKey (pub_of priv));
  Ok (priv, Encryption.pem_EncodeToMemory "PUBLIC KEY" pubBytes).

(** The client of one operator set. *)
Definition client_for (env : ClientEnv) (avsAddress : string) (operatorSetID : Z) (caller : ContractCaller) : res ClientEnv :=
  _ ← fail_if (bool_decide (avsAddress = ""%string)) "AVS address is required";
  Ok (mkClientEnv _ (ce_now env) (caller avsAddress operatorSetID) (ce_GenerateKey env) (ce_nonce env) (marshal_claims env) (json_G1Point env)
        (post_secrets env) (secrets_arrived env) (ce_get_pubkey env) (ce_order env) (pubkey_arrived env)).

Definition snp_options (req : Request) (evidence ccInitData rsaPubPEM privPEM : bytes) : SecretsOptions :=
  mkSecretsOptions _ "eigenx-snp" "" None [] evidence ccInitData privPEM rsaPubPEM [] (StackID req).

Definition retrieveAndDecrypt (g : Guest) (req : Request) (evidence ccInitData rsaPubPEM : bytes) (rsaPriv : rsa_PrivateKey) : res (gmap string string) :=
  _ ← wrap "create logger" (g_logger g);
  contractCaller ← (if bool_decide (TrimSpace (KMSURL req) = ""%string) then NewContractCaller g (RPCURL req)
                    else _ ← validateHTTPURL (KMSURL req) "kms_url"; Ok (newSingleOperatorContractCaller (KMSURL req) (req_OperatorAddress req)));
  client ← wrap "create KMS client" (client_for (g_client g) (AVSAddress req) (OperatorSetID req) contractCaller);
  let privPEM := Encryption.pem_EncodeToMemory "RSA PRIVATE KEY" (MarshalPKCS1PrivateKey rsaPriv) in
  result ← wrap "RetrieveSecretsWithOptions" (RetrieveSecretsWithOptions client (StackID req) (Some (snp_options req evidence ccInitData rsaPubPEM privPEM)));
  resolveEnv req result (fetchStackSecrets (g_http g)).

(** ** [run] *)

(** Attestation, recovery and the platform's secrets. *)
Definition fresh_env (g : Guest) (req : Request) (ccInitData : bytes) : res (gmap string string) :=
  '(rsaPriv, rsaPubPEM) ← wrap "generate RSA keypair" (generateRSAKeypair (g_rand g));
  let reportData := buildReportData rsaPubPEM [] ccInitData in
  rawAAEvidence ← wrap "fetch AA evidence" (fetchAAEvidence (g_http g) reportData);
  evidence ← wrap "transform AA evidence" (transformAAEvidence rawAAEvidence);
  wrap "retrieve and decrypt" (retrieveAndDecrypt g req evidence ccInitData rsaPubPEM rsaPriv).

(** The document and the request it completes. *)
Definition resolve_request (g : Guest) : res (Request * bytes) :=
  req ← wrap "read request" (readRequest (g_stdin g));
  size ← wrap "stat" (g_stat g);
  _ ← fail_if (size >? maxInitDataFileSize) "%s is %d bytes; refusing to read (cap %d)";
  ccInitData ← wrap "read" (g_initdata g);
  cfg ← wrap "parse cc_init_data KMS config" (parseInitdataKMSConfig ccInitData);
  req ← applyInitdataKMSConfig (Getenv g) req cfg;
  Ok (req, ccInitData).

Definition run (g : Guest) : SM files string :=
  '(req, ccInitData) ← sm_lift (resolve_request g);
  hit ← (if cacheable (Key req) then sm_wrap "read env cache" (loadCachedEnv (g_cache g) (StackID req)) else mret None);
  match hit with
  | Some env => sm_lift (emitKey (g_stdout g) env (Key req))
  | None =>
      env ← sm_lift (fresh_env g req ccInitData);
      _ ← (if cacheable (Key req) then _ ← sm_try (storeCachedEnv (g_cache g) (StackID req) env); mret tt else mret tt);
      sm_lift (emitKey (g_stdout g) env (Key req))
  end.
End Env.

(** ** Small facts *)

(** The helper decodes the document the way the server does. *)
Lemma decodeInitdata_wire `{InitDataLib} input out : decodeInitdata input = Ok out <-> decodeInitDataWire input = Ok out.
Proof.
  unfold decodeInitdata, decodeInitDataWire, HasPrefix. cbv zeta. rewrite !fail_if_bind.
  destruct (strip (chars_of "H4sI") (trim input)) as [rest|]; [|done].
  rewrite (bool_decide_true (is_Some (Some rest))) by by eexists. rewrite (bool_decide_false (Some rest = None)) by done.
  destruct (DecodeString _ _); cbn [wrap mbind res_bind]; [|by split; intros []]. destruct (gzip_NewReader _); cbn [wrap mbind res_bind]; [|by split; intros []].
  destruct (gzip_ReadAll _ _); cbn [wrap mbind res_bind]; [|by split; intros []]. by rewrite !fail_if_bind.
Qed.

Lemma valid_id_escape id : validateStackID id = Ok tt -> PathEscape id = id.
Proof.
  unfold validateStackID, PathEscape. rewrite !fail_if_bind, fail_if_ok, negb_false_iff, forallb_forall. intros (_ & _ & Hc).
  assert (Hl : forall l, (forall c, In c l -> stack_char c = true) ->
    flat_map (fun c => if unreserved c || existsb (Ascii.eqb c) ["$"; "&"; "+"; "="; ":"; "@"]%char then [c] else percent c) l = l).
  { induction l as [|c l IH]; intros Hl; [done|]. cbn [flat_map]. rewrite IH by (intros; apply Hl; by right).
    assert (Hu : unreserved c = true); [|by rewrite Hu]. pose proof (Hl c (or_introl eq_refl)) as Hs. unfold stack_char in Hs. unfold unreserved. cbn [existsb].
    repeat rewrite orb_true_iff in Hs. repeat rewrite orb_true_iff. tauto. }
  rewrite (Hl _ Hc). apply String.string_of_list_ascii_of_string.
Qed.

(** What the JSON decoder documents: names are text. *)
Class HelperLaws `{HelperLib} : Prop := {
  secret_names b secrets : json_list_secrets b = Ok secrets -> Forall (fun s => valid_text (secret_Name s)) secrets
}.

Section HelperFacts.
Context `{GnarkLaws} `{SymLaws} `{EthAddr} `{EcdsaLib} `{RsaLib} `{HelperLib} `{InitDataLib} `{AgentLib} `{SnpLib} `{EnvJsonLaws}.

(** *** The configuration *)

(** Only the key of a request survives the document. *)
Lemma apply_config_key getenv cfg req req' : Key req = Key req' -> applyInitdataKMSConfig getenv req cfg = applyInitdataKMSConfig getenv req' cfg.
Proof. intros Hk. unfold applyInitdataKMSConfig. by rewrite Hk. Qed.

Lemma apply_config_ok getenv cfg req req' : applyInitdataKMSConfig getenv req cfg = Ok req' ->
  Key req' = Key req /\ validateStackID (StackID req') = Ok tt /\ (KMSURL req' <> ""%string -> getenv envAllowSingleOperatorKMS = "1"%string) /\
  AVSAddress req' <> ""%string /\ exists c, cfg = Some c /\
    req' = mkRequest (cfg_KMSURL c) (cfg_AVSAddress c) (cfg_OperatorSetID c) (cfg_RPCURL c) (cfg_OperatorAddress c) (cfg_StackID c)
             (cfg_PlatformSecretsURL c) (cfg_PlatformInternalAPIKey c) (Key req).
Proof.
  unfold applyInitdataKMSConfig. intros (c & ->%from_opt_ok & Ha)%res_bind_ok. rewrite !fail_if_bind in Ha. destruct Ha as (_ & Havs & Ha).
  apply res_bind_ok in Ha as ([] & _ & Ha). apply res_bind_ok in Ha as ([] & _ & Ha). rewrite !fail_if_bind in Ha. destruct Ha as (Hgate & _ & Ha).
  apply res_bind_ok in Ha as ([] & Hid%wrap_ok & Ha). rewrite !fail_if_bind in Ha. destruct Ha as (_ & _ & Ha).
  apply res_bind_ok in Ha as ([] & _ & [= <-]). cbn [Key StackID KMSURL AVSAddress]. split_and!; [done|done| |by apply bool_decide_eq_false in Havs|by exists c].
  intros Hurl. apply andb_false_iff in Hgate as [Hg%negb_false_iff%bool_decide_eq_true|Hg%negb_false_iff%bool_decide_eq_true]; done.
Qed.

Lemma request_resolved g req cc : resolve_request g = Ok (req, cc) -> exists req0 cfg, readRequest (g_stdin g) = Ok req0 /\ g_initdata g = Ok cc /\
  parseInitdataKMSConfig cc = Ok cfg /\ applyInitdataKMSConfig (Getenv g) req0 cfg = Ok req.
Proof.
  unfold resolve_request. intros (req0 & Hr%wrap_ok & Hg)%res_bind_ok. apply res_bind_ok in Hg as (size & _ & Hg). rewrite fail_if_bind in Hg. destruct Hg as [_ Hg].
  apply res_bind_ok in Hg as (cc' & Hcc%wrap_ok & Hg). apply res_bind_ok in Hg as (cfg & Hcfg%wrap_ok & Hg). apply res_bind_ok in Hg as (req' & Ha & [= <- <-]).
  by exists req0, cfg.
Qed.

Lemma resolve_valid g req cc : resolve_request g = Ok (req, cc) -> validateStackID (StackID req) = Ok tt.
Proof. intros (? & ? & _ & _ & _ & Ha)%request_resolved. by apply apply_config_ok in Ha as (_ & Hid & _). Qed.

Definition with_stdin (b : bytes) (g : Guest) : Guest :=
  mkGuest b (g_stat g) (g_initdata g) (Getenv g) (g_cache g) (g_rand g) (g_http g) (g_logger g) (NewContractCaller g) (g_client g) (g_stdout g).

(** C38: The caller chooses which variable is read and nothing else: two requests that are read and
    name one key have the same run, whatever operators, platform or stack they name, with the
    same output or error and the same files left; the stack, the coordinates of the operators
    on the chain, those of a single operator and those of the platform are the document's,
    each in its field.  A single operator is named only where the environment allows it. *)
Theorem init_data_decides g b b' req req' fs : readRequest b = Ok req -> readRequest b' = Ok req' -> Key req = Key req' ->
  run (with_stdin b g) fs = run (with_stdin b' g) fs /\
  (forall done cc, resolve_request (with_stdin b g) = Ok (done, cc) -> exists cfg, parseInitdataKMSConfig cc = Ok (Some cfg) /\ g_initdata g = Ok cc /\
     Key done = Key req /\ StackID done = cfg_StackID cfg /\
     RPCURL done = cfg_RPCURL cfg /\ AVSAddress done = cfg_AVSAddress cfg /\ OperatorSetID done = cfg_OperatorSetID cfg /\
     KMSURL done = cfg_KMSURL cfg /\ req_OperatorAddress done = cfg_OperatorAddress cfg /\
     PlatformSecretsURL done = cfg_PlatformSecretsURL cfg /\ PlatformInternalAPIKey done = cfg_PlatformInternalAPIKey cfg /\
     (KMSURL done <> ""%string -> Getenv g envAllowSingleOperatorKMS = "1"%string)).
Proof.
  intros Hb Hb' Hk. split.
  - assert (Hr : resolve_request (with_stdin b g) = resolve_request (with_stdin b' g)).
    { unfold resolve_request. cbn [g_stdin g_stat g_initdata Getenv with_stdin]. rewrite Hb, Hb'. cbn [wrap mbind res_bind].
      destruct (g_stat g); cbn [wrap mbind res_bind]; [|done]. destruct (fail_if _ _); cbn [mbind res_bind]; [|done].
      destruct (g_initdata g); cbn [wrap mbind res_bind]; [|done]. destruct (parseInitdataKMSConfig _) as [cfg|]; cbn [wrap mbind res_bind]; [|done].
      by rewrite (apply_config_key _ cfg req req'). }
    unfold run. rewrite Hr. reflexivity.
  - intros req1 cc (req0 & cfg & Hq & Hi & Hc & Ha)%request_resolved. cbn [g_stdin g_initdata Getenv with_stdin] in *. rewrite Hb in Hq. injection Hq as <-.
    apply apply_config_ok in Ha as (_ & _ & Hgate & _ & c & -> & ->). exists c. by split_and!.
Qed.

(** *** The root key *)

Lemma recover_key_verified env appID ops sigs t k : 0 <= t -> recover_key env appID ops sigs t = Ok (k, true) ->
  exists mpk, GetMasterPublicKey (ce_get_pubkey env) (ce_order env) (pubkey_arrived env) ops = Ok mpk /\ VerifyAppPrivateKey appID k mpk = Ok true.
Proof.
  intros Ht. unfold recover_key. destruct (GetMasterPublicKey _ _ _ _) as [mpk|e]; intros (k' & Hk%wrap_ok & Hr)%res_bind_ok; [|done].
  injection Hr as ->. exists mpk. split; [done|]. apply retry_validated in Hk; [|done]. unfold validates in Hk. by destruct (VerifyAppPrivateKey appID k mpk) as [[]|].
Qed.

Lemma retrieve_verified env appID opts r : RetrieveSecretsWithOptions env appID (Some opts) = Ok r -> res_Verified r = true ->
  exists ops mpk, ce_operators env = Ok ops /\ GetMasterPublicKey (ce_get_pubkey env) (ce_order env) (pubkey_arrived env) ops = Ok mpk /\
    VerifyAppPrivateKey appID (res_AppPrivateKey r) mpk = Ok true.
Proof.
  unfold RetrieveSecretsWithOptions. cbn [from_opt mbind res_bind]. intros ([] & _ & Hr)%res_bind_ok Hv.
  apply res_bind_ok in Hr as (ops & Hops%wrap_ok & Hr). unfold GetOperators in Hops. apply res_bind_ok in Hops as (ops' & Hops%wrap_ok & Hne).
  rewrite fail_if_bind in Hne. destruct Hne as [_ [= ->]]. apply res_bind_ok in Hr as (req & _ & Hr). apply res_bind_ok in Hr as ([responses sigs] & _ & Hr).
  rewrite fail_if_bind in Hr. destruct Hr as [_ Hr]. apply res_bind_ok in Hr as (first & _ & Hr). apply res_bind_ok in Hr as ([] & _ & Hr).
  apply res_bind_ok in Hr as ([k verified] & Hk & [= <-]). cbn [res_Verified res_AppPrivateKey] in *. subst verified.
  apply recover_key_verified in Hk as (mpk & Hm & Hver); [|unfold CalculateThreshold; apply Z.quot_pos; lia]. by exists ops, mpk.
Qed.

(** The operators a request leads to. *)
Definition operators_of (g : Guest) (req : Request) (ops : list OperatorSetPeer) : Prop :=
  exists caller, caller (AVSAddress req) (OperatorSetID req) = Ok ops /\
    (NewContractCaller g (RPCURL req) = Ok caller \/
     caller = newSingleOperatorContractCaller (KMSURL req) (req_OperatorAddress req) /\ Getenv g envAllowSingleOperatorKMS = "1"%string).

Lemma root_env g req cc env : resolve_request g = Ok (req, cc) -> Key req = appPrivateKeyKey -> fresh_env g req cc = Ok env ->
  exists k ops mpk, env = {[appPrivateKeyKey := string_of (hex_EncodeToString (g1_compressed k))]} /\ length (g1_compressed k) = appPrivateKeyG1Bytes /\
    operators_of g req ops /\ GetMasterPublicKey (ce_get_pubkey (g_client g)) (ce_order (g_client g)) (pubkey_arrived (g_client g)) ops = Ok mpk /\
    VerifyAppPrivateKey (StackID req) k mpk = Ok true.
Proof.
  intros Hres Hkey. unfold fresh_env. intros ([priv pub] & _ & He)%res_bind_ok. cbv zeta in He. apply res_bind_ok in He as (raw & _ & He).
  apply res_bind_ok in He as (ev & _ & He%wrap_ok). unfold retrieveAndDecrypt in He. apply res_bind_ok in He as ([] & _ & He).
  apply res_bind_ok in He as (caller & Hcaller & He). apply res_bind_ok in He as (client & Hclient%wrap_ok & He). cbv zeta in He.
  apply res_bind_ok in He as (result & Hret%wrap_ok & He). unfold resolveEnv in He. rewrite bool_decide_true in He by done.
  unfold emitAppPrivateKey in He. rewrite !fail_if_bind, !negb_false_iff, Nat.eqb_eq in He. destruct He as (Hv & Hlen & [= <-]).
  destruct (retrieve_verified _ _ _ _ Hret Hv) as (ops & mpk & Hops & Hmpk & Hver). unfold client_for in Hclient. rewrite fail_if_bind in Hclient.
  destruct Hclient as [_ [= <-]]. cbn [ce_operators ce_get_pubkey ce_order pubkey_arrived] in *.
  exists (res_AppPrivateKey result), ops, mpk. split_and!; try done. exists caller. split; [done|]. case_bool_decide as Hurl; [by left|right].
  apply res_bind_ok in Hcaller as ([] & _ & [= <-]). split; [done|]. apply request_resolved in Hres as (req0 & cfg & _ & _ & _ & Ha).
  apply apply_config_ok in Ha as (_ & _ & Hgate & _). apply Hgate. intros Hnil. by rewrite Hnil in Hurl.
Qed.

(** C14: The root key of a stack is emitted only when it was checked, and is never stored: a run for
    it leaves the files as they were and does as much whatever files there are, so it attests
    each time; what it writes is the hexadecimal form of a 48-byte key that verifies, for the
    document's stack, under the master key obtained from the operators of the contract (or of
    the single operator, where the environment allows it). *)
Theorem root_key_checked g req cc fs fs' out : run g fs = (fs', Ok out) -> resolve_request g = Ok (req, cc) -> Key req = appPrivateKeyKey ->
  fs' = fs /\ (forall fs2, run g fs2 = (fs2, Ok out)) /\
  exists k ops mpk, out = string_of (hex_EncodeToString (g1_compressed k)) /\ length (g1_compressed k) = appPrivateKeyG1Bytes /\
    operators_of g req ops /\ GetMasterPublicKey (ce_get_pubkey (g_client g)) (ce_order (g_client g)) (pubkey_arrived (g_client g)) ops = Ok mpk /\
    VerifyAppPrivateKey (StackID req) k mpk = Ok true.
Proof.
  intros Hrun Hres Hkey. assert (Hc : cacheable (Key req) = false) by (unfold cacheable; by rewrite bool_decide_true).
  assert (Hshape : forall fs, run g fs = (fs, env ← fresh_env g req cc; emitKey (g_stdout g) env (Key req))).
  { intros fs0. unfold run. sm_steps. rewrite Hres, Hc. by destruct (fresh_env g req cc). }
  rewrite Hshape in Hrun. injection Hrun as <- Hout. split; [done|]. split; [intros; by rewrite Hshape, Hout|].
  apply res_bind_ok in Hout as (env & Hfresh & Hemit). destruct (root_env _ _ _ _ Hres Hkey Hfresh) as (k & ops & mpk & -> & Hlen & Hops & Hmpk & Hver).
  unfold emitKey in Hemit. rewrite Hkey, lookup_singleton_eq in Hemit. cbn [from_opt mbind res_bind] in Hemit. apply res_bind_ok in Hemit as ([] & _ & [= <-]).
  by exists k, ops, mpk.
Qed.

(** *** One attestation for a stack *)

Lemma same_stack g g' req req' cc : resolve_request g = Ok (req, cc) -> resolve_request g' = Ok (req', cc) -> StackID req' = StackID req.
Proof.
  intros (? & cfg & _ & _ & Hc & Ha)%request_resolved (? & cfg' & _ & _ & Hc' & Ha')%request_resolved. rewrite Hc in Hc'. injection Hc' as <-.
  apply apply_config_ok in Ha as (_ & _ & _ & _ & c & -> & ->). apply apply_config_ok in Ha' as (_ & _ & _ & _ & c' & [= <-] & ->). done.
Qed.

Lemma fresh_names `{!HelperLaws} g req cc env : fresh_env g req cc = Ok env -> Key req <> appPrivateKeyKey -> map_Forall (fun name _ => valid_text name) env.
Proof.
  unfold fresh_env. intros ([priv pub] & _ & He)%res_bind_ok Hkey. cbv zeta in He. apply res_bind_ok in He as (raw & _ & He).
  apply res_bind_ok in He as (ev & _ & He%wrap_ok). unfold retrieveAndDecrypt in He. apply res_bind_ok in He as ([] & _ & He).
  apply res_bind_ok in He as (caller & _ & He). apply res_bind_ok in He as (client & _ & He). cbv zeta in He.
  apply res_bind_ok in He as (result & _ & He). unfold resolveEnv in He. rewrite bool_decide_false in He by done.
  apply res_bind_ok in He as (secrets & Hs%wrap_ok & He%wrap_ok). unfold fetchStackSecrets in Hs. apply res_bind_ok in Hs as (u & _ & Hs). cbv zeta in Hs.
  apply res_bind_ok in Hs as (u' & _ & Hs). apply res_bind_ok in Hs as ([status body] & _ & Hs). apply res_bind_ok in Hs as (body' & _ & Hs).
  rewrite fail_if_bind in Hs. destruct Hs as [_ Hs%wrap_ok%secret_names]. rewrite Forall_forall in Hs. unfold assembleEnvFromSecrets in He.
  revert He. apply for_each_inv; [|apply map_Forall_empty]. intros s env0 env1 Hin Henv0 (pt & _ & [= <-])%res_bind_ok.
  apply map_Forall_insert_2; [by apply Hs|done].
Qed.

Lemma run_cached g req cc fs env : resolve_request g = Ok (req, cc) -> Key req <> appPrivateKeyKey -> io_open (g_cache g) = Ok tt ->
  io_flock_shared (g_cache g) = Ok tt -> cached fs (StackID req) = Some env -> run g fs = (fs, emitKey (g_stdout g) env (Key req)).
Proof.
  intros Hres Hkey Ho Hf Hc. assert (Hcache : cacheable (Key req) = true) by (unfold cacheable; by rewrite bool_decide_false).
  unfold run. unfold mbind at 1, sm_bind at 1, sm_lift at 1. rewrite Hres, Hcache. unfold mbind at 1, sm_bind at 1, sm_wrap at 1. rewrite load_cached, Hc by done.
  cbn [wrap]. done.
Qed.

(** One attestation serves a stack: after a run for a variable that was answered, with system
    calls that succeed, the environment is cached; every later run over the same document, for
    any variable, is answered from it without a key, a report, an operator or the platform
    ([g'] is any system), and writes what the environment holds for its key, or fails where it
    holds nothing.  The first variable's value is there as it was written, or with what is not
    UTF-8 replaced. *)
Theorem one_attestation `{!HelperLaws} g req cc fs fs' out : run g fs = (fs', Ok out) -> resolve_request g = Ok (req, cc) -> Key req <> appPrivateKeyKey ->
  reliable (g_cache g) ->
  exists env, cached fs' (StackID req) = Some env /\ (env !! Key req = Some out \/ env !! Key req = Some (coerce out)) /\
    forall g' req', resolve_request g' = Ok (req', cc) -> Key req' <> appPrivateKeyKey -> io_open (g_cache g') = Ok tt -> io_flock_shared (g_cache g') = Ok tt ->
      run g' fs' = (fs', emitKey (g_stdout g') env (Key req')).
Proof.
  intros Hrun Hres Hkey Hio.
  assert (Hfill : exists env, cached fs' (StackID req) = Some env /\ (env !! Key req = Some out \/ env !! Key req = Some (coerce out))).
  { destruct (cached fs (StackID req)) as [env|] eqn:Hc.
    - rewrite (run_cached _ _ _ _ _ Hres Hkey (rel_open _ Hio) (rel_shared _ Hio) Hc) in Hrun. injection Hrun as <- He. exists env. split; [done|left].
      unfold emitKey in He. apply res_bind_ok in He as (v & Hv%from_opt_ok & He). by apply res_bind_ok in He as ([] & _ & [= <-]).
    - assert (Hcache : cacheable (Key req) = true) by (unfold cacheable; by rewrite bool_decide_false).
      unfold run in Hrun. unfold mbind at 1, sm_bind at 1, sm_lift at 1 in Hrun. rewrite Hres, Hcache in Hrun. unfold mbind at 1, sm_bind at 1, sm_wrap at 1 in Hrun.
      rewrite load_cached, Hc in Hrun by apply Hio. cbn [wrap] in Hrun. apply sm_bind_ok in Hrun as (fs1 & env & [= <- Hfresh] & Hrun).
      destruct (store_succeeds (g_cache g) (StackID req) env fs Hio) as [fs2 Hstore].
      apply sm_bind_ok in Hrun as (fs3 & [] & Hs & Hrun). apply sm_bind_ok in Hs as (fs4 & r & Ht & [= ->]). unfold sm_try in Ht. rewrite Hstore in Ht. injection Ht as -> _.
      injection Hrun as <- He. exists (coerce <$> env). split; [by eapply store_cached; [exact Hstore|eapply fresh_names]|right].
      unfold emitKey in He. apply res_bind_ok in He as (v & Hv%from_opt_ok & He). apply res_bind_ok in He as ([] & _ & [= <-]). by rewrite lookup_fmap, Hv. }
  destruct Hfill as (env & Hc & Hv). exists env. split_and!; [done|done|]. intros g' req' Hres' Hkey' Ho Hf.
  apply (run_cached g' req' cc); try done. by rewrite (same_stack _ _ _ _ _ Hres Hres').
Qed.

(** *** What was sealed is what the environment holds *)

(** A key that verifies decodes to the key. *)
Lemma verified_key id Q k mpk s : hash_to_g1 (string_bytes id) = Some Q -> opens mpk s -> VerifyAppPrivateKey id k mpk = Ok true ->
  g1_set_bytes (g1_compressed k) = Some (act1 Q s).
Proof.
  intros Hid Hs Hv. assert (HQ : g1_in_subgroup Q = true) by by eapply g1_ok_hash. destruct (g1_set_bytes (g1_compressed k)) as [key|] eqn:Hk.
  - rewrite (verify_app_key_spec id Q key k mpk s Hid Hk Hs) in Hv. injection Hv as Hb%bool_decide_eq_true. apply (f_equal g1_set_bytes) in Hb.
    rewrite (g1_set_bytes_bytes key (g1_set_bytes_ok _ _ Hk)) in Hb. pose proof (g1_set_bytes_bytes (act1 Q s) (g1_ok_act Q s HQ)) as Ha. congruence.
  - exfalso. unfold VerifyAppPrivateKey, HashToG1, bls_HashToG1, G1PointFromCompressedBytes in Hv. rewrite Hid, Hk in Hv. discriminate Hv.
Qed.

(** Decryption looks at the point and not at its encoding. *)
Lemma decrypt_decoded id k k' ct : g1_set_bytes (g1_compressed k) = g1_set_bytes (g1_compressed k') -> DecryptForApp id k ct = DecryptForApp id k' ct.
Proof. intros Heq. unfold DecryptForApp, G1PointFromCompressedBytes. by rewrite Heq. Qed.

(** A secret of the platform holds the value, sealed for the stack. *)
Definition sealed (id : string) (mpk : G2Point) (secret : stackSecret) (p : string * bytes) : Prop :=
  secret_Name secret = p.1 /\ exists r nonce, length nonce = nonceSize /\ EncryptForApp (Ok r) (Ok nonce) id mpk p.2 = Ok (secret_Value secret).

Definition put_value (env : gmap string string) (p : string * bytes) : gmap string string := <[p.1 := string_of (bytes_text p.2)]> env.

Lemma put_values_lookup plain env name v : NoDup plain.*1 -> (name, v) ∈ plain -> foldl put_value env plain !! name = Some (string_of (bytes_text v)).
Proof.
  revert env. induction plain as [|[n x] plain IH]; intros env Hnd Hin; [by apply not_elem_of_nil in Hin|]. cbn [fmap list_fmap fst] in Hnd. apply NoDup_cons in Hnd as [Hn Hnd].
  cbn [foldl]. apply elem_of_cons in Hin as [[= -> ->]|Hin]; [|by apply IH]. clear IH.
  assert (Hkeep : forall l env, n ∉ l.*1 -> foldl put_value env l !! n = env !! n); [|rewrite Hkeep by done; apply lookup_insert_eq].
  induction l as [|[m y] l IHl]; intros env' Hni; [done|]. cbn [fmap list_fmap fst] in Hni. rewrite not_elem_of_cons in Hni. destruct Hni as [Hne Hni].
  cbn [foldl]. rewrite IHl by done. unfold put_value. by rewrite lookup_insert_ne by (by apply not_eq_sym).
Qed.

Lemma assemble_sealed id Q k mpk s secrets plain env : hash_to_g1 (string_bytes id) = Some Q -> Q <> g1_infinity -> opens mpk s ->
  g1_set_bytes (g1_compressed k) = Some (act1 Q s) -> Forall2 (sealed id mpk) secrets plain ->
  for_each (fun sec env => plaintext ← wrap "decrypt secret %q for stack %q" (DecryptForApp id k (secret_Value sec));
      Ok (<[secret_Name sec := string_of (bytes_text plaintext)]> env)) secrets env = Ok (foldl put_value env plain).
Proof.
  intros Hid HQ Hs Hk Hf. assert (Hsub : g1_in_subgroup Q = true) by by eapply g1_ok_hash. revert env.
  induction Hf as [|sec p secrets plain (Hn & r & nonce & Hl & He) Hf IH]; intros env; cbn [for_each foldl]; [done|].
  rewrite (decrypt_decoded id k (psig Q s)) by (rewrite Hk; symmetry; apply g1_set_bytes_bytes; by apply g1_ok_act).
  rewrite (encrypt_decrypt _ _ _ _ _ _ _ _ Hid HQ Hs Hl He). cbn [wrap mbind res_bind]. rewrite Hn. apply IH.
Qed.

(** C13: What was sealed for the stack is what its workload gets: when the recovered key verified
    under the master key and the platform returns values that were encrypted for the stack
    under that master key, every one is opened and emitted under its name. *)
Theorem sealed_env_opened req result fetch Q mpk s secrets plain name v : hash_to_g1 (string_bytes (StackID req)) = Some Q -> Q <> g1_infinity -> opens mpk s ->
  VerifyAppPrivateKey (StackID req) (res_AppPrivateKey result) mpk = Ok true -> Key req <> appPrivateKeyKey ->
  fetch (PlatformSecretsURL req) (PlatformInternalAPIKey req) (StackID req) = Ok secrets -> Forall2 (sealed (StackID req) mpk) secrets plain ->
  NoDup plain.*1 -> (name, v) ∈ plain ->
  exists env, resolveEnv req result fetch = Ok env /\ emitKey (Ok tt) env name = Ok (string_of (bytes_text v)).
Proof.
  intros Hid HQ Hs Hv Hkey Hfetch Hf Hnd Hin. pose proof (verified_key _ _ _ _ _ Hid Hs Hv) as Hk. exists (foldl put_value ∅ plain).
  unfold resolveEnv. rewrite bool_decide_false, Hfetch by done. cbn [wrap mbind res_bind]. unfold assembleEnvFromSecrets.
  rewrite (assemble_sealed _ _ _ _ _ _ _ ∅ Hid HQ Hs Hk Hf). split; [done|]. unfold emitKey. by rewrite (put_values_lookup _ _ _ _ Hnd Hin).
Qed.

(** The helper and the server read one document: whatever bytes the guest was launched with,
    the helper takes its configuration from the very table in which the server looks for the
    policy, and the one can read the wire format exactly when the other can. *)
Theorem one_document cc cfg registry digest : parseInitdataKMSConfig cc = Ok (Some cfg) -> parseInitDataPolicy cc = Ok (registry, digest) ->
  exists toml data raw rego, decodeInitdata cc = Ok toml /\ decodeInitDataWire cc = Ok toml /\ toml_data toml = Ok data /\
    data !! "eigenx.toml"%string = Some (AnyString raw) /\ toml_kms raw = Ok cfg /\ data !! initDataPolicyKey = Some (AnyString rego).
Proof.
  intros (toml & Ht%wrap_ok & Hc)%res_bind_ok (toml' & Ht'%wrap_ok & Hp)%res_bind_ok. pose proof (proj1 (decodeInitdata_wire _ _) Ht) as Hw. rewrite Hw in Ht'. injection Ht' as <-.
  apply res_bind_ok in Hc as (data & Hd%wrap_ok & Hc). apply res_bind_ok in Hp as (data' & Hd'%wrap_ok & Hp). rewrite Hd in Hd'. injection Hd' as <-.
  apply res_bind_ok in Hp as (raw' & Hr%from_opt_ok & Hp). apply res_bind_ok in Hp as (rego & Hrego & _).
  destruct (data !! "eigenx.toml"%string) as [[|raw| |]|] eqn:He; try done. apply res_bind_ok in Hc as (c & Hc%wrap_ok & [= ->]).
  exists toml, data, raw, rego. split_and!; try done. destruct raw'; try done. by injection Hrego as <-.
Qed.
End HelperFacts.

(** ** Witnesses: a stack of three operators, its document, one sealed secret *)

#[local] Existing Instances toy97 toy97_laws toy_sym toy_sym_laws toy_ecdsa toy_rsa client_addr guest_agent guest_snp toy_env_json toy_env_laws.
#[local] Instance stack_init_data : InitDataLib := {
  gzip_Reader := bytes;
  gzip_NewReader := toy_gunzip;
  gzip_ReadAll limit b := Ok (take (Z.to_nat limit) b);
  toml_data b := Ok (<["eigenx.toml"%string := AnyString "stack"]> {[initDataPolicyKey := AnyString (string_of (bytes_text b))]})
}.

(** Three requests of one caller: a variable, another one and the root key. *)
Definition stack_request (b : bytes) : res Request :=
  match b with
  | [n] => Ok (mkRequest "http://evil" "" 0 "" "" "other" "" "" (if n =? 1 then "A" else if n =? 2 then "B" else appPrivateKeyKey))
  | [_; n] => Ok (mkRequest "" "0xbad" 9 "" "" "mine" "" "" (if n =? 1 then "A" else if n =? 2 then "B" else appPrivateKeyKey))
  | _ => Err "EOF"
  end.
Definition stack_config : initdataKMSConfig := mkKMSConfig "" "0xa" 7 "http://rpc" "" "app-1" "http://platform" "k".
#[local] Instance stack_lib : HelperLib := {
  json_request := stack_request;
  toml_kms s := if bool_decide (s = "stack"%string) then Ok stack_config else Err "toml";
  json_list_secrets b := match b with [9] => Ok [mkStackSecret "A" toy_ciphertext] | _ => Err "EOF" end;
  url_Parse s := Ok (mkURL "http" "" None "host" "/" "" false false "" "" "");
  url_String u := Scheme u +:+ "://" +:+ Host u +:+ Path u
}.
#[local] Instance stack_laws : HelperLaws.
Proof.
  constructor. intros b secrets. cbn [json_list_secrets stack_lib]. repeat case_match; try done. intros [= <-].
  constructor; [|constructor]. apply ascii_valid. by_compute.
Qed.

(** The agent answers without a bearer, the platform with one, at its address. *)
Definition stack_http : http_client := fun url bearer =>
  match bearer with
  | None => Ok (200, Ok [123; 125])
  | Some t => if bool_decide (url = "http://host/internal/v1/stacks/app-1/secrets"%string) && bool_decide (t = "Bearer k"%string) then Ok (200, Ok [9]) else Err "404"
  end.
Definition stack_guest (stdin : bytes) : Guest :=
  mkGuest stdin (Ok 500) (Ok demo_init) (fun _ => "") quiet [] stack_http (Ok tt) (fun _ => Ok (fun _ _ => Ok client_peers)) client_env (Ok tt).
(** Nothing answers. *)
Definition dead_guest (stdin : bytes) : Guest :=
  mkGuest stdin (Ok 500) (Ok demo_init) (fun _ => "") quiet [] (fun _ _ => Err "down") (Err "down") (fun _ => Err "down") client_env (Ok tt).
Definition stack_resolved (key : string) : Request := mkRequest "" "0xa" 7 "http://rpc" "" "app-1" "http://platform" "k" key.
Definition stack_env : gmap string string := {["A"%string := "Hi"%string]}.

Lemma stack_fresh : fresh_env (stack_guest [1]) (stack_resolved "A") demo_init = Ok stack_env.
Proof. vm_compute. reflexivity. Qed.
Lemma stack_first_run : (run (stack_guest [1]) ∅).2 = Ok "Hi"%string.
Proof. vm_compute. reflexivity. Qed.

Lemma init_data_decides_witness : run (with_stdin [1] (stack_guest [])) ∅ = run (with_stdin [1; 1] (stack_guest [])) ∅ /\
  (run (with_stdin [1] (stack_guest [])) ∅).2 = Ok "Hi"%string.
Proof.
  split; [|vm_compute; reflexivity].
  exact (proj1 (init_data_decides (stack_guest []) [1] [1; 1] (mkRequest "http://evil" "" 0 "" "" "other" "" "" "A") (mkRequest "" "0xbad" 9 "" "" "mine" "" "" "A") ∅
    eq_refl eq_refl eq_refl)).
Defined.

Lemma root_key_checked_witness : exists out, run (stack_guest [3]) ∅ = (∅, Ok out) /\ exists k mpk,
  out = string_of (hex_EncodeToString (g1_compressed k)) /\ VerifyAppPrivateKey "app-1" k mpk = Ok true.
Proof.
  destruct (run (stack_guest [3]) ∅) as [fs' [out|e]] eqn:Hrun; [|vm_compute in Hrun; discriminate].
  destruct (root_key_checked (stack_guest [3]) (stack_resolved appPrivateKeyKey) demo_init ∅ fs' out Hrun) as (-> & _ & k & ops & mpk & Hout & _ & _ & _ & Hv);
    [vm_compute; reflexivity|reflexivity|].
  exists out. split; [reflexivity|]. exists k, mpk. split; [exact Hout|exact Hv].
Defined.

Lemma quiet_reliable : reliable quiet.
Proof. by constructor. Qed.

(** The first run attests; the second has no system behind it. *)
Lemma one_attestation_witness : exists fs' env, run (stack_guest [1]) ∅ = (fs', Ok "Hi"%string) /\
  run (dead_guest [1]) fs' = (fs', emitKey (Ok tt) env "A") /\ run (dead_guest [2]) fs' = (fs', emitKey (Ok tt) env "B").
Proof.
  destruct (run (stack_guest [1]) ∅) as [fs' r] eqn:Hrun. assert (Hr : r = Ok "Hi"%string) by (rewrite <- stack_first_run, Hrun; reflexivity). rewrite Hr in *.
  destruct (one_attestation (stack_guest [1]) (stack_resolved "A") demo_init ∅ fs' "Hi" Hrun) as (env & _ & _ & Hlater);
    [vm_compute; reflexivity|discriminate|exact quiet_reliable|].
  exists fs', env. split; [reflexivity|]. split.
  - apply (Hlater (dead_guest [1]) (stack_resolved "A")); [vm_compute; reflexivity|discriminate|reflexivity|reflexivity].
  - apply (Hlater (dead_guest [2]) (stack_resolved "B")); [vm_compute; reflexivity|discriminate|reflexivity|reflexivity].
Defined.

Definition stack_result : SecretsResult := mkSecretsResult (psig toy_id (toy_fr 5)) "" "" ∅ 2 2 [] true.

Lemma sealed_env_opened_witness : exists env,
  resolveEnv (stack_resolved "A") stack_result (fun _ _ _ => Ok [mkStackSecret "A" toy_ciphertext]) = Ok env /\ emitKey (Ok tt) env "A" = Ok "Hi"%string.
Proof.
  apply (sealed_env_opened (stack_resolved "A") stack_result (fun _ _ _ => Ok [mkStackSecret "A" toy_ciphertext]) toy_id (com (toy_fr 5)) (toy_fr 5)
    [mkStackSecret "A" toy_ciphertext] [("A"%string, [72; 105])] "A" [72; 105]).
  - reflexivity.
  - by_compute.
  - vm_compute. reflexivity.
  - vm_compute. reflexivity.
  - discriminate.
  - reflexivity.
  - constructor; [|constructor]. split; [reflexivity|]. exists (toy_fr 11), toy_nonce. split; vm_compute; reflexivity.
  - by_compute.
  - left.
Defined.

Lemma one_document_witness : exists toml, decodeInitdata demo_init = Ok toml /\ decodeInitDataWire demo_init = Ok toml.
Proof.
  destruct (one_document demo_init stack_config "ghcr.io/app" (string_of hex_a)) as (toml & _ & _ & _ & Hd & Hw & _); [vm_compute; reflexivity..|].
  exists toml. split; [exact Hd|exact Hw].
Defined.
