(* ===== verification/Transport.v ===== *)
(** * Sending: [pkg/transport/client.go] and the transport signers

    [pkg/transportSigner/inMemoryTransportSigner] and [web3TransportSigner] make authenticated
    messages; the client wraps payloads in them and posts them.  A network answers a post from
    the history of what was sent; the client threads the history in [SM].  The theorems: what
    a signer makes, the peer that holds its key accepts; what [SendDKGShare] posted, the
    recipient's endpoint stores, as the sender's share; the retries are bounded; every other
    operator is sent its own acknowledgement with a proof that verifies. *)

From S2P Require Import Prelude Bytes Types Fr Gnark Toy Crypto CryptoFacts Merkle KeyStore Persistence Session NodeCore NodeOps Messages NodeRun GoText Attestation Handlers.
From Stdlib Require Import Ascii.

(** ** Signers *)

(** [transportSigner.SignedMessage] is [AuthenticatedMessage], field for field. *)
Record ITransportSigner := mkTransportSigner {
  CreateAuthenticatedMessage : bytes -> res AuthenticatedMessage;
  SignMessage : bytes -> res bytes
}.

(** crypto-libs' private keys, the Web3Signer client and [hexutil.Decode]. *)
Class SignerLib := {
  bn254_PrivateKey : Type;
  bn254_NewPrivateKeyFromBytes : bytes -> res bn254_PrivateKey;
  bn254_SignSolidityCompatible : bn254_PrivateKey -> bytes -> res bytes;
  ecdsa_PrivateKey : Type;
  ecdsa_NewPrivateKeyFromBytes : bytes -> res ecdsa_PrivateKey;
  ecdsa_Sign : ecdsa_PrivateKey -> bytes -> res bytes;
  hexutil_Decode : string -> res bytes
}.

Section Signers.
Context `{Gnark} `{SignerLib}.

(** The [interface{}] that holds the key. *)
Inductive any_key := Bn254Key (k : bn254_PrivateKey) | EcdsaKey (k : ecdsa_PrivateKey).

Record InMemoryTransportSigner := mkInMemory { privateKey : any_key; its_curveType : CurveType }.

Definition NewInMemoryTransportSigner (key : any_key) (curveType : CurveType) : InMemoryTransportSigner := mkInMemory key curveType.
Definition NewBn254InMemoryTransportSigner (key : bytes) : res InMemoryTransportSigner :=
  k ← wrap "error loading private key" (bn254_NewPrivateKeyFromBytes key);
  Ok (NewInMemoryTransportSigner (Bn254Key k) CurveTypeBN254).
Definition NewECDSAInMemoryTransportSigner (key : bytes) : res InMemoryTransportSigner :=
  k ← wrap "error loading private key" (ecdsa_NewPrivateKeyFromBytes key);
  Ok (NewInMemoryTransportSigner (EcdsaKey k) CurveTypeECDSA).

(** A key of the other type panics; another curve signs nothing. *)
Definition its_SignMessage (its : InMemoryTransportSigner) (data : bytes) : res bytes :=
  let hashedData := Keccak256 data in
  match its_curveType its with
  | CurveTypeBN254 => match privateKey its with
                      | Bn254Key pk => bn254_SignSolidityCompatible pk hashedData
                      | EcdsaKey _ => Err "panic: interface conversion"
                      end
  | CurveTypeECDSA => match privateKey its with
                      | EcdsaKey pk => ecdsa_Sign pk hashedData
                      | Bn254Key _ => Err "panic: interface conversion"
                      end
  | CurveTypeUnknown => Ok []
  end.

Definition its_CreateAuthenticatedMessage (its : InMemoryTransportSigner) (data : bytes) : res AuthenticatedMessage :=
  let hash := Keccak256 data in
  sigBytes ← wrap "failed to sign authenticated message" (its_SignMessage its data);
  Ok (mkAuthenticatedMessage data hash sigBytes).

Definition in_memory (its : InMemoryTransportSigner) : ITransportSigner := mkTransportSigner (its_CreateAuthenticatedMessage its) (its_SignMessage its).

(** [web3TransportSigner]: the client is its answers, [SignRaw] of a key and [EthAccounts]. *)
Record web3signer_Client := mkWeb3Client { SignRaw : string -> bytes -> res string; EthAccounts : res (list string) }.
Record Web3Signer := mkWeb3Signer { w3s_client : web3signer_Client; fromAddress : Address; w3s_publicKey : string; w3s_curveType : CurveType }.

Definition NewWeb3TransportSigner (client : option web3signer_Client) (from : Address) (publicKey : string) (curveType : CurveType) (logger : bool) : res Web3Signer :=
  _ ← fail_if (negb (bool_decide (curveType = CurveTypeECDSA))) "web3signer only supports ECDSA curve type, got %s";
  client ← from_opt "web3signer client cannot be nil" client;
  _ ← fail_if (negb logger) "logger cannot be nil";
  _ ← fail_if (bool_decide (publicKey = ""%string)) "publicKey cannot be empty";
  Ok (mkWeb3Signer client from (TrimPrefix publicKey "0x") curveType).

Definition w3s_SignMessage (w3s : Web3Signer) (data : bytes) : res bytes :=
  _ ← fail_if (negb (bool_decide (w3s_curveType w3s = CurveTypeECDSA))) "web3signer only supports ECDSA curve type";
  sigHex ← wrap "failed to sign message with web3signer" (SignRaw (w3s_client w3s) (w3s_publicKey w3s) data);
  wrap "failed to decode signature from web3signer" (hexutil_Decode sigHex).
Definition SignMessageForSolidity (w3s : Web3Signer) (data : bytes) : res bytes :=
  _ ← fail_if (negb (bool_decide (w3s_curveType w3s = CurveTypeECDSA))) "web3signer only supports ECDSA curve type";
  w3s_SignMessage w3s data.

(** The service hashes what it signs. *)
Definition w3s_CreateAuthenticatedMessage (w3s : Web3Signer) (data : bytes) : res AuthenticatedMessage :=
  let hash := Keccak256 data in
  sig ← wrap "failed to sign authenticated message" (SignMessageForSolidity w3s data);
  Ok (mkAuthenticatedMessage data hash sig).

Definition web3 (w3s : Web3Signer) : ITransportSigner := mkTransportSigner (w3s_CreateAuthenticatedMessage w3s) (w3s_SignMessage w3s).

Definition w3s_Validate `{EthAddr} (w3s : Web3Signer) : res unit :=
  accounts ← wrap "failed to validate web3signer connection" (EthAccounts (w3s_client w3s));
  let fromAddressLower := ToLower (chars_of (Hex (fromAddress w3s))) in
  fail_if (negb (existsb (fun account => bool_decide (ToLower (chars_of account) = fromAddressLower)) accounts))
    "signing address %s not found in web3signer accounts: %v".
End Signers.

(** ** The network *)

Inductive net_event := Got (url : string) | Posted (url : string) (data : bytes) | Slept (d : Z).

(** The answer to a request: an error, or a status and a body, from all that went before. *)
Definition Network : Type := list net_event -> net_event -> res (Z * bytes).

Notation Net := (SM (list net_event)).

Definition http_do (net : Network) (e : net_event) : Net (res (Z * bytes)) := fun log => ((log ++ [e])%list, Ok (net log e)).
Definition http_Get (net : Network) (url : string) : Net (res (Z * bytes)) := http_do net (Got url).
Definition http_Post (net : Network) (url : string) (data : bytes) : Net (res (Z * bytes)) := http_do net (Posted url data).
Definition Sleep (d : Z) : Net unit := sm_modify (fun log => (log ++ [Slept d])%list).

(** ** The client *)

Definition Millisecond : Z := 1000000.
(** [BackoffMultiple] is the float 2.0; the durations it multiplies are far below 2^53. *)
Record RetryConfig := mkRetryConfig { MaxAttempts : nat; InitialBackoff : Z; MaxBackoff : Z; BackoffMultiple : Z }.
Definition DefaultRetryConfig : RetryConfig := mkRetryConfig 5 (100 * Millisecond) (5000 * Millisecond) 2.

Record Client := mkClient { operatorAddr : Address; signer : ITransportSigner; retryConfig : RetryConfig }.
Definition NewClient (operatorAddr : Address) (signer : ITransportSigner) : Client := mkClient operatorAddr signer DefaultRetryConfig.

Definition buildRequestURL (socketAddress path : string) : string := socketAddress +:+ path.

(** [encoding/json] on what the client sends and receives. *)
Class TransportLib := {
  marshal_share : ShareMessage -> res bytes;
  marshal_share_request : ShareRequestMessage -> res bytes;
  marshal_commitment : CommitmentMessage -> res bytes;
  marshal_ack : AcknowledgementMessage -> res bytes;
  marshal_broadcast : CommitmentBroadcastMessage -> res bytes;
  marshal_auth : AuthenticatedMessage -> res bytes;
  json_commitments : bytes -> res (list G2Point)
}.

Section Transport.
Context `{Gnark} `{FrText Fr} `{WireLib} `{TransportLib} `{MerkleLib}.

(** Marshal the payload, sign it, marshal the signed message. *)
Definition authenticate (c : Client) (payload : res bytes) (msg : string) : res bytes :=
  msgBytes ← wrap msg payload;
  authMsg ← wrap "failed to create authenticated message" (CreateAuthenticatedMessage (signer c) msgBytes);
  wrap "failed to marshal authenticated message" (marshal_auth authMsg).

Definition QueryOperatorPubkey (net : Network) (operator : OperatorSetPeer) : Net (list G2Point) :=
  resp ← http_Get net (buildRequestURL (SocketAddress operator) "/pubkey");
  '(status, body) ← sm_lift (wrap "failed to contact operator" resp);
  _ ← sm_lift (fail_if (negb (status =? 200)) "operator returned status %d");
  sm_lift (wrap "failed to decode response" (json_commitments body)).

(** The retry loop; [tries] attempts remain.  Any answer ends it. *)
Fixpoint post_attempts (net : Network) (cfg : RetryConfig) (url : string) (data : bytes) (msg : string) (tries : nat) (backoff : Z) : Net unit :=
  match tries with
  | O => sm_fail msg
  | S tries =>
      resp ← http_Post net url data;
      match resp with
      | Ok _ => mret tt
      | Err _ =>
          match tries with
          | O => sm_fail msg
          | S _ =>
              _ ← Sleep backoff;
              let backoff := backoff * BackoffMultiple cfg in
              let backoff := if backoff >? MaxBackoff cfg then MaxBackoff cfg else backoff in
              post_attempts net cfg url data msg tries backoff
          end
      end
  end.

Definition send_share (net : Network) (c : Client) (path : string) (toOperator : OperatorSetPeer) (share : Fr) (sessionTimestamp : Z) (failed : string) : Net unit :=
  let msg := mkShareMessage (operatorAddr c) (OperatorAddress toOperator) sessionTimestamp (Some (SerializeFr share)) in
  data ← sm_lift (authenticate c (marshal_share msg) "failed to marshal payload");
  post_attempts net (retryConfig c) (buildRequestURL (SocketAddress toOperator) path) data failed (MaxAttempts (retryConfig c)) (InitialBackoff (retryConfig c)).

Definition SendDKGShare (net : Network) (c : Client) (toOperator : OperatorSetPeer) (share : Fr) (sessionTimestamp : Z) : Net unit :=
  send_share net c "/dkg/share" toOperator share sessionTimestamp "failed to send DKG share after %d attempts".
Definition SendReshareShare (net : Network) (c : Client) (toOperator : OperatorSetPeer) (share : Fr) (sessionTimestamp : Z) : Net unit :=
  send_share net c "/reshare/share" toOperator share sessionTimestamp "failed to send reshare share after %d attempts".

Definition RequestReshareShare (net : Network) (c : Client) (dealer : OperatorSetPeer) (sessionTimestamp : Z) : Net AuthenticatedMessage :=
  let req := mkShareRequestMessage (operatorAddr c) (OperatorAddress dealer) sessionTimestamp in
  data ← sm_lift (authenticate c (marshal_share_request req) "failed to marshal share request");
  resp ← http_Post net (buildRequestURL (SocketAddress dealer) "/reshare/share/request") data;
  '(status, body) ← sm_lift (wrap "share request to %s failed" resp);
  _ ← sm_lift (fail_if (negb (status =? 200)) "dealer %s returned status %d for share request");
  sm_lift (wrap "failed to decode authenticated share response" (json_auth body)).

(** The answers to the posts are dropped; a payload that is not made ends the loop. *)
Fixpoint broadcast_commitments (net : Network) (c : Client) (path : string) (commitments : list G2Point) (sessionTimestamp sourceVersion : Z)
    (operators : list OperatorSetPeer) : Net unit :=
  match operators with
  | [] => mret tt
  | op :: operators =>
      if OperatorAddress op =? operatorAddr c then broadcast_commitments net c path commitments sessionTimestamp sourceVersion operators else
      let msg := mkCommitmentMessage (operatorAddr c) (OperatorAddress op) sessionTimestamp commitments sourceVersion in
      data ← sm_lift (authenticate c (marshal_commitment msg) "failed to marshal payload");
      _ ← http_Post net (buildRequestURL (SocketAddress op) path) data;
      broadcast_commitments net c path commitments sessionTimestamp sourceVersion operators
  end.

Definition BroadcastDKGCommitments (net : Network) (c : Client) (operators : list OperatorSetPeer) (commitments : list G2Point) (sessionTimestamp : Z) : Net unit :=
  broadcast_commitments net c "/dkg/commitment" commitments sessionTimestamp 0 operators.
Definition BroadcastReshareCommitments (net : Network) (c : Client) (operators : list OperatorSetPeer) (commitments : list G2Point) (sessionTimestamp sourceVersion : Z) : Net unit :=
  broadcast_commitments net c "/reshare/commitment" commitments sessionTimestamp sourceVersion operators.

(** The status of the answer is not read. *)
Definition send_ack (net : Network) (c : Client) (path : string) (ack : option Acknowledgement) (toOperator : OperatorSetPeer) (sessionTimestamp : Z) : Net unit :=
  let msg := mkAcknowledgementMessage (operatorAddr c) (OperatorAddress toOperator) sessionTimestamp ack in
  data ← sm_lift (authenticate c (marshal_ack msg) "failed to marshal payload");
  resp ← http_Post net (buildRequestURL (SocketAddress toOperator) path) data;
  _ ← sm_lift resp;
  mret tt.
Definition SendDKGAcknowledgement (net : Network) (c : Client) (ack : option Acknowledgement) (toOperator : OperatorSetPeer) (sessionTimestamp : Z) : Net unit :=
  send_ack net c "/dkg/ack" ack toOperator sessionTimestamp.
Definition SendReshareAcknowledgement (net : Network) (c : Client) (ack : option Acknowledgement) (toOperator : OperatorSetPeer) (sessionTimestamp : Z) : Net unit :=
  send_ack net c "/reshare/ack" ack toOperator sessionTimestamp.

Definition sendCommitmentBroadcast (net : Network) (c : Client) (toOperator : OperatorSetPeer) (broadcast : CommitmentBroadcast) (sessionTimestamp : Z) : Net unit :=
  let msg := mkCommitmentBroadcastMessage (operatorAddr c) (OperatorAddress toOperator) sessionTimestamp (Some broadcast) in
  data ← sm_lift (authenticate c (marshal_broadcast msg) "failed to marshal broadcast message");
  resp ← http_Post net (buildRequestURL (SocketAddress toOperator) "/dkg/broadcast") data;
  '(status, _) ← sm_lift (wrap "failed to send broadcast" resp);
  sm_lift (fail_if (negb (status =? 200)) "broadcast failed with status %d").

(** The first acknowledgement of the player, with its index. *)
Fixpoint ack_at (player : Address) (idx : Z) (acks : list Acknowledgement) : option (Acknowledgement * Z) :=
  match acks with
  | [] => None
  | ack :: acks => if PlayerAddress ack =? player then Some (ack, idx) else ack_at player (idx + 1) acks
  end.

(** A failed send is noted and the loop goes on; [errs] says whether one was. *)
Fixpoint broadcast_each (net : Network) (c : Client) (epoch : Z) (commitments : list G2Point) (acks sortedAcks : list Acknowledgement) (tree : MerkleTree)
    (errs : bool) (operators : list OperatorSetPeer) : Net unit :=
  match operators with
  | [] => sm_lift (fail_if errs "failed to send commitment broadcast to %s: %w")
  | op :: operators =>
      if OperatorAddress op =? operatorAddr c then broadcast_each net c epoch commitments acks sortedAcks tree errs operators else
      '(_, leafIndex) ← sm_lift (from_opt "no ack found for operator %s" (ack_at (OperatorAddress op) 0 sortedAcks));
      proof ← sm_lift (wrap "failed to generate proof for operator %d" (GenerateProof tree leafIndex));
      let broadcast := mkCommitmentBroadcast (operatorAddr c) epoch commitments acks (Proof_ proof) in
      sent ← sm_try (sendCommitmentBroadcast net c op broadcast epoch);
      broadcast_each net c epoch commitments acks sortedAcks tree (errs || negb (is_ok sent)) operators
  end.

Definition BroadcastCommitmentsWithProofs (net : Network) (c : Client) (operators : list OperatorSetPeer) (epoch : Z) (commitments : list G2Point)
    (acks : list Acknowledgement) (merkleTree : option MerkleTree) : Net unit :=
  merkleTree ← sm_lift (from_opt "merkle tree is nil" merkleTree);
  broadcast_each net c epoch commitments acks (SortAcknowledgements acks) merkleTree false operators.
End Transport.

(** ** Laws *)

(** The text of a scalar is read back. *)
Class FrTextLaws {F} `{FrText F} : Prop := { fr_text_round x : fr_SetString (fr_String x) = Some x }.

(** What is marshalled is decoded by its reader. *)
Class TransportLaws `{WireLib} `{TransportLib} : Prop := {
  auth_round m b : marshal_auth m = Ok b -> json_auth b = Ok m;
  share_round m b : marshal_share m = Ok b -> json_share b = Ok m;
  share_request_round m b : marshal_share_request m = Ok b -> json_share_request b = Ok m;
  commitment_round m b : marshal_commitment m = Ok b -> json_commitment b = Ok m;
  ack_round m b : marshal_ack m = Ok b -> json_ack b = Ok m;
  broadcast_round m b : marshal_broadcast m = Ok b -> json_broadcast b = Ok m
}.

(** A signature of a key verifies under its public key or address. *)
Class SignerLaws `{SignerLib} `{SigLib} := {
  bn254_pub : bn254_PrivateKey -> bytes;
  ecdsa_addr : ecdsa_PrivateKey -> Address;
  bn254_signs k h s : bn254_SignSolidityCompatible k h = Ok s ->
    exists sig, bn254_NewSignatureFromBytes s = Ok sig /\ bn254_VerifySolidityCompatible sig (bn254_pub k) h = Ok true;
  ecdsa_signs k h s : ecdsa_Sign k h = Ok s ->
    exists sig, ecdsa_NewSignatureFromBytes s = Ok sig /\ ecdsa_VerifyWithAddress sig h (ecdsa_addr k) = Ok true
}.

(** ** Signers and peers *)

Section SignerFacts.
Context `{Gnark} `{SignerLaws}.

(** Whatever the signer makes, the receivers that know [peer] accept as the peer's. *)
Definition speaks_for (s : ITransportSigner) (peer : OperatorSetPeer) : Prop :=
  forall data m, CreateAuthenticatedMessage s data = Ok m -> Payload m = data /\ verifyMessage m peer = Ok tt.

(** The peer's registered key is the signer's. *)
Definition holds (its : InMemoryTransportSigner) (peer : OperatorSetPeer) : Prop :=
  peer_CurveType peer = its_curveType its /\
  match privateKey its with
  | Bn254Key k => its_curveType its = CurveTypeBN254 /\ PublicKey peer = Some (bn254_pub k)
  | EcdsaKey k => its_curveType its = CurveTypeECDSA /\ ECDSAAddress peer = ecdsa_addr k
  end.

(** The service signs the hash of what it is given, with the key of the address. *)
Definition serves (w3s : Web3Signer) : Prop := forall data sigHex s,
  SignRaw (w3s_client w3s) (w3s_publicKey w3s) data = Ok sigHex -> hexutil_Decode sigHex = Ok s ->
  exists sig, ecdsa_NewSignatureFromBytes s = Ok sig /\ ecdsa_VerifyWithAddress sig (Keccak256 data) (fromAddress w3s) = Ok true.

Lemma verify_accepts m peer : Hash m = Keccak256 (Payload m) -> signed peer (Signature m) (Hash m) -> verifyMessage m peer = Ok tt.
Proof.
  intros Hh Hs. unfold verifyMessage. cbv zeta. rewrite bool_decide_true by done. cbn [negb fail_if mbind res_bind]. unfold signed in Hs. rewrite Hh in *.
  destruct (peer_CurveType peer).
  - destruct Hs as (s & Hn & Hv). rewrite Hn. cbn [wrap mbind res_bind]. by rewrite Hv.
  - destruct Hs as (s & k & Hn & Hk & Hv). rewrite Hn. cbn [wrap mbind res_bind]. rewrite Hk. cbn [from_opt mbind res_bind]. by rewrite Hv.
  - done.
Qed.

(** Every signer speaks for the peer that is registered with its key: a message made by the
    in-memory signer of either curve, or by the Web3Signer service for an address, carries the
    payload it was given and passes the receivers' verification against that peer. *)
Theorem signers_accepted :
  (forall its peer, holds its peer -> speaks_for (in_memory its) peer) /\
  (forall w3s peer, serves w3s -> peer_CurveType peer = CurveTypeECDSA -> ECDSAAddress peer = fromAddress w3s -> speaks_for (web3 w3s) peer).
Proof.
  split.
  - intros its peer [Hcurve Hkey] data m. cbn [CreateAuthenticatedMessage in_memory]. unfold its_CreateAuthenticatedMessage.
    intros (s & Hs%wrap_ok & [= <-])%res_bind_ok. split; [done|]. apply verify_accepts; [done|]. cbn [Signature Hash]. unfold signed. rewrite Hcurve.
    unfold its_SignMessage in Hs. cbv zeta in Hs. destruct (privateKey its) as [k|k]; destruct Hkey as [Hc Hpub]; rewrite Hc in *.
    + apply bn254_signs in Hs as (sig & Hn & Hv). by exists sig, (bn254_pub k).
    + apply ecdsa_signs in Hs as (sig & Hn & Hv). exists sig. by rewrite Hpub.
  - intros w3s peer Hserve Hcurve Haddr data m. cbn [CreateAuthenticatedMessage web3]. unfold w3s_CreateAuthenticatedMessage.
    intros (s & Hs%wrap_ok & [= <-])%res_bind_ok. split; [done|]. apply verify_accepts; [done|]. cbn [Signature Hash]. unfold signed. rewrite Hcurve, Haddr.
    unfold SignMessageForSolidity, w3s_SignMessage in Hs. rewrite !fail_if_bind in Hs. destruct Hs as (_ & _ & Hs).
    apply res_bind_ok in Hs as (sigHex & Hraw%wrap_ok & Hdec%wrap_ok). exact (Hserve data sigHex s Hraw Hdec).
Qed.
End SignerFacts.

(** ** From the sender to the receiver *)

Section Delivery.
Context `{Gnark} `{SigLib} `{FrText Fr} `{!FrTextLaws} `{WireLib} `{!WireLaws} `{TransportLib} `{!TransportLaws} `{MerkleLib} {P : Type}.
Implicit Types (n : Node Fr P) (env : HandlerEnv Fr P).

Lemma authenticate_ok c payload msg data : authenticate c payload msg = Ok data -> exists p m,
  payload = Ok p /\ CreateAuthenticatedMessage (signer c) p = Ok m /\ json_auth data = Ok m.
Proof.
  unfold authenticate. intros (p & Hp%wrap_ok & Ha)%res_bind_ok. apply res_bind_ok in Ha as (m & Hm%wrap_ok & Hd%wrap_ok).
  exists p, m. split_and!; [done|done|by apply auth_round].
Qed.

(** The receiver knows the sender as [me]. *)
Lemma authenticated_accepts env r n m b s me : Method r = "POST"%string -> json_auth (Body r) = Ok m -> json_base (Payload m) = Ok b ->
  base_To b = OperatorAddress_ n -> getSession n (base_SessionTimestamp b) = Some s -> findPeerByAddress (base_From b) (Operators s) = Some me ->
  verifyMessage m me = Ok tt -> authenticated env r n = (n, Reply (m, me)).
Proof.
  intros Hm Ha Hb Hto Hs Hf Hv. unfold authenticated, hm_reject. rewrite (bool_decide_true (Method r = "POST"%string)) by done. cbn [negb].
  unfold hm_or, hm_get, mbind, hm_bind, mret, hm_ret.
  assert (Hval : validateAuthenticatedMessage env r (OperatorAddress_ n) n = Ok (m, me)); [|by rewrite Hval].
  unfold validateAuthenticatedMessage. rewrite Ha. cbn [wrap mbind res_bind]. rewrite Hb. cbn [wrap mbind res_bind]. rewrite Hto, Z.eqb_refl. cbn [negb fail_if mbind res_bind].
  rewrite Hs. cbn [mbind res_bind]. rewrite Hf. cbn [from_opt mbind res_bind]. by rewrite Hv.
Qed.

(** The receiver [n] is in the session and knows the client as [me]. *)
Record receives (c : Client) (to : Address) (ts : Z) n (s : ProtocolSession Fr) (me : OperatorSetPeer) : Prop := {
  rc_self : OperatorAddress_ n = to;
  rc_session : getSession n ts = Some s;
  rc_known : findPeerByAddress (operatorAddr c) (Operators s) = Some me;
  rc_speaks : speaks_for (signer c) me
}.

Lemma known_address c to ts n s me : receives c to ts n s me -> OperatorAddress me = operatorAddr c.
Proof. intros [_ _ Hk _]. by apply find_some in Hk as [_ ->%Z.eqb_eq]. Qed.

(** A payload the client authenticated passes the receiver's checks. *)
Lemma authenticated_from c env n s me p data payload msg base to : authenticate c payload msg = Ok data -> payload = Ok p -> json_base p = Ok base ->
  base_From base = operatorAddr c -> base_To base = to -> receives c to (base_SessionTimestamp base) n s me ->
  exists m, Payload m = p /\ authenticated env (mkRequest "POST" data) n = (n, Reply (m, me)).
Proof.
  intros Ha Hp Hb Hfrom Hto [Hself Hs Hk Hsp]. apply authenticate_ok in Ha as (p' & m & Hp' & Hm & Hj). rewrite Hp in Hp'. injection Hp' as <-.
  destruct (Hsp p m Hm) as [Hpay Hv]. exists m. split; [done|].
  apply (authenticated_accepts env _ n m base s me); cbn [Method Body]; try done; [by rewrite Hpay|congruence|by rewrite Hfrom].
Qed.

(** One retry loop: posts until one is answered, waiting in between. *)
Definition delays : list Z := [100 * Millisecond; 200 * Millisecond; 400 * Millisecond; 800 * Millisecond].
Definition attempts (url : string) (data : bytes) (k : nat) : list net_event :=
  Posted url data :: flat_map (fun d => [Slept d; Posted url data]) (take k delays).

Definition next_backoff (cfg : RetryConfig) (backoff : Z) : Z :=
  let backoff := backoff * BackoffMultiple cfg in if backoff >? MaxBackoff cfg then MaxBackoff cfg else backoff.

Lemma post_again net cfg url data msg tries backoff log : post_attempts net cfg url data msg (S (S tries)) backoff log =
  match net log (Posted url data) with
  | Ok _ => ((log ++ [Posted url data])%list, Ok tt)
  | Err _ => post_attempts net cfg url data msg (S tries) (next_backoff cfg backoff) (log ++ [Posted url data; Slept backoff])
  end.
Proof.
  cbn [post_attempts]. unfold http_Post, http_do, Sleep. sm_steps. destruct (net log (Posted url data)); [done|]. by rewrite <- app_assoc.
Qed.
Lemma post_last net cfg url data msg backoff log : post_attempts net cfg url data msg 1 backoff log =
  ((log ++ [Posted url data])%list, match net log (Posted url data) with Ok _ => Ok tt | Err _ => Err msg end).
Proof. cbn [post_attempts]. unfold http_Post, http_do. sm_steps. by destruct (net log (Posted url data)). Qed.

Lemma post_attempts_spec net url data msg log log' r :
  post_attempts net DefaultRetryConfig url data msg 5 (100 * Millisecond) log = (log', r) ->
  exists k before, (k <= 4)%nat /\ log' = (log ++ attempts url data k)%list /\ (is_ok r = false -> k = 4%nat) /\
    log' = (before ++ [Posted url data])%list /\ is_ok r = is_ok (net before (Posted url data)).
Proof.
  rewrite !post_again, post_last.
  change (next_backoff DefaultRetryConfig (100 * Millisecond)) with (200 * Millisecond).
  change (next_backoff DefaultRetryConfig (200 * Millisecond)) with (400 * Millisecond).
  change (next_backoff DefaultRetryConfig (400 * Millisecond)) with (800 * Millisecond).
  assert (Hend : forall k l (out : list net_event * res unit), (k <= 4)%nat -> (l ++ [Posted url data])%list = (log ++ attempts url data k)%list ->
    (is_ok out.2 = false -> k = 4%nat) -> out.1 = (l ++ [Posted url data])%list -> is_ok out.2 = is_ok (net l (Posted url data)) -> out = (log', r) ->
    exists k before, (k <= 4)%nat /\ log' = (log ++ attempts url data k)%list /\ (is_ok r = false -> k = 4%nat) /\
      log' = (before ++ [Posted url data])%list /\ is_ok r = is_ok (net before (Posted url data))).
  { intros k l out Hk Hl Hr Hfst Hsnd ->. cbn [fst snd] in *. exists k, l. split_and!; [done|congruence|done..]. }
  destruct (net log (Posted url data)) eqn:E0; [apply (Hend 0%nat log); [lia|done|done|done|by rewrite E0]|].
  set (l1 := (log ++ _)%list) in *. destruct (net l1 (Posted url data)) eqn:E1; [apply (Hend 1%nat l1); [lia|unfold l1; by rewrite <- !app_assoc|done|done|by rewrite E1]|].
  set (l2 := (l1 ++ _)%list) in *. destruct (net l2 (Posted url data)) eqn:E2; [apply (Hend 2%nat l2); [lia|unfold l2, l1; by rewrite <- !app_assoc|done|done|by rewrite E2]|].
  set (l3 := (l2 ++ _)%list) in *. destruct (net l3 (Posted url data)) eqn:E3; [apply (Hend 3%nat l3); [lia|unfold l3, l2, l1; by rewrite <- !app_assoc|done|done|by rewrite E3]|].
  set (l4 := (l3 ++ _)%list) in *. apply (Hend 4%nat l4); [lia|unfold l4, l3, l2, l1; by rewrite <- !app_assoc|done|done|]. cbn [snd].
  by destruct (net l4 (Posted url data)).
Qed.

(** What the endpoint does with the share message in [data]. *)
Lemma share_endpoint c env n s me ts to share data msg : let m := mkShareMessage (operatorAddr c) to ts (Some (SerializeFr share)) in
  authenticate c (marshal_share m) msg = Ok data -> receives c to ts n s me -> shares s !! operatorAddr c = None ->
  exists s', HandleReceivedShare (operatorAddr c) share s = Ok s' /\
    handleDKGShare env (mkRequest "POST" data) n = (set_sessions (<[ts := s']> (activeSessions n)) n, Reply tt) /\
    handleReshareShare env (mkRequest "POST" data) n = (set_sessions (<[ts := s']> (activeSessions n)) n, Reply tt) /\ shares s' !! operatorAddr c = Some share.
Proof.
  intros m Ha Hrc Hnew. pose proof (authenticate_ok _ _ _ _ Ha) as (p & am & Hp & _ & _).
  pose proof (share_round _ _ Hp) as Hj. pose proof (json_share_base _ _ Hj) as Hb. cbn [sm_From sm_To sm_SessionTimestamp m] in Hb.
  destruct (authenticated_from c env n s me p data _ msg _ to Ha Hp Hb eq_refl eq_refl Hrc) as (am' & Hpay & Hauth).
  pose proof (known_address _ _ _ _ _ _ Hrc) as Hme. pose proof (rc_session _ _ _ _ _ _ Hrc) as Hs.
  unfold HandleReceivedShare. rewrite Hnew. cbv zeta. eexists. split; [done|]. unfold handleDKGShare, handleReshareShare.
  unfold mbind, hm_bind. rewrite Hauth, Hpay. unfold hm_or, waitForSession, hm_get, hm_modify, store_in_session, hm_or_err, need_session, mbind, hm_bind, mret, hm_ret.
  rewrite Hj. cbn [sm_SessionTimestamp sm_Share m]. rewrite Hs. unfold SerializeFr, DeserializeFr, fmap, option_fmap, option_map. rewrite fr_text_round. cbn [default from_option id from_opt].
  rewrite Hme. unfold HandleReceivedShare. rewrite Hnew. split_and!; [done|done|]. destruct s. cbn. apply lookup_insert_eq.
Qed.

(** C15: A dealt share reaches the recipient's session as the sender's: sending makes at most
    five posts of one body to the recipient's socket address, to the path of DKG shares or
    to the one of reshare shares, waiting 100, 200, 400 and 800 ms in between, and succeeds exactly when the last of them was answered, with whatever status;
    and the recipient that has the session, knows the sender by a key the signer speaks for
    and has no share of it yet answers that body with success and stores the very share, at
    the DKG and at the reshare endpoint. *)
Theorem share_delivered net addr sg peer share ts log log' r path :
  (path = "/dkg/share"%string /\ SendDKGShare net (NewClient addr sg) peer share ts log = (log', r)) \/
  (path = "/reshare/share"%string /\ SendReshareShare net (NewClient addr sg) peer share ts log = (log', r)) ->
  let url := (SocketAddress peer +:+ path)%string in
  (log' = log /\ is_ok r = false) \/
  exists data k before, (k <= 4)%nat /\ log' = (log ++ attempts url data k)%list /\ (is_ok r = false -> k = 4%nat) /\
    log' = (before ++ [Posted url data])%list /\ is_ok r = is_ok (net before (Posted url data)) /\
    forall n s me env, receives (NewClient addr sg) (OperatorAddress peer) ts n s me -> shares s !! addr = None ->
      exists s', getSession (handleDKGShare env (mkRequest "POST" data) n).1 ts = Some s' /\ shares s' !! addr = Some share /\
        (handleDKGShare env (mkRequest "POST" data) n).2 = Reply tt /\
        handleReshareShare env (mkRequest "POST" data) n = handleDKGShare env (mkRequest "POST" data) n.
Proof.
  intros Hsend. set (c := NewClient addr sg) in *. set (m := mkShareMessage (operatorAddr c) (OperatorAddress peer) ts (Some (SerializeFr share))) in *.
  intros url. assert (Hshape : exists failed, send_share net c path peer share ts failed log = (log', r)) by (destruct Hsend as [[-> Hsend]|[-> Hsend]]; eexists; exact Hsend).
  clear Hsend. destruct Hshape as (failed & Hsend). unfold send_share in Hsend. cbv zeta in Hsend. revert Hsend. fold m. unfold mbind at 1, sm_bind at 1, sm_lift at 1.
  destruct (authenticate c (marshal_share m) "failed to marshal payload") as [data|e] eqn:Ha; [|intros [= <- <-]; by left].
  intros (k & before & Hk & Hl & Hfail & Hb & Hok)%post_attempts_spec. right. exists data, k, before. split_and!; try done.
  intros n s me env Hrc Hnew. destruct (share_endpoint c env n s me ts (OperatorAddress peer) share data _ Ha Hrc Hnew) as (s' & _ & Hd & Hr & Hs').
  exists s'. rewrite Hd, Hr. split_and!; [|exact Hs'|done|done]. unfold getSession, set_sessions. cbn. apply lookup_insert_eq.
Qed.

(** ** Broadcasts with proofs *)

Lemma ack_at_spec player idx acks ack i : ack_at player idx acks = Some (ack, i) ->
  PlayerAddress ack = player /\ 0 <= i - idx /\ acks !! Z.to_nat (i - idx) = Some ack.
Proof.
  revert idx. induction acks as [|a acks IH]; intros idx; cbn [ack_at]; [done|]. destruct (Z.eqb_spec (PlayerAddress a) player) as [Hp|Hp].
  - intros [= <- <-]. split_and!; [done|lia|]. replace (idx - idx) with 0 by lia. done.
  - intros (Hpl & Hi & Hl)%IH. split_and!; [done|lia|]. replace (Z.to_nat (i - idx)) with (S (Z.to_nat (i - (idx + 1)))) by lia. done.
Qed.

Lemma proof_at `{!MerkleLibLaws} acks t i ack proof : BuildMerkleTree acks = Ok t -> NoDup (HashAcknowledgementForMerkle <$> acks) ->
  SortAcknowledgements acks !! Z.to_nat i = Some ack -> GenerateProof t i = Ok proof ->
  Leaf proof = HashAcknowledgementForMerkle ack /\ VerifyProof (Some proof) (Root t) = true.
Proof.
  unfold BuildMerkleTree. destruct (length acks =? 0)%nat; [done|]. cbv zeta. intros (tree & Ht%from_opt_ok & [= <-])%res_bind_ok Hnd Hi.
  unfold GenerateProof. cbn [Leaves internalTree Root]. destruct ((i <? 0) || _) eqn:Hb; [done|]. apply orb_false_iff in Hb as [Hneg%Z.ltb_ge _].
  assert (Hleaf : (HashAcknowledgementForMerkle <$> SortAcknowledgements acks) !! Z.to_nat i = Some (HashAcknowledgementForMerkle ack))
    by (by rewrite list_lookup_fmap, Hi).
  rewrite Hleaf. cbn [default from_option id]. intros (hs & Hhs%from_opt_ok & [= <-])%res_bind_ok. split; [done|].
  destruct (tree_roundtrip _ _ (Z.to_nat i) (HashAcknowledgementForMerkle ack) Ht) as (hs' & Hhs' & Hv); [|exact Hleaf|].
  - assert (Hp : HashAcknowledgementForMerkle <$> SortAcknowledgements acks ≡ₚ HashAcknowledgementForMerkle <$> acks) by (unfold SortAcknowledgements; by rewrite go_sort_perm).
    by rewrite Hp.
  - rewrite Hhs in Hhs'. injection Hhs' as <-. unfold VerifyProof. cbn [Leaf Proof_ LeafIndex]. rewrite Z2Nat.id in Hv by done. by rewrite Hv.
Qed.

(** One send: what it posts, and what its success means. *)
Lemma send_broadcast_posts net c op bc ts log : exists log', (sendCommitmentBroadcast net c op bc ts log).1 = (log ++ log')%list /\
  (is_ok (sendCommitmentBroadcast net c op bc ts log).2 = true -> exists data p m, Posted (buildRequestURL (SocketAddress op) "/dkg/broadcast") data ∈ log' /\
     json_auth data = Ok m /\ CreateAuthenticatedMessage (signer c) p = Ok m /\
     json_broadcast p = Ok (mkCommitmentBroadcastMessage (operatorAddr c) (OperatorAddress op) ts (Some bc))).
Proof.
  unfold sendCommitmentBroadcast, http_Post, http_do. cbv zeta. sm_steps. destruct (authenticate _ _ _) as [data|e] eqn:Ha; [|exists []; by rewrite app_nil_r].
  exists [Posted (buildRequestURL (SocketAddress op) "/dkg/broadcast") data]. apply authenticate_ok in Ha as (p & m & Hp%broadcast_round & Hm & Hj).
  split; [by destruct (wrap _ _) as [[? ?]|]|]. intros _. exists data, p, m. split_and!; try done. by left.
Qed.

Lemma each_extends net c epoch cs acks sorted t errs ops log : exists log', (broadcast_each net c epoch cs acks sorted t errs ops log).1 = (log ++ log')%list.
Proof.
  revert errs log. induction ops as [|op ops IH]; intros errs log; cbn [broadcast_each]; [exists []; by rewrite app_nil_r|].
  destruct (OperatorAddress op =? operatorAddr c); [apply IH|]. unfold mbind, sm_bind, sm_lift, sm_try.
  destruct (from_opt _ _) as [[ack i]|]; [|exists []; by rewrite app_nil_r]. destruct (wrap _ _) as [proof|]; [|exists []; by rewrite app_nil_r].
  destruct (send_broadcast_posts net c op (mkCommitmentBroadcast (operatorAddr c) epoch cs acks (Proof_ proof)) epoch log) as (l1 & Hl & _).
  destruct (sendCommitmentBroadcast _ _ _ _ _ _) as [log1 r]. cbn [fst] in Hl. subst log1. destruct (IH (errs || negb (is_ok r)) (log ++ l1)%list) as [l2 Hl2].
  exists (l1 ++ l2)%list. by rewrite Hl2, app_assoc.
Qed.

Lemma each_no_errs net c epoch cs acks sorted t errs ops log log' : broadcast_each net c epoch cs acks sorted t errs ops log = (log', Ok tt) -> errs = false.
Proof.
  revert errs log. induction ops as [|op ops IH]; intros errs log; cbn [broadcast_each]; [by destruct errs|].
  destruct (OperatorAddress op =? operatorAddr c); [apply IH|]. unfold mbind, sm_bind, sm_lift, sm_try.
  destruct (from_opt _ _) as [[ack i]|]; [|done]. destruct (wrap _ _) as [proof|]; [|done].
  destruct (sendCommitmentBroadcast _ _ _ _ _ _) as [log1 r]. intros Herr%IH. by apply orb_false_iff in Herr as [-> _].
Qed.

(** A broadcast of the acknowledgements that succeeds has reached every other operator with its
    own proof: for the tree of the acknowledgements with distinct leaves, whatever their order,
    each operator but the sender was posted a signed message, addressed to it, that carries all
    the acknowledgements and a proof that verifies against the root for the leaf of an
    acknowledgement of that very operator. *)
Theorem broadcast_proofs `{!MerkleLibLaws} net c ops epoch cs acks t log log' : BroadcastCommitmentsWithProofs net c ops epoch cs acks (Some t) log = (log', Ok tt) ->
  BuildMerkleTree acks = Ok t -> NoDup (HashAcknowledgementForMerkle <$> acks) -> forall op, op ∈ ops -> OperatorAddress op <> operatorAddr c ->
  exists ack proof data p m, ack ∈ acks /\ PlayerAddress ack = OperatorAddress op /\ Posted (buildRequestURL (SocketAddress op) "/dkg/broadcast") data ∈ log' /\
    json_auth data = Ok m /\ CreateAuthenticatedMessage (signer c) p = Ok m /\
    json_broadcast p = Ok (mkCommitmentBroadcastMessage (operatorAddr c) (OperatorAddress op) epoch
      (Some (mkCommitmentBroadcast (operatorAddr c) epoch cs acks (Proof_ proof)))) /\
    Leaf proof = HashAcknowledgementForMerkle ack /\ VerifyProof (Some proof) (Root t) = true.
Proof.
  intros Hb Ht Hnd op Hin Hne. unfold BroadcastCommitmentsWithProofs in Hb. unfold mbind, sm_bind, sm_lift in Hb. cbn [from_opt] in Hb.
  revert Hb. generalize false at 1 as errs. revert log. induction ops as [|o ops IH]; [by apply not_elem_of_nil in Hin|].
  intros log errs. cbn [broadcast_each]. destruct (Z.eqb_spec (OperatorAddress o) (operatorAddr c)) as [Hself|Hother].
  { apply elem_of_cons in Hin as [->|Hin]; [done|]. by apply IH. }
  unfold mbind, sm_bind, sm_lift, sm_try. destruct (ack_at (OperatorAddress o) 0 (SortAcknowledgements acks)) as [[ack i]|] eqn:Hack; cbn [from_opt]; [|done].
  destruct (GenerateProof t i) as [proof|] eqn:Hproof; cbn [wrap]; [|done].
  destruct (send_broadcast_posts net c o (mkCommitmentBroadcast (operatorAddr c) epoch cs acks (Proof_ proof)) epoch log) as (l1 & Hl & Hsent).
  destruct (sendCommitmentBroadcast _ _ _ _ _ _) as [log1 r]. cbn [fst snd] in Hl, Hsent. subst log1. intros Hb.
  apply elem_of_cons in Hin as [->|Hin]; [|by eapply IH]. clear IH.
  pose proof (each_no_errs _ _ _ _ _ _ _ _ _ _ _ Hb) as Herr. apply orb_false_iff in Herr as [_ Hr%negb_false_iff].
  destruct (Hsent Hr) as (data & p & m & Hp & Hj & Hm & Hjb). apply ack_at_spec in Hack as (Hplayer & _ & Hidx). rewrite Z.sub_0_r in Hidx.
  destruct (proof_at acks t i ack proof Ht Hnd Hidx Hproof) as [Hleaf Hver].
  destruct (each_extends net c epoch cs acks (SortAcknowledgements acks) t (errs || negb (is_ok r)) ops (log ++ l1)) as [l2 Hl2]. rewrite Hb in Hl2. cbn [fst] in Hl2.
  exists ack, proof, data, p, m. split_and!; try done.
  - apply list_elem_of_lookup_2 in Hidx. unfold SortAcknowledgements in Hidx. by rewrite go_sort_perm in Hidx.
  - rewrite Hl2. apply elem_of_app. left. apply elem_of_app. by right.
Qed.
End Delivery.

(** ** Witnesses: operator 2 sends its share to operator 1; operator 1 broadcasts *)

#[local] Existing Instances toy97 toy97_laws Messages.toy_sigs toy_tree toy_tree_laws.
#[local] Instance unary_text : FrText (@Fr toy97) := {
  fr_String x := string_of (repeat "a"%char (Z.to_nat (fr_bigint x)));
  fr_SetString s := Some (toy_fr (Z.of_nat (String.length s)))
}.
#[local] Instance key_signers : SignerLib := {
  bn254_PrivateKey := bytes; bn254_NewPrivateKeyFromBytes b := Ok b; bn254_SignSolidityCompatible k h := Ok (k ++ h);
  ecdsa_PrivateKey := Address; ecdsa_NewPrivateKeyFromBytes b := Ok (be_val b); ecdsa_Sign k h := Ok (addr_bytes k ++ h);
  hexutil_Decode s := Ok (text_bytes (chars_of s))
}.
#[local] Instance key_laws : SignerLaws.
Proof.
  refine {| bn254_pub := fun k : @bn254_PrivateKey key_signers => k; ecdsa_addr := fun k : @ecdsa_PrivateKey key_signers => k |}.
  - intros k h s [= <-]. exists (k ++ h)%list. split; [done|]. cbn. by rewrite bool_decide_true.
  - intros k h s [= <-]. exists (addr_bytes k ++ h)%list. split; [done|]. cbn. by rewrite bool_decide_true.
Defined.

#[local] Instance unary_laws : @FrTextLaws (@Fr toy97) _.
Proof.
  constructor. intros x. cbn [fr_SetString fr_String unary_text]. f_equal.
  assert (Hlen : forall n, String.length (string_of (repeat "a"%char n)) = n) by (induction n as [|n IH]; cbn; [done|by f_equal]).
  rewrite Hlen, Z2Nat.id by apply (zp_val_bound 97 ltac:(lia) x). apply (zp_of_val 97).
Qed.

(** The broadcasts of operator 1 for the acknowledgements of operators 2 and 3. *)
Definition sent_acks : list Acknowledgement := [toy_ack 3; toy_ack 2].
Definition sent_broadcast (to : Address) : CommitmentBroadcastMessage :=
  mkCommitmentBroadcastMessage 1 to 7 (Some (mkCommitmentBroadcast 1 7 [] sent_acks (HashAcknowledgementForMerkle <$> [toy_ack 2; toy_ack 3]))).
#[local] Instance G2Point_eq : EqDecision G2Point := ltac:(solve_decision).
#[local] Instance CommitmentBroadcast_eq : EqDecision CommitmentBroadcast := ltac:(solve_decision).
#[local] Instance CommitmentBroadcastMessage_eq : EqDecision CommitmentBroadcastMessage := ltac:(solve_decision).

(** A share message is its fields behind a 1, such a broadcast its recipient behind a 5. *)
Definition tagged_base (p : bytes) : res BaseMessage :=
  match p with
  | 1 :: from :: to :: ts :: _ => Ok (mkBaseMessage from to ts)
  | [5; to] => Ok (mkBaseMessage 1 to 7)
  | _ => Err "unexpected end of JSON input"
  end.
Definition tagged_auth (b : bytes) : res AuthenticatedMessage :=
  match b with
  | n :: rest => match drop (Z.to_nat n) rest with
                 | k :: rest' => Ok (mkAuthenticatedMessage (take (Z.to_nat n) rest) (take (Z.to_nat k) rest') (drop (Z.to_nat k) rest'))
                 | [] => Err "EOF"
                 end
  | [] => Err "EOF"
  end.
#[local] Instance tagged_wire : WireLib := {
  json_auth := tagged_auth;
  json_base := tagged_base;
  json_share p := match p with 1 :: from :: to :: ts :: text => Ok (mkShareMessage from to ts (Some (string_of (bytes_text text)))) | _ => Err "EOF" end;
  json_commitment _ := Err "EOF";
  json_ack _ := Err "EOF";
  json_share_request _ := Err "EOF";
  json_broadcast p := match p with [5; to] => Ok (sent_broadcast to) | _ => Err "EOF" end;
  json_marshal_share _ := Err "unused"
}.
#[local] Instance tagged_laws : WireLaws.
Proof.
  split; try done; intros p m; cbn [json_share json_broadcast json_base tagged_wire]; unfold tagged_base; repeat case_match; try done; by intros [= <-].
Qed.
#[local] Instance tagged_transport : TransportLib := {
  marshal_share m := match sm_Share m with Some s => Ok (1 :: sm_From m :: sm_To m :: sm_SessionTimestamp m :: text_bytes (chars_of s)) | None => Err "null" end;
  marshal_share_request _ := Err "unused";
  marshal_commitment _ := Err "unused";
  marshal_ack _ := Err "unused";
  marshal_broadcast m := if bool_decide (m = sent_broadcast (cbm_To m)) then Ok [5; cbm_To m] else Err "unused";
  marshal_auth m := Ok (Z.of_nat (length (Payload m)) :: Payload m ++ Z.of_nat (length (Hash m)) :: Hash m ++ Signature m)%list;
  json_commitments _ := Err "EOF"
}.
#[local] Instance tagged_transport_laws : TransportLaws.
Proof.
  constructor; try done.
  - intros m b [= <-]. cbn [json_auth tagged_wire tagged_auth]. rewrite Nat2Z.id, drop_app_length, take_app_length, Nat2Z.id, drop_app_length, take_app_length. by destruct m.
  - intros m b. cbn [marshal_share json_share tagged_transport tagged_wire]. destruct m as [from to ts [s|]]; [|done]. cbn. intros [= <-].
    rewrite bytes_text_bytes. unfold string_of, chars_of. by rewrite String.string_of_list_ascii_of_string.
  - intros m b. cbn [marshal_broadcast json_broadcast tagged_transport tagged_wire]. case_bool_decide as Hm; [|done]. intros [= <-]. by rewrite <- Hm.
Qed.

(** The first post of each log fails. *)
Definition flaky : Network := fun log _ => if (length log =? 0)%nat then Err "connection refused" else Ok (503, []).
Definition demo_in_memory (k : Address) : @InMemoryTransportSigner key_signers := @mkInMemory key_signers (EcdsaKey k) CurveTypeECDSA.
Definition demo_signer (k : Address) : ITransportSigner := in_memory (demo_in_memory k).

Lemma signers_accepted_witness : exists m, CreateAuthenticatedMessage (demo_signer 2) [1; 2; 3] = Ok m /\ verifyMessage m (toy_peer 2) = Ok tt.
Proof.
  eexists. split; [reflexivity|]. apply (proj1 signers_accepted (demo_in_memory 2) (toy_peer 2)) with (data := [1; 2; 3]).
  - split; [reflexivity|]. split; reflexivity.
  - reflexivity.
Defined.

Lemma demo_speaks k : speaks_for (demo_signer k) (toy_peer k).
Proof.
  intros data m. cbn. intros [= <-]. split; [done|]. apply verify_accepts; [done|]. exists (addr_bytes k ++ Keccak256 data)%list. split; [done|]. cbn. by rewrite bool_decide_true.
Qed.

(** The share 3 of operator 2 arrives, although every answer is an error. *)
Lemma share_delivered_witness : exists data s',
  (SendDKGShare flaky (NewClient 2 (demo_signer 2)) (toy_peer 1) (toy_fr 3) 7 []).1 = attempts "/dkg/share" data 1 /\
  getSession (handleDKGShare wire_env (mkRequest "POST" data) wire_node).1 7 = Some s' /\ shares s' !! 2 = Some (toy_fr 3).
Proof.
  destruct (share_delivered (P := unit) flaky 2 (demo_signer 2) (toy_peer 1) (toy_fr 3) 7 [] _ _ "/dkg/share" (or_introl (conj eq_refl (surjective_pairing _))))
    as [[_ Hr]|(data & k & before & _ & Hl & _ & _ & _ & Hd)]; [vm_compute in Hr; discriminate|].
  destruct (Hd wire_node (newSession "dkg" [toy_peer 1; toy_peer 2] 7 0) (toy_peer 2) wire_env) as (s' & Hs & Hshare & _).
  - constructor; [reflexivity|reflexivity|reflexivity|]. apply demo_speaks.
  - reflexivity.
  - exists data, s'. split; [|split; [exact Hs|exact Hshare]].
    vm_compute in Hl. vm_compute. destruct k as [|[|[|[|[|k]]]]]; injection Hl; intros; subst; try discriminate; reflexivity.
Defined.

Definition steady : Network := fun _ _ => Ok (200, []).
Definition sent_tree : MerkleTree :=
  match BuildMerkleTree sent_acks with Ok t => t | Err _ => mkMerkleTree [] [] [] end.

Lemma broadcast_proofs_witness : exists ack proof, PlayerAddress ack = 3 /\ Leaf proof = HashAcknowledgementForMerkle ack /\
  VerifyProof (Some proof) (Root sent_tree) = true.
Proof.
  destruct (BroadcastCommitmentsWithProofs steady (NewClient 1 (demo_signer 1)) [toy_peer 1; toy_peer 2; toy_peer 3] 7 [] sent_acks (Some sent_tree) [])
    as [log' r] eqn:Hb.
  assert (Hr : r = Ok tt) by (change r with (log', r).2; rewrite <- Hb; vm_compute; reflexivity). rewrite Hr in Hb. clear Hr.
  assert (Hbuilt : is_ok (BuildMerkleTree sent_acks) = true) by (vm_compute; reflexivity).
  assert (Ht : BuildMerkleTree sent_acks = Ok sent_tree) by (unfold sent_tree; destruct (BuildMerkleTree sent_acks); [reflexivity|discriminate]).
  assert (Hnd : NoDup (HashAcknowledgementForMerkle <$> sent_acks)) by by_compute.
  destruct (broadcast_proofs steady (NewClient 1 (demo_signer 1)) [toy_peer 1; toy_peer 2; toy_peer 3] 7 [] sent_acks sent_tree [] log' Hb Ht Hnd (toy_peer 3)) as (ack & proof & data & p & m & _ & Hplayer & _ & _ & _ & _ & Hleaf & Hver).
  - right. right. left.
  - discriminate.
  - exists ack, proof. split; [exact Hplayer|]. split; [exact Hleaf|exact Hver].
Defined.
