(* ===== verification/ContractCaller.v ===== *)
(** * Reading the chain: [pkg/contractCaller/caller]

    The releases of applications ([eigenCompute.go]), the operators of a set and their keys,
    the AVS configuration, the commitments, and the transactions of an operator ([caller.go],
    [operator.go], [commitmentRegistry.go]; [BlockLookup] has the search for a block).  The
    bindings of the contracts are generated code and parameters.  The theorems: the release
    that is served is the last event of the confirmed block, converted without loss; the peers
    are the members of the set, each with the key of the set's curve; a caller never holds the
    permission controller it would accept an admin with. *)

From S2P Require Import Prelude Bytes Types Gnark GoText Persistence NodeCore Config BlockLookup.
From Stdlib Require Import Ascii.

(** ** The bindings *)

Record Artifact := mkArtifact { Digest : bytes; Registry : string }.
Record EnvVar := mkEnvVar { env_Key : string; env_Value : string }.
Record IAppControllerContainerPolicy := mkContractPolicy {
  cp_Args : list string; cp_CmdOverride : list string; cp_Env : list EnvVar; cp_EnvOverride : list EnvVar; cp_RestartPolicy : string
}.
Record AppRelease := mkAppRelease {
  Artifacts : list Artifact;
  ar_PublicEnv : bytes;
  ar_EncryptedEnv : bytes;
  ar_ContainerPolicy : IAppControllerContainerPolicy
}.
(** [AppUpgradedEvent]; of the raw log, its index and block. *)
Record AppUpgradedEvent := mkAppUpgraded { ev_Release : AppRelease; Raw_Index : Z; Raw_BlockNumber : Z }.

(** [AppControllerInterface]: the iterator of [FilterAppUpgraded] is the events it yields and
    the error it ends with. *)
Record AppControllerInterface := mkAppController {
  ac_GetAppCreator : Address -> res Address;
  ac_GetAppOperatorSetId : Address -> res Z;
  ac_GetAppLatestReleaseBlockNumber : Address -> res Z;
  ac_GetAppStatus : Address -> res Z;
  ac_FilterAppUpgraded : Z -> Z -> list Address -> res (list AppUpgradedEvent * option string)
}.

(** A G1 and a G2 point of the key registrar. *)
Record SolidityKey := mkSolidityKey { sk_G1 : Z * Z; sk_G2X : Z * Z; sk_G2Y : Z * Z }.

(** The generated bindings, the client of the chain and its transactions, crypto-libs'
    conversion of a key, and [encoding/json] on an environment. *)
Class ChainLib := {
  Backend : Type;
  Tx : Type;
  TxOpts : Type;
  Receipt : Type;
  eth_ChainID : Backend -> res Z;
  eth_HeaderByNumber : Backend -> option Z -> res Header;
  alm_GetAVSRegistrar : Backend -> string -> Address -> res Address;
  alm_GetMembers : Backend -> string -> Address -> Z -> res (list Address);
  alm_GetAllocationDelay : Backend -> string -> Address -> res unit;
  alm_ModifyAllocations : TxOpts -> string -> Address -> Address -> Z -> Address -> Z -> res Tx;
  alm_RegisterForOperatorSets : TxOpts -> string -> Address -> Address -> list Z -> bytes -> res Tx;
  dm_IsOperator : Backend -> string -> Address -> res bool;
  dm_RegisterAsOperator : TxOpts -> string -> Address -> Z -> string -> res Tx;
  kr_GetOperatorSetCurveType : Backend -> string -> option Z -> Address -> Z -> res Z;
  kr_GetBN254Key : Backend -> string -> Address -> Z -> Address -> res SolidityKey;
  kr_GetECDSAAddress : Backend -> string -> Address -> Z -> Address -> res Address;
  kr_RegisterKey : TxOpts -> string -> Address -> Address -> Z -> bytes -> bytes -> res Tx;
  kr_DeregisterKey : TxOpts -> string -> Address -> Address -> Z -> res Tx;
  kr_EncodeBN254KeyData : Backend -> string -> SolidityKey -> res bytes;
  kr_GetECDSAKeyRegistrationMessageHash : Backend -> string -> Address -> Address -> Z -> Address -> res bytes;
  kr_GetBN254KeyRegistrationMessageHash : Backend -> string -> Address -> Address -> Z -> bytes -> res bytes;
  pc_AcceptAdmin : TxOpts -> string -> Address -> res Tx;
  reg_GetOperatorSocket : Backend -> Address -> Address -> res string;
  reg_GetAvsConfig : Backend -> Address -> res (Z * string);
  reg_UpdateSocket : TxOpts -> Address -> Address -> string -> res Tx;
  cr_GetCommitment : Backend -> Address -> option Z -> Z -> Address -> res (bytes * bytes * Z);
  cr_SubmitCommitment : TxOpts -> Address -> Z -> bytes -> bytes -> res Tx;
  NewPublicKeyFromSolidity : SolidityKey -> res bytes;
  bn254_PublicKey : Type;
  G1_ToPrecompileFormat : bn254_PublicKey -> res bytes;
  G2_ToPrecompileFormat : bn254_PublicKey -> res bytes;
  EncodeString : string -> res bytes;
  json_env_string : bytes -> res (gmap string string);
  json_marshal_string_env : gmap string string -> res string
}.

Section ContractCaller.
Context `{ChainLib} `{EthAddr}.

Record ITransactionSigner := mkTransactionSigner {
  GetTransactOpts : res TxOpts;
  SignAndSendTransaction : Tx -> res Receipt
}.

(** The contracts are their addresses; [permissionController] is a field no code assigns. *)
Record ContractCaller := mkContractCaller {
  ethclient : Backend;
  allocationManager : string;
  delegationManager : string;
  keyRegistrar : string;
  releaseManager : string;
  permissionController : option string;
  appController : option AppControllerInterface;
  appControllerClient : option Backend;
  signer : ITransactionSigner
}.

Definition NewContractCaller (client : Backend) (signer : ITransactionSigner) : res ContractCaller :=
  chainId ← wrap "failed to get chain ID" (eth_ChainID client);
  coreContracts ← wrap "failed to get core contracts" (GetCoreContractsForChainId chainId);
  Ok (mkContractCaller client (AllocationManager coreContracts) (DelegationManager coreContracts) (KeyRegistrar coreContracts)
        (ReleaseManager coreContracts) None None None signer).

Definition SetAppController (controller : option AppControllerInterface) (cc : ContractCaller) : ContractCaller * res unit :=
  match controller with
  | None => (cc, Err "appController cannot be nil")
  | Some controller => (mkContractCaller (ethclient cc) (allocationManager cc) (delegationManager cc) (keyRegistrar cc) (releaseManager cc)
                          (permissionController cc) (Some controller) (appControllerClient cc) (signer cc), Ok tt)
  end.
Definition SetAppControllerBlockClient (client : option Backend) (cc : ContractCaller) : ContractCaller :=
  mkContractCaller (ethclient cc) (allocationManager cc) (delegationManager cc) (keyRegistrar cc) (releaseManager cc)
    (permissionController cc) (appController cc) client (signer cc).

(** ** Releases *)

Definition getAppController (cc : ContractCaller) : res AppControllerInterface :=
  from_opt "appController not initialized - call SetAppController first" (appController cc).
Definition GetAppCreator (cc : ContractCaller) (app : Address) : res Address :=
  appCtrl ← getAppController cc; wrap "failed to get app creator" (ac_GetAppCreator appCtrl app).
Definition GetAppOperatorSetId (cc : ContractCaller) (app : Address) : res Z :=
  appCtrl ← getAppController cc; wrap "failed to get app operator set ID" (ac_GetAppOperatorSetId appCtrl app).
Definition GetAppLatestReleaseBlockNumber (cc : ContractCaller) (app : Address) : res Z :=
  appCtrl ← getAppController cc; wrap "failed to get app latest release block number" (ac_GetAppLatestReleaseBlockNumber appCtrl app).
Definition GetAppStatus (cc : ContractCaller) (app : Address) : res Z :=
  appCtrl ← getAppController cc; wrap "failed to get app status" (ac_GetAppStatus appCtrl app).
Definition FilterAppUpgraded (cc : ContractCaller) (apps : list Address) (first last : Z) : res (list AppUpgradedEvent * option string) :=
  appCtrl ← getAppController cc; wrap "failed to filter app upgraded events" (ac_FilterAppUpgraded appCtrl first last apps).

Definition env_map (env : list EnvVar) : gmap string string := for_acc (fun kv m => <[env_Key kv := env_Value kv]> m) env ∅.
Definition contractPolicyToTypes (p : IAppControllerContainerPolicy) : ContainerPolicy :=
  mkContainerPolicy (cp_Args p) (cp_CmdOverride p) (env_map (cp_Env p)) (env_map (cp_EnvOverride p)) (cp_RestartPolicy p).

Record resolvedRelease := mkResolved {
  rr_Digest : bytes;
  rr_Registry : string;
  rr_PublicEnv : gmap string string;
  rr_EncryptedEnv : bytes;
  rr_ContainerPolicy : ContainerPolicy;
  rr_BlockNumber : Z
}.

(** The first event with the highest index. *)
Definition last_upgrade (events : list AppUpgradedEvent) : option AppUpgradedEvent :=
  for_acc (fun event best => match best with
                             | None => Some event
                             | Some b => if Raw_Index event >? Raw_Index b then Some event else Some b
                             end) events None.

Definition resolveLatestRelease (cc : ContractCaller) (appID : string) : res resolvedRelease :=
  appCtrl ← getAppController cc;
  let appAddress := HexToAddress appID in
  block ← wrap "failed to get app latest release block number" (GetAppLatestReleaseBlockNumber cc appAddress);
  '(events, error) ← wrap "failed to filter app upgraded" (ac_FilterAppUpgraded appCtrl block block [appAddress]);
  _ ← match error return res unit with Some e => wrap "error iterating app upgrades" (Err e) | None => Ok tt end;
  lastAppUpgrade ← from_opt "no app upgrade found for app %s at block %d" (last_upgrade events);
  let release := ev_Release lastAppUpgrade in
  _ ← fail_if (negb (length (Artifacts release) =? 1)%nat) "expected 1 artifact, got %d";
  artifact ← from_opt "panic: index out of range" (Artifacts release !! 0%nat);
  publicEnv ← wrap "failed to unmarshal env" (json_env_string (ar_PublicEnv release));
  Ok (mkResolved (Digest artifact) (Registry artifact) publicEnv (ar_EncryptedEnv release) (contractPolicyToTypes (ar_ContainerPolicy release))
        (Raw_BlockNumber lastAppUpgrade)).

Definition GetLatestRelease (cc : ContractCaller) (appID : string) : res (bytes * gmap string string * bytes * ContainerPolicy) :=
  r ← resolveLatestRelease cc appID;
  Ok (rr_Digest r, rr_PublicEnv r, rr_EncryptedEnv r, rr_ContainerPolicy r).

Definition GetLatestReleaseAsRelease (cc : ContractCaller) (appID : string) : res Release :=
  r ← resolveLatestRelease cc appID;
  let blockClient := default (ethclient cc) (appControllerClient cc) in
  header ← wrap "failed to fetch block header for timestamp" (eth_HeaderByNumber blockClient (Some (rr_BlockNumber r)));
  let imageDigest := ("sha256:" +:+ string_of (hex_EncodeToString (rr_Digest r)))%string in
  publicEnvStr ← (if (size (rr_PublicEnv r) =? 0)%nat return res string then Ok ""%string
                  else wrap "failed to marshal public env" (json_marshal_string_env (rr_PublicEnv r)));
  let encryptedEnvStr := if (length (rr_EncryptedEnv r) =? 0)%nat then ""%string else string_of (hex_EncodeToString (rr_EncryptedEnv r)) in
  Ok (mkRelease imageDigest (rr_Registry r) encryptedEnvStr publicEnvStr (int64 (Time header)) (rr_ContainerPolicy r)).

(** ** Operators *)

Definition GetOperatorSetMembers (cc : ContractCaller) (avsAddress : string) (operatorSetId : Z) : res (list string) :=
  operatorSet ← wrap "failed to get operator set members" (alm_GetMembers (ethclient cc) (allocationManager cc) (HexToAddress avsAddress) operatorSetId);
  Ok ((Hex <$> (operatorSet : list Address)) : list string).

Definition GetOperatorSetCurveType (cc : ContractCaller) (avsAddress : string) (operatorSetId blockNumber : Z) : res string :=
  let block := if blockNumber >? 0 then Some (int64 blockNumber) else None in
  curveType ← wrap "failed to get operator set curve type"
    (kr_GetOperatorSetCurveType (ethclient cc) (keyRegistrar cc) block (HexToAddress avsAddress) operatorSetId);
  ConvertSolidityEnumToCurveType curveType.

(** [b[i : i+32]] as a number; a slice beyond the end panics. *)
Definition word_at (b : bytes) (i : nat) : res Z :=
  if (i + 32 <=? length b)%nat then Ok (be_val (take 32 (drop i b))) else Err "panic: slice bounds out of range".

Definition EncodeBN254KeyData (cc : ContractCaller) (pubKey : bn254_PublicKey) : res bytes :=
  g1Bytes ← wrap "public key not in correct subgroup" (G1_ToPrecompileFormat pubKey);
  x ← word_at g1Bytes 0;
  y ← word_at g1Bytes 32;
  g2Bytes ← wrap "public key not in correct subgroup" (G2_ToPrecompileFormat pubKey);
  x0 ← word_at g2Bytes 0;
  x1 ← word_at g2Bytes 32;
  y0 ← word_at g2Bytes 64;
  y1 ← word_at g2Bytes 96;
  kr_EncodeBN254KeyData (ethclient cc) (keyRegistrar cc) (mkSolidityKey (x, y) (x0, x1) (y0, y1)).

Definition GetOperatorECDSAKeyRegistrationMessageHash (cc : ContractCaller) (operatorAddress avsAddress : Address) (operatorSetId : Z)
    (signingKeyAddress : Address) : res bytes :=
  kr_GetECDSAKeyRegistrationMessageHash (ethclient cc) (keyRegistrar cc) operatorAddress avsAddress operatorSetId signingKeyAddress.
Definition GetOperatorBN254KeyRegistrationMessageHash (cc : ContractCaller) (operatorAddress avsAddress : Address) (operatorSetId : Z)
    (keyData : bytes) : res bytes :=
  kr_GetBN254KeyRegistrationMessageHash (ethclient cc) (keyRegistrar cc) operatorAddress avsAddress operatorSetId keyData.

Definition GetOperatorSetDetailsForOperator (cc : ContractCaller) (operatorAddress : Address) (avsAddress : string) (operatorSetId : Z) : res OperatorSetPeer :=
  let avs := HexToAddress avsAddress in
  registrar ← wrap "failed to get AVS registrar address" (alm_GetAVSRegistrar (ethclient cc) (allocationManager cc) avs);
  socket ← wrap "failed to get operator socket" (reg_GetOperatorSocket (ethclient cc) registrar operatorAddress);
  curveTypeSolidity ← kr_GetOperatorSetCurveType (ethclient cc) (keyRegistrar cc) None avs operatorSetId;
  curveType ← wrap "failed to convert curve type" (ConvertSolidityEnumToCurveType curveTypeSolidity);
  if bool_decide (curveType = Config.CurveTypeBN254) then
    solidityPubKey ← kr_GetBN254Key (ethclient cc) (keyRegistrar cc) avs operatorSetId operatorAddress;
    pubKey ← NewPublicKeyFromSolidity solidityPubKey;
    Ok (mkPeer operatorAddress socket (Some pubKey) 0 Types.CurveTypeBN254)
  else if bool_decide (curveType = Config.CurveTypeECDSA) then
    ecdsaAddr ← kr_GetECDSAAddress (ethclient cc) (keyRegistrar cc) avs operatorSetId operatorAddress;
    Ok (mkPeer operatorAddress socket None ecdsaAddr Types.CurveTypeECDSA)
  else Err "unsupported curve type: %s".

Definition GetOperatorSetMembersWithPeering (cc : ContractCaller) (avsAddress : string) (operatorSetId : Z) : res (list OperatorSetPeer) :=
  operatorSetStringAddrs ← GetOperatorSetMembers cc avsAddress operatorSetId;
  let operatorSetMemberAddrs := HexToAddress <$> operatorSetStringAddrs in
  for_each (fun member allMembers =>
      operatorSetInfo ← GetOperatorSetDetailsForOperator cc member avsAddress operatorSetId;
      Ok (allMembers ++ [operatorSetInfo]))
    operatorSetMemberAddrs [].

Definition GetAvsConfig (cc : ContractCaller) (avsAddress : string) : res (Z * string) :=
  registrar ← wrap "failed to get AVS registrar address" (alm_GetAVSRegistrar (ethclient cc) (allocationManager cc) (HexToAddress avsAddress));
  wrap "failed to read AVS config" (reg_GetAvsConfig (ethclient cc) registrar).

(** ** Commitments *)

Definition GetCommitmentAt (cc : ContractCaller) (registryAddress : Address) (epoch : Z) (operator : Address) (blockNumber : Z) : res (bytes * bytes * Z) :=
  let block := if negb (blockNumber =? 0) then Some blockNumber else None in
  '(commitmentHash, ackMerkleRoot, submittedAt) ← wrap "failed to get commitment" (cr_GetCommitment (ethclient cc) registryAddress block (uint64 epoch) operator);
  Ok (commitmentHash, ackMerkleRoot, uint64 submittedAt).
Definition GetCommitment (cc : ContractCaller) (registryAddress : Address) (epoch : Z) (operator : Address) : res (bytes * bytes * Z) :=
  GetCommitmentAt cc registryAddress epoch operator 0.

(** ** Transactions *)

Definition buildTransactionOpts (cc : ContractCaller) : res TxOpts := GetTransactOpts (signer cc).
Definition signAndSendTransaction (cc : ContractCaller) (tx : Tx) : res Receipt := SignAndSendTransaction (signer cc) tx.

Definition SubmitCommitment (cc : ContractCaller) (registryAddress : Address) (epoch : Z) (commitmentHash ackMerkleRoot : bytes) : res Receipt :=
  txOpts ← wrap "failed to build transaction options" (buildTransactionOpts cc);
  tx ← wrap "failed to create transaction" (cr_SubmitCommitment txOpts registryAddress (uint64 epoch) commitmentHash ackMerkleRoot);
  signAndSendTransaction cc tx.

(** A method of a nil contract panics. *)
Definition AcceptPendingAdmin (cc : ContractCaller) (adminFor : Address) : res Receipt :=
  txOpts ← wrap "failed to build transaction options" (buildTransactionOpts cc);
  controller ← from_opt "panic: nil pointer dereference" (permissionController cc);
  tx ← wrap "failed to create transaction for accepting pending admin for %s" (pc_AcceptAdmin txOpts controller adminFor);
  signAndSendTransaction cc tx.

Definition DeRegisterKey (cc : ContractCaller) (operatorAddress avsAddress : Address) (operatorSetId : Z) : res Receipt :=
  txOpts ← wrap "failed to build transaction options" (buildTransactionOpts cc);
  tx ← wrap "failed to create transaction for deregistering key" (kr_DeregisterKey txOpts (keyRegistrar cc) operatorAddress avsAddress operatorSetId);
  signAndSendTransaction cc tx.

Definition RegisterKeyWithKeyRegistrar (cc : ContractCaller) (operatorAddress avsAddress : Address) (operatorSetId : Z) (sigBytes keyData : bytes) : res Receipt :=
  txOpts ← wrap "failed to build transaction options" (buildTransactionOpts cc);
  tx ← wrap "failed to register key" (kr_RegisterKey txOpts (keyRegistrar cc) operatorAddress avsAddress operatorSetId keyData sigBytes);
  signAndSendTransaction cc tx.
Definition RegisterKeyWithOperatorSet (cc : ContractCaller) (operatorAddress avsAddress : Address) (operatorSetId : Z) (keyData sigBytes : bytes) : res Receipt :=
  txOpts ← wrap "failed to build transaction options" (buildTransactionOpts cc);
  tx ← wrap "failed to create transaction for key registration" (kr_RegisterKey txOpts (keyRegistrar cc) operatorAddress avsAddress operatorSetId keyData sigBytes);
  signAndSendTransaction cc tx.

Definition ModifyAllocations (cc : ContractCaller) (operatorAddress avsAddress : Address) (operatorSetId : Z) (strategy : Address) (allocation : Z) : res Receipt :=
  _ ← wrap "failed to get allocation delay" (alm_GetAllocationDelay (ethclient cc) (allocationManager cc) operatorAddress);
  txOpts ← wrap "failed to build transaction options" (buildTransactionOpts cc);
  tx ← wrap "failed to create transaction" (alm_ModifyAllocations txOpts (allocationManager cc) operatorAddress avsAddress operatorSetId strategy allocation);
  signAndSendTransaction cc tx.

Definition GetAvsRegistrar (cc : ContractCaller) (avsAddress : Address) : res Address := alm_GetAVSRegistrar (ethclient cc) (allocationManager cc) avsAddress.

Definition UpdateOperatorSocketForAvs (cc : ContractCaller) (operatorAddress avsAddress : Address) (encodedSocket : string) : res Receipt :=
  registrar ← wrap "failed to get AVS registrar for address %s" (GetAvsRegistrar cc avsAddress);
  _ ← fail_if (registrar =? 0) "AVS registrar not found for address %s";
  txOpts ← wrap "failed to build transaction options" (buildTransactionOpts cc);
  tx ← wrap "failed to create transaction for updating operator socket" (reg_UpdateSocket txOpts registrar operatorAddress encodedSocket);
  signAndSendTransaction cc tx.

(** [None] is the receipt of an operator that exists already. *)
Definition CreateOperator (cc : ContractCaller) (operatorAddress : Address) (allocationDelay : Z) (metadataUri : string) : res (option Receipt) :=
  noSendTxOpts ← wrap "failed to build transaction options" (buildTransactionOpts cc);
  is_operator ← wrap "failed to check if operator exists" (dm_IsOperator (ethclient cc) (delegationManager cc) operatorAddress);
  if (is_operator : bool) then Ok None else
  tx ← wrap "failed to create transaction" (dm_RegisterAsOperator noSendTxOpts (delegationManager cc) 0 allocationDelay metadataUri);
  receipt ← signAndSendTransaction cc tx;
  Ok (Some receipt).

Definition RegisterOperatorWithAvs (cc : ContractCaller) (operatorAddress avsAddress : Address) (operatorSetIds : list Z) (socket : string) : res Receipt :=
  txOpts ← wrap "failed to build transaction options" (buildTransactionOpts cc);
  encodedSocket ← wrap "failed to encode socket string" (EncodeString socket);
  tx ← wrap "failed to create transaction" (alm_RegisterForOperatorSets txOpts (allocationManager cc) operatorAddress avsAddress operatorSetIds encodedSocket);
  signAndSendTransaction cc tx.

Definition CreateOperatorAndRegisterWithAvs (cc : ContractCaller) (avsAddress operatorAddress : Address) (operatorSetIds : list Z) (socket : string)
    (allocationDelay : Z) (metadataUri : string) : res Receipt :=
  _ ← wrap "failed to register as operator" (CreateOperator cc operatorAddress allocationDelay metadataUri);
  wrap "failed to register operator socket with AVS" (RegisterOperatorWithAvs cc operatorAddress avsAddress operatorSetIds socket).
End ContractCaller.

(** ** What is read *)

Section CallerFacts.
Context `{ChainLib} `{EthAddr}.

Lemma last_upgrade_snoc events x : last_upgrade (events ++ [x]) =
  match last_upgrade events with Some b => if Raw_Index x >? Raw_Index b then Some x else Some b | None => Some x end.
Proof. unfold last_upgrade, for_acc. by rewrite foldl_app. Qed.

Lemma last_upgrade_none events : last_upgrade events = None -> events = [].
Proof.
  destruct events as [|x events _] using rev_ind; [done|]. rewrite last_upgrade_snoc. destruct (last_upgrade events) as [b|]; [|done]. by destruct (_ >? _).
Qed.

(** The chosen event is the first of those with the highest index. *)
Definition latest (events : list AppUpgradedEvent) (e : AppUpgradedEvent) : Prop :=
  exists before after, events = (before ++ e :: after)%list /\ Forall (fun e' => Raw_Index e' < Raw_Index e) before /\ Forall (fun e' => Raw_Index e' <= Raw_Index e) after.

Lemma last_upgrade_spec events e : last_upgrade events = Some e -> latest events e.
Proof.
  revert e. induction events as [|x events IH] using rev_ind; intros e; [done|]. rewrite last_upgrade_snoc.
  destruct (last_upgrade events) as [b|] eqn:Hl.
  - destruct (IH b eq_refl) as (before & after & -> & Hb & Ha). destruct (Z.gtb_spec (Raw_Index x) (Raw_Index b)) as [Hgt|Hle]; intros [= <-].
    + exists (before ++ b :: after)%list, []. split_and!; [done| |constructor]. apply Forall_app. split; [eapply Forall_impl; [exact Hb|cbn; lia]|].
      constructor; [lia|]. eapply Forall_impl; [exact Ha|cbn; lia].
    + exists before, (after ++ [x])%list. split_and!; [by rewrite <- app_assoc|done|]. apply Forall_app. split; [done|]. constructor; [lia|constructor].
  - intros [= <-]. apply last_upgrade_none in Hl as ->. exists [], []. by split_and!.
Qed.

Lemma resolve_latest cc appID r : resolveLatestRelease cc appID = Ok r -> exists appCtrl block events e artifact,
  appController cc = Some appCtrl /\ ac_GetAppLatestReleaseBlockNumber appCtrl (HexToAddress appID) = Ok block /\
  ac_FilterAppUpgraded appCtrl block block [HexToAddress appID] = Ok (events, None) /\ latest events e /\ Artifacts (ev_Release e) = [artifact] /\
  json_env_string (ar_PublicEnv (ev_Release e)) = Ok (rr_PublicEnv r) /\ rr_Digest r = Digest artifact /\ rr_Registry r = Registry artifact /\
  rr_EncryptedEnv r = ar_EncryptedEnv (ev_Release e) /\ rr_ContainerPolicy r = contractPolicyToTypes (ar_ContainerPolicy (ev_Release e)) /\
  rr_BlockNumber r = Raw_BlockNumber e.
Proof.
  unfold resolveLatestRelease, GetAppLatestReleaseBlockNumber, getAppController. intros (c & Hc%from_opt_ok & Hr)%res_bind_ok. cbv zeta in Hr.
  apply res_bind_ok in Hr as (block & Hb%wrap_ok & Hr). apply res_bind_ok in Hb as (c' & Hc'%from_opt_ok & Hb%wrap_ok). rewrite Hc in Hc'. injection Hc' as <-.
  apply res_bind_ok in Hr as ([events error] & Hf%wrap_ok & Hr). apply res_bind_ok in Hr as ([] & Herr & Hr). destruct error; [done|].
  apply res_bind_ok in Hr as (e & He%from_opt_ok & Hr). rewrite fail_if_bind, negb_false_iff, Nat.eqb_eq in Hr. destruct Hr as [Hlen Hr].
  apply res_bind_ok in Hr as (artifact & Ha%from_opt_ok & Hr). apply res_bind_ok in Hr as (env & Henv%wrap_ok & [= <-]).
  exists c, block, events, e, artifact. split_and!; try done; [by apply last_upgrade_spec|].
  destruct (Artifacts (ev_Release e)) as [|a [|b l]]; try done. by injection Ha as ->.
Qed.

(** C28: The release that is served is the one the chain confirmed: of the upgrades of the application
    in the block of its latest confirmed release, the first with the highest log index; it has
    one artifact, whose registry, digest in hexadecimal behind [sha256:] and container policy
    are the release's, as is the hexadecimal form of its encrypted environment (bytes that are
    bytes are told apart by it); its time is that of the header of the event's block, read
    from the application controller's own chain where one is set. *)
Theorem latest_release_served cc appID rel : GetLatestReleaseAsRelease cc appID = Ok rel ->
  exists appCtrl block events e artifact header, appController cc = Some appCtrl /\ ac_GetAppLatestReleaseBlockNumber appCtrl (HexToAddress appID) = Ok block /\
    ac_FilterAppUpgraded appCtrl block block [HexToAddress appID] = Ok (events, None) /\ latest events e /\ Artifacts (ev_Release e) = [artifact] /\
    rel_ImageDigest rel = ("sha256:" +:+ string_of (hex_EncodeToString (Digest artifact)))%string /\ rel_Registry rel = Registry artifact /\
    rel_ContainerPolicy rel = contractPolicyToTypes (ar_ContainerPolicy (ev_Release e)) /\
    rel_EncryptedEnv rel = string_of (hex_EncodeToString (ar_EncryptedEnv (ev_Release e))) /\
    (forall ct, Forall (fun x => 0 <= x < 256) ct -> Forall (fun x => 0 <= x < 256) (ar_EncryptedEnv (ev_Release e)) ->
       rel_EncryptedEnv rel = string_of (hex_EncodeToString ct) -> ct = ar_EncryptedEnv (ev_Release e)) /\
    eth_HeaderByNumber (default (ethclient cc) (appControllerClient cc)) (Some (Raw_BlockNumber e)) = Ok header /\ rel_Timestamp rel = int64 (Time header).
Proof.
  unfold GetLatestReleaseAsRelease. intros (r & Hr & Hrel)%res_bind_ok. apply resolve_latest in Hr as (c & block & events & e & artifact & Hc & Hb & Hf & Hl & Ha & _ & Hdig & Hreg & Henc & Hpol & Hblock).
  cbv zeta in Hrel. apply res_bind_ok in Hrel as (header & Hh%wrap_ok & Hrel). apply res_bind_ok in Hrel as (pub & _ & [= <-]).
  exists c, block, events, e, artifact, header. cbn [rel_ImageDigest rel_Registry rel_ContainerPolicy rel_EncryptedEnv rel_Timestamp].
  assert (Hhex : (if (length (rr_EncryptedEnv r) =? 0)%nat then ""%string else string_of (hex_EncodeToString (rr_EncryptedEnv r))) =
    string_of (hex_EncodeToString (ar_EncryptedEnv (ev_Release e)))) by (rewrite Henc; by destruct (ar_EncryptedEnv (ev_Release e))).
  rewrite Hhex. split_and!; try done; [by rewrite Hdig| |by rewrite <- Hblock].
  intros ct Hct Hee Heq%(f_equal chars_of). unfold chars_of, string_of in Heq. rewrite !String.list_ascii_of_string_of_list_ascii in Heq. by apply hex_inj in Heq.
Qed.

(** ** Peers *)

Lemma details_ok cc op avs set peer : GetOperatorSetDetailsForOperator cc op avs set = Ok peer -> OperatorAddress peer = op /\
  exists registrar curve, alm_GetAVSRegistrar (ethclient cc) (allocationManager cc) (HexToAddress avs) = Ok registrar /\
    reg_GetOperatorSocket (ethclient cc) registrar op = Ok (SocketAddress peer) /\
    kr_GetOperatorSetCurveType (ethclient cc) (keyRegistrar cc) None (HexToAddress avs) set = Ok curve /\
    (curve = 1 /\ peer_CurveType peer = Types.CurveTypeECDSA /\ kr_GetECDSAAddress (ethclient cc) (keyRegistrar cc) (HexToAddress avs) set op = Ok (ECDSAAddress peer) \/
     curve = 2 /\ peer_CurveType peer = Types.CurveTypeBN254 /\ exists key pub, kr_GetBN254Key (ethclient cc) (keyRegistrar cc) (HexToAddress avs) set op = Ok key /\
       NewPublicKeyFromSolidity key = Ok pub /\ PublicKey peer = Some pub).
Proof.
  unfold GetOperatorSetDetailsForOperator. cbv zeta. intros (registrar & Hreg%wrap_ok & Hd)%res_bind_ok. apply res_bind_ok in Hd as (socket & Hs%wrap_ok & Hd).
  apply res_bind_ok in Hd as (curve & Hk & Hd). apply res_bind_ok in Hd as (name & Hn%wrap_ok & Hd).
  assert (Hcurve : (curve = 1 /\ name = Config.CurveTypeECDSA) \/ (curve = 2 /\ name = Config.CurveTypeBN254) \/ (name <> Config.CurveTypeECDSA /\ name <> Config.CurveTypeBN254)).
  { unfold ConvertSolidityEnumToCurveType in Hn. destruct (Z.eqb_spec curve 0); [injection Hn as <-; right; by right|].
    destruct (Z.eqb_spec curve 1); [injection Hn as <-; by left|]. destruct (Z.eqb_spec curve 2); [injection Hn as <-; right; by left|done]. }
  destruct Hcurve as [[-> ->]|[[-> ->]|[Hne Hnb]]].
  - rewrite (bool_decide_false (Config.CurveTypeECDSA = Config.CurveTypeBN254)), bool_decide_true in Hd by done.
    apply res_bind_ok in Hd as (a & Ha & [= <-]). split; [done|]. exists registrar, 1. split_and!; try done. by left.
  - rewrite bool_decide_true in Hd by done. apply res_bind_ok in Hd as (key & Hkey & Hd). apply res_bind_ok in Hd as (pub & Hpub & [= <-]).
    split; [done|]. exists registrar, 2. split_and!; try done. right. split_and!; try done. by exists key, pub.
  - by rewrite (bool_decide_false (name = Config.CurveTypeBN254)), (bool_decide_false (name = Config.CurveTypeECDSA)) in Hd by done.
Qed.

Lemma peers_collected cc avs set members peers0 peers :
  for_each (fun member allMembers => operatorSetInfo ← GetOperatorSetDetailsForOperator cc member avs set; Ok (allMembers ++ [operatorSetInfo])) members peers0 = Ok peers ->
  exists new, peers = (peers0 ++ new)%list /\ Forall2 (fun member peer => GetOperatorSetDetailsForOperator cc member avs set = Ok peer) members new.
Proof.
  revert peers0. induction members as [|m members IH]; intros peers0; cbn [for_each]; [intros [= <-]; exists []; by rewrite app_nil_r|].
  intros (l & (p & Hp & [= <-])%res_bind_ok & (new & -> & Hf)%IH)%res_bind_ok. exists (p :: new). split; [by rewrite <- app_assoc|by constructor].
Qed.

(** The peers of an operator set are its members: one for each member of the allocation manager,
    in its order, with the socket that the AVS registrar holds for it and the key that the key
    registrar holds for it, a BN254 key or an ECDSA address as the curve of the set is; a set
    of another curve, or one member that cannot be read, yields no peers at all. *)
Theorem peers_are_members cc avs set peers :
  (forall members a, alm_GetMembers (ethclient cc) (allocationManager cc) (HexToAddress avs) set = Ok members -> a ∈ members -> HexToAddress (Hex a) = a) ->
  GetOperatorSetMembersWithPeering cc avs set = Ok peers ->
  exists members, alm_GetMembers (ethclient cc) (allocationManager cc) (HexToAddress avs) set = Ok members /\ OperatorAddress <$> peers = members /\
    forall peer, peer ∈ peers -> exists registrar curve, alm_GetAVSRegistrar (ethclient cc) (allocationManager cc) (HexToAddress avs) = Ok registrar /\
      reg_GetOperatorSocket (ethclient cc) registrar (OperatorAddress peer) = Ok (SocketAddress peer) /\
      kr_GetOperatorSetCurveType (ethclient cc) (keyRegistrar cc) None (HexToAddress avs) set = Ok curve /\
      (curve = 1 /\ peer_CurveType peer = Types.CurveTypeECDSA /\
         kr_GetECDSAAddress (ethclient cc) (keyRegistrar cc) (HexToAddress avs) set (OperatorAddress peer) = Ok (ECDSAAddress peer) \/
       curve = 2 /\ peer_CurveType peer = Types.CurveTypeBN254 /\ exists key pub,
         kr_GetBN254Key (ethclient cc) (keyRegistrar cc) (HexToAddress avs) set (OperatorAddress peer) = Ok key /\
         NewPublicKeyFromSolidity key = Ok pub /\ PublicKey peer = Some pub).
Proof.
  intros Hhex. unfold GetOperatorSetMembersWithPeering, GetOperatorSetMembers. intros (strs & Hm & Hp)%res_bind_ok. apply res_bind_ok in Hm as (members & Hm%wrap_ok & [= <-]).
  cbv zeta in Hp. rewrite <- list_fmap_compose in Hp. assert (Hid : (HexToAddress ∘ Hex) <$> members = members).
  { rewrite <- (list_fmap_id members) at 2. apply list_fmap_ext. intros i a Hi. apply (Hhex members a Hm). by eapply list_elem_of_lookup_2. }
  rewrite Hid in Hp. apply peers_collected in Hp as (new & -> & Hf). cbn [app]. exists members. split; [done|]. split.
  - clear Hm Hid. induction Hf as [|m p ms ps [Hop _]%details_ok Hf IH]; [done|]. cbn. by rewrite Hop, IH.
  - intros peer Hin. apply list_elem_of_lookup_1 in Hin as [i Hi]. destruct (Forall2_lookup_r _ _ _ _ _ Hf Hi) as (m & _ & Hd).
    by apply details_ok in Hd as [-> Hd].
Qed.

(** No pending admin can be accepted: a contract caller never gets the permission controller, so
    accepting never succeeds, whatever the chain, the signer and the admin, before or after its
    controller is set; every chain the caller can be made for is in the table of contracts. *)
Theorem admin_never_accepted client sg cc controller client' admin : NewContractCaller client sg = Ok cc ->
  is_ok (AcceptPendingAdmin cc admin) = false /\
  is_ok (AcceptPendingAdmin (SetAppControllerBlockClient client' (SetAppController controller cc).1) admin) = false /\
  exists chainId, eth_ChainID client = Ok chainId /\ is_Some (CoreContracts !! chainId).
Proof.
  unfold NewContractCaller. intros (chainId & Hid%wrap_ok & Hn)%res_bind_ok. apply res_bind_ok in Hn as (core & Hcore%wrap_ok%from_opt_ok & [= <-]).
  assert (Hnil : forall c, permissionController c = None -> is_ok (AcceptPendingAdmin c admin) = false).
  { intros c Hc. unfold AcceptPendingAdmin. rewrite Hc. by destruct (buildTransactionOpts c). }
  split_and!; [by apply Hnil|apply Hnil; by destruct controller|]. exists chainId. split; [done|by eexists].
Qed.
End CallerFacts.

(** ** Witnesses: a chain with one application and two operators *)

#[local] Instance number_addr : EthAddr := { Hex a := string_of (print_d a); HexToAddress s := default 0 (Atoi (chars_of s)) }.
#[local] Instance demo_chain : ChainLib := {|
  Backend := Z; Tx := string; TxOpts := unit; Receipt := string;
  eth_ChainID b := Ok ChainId_EthereumAnvil;
  eth_HeaderByNumber b n := Ok (mkHeader (default 9 n) (b + default 9 n));
  alm_GetAVSRegistrar _ _ _ := Ok 77;
  alm_GetMembers _ _ _ _ := Ok [5; 6];
  alm_GetAllocationDelay _ _ _ := Ok tt;
  alm_ModifyAllocations _ _ _ _ _ _ _ := Ok "modify"%string;
  alm_RegisterForOperatorSets _ _ _ _ _ _ := Ok "register"%string;
  dm_IsOperator _ _ _ := Ok true;
  dm_RegisterAsOperator _ _ _ _ _ := Ok "operator"%string;
  kr_GetOperatorSetCurveType _ _ _ _ _ := Ok 1;
  kr_GetBN254Key _ _ _ _ _ := Err "no key";
  kr_GetECDSAAddress _ _ _ _ op := Ok (op + 100);
  kr_RegisterKey _ _ _ _ _ _ _ := Ok "key"%string;
  kr_DeregisterKey _ _ _ _ _ := Ok "nokey"%string;
  kr_EncodeBN254KeyData _ _ key := Ok [(sk_G1 key).1; (sk_G1 key).2];
  kr_GetECDSAKeyRegistrationMessageHash _ _ op avs set key := Ok [op; avs; set; key];
  kr_GetBN254KeyRegistrationMessageHash _ _ op avs set key := Ok ([op; avs; set] ++ key)%list;
  pc_AcceptAdmin _ _ _ := Ok "accept"%string;
  reg_GetOperatorSocket _ _ op := Ok (if op =? 5 then "a:1"%string else "b:2"%string);
  reg_GetAvsConfig _ _ := Ok (7, ""%string);
  reg_UpdateSocket _ _ _ _ := Ok "socket"%string;
  cr_GetCommitment _ _ _ _ _ := Err "none";
  cr_SubmitCommitment _ _ _ _ _ := Ok "commit"%string;
  NewPublicKeyFromSolidity _ := Err "no key";
  bn254_PublicKey := Z;
  G1_ToPrecompileFormat k := Ok (be_bytes 32 k ++ be_bytes 32 (k + 1))%list;
  G2_ToPrecompileFormat k := Ok (be_bytes 64 k ++ be_bytes 64 k)%list;
  EncodeString _ := Ok [];
  json_env_string _ := Ok ∅;
  json_marshal_string_env _ := Err "unused"
|}.

Definition demo_event (index digest : Z) : AppUpgradedEvent :=
  mkAppUpgraded (mkAppRelease [mkArtifact [digest; 255] "ghcr.io/app"] [] [1; 2] (mkContractPolicy [] [] [mkEnvVar "A" "1"; mkEnvVar "A" "2"] [] "Always")) index 40.
Definition demo_controller : AppControllerInterface :=
  mkAppController (fun _ => Ok 1) (fun _ => Ok 7) (fun _ => Ok 40) (fun _ => Ok 1)
    (fun first last apps => if (first =? 40) && (last =? 40) && bool_decide (apps = [12]) then Ok ([demo_event 3 1; demo_event 8 2; demo_event 5 3], None) else Err "range").
Definition demo_tx_signer : ITransactionSigner := mkTransactionSigner (Ok tt : res (@TxOpts demo_chain)) (fun tx => Ok tx).
Definition demo_caller : ContractCaller :=
  match NewContractCaller (1000 : @Backend demo_chain) demo_tx_signer with
  | Ok cc => SetAppControllerBlockClient (Some (2000 : @Backend demo_chain)) (SetAppController (Some demo_controller) cc).1
  | Err _ => mkContractCaller (0 : @Backend demo_chain) "" "" "" "" None None None demo_tx_signer
  end.
Definition demo_release : Release :=
  mkRelease "sha256:02ff" "ghcr.io/app" "0102" "" 2040 (mkContainerPolicy [] [] {["A" := "2"]} ∅ "Always")%string.

Lemma latest_release_served_witness : GetLatestReleaseAsRelease demo_caller "12" = Ok demo_release /\
  exists events e, latest events e /\ rel_ImageDigest demo_release = ("sha256:" +:+ string_of (hex_EncodeToString [2; 255]))%string.
Proof.
  assert (Hr : GetLatestReleaseAsRelease demo_caller "12" = Ok demo_release) by (vm_compute; reflexivity). split; [exact Hr|].
  destruct (latest_release_served demo_caller "12" demo_release Hr) as (appCtrl & block & events & e & artifact & header & _ & _ & _ & Hl & _).
  exists events, e. split; [exact Hl|reflexivity].
Defined.

Lemma peers_are_members_witness : exists peers, GetOperatorSetMembersWithPeering demo_caller "12" 7 = Ok peers /\ OperatorAddress <$> peers = [5; 6].
Proof.
  destruct (GetOperatorSetMembersWithPeering demo_caller "12" 7) as [peers|e] eqn:Hp; [|vm_compute in Hp; discriminate].
  destruct (peers_are_members demo_caller "12" 7 peers) with (2 := Hp) as (members & Hm & Hpeers & _).
  - intros members a [= <-]. intros [->|[->|[]%not_elem_of_nil]%elem_of_cons]%elem_of_cons; reflexivity.
  - exists peers. split; [reflexivity|]. rewrite Hpeers. vm_compute in Hm. by injection Hm as <-.
Defined.

Lemma admin_never_accepted_witness : exists cc, NewContractCaller (1000 : @Backend demo_chain) demo_tx_signer = Ok cc /\ is_ok (AcceptPendingAdmin cc 3) = false.
Proof.
  eexists. split; [reflexivity|]. by apply (admin_never_accepted (1000 : @Backend demo_chain) demo_tx_signer _ None None 3).
Defined.
