(* ===== verification/Peering.v ===== *)
(** * Who the operators are: [pkg/peering]

    The three sources of an operator set, behind the interface the node asks: the chain
    ([peeringDataFetcher]), a fixed table ([localPeeringDataFetcher]) and a fixed answer
    ([stub_fetcher.go]).  The theorems join them to the node and to the contract caller: nodes
    that read the same registries run with the same operators in the same order, whatever
    order the allocation manager lists them in; and the table finds only addresses written the
    way [Hex] writes them. *)

From S2P Require Import Prelude Bytes Types NodeCore Persistence GoText NodeOps ContractCaller.

Record OperatorSetPeers := mkOperatorSetPeers { OperatorSetId : Z; AVSAddress : Address; Peers : list (option OperatorSetPeer) }.

Class IPeeringDataFetcher (F : Type) := { ListKMSOperators : F -> string -> Z -> res OperatorSetPeers }.

Section Fetchers.
Context `{ChainLib} `{EthAddr}.

(** The struct that [GetOperatorSetMembersWithPeering] returns around its list. *)
Definition operator_set_peers (avsAddress : string) (operatorSetId : Z) (members : list OperatorSetPeer) : OperatorSetPeers :=
  mkOperatorSetPeers operatorSetId (HexToAddress avsAddress) (Some <$> members).

Definition chain_ListKMSOperators (cc : ContractCaller) (avsAddress : string) (operatorSetId : Z) : res OperatorSetPeers :=
  members ← GetOperatorSetMembersWithPeering cc avsAddress operatorSetId; Ok (operator_set_peers avsAddress operatorSetId members).
#[export] Instance chain_fetcher : IPeeringDataFetcher ContractCaller := { ListKMSOperators := chain_ListKMSOperators }.

Record LocalPeeringDataFetcher := NewLocalPeeringDataFetcher { operatorPeers : list OperatorSetPeers }.
Definition local_ListKMSOperators (lpdf : LocalPeeringDataFetcher) (avsAddress : string) (operatorSetId : Z) : res OperatorSetPeers :=
  from_opt "operator set not found"
    (find (fun ops => bool_decide (Hex (AVSAddress ops) = avsAddress) && (OperatorSetId ops =? operatorSetId)) (operatorPeers lpdf)).
#[export] Instance local_fetcher : IPeeringDataFetcher LocalPeeringDataFetcher := { ListKMSOperators := local_ListKMSOperators }.

Record StubPeeringDataFetcher := NewStubPeeringDataFetcher { operators : option OperatorSetPeers }.
Definition stub_ListKMSOperators (s : StubPeeringDataFetcher) (avsAddress : string) (operatorSetId : Z) : res OperatorSetPeers :=
  Ok (default (mkOperatorSetPeers operatorSetId 0 []) (operators s)).
#[export] Instance stub_fetcher : IPeeringDataFetcher StubPeeringDataFetcher := { ListKMSOperators := stub_ListKMSOperators }.

(** What the node asks its fetcher for. *)
Definition node_operators {F} `{IPeeringDataFetcher F} (f : F) (avsAddress : string) (operatorSetId : Z) : res (list OperatorSetPeer) :=
  fetchCurrentOperators (Peers <$> ListKMSOperators f avsAddress operatorSetId).
End Fetchers.

(** ** Facts *)

Section PeeringFacts.
Context `{ChainLib} `{EthAddr}.
Implicit Types (cc : ContractCaller).

(** Collecting the details is reading them member by member. *)
Lemma collected_members cc avs set members peers :
  for_each (fun member allMembers => operatorSetInfo ← GetOperatorSetDetailsForOperator cc member avs set; Ok (allMembers ++ [operatorSetInfo])) members [] = Ok peers <->
  Forall2 (fun member peer => GetOperatorSetDetailsForOperator cc member avs set = Ok peer) members peers.
Proof.
  set (read := fun member allMembers => _). split; [intros (new & -> & Hf)%peers_collected; exact Hf|]. intros Hf.
  assert (Hacc : forall acc, for_each read members acc = Ok (acc ++ peers)%list); [|by apply (Hacc [])].
  induction Hf as [|m p ms ps Hm Hf IH]; intros acc; cbn [for_each]; [by rewrite app_nil_r|]. apply res_bind_ok. exists (acc ++ [p])%list.
  split; [by unfold read; rewrite Hm|]. by rewrite IH, <- app_assoc.
Qed.

(** The registries answer alike for two callers; only the order of the members may differ. *)
Record same_registries cc cc' avs set (members members' : list Address) : Prop := {
  sr_members : alm_GetMembers (ethclient cc) (allocationManager cc) (HexToAddress avs) set = Ok members;
  sr_members' : alm_GetMembers (ethclient cc') (allocationManager cc') (HexToAddress avs) set = Ok members';
  sr_perm : members ≡ₚ members';
  sr_details a : a ∈ members -> GetOperatorSetDetailsForOperator cc' a avs set = GetOperatorSetDetailsForOperator cc a avs set
}.

Lemma listed_members cc avs set members : (forall a, a ∈ members -> HexToAddress (Hex a) = a) ->
  alm_GetMembers (ethclient cc) (allocationManager cc) (HexToAddress avs) set = Ok members -> forall peers,
  GetOperatorSetMembersWithPeering cc avs set = Ok peers <-> Forall2 (fun member peer => GetOperatorSetDetailsForOperator cc member avs set = Ok peer) members peers.
Proof.
  intros Hhex Hm peers. unfold GetOperatorSetMembersWithPeering, GetOperatorSetMembers. rewrite Hm. cbn [wrap mbind res_bind]. rewrite <- list_fmap_compose.
  assert ((HexToAddress ∘ Hex) <$> members = members) as ->; [|apply collected_members].
  rewrite <- (list_fmap_id members) at 2. apply list_fmap_ext. intros i a Hi. apply Hhex. by eapply list_elem_of_lookup_2.
Qed.

Lemma details_address cc a avs set peer : GetOperatorSetDetailsForOperator cc a avs set = Ok peer -> OperatorAddress peer = a.
Proof. by intros [-> _]%details_ok. Qed.

Lemma addresses_members cc avs set members peers : Forall2 (fun member peer => GetOperatorSetDetailsForOperator cc member avs set = Ok peer) members peers ->
  OperatorAddress <$> peers = members.
Proof. induction 1 as [|m p ms ps Hm%details_address _ IH]; [done|]. cbn. by rewrite Hm, IH. Qed.

Lemma peers_sorted peers : StronglySorted (go_le (fun a b => addr_ltb (OperatorAddress a) (OperatorAddress b))) (sort_peers peers).
Proof.
  set (less := fun a b => addr_ltb (OperatorAddress a) (OperatorAddress b)).
  assert (Hle : forall a b, go_le less a b <-> addr_le (OperatorAddress a) (OperatorAddress b)) by done.
  assert (Total (go_le less)) by (intros a b; rewrite !Hle; apply addr_le_total).
  assert (Transitive (go_le less)) by (intros a b c; rewrite !Hle; apply addr_le_trans). by apply StronglySorted_merge_sort.
Qed.

(** Nodes agree on the operators.  Two nodes whose callers read the same registries, in
    whatever order the allocation manager lists the members, get the same operators in the
    same order, or both none; and the operators of a round are the members of the set, each
    once, in the order of their addresses. *)
Theorem same_operators cc cc' avs set members members' : same_registries cc cc' avs set members members' ->
  (forall a, a ∈ members -> HexToAddress (Hex a) = a) -> Forall valid_addr members -> forall ops,
  node_operators cc avs set = Ok ops ->
  node_operators cc' avs set = Ok ops /\ OperatorAddress <$> ops ≡ₚ members /\ NoDup members /\
  StronglySorted (go_le (fun a b => addr_ltb (OperatorAddress a) (OperatorAddress b))) ops.
Proof.
  intros [Hm Hm' Hp Hd] Hhex Hv ops Hops. unfold node_operators in *. apply fetch_ok in Hops as (l & Hl & Hnd & ->).
  cbn [ListKMSOperators chain_fetcher] in *. unfold chain_ListKMSOperators in *. destruct (GetOperatorSetMembersWithPeering cc avs set) as [peers|] eqn:Hpeers; [|done]. injection Hl as Hl.
  cbn in Hl. apply (inj (fmap Some)) in Hl as <-. rewrite (listed_members cc avs set members Hhex Hm) in Hpeers. pose proof Hpeers as Hf.
  pose proof (addresses_members _ _ _ _ _ Hpeers) as Haddr.
  destruct (Permutation_Forall2 Hp Hf) as (peers' & Hpp & Hf').
  assert (Hpeers' : GetOperatorSetMembersWithPeering cc' avs set = Ok peers').
  { apply (listed_members cc' avs set members'); [|done|].
    - intros a Ha. apply Hhex. by rewrite Hp.
    - assert (Hd' : forall a, a ∈ members' -> GetOperatorSetDetailsForOperator cc' a avs set = GetOperatorSetDetailsForOperator cc a avs set) by (intros a Ha; apply Hd; by rewrite Hp).
      clear -Hf' Hd'. induction Hf' as [|a peer ms ps Ha _ IH]; constructor; [rewrite Hd' by (by left); exact Ha|]. apply IH. intros b Hb. apply Hd'. by right. }
  rewrite Hpeers'. assert (Hperm : go_sort (fun a b => addr_ltb (OperatorAddress a) (OperatorAddress b)) peers = sort_peers peers') by (apply go_sort_by_addr_unique; [by rewrite Haddr|done|done]).
  split_and!; [|by rewrite <- Haddr; apply fmap_Permutation, go_sort_perm|by rewrite <- Haddr|apply peers_sorted].
  apply fetch_ok. exists peers'. split_and!; [done|by rewrite <- Hpp|exact Hperm].
Qed.
End PeeringFacts.

(** A table answers for an address only when it is asked for in the spelling of [Hex]: written in
    any other way, the address of a listed set is not found. *)
Lemma local_spelling `{ChainLib} `{EthAddr} table avsAddress operatorSetId peers :
  ListKMSOperators (NewLocalPeeringDataFetcher table) avsAddress operatorSetId = Ok peers -> avsAddress = Hex (AVSAddress peers) /\ peers ∈ table.
Proof.
  cbn. unfold local_ListKMSOperators. cbn [operatorPeers]. destruct (find _ table) as [ops|] eqn:Hf; [|done]. intros [= <-]. apply find_some in Hf as [Hin Hb%andb_true_iff].
  split; [|by apply list_elem_of_In]. destruct Hb as [Hb _]. by apply bool_decide_eq_true in Hb.
Qed.

(** ** Witness: two callers of the chain of [ContractCaller.v] *)

#[local] Existing Instances number_addr demo_chain.
Definition other_caller : ContractCaller :=
  match NewContractCaller (3000 : @Backend demo_chain) demo_tx_signer with Ok cc => cc | Err _ => demo_caller end.

Lemma same_operators_witness : exists ops, node_operators demo_caller "12" 7 = Ok ops /\ node_operators other_caller "12" 7 = Ok ops /\
  OperatorAddress <$> ops ≡ₚ [5; 6].
Proof.
  destruct (node_operators demo_caller "12" 7) as [ops|] eqn:Hops; [|vm_compute in Hops; discriminate]. exists ops. split; [reflexivity|].
  destruct (same_operators demo_caller other_caller "12" 7 [5; 6] [5; 6]) with (ops := ops) as (Ho & Hp & _); [| | |exact Hops|by split].
  - constructor; [reflexivity|reflexivity|reflexivity|]. intros a [->|[->|[]%not_elem_of_nil]%elem_of_cons]%elem_of_cons; vm_compute; reflexivity.
  - intros a [->|[->|[]%not_elem_of_nil]%elem_of_cons]%elem_of_cons; vm_compute; reflexivity.
  - repeat constructor; vm_compute; discriminate.
Defined.
