(* ===== verification/ChainFeed.v ===== *)
(** * From the chain to the node: [pkg/blockHandler], [pkg/persistence/chainpolleradapter]

    The poller hands blocks and decoded logs to the block handler, which queues them for the
    node's two listeners in channels of bounded capacity and drops what does not fit; it keeps
    its place in the node's own persistence through an adapter.  [BlockStore] is the part of
    the persistence interface that the adapter uses, with the contract its comments state.
    The theorems: what is accepted is handled once and in order, and the counter counts what
    was dropped; through the adapter every store that keeps the contract is a cursor of
    blocks, absent records being the poller's sentinel error. *)

From S2P Require Import Prelude Bytes Types Persistence NodeCore.

(** ** Channels

    A [select] with several ready cases takes any of them: [pick] chooses the [ctx.Done()]
    case when it is ready too.  [default] is taken when no case is ready. *)

Section Channel.
Context {A : Type}.

Definition capacity : nat := 100.

Inductive outcome := Sent | Cancelled | Dropped.

#[global] Instance outcome_eq_dec : EqDecision outcome.
Proof. solve_decision. Defined.

Definition try_send (pick done : bool) (x : A) (q : list A) : list A * outcome :=
  if (length q <? capacity)%nat
  then if done && pick then (q, Cancelled) else ((q ++ [x])%list, Sent)
  else (q, if done then Cancelled else Dropped).

Inductive received := Item (x : A) | Exit | Blocked.

Definition receive (pick done : bool) (q : list A) : list A * received :=
  match q with
  | x :: q' => if done && pick then (q, Exit) else (q', Item x)
  | [] => ([], if done then Exit else Blocked)
  end.
End Channel.
Arguments received A : clear implicits.

(** ** The block handler *)

Section BlockHandler.
Context {Block Log : Type}.

Record BlockHandler := mkBlockHandler {
  BlockChannel : list Block;
  LogChannel : list Log;
  droppedLogs : Z
}.

Definition NewBlockHandler : BlockHandler := mkBlockHandler [] [] 0.
Definition DroppedLogCount (h : BlockHandler) : Z := droppedLogs h.

Definition HandleBlock (pick done : bool) (block : Block) (h : BlockHandler) : BlockHandler * outcome :=
  let '(q, o) := try_send pick done block (BlockChannel h) in
  (mkBlockHandler q (LogChannel h) (droppedLogs h), o).

Definition HandleLog (pick done : bool) (logWithBlock : Log) (h : BlockHandler) : BlockHandler * outcome :=
  let '(q, o) := try_send pick done logWithBlock (LogChannel h) in
  (mkBlockHandler (BlockChannel h) q (match o with Dropped => uint64 (droppedLogs h + 1) | _ => droppedLogs h end), o).

Definition HandleReorgBlock (blockNumber : Z) (h : BlockHandler) : BlockHandler := h.

(** One round of the loops [ListenToChannel] and [ListenToLogChannel]. *)
Definition ListenToChannel (pick done : bool) (h : BlockHandler) : BlockHandler * received Block :=
  let '(q, r) := receive pick done (BlockChannel h) in (mkBlockHandler q (LogChannel h) (droppedLogs h), r).
Definition ListenToLogChannel (pick done : bool) (h : BlockHandler) : BlockHandler * received Log :=
  let '(q, r) := receive pick done (LogChannel h) in (mkBlockHandler (BlockChannel h) q (droppedLogs h), r).
End BlockHandler.
Arguments BlockHandler Block Log : clear implicits.

(** ** The block records of the persistence *)

Class BlockStore (P : Type) := {
  SaveBlockRecord : option BlockRecord -> P -> res P;
  GetLastProcessedBlockRecord : Z -> P -> res (option BlockRecord);
  GetBlockRecord : Z -> Z -> P -> res (option BlockRecord);
  DeleteBlockRecord : Z -> Z -> P -> res P
}.

(** ** The adapter *)

(** The poller's own record, and its errors: the sentinel, or what the store said. *)
Record poller_BlockRecord := mkPollerBlock {
  pb_Number : Z; pb_Hash : string; pb_ParentHash : string; pb_Timestamp : Z; pb_ChainId : Z
}.
Inductive poller_error := ErrNotFound | StoreError (e : string).

Definition toNode (block : option poller_BlockRecord) : option BlockRecord :=
  block ← block;
  Some (mkBlockRecord (pb_Number block) (pb_Hash block) (pb_ParentHash block) (pb_Timestamp block) (uint64 (pb_ChainId block))).
Definition fromNode (record : option BlockRecord) : option poller_BlockRecord :=
  record ← record;
  Some (mkPollerBlock (br_Number record) (br_Hash record) (br_ParentHash record) (br_Timestamp record) (uint64 (br_ChainId record))).

Section Adapter.
Context {P : Type} `{BlockStore P}.

(** [record == nil] is the sentinel; a record goes through [fromNode]. *)
Definition found (r : res (option BlockRecord)) : option poller_BlockRecord + poller_error :=
  match r with
  | Err e => inr (StoreError e)
  | Ok None => inr ErrNotFound
  | Ok (Some record) => inl (fromNode (Some record))
  end.

Definition GetLastProcessedBlock (chainId : Z) (p : P) : option poller_BlockRecord + poller_error :=
  found (GetLastProcessedBlockRecord (uint64 chainId) p).
Definition GetBlock (chainId blockNumber : Z) (p : P) : option poller_BlockRecord + poller_error :=
  found (GetBlockRecord (uint64 chainId) blockNumber p).
Definition SaveBlock (block : option poller_BlockRecord) (p : P) : res P := SaveBlockRecord (toNode block) p.
Definition DeleteBlock (chainId blockNumber : Z) (p : P) : res P := DeleteBlockRecord (uint64 chainId) blockNumber p.
(** The node owns the store. *)
Definition adapter_Close (p : P) : res P := Ok p.
End Adapter.

(** ** What the channels do *)

(** A send: what was handed in, how many waited, whether the context was done, what came of it. *)
Record send (A : Type) := mkSend { s_item : A; s_waiting : nat; s_done : bool; s_outcome : outcome }.
Arguments mkSend {A} s_item s_waiting s_done s_outcome.
Arguments s_item {A} s.
Arguments s_waiting {A} s.
Arguments s_done {A} s.
Arguments s_outcome {A} s.

Definition accepted {A} (sends : list (send A)) : list A := s_item <$> filter (fun s => s_outcome s = Sent) sends.
Definition dropped {A} (sends : list (send A)) : list (send A) := filter (fun s => s_outcome s = Dropped) sends.

(** A send is dropped when the channel is full and the context is not done, and only then. *)
Definition fair {A} (s : send A) : Prop :=
  match s_outcome s with
  | Sent => (s_waiting s < capacity)%nat
  | Cancelled => s_done s = true
  | Dropped => s_waiting s = capacity /\ s_done s = false
  end.

(** The channel [q] after [sends], of which [taken] were received. *)
Record conserves {A} (sends : list (send A)) (taken q : list A) : Prop := {
  kept_in_order : accepted sends = (taken ++ q)%list;
  within_capacity : (length q <= capacity)%nat;
  all_fair : Forall fair sends
}.

Section Events.
Context {Block Log : Type}.

Inductive feed_event :=
| BlockIn (pick done : bool) (b : Block)
| LogIn (pick done : bool) (l : Log)
| BlockOut (pick done : bool)
| LogOut (pick done : bool).

(** The handler with what went through it. *)
Record Feed := mkFeed {
  handler : BlockHandler Block Log;
  block_sends : list (send Block);
  blocks_handled : list Block;
  log_sends : list (send Log);
  logs_handled : list Log
}.

Definition taken {A} (r : received A) : list A := match r with Item x => [x] | _ => [] end.

Definition feed_step (f : Feed) (e : feed_event) : Feed :=
  let h := handler f in
  match e with
  | BlockIn pick done b =>
      let '(h', o) := HandleBlock pick done b h in
      mkFeed h' (block_sends f ++ [mkSend b (length (BlockChannel h)) done o])%list (blocks_handled f) (log_sends f) (logs_handled f)
  | LogIn pick done l =>
      let '(h', o) := HandleLog pick done l h in
      mkFeed h' (block_sends f) (blocks_handled f) (log_sends f ++ [mkSend l (length (LogChannel h)) done o])%list (logs_handled f)
  | BlockOut pick done =>
      let '(h', r) := ListenToChannel pick done h in
      mkFeed h' (block_sends f) (blocks_handled f ++ taken r)%list (log_sends f) (logs_handled f)
  | LogOut pick done =>
      let '(h', r) := ListenToLogChannel pick done h in
      mkFeed h' (block_sends f) (blocks_handled f) (log_sends f) (logs_handled f ++ taken r)%list
  end.

Definition feed (es : list feed_event) : Feed := foldl feed_step (mkFeed NewBlockHandler [] [] [] []) es.

Lemma accepted_snoc {A} (sends : list (send A)) s :
  accepted (sends ++ [s]) = (accepted sends ++ match s_outcome s with Sent => [s_item s] | _ => [] end)%list.
Proof.
  unfold accepted. rewrite filter_app, fmap_app. f_equal. rewrite filter_cons, filter_nil. by destruct (s_outcome s).
Qed.

Lemma dropped_snoc {A} (sends : list (send A)) s :
  length (dropped (sends ++ [s])) = (length (dropped sends) + match s_outcome s with Dropped => 1 | _ => 0 end)%nat.
Proof.
  unfold dropped. rewrite filter_app, length_app. f_equal. rewrite filter_cons, filter_nil. by destruct (s_outcome s).
Qed.

Lemma empty_conserves {A} : conserves (A := A) [] [] [].
Proof. split; [done|cbn; lia|constructor]. Qed.

Lemma send_conserves {A} pick done (x : A) sends tk q q' o : conserves sends tk q -> try_send pick done x q = (q', o) ->
  conserves (sends ++ [mkSend x (length q) done o]) tk q'.
Proof.
  intros [Hk Hc Hf]. unfold try_send. destruct (Nat.ltb_spec (length q) capacity) as [Hroom|Hfull].
  - destruct (done && pick) eqn:Hp; intros [= <- <-].
    + split; [by rewrite accepted_snoc, app_nil_r|done|]. apply Forall_app_2; [done|]. apply Forall_singleton. by apply andb_true_iff in Hp as [-> _].
    + split; [by rewrite accepted_snoc, app_assoc, Hk|rewrite length_app; cbn [length]; lia|].
      apply Forall_app_2; [done|]. by apply Forall_singleton.
  - intros [= <- <-]. split; [by rewrite accepted_snoc; destruct done; rewrite app_nil_r|done|].
    apply Forall_app_2; [done|]. apply Forall_singleton. destruct done; [done|]. split; [cbn [s_waiting]; lia|done].
Qed.

Lemma receive_conserves {A} pick done (sends : list (send A)) tk q q' r : conserves sends tk q -> receive pick done q = (q', r) ->
  conserves sends (tk ++ taken r) q'.
Proof.
  intros [Hk Hc Hf]. unfold receive. destruct q as [|x q].
  - intros [= <- <-]. rewrite app_nil_r in Hk. destruct done; split; cbn [taken]; rewrite ?app_nil_r; done.
  - destruct (done && pick); intros [= <- <-]; split; try done.
    + by rewrite app_nil_r.
    + by rewrite <- app_assoc.
    + cbn [length] in Hc. lia.
Qed.

(** What is handed to the block handler is handled once and in order: whatever the poller, the
    listeners and the contexts do, the blocks that were accepted are those the listener has
    handled followed by those that wait, and the same holds of the logs; at most a hundred of
    each wait; nothing is dropped but at a full channel with a live context, and the counter
    is the number of logs that were, so that when every send found room and a live context
    everything handed in was handled or waits. *)
Theorem feed_delivers (es : list feed_event) :
  let f := feed es in
  conserves (block_sends f) (blocks_handled f) (BlockChannel (handler f)) /\
  conserves (log_sends f) (logs_handled f) (LogChannel (handler f)) /\
  DroppedLogCount (handler f) = uint64 (Z.of_nat (length (dropped (log_sends f)))) /\
  (Forall (fun s => (s_waiting s < capacity)%nat /\ s_done s = false) (log_sends f) ->
   s_item <$> log_sends f = (logs_handled f ++ LogChannel (handler f))%list /\ DroppedLogCount (handler f) = 0).
Proof.
  cbv zeta. assert (Hinv : let f := feed es in conserves (block_sends f) (blocks_handled f) (BlockChannel (handler f)) /\
    conserves (log_sends f) (logs_handled f) (LogChannel (handler f)) /\
    DroppedLogCount (handler f) = uint64 (Z.of_nat (length (dropped (log_sends f))))).
  { unfold feed. cbv zeta. induction es as [|e es IH] using rev_ind; [by split_and!; [apply empty_conserves..|]|]. rewrite foldl_app. cbn [foldl].
    set (f := foldl feed_step _ es) in *. destruct IH as (Hb & Hl & Hd).
    destruct e as [pick done b|pick done l|pick done|pick done]; cbn [feed_step]; unfold HandleBlock, HandleLog, ListenToChannel, ListenToLogChannel.
    - destruct (try_send _ _ _ _) as [q o] eqn:Hs. cbn [handler block_sends blocks_handled log_sends logs_handled BlockChannel LogChannel]. split_and!; [by eapply send_conserves|done..].
    - destruct (try_send _ _ _ _) as [q o] eqn:Hs. cbn [handler block_sends blocks_handled log_sends logs_handled BlockChannel LogChannel]. split_and!; [done|by eapply send_conserves|].
      rewrite dropped_snoc. unfold DroppedLogCount in *. cbn [s_outcome droppedLogs]. destruct o; rewrite ?Nat.add_0_r; [done..|].
      rewrite Hd. unfold uint64. rewrite Z.add_mod_idemp_l by lia. f_equal. lia.
    - destruct (receive _ _ _) as [q r] eqn:Hs. cbn [handler block_sends blocks_handled log_sends logs_handled BlockChannel LogChannel]. split_and!; [by eapply receive_conserves|done..].
    - destruct (receive _ _ _) as [q r] eqn:Hs. cbn [handler block_sends blocks_handled log_sends logs_handled BlockChannel LogChannel]. split_and!; [done|by eapply receive_conserves|done]. }
  destruct Hinv as (Hb & Hl & Hd). split_and!; [done..|]. intros Hroom. destruct Hl as [Hk _ Hf].
  assert (Hsent : Forall (fun s => s_outcome s = Sent) (log_sends (feed es))).
  { apply Forall_forall. intros s Hs. rewrite Forall_forall in Hf, Hroom. specialize (Hf s Hs). destruct (Hroom s Hs) as [Hw Hdone].
    unfold fair in Hf. destruct (s_outcome s); [done|congruence|lia]. }
  rewrite Hd, <- Hk. unfold accepted, dropped. split.
  - by rewrite filter_all.
  - rewrite filter_none; [done|]. eapply Forall_impl; [exact Hsent|]. by intros s ->.
Qed.
End Events.

(** ** The cursor of the poller *)

(** What the comments of the interface promise: the records of a store, by chain and number,
    and a pointer for each chain to the number last saved, which deletion leaves alone. *)
Record Cursor (R : Type) := mkCursor { records : gmap (Z * Z) R; pointer : gmap Z Z }.
Arguments mkCursor {R} records pointer.
Arguments records {R} c.
Arguments pointer {R} c.

Section Cursor.
Context {R : Type} (chain_of number_of : R -> Z).

Definition cursor_save (r : R) (c : Cursor R) : Cursor R :=
  mkCursor (<[(chain_of r, number_of r) := r]> (records c)) (<[chain_of r := number_of r]> (pointer c)).
Definition cursor_delete (chainId number : Z) (c : Cursor R) : Cursor R := mkCursor (delete (chainId, number) (records c)) (pointer c).
Definition cursor_get (chainId number : Z) (c : Cursor R) : option R := records c !! (chainId, number).
Definition cursor_last (chainId : Z) (c : Cursor R) : option R := number ← pointer c !! chainId; cursor_get chainId number c.
End Cursor.

Class BlockStoreLaws (P : Type) `{BlockStore P} := {
  view : P -> Cursor BlockRecord;
  view_save r p p' : SaveBlockRecord (Some r) p = Ok p' -> view p' = cursor_save br_ChainId br_Number r (view p);
  view_save_nil p : is_ok (SaveBlockRecord None p) = false;
  view_delete c n p p' : DeleteBlockRecord c n p = Ok p' -> view p' = cursor_delete c n (view p);
  view_get c n p o : GetBlockRecord c n p = Ok o -> o = cursor_get c n (view p);
  view_last c p o : GetLastProcessedBlockRecord c p = Ok o -> o = cursor_last c (view p)
}.

(** The in-memory store keeps the contract. *)
#[export] Instance memory_blocks {Fr} : BlockStore (Memory.MemoryPersistence Fr) := {
  SaveBlockRecord record m := from_opt "cannot save nil BlockRecord" record ≫= fun record => Memory.SaveBlockRecord record m;
  GetLastProcessedBlockRecord := Memory.GetLastProcessedBlockRecord;
  GetBlockRecord := Memory.GetBlockRecord;
  DeleteBlockRecord := Memory.DeleteBlockRecord
}.

Lemma copy_block (o : option BlockRecord) : Memory.deepCopyBlockRecord <$> o = o.
Proof. by destruct o as [[]|]. Qed.

#[export] Instance memory_block_laws {Fr} : BlockStoreLaws (Memory.MemoryPersistence Fr).
Proof.
  refine {| view m := mkCursor (Memory.blockRecords m) (Memory.lastProcessedBlocks m) |}.
  - intros [] m m' [_ [= <-]]%Memory.open_ok. done.
  - done.
  - intros c n m m' [_ [= <-]]%Memory.open_ok. done.
  - intros c n m o [_ [= <-]]%Memory.open_ok. apply copy_block.
  - intros c m o [_ Ho]%Memory.open_ok. unfold cursor_last. cbn [pointer].
    destruct (_ !! c) as [n|]; injection Ho as <-; [apply copy_block|done].
Defined.

(** The operations of the poller, their answers, and the cursor the poller relies on. *)
Inductive poller_op := PSave (b : poller_BlockRecord) | PGet (chainId number : Z) | PLast (chainId : Z) | PDelete (chainId number : Z) | PClose.
Inductive poller_answer := Done | Found (b : option poller_BlockRecord) | Missing | Failed (e : string).

Definition answer_of (r : option poller_BlockRecord + poller_error) : poller_answer :=
  match r with inl b => Found b | inr ErrNotFound => Missing | inr (StoreError e) => Failed e end.
Definition presence (o : option poller_BlockRecord) : poller_answer := match o with Some b => Found (Some b) | None => Missing end.

Definition poller_op_ok (op : poller_op) : Prop :=
  match op with PSave b => is_uint64 (pb_ChainId b) | PGet c _ | PLast c | PDelete c _ => is_uint64 c | PClose => True end.

Definition spec_step (c : Cursor poller_BlockRecord) (op : poller_op) : Cursor poller_BlockRecord * poller_answer :=
  match op with
  | PSave b => (cursor_save pb_ChainId pb_Number b c, Done)
  | PGet chainId number => (c, presence (cursor_get chainId number c))
  | PLast chainId => (c, presence (cursor_last chainId c))
  | PDelete chainId number => (cursor_delete chainId number c, Done)
  | PClose => (c, Done)
  end.

Fixpoint run_ops {S} (step : S -> poller_op -> S * poller_answer) (s : S) (ops : list poller_op) : S * list poller_answer :=
  match ops with
  | [] => (s, [])
  | op :: ops => let '(s1, a) := step s op in let '(s2, l) := run_ops step s1 ops in (s2, a :: l)
  end.

Section Poller.
Context {P : Type} `{BlockStoreLaws P}.

Definition written (p : P) (r : res P) : P * poller_answer := match r with Ok p' => (p', Done) | Err e => (p, Failed e) end.

Definition adapter_step (p : P) (op : poller_op) : P * poller_answer :=
  match op with
  | PSave b => written p (SaveBlock (Some b) p)
  | PGet chainId number => (p, answer_of (GetBlock chainId number p))
  | PLast chainId => (p, answer_of (GetLastProcessedBlock chainId p))
  | PDelete chainId number => written p (DeleteBlock chainId number p)
  | PClose => written p (adapter_Close p)
  end.

Definition to_node (b : poller_BlockRecord) : BlockRecord :=
  mkBlockRecord (pb_Number b) (pb_Hash b) (pb_ParentHash b) (pb_Timestamp b) (pb_ChainId b).
(** The store holds the blocks of the poller. *)
Definition tracks (p : P) (c : Cursor poller_BlockRecord) : Prop :=
  records (view p) = to_node <$> records c /\ pointer (view p) = pointer c /\ map_Forall (fun _ b => is_uint64 (pb_ChainId b)) (records c).

Lemma found_presence r o : (forall b, o = Some b -> is_uint64 (pb_ChainId b)) -> (forall x, r = Ok x -> x = to_node <$> o) ->
  (exists e, answer_of (found r) = Failed e) \/ answer_of (found r) = presence o.
Proof.
  intros Ho Hr. destruct r as [x|e]; [|left; by exists e]. right. rewrite (Hr x eq_refl). destruct o as [b|]; [|done].
  cbn. rewrite uint64_small by by apply Ho. by destruct b.
Qed.

Lemma tracked_get p c chainId number : tracks p c -> cursor_get chainId number (view p) = to_node <$> cursor_get chainId number c /\
  (forall b, cursor_get chainId number c = Some b -> is_uint64 (pb_ChainId b)).
Proof.
  intros (Hr & _ & Hc). unfold cursor_get. rewrite Hr, lookup_fmap. split; [done|]. intros b Hb. by apply Hc in Hb.
Qed.

(** A step that does not fail answers as the cursor does and stays with it. *)
Lemma adapter_step_spec p c op p' a : tracks p c -> poller_op_ok op -> adapter_step p op = (p', a) ->
  (exists e, a = Failed e) \/ (tracks p' (spec_step c op).1 /\ a = (spec_step c op).2).
Proof.
  intros HT Hop Hs. destruct op as [b|ch n|ch|ch n|]; cbn [adapter_step poller_op_ok] in *.
  - unfold written, SaveBlock in Hs. destruct (SaveBlockRecord _ p) as [q|e] eqn:Hq; injection Hs as <- <-; [|eauto]. right. split; [|done].
    apply view_save in Hq. destruct HT as (Hr & Hp & Hc). unfold tracks. rewrite Hq. cbn. rewrite (uint64_small _ Hop), Hr, Hp. split_and!; [|done|].
    + by rewrite fmap_insert.
    + by apply map_Forall_insert_2.
  - injection Hs as <- <-. destruct (tracked_get p c ch n HT) as [Hg Hc].
    destruct (found_presence (GetBlockRecord (uint64 ch) n p) (cursor_get ch n c)) as [Hf|Hf]; [done| |by left|by right].
    intros x Hx%view_get. by rewrite Hx, uint64_small.
  - injection Hs as <- <-. assert (Hl : cursor_last ch (view p) = to_node <$> cursor_last ch c /\
      (forall b, cursor_last ch c = Some b -> is_uint64 (pb_ChainId b))).
    { unfold cursor_last. destruct HT as (Hr & Hp & Hc). rewrite Hp. destruct (pointer c !! ch) as [n|]; [|done]. by apply (tracked_get p c ch n). }
    destruct (found_presence (GetLastProcessedBlockRecord (uint64 ch) p) (cursor_last ch c)) as [Hf|Hf]; [by apply Hl| |by left|by right].
    intros x Hx%view_last. rewrite Hx, uint64_small by done. apply Hl.
  - unfold written, DeleteBlock in Hs. destruct (DeleteBlockRecord _ n p) as [q|e] eqn:Hq; injection Hs as <- <-; [|eauto]. right. split; [|done].
    apply view_delete in Hq. destruct HT as (Hr & Hp & Hc). unfold tracks. rewrite Hq. cbn. rewrite (uint64_small _ Hop), Hr, Hp. split_and!; [|done|].
    + by rewrite fmap_delete.
    + by apply map_Forall_delete.
  - injection Hs as <- <-. by right.
Qed.

(** Through the adapter every store that keeps the contract of the interface is the cursor of
    the poller: a program of saves, reads, deletions and closings that the store serves
    without failing gets the answers of the cursor, where an absent block, or a last block
    that was deleted, is the sentinel error, and closing changes nothing. *)
Theorem adapter_cursor (ops : list poller_op) (p : P) :
  view p = mkCursor ∅ ∅ -> Forall poller_op_ok ops ->
  let answers := (run_ops adapter_step p ops).2 in
  Forall (fun a => forall e, a <> Failed e) answers ->
  answers = (run_ops spec_step (mkCursor ∅ ∅) ops).2.
Proof.
  intros Hp. assert (HT : tracks p (mkCursor ∅ ∅)).
  { unfold tracks. rewrite Hp. cbn [records pointer]. split_and!; [by rewrite fmap_empty|done|apply map_Forall_empty]. }
  clear Hp. revert p HT. generalize (mkCursor (R := poller_BlockRecord) ∅ ∅). induction ops as [|op ops IH]; intros c p HT Hops; [done|].
  apply Forall_cons in Hops as [Hop Hops]. cbn [run_ops]. destruct (adapter_step p op) as [p1 a] eqn:Hs.
  apply (adapter_step_spec p c) in Hs; [|done..]. destruct (run_ops adapter_step p1 ops) as [p2 l] eqn:Hr. cbn [snd].
  intros [Ha Hl]%Forall_cons. destruct Hs as [[e He]|[HT1 ->]]; [by destruct (Ha e)|].
  specialize (IH (spec_step c op).1 p1 HT1 Hops). rewrite Hr in IH. cbn [snd] in IH.
  destruct (spec_step c op) as [c1 a1]. cbn [fst] in IH. destruct (run_ops spec_step c1 ops) as [c2 l2]. cbn [snd fst] in *. f_equal. by apply IH.
Qed.
End Poller.

(** ** Witness: the in-memory store, two chains, a deleted last block *)

Definition demo_block (chainId number : Z) : poller_BlockRecord := mkPollerBlock number "h" "p" 7 chainId.
Definition demo_poll : list poller_op :=
  [PLast 1; PSave (demo_block 1 10); PSave (demo_block 8453 3); PSave (demo_block 1 11); PLast 1; PDelete 1 11; PLast 1; PGet 1 10; PClose; PLast 8453].

Lemma adapter_cursor_witness :
  nth 6 (run_ops adapter_step (Memory.NewMemoryPersistence (Fr := Z)) demo_poll).2 Done = Missing /\
  (run_ops adapter_step (Memory.NewMemoryPersistence (Fr := Z)) demo_poll).2 = (run_ops spec_step (mkCursor ∅ ∅) demo_poll).2.
Proof.
  split; [vm_compute; reflexivity|]. apply (adapter_cursor demo_poll (Memory.NewMemoryPersistence (Fr := Z))).
  - reflexivity.
  - unfold demo_poll. repeat constructor; cbn; unfold is_uint64; lia.
  - vm_compute. repeat constructor; discriminate.
Defined.
