(* ===== verification/PlatformClient.v ===== *)
(** * Asking the platform: [pkg/clients/platformClient]

    The node's client of the platform: for a stack it signs a payload with the node's
    transport signer, dials the URL the chain names and returns the release the platform
    deployed.  The generated gRPC client and the dialer are parameters.  [platform_lookup] is
    what the secrets endpoint gets of it ([Secrets]); the theorem follows an authorisation
    from the endpoint to the signed question and the URL it went to ([Platform], [Transport]). *)

From S2P Require Import Prelude Bytes Types Fr Gnark Toy Messages GoText Platform Attestation Secrets Transport.
From Stdlib Require Import Ascii.

Record ReleasePayload := mkReleasePayload { rp_FromOperatorAddress : Address; rp_StackID : string; rp_Timestamp : Z }.

(** [Apps] are the apps of the answer; [App] is the record the endpoint reads. *)
Record platform_Release := mkPlatformRelease { pr_StackID : string; pr_Version : Z; pr_ManifestDigest : string; pr_Apps : list App }.

(** JSON, the dialer, and the generated client on a connection: a release or a status. *)
Class PlatformLib := {
  marshal_release_payload : ReleasePayload -> res bytes;
  ClientConn : Type;
  kmsv1_GetLatestDeployedRelease : ClientConn -> AuthenticatedMessage -> platform_Release + grpc_code
}.

Section PlatformClient.
Context `{PlatformLib}.

(** The URL provider and the clock are their values at the call. *)
Record client := mkPlatformClient {
  urlProvider : string;
  operatorAddress : Address;
  pc_signer : ITransportSigner;
  nowUnix : Z;
  dial : string -> res ClientConn
}.

Definition buildAuthenticatedMessage (signer : ITransportSigner) (operatorAddress : Address) (stackID : string) (nowUnix : Z) : res (bytes * bytes * bytes) :=
  let rp := mkReleasePayload operatorAddress stackID nowUnix in
  payload ← wrap "marshal release payload" (marshal_release_payload rp);
  signed ← wrap "sign release payload" (CreateAuthenticatedMessage signer payload);
  Ok (Payload signed, Hash signed, Signature signed).

(** An error that carries no status has the code of an unknown one. *)
Definition GetLatestDeployedRelease (c : client) (stackID : string) : platform_Release + platform_error :=
  let url := TrimSpace (urlProvider c) in
  if bool_decide (url = ""%string) then inr ErrPlatformURLNotConfigured else
  match buildAuthenticatedMessage (pc_signer c) (operatorAddress c) stackID (nowUnix c) with
  | Err _ => inr (StatusError OtherCode)
  | Ok (payload, hash, sig) =>
      match wrap "dial platform" (dial c url) with
      | Err _ => inr (StatusError OtherCode)
      | Ok conn =>
          match kmsv1_GetLatestDeployedRelease conn (mkAuthenticatedMessage payload hash sig) with
          | inr code => inr (StatusError code)
          | inl resp => inl (mkPlatformRelease (pr_StackID resp) (pr_Version resp) (pr_ManifestDigest resp)
                               ((fun a => mkApp (app_Name a) (Image a)) <$> pr_Apps resp))
          end
      end
  end.

(** What [authorizeViaPlatform] reads of the answer. *)
Definition platform_lookup (c : client) (stackID : string) : list App + platform_error :=
  match GetLatestDeployedRelease c stackID with inl r => inl (pr_Apps r) | inr e => inr e end.
End PlatformClient.

(** ** The question that was asked *)

(** The JSON reader of the platform. *)
Class PlatformLaws `{PlatformLib} := {
  json_release_payload : bytes -> res ReleasePayload;
  payload_round rp b : marshal_release_payload rp = Ok b -> json_release_payload b = Ok rp
}.

Section Question.
Context `{Gnark} `{SignerLib} `{SigLib} `{PlatformLaws}.

(** The platform was asked for the stack: at [url], with a message that passes the
    verification against [me] and says who asks, for what and when; it answered [resp]. *)
Definition asked (c : client) (me : OperatorSetPeer) (stackID url : string) (resp : platform_Release) : Prop :=
  exists conn m, dial c url = Ok conn /\ kmsv1_GetLatestDeployedRelease conn m = inl resp /\
    verifyMessage m me = Ok tt /\ json_release_payload (Payload m) = Ok (mkReleasePayload (operatorAddress c) stackID (nowUnix c)).

Lemma release_asked c me stackID r : speaks_for (pc_signer c) me -> GetLatestDeployedRelease c stackID = inl r ->
  TrimSpace (urlProvider c) <> ""%string /\ exists resp, asked c me stackID (TrimSpace (urlProvider c)) resp /\ pr_Apps r = pr_Apps resp.
Proof.
  intros Hme. unfold GetLatestDeployedRelease. cbv zeta. case_bool_decide as Hu; [done|].
  destruct (buildAuthenticatedMessage _ _ _ _) as [[[payload hash] sig]|] eqn:Hb; [|done].
  destruct (dial c (TrimSpace (urlProvider c))) as [conn|] eqn:Hd; cbn [wrap]; [|done].
  destruct (kmsv1_GetLatestDeployedRelease _ _) as [resp|] eqn:Hk; [|done]. intros [= <-]. split; [done|]. exists resp. cbn [pr_Apps].
  split; [|rewrite (list_fmap_ext _ id); [apply list_fmap_id|by intros ? [] _]].
  unfold buildAuthenticatedMessage in Hb. apply res_bind_ok in Hb as (p & Hp%wrap_ok & Hb). apply res_bind_ok in Hb as (m & Hm%wrap_ok & [= <- <- <-]).
  destruct (Hme p m Hm) as [Hpay Hv]. exists conn, m. rewrite Hpay. split_and!; [done|by destruct m|done|by apply payload_round].
Qed.

(** What the platform authorises it was asked for: when the secrets endpoint of a node finds an
    image authorised by the platform, whatever the chain made of the platform's URL before, the
    URL that was dialled is the one last accepted from the chain and passes the validation of
    platform URLs, the question was a message that verifies as this operator's and names the
    operator, the stack and the time, and the answer lists an application whose image has the
    digest of the attestation. *)
Theorem platform_authorisation_asked (us : list url_update) (c : client) (me : OperatorSetPeer) (env : SecretsEnv)
    (stackID : string) (claims : AttestationClaims) :
  urlProvider c = foldl update_url "" us -> speaks_for (pc_signer c) me -> platformClient env = Some (platform_lookup c) ->
  authorizeViaPlatform env stackID claims = None ->
  isSafePlatformURL (urlProvider c) = true /\
  exists resp app pre, asked c me stackID (TrimSpace (urlProvider c)) resp /\ app ∈ pr_Apps resp /\
    chars_of (Image app) = (pre ++ "@"%char :: chars_of (claims_ImageDigest claims))%list /\ full_digest (chars_of (claims_ImageDigest claims)).
Proof.
  intros Hurl Hme Henv Hauth. apply authorizeViaPlatform_ok in Hauth as (lookup & apps & app & pre & Hl & Ha & Hin & Him & Hd).
  rewrite Henv in Hl. injection Hl as <-. unfold platform_lookup in Ha. destruct (GetLatestDeployedRelease c stackID) as [r|] eqn:Hr; [|done]. injection Ha as <-.
  apply (release_asked c me) in Hr as (Hne & resp & Hasked & Happs); [|done]. split.
  - destruct (cached_url_safe us) as [He|Hs]; [|by rewrite Hurl]. rewrite <- Hurl in He. by rewrite He in Hne.
  - exists resp, app, pre. by rewrite <- Happs.
Qed.
End Question.

(** ** Witness: the URL of an event, one application *)

#[local] Existing Instances toy97 toy97_laws Messages.toy_sigs Transport.key_signers.
#[local] Instance demo_platform : PlatformLib := {
  marshal_release_payload rp := Ok (rp_FromOperatorAddress rp :: rp_Timestamp rp :: text_bytes (chars_of (rp_StackID rp)));
  ClientConn := string;
  kmsv1_GetLatestDeployedRelease conn m :=
    if bool_decide (conn = "kms.example:443"%string)
    then inl (mkPlatformRelease "stack-1" 3 "" [mkApp "web" ("ghcr.io/web@sha256:" +:+ string_of (repeat "a"%char 64))])
    else inr Unavailable
}.
#[local] Instance demo_platform_laws : PlatformLaws.
Proof.
  refine {| json_release_payload b := match b with
    | from :: ts :: text => Ok (mkReleasePayload from (string_of (bytes_text text)) ts) | _ => Err "EOF" end |}.
  intros [from id ts] b [= <-]. cbn [rp_FromOperatorAddress rp_Timestamp rp_StackID]. rewrite bytes_text_bytes. unfold string_of, chars_of.
  by rewrite String.string_of_list_ascii_of_string.
Defined.

Definition demo_updates : list url_update := [FromEvent (Some ("AvsConfigSet"%string, Some (Some " kms.example:443 "%string))); FromEvent None].
Definition demo_asker : client := mkPlatformClient (foldl update_url "" demo_updates) 2 (demo_signer 2) 1700000000 (fun url => Ok url).
Definition platform_claims : AttestationClaims :=
  mkAttestationClaims "app" ("sha256:" +:+ string_of (repeat "a"%char 64)) "" "" 0 0 [] (mkContainerPolicy [] [] ∅ ∅ "") [] "".
Definition platform_env : SecretsEnv :=
  mkSecretsEnv 0 ∅ (fun _ => Err "execution reverted") (fun _ => Err "execution reverted") (Some (platform_lookup demo_asker)) [].

Lemma platform_authorisation_asked_witness : isSafePlatformURL (urlProvider demo_asker) = true /\
  exists resp app pre, asked demo_asker (toy_peer 2) "stack-1" (TrimSpace (urlProvider demo_asker)) resp /\ app ∈ pr_Apps resp /\
    chars_of (Image app) = (pre ++ "@"%char :: chars_of (claims_ImageDigest platform_claims))%list /\ full_digest (chars_of (claims_ImageDigest platform_claims)).
Proof.
  apply (platform_authorisation_asked demo_updates demo_asker (toy_peer 2) platform_env "stack-1" platform_claims).
  - reflexivity.
  - apply demo_speaks.
  - reflexivity.
  - vm_compute. reflexivity.
Defined.
