(* ===== verification/Web3Client.v ===== *)
(** * The remote signer: [pkg/clients/web3signer]

    The client of the Web3Signer service: its configuration with TLS, JSON-RPC with a counter
    of request ids, the REST endpoints for raw signatures and keys, and the wait for a key
    after a reload.  The service answers from the history of what was sent; JSON, PEM and TLS
    are parameters.  The theorems: requests have ids of their own and a signature is the
    result of the answer to its request; TLS is what was configured; the wait for a key ends
    with the key listed or with an error. *)

From S2P Require Import Prelude Bytes GoText NodeCore Attestation Config.
From Stdlib Require Import Ascii.

(** ** Configuration *)

Record TLSConfig := mkTLSConfig { CACert : string; ClientCert : string; ClientKey : string; InsecureSkipVerify : bool }.
(** The timeout in seconds. *)
Record w3_Config := mkW3Config { BaseURL : string; Timeout : Z; TLS : option TLSConfig }.

Definition DefaultConfig : w3_Config := mkW3Config "http://localhost:9000" 30 None.

Definition is_https (url : string) : bool := HasPrefix (chars_of url) (chars_of "https://").

Definition NewConfigWithTLS (baseURL caCert clientCert clientKey : string) : w3_Config :=
  mkW3Config baseURL (Timeout DefaultConfig)
    (if is_https baseURL && negb (bool_decide (caCert = "") && bool_decide (clientCert = "") && bool_decide (clientKey = ""))
     then Some (mkTLSConfig caCert clientCert clientKey false) else None).

(** [crypto/x509] and [crypto/tls]. *)
Class TlsLib := {
  CertPool : Type;
  AppendCertsFromPEM : string -> option CertPool;
  Certificate : Type;
  X509KeyPair : string -> string -> res Certificate
}.

(** The fields of [tls.Config] that are set; no [RootCAs] are those of the system. *)
Record tls_Config `{TlsLib} := mkTlsConfig { SkipVerify : bool; RootCAs : option CertPool; Certificates : list Certificate }.
(** [http.Client]; without a TLS configuration, the defaults. *)
Record http_Client `{TlsLib} := mkHttpClient { http_Timeout : Z; TLSClientConfig : option tls_Config }.
Record w3_Client `{TlsLib} := mkW3Client { httpClient : http_Client; w3_config : w3_Config }.

Section Construction.
Context `{TlsLib}.

Definition buildTLSConfig (tlsConfig : TLSConfig) : res tls_Config :=
  roots ← (if bool_decide (CACert tlsConfig = "") then Ok None
           else pool ← from_opt "failed to parse CA certificate" (AppendCertsFromPEM (CACert tlsConfig)); Ok (Some pool));
  certs ← (if negb (bool_decide (ClientCert tlsConfig = "")) && negb (bool_decide (ClientKey tlsConfig = ""))
           then clientCert ← wrap "failed to load client certificate and key" (X509KeyPair (ClientCert tlsConfig) (ClientKey tlsConfig)); Ok [clientCert]
           else if negb (bool_decide (ClientCert tlsConfig = "")) || negb (bool_decide (ClientKey tlsConfig = ""))
           then Err "both client certificate and key must be provided for mutual TLS" else Ok []);
  Ok (mkTlsConfig _ (InsecureSkipVerify tlsConfig) roots certs).

Definition createHTTPClient (cfg : w3_Config) : res http_Client :=
  tls ← (if is_https (BaseURL cfg)
         then match TLS cfg with
              | Some tls => tlsConfig ← wrap "failed to build TLS config" (buildTLSConfig tls); Ok (Some tlsConfig)
              | None => Ok (Some (mkTlsConfig _ false None []))
              end
         else Ok None);
  Ok (mkHttpClient _ (Timeout cfg) tls).

Definition w3_NewClient (cfg : option w3_Config) (logger : bool) : res w3_Client :=
  cfg ← from_opt "cfg cannot be nil" cfg;
  _ ← fail_if (negb logger) "logger cannot be nil";
  httpClient ← wrap "failed to create HTTP client" (createHTTPClient cfg);
  Ok (mkW3Client _ httpClient cfg).

Definition NewWeb3SignerClientFromRemoteSignerConfig (cfg : option RemoteSignerConfig) (logger : bool) : res w3_Client :=
  w3_NewClient (Some (match cfg with
                      | Some cfg => NewConfigWithTLS (rsc_Url cfg) (rsc_CACert cfg) (rsc_Cert cfg) (rsc_Key cfg)
                      | None => DefaultConfig
                      end)) logger.

Definition SetHttpClient (client : http_Client) (c : w3_Client) : w3_Client := mkW3Client _ client (w3_config c).
End Construction.

(** ** Requests *)

(** A parameter of a call: a string, an object of strings, or any other value. *)
Inductive rpc_param (V : Type) := PString (s : string) | PObject (fields : gmap string string) | PValue (v : V).
Arguments PString {V} s.
Arguments PObject {V} fields.
Arguments PValue {V} v.

Record JSONRPCRequest (V : Type) := mkRpcRequest { Method : string; Params : option (list (rpc_param V)); rpc_ID : Z }.
Arguments mkRpcRequest {V} Method Params rpc_ID.
Arguments Method {V} j.
Arguments Params {V} j.
Arguments rpc_ID {V} j.
Record JSONRPCError := mkRpcError { Code : Z; Message : string }.
Record JSONRPCResponse (V : Type) := mkRpcResponse { Result : option V; rpc_Error : option JSONRPCError; resp_ID : Z }.
Arguments mkRpcResponse {V} Result rpc_Error resp_ID.
Arguments Result {V} j.
Arguments rpc_Error {V} j.
Arguments resp_ID {V} j.

(** [encoding/json]. *)
Class RpcLib := {
  JsonValue : Type;
  marshal_rpc : JSONRPCRequest JsonValue -> res bytes;
  unmarshal_rpc : bytes -> res (JSONRPCResponse JsonValue);
  marshal_value : JsonValue -> res bytes;
  unmarshal_string : bytes -> res string;
  unmarshal_strings : bytes -> res (list string);
  marshal_sign : gmap string string -> res bytes
}.

(** What goes over the wire, and the seconds waited. *)
Inductive wire_event := Request (method url : string) (body : bytes) | Tick.

(** The answer to a request, from all that went before: an error, or a status and a body that
    may fail to be read. *)
Definition Service : Type := list wire_event -> wire_event -> res (Z * res bytes).

(** The counter of the client and its history. *)
Record Wire := mkWire { requestID : Z; history : list wire_event }.
Notation W3 := (SM Wire).

Definition http_Do (svc : Service) (method url : string) (body : bytes) : W3 (res (Z * res bytes)) := fun w =>
  let e := Request method url body in (mkWire (requestID w) (history w ++ [e])%list, Ok (svc (history w) e)).
Definition tick : W3 unit := sm_modify (fun w => mkWire (requestID w) (history w ++ [Tick])%list).

Definition TrimSuffix_slash (s : string) : string :=
  match rev (chars_of s) with
  | c :: l => if Ascii.eqb c "/" then string_of (rev l) else s
  | [] => s
  end.

(** [strings.Trim] with the double quote. *)
Fixpoint drop_dquotes (l : list ascii) : list ascii :=
  match l with c :: l' => if Ascii.eqb c (byte 34) then drop_dquotes l' else l | [] => [] end.
Definition Trim_dquotes (s : string) : string := string_of (rev (drop_dquotes (rev (drop_dquotes (chars_of s))))).

Section Calls.
Context `{TlsLib} `{RpcLib}.

(** [&Web3SignerError{Code: statusCode, ...}] *)
Definition handleHTTPError {A} (statusCode : Z) (responseData : bytes) : res A := Err "Web3Signer error %d: HTTP error %d: %s".

(** [result] is the zero value and the decoder of its type. *)
Definition makeJSONRPCRequest {A} (svc : Service) (c : w3_Client) (method : string) (params : option (list (rpc_param JsonValue)))
    (zero : A) (unmarshal : bytes -> res A) : W3 A :=
  _ ← sm_modify (fun w => mkWire (int64 (requestID w + 1)) (history w));
  w ← sm_get;
  requestData ← sm_lift (wrap "failed to marshal JSON-RPC request" (marshal_rpc (mkRpcRequest method params (requestID w))));
  let url := TrimSuffix_slash (BaseURL (w3_config c)) in
  resp ← http_Do svc "POST" url requestData;
  '(status, body) ← sm_lift (wrap "JSON-RPC request failed" resp);
  responseData ← sm_lift (wrap "failed to read response body" body);
  if status >=? 400 then sm_lift (handleHTTPError status responseData) else
  response ← sm_lift (wrap "failed to unmarshal JSON-RPC response" (unmarshal_rpc responseData));
  match rpc_Error response with
  | Some _ => sm_fail "Web3Signer error %d: %s"
  | None =>
      match Result response with
      | None => mret zero
      | Some result =>
          resultData ← sm_lift (wrap "failed to marshal result" (marshal_value result));
          sm_lift (wrap "failed to unmarshal result" (unmarshal resultData))
      end
  end.

Definition EthAccounts (svc : Service) (c : w3_Client) : W3 (list string) :=
  sm_wrap "failed to get accounts" (makeJSONRPCRequest svc c "eth_accounts" None [] unmarshal_strings).
(** The object is given the sender's field. *)
Definition EthSignTransaction (svc : Service) (c : w3_Client) (from : string) (transaction : gmap string string) : W3 string :=
  sm_wrap "failed to sign transaction" (makeJSONRPCRequest svc c "eth_signTransaction" (Some [PObject (<["from"%string := from]> transaction)]) ""%string unmarshal_string).
Definition EthSign (svc : Service) (c : w3_Client) (account data : string) : W3 string :=
  sm_wrap "failed to sign data" (makeJSONRPCRequest svc c "eth_sign" (Some [PString account; PString data]) ""%string unmarshal_string).
Definition EthSignTypedData (svc : Service) (c : w3_Client) (account : string) (typedData : JsonValue) : W3 string :=
  sm_wrap "failed to sign typed data" (makeJSONRPCRequest svc c "eth_signTypedData" (Some [PString account; PValue typedData]) ""%string unmarshal_string).
Definition ListPublicKeys (svc : Service) (c : w3_Client) : W3 (list string) := EthAccounts svc c.
Definition Sign (svc : Service) (c : w3_Client) (account data : string) : W3 string := EthSign svc c account data.

Definition SignRaw (svc : Service) (c : w3_Client) (identifier : string) (data : bytes) : W3 string :=
  let dataHex := ("0x" +:+ string_of (hex_EncodeToString data))%string in
  payloadBytes ← sm_lift (wrap "failed to marshal request payload" (marshal_sign {["type"%string := "MESSAGE"%string; "data"%string := dataHex]}));
  let url := (TrimSuffix_slash (BaseURL (w3_config c)) +:+ "/api/v1/eth1/sign/" +:+ identifier)%string in
  resp ← http_Do svc "POST" url payloadBytes;
  '(status, body) ← sm_lift (wrap "REST API request failed" resp);
  responseData ← sm_lift (wrap "failed to read response body" body);
  if status >=? 400 then sm_lift (handleHTTPError status responseData) else
  mret (Trim_dquotes (TrimSpace (string_of (bytes_text responseData)))).

(** The request has no body; the body is returned only with a status below 400. *)
Definition makeHttpRequest (svc : Service) (c : w3_Client) (method path : string) : W3 bytes :=
  let url := (TrimSuffix_slash (BaseURL (w3_config c)) +:+ "/" +:+ TrimPrefix path "/")%string in
  resp ← http_Do svc method url [];
  '(status, body) ← sm_lift (wrap "JSON-RPC request failed" resp);
  responseData ← sm_lift (wrap "failed to read response body" body);
  if status >=? 400 then sm_lift (handleHTTPError status responseData) else mret responseData.

Definition ReloadKeys (svc : Service) (c : w3_Client) : W3 unit := _ ← makeHttpRequest svc c "POST" "/reload"; mret tt.
Definition ListAllPublicKeys (svc : Service) (c : w3_Client) : W3 (list string) :=
  data ← sm_wrap "failed to list public keys" (makeHttpRequest svc c "GET" "/api/v1/eth1/publicKeys");
  sm_lift (wrap "failed to unmarshal public keys" (unmarshal_strings data)).

(** The loop over the ticker; [rounds] ticks are taken before the timeout of 30 seconds is. *)
Fixpoint wait_for_key (svc : Service) (c : w3_Client) (publicKey : string) (rounds : nat) : W3 unit :=
  match rounds with
  | O => sm_fail "timeout waiting for public key %s"
  | S rounds =>
      _ ← tick;
      accounts ← sm_wrap "failed to list accounts" (ListAllPublicKeys svc c);
      if bool_decide (accounts = []) then wait_for_key svc c publicKey rounds
      else if negb (bool_decide (publicKey ∈ accounts)) then wait_for_key svc c publicKey rounds
      else mret tt
  end.
Definition ReloadKeysAndWaitForPublicKey (svc : Service) (c : w3_Client) (publicKey : string) (rounds : nat) : W3 unit :=
  _ ← sm_wrap "failed to reload keys" (ReloadKeys svc c);
  wait_for_key svc c publicKey rounds.
End Calls.

(** ** Calls and their answers *)

(** The service's reader of requests. *)
Class RpcLaws `{RpcLib} := {
  read_rpc : bytes -> res (JSONRPCRequest JsonValue);
  rpc_round q b : marshal_rpc q = Ok b -> read_rpc b = Ok q
}.

Section CallFacts.
Context `{TlsLib} `{RpcLaws} (svc : Service) (c : w3_Client).
Let url := TrimSuffix_slash (BaseURL (w3_config c)).

(** The answer that [body], with [status], gives to a call. *)
Definition answers_call {A} (zero : A) (unmarshal : bytes -> res A) (status : Z) (body : bytes) (a : A) : Prop :=
  status < 400 /\ exists response, unmarshal_rpc body = Ok response /\ rpc_Error response = None /\
    match Result response with None => a = zero | Some v => exists d, marshal_value v = Ok d /\ unmarshal d = Ok a end.

Lemma rpc_call {A} m p (zero : A) um w w' r : makeJSONRPCRequest svc c m p zero um w = (w', r) ->
  requestID w' = int64 (requestID w + 1) /\
  (history w' = history w /\ is_ok r = false \/
   exists data, marshal_rpc (mkRpcRequest m p (requestID w')) = Ok data /\ history w' = (history w ++ [Request "POST" url data])%list /\
     forall a, r = Ok a -> exists status body, svc (history w) (Request "POST" url data) = Ok (status, Ok body) /\ answers_call zero um status body a).
Proof.
  unfold makeJSONRPCRequest, http_Do. sm_steps. cbn [requestID history].
  destruct (marshal_rpc _) as [data|e] eqn:Hm; cbn [wrap]; [|intros [= <- <-]; split; [done|by left]].
  fold url. destruct (svc (history w) (Request "POST" url data)) as [[status body]|e] eqn:Hs; cbn [wrap].
  2: { intros [= <- <-]. split; [done|]. right. exists data. cbn [requestID]. by rewrite Hm. }
  assert (Hgo : forall (k : res A), (forall a, k = Ok a -> exists b, body = Ok b /\ answers_call zero um status b a) ->
    (mkWire (int64 (requestID w + 1)) (history w ++ [Request "POST" url data]), k) = (w', r) ->
    requestID w' = int64 (requestID w + 1) /\
    (history w' = history w /\ is_ok r = false \/
     exists data0, marshal_rpc (mkRpcRequest m p (requestID w')) = Ok data0 /\ history w' = (history w ++ [Request "POST" url data0])%list /\
       forall a, r = Ok a -> exists status0 body0, svc (history w) (Request "POST" url data0) = Ok (status0, Ok body0) /\ answers_call zero um status0 body0 a)).
  { intros k Hk [= <- <-]. split; [done|]. right. exists data. cbn [requestID history]. rewrite Hm. split_and!; [done..|].
    intros a Ha. destruct (Hk a Ha) as (b & -> & Hb). by exists status, b. }
  destruct body as [body|e]; cbn [wrap]; [|by apply Hgo]. destruct (Z.geb_spec status 400) as [Hst|Hst]; [by apply Hgo|].
  destruct (unmarshal_rpc body) as [resp|e] eqn:Hu; cbn [wrap]; [|by apply Hgo]. destruct (rpc_Error resp) eqn:He; [by apply Hgo|].
  destruct (Result resp) as [v|] eqn:Hv.
  - destruct (marshal_value v) as [d|] eqn:Hd; cbn [wrap]; [|by apply Hgo]. apply Hgo. intros a [= Ha%wrap_ok]. exists body. split; [done|]. split; [lia|].
    exists resp. rewrite Hv. eauto.
  - apply Hgo. intros a [= <-]. exists body. split; [done|]. split; [lia|]. exists resp. by rewrite Hv.
Qed.

(** A transaction signature is the answer to its own request: the call posts once, with the
    transaction and the sender's address under an id that no earlier call had, and returns
    without an error only when the answer has a status below 400 and no JSON-RPC error; what it
    returns is then the result of that answer, or the empty string when the answer has no
    result. *)
Theorem signature_answered (from : string) (transaction : gmap string string) (w w' : Wire) (s : string) :
  EthSignTransaction svc c from transaction w = (w', Ok s) ->
  exists data status body,
    history w' = (history w ++ [Request "POST" url data])%list /\
    read_rpc data = Ok (mkRpcRequest "eth_signTransaction" (Some [PObject (<["from"%string := from]> transaction)]) (requestID w')) /\
    requestID w' = int64 (requestID w + 1) /\
    svc (history w) (Request "POST" url data) = Ok (status, Ok body) /\
    answers_call ""%string unmarshal_string status body s.
Proof.
  unfold EthSignTransaction, sm_wrap. destruct (makeJSONRPCRequest _ _ _ _ _ _ _) as [w1 r] eqn:Hc. intros [= <- Hr%wrap_ok]. subst r.
  apply rpc_call in Hc as (Hid & [[_ Hr]|(data & Hm & Hh & Ha)]); [done|]. destruct (Ha s eq_refl) as (status & body & Hs & Hok).
  exists data, status, body. split_and!; try done. by apply rpc_round.
Qed.

(** *** The ids of a run of calls *)

Inductive rpc_op :=
| OpAccounts
| OpSignTransaction (from : string) (transaction : gmap string string)
| OpSign (account data : string)
| OpSignTypedData (account : string) (typedData : JsonValue).

Definition rpc_do (op : rpc_op) : W3 unit :=
  match op with
  | OpAccounts => _ ← EthAccounts svc c; mret tt
  | OpSignTransaction from t => _ ← EthSignTransaction svc c from t; mret tt
  | OpSign account data => _ ← EthSign svc c account data; mret tt
  | OpSignTypedData account v => _ ← EthSignTypedData svc c account v; mret tt
  end.
(** Failed calls are followed by the next. *)
Definition rpc_run (ops : list rpc_op) (w : Wire) : Wire := foldl (fun w op => (rpc_do op w).1) w ops.

Definition posted_id (e : wire_event) : option Z :=
  match e with
  | Request _ _ body => match read_rpc body with Ok q => Some (rpc_ID q) | Err _ => None end
  | Tick => None
  end.

Lemma rpc_do_posts op w : requestID (rpc_do op w).1 = int64 (requestID w + 1) /\
  exists es, history (rpc_do op w).1 = (history w ++ es)%list /\ omap posted_id es ⊆+ [requestID (rpc_do op w).1].
Proof.
  assert (Hgo : forall A m p (zero : A) um msg, let w' := ((_ ← sm_wrap msg (makeJSONRPCRequest svc c m p zero um); mret tt) w : Wire * res unit).1 in
    requestID w' = int64 (requestID w + 1) /\ exists es, history w' = (history w ++ es)%list /\ omap posted_id es ⊆+ [requestID w']).
  { intros A m p zero um msg. unfold sm_wrap, mbind, sm_bind. destruct (makeJSONRPCRequest _ _ _ _ _ _ w) as [w1 r] eqn:Hc.
    apply rpc_call in Hc as (Hid & Hcase).
    cbv zeta. destruct (wrap msg r); cbn [fst]; (split; [done|]); destruct Hcase as [[Hh _]|(data & Hm & Hh & _)].
    all: try (exists []; split; [by rewrite app_nil_r|apply submseteq_nil_l]).
    all: exists [Request "POST" url data]; split; [done|]; cbn [omap list_omap posted_id]; by rewrite (rpc_round _ _ Hm). }
  destruct op; apply Hgo.
Qed.

Lemma sorted_app_lt (l1 l2 : list Z) m : StronglySorted Z.lt l1 -> StronglySorted Z.lt l2 -> Forall (fun x => x <= m) l1 -> Forall (fun x => m < x) l2 ->
  StronglySorted Z.lt (l1 ++ l2).
Proof.
  intros Hs1 Hs2 Hl1 Hl2. induction Hs1 as [|x l1 Hs1 IH Hx]; [done|]. apply Forall_cons in Hl1 as [Hxm Hl1]. cbn [app]. constructor; [by apply IH|].
  apply Forall_app_2; [done|]. eapply Forall_impl; [exact Hl2|]. intros y Hy. cbn in *. lia.
Qed.

(** No two requests of a client have the same id: in a run of calls of any kind, failed ones
    included, the ids of the posted requests increase, all of them beyond the counter at the
    start, as long as the counter does not overflow. *)
Theorem request_ids_increase (ops : list rpc_op) (w : Wire) :
  0 <= requestID w -> requestID w + Z.of_nat (length ops) < 2 ^ 63 ->
  requestID (rpc_run ops w) = requestID w + Z.of_nat (length ops) /\
  exists es, history (rpc_run ops w) = (history w ++ es)%list /\ StronglySorted Z.lt (omap posted_id es) /\
    Forall (fun id => requestID w < id <= requestID (rpc_run ops w)) (omap posted_id es).
Proof.
  unfold rpc_run. induction ops as [|op ops IH] using rev_ind; intros Hw Hb.
  - cbn [foldl length]. split; [lia|]. exists []. rewrite app_nil_r. split_and!; [done|constructor..].
  - rewrite length_app in Hb. cbn [length] in Hb. destruct IH as (Hid & es & Hh & Hs & Hf); [lia..|]. rewrite foldl_app. cbn [foldl].
    set (w1 := foldl _ w ops) in *. destruct (rpc_do_posts op w1) as [Hid1 (es1 & Hh1 & Hsub)].
    rewrite int64_id in Hid1 by (unfold is_int64; lia). rewrite length_app. cbn [length]. split; [lia|].
    exists (es ++ es1)%list. rewrite Hh1, Hh, app_assoc, omap_app. split; [done|].
    assert (Hes1 : omap posted_id es1 = [] \/ omap posted_id es1 = [requestID (rpc_do op w1).1]).
    { destruct (omap posted_id es1) as [|x [|y l]]; [by left| |apply submseteq_length in Hsub; cbn in Hsub; lia].
      right. f_equal. apply (elem_of_submseteq _ _ x) in Hsub; [by apply list_elem_of_singleton in Hsub|by left]. }
    split; [apply (sorted_app_lt _ _ (requestID w1))|apply Forall_app_2].
    + done.
    + destruct Hes1 as [-> | ->]; repeat constructor.
    + eapply Forall_impl; [exact Hf|]. intros id Hi. cbn in Hi. lia.
    + destruct Hes1 as [-> | ->]; repeat constructor. lia.
    + eapply Forall_impl; [exact Hf|]. intros id Hi. cbn in *. lia.
    + destruct Hes1 as [-> | ->]; repeat constructor; lia.
Qed.

(** *** The wait for a key *)

(** What a listing answered, at a history. *)
Definition keys_at (h : list wire_event) (keys : list string) : Prop :=
  exists u status body, svc h (Request "GET" u []) = Ok (status, Ok body) /\ status < 400 /\ unmarshal_strings body = Ok keys.

Lemma list_keys_ok w w' keys : ListAllPublicKeys svc c w = (w', Ok keys) ->
  keys_at (history w) keys /\ exists e, history w' = (history w ++ [e])%list.
Proof.
  unfold ListAllPublicKeys, sm_wrap, makeHttpRequest, http_Do. sm_steps. cbn [history requestID].
  destruct (svc _ _) as [[status [body|e]]|e] eqn:Hs; cbn [wrap]; [|done..]. destruct (Z.geb_spec status 400) as [Hst|Hst]; cbn [wrap]; [done|].
  intros [= <- Hu%wrap_ok]. split; [|eauto]. by eexists _, status, body.
Qed.

(** The wait for a key after a reload succeeds only when the key is there: after the reload the
    last listing that the service answered holds the key, and the rounds it took, each a tick
    and a listing, are no more than the timeout left. *)
Theorem key_wait (publicKey : string) (rounds : nat) (w w' : Wire) :
  ReloadKeysAndWaitForPublicKey svc c publicKey rounds w = (w', Ok tt) ->
  exists h keys k e, (k < rounds)%nat /\ keys_at h keys /\ publicKey ∈ keys /\ history w' = (h ++ [e])%list /\
    (length (history w') = length (history w) + 1 + 2 * S k)%nat.
Proof.
  intros Hr. unfold ReloadKeysAndWaitForPublicKey, sm_wrap in Hr. unfold mbind at 1, sm_bind at 1 in Hr.
  destruct (ReloadKeys svc c w) as [w1 r1] eqn:Hl. destruct r1 as [[]|]; cbn [wrap] in Hr; [|done].
  assert (Hl1 : (length (history w1) = length (history w) + 1)%nat).
  { revert Hl. unfold ReloadKeys, makeHttpRequest, http_Do. sm_steps. cbn [history requestID].
    destruct (svc _ _) as [[status [body|e]]|e]; cbn [wrap]; [|done..]. destruct (status >=? 400); [done|]. intros [= <-]. cbn [history]. rewrite length_app. done. }
  rewrite <- Hl1. clear Hl Hl1 w. revert w1 Hr. induction rounds as [|rounds IH]; intros w; [done|]. cbn [wait_for_key]. unfold mbind at 1 2, sm_bind at 1 2, tick, sm_modify.
  set (wt := mkWire _ _). unfold sm_wrap. destruct (ListAllPublicKeys svc c wt) as [w2 [keys|e]] eqn:Hk; cbn [wrap]; [|done].
  destruct (list_keys_ok _ _ _ Hk) as [Hkeys [e He]].
  assert (Hlen : (length (history w2) = length (history w) + 2)%nat) by (rewrite He, !length_app; cbn [length history wt]; rewrite length_app; cbn [length]; lia).
  assert (Hnext : wait_for_key svc c publicKey rounds w2 = (w', Ok tt) -> exists h keys0 k e0, (k < S rounds)%nat /\ keys_at h keys0 /\ publicKey ∈ keys0 /\
    history w' = (h ++ [e0])%list /\ (length (history w') = length (history w) + 2 * S k)%nat).
  { intros (h & ks & k & e0 & Hk0 & Hrest)%IH. exists h, ks, (S k), e0. destruct Hrest as (? & ? & ? & Hn). split_and!; [lia|done..|lia]. }
  case_bool_decide; [done|]. case_bool_decide as Hin; cbn [negb]; [|done]. intros [= <-]. exists (history wt), keys, 0%nat, e. split_and!; [lia|done..|lia].
Qed.
End CallFacts.

(** ** TLS *)

Section TlsFacts.
Context `{TlsLib}.

Lemma buildTLSConfig_ok ca cert key t : buildTLSConfig (mkTLSConfig ca cert key false) = Ok t ->
  SkipVerify t = false /\ (ca = ""%string /\ RootCAs t = None \/ ca <> ""%string /\ is_Some (RootCAs t) /\ RootCAs t = AppendCertsFromPEM ca) /\
  (cert = ""%string /\ key = ""%string /\ Certificates t = [] \/ exists pair, X509KeyPair cert key = Ok pair /\ Certificates t = [pair]).
Proof.
  unfold buildTLSConfig. cbn [CACert ClientCert ClientKey InsecureSkipVerify]. intros (roots & Hroots & (certs & Hcerts & [= <-])%res_bind_ok)%res_bind_ok.
  cbn [SkipVerify RootCAs Certificates]. split_and!; [done| |].
  - clear Hcerts. case_bool_decide as Hca; [injection Hroots as <-; by left|]. apply res_bind_ok in Hroots as (pool & Hp%from_opt_ok & [= <-]). right. by rewrite Hp.
  - clear Hroots. case_bool_decide as Hc; case_bool_decide as Hk; cbn [negb andb orb] in Hcerts; [injection Hcerts as <-; by left|done..|].
    apply res_bind_ok in Hcerts as (pair & Hp%wrap_ok & [= <-]). right. by exists pair.
Qed.

(** The client of a server talks to the signer as its configuration says: without https no TLS
    setting is used; with https the certificates of the signer are always verified, against
    the configured authority when there is one, and a client certificate is presented exactly
    when certificate and key are both configured and fit; half a pair, or an authority that
    cannot be read, is refused. *)
Theorem tls_as_configured (cfg : RemoteSignerConfig) (c : w3_Client) :
  NewWeb3SignerClientFromRemoteSignerConfig (Some cfg) true = Ok c ->
  BaseURL (w3_config c) = rsc_Url cfg /\ http_Timeout (httpClient c) = 30 /\
  (is_https (rsc_Url cfg) = false -> TLSClientConfig (httpClient c) = None) /\
  (is_https (rsc_Url cfg) = true -> exists t, TLSClientConfig (httpClient c) = Some t /\ SkipVerify t = false /\
     (rsc_CACert cfg = ""%string /\ RootCAs t = None \/ rsc_CACert cfg <> ""%string /\ is_Some (RootCAs t) /\ RootCAs t = AppendCertsFromPEM (rsc_CACert cfg)) /\
     (rsc_Cert cfg = ""%string /\ rsc_Key cfg = ""%string /\ Certificates t = [] \/
      exists pair, X509KeyPair (rsc_Cert cfg) (rsc_Key cfg) = Ok pair /\ Certificates t = [pair])).
Proof.
  unfold NewWeb3SignerClientFromRemoteSignerConfig, w3_NewClient. cbn [from_opt negb fail_if]. unfold mbind at 1 2, res_bind at 1 2. intros (h & Hh%wrap_ok & [= <-])%res_bind_ok.
  cbn [w3_config httpClient]. unfold createHTTPClient, NewConfigWithTLS in *. cbn [BaseURL Timeout TLS] in *.
  apply res_bind_ok in Hh as (tls & Ht & [= <-]). cbn [http_Timeout TLSClientConfig Timeout DefaultConfig]. split_and!; [done..| |].
  - intros Hs. rewrite Hs in Ht. by injection Ht as <-.
  - intros Hs. rewrite Hs in Ht. cbn [andb] in Ht. destruct (negb _) eqn:Hany.
    + apply res_bind_ok in Ht as (t & Hb%wrap_ok & [= <-]). exists t. split; [done|]. by apply buildTLSConfig_ok.
    + injection Ht as <-. eexists. split; [done|]. rewrite negb_false_iff, !andb_true_iff, !bool_decide_eq_true in Hany. destruct Hany as [[Hca Hcert] Hkey].
      cbn [SkipVerify RootCAs Certificates]. split_and!; [done|by left|by left].
Qed.
End TlsFacts.

(** ** Witnesses: a service that signs, and lists the key at the second listing *)

#[local] Instance demo_tls : TlsLib := {
  CertPool := string; AppendCertsFromPEM s := if bool_decide (s = "bad") then None else Some s;
  Certificate := string * string; X509KeyPair c k := if bool_decide (c = k) then Ok (c, k) else Err "tls: private key does not match public key"
}.
#[local] Instance param_eq : EqDecision (rpc_param string) := ltac:(solve_decision).
#[local] Instance rpc_request_eq : EqDecision (JSONRPCRequest string) := ltac:(solve_decision).

Definition demo_tx : gmap string string := {["to"%string := "0xb"%string]}.
Definition demo_call (id : Z) : JSONRPCRequest string :=
  mkRpcRequest "eth_signTransaction" (Some [PObject (<["from"%string := "0xa"%string]> demo_tx)]) id.

(** Values are strings; the one request that is made is its id. *)
#[local] Instance demo_rpc : RpcLib := {
  JsonValue := string;
  marshal_rpc q := if bool_decide (q = demo_call (rpc_ID q)) then Ok [rpc_ID q] else Err "json: unsupported type";
  unmarshal_rpc b := match b with [] => Err "EOF" | 0 :: _ => Ok (mkRpcResponse None None 0) | _ => Ok (mkRpcResponse (Some "0xsigned"%string) None 0) end;
  marshal_value v := Ok (text_bytes (chars_of v));
  unmarshal_string b := Ok (string_of (bytes_text b));
  unmarshal_strings b := Ok (match b with [] => [] | _ => [string_of (bytes_text b)] end);
  marshal_sign _ := Ok []
}.
#[local] Instance demo_rpc_laws : RpcLaws.
Proof.
  refine {| read_rpc b := match b with [id] => Ok (demo_call id) | _ => Err "EOF" end |}.
  intros q b. cbn [marshal_rpc demo_rpc]. case_bool_decide as Hq; [|done]. intros [= <-]. by rewrite <- Hq.
Defined.

(** The first answer has no result; the first listing is empty. *)
Definition demo_service : Service := fun h e =>
  match e with
  | Request "POST" _ _ => Ok (200, Ok [Z.of_nat (length h)])
  | _ => Ok (200, Ok (if (length h <? 4)%nat then [] else text_bytes (chars_of "0xk")))
  end.
Definition demo_remote : RemoteSignerConfig := mkRemoteSignerConfig "https://signer:9000/" "ca" "p" "p" "0xa" "0xk".
Definition demo_w3 : w3_Client := mkW3Client _ (mkHttpClient _ 30 None) (mkW3Config "https://signer:9000/" 30 None).
Definition signed_once : Wire * res string := EthSignTransaction demo_service demo_w3 "0xa" demo_tx (mkWire 4 []).

(** No result: the signature is empty. *)
Lemma signature_answered_witness : signed_once.2 = Ok ""%string /\
  exists data status body, history signed_once.1 = [Request "POST" "https://signer:9000" data] /\
    answers_call ""%string unmarshal_string status body ""%string /\ demo_service [] (Request "POST" "https://signer:9000" data) = Ok (status, Ok body).
Proof.
  split; [vm_compute; reflexivity|].
  destruct (signature_answered demo_service demo_w3 "0xa" demo_tx (mkWire 4 []) signed_once.1 "") as (data & status & body & Hh & _ & _ & Hs & Ha).
  - unfold signed_once. apply injective_projections; [reflexivity|vm_compute; reflexivity].
  - exists data, status, body. split; [exact Hh|]. split; [exact Ha|exact Hs].
Defined.

Lemma request_ids_increase_witness :
  let ops := [OpSignTransaction "0xa" demo_tx; OpAccounts; OpSignTransaction "0xa" demo_tx] in
  omap posted_id (history (rpc_run demo_service demo_w3 ops (mkWire 4 []))) = [5; 7] /\
  requestID (rpc_run demo_service demo_w3 ops (mkWire 4 [])) = 4 + 3.
Proof.
  split; [vm_compute; reflexivity|].
  destruct (request_ids_increase demo_service demo_w3 [OpSignTransaction "0xa" demo_tx; OpAccounts; OpSignTransaction "0xa" demo_tx] (mkWire 4 [])) as [Hid _].
  - cbn. lia.
  - cbn. lia.
  - exact Hid.
Defined.

Lemma key_wait_witness : exists h keys k e, (k < 30)%nat /\ keys_at demo_service h keys /\ "0xk"%string ∈ keys /\
  history (ReloadKeysAndWaitForPublicKey demo_service demo_w3 "0xk" 30 (mkWire 0 [])).1 = (h ++ [e])%list.
Proof.
  destruct (key_wait demo_service demo_w3 "0xk" 30 (mkWire 0 []) (ReloadKeysAndWaitForPublicKey demo_service demo_w3 "0xk" 30 (mkWire 0 [])).1)
    as (h & keys & k & e & Hk & Hat & Hin & Hh & _).
  - apply injective_projections; [reflexivity|vm_compute; reflexivity].
  - exists h, keys, k, e. split; [exact Hk|]. split; [exact Hat|]. split; [exact Hin|exact Hh].
Defined.

Definition demo_tls_client : res w3_Client := NewWeb3SignerClientFromRemoteSignerConfig (Some demo_remote) true.
Lemma tls_as_configured_witness : exists c t, demo_tls_client = Ok c /\ TLSClientConfig (httpClient c) = Some t /\
  RootCAs t = Some "ca"%string /\ Certificates t = [("p", "p")]%string.
Proof.
  destruct demo_tls_client as [c|] eqn:Hc; [|discriminate]. exists c.
  destruct (tls_as_configured demo_remote c Hc) as (_ & _ & _ & Hs). destruct (Hs eq_refl) as (t & Ht & _ & [[Hca _]|(_ & _ & Hr)] & [(Hp & _)|(pair & Hp & Hcerts)]).
  - discriminate.
  - discriminate.
  - discriminate.
  - exists t. split; [reflexivity|]. split; [exact Ht|]. split; [exact Hr|]. rewrite Hcerts. injection Hp as <-. reflexivity.
Defined.
