(* ===== verification/TxSigner.v ===== *)
(** * Transactions: [pkg/transactionSigner]

    The two signers that sign and send an operator's transactions: with a private key, and
    through the remote signer ([Web3Client]).  The Ethereum client, the transactor of
    go-ethereum's bindings and its hexadecimal forms are parameters; what was sent is part of
    the state.  The theorems: a receipt is that of the one transaction that was sent, mined
    with success, and they say what its fields are: the gas limit has its buffer, the fees
    their surcharge; an error leaves at most one transaction behind. *)

From S2P Require Import Prelude Bytes Types GoText NodeCore Attestation Persistence Config Transport Web3Client.
From Stdlib Require Import Ascii.
From stdpp Require Import pretty countable.
#[local] Open Scope Z_scope.

(** The transaction as the bindings built it; [To] is [nil] for a creation. *)
Record Transaction := mkTransaction { tx_To : option Address; tx_Value : Z; tx_Data : bytes; tx_Nonce : Z }.
Record CallMsg := mkCallMsg {
  cm_From : Address; cm_To : option Address; cm_GasTipCap : Z; cm_GasFeeCap : Z; cm_Value : option Z; cm_Data : bytes
}.
(** [bind.TransactOpts]; the signing function is that of the key or none. *)
Record TransactOpts := mkTransactOpts {
  opts_From : Address; opts_Nonce : option Z; opts_Value : option Z; opts_GasTipCap : option Z; opts_GasFeeCap : option Z;
  opts_GasLimit : Z; opts_NoSend : bool; opts_ChainID : option Z
}.
Record TxReceipt := mkTxReceipt { Status : Z; TxHash : bytes }.

(** An EIP-1559 transaction. *)
Record DynamicFeeTx := mkDynamicFeeTx {
  d_From : Address; d_ChainID : Z; d_Nonce : Z; d_GasTipCap : Z; d_GasFeeCap : Z; d_Gas : Z; d_To : Address; d_Value : Z; d_Data : bytes
}.

(** go-ethereum: keys, the transactor, the wire form of a transaction and hexadecimal. *)
Class EthTxLib := {
  PrivateKey : Type;
  HexToECDSA : string -> res PrivateKey;
  PubkeyToAddress : PrivateKey -> Address;
  SignedTx : Type;
  RawTransact : PrivateKey -> TransactOpts -> Address -> bytes -> res SignedTx;
  UnmarshalBinary : bytes -> res SignedTx;
  hexutil_EncodeBig : Z -> string;
  hexutil_EncodeUint64 : Z -> string;
  hexutil_Encode : bytes -> string
}.

(** The answers of the Ethereum client; of the latest header, its base fee. *)
Record EthClient `{EthTxLib} := mkEthClient {
  ChainID : res Z;
  SuggestGasTipCap : res Z;
  HeaderByNumber : res (option Z);
  EstimateGas : CallMsg -> res Z;
  PendingNonceAt : Address -> res Z;
  SendTransaction : SignedTx -> res unit;
  WaitMined : SignedTx -> res TxReceipt
}.

(** What was sent, and the state of the remote signer's client. *)
Record TxState `{EthTxLib} := mkTxState { sent : list SignedTx; wire : Wire }.

(** *** [pkg/util] *)

Definition TrimPrefix_0x (s : string) : string := TrimPrefix s "0x".

Section Signers.
Context `{EthTxLib} `{EthAddr} `{SignerLib} `{TlsLib} `{RpcLib}.
Notation TX := (SM TxState).

Definition emit_tx (tx : SignedTx) : TX unit := sm_modify (fun s => mkTxState _ (sent s ++ [tx])%list (wire s)).
Definition on_wire {A} (m : SM Wire A) : TX A := fun s => let '(w, r) := m (wire s) in (mkTxState _ (sent s) w, r).

Definition StringToECDSAPrivateKey (pk : string) : res PrivateKey :=
  _ ← fail_if (bool_decide (pk = ""%string)) "private key is empty";
  wrap "failed to convert hex string to ECDSA private key" (HexToECDSA (TrimPrefix_0x pk)).
Definition DeriveAddressFromECDSAPrivateKeyString (key : string) : res Address :=
  pk ← wrap "failed to convert operator private key" (StringToECDSAPrivateKey key); Ok (PubkeyToAddress pk).

(** [6 * gasLimit / 5] in 64 bits. *)
Definition addGasBuffer (gasLimit : Z) : Z := uint64 (6 * gasLimit) / 5.

(** [*tx.To()] and the header's base fee; [nil] panics. *)
Definition deref {A} (o : option A) : res A := from_opt "panic: nil pointer dereference" o.

(** *** [privateKeySigner.go] *)

Record PrivateKeySigner := mkPrivateKeySigner { pks_ethClient : EthClient; pks_chainID : Z; pks_privateKey : PrivateKey; pks_fromAddress : Address }.

Definition NewPrivateKeySigner (privateKeyHex : string) (ethClient : EthClient) : res PrivateKeySigner :=
  privateKey ← wrap "failed to parse private key" (StringToECDSAPrivateKey privateKeyHex);
  chainID ← wrap "failed to get chain ID" (ChainID ethClient);
  Ok (mkPrivateKeySigner ethClient chainID privateKey (PubkeyToAddress privateKey)).
Definition NewTransactionSigner (privateKey : string) (ethClient : EthClient) : res PrivateKeySigner :=
  _ ← fail_if (bool_decide (privateKey = ""%string)) "private key cannot be empty";
  NewPrivateKeySigner privateKey ethClient.

(** The chain id is there, so [bind.NewKeyedTransactorWithChainID] does not fail. *)
Definition NewKeyedTransactorWithChainID (key : PrivateKey) (chainID : Z) : TransactOpts :=
  mkTransactOpts (PubkeyToAddress key) None None None None 0 false (Some chainID).
Definition pks_GetTransactOpts (pks : PrivateKeySigner) : res TransactOpts :=
  let opts := NewKeyedTransactorWithChainID (pks_privateKey pks) (pks_chainID pks) in
  Ok (mkTransactOpts (opts_From opts) None None None None 0 true (opts_ChainID opts)).

Definition ensureTransactionEvaled (pks : PrivateKeySigner) (tx : SignedTx) : res TxReceipt :=
  receipt ← wrap "ensureTransactionEvaled: failed to wait for transaction (%s) to mine" (WaitMined (pks_ethClient pks) tx);
  _ ← fail_if (negb (Status receipt =? 1)) "transaction failed";
  Ok receipt.

(** A transaction that the transactor returned was sent. *)
Definition estimateGasPriceAndLimitAndSendTx (pks : PrivateKeySigner) (fromAddress : Address) (tx : Transaction) : TX TxReceipt :=
  let FallbackGasTipCap := 15000000000 in
  let gasTipCap := match SuggestGasTipCap (pks_ethClient pks) with Ok tip => tip | Err _ => FallbackGasTipCap end in
  baseFee ← sm_lift (HeaderByNumber (pks_ethClient pks));
  baseFee ← sm_lift (deref baseFee);
  let gasFeeCap := baseFee * 3 / 2 + gasTipCap in
  gasLimit ← sm_lift (EstimateGas (pks_ethClient pks) (mkCallMsg fromAddress (tx_To tx) gasTipCap gasFeeCap None (tx_Data tx)));
  let opts := NewKeyedTransactorWithChainID (pks_privateKey pks) (pks_chainID pks) in
  let opts := mkTransactOpts (opts_From opts) (Some (tx_Nonce tx)) (opts_Value opts) (Some gasTipCap) (Some gasFeeCap) (addGasBuffer gasLimit)
                (opts_NoSend opts) (opts_ChainID opts) in
  to ← sm_lift (deref (tx_To tx));
  stx ← sm_lift (wrap "estimateGasPriceAndLimitAndSendTx: failed to send txn (%s)" (RawTransact (pks_privateKey pks) opts to (tx_Data tx)));
  _ ← emit_tx stx;
  sm_lift (ensureTransactionEvaled pks stx).

Definition pks_SignAndSendTransaction (pks : PrivateKeySigner) (tx : Transaction) : TX TxReceipt :=
  estimateGasPriceAndLimitAndSendTx pks (pks_fromAddress pks) tx.

(** *** [web3Signer.go] *)

Record Web3TransactionSigner := mkWeb3TxSigner { w3t_ethClient : EthClient; w3t_chainID : Z; w3t_client : w3_Client; w3t_service : Service; w3t_fromAddress : Address }.

Definition NewWeb3TransactionSigner (client : w3_Client) (service : Service) (from : Address) (ethClient : EthClient) : res Web3TransactionSigner :=
  chainID ← wrap "failed to get chain ID" (ChainID ethClient);
  Ok (mkWeb3TxSigner ethClient chainID client service from).

Definition w3t_GetTransactOpts (w3s : Web3TransactionSigner) : res TransactOpts :=
  Ok (mkTransactOpts (w3t_fromAddress w3s) None None None None 0 true None).

(** The fallback tip and the multiplier of the base fee. *)
Definition gas_policy (chainID : Z) : Z * Z :=
  if negb (IsEthereum (uint64 chainID)) then (1500000000, 3) else (1000000, 2).

(** The transaction object of the request, but its sender. *)
Definition tx_object (d : DynamicFeeTx) : gmap string string := list_to_map [
  ("to", Hex (d_To d)); ("value", hexutil_EncodeBig (d_Value d)); ("gas", hexutil_EncodeUint64 (d_Gas d));
  ("maxPriorityFeePerGas", hexutil_EncodeBig (d_GasTipCap d)); ("maxFeePerGas", hexutil_EncodeBig (d_GasFeeCap d));
  ("nonce", hexutil_EncodeUint64 (d_Nonce d)); ("data", hexutil_Encode (d_Data d)); ("type", "0x2");
  ("chainId", hexutil_EncodeUint64 (uint64 (d_ChainID d)))]%string.

(** The look-up in the mempool only logs. *)
Definition w3t_SignAndSendTransaction (w3s : Web3TransactionSigner) (tx : Transaction) : TX TxReceipt :=
  let '(FallbackGasTipCap, baseFeeMultiplier) := gas_policy (w3t_chainID w3s) in
  let gasTipCap := match SuggestGasTipCap (w3t_ethClient w3s) with Ok tip => tip | Err _ => FallbackGasTipCap end in
  baseFee ← sm_lift (wrap "failed to get latest block header" (HeaderByNumber (w3t_ethClient w3s)));
  baseFee ← sm_lift (deref baseFee);
  let maxFeePerGas := baseFee * baseFeeMultiplier + gasTipCap in
  gasLimit ← sm_lift (wrap "failed to estimate gas" (EstimateGas (w3t_ethClient w3s)
    (mkCallMsg (w3t_fromAddress w3s) (tx_To tx) gasTipCap maxFeePerGas (Some (tx_Value tx)) (tx_Data tx))));
  let gasLimitWithBuffer := addGasBuffer gasLimit in
  nonce ← sm_lift (wrap "failed to get nonce" (PendingNonceAt (w3t_ethClient w3s) (w3t_fromAddress w3s)));
  to ← sm_lift (deref (tx_To tx));
  let txData := tx_object (mkDynamicFeeTx (w3t_fromAddress w3s) (w3t_chainID w3s) nonce gasTipCap maxFeePerGas gasLimitWithBuffer to (tx_Value tx) (tx_Data tx)) in
  signedTxHex ← sm_wrap "failed to sign transaction with Web3Signer" (on_wire (EthSignTransaction (w3t_service w3s) (w3t_client w3s) (Hex (w3t_fromAddress w3s)) txData));
  signedTxBytes ← sm_lift (wrap "failed to decode signed transaction" (hexutil_Decode signedTxHex));
  signedTx ← sm_lift (wrap "failed to unmarshal signed transaction" (UnmarshalBinary signedTxBytes));
  _ ← sm_lift (wrap "failed to send transaction" (SendTransaction (w3t_ethClient w3s) signedTx));
  _ ← emit_tx signedTx;
  receipt ← sm_lift (wrap "failed to wait for transaction receipt" (WaitMined (w3t_ethClient w3s) signedTx));
  _ ← sm_lift (fail_if (negb (Status receipt =? 1)) "transaction failed with status %d");
  mret receipt.
End Signers.

(** ** What is sent *)

(** What the transactor documents: the transaction has the fields of the options, a value that
    is not set is none, and the gas limit is the one set unless it is zero. *)
Class EthTxLaws `{EthTxLib} := {
  content : SignedTx -> DynamicFeeTx;
  transact_content key opts to data nonce tip cap chain stx : RawTransact key opts to data = Ok stx ->
    opts_Nonce opts = Some nonce -> opts_GasTipCap opts = Some tip -> opts_GasFeeCap opts = Some cap -> opts_ChainID opts = Some chain ->
    exists gas, content stx = mkDynamicFeeTx (PubkeyToAddress key) chain nonce tip cap gas to (default 0 (opts_Value opts)) data /\
      (opts_GasLimit opts <> 0 -> gas = opts_GasLimit opts)
}.

Section TxFacts.
Context `{EthTxLaws} `{EthAddr} `{SignerLib} `{TlsLib} `{RpcLib}.

(** One transaction was sent, and a receipt is its own, of success; or none was and there is an error. *)
Definition sends (s s' : TxState) (r : res TxReceipt) (wait : SignedTx -> res TxReceipt) (fields : DynamicFeeTx -> Prop) : Prop :=
  sent s' = sent s /\ is_ok r = false \/
  exists stx, sent s' = (sent s ++ [stx])%list /\ fields (content stx) /\ (forall receipt, r = Ok receipt -> wait stx = Ok receipt /\ Status receipt = 1).

(** The fees of a transaction, from the client's answers. *)
Record fees (eth : EthClient) (fallback : Z) (surcharge : Z -> Z) (d : DynamicFeeTx) : Prop := {
  fee_tip : SuggestGasTipCap eth = Ok (d_GasTipCap d) \/ is_ok (SuggestGasTipCap eth) = false /\ d_GasTipCap d = fallback;
  fee_cap : exists base, HeaderByNumber eth = Ok (Some base) /\ d_GasFeeCap d = surcharge base + d_GasTipCap d
}.

(** The gas limit is the estimate with a fifth more, unless that overflows. *)
Definition buffered (estimate gas : Z) : Prop :=
  0 < estimate -> 6 * estimate < 2 ^ 64 -> estimate <= gas /\ 5 * gas <= 6 * estimate < 5 * (gas + 1).

Lemma addGasBuffer_buffered e : buffered e (addGasBuffer e).
Proof.
  unfold buffered, addGasBuffer, uint64. intros Hpos Hb. rewrite Z.mod_small by lia.
  pose proof (Z.div_mod (6 * e) 5 ltac:(lia)) as Hd. pose proof (Z.mod_pos_bound (6 * e) 5 ltac:(lia)) as Hm. lia.
Qed.

(** A private key signer sends the call it was given: the one transaction it may leave behind is
    from the address of its key, on its chain, with the nonce, recipient and data of the
    transaction it was handed and no value, whatever value that had; its tip is the suggested one
    or 15 gwei, its fee cap half more than the base fee and the tip, its gas limit the estimate
    with a fifth more; and a receipt is returned only for that transaction, mined with success. *)
Theorem private_key_transaction (key : string) (eth : EthClient) (pks : PrivateKeySigner) (tx : Transaction) (s s' : TxState) (r : res TxReceipt) :
  NewTransactionSigner key eth = Ok pks -> pks_SignAndSendTransaction pks tx s = (s', r) ->
  sends s s' r (WaitMined eth) (fun d =>
    HexToECDSA (TrimPrefix_0x key) = Ok (pks_privateKey pks) /\ d_From d = PubkeyToAddress (pks_privateKey pks) /\ ChainID eth = Ok (d_ChainID d) /\
    tx_To tx = Some (d_To d) /\ d_Data d = tx_Data tx /\ d_Nonce d = tx_Nonce tx /\ d_Value d = 0 /\
    fees eth 15000000000 (fun base => base * 3 / 2) d /\
    exists estimate, EstimateGas eth (mkCallMsg (d_From d) (tx_To tx) (d_GasTipCap d) (d_GasFeeCap d) None (tx_Data tx)) = Ok estimate /\
      buffered estimate (d_Gas d)).
Proof.
  intros (u & _ & (pk & Hk%wrap_ok & (ch & Hch%wrap_ok & [= <-])%res_bind_ok)%res_bind_ok)%res_bind_ok. apply fail_if_bind in Hk as [_ Hk%wrap_ok].
  unfold pks_SignAndSendTransaction, estimateGasPriceAndLimitAndSendTx. cbn [pks_ethClient pks_privateKey pks_chainID pks_fromAddress]. cbv zeta. sm_steps.
  set (tip := match SuggestGasTipCap eth with Ok _ => _ | Err _ => _ end).
  destruct (HeaderByNumber eth) as [[base|]|] eqn:Hh; cbn [deref from_opt]; [|by intros [= <- <-]; left..].
  destruct (EstimateGas eth _) as [est|] eqn:He; [|by intros [= <- <-]; left]. destruct (tx_To tx) as [to|] eqn:Hto; cbn [deref from_opt]; [|by intros [= <- <-]; left].
  destruct (RawTransact _ _ _ _) as [stx|] eqn:Hr; cbn [wrap]; [|by intros [= <- <-]; left]. unfold emit_tx, sm_modify. intros [= <- <-]. right. exists stx. cbn [sent].
  split; [done|]. eapply transact_content in Hr as (gas & Hc & Hgas); [|done..]. cbn [opts_Value opts_GasLimit NewKeyedTransactorWithChainID default] in *. rewrite Hc.
  cbn [d_From d_ChainID d_To d_Data d_Nonce d_Value d_GasTipCap d_GasFeeCap d_Gas]. split.
  - split_and!; try done.
    + split; cbn [d_GasTipCap d_GasFeeCap]; [|by exists base]. subst tip. destruct (SuggestGasTipCap eth); [by left|by right].
    + exists est. split; [done|]. intros Hpos Hb. destruct (addGasBuffer_buffered est Hpos Hb) as [Hle Hrest]. rewrite Hgas by lia. done.
  - intros receipt Hok. unfold ensureTransactionEvaled in Hok. cbn [pks_ethClient] in Hok. apply res_bind_ok in Hok as (rc & Hw%wrap_ok & Hok).
    apply fail_if_bind in Hok as [Hst [= <-]]. split; [done|]. apply negb_false_iff, Z.eqb_eq in Hst. done.
Qed.

(** The service signs what it is asked to sign, and as the address it is asked for. *)
Definition signs_faithfully (w3s : Web3TransactionSigner) : Prop := forall d w w' signedTxHex b stx, d_From d = w3t_fromAddress w3s -> d_ChainID d = w3t_chainID w3s ->
  EthSignTransaction (w3t_service w3s) (w3t_client w3s) (Hex (d_From d)) (tx_object d) w = (w', Ok signedTxHex) ->
  hexutil_Decode signedTxHex = Ok b -> UnmarshalBinary b = Ok stx -> content stx = d.

(** C29: The signer of the remote service sends the call it was given when the service signs what it
    is asked to: the one transaction it may leave behind has the recipient, value and data of
    the transaction it was handed and the pending nonce of its address; on an Ethereum chain the
    fallback tip is a thousandth of a gwei and the base fee is doubled, elsewhere 1.5 gwei and
    three times the base fee. *)
Theorem remote_signer_transaction (w3s : Web3TransactionSigner) (tx : Transaction) (s s' : TxState) (r : res TxReceipt) :
  signs_faithfully w3s -> w3t_SignAndSendTransaction w3s tx s = (s', r) ->
  let eth := w3t_ethClient w3s in
  sends s s' r (WaitMined eth) (fun d =>
    d_From d = w3t_fromAddress w3s /\ d_ChainID d = w3t_chainID w3s /\
    tx_To tx = Some (d_To d) /\ d_Data d = tx_Data tx /\ d_Value d = tx_Value tx /\ PendingNonceAt eth (d_From d) = Ok (d_Nonce d) /\
    (if IsEthereum (uint64 (w3t_chainID w3s)) then fees eth 1000000 (fun base => base * 2) d else fees eth 1500000000 (fun base => base * 3) d) /\
    exists estimate, EstimateGas eth (mkCallMsg (d_From d) (tx_To tx) (d_GasTipCap d) (d_GasFeeCap d) (Some (tx_Value tx)) (tx_Data tx)) = Ok estimate /\
      d_Gas d = addGasBuffer estimate /\ buffered estimate (d_Gas d)).
Proof.
  intros Hf. cbv zeta. unfold w3t_SignAndSendTransaction. destruct (gas_policy _) as [fallback multiplier] eqn:Hg. cbv zeta. sm_steps.
  set (tip := match SuggestGasTipCap _ with Ok _ => _ | Err _ => _ end).
  destruct (HeaderByNumber (w3t_ethClient w3s)) as [[base|]|] eqn:Hh; cbn [wrap deref from_opt]; [|by intros [= <- <-]; left..].
  destruct (EstimateGas _ _) as [est|] eqn:He; cbn [wrap]; [|by intros [= <- <-]; left].
  destruct (PendingNonceAt _ _) as [nonce|] eqn:Hn; cbn [wrap]; [|by intros [= <- <-]; left].
  destruct (tx_To tx) as [to|] eqn:Hto; cbn [deref from_opt]; [|by intros [= <- <-]; left].
  set (d := mkDynamicFeeTx _ _ _ _ _ _ _ _ _). unfold sm_wrap, on_wire.
  destruct (EthSignTransaction _ _ _ _ _) as [w1 [signedTxHex|]] eqn:Hs; cbn [wrap]; [|by intros [= <- <-]; left].
  destruct (hexutil_Decode signedTxHex) as [b|] eqn:Hb; cbn [wrap]; [|by intros [= <- <-]; left].
  destruct (UnmarshalBinary b) as [stx|] eqn:Hu; cbn [wrap]; [|by intros [= <- <-]; left].
  destruct (SendTransaction _ stx) as [[]|] eqn:Hsend; cbn [wrap]; [|by intros [= <- <-]; left].
  unfold emit_tx, sm_modify. cbn [sent wire]. intros Hrest. right. exists stx. pose proof (Hf d (wire s) w1 signedTxHex b stx eq_refl eq_refl Hs Hb Hu) as ->.
  assert (Hsent : sent s' = (sent s ++ [stx])%list /\ (forall receipt, r = Ok receipt -> WaitMined (w3t_ethClient w3s) stx = Ok receipt /\ Status receipt = 1)).
  { destruct (WaitMined _ stx) as [rc|] eqn:Hw; cbn [wrap] in Hrest; [|by injection Hrest as <- <-]. destruct (Z.eqb_spec (Status rc) 1) as [Hst|Hst]; cbn [negb fail_if] in Hrest.
    - injection Hrest as <- <-. split; [done|]. by intros ? [= <-].
    - by injection Hrest as <- <-. }
  destruct Hsent as [Hsent Hreceipt]. split; [done|]. split; [|done]. cbn [d d_From d_ChainID d_To d_Data d_Nonce d_Value d_GasTipCap d_GasFeeCap d_Gas]. split_and!; try done.
  - assert (Hfees : fees (w3t_ethClient w3s) fallback (fun base => base * multiplier) d).
    { split; cbn [d d_GasTipCap d_GasFeeCap]; [|by exists base]. subst tip. destruct (SuggestGasTipCap _); [by left|by right]. }
    unfold gas_policy in Hg. destruct (IsEthereum _); cbn [negb] in Hg; by injection Hg as <- <-.
  - exists est. split_and!; [done..|apply addGasBuffer_buffered].
Qed.
End TxFacts.

(** ** Witnesses: a call of 1000 gas, on an Ethereum chain without suggested tips *)

(** An injective text of anything countable. *)
Definition text_of {A} `{Countable A} (x : A) : string := pretty (N.pos (encode x)).
Lemma text_of_inj {A} `{Countable A} (x y : A) : text_of x = text_of y -> x = y.
Proof. unfold text_of. intros Hxy. apply (inj pretty) in Hxy. injection Hxy as Hxy. by apply (inj encode). Qed.

#[local] Instance demo_eth : EthTxLib := {
  PrivateKey := Z; HexToECDSA s := if bool_decide (s = "") then Err "invalid length, need 256 bits" else Ok (Z.of_nat (String.length s)); PubkeyToAddress k := k;
  SignedTx := DynamicFeeTx;
  RawTransact key opts to data :=
    Ok (mkDynamicFeeTx key (default 0 (opts_ChainID opts)) (default 0 (opts_Nonce opts)) (default 0 (opts_GasTipCap opts)) (default 0 (opts_GasFeeCap opts))
          (opts_GasLimit opts) to (default 0 (opts_Value opts)) data);
  UnmarshalBinary _ := Ok (mkDynamicFeeTx 7 1 4 1000000 1000020 1200 9 5 [1]);
  hexutil_EncodeBig := text_of; hexutil_EncodeUint64 := text_of; hexutil_Encode := text_of
}.
#[local] Instance demo_eth_laws : EthTxLaws.
Proof.
  refine {| content := fun d : @SignedTx demo_eth => d |}. intros key opts to data nonce tip cap chain stx [= <-] -> -> -> ->. by exists (opts_GasLimit opts).
Defined.
#[local] Instance demo_addr : EthAddr := { Hex a := text_of a; HexToAddress _ := 0 }.
#[local] Existing Instances Transport.key_signers Web3Client.demo_tls Web3Client.param_eq.

Definition asked_tx : DynamicFeeTx := mkDynamicFeeTx 7 1 4 1000000 1000020 1200 9 5 [1].
#[local] Instance one_rpc : RpcLib := {
  JsonValue := string;
  marshal_rpc q := if bool_decide (Web3Client.Params q = Some [PObject (<["from"%string := text_of 7]> (tx_object asked_tx))]) then Ok [rpc_ID q] else Err "json: unsupported type";
  unmarshal_rpc _ := Ok (mkRpcResponse (Some "0xsigned"%string) None 0);
  marshal_value v := Ok (text_bytes (chars_of v));
  unmarshal_string b := Ok (string_of (bytes_text b));
  unmarshal_strings _ := Err "unused";
  marshal_sign _ := Ok []
}.

Definition demo_client : EthClient := mkEthClient _ (Ok 1) (Err "method not found") (Ok (Some 10)) (fun _ => Ok 1000) (fun _ => Ok 4) (fun _ => Ok tt)
  (fun _ => Ok (mkTxReceipt 1 [1])).
Definition demo_call : Transaction := mkTransaction (Some 9) 5 [1] 3.
Definition demo_pks : PrivateKeySigner := mkPrivateKeySigner demo_client 1 7 7.
Definition demo_w3t : Web3TransactionSigner := mkWeb3TxSigner demo_client 1 (mkW3Client _ (mkHttpClient _ 30 None) DefaultConfig) (fun _ _ => Ok (200, Ok [])) 7.
Definition nothing_sent : TxState := mkTxState _ [] (mkWire 0 []).

(** The value 5 of the call is not sent. *)
Lemma private_key_transaction_witness :
  sent (pks_SignAndSendTransaction demo_pks demo_call nothing_sent).1 = [mkDynamicFeeTx 7 1 3 15000000000 15000000015 1200 9 0 [1]] /\
  exists stx, sent (pks_SignAndSendTransaction demo_pks demo_call nothing_sent).1 = [stx] /\ d_Value (content stx) = 0.
Proof.
  split; [vm_compute; reflexivity|].
  destruct (private_key_transaction "0x1234567" demo_client demo_pks demo_call nothing_sent _ _ eq_refl (surjective_pairing _)) as [[_ Hr]|(stx & Hs & Hf & _)].
  - vm_compute in Hr. discriminate.
  - exists stx. split; [exact Hs|]. destruct Hf as (_ & _ & _ & _ & _ & _ & Hv & _). exact Hv.
Defined.

(** The fields of a transaction object, with any forms of addresses and numbers. *)
Lemma tx_object_fields `{EthTxLib} `{EthAddr} (d : DynamicFeeTx) :
  tx_object d !! "to"%string = Some (Hex (d_To d)) /\ tx_object d !! "value"%string = Some (hexutil_EncodeBig (d_Value d)) /\
  tx_object d !! "gas"%string = Some (hexutil_EncodeUint64 (d_Gas d)) /\ tx_object d !! "maxPriorityFeePerGas"%string = Some (hexutil_EncodeBig (d_GasTipCap d)) /\
  tx_object d !! "maxFeePerGas"%string = Some (hexutil_EncodeBig (d_GasFeeCap d)) /\ tx_object d !! "nonce"%string = Some (hexutil_EncodeUint64 (d_Nonce d)) /\
  tx_object d !! "data"%string = Some (hexutil_Encode (d_Data d)).
Proof. unfold tx_object. split_and!; vm_compute; reflexivity. Qed.

Lemma demo_object_inj (d d' : DynamicFeeTx) (f : string) : <["from"%string := f]> (tx_object d) = <["from"%string := f]> (tx_object d') ->
  d_From d = d_From d' -> d_ChainID d = d_ChainID d' -> d = d'.
Proof.
  intros Hp Hfrom Hchain. assert (Hk : forall k, k <> "from"%string -> tx_object d !! k = tx_object d' !! k).
  { intros k Hne. apply (f_equal (fun m : gmap string string => m !! k)) in Hp. by rewrite !lookup_insert_ne in Hp. }
  destruct (tx_object_fields d) as (Hto & Hvalue & Hgas & Htip & Hcap & Hnonce & Hdata).
  destruct (tx_object_fields d') as (Hto' & Hvalue' & Hgas' & Htip' & Hcap' & Hnonce' & Hdata').
  rewrite Hk in Hto, Hvalue, Hgas, Htip, Hcap, Hnonce, Hdata by done. rewrite Hto in Hto'. rewrite Hvalue in Hvalue'. rewrite Hgas in Hgas'.
  rewrite Htip in Htip'. rewrite Hcap in Hcap'. rewrite Hnonce in Hnonce'. rewrite Hdata in Hdata'.
  apply Some_inj, text_of_inj in Hto', Hvalue', Hgas', Htip', Hcap', Hnonce', Hdata'. destruct d, d'. cbn in *. congruence.
Qed.

Lemma demo_faithful : signs_faithfully demo_w3t.
Proof.
  intros d w w' h b stx Hfrom Hchain Hs _ [= <-]. unfold EthSignTransaction, sm_wrap, makeJSONRPCRequest in Hs. revert Hs. sm_steps. cbn [marshal_rpc one_rpc Web3Client.Params].
  case_bool_decide as Hp; [|done]. intros _. apply (f_equal (fun o : option (list (rpc_param string)) => match o with Some [PObject m] => m | _ => ∅ end)) in Hp. cbv beta iota in Hp.
  symmetry. apply (demo_object_inj _ _ (text_of 7)); [|done..]. rewrite Hfrom in Hp. exact Hp.
Qed.

(** On chain 1: the tip and the multiplier that the comments give for a Base chain. *)
Lemma remote_signer_transaction_witness : exists stx, sent (w3t_SignAndSendTransaction demo_w3t demo_call nothing_sent).1 = [stx] /\
  content stx = asked_tx /\ fees demo_client 1000000 (fun base => base * 2) (content stx).
Proof.
  destruct (remote_signer_transaction demo_w3t demo_call nothing_sent _ _ demo_faithful (surjective_pairing _)) as [[_ Hr]|(stx & Hs & Hf & _)].
  - vm_compute in Hr. discriminate.
  - exists stx. split; [exact Hs|]. destruct Hf as (_ & _ & _ & _ & _ & _ & Hfees & _). split; [|exact Hfees].
    assert (Hone : sent (w3t_SignAndSendTransaction demo_w3t demo_call nothing_sent).1 = [asked_tx]) by (vm_compute; reflexivity).
    rewrite Hone in Hs. injection Hs as <-. reflexivity.
Defined.
