(* ===== verification/Registration.v ===== *)
(** * Registering an operator: [internal/operator/operator.go], [cmd/registerOperator]

    The command that registers an operator with the AVS: its configuration from flags, the
    signatures of key registrations, the loop over operator sets.  It works against the
    [IContractCaller] interface, whose answers depend on the calls made before;
    [ContractCaller] implements it.  The theorems: keys are registered set by set, each with a
    signature for its own hash, and the operator only after all of them; what the command
    registers is what its flags say, except where they are not read. *)

From S2P Require Import Prelude Bytes Types Gnark GoText Persistence NodeCore Messages Attestation Config Transport Web3Client TxSigner ContractCaller.
From Stdlib Require Import Ascii.
#[local] Open Scope Z_scope.

(** The calls that write to the chain. *)
Inductive chain_call :=
| RegisterKeyCall (operatorAddress avsAddress : Address) (operatorSetId : Z) (sigBytes keyData : bytes)
| CreateOperatorCall (avsAddress operatorAddress : Address) (operatorSetIds : list Z) (socket : string) (allocationDelay : Z) (metadataUri : string).

(** [contractCaller.IContractCaller], the methods that registration uses: the answers, after
    the calls made before. *)
Record IContractCaller `{ChainLib} := mkIContractCaller {
  icc_EncodeBN254KeyData : list chain_call -> bn254_PublicKey -> res bytes;
  icc_GetOperatorSetCurveType : list chain_call -> string -> Z -> Z -> res string;
  icc_ECDSAMessageHash : list chain_call -> Address -> Address -> Z -> Address -> res bytes;
  icc_BN254MessageHash : list chain_call -> Address -> Address -> Z -> bytes -> res bytes;
  icc_RegisterKey : list chain_call -> Address -> Address -> Z -> bytes -> bytes -> res Receipt;
  icc_CreateOperatorAndRegister : list chain_call -> Address -> Address -> list Z -> string -> Z -> string -> res Receipt
}.

(** crypto-libs: the rest of what keys can do. *)
Class KeyLib `{SignerLib} `{ChainLib} := {
  bn254_Public : bn254_PrivateKey -> bn254_PublicKey;
  bn254_Signature : Type;
  bn254_SignSolidity : bn254_PrivateKey -> bytes -> res bn254_Signature;
  Sig_ToPrecompileFormat : bn254_Signature -> res bytes;
  ecdsa_PublicKey : Type;
  ecdsa_Public : ecdsa_PrivateKey -> ecdsa_PublicKey;
  ecdsa_DeriveAddress : ecdsa_PrivateKey -> res Address;
  ecdsa_RawSign : ecdsa_PrivateKey -> bytes -> res bytes;
  ecdsa_SignAndPack : ecdsa_PrivateKey -> bytes -> res bytes;
  ecdsa_Signature : Type;
  ecdsa_SignatureFromBytes : bytes -> res ecdsa_Signature;
  ecdsa_Verify : ecdsa_Signature -> ecdsa_PublicKey -> bytes -> res bool;
  ecdsa_FromHexString : string -> res ecdsa_PrivateKey;
  bn254_FromHexString : string -> res bn254_PrivateKey
}.

(** The calls made, and the wire to the remote signer. *)
Record RegState := mkRegState { calls : list chain_call; signer_wire : Wire }.
Notation RG := (SM RegState).

Section Registration.
Context `{KeyLib} `{EthTxLib} `{EthAddr} `{TlsLib} `{RpcLib}.

(** *** [operator.go] *)

(** A [nil] or foreign key is [None]. *)
Record Operator := mkOperator {
  TransactionPrivateKey : string;
  TransactionAddress : Address;
  UseRemoteSigner : bool;
  SigningPrivateKey : option any_key;
  SigningAddress : option Address;
  ECDSAWeb3SignerClient : option w3_Client;
  ECDSASigningPublicKey : string;
  Curve : string;
  op_OperatorSetIds : list Z
}.
Record RegistrationConfig := mkRegistrationConfig { AllocationDelay : Z; MetadataUri : string; rc_Socket : string }.

Definition DeriveAddress (o : Operator) : res Address :=
  if UseRemoteSigner o then
    _ ← fail_if (TransactionAddress o =? 0) "transaction address must be provided when using remote signer";
    Ok (TransactionAddress o)
  else DeriveAddressFromECDSAPrivateKeyString (TransactionPrivateKey o).

Definition generateKeyData (operator : Operator) (cc : IContractCaller) (before : list chain_call) : res bytes :=
  if bool_decide (Curve operator = Config.CurveTypeECDSA) then
    match SigningAddress operator, SigningPrivateKey operator with
    | Some address, _ => Ok (addr_bytes address)
    | None, Some (EcdsaKey pk) => address ← wrap "failed to derive address from ECDSA private key" (ecdsa_DeriveAddress pk); Ok (addr_bytes address)
    | None, _ => Err "signing private key is not of type crypto-libs/ecdsa.PrivateKey and no signing address provided"
    end
  else if bool_decide (Curve operator = Config.CurveTypeBN254) then
    match SigningPrivateKey operator with
    | Some (Bn254Key privateKey) => wrap "failed to encode BN254 key data" (icc_EncodeBN254KeyData cc before (bn254_Public privateKey))
    | _ => Err "signing private key is not of type *bn254.PrivateKeyConfig"
    end
  else Err "unsupported curve type: %s".

Definition on_signer {A} (m : SM Wire A) : RG A := fun s => let '(w, r) := m (signer_wire s) in (mkRegState (calls s) w, r).
(** A call is part of the history that later answers see. *)
Definition chain {A} (c : chain_call) (answer : list chain_call -> res A) : RG A := fun s =>
  (mkRegState (calls s ++ [c])%list (signer_wire s), answer (calls s)).

Definition signing_address (operator : Operator) : res Address :=
  match SigningAddress operator, SigningPrivateKey operator with
  | Some address, _ => Ok address
  | None, Some (EcdsaKey pk) => wrap "failed to derive address from ECDSA private key" (ecdsa_DeriveAddress pk)
  | None, _ => Err "ECDSA signing requires either SigningAddress or SigningPrivateKey"
  end.

(** The local ECDSA signature; it is made twice and the packed one is verified. *)
Definition sign_local (key : option any_key) (messageHash : bytes) : res bytes :=
  match key with
  | Some (EcdsaKey pk) =>
      _ ← wrap "failed to sign message hash" (ecdsa_RawSign pk messageHash);
      signature ← wrap "failed to sign message hash" (ecdsa_SignAndPack pk messageHash);
      sig ← wrap "failed to create signature from bytes" (ecdsa_SignatureFromBytes signature);
      valid ← wrap "failed to verify signature" (ecdsa_Verify sig (ecdsa_Public pk) messageHash);
      _ ← fail_if (negb valid) "signature verification failed";
      Ok signature
  | _ => Err "signing private key is not of type *ecdsa.PrivateKey and no Web3Signer configured"
  end.
Definition sign_bn254 (key : option any_key) (messageHash : bytes) : res bytes :=
  match key with
  | Some (Bn254Key pk) =>
      sig ← bn254_SignSolidity pk messageHash;
      wrap "signature not in correct subgroup" (Sig_ToPrecompileFormat sig)
  | _ => Err "signing private key is not of type *bn254.PrivateKeyConfig"
  end.

(** The switch over the curve: the hash of the key's registration and its signature. *)
Definition sign_registration (svc : Service) (cc : IContractCaller) (operator : Operator) (operatorAddress avsAddress : Address) (operatorSetId : Z) (keyData : bytes) : RG bytes :=
  s ← sm_get;
  if bool_decide (Curve operator = Config.CurveTypeECDSA) then
    signingAddress ← sm_lift (signing_address operator);
    messageHash ← sm_lift (wrap "failed to get operator registration message hash"
      (icc_ECDSAMessageHash cc (calls s) operatorAddress avsAddress operatorSetId signingAddress));
    match ECDSAWeb3SignerClient operator with
    | Some client =>
        sigHex ← sm_wrap "failed to sign message hash with Web3Signer" (on_signer (Web3Client.SignRaw svc client (ECDSASigningPublicKey operator) messageHash));
        sm_lift (wrap "failed to decode Web3Signer signature" (hexutil_Decode sigHex))
    | None => sm_lift (sign_local (SigningPrivateKey operator) messageHash)
    end
  else if bool_decide (Curve operator = Config.CurveTypeBN254) then
    messageHash ← sm_lift (wrap "failed to get operator registration message hash"
      (icc_BN254MessageHash cc (calls s) operatorAddress avsAddress operatorSetId keyData));
    sm_lift (sign_bn254 (SigningPrivateKey operator) messageHash)
  else sm_fail "unsupported curve type: %s".

(** The body of the loop; [Fatalf] ends the process, an error here. *)
Definition register_set (svc : Service) (cc : IContractCaller) (operator : Operator) (operatorAddress avsAddress : Address) (keyData : bytes) (operatorSetId : Z) : RG unit :=
  s ← sm_get;
  setCurveType ← sm_lift (wrap "failed to get operator set curve type" (icc_GetOperatorSetCurveType cc (calls s) (Hex avsAddress) operatorSetId 0));
  _ ← sm_lift (fail_if (negb (bool_decide (setCurveType = Curve operator))) "operator set curve type %s does not match operator curve type %s");
  signature ← sign_registration svc cc operator operatorAddress avsAddress operatorSetId keyData;
  _ ← chain (RegisterKeyCall operatorAddress avsAddress operatorSetId signature keyData)
        (fun before => icc_RegisterKey cc before operatorAddress avsAddress operatorSetId signature keyData);
  mret tt.
Fixpoint register_sets (svc : Service) (cc : IContractCaller) (operator : Operator) (operatorAddress avsAddress : Address) (keyData : bytes) (operatorSetIds : list Z) : RG unit :=
  match operatorSetIds with
  | [] => mret tt
  | id :: ids => _ ← register_set svc cc operator operatorAddress avsAddress keyData id; register_sets svc cc operator operatorAddress avsAddress keyData ids
  end.

Definition RegisterOperatorToOperatorSets (svc : Service) (cc : IContractCaller) (avsAddress : Address) (operatorSetIds : list Z)
    (operator : Operator) (registrationConfig : RegistrationConfig) : RG Receipt :=
  operatorAddress ← sm_lift (wrap "failed to derive operator address" (DeriveAddress operator));
  s ← sm_get;
  keyData ← sm_lift (wrap "failed to get key data" (generateKeyData operator cc (calls s)));
  _ ← register_sets svc cc operator operatorAddress avsAddress keyData operatorSetIds;
  chain (CreateOperatorCall avsAddress operatorAddress operatorSetIds (rc_Socket registrationConfig) (AllocationDelay registrationConfig) (MetadataUri registrationConfig))
    (fun before => icc_CreateOperatorAndRegister cc before avsAddress operatorAddress operatorSetIds (rc_Socket registrationConfig)
                     (AllocationDelay registrationConfig) (MetadataUri registrationConfig)).

(** [ContractCaller] as the interface, of a chain that the calls change. *)
Definition contract_caller (cc : list chain_call -> ContractCaller) : IContractCaller := mkIContractCaller _
  (fun before => EncodeBN254KeyData (cc before))
  (fun before => GetOperatorSetCurveType (cc before))
  (fun before => GetOperatorECDSAKeyRegistrationMessageHash (cc before))
  (fun before => GetOperatorBN254KeyRegistrationMessageHash (cc before))
  (fun before => RegisterKeyWithKeyRegistrar (cc before))
  (fun before => CreateOperatorAndRegisterWithAvs (cc before)).
End Registration.

(** ** Keys first, then the operator *)

Section RegistrationFacts.
Context `{KeyLib} `{EthTxLib} `{EthAddr} `{TlsLib} `{RpcLib}.
Variables (svc : Service) (cc : IContractCaller) (operator : Operator) (operatorAddress avsAddress : Address) (keyData : bytes).

(** [sig] was made for the hash of the key's registration to the set: by the remote signer as
    it answered, by the key at hand and verified, or by the BN254 key. *)
Definition signed_registration (before : list chain_call) (set : Z) (sig : bytes) : Prop :=
  Curve operator = Config.CurveTypeECDSA /\
  (exists address hash, signing_address operator = Ok address /\ icc_ECDSAMessageHash cc before operatorAddress avsAddress set address = Ok hash /\
     match ECDSAWeb3SignerClient operator with
     | Some client => exists w w' sigHex, Web3Client.SignRaw svc client (ECDSASigningPublicKey operator) hash w = (w', Ok sigHex) /\ hexutil_Decode sigHex = Ok sig
     | None => exists pk s, SigningPrivateKey operator = Some (EcdsaKey pk) /\ ecdsa_SignatureFromBytes sig = Ok s /\ ecdsa_Verify s (ecdsa_Public pk) hash = Ok true
     end) \/
  Curve operator = Config.CurveTypeBN254 /\
  (exists pk hash s, SigningPrivateKey operator = Some (Bn254Key pk) /\ icc_BN254MessageHash cc before operatorAddress avsAddress set keyData = Ok hash /\
     bn254_SignSolidity pk hash = Ok s /\ Sig_ToPrecompileFormat s = Ok sig).

(** The call for a set, made after [before]: the set has the operator's curve, and the
    signature is for this registration. *)
Definition key_call (before : list chain_call) (set : Z) (c : chain_call) : Prop := exists sig,
  c = RegisterKeyCall operatorAddress avsAddress set sig keyData /\
  icc_GetOperatorSetCurveType cc before (Hex avsAddress) set 0 = Ok (Curve operator) /\ signed_registration before set sig.
Definition key_answer (before : list chain_call) (c : chain_call) : res Receipt :=
  match c with
  | RegisterKeyCall op avs set sig key => icc_RegisterKey cc before op avs set sig key
  | CreateOperatorCall avs op sets socket delay uri => icc_CreateOperatorAndRegister cc before avs op sets socket delay uri
  end.

(** The calls [new] registered the keys of [sets], in order, each with a receipt. *)
Inductive keys_registered : list chain_call -> list Z -> list chain_call -> Prop :=
| no_keys before : keys_registered before [] []
| next_key before set sets c new receipt :
    key_call before set c -> key_answer before c = Ok receipt -> keys_registered (before ++ [c]) sets new ->
    keys_registered before (set :: sets) (c :: new).

(** At [set], registration stopped: before its call, or by it. *)
Definition stopped_at (before : list chain_call) (set : Z) (new : list chain_call) : Prop :=
  new = [] \/ exists c, new = [c] /\ key_call before set c /\ is_ok (key_answer before c) = false.

Lemma sign_local_ok key hash sig : sign_local key hash = Ok sig ->
  exists pk s, key = Some (EcdsaKey pk) /\ ecdsa_SignatureFromBytes sig = Ok s /\ ecdsa_Verify s (ecdsa_Public pk) hash = Ok true.
Proof.
  unfold sign_local. destruct key as [[k|pk]|]; [done| |done]. intros (raw & _ & Hs)%res_bind_ok. apply res_bind_ok in Hs as (sig' & _ & Hs).
  apply res_bind_ok in Hs as (s & Hn%wrap_ok & Hs). apply res_bind_ok in Hs as (valid & Hv%wrap_ok & Hs). apply fail_if_bind in Hs as [Hvalid [= <-]].
  apply negb_false_iff in Hvalid as ->. by exists pk, s.
Qed.

Lemma sign_registration_ok set s s' r : sign_registration svc cc operator operatorAddress avsAddress set keyData s = (s', r) ->
  calls s' = calls s /\ forall sig, r = Ok sig -> signed_registration (calls s) set sig.
Proof.
  unfold sign_registration, signed_registration. sm_steps. destruct (bool_decide_reflect (Curve operator = Config.CurveTypeECDSA)) as [Hc|Hc].
  - destruct (signing_address operator) as [address|]; [|by intros [= <- <-]]. destruct (icc_ECDSAMessageHash _ _ _ _ _ _) as [hash|] eqn:Hh; cbn [wrap]; [|by intros [= <- <-]].
    destruct (ECDSAWeb3SignerClient operator) as [client|].
    + unfold sm_wrap, on_signer. destruct (Web3Client.SignRaw _ _ _ _ _) as [w [sigHex|]] eqn:Hs; cbn [wrap]; [|by intros [= <- <-]]. intros [= <- <-]. split; [done|].
      intros sig Hd%wrap_ok. left. split; [done|]. exists address, hash. split_and!; [done..|]. by exists (signer_wire s), w, sigHex.
    + intros [= <- <-]. split; [done|]. intros sig (pk & g & Hk & Hn & Hv)%sign_local_ok. left. split; [done|]. exists address, hash. split_and!; [done..|]. by exists pk, g.
  - destruct (bool_decide_reflect (Curve operator = Config.CurveTypeBN254)) as [Hb|Hb]; [|by intros [= <- <-]].
    destruct (icc_BN254MessageHash _ _ _ _ _ _) as [hash|] eqn:Hh; cbn [wrap]; [|by intros [= <- <-]]. intros [= <- <-]. split; [done|].
    intros sig Hs. right. split; [done|]. unfold sign_bn254 in Hs. destruct (SigningPrivateKey operator) as [[pk|]|]; try done.
    apply res_bind_ok in Hs as (g & Hg & Hp%wrap_ok). by exists pk, hash, g.
Qed.

Lemma register_set_ok set s s' r : register_set svc cc operator operatorAddress avsAddress keyData set s = (s', r) ->
  exists new, calls s' = (calls s ++ new)%list /\
    (is_ok r = false /\ stopped_at (calls s) set new \/
     exists c receipt, new = [c] /\ key_call (calls s) set c /\ key_answer (calls s) c = Ok receipt /\ r = Ok tt).
Proof.
  unfold register_set. sm_steps. destruct (icc_GetOperatorSetCurveType _ _ _ _ _) as [curve|] eqn:Hcurve; cbn [wrap]; [|intros [= <- <-]; exists []; rewrite app_nil_r; split; [done|]; left; by split; [|left]].
  destruct (bool_decide_reflect (curve = Curve operator)) as [->|Hne]; cbn [negb fail_if]; [|intros [= <- <-]; exists []; rewrite app_nil_r; split; [done|]; left; by split; [|left]].
  destruct (sign_registration _ _ _ _ _ _ _ _) as [s1 [sig|]] eqn:Hs; pose proof (sign_registration_ok _ _ _ _ Hs) as [Hcalls Hsig].
  - pose proof (Hsig sig eq_refl) as Hsigned. assert (Hcall : key_call (calls s) set (RegisterKeyCall operatorAddress avsAddress set sig keyData)) by by exists sig.
    unfold chain. rewrite Hcalls. destruct (icc_RegisterKey _ _ _ _ _ _ _) as [receipt|] eqn:Hk; intros [= <- <-]; cbn [calls]; exists [RegisterKeyCall operatorAddress avsAddress set sig keyData]; (split; [done|]).
    + right. by exists (RegisterKeyCall operatorAddress avsAddress set sig keyData), receipt.
    + left. split; [done|]. right. exists (RegisterKeyCall operatorAddress avsAddress set sig keyData). split_and!; [done..|]. cbn [key_answer]. by rewrite Hk.
  - intros [= <- <-]. exists []. rewrite app_nil_r. split; [done|]. left. by split; [|left].
Qed.

Lemma register_sets_ok sets s s' r : register_sets svc cc operator operatorAddress avsAddress keyData sets s = (s', r) ->
  exists ok rest new, sets = (ok ++ rest)%list /\ keys_registered (calls s) ok new /\
    (rest = [] /\ r = Ok tt /\ calls s' = (calls s ++ new)%list \/
     is_ok r = false /\ exists set later tail, rest = set :: later /\ stopped_at (calls s ++ new) set tail /\ calls s' = (calls s ++ new ++ tail)%list).
Proof.
  revert s. induction sets as [|set sets IH]; intros s; cbn [register_sets]; sm_steps.
  - intros [= <- <-]. exists [], [], []. split_and!; [done|constructor|]. left. by rewrite app_nil_r.
  - destruct (register_set _ _ _ _ _ _ _ _) as [s1 r1] eqn:Hone. apply register_set_ok in Hone as (new & Hcalls & [[Hr Hstop]|(c & receipt & -> & Hcall & Ha & ->)]).
    + destruct r1; [done|]. intros [= <- <-]. exists [], (set :: sets), []. split_and!; [done|constructor|]. right. split; [done|]. exists set, sets, new. by rewrite app_nil_r.
    + intros (ok & rest & new & -> & Hreg & Hrest)%IH. rewrite Hcalls in Hreg, Hrest. exists (set :: ok), rest, (c :: new). split_and!; [done|by econstructor|].
      rewrite <- !app_assoc in Hrest. destruct Hrest as [Hend|(Hr & x & later & tail & -> & Hstop & Hs)]; [by left|]. right. split; [done|]. exists x, later, tail. split_and!; [done|exact Hstop|by rewrite Hs, <- app_assoc].
Qed.
End RegistrationFacts.

(** C17: Keys first, then the operator: registration makes, in the order of the operator sets, one key
    registration for each, with a receipt, for a set of the operator's own curve and with a
    signature for that registration's own hash (made by the operator's key: a local ECDSA
    signature is verified before it is used, a local BN254 one and a remote signer's are
    taken as they come); only when the last has its receipt is the operator registered with the AVS,
    for all sets at once, and its receipt is the result.  An error stops at the set it comes
    from: the operator is not registered, the keys of the sets before it stay registered, and
    for that set at most the call that failed was made. *)
Theorem keys_then_operator `{KeyLib} `{EthTxLib} `{EthAddr} `{TlsLib} `{RpcLib} svc cc avs sets operator cfg s s' r :
  RegisterOperatorToOperatorSets svc cc avs sets operator cfg s = (s', r) ->
  calls s' = calls s /\ is_ok r = false \/
  exists op keyData ok rest new, DeriveAddress operator = Ok op /\ generateKeyData operator cc (calls s) = Ok keyData /\
    sets = (ok ++ rest)%list /\ keys_registered svc cc operator op avs keyData (calls s) ok new /\
    (is_ok r = false /\ (exists set later tail, rest = set :: later /\ stopped_at svc cc operator op avs keyData (calls s ++ new) set tail /\
       calls s' = (calls s ++ new ++ tail)%list) \/
     rest = [] /\ exists c, c = CreateOperatorCall avs op sets (rc_Socket cfg) (AllocationDelay cfg) (MetadataUri cfg) /\
       calls s' = (calls s ++ new ++ [c])%list /\ r = key_answer cc (calls s ++ new) c).
Proof.
  unfold RegisterOperatorToOperatorSets. sm_steps. destruct (DeriveAddress operator) as [op|]; cbn [wrap]; [|intros [= <- <-]; by left].
  destruct (generateKeyData operator cc (calls s)) as [keyData|]; cbn [wrap]; [|intros [= <- <-]; by left].
  destruct (register_sets _ _ _ _ _ _ _ _) as [s1 r1] eqn:Hsets. apply register_sets_ok in Hsets as (ok & rest & new & Hsplit & Hreg & Hend). intros Hrun. right.
  exists op, keyData, ok, rest, new. split_and!; [done..|]. destruct Hend as [(Hrest & -> & Hcalls)|(Hr & set & later & tail & Hrest & Hstop & Hcalls)].
  - right. split; [done|]. eexists. split; [done|]. unfold chain in Hrun. injection Hrun as <- <-. cbn [calls key_answer]. by rewrite Hcalls, <- app_assoc.
  - destruct r1; [done|]. injection Hrun as <- <-. left. split; [done|]. exists set, later, tail. by split_and!.
Qed.

(** ** The command: [cmd/registerOperator/main.go] *)

Record reg_RemoteSignerConfig := mkRegRemoteSigner { rr_Url : string; rr_CACert : string; rr_Cert : string; rr_Key : string; rr_FromAddress : string }.

(** The private keys, which [Validate] rewrites, are together. *)
Record reg_Keys := mkRegKeys { OperatorPrivateKey : string; BN254PrivateKey : string; ECDSAPrivateKey : string }.
Record reg_OperatorConfig := mkRegConfig {
  AVSAddress : Address;
  reg_OperatorAddress : Address;
  keys : reg_Keys;
  Socket : string;
  OperatorSetID : Z;
  RPCUrl : string;
  ChainID_ : Z;
  DryRun : bool;
  OperatorUseRemoteSigner : bool;
  OperatorRemoteSignerConfig : option reg_RemoteSignerConfig;
  ECDSAUseRemoteSigner : bool;
  ECDSARemoteSignerConfig : option reg_RemoteSignerConfig;
  reg_ECDSASigningPublicKey : string;
  ECDSASigningAddress : Address
}.
Definition set_keys (k : reg_Keys) (c : reg_OperatorConfig) : reg_OperatorConfig :=
  mkRegConfig (AVSAddress c) (reg_OperatorAddress c) k (Socket c) (OperatorSetID c) (RPCUrl c) (ChainID_ c) (DryRun c) (OperatorUseRemoteSigner c)
    (OperatorRemoteSignerConfig c) (ECDSAUseRemoteSigner c) (ECDSARemoteSignerConfig c) (reg_ECDSASigningPublicKey c) (ECDSASigningAddress c).

Definition has_prefix (s prefix : string) : bool := HasPrefix (chars_of s) (chars_of prefix).
Definition with_0x (key : string) : string := if has_prefix key "0x" then key else ("0x" +:+ key)%string.

Definition check_key (msg key : string) : res unit := fail_if (negb (String.length key =? 66)%nat) msg.

(** The checks of [Validate] that rewrite a key. *)
Definition check_operator_signing : SM reg_OperatorConfig unit :=
  c ← sm_get;
  if OperatorUseRemoteSigner c then
    signer ← sm_lift (from_opt "operator remote signer config is required when using remote signer" (OperatorRemoteSignerConfig c));
    sm_lift (fail_if (bool_decide (rr_Url signer = ""%string)) "operator Web3Signer URL is required when using remote signer")
  else
    _ ← sm_lift (fail_if (bool_decide (OperatorPrivateKey (keys c) = ""%string)) "operator private key is required when not using remote signer");
    let key := with_0x (OperatorPrivateKey (keys c)) in
    _ ← sm_modify (set_keys (mkRegKeys key (BN254PrivateKey (keys c)) (ECDSAPrivateKey (keys c))));
    sm_lift (check_key "operator ECDSA private key must be 32 bytes (64 hex chars), got %d chars" key).

Definition check_bn254_signing : SM reg_OperatorConfig unit :=
  c ← sm_get;
  if negb (bool_decide (BN254PrivateKey (keys c) = ""%string)) then
    let key := with_0x (BN254PrivateKey (keys c)) in
    _ ← sm_modify (set_keys (mkRegKeys (OperatorPrivateKey (keys c)) key (ECDSAPrivateKey (keys c))));
    sm_lift (check_key "BN254 private key must be 32 bytes (64 hex chars), got %d chars" key)
  else mret tt.

Definition check_ecdsa_signing : SM reg_OperatorConfig unit :=
  c ← sm_get;
  if ECDSAUseRemoteSigner c then
    signer ← sm_lift (from_opt "ECDSA remote signer config is required when using ECDSA remote signer" (ECDSARemoteSignerConfig c));
    _ ← sm_lift (fail_if (bool_decide (rr_Url signer = ""%string)) "ECDSA Web3Signer URL is required when using ECDSA remote signer");
    _ ← sm_lift (fail_if (bool_decide (reg_ECDSASigningPublicKey c = ""%string)) "ECDSA signing public key is required when using ECDSA remote signer");
    sm_lift (fail_if (ECDSASigningAddress c =? 0) "ECDSA signing address is required when using ECDSA remote signer")
  else if negb (bool_decide (ECDSAPrivateKey (keys c) = ""%string)) then
    sm_modify (set_keys (mkRegKeys (OperatorPrivateKey (keys c)) (BN254PrivateKey (keys c)) (with_0x (ECDSAPrivateKey (keys c)))))
  else mret tt.

(** [Validate]: what it makes of the configuration, and its verdict. *)
Definition reg_Validate : SM reg_OperatorConfig unit :=
  c ← sm_get;
  _ ← sm_lift (fail_if (AVSAddress c =? 0) "AVS address cannot be empty");
  _ ← sm_lift (fail_if (reg_OperatorAddress c =? 0) "operator address cannot be empty");
  _ ← check_operator_signing;
  c ← sm_get;
  _ ← sm_lift (fail_if (bool_decide (BN254PrivateKey (keys c) = ""%string) && bool_decide (ECDSAPrivateKey (keys c) = ""%string) && negb (ECDSAUseRemoteSigner c))
                 "either BN254 private key, ECDSA private key, or ECDSA Web3Signer must be configured");
  _ ← check_bn254_signing;
  _ ← check_ecdsa_signing;
  c ← sm_get;
  _ ← sm_lift (fail_if (bool_decide (Socket c = ""%string)) "socket address cannot be empty");
  _ ← sm_lift (fail_if (negb (has_prefix (Socket c) "http://") && negb (has_prefix (Socket c) "https://")) "socket address must start with http:// or https://");
  _ ← sm_lift (fail_if (bool_decide (RPCUrl c = ""%string)) "RPC URL cannot be empty");
  _ ← sm_lift (fail_if (negb (has_prefix (RPCUrl c) "http://") && negb (has_prefix (RPCUrl c) "https://") && negb (has_prefix (RPCUrl c) "ws://") && negb (has_prefix (RPCUrl c) "wss://"))
                 "RPC URL must start with http://, https://, ws://, or wss://");
  sm_lift (fail_if (negb (bool_decide (ChainID_ c ∈ GetSupportedChainIDs))) "unsupported chain ID %d. Supported: %s").

Section Command.
Context `{KeyLib} `{EthTxLib} `{EthAddr} `{TlsLib} `{RpcLib}.

Definition parseOperatorConfig (c : cli_Context) : reg_OperatorConfig :=
  let operatorAddress := HexToAddress (flag_String c "operator-address") in
  let operatorRemote := flag_Bool c "operator-use-remote-signer" in
  let ecdsaRemote := flag_Bool c "ecdsa-use-remote-signer" in
  mkRegConfig (HexToAddress (flag_String c "avs-address")) operatorAddress
    (mkRegKeys (flag_String c "operator-private-key") (flag_String c "bn254-private-key") (flag_String c "ecdsa-private-key"))
    (flag_String c "socket") (flag_Uint64 c "operator-set-id" `mod` 2 ^ 32) (flag_String c "rpc-url") (flag_Uint64 c "chain-id") (flag_Bool c "dry-run")
    operatorRemote
    (if operatorRemote then Some (mkRegRemoteSigner (flag_String c "operator-web3signer-url") (flag_String c "operator-web3signer-ca-cert")
                                    (flag_String c "operator-web3signer-cert") (flag_String c "operator-web3signer-key") (Hex operatorAddress)) else None)
    ecdsaRemote
    (if ecdsaRemote then Some (mkRegRemoteSigner (flag_String c "ecdsa-web3signer-url") (flag_String c "ecdsa-web3signer-ca-cert")
                                 (flag_String c "ecdsa-web3signer-cert") (flag_String c "ecdsa-web3signer-key") ""%string) else None)
    (flag_String c "ecdsa-web3signer-public-key") (HexToAddress (flag_String c "ecdsa-signing-address")).

(** The signer of transactions that was made. *)
Inductive tx_signer := LocalSigner (pks : PrivateKeySigner) | RemoteTxSigner (w3s : Web3TransactionSigner).

(** The world: what dialling a URL gives, the chain behind a connection after the calls made,
    how a transaction signer then behaves, and the Web3Signer service. *)
Record World := mkWorld {
  dial : string -> res (Backend * EthClient);
  backend_after : list chain_call -> Backend -> Backend;
  signs_after : tx_signer -> list chain_call -> ITransactionSigner;
  service : Service
}.
Variable world : World.

Definition new_web3_client (signer : option reg_RemoteSignerConfig) : res w3_Client :=
  signer ← from_opt "panic: nil pointer dereference" signer;
  w3_NewClient (Some (NewConfigWithTLS (rr_Url signer) (rr_CACert signer) (rr_Cert signer) (rr_Key signer))) true.

Definition operator_signer (cfg : reg_OperatorConfig) (eth : EthClient) : res tx_signer :=
  if OperatorUseRemoteSigner cfg then
    web3SignerClient ← wrap "failed to create operator Web3Signer client: %v" (new_web3_client (OperatorRemoteSignerConfig cfg));
    w3s ← wrap "failed to create operator Web3Signer transaction signer: %v" (NewWeb3TransactionSigner web3SignerClient (service world) (reg_OperatorAddress cfg) eth);
    Ok (RemoteTxSigner w3s)
  else
    pks ← wrap "failed to create operator signer: %v" (NewPrivateKeySigner (OperatorPrivateKey (keys cfg)) eth);
    Ok (LocalSigner pks).

(** The caller after the calls made: its connection and its signer see them. *)
Definition caller_after (cc : ContractCaller) (signer : tx_signer) (before : list chain_call) : ContractCaller :=
  mkContractCaller (backend_after world before (ethclient cc)) (allocationManager cc) (delegationManager cc) (keyRegistrar cc) (releaseManager cc)
    (permissionController cc) (appController cc) (appControllerClient cc) (signs_after world signer before).

(** The curve of the operator and its signing key. *)
Definition build_operator (cfg : reg_OperatorConfig) : res Operator :=
  let op := mkOperator (OperatorPrivateKey (keys cfg)) (reg_OperatorAddress cfg) (OperatorUseRemoteSigner cfg) in
  let sets := [OperatorSetID cfg] in
  if negb (bool_decide (ECDSAPrivateKey (keys cfg) = ""%string)) || ECDSAUseRemoteSigner cfg then
    if ECDSAUseRemoteSigner cfg then
      client ← wrap "failed to create ECDSA Web3Signer client: %v" (new_web3_client (ECDSARemoteSignerConfig cfg));
      Ok (op None (Some (ECDSASigningAddress cfg)) (Some client) (reg_ECDSASigningPublicKey cfg) Config.CurveTypeECDSA sets)
    else
      key ← wrap "failed to parse ECDSA private key: %v" (ecdsa_FromHexString (ECDSAPrivateKey (keys cfg)));
      Ok (op (Some (EcdsaKey key)) None None ""%string Config.CurveTypeECDSA sets)
  else
    key ← wrap "failed to parse BN254 private key: %v" (bn254_FromHexString (BN254PrivateKey (keys cfg)));
    Ok (op (Some (Bn254Key key)) None None ""%string Config.CurveTypeBN254 sets).

Definition executeRegistration (cfg : reg_OperatorConfig) : RG unit :=
  '(backend, eth) ← sm_lift (wrap "failed to get Ethereum contract caller: %v" (dial world (RPCUrl cfg)));
  operatorSigner ← sm_lift (operator_signer cfg eth);
  s ← sm_get;
  cc ← sm_lift (wrap "failed to create operator contract caller: %v" (NewContractCaller backend (signs_after world operatorSigner (calls s))));
  op ← sm_lift (build_operator cfg);
  receipt ← sm_wrap "failed to register operator" (RegisterOperatorToOperatorSets (service world) (contract_caller (caller_after cc operatorSigner))
    (AVSAddress cfg) [OperatorSetID cfg] op (mkRegistrationConfig 0 ""%string (Socket cfg)));
  mret tt.

Definition registerOperator (c : cli_Context) : RG unit :=
  let '(cfg, r) := reg_Validate (parseOperatorConfig c) in
  _ ← sm_lift (wrap "validation error" r);
  if DryRun cfg then mret tt else sm_wrap "registration failed" (executeRegistration cfg).
End Command.

(** ** What the command registers *)

Lemma with_0x_trimmed key : TrimPrefix_0x (with_0x key) = TrimPrefix_0x key.
Proof.
  unfold with_0x, has_prefix, HasPrefix, TrimPrefix_0x, TrimPrefix. case_bool_decide as Hp; [done|].
  assert (Ha : chars_of ("0x" +:+ key)%string = (chars_of "0x" ++ chars_of key)%list) by done. rewrite Ha, (proj2 (strip_one_prefix _ _ _) eq_refl).
  destruct (strip _ (chars_of key)); [by destruct Hp; eexists|]. unfold string_of, chars_of. apply String.string_of_list_ascii_of_string.
Qed.
Lemma with_0x_given key : with_0x key <> ""%string.
Proof. unfold with_0x. destruct (has_prefix key "0x") eqn:Hp; [|done]. by intros ->. Qed.

(** A validated configuration is the one that was parsed, but for prefixes of its keys. *)
Record command_ready (c c' : reg_OperatorConfig) : Prop := {
  ready_keys : c' = set_keys (keys c') c;
  ready_avs : AVSAddress c <> 0;
  ready_operator : reg_OperatorAddress c <> 0;
  ready_socket : has_prefix (Socket c) "http://" || has_prefix (Socket c) "https://" = true;
  ready_chain : ChainID_ c ∈ GetSupportedChainIDs;
  ready_local : OperatorUseRemoteSigner c = false ->
    OperatorPrivateKey (keys c') = with_0x (OperatorPrivateKey (keys c)) /\ String.length (OperatorPrivateKey (keys c')) = 66%nat;
  ready_ecdsa : ECDSAPrivateKey (keys c') = ""%string <-> ECDSAPrivateKey (keys c) = ""%string
}.

Lemma check_operator_signing_ok c c' u : check_operator_signing c = (c', Ok u) -> exists key,
  c' = set_keys (mkRegKeys key (BN254PrivateKey (keys c)) (ECDSAPrivateKey (keys c))) c /\
  (OperatorUseRemoteSigner c = false -> key = with_0x (OperatorPrivateKey (keys c)) /\ String.length key = 66%nat).
Proof.
  unfold check_operator_signing. intros Hv. sm_ok Hv. destruct (OperatorUseRemoteSigner c) eqn:Hr.
  - sm_ok Hv. apply sm_lift_ok in Hv as [-> _]. exists (OperatorPrivateKey (keys c)). split; [by destruct c as [? ? []]|done].
  - sm_ok Hv. apply sm_lift_ok in Hv as [-> Hk%fail_if_ok]. eexists. split; [done|]. intros _. split; [done|]. by apply negb_false_iff, Nat.eqb_eq in Hk.
Qed.
Lemma check_bn254_signing_ok c c' u : check_bn254_signing c = (c', Ok u) -> exists key,
  c' = set_keys (mkRegKeys (OperatorPrivateKey (keys c)) key (ECDSAPrivateKey (keys c))) c.
Proof.
  unfold check_bn254_signing. intros Hv. sm_ok Hv. destruct (negb _).
  - sm_ok Hv. apply sm_lift_ok in Hv as [-> _]. by eexists.
  - injection Hv as <- _. exists (BN254PrivateKey (keys c)). by destruct c as [? ? []].
Qed.
Lemma check_ecdsa_signing_ok c c' u : check_ecdsa_signing c = (c', Ok u) -> exists key,
  c' = set_keys (mkRegKeys (OperatorPrivateKey (keys c)) (BN254PrivateKey (keys c)) key) c /\ (key = ""%string <-> ECDSAPrivateKey (keys c) = ""%string).
Proof.
  assert (Hsame : c = set_keys (mkRegKeys (OperatorPrivateKey (keys c)) (BN254PrivateKey (keys c)) (ECDSAPrivateKey (keys c))) c) by by destruct c as [? ? []].
  unfold check_ecdsa_signing. intros Hv. sm_ok Hv. destruct (ECDSAUseRemoteSigner c).
  - sm_ok Hv. apply sm_lift_ok in Hv as [-> _]. by exists (ECDSAPrivateKey (keys c)).
  - destruct (bool_decide_reflect (ECDSAPrivateKey (keys c) = ""%string)) as [He|He]; cbn [negb] in Hv.
    + injection Hv as <- _. by exists (ECDSAPrivateKey (keys c)).
    + apply sm_modify_ok in Hv. eexists. split; [done|]. split; [by intros ?%with_0x_given|done].
Qed.

Lemma validate_ready c c' u : reg_Validate c = (c', Ok u) -> command_ready c c'.
Proof.
  unfold reg_Validate. intros Hv. sm_ok Hv. apply sm_bind_ok in Hv as (c1 & [] & (k1 & -> & Hk1)%check_operator_signing_ok & Hv). sm_ok Hv.
  apply sm_bind_ok in Hv as (c2 & [] & (k2 & ->)%check_bn254_signing_ok & Hv). apply sm_bind_ok in Hv as (c3 & [] & (k3 & -> & Hk3)%check_ecdsa_signing_ok & Hv).
  sm_ok Hv. apply sm_lift_ok in Hv as [-> Hchain%fail_if_ok]. cbn in *. constructor; cbn; try done; try (by apply Z.eqb_neq).
  - by destruct (has_prefix _ "http://"), (has_prefix _ "https://").
  - apply negb_false_iff, bool_decide_eq_true in Hchain. done.
Qed.

Section CommandFacts.
Context `{KeyLib} `{EthTxLib} `{EthAddr} `{TlsLib} `{RpcLib}.

Lemma on_success svc cc avs sets operator cfg s s' receipt :
  RegisterOperatorToOperatorSets svc cc avs sets operator cfg s = (s', Ok receipt) -> exists op keyData new, DeriveAddress operator = Ok op /\
    let c := CreateOperatorCall avs op sets (rc_Socket cfg) (AllocationDelay cfg) (MetadataUri cfg) in
    generateKeyData operator cc (calls s) = Ok keyData /\ keys_registered svc cc operator op avs keyData (calls s) sets new /\
    calls s' = (calls s ++ new ++ [c])%list /\ key_answer cc (calls s ++ new) c = Ok receipt.
Proof.
  unfold RegisterOperatorToOperatorSets. intros Hr. sm_ok Hr. apply sm_bind_ok in Hr as (s1 & [] & Hsets & Hr).
  apply register_sets_ok in Hsets as (ok & rest & new & -> & Hreg & [(-> & _ & Hcalls)|[? _]]); [|done]. rewrite app_nil_r in *.
  unfold chain in Hr. injection Hr as <- Hr. eexists _, _, new. split; [done|]. cbv zeta. split_and!; [done..| |]; cbn [calls key_answer]; by rewrite Hcalls, <- ?app_assoc in *.
Qed.

Lemma built_operator cfg op : build_operator cfg = Ok op ->
  TransactionPrivateKey op = OperatorPrivateKey (keys cfg) /\ TransactionAddress op = reg_OperatorAddress cfg /\ UseRemoteSigner op = OperatorUseRemoteSigner cfg /\
  Curve op = (if negb (bool_decide (ECDSAPrivateKey (keys cfg) = ""%string)) || ECDSAUseRemoteSigner cfg then Config.CurveTypeECDSA else Config.CurveTypeBN254).
Proof.
  unfold build_operator. cbv zeta. destruct (_ || _); [destruct (ECDSAUseRemoteSigner cfg)|]; intros (k & _ & [= <-])%res_bind_ok; by cbn.
Qed.

Definition given (c : cli_Context) (name : string) : bool := negb (bool_decide (flag_String c name = ""%string)).

(** The address that the command registers: that of the flag for a remote signer, and that of
    the private key otherwise. *)
Definition registered_address (c : cli_Context) (op : Address) : Prop :=
  if flag_Bool c "operator-use-remote-signer" then op = HexToAddress (flag_String c "operator-address")
  else exists pk, HexToECDSA (TrimPrefix_0x (flag_String c "operator-private-key")) = Ok pk /\ op = PubkeyToAddress pk.

(** The command registers what its flags say: a dry run does nothing; otherwise, when it ends
    without an error, exactly two calls were made and answered with a receipt.  The first
    registers the operator's key for the set of the flag, modulo 2^32, of the curve that an
    ECDSA key or remote signer selects even when a BN254 key is given, with a signature for that
    registration; the second registers the operator for that set with the flag's socket, which
    is an HTTP URL.  The operator is the address of the private key: the flag of the operator's
    address is only used with a remote signer. *)
Theorem registration_command (world : World) c s s' : registerOperator world c s = (s', Ok tt) ->
  if flag_Bool c "dry-run" then s' = s else
  exists backend eth signer caller operator op keyData key receipt receipt', dial world (flag_String c "rpc-url") = Ok (backend, eth) /\
    NewContractCaller backend (signs_after world signer (calls s)) = Ok caller /\ registered_address c op /\
    let cc := contract_caller (caller_after world caller signer) in
    let avs := HexToAddress (flag_String c "avs-address") in
    let set := flag_Uint64 c "operator-set-id" mod 2 ^ 32 in
    let create := CreateOperatorCall avs op [set] (flag_String c "socket") 0 ""%string in
    avs <> 0 /\ flag_Uint64 c "chain-id" ∈ GetSupportedChainIDs /\
    has_prefix (flag_String c "socket") "http://" || has_prefix (flag_String c "socket") "https://" = true /\
    Curve operator = (if given c "ecdsa-private-key" || flag_Bool c "ecdsa-use-remote-signer" then Config.CurveTypeECDSA else Config.CurveTypeBN254) /\
    calls s' = (calls s ++ [key; create])%list /\ key_call (service world) cc operator op avs keyData (calls s) set key /\
    key_answer cc (calls s) key = Ok receipt /\ key_answer cc (calls s ++ [key]) create = Ok receipt'.
Proof.
  unfold registerOperator. destruct (reg_Validate (parseOperatorConfig c)) as [cfg r] eqn:Hv. intros Hr. sm_ok Hr. subst r.
  destruct (validate_ready _ _ _ Hv) as [Hkeys Havs Hop Hsocket Hchain Hlocal Hecdsa].
  assert (Hdry : DryRun cfg = flag_Bool c "dry-run") by by rewrite Hkeys. rewrite Hdry in Hr. destruct (flag_Bool c "dry-run"); [by injection Hr|].
  apply sm_wrap_ok in Hr. unfold executeRegistration in Hr. apply sm_bind_ok in Hr as (s1 & [backend eth] & [-> Hdial%wrap_ok]%sm_lift_ok & Hr). cbv beta iota in Hr. sm_ok Hr.
  apply sm_bind_ok in Hr as (s1 & receipt' & Hreg%sm_wrap_ok & Hr). injection Hr as <-.
  apply on_success in Hreg as (op & keyData & new & Hda & Hkd & Hkr & Hcalls & Hlast). cbn [rc_Socket AllocationDelay MetadataUri] in *.
  inversion Hkr as [|? ? ? key new' receipt Hcall Hans Hrest]; subst. inversion Hrest; subst. clear Hkr Hrest.
  match goal with Hb : build_operator cfg = Ok ?o, Hn : NewContractCaller _ (signs_after _ ?sg _) = Ok ?cc |- _ => exists backend, eth, sg, cc, o; rename Hb into Hbuilt; rename Hn into Hnew end.
  apply built_operator in Hbuilt as (Hpk & Hta & Hrs & Hcurve). exists op, keyData, key, receipt, receipt'.
  assert (Hfields : RPCUrl cfg = flag_String c "rpc-url" /\ OperatorUseRemoteSigner cfg = flag_Bool c "operator-use-remote-signer" /\
    reg_OperatorAddress cfg = HexToAddress (flag_String c "operator-address") /\ ECDSAUseRemoteSigner cfg = flag_Bool c "ecdsa-use-remote-signer" /\
    AVSAddress cfg = HexToAddress (flag_String c "avs-address") /\ Socket cfg = flag_String c "socket" /\ OperatorSetID cfg = flag_Uint64 c "operator-set-id" mod 2 ^ 32)
    by (rewrite Hkeys; by split_and!).
  destruct Hfields as (Hurl & Hremote & Hflag & Hecdsar & Havsf & Hsock & Hset). rewrite Hurl in Hdial. rewrite Havsf, Hsock, Hset in *. cbv zeta. split_and!; try done.
  - unfold registered_address, DeriveAddress in *. rewrite Hrs, Hremote, Hta, Hpk, Hflag in Hda. destruct (flag_Bool c "operator-use-remote-signer") eqn:Hb.
    + apply fail_if_bind in Hda as [_ Hda]. by injection Hda.
    + destruct (Hlocal Hb) as [Hk _]. rewrite Hk in Hda. cbn [keys parseOperatorConfig OperatorPrivateKey] in Hda. unfold DeriveAddressFromECDSAPrivateKeyString, StringToECDSAPrivateKey in Hda.
      apply res_bind_ok in Hda as (pk & Hp%wrap_ok & [= <-]). apply fail_if_bind in Hp as [_ Hp%wrap_ok]. rewrite with_0x_trimmed in Hp. by exists pk.
  - rewrite Hcurve, Hecdsar. unfold given. by rewrite (bool_decide_ext _ _ Hecdsa).
Qed.
End CommandFacts.

(** ** Witnesses: an operator of two sets whose second registration fails; a run of the command *)

#[local] Existing Instances Transport.key_signers ContractCaller.demo_chain ContractCaller.number_addr TxSigner.demo_eth TxSigner.one_rpc Web3Client.demo_tls.
#[local] Instance demo_keys : KeyLib := {
  bn254_Public k := be_val k; bn254_Signature := bytes; bn254_SignSolidity k h := Ok (k ++ h)%list; Sig_ToPrecompileFormat s := Ok s;
  ecdsa_PublicKey := Address; ecdsa_Public k := k; ecdsa_DeriveAddress k := Ok k; ecdsa_RawSign k h := Ok h;
  ecdsa_SignAndPack k h := Ok (addr_bytes k ++ h)%list; ecdsa_Signature := bytes; ecdsa_SignatureFromBytes s := Ok s;
  ecdsa_Verify s k h := Ok (bool_decide (s = addr_bytes k ++ h))%list;
  ecdsa_FromHexString s := Ok (Z.of_nat (String.length s)); bn254_FromHexString s := Err "invalid"
}.
Definition broke_signer : ITransactionSigner := mkTransactionSigner (Ok tt : res (@TxOpts ContractCaller.demo_chain)) (fun tx => Err "insufficient funds").
Definition demo_icc : IContractCaller := contract_caller (fun before =>
  if (length before =? 0)%nat then demo_caller
  else mkContractCaller (1000 : @Backend ContractCaller.demo_chain) "" "" "" "" None None None broke_signer).
Definition demo_service : Service := fun _ _ => Err "connection refused".
Definition demo_operator : Operator := mkOperator "" 9 true (Some (EcdsaKey 5)) None None "" Config.CurveTypeECDSA [3; 4].
Definition demo_key (set : Z) : chain_call := RegisterKeyCall 9 12 set (addr_bytes 5 ++ [9; 12; set; 5])%list (addr_bytes 5).
Definition no_calls : RegState := mkRegState [] (mkWire 0 []).

(** The key of set 3 is registered, the call for set 4 fails, and the operator is not registered. *)
Lemma keys_then_operator_witness :
  let run := RegisterOperatorToOperatorSets demo_service demo_icc 12 [3; 4] demo_operator (mkRegistrationConfig 0 "" "http://a:1") no_calls in
  calls run.1 = [demo_key 3; demo_key 4] /\ is_ok run.2 = false /\
  exists ok rest, [3; 4] = (ok ++ rest)%list /\ rest <> [].
Proof.
  set (run := RegisterOperatorToOperatorSets demo_service demo_icc 12 [3; 4] demo_operator (mkRegistrationConfig 0 "" "http://a:1") no_calls).
  assert (Hcalls : calls run.1 = [demo_key 3; demo_key 4]) by (vm_compute; reflexivity). assert (Hr : is_ok run.2 = false) by (vm_compute; reflexivity).
  cbv zeta. split; [exact Hcalls|]. split; [exact Hr|].
  destruct (keys_then_operator _ _ _ _ _ _ _ _ _ (surjective_pairing run)) as [[Hn _]|(op & key & ok & rest & new & _ & _ & Hsplit & _ & [(_ & set & later & tail & -> & _)|(_ & c & -> & Hc & _)])].
  - rewrite Hcalls in Hn. discriminate.
  - by exists ok, (set :: later).
  - rewrite Hcalls in Hc. destruct new as [|a [|b [|? ?]]]; discriminate.
Defined.

Definition demo_world : World := mkWorld (fun _ => Ok (1000 : @Backend ContractCaller.demo_chain, TxSigner.demo_client)) (fun _ b => b) (fun _ _ => demo_tx_signer) demo_service.
Definition register_flags : cli_Context := mkContext
  (fun name => default ""%string (list_to_map (M := gmap string string) [("avs-address", "12"); ("operator-address", "5");
     ("operator-private-key", "aaaaaaaaaaaaaaaaaaaaaaaaaaaaaaaaaaaaaaaaaaaaaaaaaaaaaaaaaaaaaaaa"); ("ecdsa-private-key", "07");
     ("socket", "http://a:1"); ("rpc-url", "http://rpc")]%string !! name))
  (fun _ => false) (fun _ => 0) (fun name => if bool_decide (name = "chain-id") then 31337 else 2 ^ 32 + 7) (fun _ => 0) (fun _ => []).

(** The flags name operator 5 and set 2^32 + 7; the operator of the key, 64, is registered for set 7. *)
Lemma registration_command_witness : exists s' op key, registerOperator demo_world register_flags no_calls = (s', Ok tt) /\
  registered_address register_flags op /\ calls s' = [key; CreateOperatorCall 12 op [7] "http://a:1" 0 ""].
Proof.
  destruct (registerOperator demo_world register_flags no_calls) as [s' r] eqn:Hrun.
  assert (Hr : r = Ok tt) by (change r with (s', r).2; rewrite <- Hrun; vm_compute; reflexivity). subst r.
  destruct (registration_command demo_world register_flags no_calls s' Hrun) as (backend & eth & signer & caller & operator & op & keyData & key & receipt & receipt' & _ & _ & Hop & _ & _ & _ & _ & Hcalls & _).
  exists s', op, key. split; [reflexivity|]. split; [exact Hop|]. exact Hcalls.
Defined.
