(* ===== verification/Router.v ===== *)
(** * The router: [pkg/node/server.go]

    [NewServer]'s table of routes with the wrappers of each: a bound on the body, the
    semaphore of [concurrencyLimit], the token bucket of [rateLimited]; requests arrive, run
    and return in any order.  [golang.org/x/time/rate] is a parameter with the bound it
    documents.  The theorems: whatever the interleaving, the server behind the router makes
    the steps of [Secrets] on the requests that were let through, of which there are never
    more at once, nor in any window of time, than the limits say; the limit of a body is
    smaller than the limits of its fields. *)

From stdpp Require Import functions.
From S2P Require Import Prelude Bytes Types Fr Gnark Toy Crypto KeyStore Persistence Session NodeCore NodeOps Messages GoText Attestation Encryption Handlers Secrets.
From Stdlib Require Import Ascii.

(** [rate.NewLimiter(rps, burst)] and [Allow], at a time in nanoseconds. *)
Class RateLib := {
  Limiter : Type;
  NewLimiter : Z -> Z -> Limiter;
  Allow : Z -> Limiter -> Limiter * bool
}.

(** The verdict of a wrapper: the wrapped handler is called, or an error is written. *)
Inductive verdict := Pass | Refuse (code : Z) (body : string).

Section Wrappers.
Context `{RateLib}.

Definition rateLimited (now : Z) (limiter : Limiter) : Limiter * verdict :=
  let '(limiter, allow) := Allow now limiter in (limiter, if allow : bool then Pass else Refuse 429 "too many requests").

(** The buffered channel is the number of its elements; the deferred receive of a handler
    that has returned or panicked takes one out. *)
Definition concurrencyLimit (maxConcurrent sem : nat) : nat * verdict :=
  if (sem <? maxConcurrent)%nat then (S sem, Pass) else (sem, Refuse 503 "service unavailable").
Definition release (sem : nat) : nat := pred sem.

(** [rateLimited(rps, burst, concurrencyLimit(max, ...))] *)
Record Gate := mkGate { limiter : Limiter; sem : nat }.
Definition gate_enter (maxConcurrent : nat) (now : Z) (g : Gate) : Gate * verdict :=
  match rateLimited now (limiter g) with
  | (l, Pass) => let '(s, v) := concurrencyLimit maxConcurrent (sem g) in (mkGate l s, v)
  | (l, v) => (mkGate l (sem g), v)
  end.
Definition gate_leave (g : Gate) : Gate := mkGate (limiter g) (release (sem g)).
End Wrappers.

(** ** Routes *)

Inductive endpoint := AppSign | SecretsEndpoint | PubKey | ShareRequest | Storing (path : string).
#[export] Instance endpoint_eq_dec : EqDecision endpoint.
Proof. solve_decision. Defined.

(** The rate, burst and concurrency of the routes that have limits. *)
Definition limits (e : endpoint) : option (Z * Z * nat) :=
  match e with
  | AppSign => Some (50, 100, 20%nat)
  | SecretsEndpoint => Some (10, 20, 10%nat)
  | _ => None
  end.

Section Router.
Context `{RateLib} `{Gnark} `{SigLib} `{FrText Fr} `{WireLib} `{EcdsaLib} `{RsaLib} `{EthAddr} `{SecretsLib} {P : Type}.

Definition route (path : string) : option endpoint :=
  if bool_decide (path = "/app/sign"%string) then Some AppSign
  else if bool_decide (path = "/secrets"%string) then Some SecretsEndpoint
  else if bool_decide (path = "/pubkey"%string) then Some PubKey
  else if bool_decide (path = "/reshare/share/request"%string) then Some ShareRequest
  else match protocol_handler (P := P) path with Some _ => Some (Storing path) | None => None end.

(** Of a 200 the body is left out. *)
Definition code_of {A} (h : http A) : Z := match h with Reply _ => 200 | HttpError code _ => code end.

(** What a handler sees around it. *)
Record Surroundings := mkSurroundings { su_node : HandlerEnv Fr P; su_secrets : SecretsEnv }.

Definition on_node (f : Node Fr P -> Node Fr P) : server_event := EvNode f.

(** The handler behind a route, its body bound included: the step the server makes, and the
    status of the answer. *)
Definition handle (e : endpoint) (su : Surroundings) (r : Request) (s : Server Fr P) : server_event * Z :=
  match e with
  | AppSign => let r := limited (Z.shiftl 16 10) r in (EvAppSign r, code_of (handleAppSign r s).2)
  | SecretsEndpoint => let r := limited (Z.shiftl 2 20) r in (EvSecrets (su_secrets su) r, code_of (handleSecretsRequest (su_secrets su) r s).2)
  | PubKey => (on_node (fun n => (handleGetCommitments r n).1), code_of (handleGetCommitments r (srv_node s)).2)
  | ShareRequest => let h := maxBodySize (Z.shiftl 64 10) handleReshareShareRequest in
      (on_node (fun n => (h (su_node su) r n).1), code_of (h (su_node su) r (srv_node s)).2)
  | Storing path =>
      match protocol_handler path with
      | Some h => (on_node (fun n => (h (su_node su) r n).1), code_of (h (su_node su) r (srv_node s)).2)
      | None => (on_node (fun n => n), 404)
      end
  end.

(** ** Requests in flight *)

(** A request let through: its endpoint, what it asks, and whether its handler has answered. *)
Record InFlight := mkInFlight { fl_endpoint : endpoint; fl_request : Request; fl_answered : bool }.

(** [admitted] is the history: when, and to what, requests were let through. *)
Record Router := mkRouter {
  server : Server Fr P;
  gates : endpoint -> Gate;
  arrivals : Z;
  in_flight : gmap Z InFlight;
  answered : list (Z * Z);
  admitted : list (Z * endpoint)
}.

Definition NewServer (n : Node Fr P) : Router :=
  mkRouter (mkServer n ∅) (fun e => match limits e with Some (rps, burst, _) => mkGate (NewLimiter rps burst) 0 | None => mkGate (NewLimiter 0 0) 0 end)
    0 ∅ [] [].

(** A request arrives; a handler runs; it returns, or has panicked; something else happens to
    the server, a tick of the cleanup or a step of the node. *)
Inductive router_event :=
| Arrive (now : Z) (path : string) (r : Request)
| Handle (id : Z) (su : Surroundings)
| Return (id : Z)
| Cleanup (now : Z)
| NodeStep (f : Node Fr P -> Node Fr P).

Definition refuse (code : Z) (rt : Router) : Router :=
  mkRouter (server rt) (gates rt) (arrivals rt + 1) (in_flight rt) (answered rt ++ [(arrivals rt, code)])%list (admitted rt).
Definition pass_on (now : Z) (e : endpoint) (r : Request) (rt : Router) : Router :=
  mkRouter (server rt) (gates rt) (arrivals rt + 1) (<[arrivals rt := mkInFlight e r false]> (in_flight rt)) (answered rt) (admitted rt ++ [(now, e)])%list.
Definition set_gate (e : endpoint) (g : Gate) (rt : Router) : Router :=
  mkRouter (server rt) (<[e := g]> (gates rt)) (arrivals rt) (in_flight rt) (answered rt) (admitted rt).
Definition set_server (s : Server Fr P) (rt : Router) : Router :=
  mkRouter s (gates rt) (arrivals rt) (in_flight rt) (answered rt) (admitted rt).

Definition arrive (now : Z) (path : string) (r : Request) (rt : Router) : Router :=
  match route path with
  | None => refuse 404 rt
  | Some e =>
      match limits e with
      | None => pass_on now e r rt
      | Some (_, _, maxConcurrent) =>
          let '(g, v) := gate_enter maxConcurrent now (gates rt e) in
          match v with Pass => pass_on now e r (set_gate e g rt) | Refuse code _ => refuse code (set_gate e g rt) end
      end
  end.

Definition leave (id : Z) (fl : InFlight) (rt : Router) : Router :=
  let e := fl_endpoint fl in
  let rt := match limits e with Some _ => set_gate e (gate_leave (gates rt e)) rt | None => rt end in
  mkRouter (server rt) (gates rt) (arrivals rt) (delete id (in_flight rt)) (answered rt) (admitted rt).

Definition answer (id : Z) (e : endpoint) (r : Request) (code : Z) (rt : Router) : Router :=
  mkRouter (server rt) (gates rt) (arrivals rt) (<[id := mkInFlight e r true]> (in_flight rt)) (answered rt ++ [(id, code)])%list (admitted rt).

(** What the server does, if anything, is the second component. *)
Definition router_step (rt : Router) (ev : router_event) : Router * option server_event :=
  match ev with
  | Arrive now path r => (arrive now path r rt, None)
  | Handle id su =>
      match in_flight rt !! id with
      | Some (mkInFlight e r false) =>
          let '(sev, code) := handle e su r (server rt) in (answer id e r code (set_server (serve (server rt) sev) rt), Some sev)
      | _ => (rt, None)
      end
  | Return id => match in_flight rt !! id with Some fl => (leave id fl rt, None) | None => (rt, None) end
  | Cleanup now => (set_server (serve (server rt) (EvCleanup now)) rt, Some (EvCleanup now))
  | NodeStep f => (set_server (serve (server rt) (EvNode f)) rt, Some (EvNode f))
  end.

Fixpoint router_run (rt : Router) (evs : list router_event) : Router * list server_event :=
  match evs with
  | [] => (rt, [])
  | ev :: evs => let '(rt1, o) := router_step rt ev in let '(rt2, trace) := router_run rt1 evs in (rt2, match o with Some e => e :: trace | None => trace end)
  end.
End Router.

(** ** The token bucket *)

Fixpoint after `{RateLib} (l : Limiter) (times : list Z) : Limiter :=
  match times with [] => l | t :: times => after (Allow t l).1 times end.
Fixpoint allowed `{RateLib} (l : Limiter) (times : list Z) : list Z :=
  match times with
  | [] => []
  | t :: times => if (Allow t l).2 then t :: allowed (Allow t l).1 times else allowed (Allow t l).1 times
  end.

Definition in_window (from upto t : Z) : Prop := from <= t <= upto.
#[export] Instance in_window_dec from upto t : Decision (in_window from upto t).
Proof. unfold in_window. apply _. Defined.

(** The bound that the limiter documents: in a window of time, the burst and what the rate adds. *)
Class RateLaws `{RateLib} : Prop := {
  rate_bound rps burst times from upto : 0 <= rps -> 0 <= burst -> StronglySorted Z.le times -> from <= upto ->
    10 ^ 9 * Z.of_nat (length (filter (in_window from upto) (allowed (NewLimiter rps burst) times))) <= 10 ^ 9 * burst + rps * (upto - from)
}.

Section Limiter.
Context `{RateLib}.

Lemma after_snoc l ts t : after l (ts ++ [t]) = (Allow t (after l ts)).1.
Proof. revert l. induction ts as [|t' ts IH]; intros l; [done|]. apply IH. Qed.
Lemma allowed_snoc l ts t : allowed l (ts ++ [t]) = (allowed l ts ++ if (Allow t (after l ts)).2 then [t] else [])%list.
Proof.
  revert l. induction ts as [|t' ts IH]; intros l; cbn [app allowed after]; [by destruct (Allow t l).2|]. rewrite IH. by destruct (Allow t' l).2.
Qed.

(** The limiter has seen [ts], in order and none after [last], and let [times] through. *)
Definition metered (rps burst last : Z) (l : Limiter) (times : list Z) : Prop := exists ts,
  StronglySorted Z.le ts /\ Forall (fun t => t <= last) ts /\ l = after (NewLimiter rps burst) ts /\ times `sublist_of` allowed (NewLimiter rps burst) ts.

Lemma sorted_snoc ts t : StronglySorted Z.le ts -> Forall (fun x => x <= t) ts -> StronglySorted Z.le (ts ++ [t]).
Proof.
  induction 1 as [|x ts Hs IH Hx]; intros Ht; [repeat constructor|]. apply Forall_cons_1 in Ht as [Hxt Ht]. cbn. constructor; [by apply IH|].
  apply Forall_app. split; [done|by constructor].
Qed.

Lemma metered_new rps burst last : metered rps burst last (NewLimiter rps burst) [].
Proof. exists []. split_and!; [constructor..|done|constructor]. Qed.
Lemma metered_later rps burst last last' l times : last <= last' -> metered rps burst last l times -> metered rps burst last' l times.
Proof. intros Hle (ts & Hs & Hl & -> & Hsub). exists ts. split_and!; try done. eapply Forall_impl; [exact Hl|cbn; lia]. Qed.
Lemma metered_allow rps burst last l times now : last <= now -> metered rps burst last l times ->
  metered rps burst now (Allow now l).1 times /\ ((Allow now l).2 = true -> metered rps burst now (Allow now l).1 (times ++ [now])).
Proof.
  intros Hle (ts & Hs & Hl & -> & Hsub). assert (Hnow : Forall (fun t => t <= now) ts) by (eapply Forall_impl; [exact Hl|cbn; lia]).
  assert (Hts : StronglySorted Z.le (ts ++ [now]) /\ Forall (fun t => t <= now) (ts ++ [now]))
    by (split; [by apply sorted_snoc|apply Forall_app; split; [done|by constructor]]). destruct Hts as [Hsort Hall].
  split; [|intros Hok]; exists (ts ++ [now])%list; rewrite after_snoc, allowed_snoc; (split_and!; [done..|]); [by apply sublist_inserts_r|].
  rewrite Hok. by apply sublist_app.
Qed.

Lemma metered_bound `{!RateLaws} rps burst last l times from upto : 0 <= rps -> 0 <= burst -> from <= upto -> metered rps burst last l times ->
  10 ^ 9 * Z.of_nat (length (filter (in_window from upto) times)) <= 10 ^ 9 * burst + rps * (upto - from).
Proof.
  intros Hr Hb Hw (ts & Hs & _ & _ & Hsub). pose proof (rate_bound rps burst ts from upto Hr Hb Hs Hw) as Hbound.
  assert (Hlen : (length (filter (in_window from upto) times) <= length (filter (in_window from upto) (allowed (NewLimiter rps burst) ts)))%nat).
  { apply sublist_length. clear -Hsub. induction Hsub as [|x l1 l2 Hsub IH|x l1 l2 Hsub IH]; [constructor| |]; rewrite ?filter_cons.
    - case_decide; [by constructor|done].
    - case_decide; [by apply sublist_cons|done]. }
  lia.
Qed.
End Limiter.

(** ** Limits under every interleaving *)

Section RouterFacts.
Context `{RateLaws} `{Gnark} `{SigLib} `{FrText Fr} `{WireLib} `{EcdsaLib} `{RsaLib} `{EthAddr} `{SecretsLib} {P : Type}.
Implicit Types rt : Router (P := P).

(** The requests of an endpoint that are in flight, and when requests were let through to it. *)
Definition at_endpoint (e : endpoint) (x : Z * InFlight) : Prop := fl_endpoint x.2 = e.
#[export] Instance at_endpoint_dec e x : Decision (at_endpoint e x).
Proof. unfold at_endpoint. apply _. Defined.
Definition busy (e : endpoint) rt : nat := size (filter (at_endpoint e) (in_flight rt)).
Definition admitted_at (e : endpoint) rt : list Z := (filter (fun x => x.2 = e) (admitted rt)).*1.

Record router_ok (last : Z) rt : Prop := {
  ok_ids : forall id fl, in_flight rt !! id = Some fl -> id < arrivals rt;
  ok_answers : NoDup (answered rt).*1 /\ forall id, id ∈ (answered rt).*1 ->
    id < arrivals rt /\ forall fl, in_flight rt !! id = Some fl -> fl_answered fl = true;
  ok_gate : forall e rps burst max, limits e = Some (rps, burst, max) ->
    sem (gates rt e) = busy e rt /\ (busy e rt <= max)%nat /\ metered rps burst last (limiter (gates rt e)) (admitted_at e rt)
}.

(** Requests arrive in the order of time. *)
Fixpoint in_order (last : Z) (evs : list (router_event (P := P))) : Prop :=
  match evs with
  | [] => True
  | Arrive now _ _ :: evs => last <= now /\ in_order now evs
  | _ :: evs => in_order last evs
  end.

Lemma filter_insert e id fl (m : gmap Z InFlight) : m !! id = None ->
  size (filter (at_endpoint e) (<[id := fl]> m)) = ((if decide (fl_endpoint fl = e) then 1 else 0) + size (filter (at_endpoint e) m))%nat.
Proof.
  intros Hn. rewrite map_filter_insert. unfold at_endpoint at 1. cbn [snd]. destruct (decide (fl_endpoint fl = e)).
  - rewrite map_size_insert_None; [done|]. apply map_lookup_filter_None. by left.
  - by rewrite delete_id.
Qed.
Lemma filter_delete e id fl (m : gmap Z InFlight) : m !! id = Some fl ->
  size (filter (at_endpoint e) m) = ((if decide (fl_endpoint fl = e) then 1 else 0) + size (filter (at_endpoint e) (delete id m)))%nat.
Proof. intros Hs. rewrite <- (insert_delete_id m id fl Hs) at 1. apply filter_insert, lookup_delete_eq. Qed.

Lemma admitted_at_snoc e now e' (l : list (Z * endpoint)) :
  (filter (fun x => x.2 = e) (l ++ [(now, e')])).*1 = ((filter (fun x => x.2 = e) l).*1 ++ if decide (e' = e) then [now] else [])%list.
Proof. rewrite filter_app, fmap_app. f_equal. rewrite filter_cons. cbn [snd]. by destruct (decide (e' = e)). Qed.

Lemma start_ok n last : router_ok last (NewServer (P := P) n).
Proof.
  constructor; [done|split; [constructor|by intros ? []%not_elem_of_nil]|]. intros e rps burst max He. unfold busy, admitted_at. cbn [gates NewServer in_flight admitted].
  rewrite He. cbn. rewrite map_filter_empty, map_size_empty. split_and!; [done|lia|apply metered_new].
Qed.

Lemma gate_enter_spec max now g : let '(g', v) := gate_enter max now g in
  limiter g' = (Allow now (limiter g)).1 /\
  (v = Pass /\ (Allow now (limiter g)).2 = true /\ (sem g < max)%nat /\ sem g' = S (sem g) \/ (exists code body, v = Refuse code body) /\ sem g' = sem g).
Proof.
  unfold gate_enter, rateLimited, concurrencyLimit. destruct (Allow now (limiter g)) as [l ok]. destruct ok.
  - destruct (Nat.ltb_spec (sem g) max); cbn [limiter sem fst snd]; (split; [done|]); [by left|right]. split; [by do 2 eexists|done].
  - cbn [limiter sem fst snd]. split; [done|]. right. split; [by do 2 eexists|done].
Qed.

Lemma later_ok last last' rt : last <= last' -> router_ok last rt -> router_ok last' rt.
Proof.
  intros Hle [Hids Hans Hgate]. constructor; [done..|]. intros e rps burst max He. destruct (Hgate e rps burst max He) as (Hs & Hb & Hm).
  split_and!; [done..|]. by eapply metered_later.
Qed.

(** The bookkeeping of an arrival, for gates that count it. *)
Lemma refuse_ok last code rt : router_ok last rt -> router_ok last (refuse code rt).
Proof.
  intros [Hids [Hnd Hans] Hgate]. constructor; cbn [refuse in_flight arrivals answered admitted gates].
  - intros id fl Hl%Hids. lia.
  - rewrite fmap_app. cbn. split.
    + apply NoDup_app. split_and!; [done| |apply NoDup_singleton]. intros id [Hlt _]%Hans ->%list_elem_of_singleton. lia.
    + intros id [[Hlt Ha]%Hans| ->%list_elem_of_singleton]%elem_of_app; [split; [lia|done]|]. split; [lia|]. intros fl Hl%Hids. lia.
  - exact Hgate.
Qed.

Definition gates_count (now : Z) (e : endpoint) rt (g : endpoint -> Gate) : Prop := forall e' rps burst max, limits e' = Some (rps, burst, max) ->
  sem (g e') = ((if decide (e = e') then 1 else 0) + busy e' rt)%nat /\ (sem (g e') <= max)%nat /\
  metered rps burst now (limiter (g e')) (admitted_at e' rt ++ if decide (e = e') then [now] else []).

Lemma pass_on_ok last now e r rt g : last <= now -> router_ok last rt -> gates_count now e rt g ->
  router_ok now (pass_on now e r (mkRouter (server rt) g (arrivals rt) (in_flight rt) (answered rt) (admitted rt))).
Proof.
  intros Hle [Hids [Hnd Hans] Hgate] Hg. assert (Hfresh : in_flight rt !! arrivals rt = None) by (destruct (in_flight rt !! arrivals rt) eqn:Hl; [apply Hids in Hl; lia|done]).
  constructor; unfold pass_on; cbn [in_flight arrivals answered admitted gates].
  - intros id fl. destruct (decide (id = arrivals rt)) as [->|Hne]; [lia|]. rewrite lookup_insert_ne by done. intros Hl%Hids. lia.
  - split; [done|]. intros id [Hlt Ha]%Hans. split; [lia|]. intros fl. rewrite lookup_insert_ne by lia. apply Ha.
  - intros e' rps burst max He. destruct (Hg e' rps burst max He) as (Hs & Hm & Hmet). unfold busy, admitted_at in *. cbn [in_flight admitted].
    rewrite (filter_insert e' _ (mkInFlight e r false)) by done. cbn [fl_endpoint]. rewrite admitted_at_snoc, <- Hs. by split_and!.
Qed.

Lemma arrive_ok last now path r rt : last <= now -> router_ok last rt -> router_ok now (arrive now path r rt).
Proof.
  intros Hle Hok. unfold arrive. destruct (route path) as [e|]; [|by apply refuse_ok, (later_ok last)]. destruct (limits e) as [[[rps burst] max]|] eqn:He.
  - pose proof (gate_enter_spec max now (gates rt e)) as Hg. destruct (gate_enter max now (gates rt e)) as [g v]. destruct Hg as [Hlim Hv].
    destruct (ok_gate last rt Hok e rps burst max He) as (Hsem & Hbusy & Hmet). pose proof (metered_allow rps burst last _ _ now Hle Hmet) as [Hmet0 Hmet1].
    destruct Hv as [(-> & Hallow & Hlt & Hs)|[(code & body & ->) Hs]].
    + apply (pass_on_ok last); [done..|]. intros e' rps' burst' max' He'. destruct (decide (e = e')) as [<-|Hne].
      * rewrite He in He'. injection He' as <- <- <-. rewrite fn_lookup_insert, Hlim. split_and!; [by rewrite Hs, Hsem|lia|by apply Hmet1].
      * rewrite fn_lookup_insert_ne by done. destruct (ok_gate last rt Hok e' rps' burst' max' He') as (Hsem' & Hb' & Hm'). rewrite app_nil_r.
        split_and!; [done|by rewrite Hsem'|by eapply metered_later].
    + apply refuse_ok. destruct (later_ok last now rt Hle Hok) as [Hids Hans Hgate]. constructor; [done..|]. intros e' rps' burst' max' He'. cbn [set_gate gates].
      destruct (decide (e = e')) as [<-|Hne]; [|rewrite fn_lookup_insert_ne by done; by apply Hgate]. rewrite He in He'. injection He' as <- <- <-.
      rewrite fn_lookup_insert, Hlim, Hs. by split_and!.
  - assert (Hrt : rt = mkRouter (server rt) (gates rt) (arrivals rt) (in_flight rt) (answered rt) (admitted rt)) by by destruct rt.
    rewrite Hrt at 1. apply (pass_on_ok last); [done..|]. intros e' rps' burst' max' He'. destruct (decide (e = e')) as [<-|Hne]; [by rewrite He in He'|].
    destruct (ok_gate last rt Hok e' rps' burst' max' He') as (Hsem' & Hb' & Hm'). rewrite app_nil_r. split_and!; [done|by rewrite Hsem'|by eapply metered_later].
Qed.

Lemma answer_ok last id e r code s rt : in_flight rt !! id = Some (mkInFlight e r false) -> router_ok last rt ->
  router_ok last (answer id e r code (set_server s rt)).
Proof.
  intros Hl [Hids [Hnd Hans] Hgate]. constructor; unfold answer, set_server; cbn [in_flight arrivals answered admitted gates].
  - intros id' fl. destruct (decide (id' = id)) as [->|Hne]; [by intros _; apply Hids in Hl|]. rewrite lookup_insert_ne by done. apply Hids.
  - rewrite fmap_app. cbn. split.
    + apply NoDup_app. split_and!; [done| |apply NoDup_singleton]. intros id' [_ Ha]%Hans ->%list_elem_of_singleton. by apply Ha in Hl.
    + intros id' [[Hlt Ha]%Hans| ->%list_elem_of_singleton]%elem_of_app.
      * split; [done|]. intros fl. destruct (decide (id' = id)) as [->|Hne]; [rewrite lookup_insert_eq; by intros [= <-]|]. rewrite lookup_insert_ne by done. apply Ha.
      * split; [by apply Hids in Hl|]. intros fl. rewrite lookup_insert_eq. by intros [= <-].
  - intros e' rps burst max He. destruct (Hgate e' rps burst max He) as (Hs & Hb & Hm). unfold busy, admitted_at in *. cbn [in_flight admitted].
    assert (Hsame : size (filter (at_endpoint e') (<[id := mkInFlight e r true]> (in_flight rt))) = size (filter (at_endpoint e') (in_flight rt))).
    { rewrite <- insert_delete_eq, filter_insert by apply lookup_delete_eq. by rewrite (filter_delete e' id _ _ Hl). }
    rewrite Hsame. by split_and!.
Qed.

Lemma leave_ok last id fl rt : in_flight rt !! id = Some fl -> router_ok last rt -> router_ok last (leave id fl rt).
Proof.
  intros Hl [Hids [Hnd Hans] Hgate].
  assert (Hleft : leave id fl rt = mkRouter (server rt) (gates (leave id fl rt)) (arrivals rt) (delete id (in_flight rt)) (answered rt) (admitted rt))
    by (unfold leave; by destruct (limits (fl_endpoint fl))). rewrite Hleft. constructor; cbn [in_flight arrivals answered admitted gates].
  - intros id' fl' [_ Hl']%lookup_delete_Some. by apply Hids in Hl'.
  - split; [done|]. intros id' [Hlt Ha]%Hans. split; [done|]. intros fl' [_ Hl']%lookup_delete_Some. by apply Ha.
  - intros e rps burst max He. destruct (Hgate e rps burst max He) as (Hs & Hb & Hm). unfold busy, admitted_at in *. cbn [in_flight admitted].
    rewrite (filter_delete e id fl _ Hl) in Hs, Hb. unfold leave. cbn [gates]. destruct (decide (fl_endpoint fl = e)) as [<-|Hne].
    + rewrite He. cbn [set_gate gates]. rewrite fn_lookup_insert. cbn [gate_leave sem limiter release]. rewrite Hs. split_and!; [done|lia|done].
    + destruct (limits (fl_endpoint fl)); cbn [set_gate gates]; rewrite ?fn_lookup_insert_ne by done; by split_and!.
Qed.

Lemma set_server_ok last s rt : router_ok last rt -> router_ok last (set_server s rt).
Proof. intros [Hids Hans Hgate]. by constructor. Qed.

Lemma run_ok last evs rt : in_order last evs -> router_ok last rt -> exists last', router_ok last' (router_run rt evs).1.
Proof.
  revert last rt. induction evs as [|ev evs IH]; intros last rt Hord Hok; [by exists last|]. cbn [router_run].
  assert (Hstep : exists last1, in_order last1 evs /\ router_ok last1 (router_step rt ev).1).
  { destruct ev as [now path r|id su|id|now|f]; cbn [router_step in_order] in *.
    - exists now. destruct Hord as [Hle Hord]. split; [done|]. by apply (arrive_ok last).
    - exists last. split; [done|]. destruct (in_flight rt !! id) as [[e r []]|] eqn:Hl; [done| |done]. destruct (handle e su r (server rt)). by apply answer_ok.
    - exists last. split; [done|]. destruct (in_flight rt !! id) as [fl|] eqn:Hl; [by apply leave_ok|done].
    - exists last. split; [done|]. by apply set_server_ok.
    - exists last. split; [done|]. by apply set_server_ok. }
  destruct Hstep as (last1 & Hord1 & Hok1). destruct (router_step rt ev) as [rt1 o]. destruct (IH last1 rt1 Hord1 Hok1) as [last' Hfin].
  exists last'. by destruct (router_run rt1 evs).
Qed.

(** The bodies that reach the endpoints are cut. *)
Definition cut (e : server_event (P := P)) : Prop :=
  match e with
  | EvSecrets _ r => Z.of_nat (length (Body r)) <= 2 ^ 21
  | EvAppSign r => Z.of_nat (length (Body r)) <= 2 ^ 14
  | _ => True
  end.
Lemma limited_length n r : 0 <= n -> Z.of_nat (length (Body (limited n r))) <= n.
Proof. intros Hn. unfold limited. cbn [Body]. rewrite length_take. lia. Qed.
Lemma handle_cut e su r s : cut (handle e su r s).1.
Proof. destruct e as [| | | |path]; cbn [handle fst cut]; [..|by destruct (protocol_handler path)]; try done; by apply limited_length. Qed.

Lemma run_trace evs rt : server (router_run rt evs).1 = foldl serve (server rt) (router_run rt evs).2 /\ Forall cut (router_run rt evs).2.
Proof.
  revert rt. induction evs as [|ev evs IH]; intros rt; [done|]. cbn [router_run].
  assert (Hstep : server (router_step rt ev).1 = match (router_step rt ev).2 with Some e => serve (server rt) e | None => server rt end /\
    forall e, (router_step rt ev).2 = Some e -> cut e).
  { destruct ev as [now path r|id su|id|now|f]; cbn [router_step].
    - split; [|done]. cbn [fst snd]. unfold arrive. destruct (route path) as [e|]; [|done]. destruct (limits e) as [[[? ?] max]|]; [|done].
      by destruct (gate_enter _ _ _) as [g []].
    - destruct (in_flight rt !! id) as [[e r []]|]; [done| |done]. pose proof (handle_cut e su r (server rt)) as Hc. destruct (handle e su r (server rt)) as [sev code].
      cbn [fst snd answer set_server server]. split; [done|]. by intros ? [= <-].
    - destruct (in_flight rt !! id) as [fl|]; [|done]. cbn [fst snd]. split; [|done]. unfold leave. by destruct (limits _).
    - split; [done|]. by intros ? [= <-].
    - split; [done|]. by intros ? [= <-]. }
  destruct (router_step rt ev) as [rt1 o]. cbn [fst snd] in Hstep. destruct Hstep as [Hs Hc]. destruct (IH rt1) as [IHs IHc]. destruct (router_run rt1 evs) as [rt2 trace].
  cbn [fst snd] in *. rewrite IHs, Hs. destruct o as [e|]; cbn [foldl]; [|done]. split; [done|]. constructor; [by apply Hc|done].
Qed.

(** C16: The router keeps its limits whatever the interleaving: however requests arrive (in the order
    of time), run, return and panic, with cleanups and steps of the node in between, the
    server behind the router has made exactly the steps of the requests let through and no
    others, on bodies of at most 2 MiB and 16 KiB, so that what holds of [Secrets]' sequences
    of requests holds of it; a request is answered at most once; at most 10 requests of
    [/secrets] and 20 of [/app/sign] are in flight, which is what the semaphore counts; and in
    every window of time at most the burst and the rate's share are let through. *)
Theorem router_limits (n : Node Fr P) (start : Z) (evs : list router_event) : in_order start evs ->
  let rt := (router_run (NewServer n) evs).1 in
  let trace := (router_run (NewServer n) evs).2 in
  server rt = foldl serve (mkServer n ∅) trace /\ Forall cut trace /\ NoDup (answered rt).*1 /\
  forall e rps burst maxConcurrent, limits e = Some (rps, burst, maxConcurrent) ->
    sem (gates rt e) = busy e rt /\ (busy e rt <= maxConcurrent)%nat /\
    forall from upto, from <= upto ->
      10 ^ 9 * Z.of_nat (length (filter (in_window from upto) (admitted_at e rt))) <= 10 ^ 9 * burst + rps * (upto - from).
Proof.
  intros Hord rt trace. destruct (run_trace evs (NewServer n)) as [Hs Hc]. destruct (run_ok start evs (NewServer n) Hord (start_ok n start)) as [last Hok].
  split_and!; [exact Hs|exact Hc|by apply (ok_answers last rt Hok)|]. intros e rps burst max He. destruct (ok_gate last rt Hok e rps burst max He) as (Hsem & Hbusy & Hmet).
  split_and!; [done..|]. intros from upto Hw. apply (metered_bound rps burst last (limiter (gates rt e))); [| |done|done]; destruct e; (discriminate || (injection He as <- <- <-; lia)).
Qed.

(** [encoding/json] reads a byte string from base64: four characters for three bytes. *)
Definition base64_fields : Prop := forall b req, json_secrets b = Ok req ->
  4 * Z.of_nat (length (sreq_ExtraData req) + length (sreq_CCInitData req) + length (sreq_Attestation req)) <= 3 * Z.of_nat (length b).

(** The fields do not fit: behind the router, the handler's own bound on the body never cuts
    anything, since the router's is smaller; and a request that is served has at most 1.5 MiB
    of extra data, document and attestation together, so none is with extra data and a
    document at the limit of 1 MiB that the handler allows each of them. *)
Theorem body_limit_below_fields env r (s s' : Server Fr P) resp : base64_fields ->
  handleSecretsRequest env (limited (Z.shiftl 2 20) r) s = (s', Reply resp) ->
  limited maxSecretsBodyBytes (limited (Z.shiftl 2 20) r) = limited (Z.shiftl 2 20) r /\
  exists req, json_secrets (Body (limited (Z.shiftl 2 20) r)) = Ok req /\
    Z.of_nat (length (sreq_ExtraData req)) + Z.of_nat (length (sreq_CCInitData req)) + Z.of_nat (length (sreq_Attestation req)) <= 1572864 < 2 * MaxExtraDataSize.
Proof.
  intros Hb64 Hr. assert (Hcut : limited maxSecretsBodyBytes (limited (Z.shiftl 2 20) r) = limited (Z.shiftl 2 20) r).
  { unfold limited. cbn [Method Body]. f_equal. apply take_ge. rewrite length_take. change (Z.shiftl 2 20) with 2097152. unfold maxSecretsBodyBytes, MaxAttestationSize, MaxExtraDataSize. lia. }
  split; [done|]. apply handleSecretsRequest_ok in Hr as (req & cl & _ & _ & Hq & _). rewrite Hcut in Hq. exists req. split; [done|]. apply Hb64 in Hq.
  assert (Hlen : Z.of_nat (length (Body (limited (Z.shiftl 2 20) r))) <= 2097152) by by apply limited_length. unfold MaxExtraDataSize. lia.
Qed.
End RouterFacts.

(** ** A token bucket

    In billionths of a token, so that a nanosecond at one event per second adds one. *)

Record Bucket := mkBucket { b_rate : Z; b_cap : Z; b_tokens : Z; b_last : option Z }.
Definition refill (t : Z) (b : Bucket) : Bucket :=
  mkBucket (b_rate b) (b_cap b) (match b_last b with None => b_tokens b | Some u => Z.min (b_cap b) (b_tokens b + b_rate b * (t - u)) end) (Some t).
Definition take_token (b : Bucket) : Bucket * bool :=
  if 10 ^ 9 <=? b_tokens b then (mkBucket (b_rate b) (b_cap b) (b_tokens b - 10 ^ 9) (b_last b), true) else (b, false).
#[export] Instance bucket_rate : RateLib := {
  Limiter := Bucket;
  NewLimiter rps burst := mkBucket rps (10 ^ 9 * burst) (10 ^ 9 * burst) None;
  Allow t b := take_token (refill t b)
}.

Section Bucket.
Notation count from upto b ts := (Z.of_nat (length (filter (in_window from upto) (allowed (b : @Limiter bucket_rate) ts)))).

Lemma allowed_after (l : @Limiter bucket_rate) ts u : Forall (fun t => u < t) ts -> Forall (fun t => u < t) (allowed l ts).
Proof. revert l. induction ts as [|t ts IH]; intros l; cbn [allowed]; [done|]. intros [Ht Hts]%Forall_cons. destruct (Allow t l).2; [constructor; [done|]|]; by apply IH. Qed.
Lemma count_after from upto (l : Bucket) ts : Forall (fun t => upto < t) ts -> count from upto l ts = 0.
Proof.
  intros Hts. rewrite filter_none; [done|]. eapply Forall_impl; [by apply (allowed_after l ts)|]. unfold in_window. cbn. lia.
Qed.

(** From a bucket filled at [u] on, what is taken up to [upto] is there or comes in. *)
Lemma count_spent from upto ts : forall (b : Bucket) u, StronglySorted Z.le (u :: ts) -> 0 <= b_rate b -> 0 <= b_tokens b <= b_cap b -> b_last b = Some u -> u <= upto ->
  10 ^ 9 * count from upto b ts <= b_tokens b + b_rate b * (upto - u).
Proof.
  induction ts as [|t ts IH]; intros b u Hs Hr Hb Hu Huu; [cbn; nia|]. apply StronglySorted_inv in Hs as [Hs [Hut Hts]%Forall_cons].
  destruct (Z.le_gt_cases t upto) as [Htu|Htu].
  - set (b' := refill t b). assert (Hb' : 0 <= b_tokens b' <= b_cap b /\ b_tokens b' <= b_tokens b + b_rate b * (t - u)) by (unfold b', refill; cbn; rewrite Hu; nia).
    cbn [allowed]. change (@Allow bucket_rate t b) with (take_token b'). unfold take_token. destruct (Z.leb_spec (10 ^ 9) (b_tokens b')) as [Hge|Hlt]; cbn [fst snd].
    + assert (Hleft : 0 <= b_tokens b' - 10 ^ 9 <= b_cap b) by lia. specialize (IH (mkBucket (b_rate b') (b_cap b') (b_tokens b' - 10 ^ 9) (b_last b')) t Hs Hr Hleft eq_refl Htu). cbn [b_tokens b_rate] in IH.
      change (b_rate b') with (b_rate b) in IH |- *. rewrite filter_cons. case_decide; cbn [length]; [rewrite Nat2Z.inj_succ|]; nia.
    + specialize (IH b' t Hs Hr (proj1 Hb') eq_refl Htu). change (b_rate b') with (b_rate b) in IH. nia.
  - rewrite count_after; [nia|]. constructor; [done|]. apply StronglySorted_inv in Hs as [_ Hs]. eapply Forall_impl; [exact Hs|cbn; lia].
Qed.

Lemma refill_ok t b : 0 <= b_rate b -> 0 <= b_tokens b <= b_cap b -> (forall u, b_last b = Some u -> u <= t) ->
  0 <= b_tokens (refill t b) <= b_cap b /\ refill t (refill t b) = refill t b.
Proof.
  intros Hr Hb Hu. assert (Ht : 0 <= b_tokens (refill t b) <= b_cap b) by (unfold refill; cbn; destruct (b_last b) as [u|]; [specialize (Hu u eq_refl); nia|lia]).
  split; [done|]. unfold refill at 1. cbn [b_rate b_cap b_last refill]. rewrite Z.sub_diag, Z.mul_0_r, Z.add_0_r, Z.min_r by (cbn in Ht |- *; lia). done.
Qed.

Lemma count_window from upto ts : from <= upto -> forall (b : Bucket), StronglySorted Z.le ts -> 0 <= b_rate b -> 0 <= b_tokens b <= b_cap b ->
  (forall u, b_last b = Some u -> Forall (fun t => u <= t) ts) ->
  10 ^ 9 * count from upto b ts <= b_cap b + b_rate b * (upto - from).
Proof.
  intros Hw. induction ts as [|t ts IH]; intros b Hs Hr Hb Hu; [cbn; nia|]. pose proof (StronglySorted_inv Hs) as [Hs' Ht].
  destruct (refill_ok t b Hr Hb) as [Hb' Hid]; [intros u Hlast; by apply Hu in Hlast as [? _]%Forall_cons|].
  assert (Hfill : allowed (b : @Limiter bucket_rate) (t :: ts) = allowed (refill t b : @Limiter bucket_rate) (t :: ts)) by (cbn [allowed Allow bucket_rate]; by rewrite Hid).
  destruct (Z.lt_ge_cases t from) as [Hlt|Hge]; [|destruct (Z.le_gt_cases t upto) as [Hle|Hgt]].
  - assert (Hnext : count from upto b (t :: ts) = count from upto (@Allow bucket_rate t b).1 ts).
    { cbn [allowed]. destruct (@Allow bucket_rate t b).2; [|done]. rewrite filter_cons_False; [done|]. unfold in_window. lia. }
    rewrite Hnext. change (@Allow bucket_rate t b) with (take_token (refill t b)). unfold take_token.
    destruct (Z.leb_spec (10 ^ 9) (b_tokens (refill t b))); cbn [fst]; match goal with |- context [allowed ?x ts] => apply (IH x Hs') end; cbn [b_rate b_tokens b_cap b_last refill] in *; try lia; by intros u [= <-].
  - rewrite Hfill. etrans; [apply (count_spent from upto (t :: ts) (refill t b) t); [constructor; [done|constructor; [lia|done]]|done|done|done|done]|].
    cbn [b_rate refill]. nia.
  - rewrite count_after; [nia|]. constructor; [lia|]. eapply Forall_impl; [exact Ht|cbn; lia].
Qed.

#[export] Instance bucket_laws : @RateLaws bucket_rate.
Proof. constructor. intros rps burst times from upto Hr Hb Hs Hw. apply (count_window from upto times Hw (mkBucket rps (10 ^ 9 * burst) (10 ^ 9 * burst) None)); cbn; try done; lia. Qed.
End Bucket.

(** ** Witnesses: eleven requests at once *)

#[local] Existing Instances toy97 Handlers.wire_sigs wire_text toy_wire toy_ecdsa toy_rsa Secrets.secrets_addr Secrets.secrets_lib.

Definition crowd : list (router_event (P := unit)) :=
  (repeat (Arrive 5 "/secrets" (mkRequest "POST" [1])) 11 ++
   [Handle 0 (mkSurroundings wire_env secrets_env); Return 0; Return 0; Handle 0 (mkSurroundings wire_env secrets_env);
    Arrive 6 "/secrets" (mkRequest "POST" [1]); Arrive 7 "/nowhere" (mkRequest "GET" [])])%list.
Definition crowded : Router := (router_run (NewServer (srv_node secrets_server)) crowd).1.

(** The eleventh request finds no slot; the first is served, and the slot it leaves is taken. *)
Lemma router_limits_witness : answered crowded = [(10, 503); (0, 200); (12, 404)] /\ sem (gates crowded SecretsEndpoint) = 10%nat /\
  (busy SecretsEndpoint crowded <= 10)%nat.
Proof.
  split; [vm_compute; reflexivity|]. split; [vm_compute; reflexivity|].
  destruct (router_limits (srv_node secrets_server) 0 crowd) as (_ & _ & _ & Hl); [vm_compute; repeat split; discriminate|].
  by destruct (Hl SecretsEndpoint 10 20 10%nat eq_refl) as (_ & Hb & _).
Defined.

(** A decoder that wants 400 bytes. *)
#[local] Instance long_json : SecretsLib | 0 := {
  IsHexAddress _ := true;
  json_secrets b := if (400 <=? length b)%nat then Ok ecdsa_secrets else Err "unexpected end of JSON input";
  json_app_sign _ := Err "unexpected end of JSON input";
  json_marshal_G1 g := Ok (g1_compressed g)
}.
Definition long_request : Request := mkRequest "POST" (repeat 1 400).

Lemma body_limit_below_fields_witness : exists s' resp,
  handleSecretsRequest secrets_env (limited (Z.shiftl 2 20) long_request) secrets_server = (s', Reply resp) /\
  exists req, json_secrets (Body (limited (Z.shiftl 2 20) long_request)) = Ok req.
Proof.
  destruct (handleSecretsRequest secrets_env (limited (Z.shiftl 2 20) long_request) secrets_server) as [s' [resp|c e]] eqn:Hr.
  - destruct (body_limit_below_fields secrets_env long_request secrets_server s' resp) as (_ & req & Hq & _).
    + intros b req. cbn [json_secrets long_json]. destruct (Nat.leb_spec 400 (length b)) as [Hlen|]; [|done]. intros [= <-].
      assert (Hfields : (length (sreq_ExtraData ecdsa_secrets) + length (sreq_CCInitData ecdsa_secrets) + length (sreq_Attestation ecdsa_secrets) <= 300)%nat) by by_compute. lia.
    + exact Hr.
    + exists s', resp. split; [reflexivity|]. exists req. exact Hq.
  - vm_compute in Hr. discriminate Hr.
Defined.
