(* ===== verification/Cli.v ===== *)
(** * The command line: [cmd/kmsClient]

    Encrypting and decrypting files with [Client]: where the connection comes from, the paths
    and modes of what is written, the keys that are read.  The file system is a map from paths
    to contents with modes, threaded in [SM]; what system calls return, go-ethereum's
    hexadecimal forms and the network are parameters, [path/filepath] is written out.  The
    theorems: an output path is absolute, in canonical form and names a file; what is secret is
    never in a file under another mode than 0600; what [encrypt] writes is what [decrypt] reads;
    flags beat presets. *)

From S2P Require Import Prelude Bytes Types Fr Gnark Toy Crypto Persistence NodeCore GoText Attestation Encryption Recover Secrets Ibe Client Config InitData.
From Stdlib Require Import Ascii.

(** ** [path/filepath] on Unix *)

Definition slash : ascii := "/".
Definition dot : list ascii := chars_of ".".
Definition dotdot : list ascii := chars_of "..".

Definition IsAbs (path : list ascii) : bool := bool_decide (head path = Some slash).

(** The components so far, the last one first. *)
Definition clean_step (rooted : bool) (out : list (list ascii)) (component : list ascii) : list (list ascii) :=
  if bool_decide (component = []) || bool_decide (component = dot) then out
  else if bool_decide (component = dotdot) then
    match out with
    | last :: rest => if bool_decide (last = dotdot) then component :: out else rest
    | [] => if rooted then [] else [component]
    end
  else component :: out.
Definition clean_components (path : list ascii) : list (list ascii) := rev (foldl (clean_step (IsAbs path)) [] (Split slash path)).
Definition Clean (path : list ascii) : list ascii :=
  if IsAbs path then slash :: Join slash (clean_components path)
  else match clean_components path with [] => dot | components => Join slash components end.

(** [Abs]: joined to the working directory. *)
Definition Abs (wd : res string) (path : list ascii) : res (list ascii) :=
  if IsAbs path then Ok (Clean path) else wd ← wd; Ok (Clean (chars_of wd ++ slash :: path)%list).

Fixpoint drop_slashes (l : list ascii) : list ascii :=
  match l with c :: l' => if Ascii.eqb c slash then drop_slashes l' else l | [] => [] end.
Definition Base (path : list ascii) : list ascii :=
  match path with
  | [] => dot
  | _ => match Split slash (rev (drop_slashes (rev path))) with
         | [[]] => [slash]
         | components => default [] (last components)
         end
  end.

(** ** Files *)

Record File := mkFile { content : bytes; mode : Z }.
(** The files, and what was printed as a result. *)
Record Disk := mkDisk { files : gmap string File; stdout : list bytes }.
Notation CL := (SM Disk).

(** What the system calls on one file return; a write may stop after some bytes.  A new file
    has the mode asked for without the bits of [w_umask]. *)
Record WriteIO := mkWriteIO { w_open : res unit; w_umask : Z; w_chmod : res unit; w_short : option nat; w_close : res unit }.

Definition on_file (path : string) (f : File -> File) : CL unit := sm_modify (fun d => mkDisk (alter f path (files d)) (stdout d)).
(** [O_CREATE|O_TRUNC]: the mode of a file that is there stays. *)
Definition open_trunc (umask : Z) (path : string) : CL unit := sm_modify (fun d =>
  mkDisk (<[path := mkFile [] (match files d !! path with Some f => mode f | None => Z.land 384 (Z.lnot umask) end)]> (files d)) (stdout d)).

(** The deferred close gives its error if there is no other. *)
Definition with_close (close : res unit) (m : CL unit) : CL unit := fun d =>
  match m d with (d', Ok _) => (d', close) | failed => failed end.

(** Mode 0600 is 384. *)
Definition writeSecretFile (io : WriteIO) (path : string) (data : bytes) : CL unit :=
  _ ← sm_lift (w_open io);
  _ ← open_trunc (w_umask io) path;
  with_close (w_close io)
    (_ ← sm_lift (wrap "secure file permissions: %w" (w_chmod io));
     _ ← on_file path (fun f => mkFile (content f) 384);
     match w_short io with
     | Some n => _ ← on_file path (fun f => mkFile (content f ++ take n data) (mode f)); sm_fail "short write"
     | None => on_file path (fun f => mkFile (content f ++ data) (mode f))
     end).

Definition prepareOutputPath (wd : res string) (p : string) : res string :=
  let p := chars_of p in
  _ ← fail_if (bool_decide (p = [])) "output path is empty";
  _ ← fail_if (bool_decide (last p = Some slash)) "output path %q is a directory, not a file";
  let cleaned := Clean p in
  cleaned ← (if IsAbs cleaned then Ok cleaned else wrap "resolve absolute path" (Abs wd cleaned));
  let base := Base cleaned in
  _ ← fail_if (bool_decide (base = dot) || bool_decide (base = [slash]) || bool_decide (base = [])) "output path %q has no file name";
  Ok (string_of cleaned).

(** ** Presets *)

Definition environments : gmap string (string * Z) := {["sepolia"%string := ("0x47c9806e7DC4e6fE9a0a2399831F32d06DaE5730"%string, 0)]}.

Definition resolveConnection (envName avsFlag : string) (avsSet : bool) (setIDFlag : Z) (setIDSet : bool) : res (string * Z) :=
  preset ← (if negb (bool_decide (envName = ""%string))
            then p ← from_opt "unknown environment %q: supported environments are: %s" (environments !! envName); Ok (Some p)
            else Ok None);
  avsAddress ← (if avsSet then Ok avsFlag
                else match preset with
                     | Some (avs, _) => Ok avs
                     | None => Err "avs-address is required (provide --avs-address or --environment)"
                     end);
  Ok (avsAddress, if setIDSet then setIDFlag else match preset with Some (_, id) => id | None => 0 end).

(** ** Commands *)

(** go-ethereum's hexadecimal forms. *)
Class HexLib `{EcdsaLib} := {
  hex_Encode : bytes -> string;
  hex_Decode : string -> res bytes;
  key_FromHex : string -> res ecdsa_PrivateKey
}.

(** A client, as its network answers: [Client]'s parameters. *)
Record Network `{EcdsaLib} := mkNetwork {
  net_operators : res (list OperatorSetPeer);
  net_pubkey : OperatorSetPeer -> res PubkeyResponse;
  net_order : mpk_votes -> list bytes;
  net_sign : string -> Z -> OperatorSetPeer -> res SignResponse;
  net_arrived : list OperatorSetPeer;
  net_secrets : ClientEnv
}.
(** The flags, which of them were set, randomness, system calls, and the clients of a URL, an
    AVS and an operator set. *)
Record CliEnv `{Gnark} `{EcdsaLib} := mkCliEnv {
  flags : cli_Context;
  IsSet : string -> bool;
  rand_scalar : res Fr;
  rand_nonce : res bytes;
  rand_rsa : bytes;
  Getwd : res string;
  Stat : res unit;
  ReadFile : res unit;
  write_io : WriteIO;
  connect : string -> string -> Z -> res Network
}.

Section Cli.
Context `{Gnark} `{SymLib} `{EthAddr} `{HexLib} `{RsaLib}.
Variable env : CliEnv.
Notation String_ := (flag_String (flags env)).

Definition createClient : res Network :=
  '(avsAddress, operatorSetID) ← resolveConnection (String_ "environment") (String_ "avs-address") (IsSet env "avs-address")
    (flag_Uint (flags env) "operator-set-id" mod 2 ^ 32) (IsSet env "operator-set-id");
  wrap "failed to create KMS client" (connect env (String_ "rpc-url") avsAddress operatorSetID).

(** Written to the file, or printed. *)
Definition output (outputFile : string) (data : bytes) : CL unit :=
  if negb (bool_decide (outputFile = ""%string)) then
    cleanPath ← sm_lift (wrap "invalid --output path" (prepareOutputPath (Getwd env) outputFile));
    sm_wrap "failed to write to file" (writeSecretFile (write_io env) cleanPath data)
  else sm_modify (fun d => mkDisk (files d) (stdout d ++ [data])%list).

Definition encryptCommand : CL unit :=
  client ← sm_lift (wrap "failed to create client" createClient);
  operators ← sm_lift (wrap "failed to get operators" (GetOperators (net_operators client)));
  encryptedData ← sm_lift (wrap "failed to encrypt data"
    (client_Encrypt (rand_scalar env) (rand_nonce env) (net_pubkey client) (net_order client) (String_ "app-id") (text_bytes (chars_of (String_ "data")))
       (net_arrived client) operators));
  output (String_ "output") (text_bytes (chars_of (hex_Encode encryptedData))).

Definition parseEncryptedInput (input : string) : CL bytes :=
  d ← sm_get;
  match Stat env, files d !! input with
  | Ok _, Some f =>
      _ ← sm_lift (wrap "failed to read encrypted data file" (ReadFile env));
      sm_lift (wrap "failed to decode hex data from file" (hex_Decode (TrimSpace (string_of (bytes_text (content f))))))
  | _, _ => sm_lift (wrap "failed to decode hex data" (hex_Decode (TrimSpace input)))
  end.

Definition decryptWithoutAttestation (client : Network) (appID : string) (encryptedData : bytes) (threshold : Z) : res bytes :=
  operators ← wrap "failed to get operators" (GetOperators (net_operators client));
  wrap "failed to decrypt data" (client_Decrypt (net_sign client) appID encryptedData (net_arrived client) operators threshold).

(** Both trims of the prefix are made. *)
Definition loadECDSAKey (keyHex keyFile : string) : CL ecdsa_PrivateKey :=
  d ← sm_get;
  raw ← sm_lift (if negb (bool_decide (keyHex = ""%string)) then Ok keyHex
                 else if negb (bool_decide (keyFile = ""%string)) then
                   _ ← wrap "failed to read ECDSA private key file" (ReadFile env);
                   f ← from_opt "failed to read ECDSA private key file" (files d !! keyFile);
                   Ok (string_of (bytes_text (content f)))
                 else Err "an ECDSA private key is required for --attestation ecdsa: set --ecdsa-private-key or --ecdsa-private-key-file");
  sm_lift (wrap "invalid ECDSA private key" (key_FromHex (TrimPrefix (TrimPrefix (TrimSpace raw) "0x") "0X"))).

Definition decryptWithECDSAAttestation (client : Network) (appID : string) (encryptedData : bytes) : CL bytes :=
  key ← loadECDSAKey (String_ "ecdsa-private-key") (String_ "ecdsa-private-key-file");
  '(rsaPrivPEM, rsaPubPEM) ← sm_lift (wrap "failed to generate ephemeral RSA key pair" (GenerateKeyPair (rand_rsa env) 2048));
  result ← sm_lift (wrap "failed to retrieve secrets"
    (RetrieveSecretsWithOptions (net_secrets client) appID (Some (mkSecretsOptions _ "ecdsa" "" (Some key) [] [] [] rsaPrivPEM rsaPubPEM [] ""))));
  sm_lift (wrap "failed to decrypt data" (DecryptForApp appID (res_AppPrivateKey result) encryptedData)).

Definition decryptCommand : CL unit :=
  let attestationMethod := String_ "attestation" in
  _ ← sm_lift (fail_if (negb (bool_decide (attestationMethod = ""%string) || bool_decide (attestationMethod = "ecdsa"%string))) "unsupported --attestation %q");
  client ← sm_lift (wrap "failed to create client" createClient);
  encryptedData ← parseEncryptedInput (String_ "encrypted-data");
  decryptedData ← (if bool_decide (attestationMethod = "ecdsa"%string) then decryptWithECDSAAttestation client (String_ "app-id") encryptedData
                   else sm_lift (decryptWithoutAttestation client (String_ "app-id") encryptedData (flag_Int (flags env) "threshold")));
  output (String_ "output") decryptedData.

Definition getPubkeyCommand : CL unit :=
  client ← sm_lift (wrap "failed to create client" createClient);
  '(appPubKey, masterPubKey) ← sm_lift (wrap "failed to get public key for app"
    (GetPublicKeyForApp (net_pubkey client) (net_order client) (net_operators client) (net_arrived client) (String_ "app-id")));
  sm_modify (fun d => mkDisk (files d) (stdout d ++ [text_bytes (hex_EncodeToString (g1_compressed appPubKey)); text_bytes (hex_EncodeToString (g2_compressed masterPubKey))])%list).
End Cli.

(** ** Paths *)

(** A component of a canonical path. *)
Definition normal (c : list ascii) : Prop := c <> [] /\ c <> dot /\ c <> dotdot /\ slash ∉ c.

Lemma Split_free c l p : p ∈ Split c l -> c ∉ p.
Proof.
  revert p. induction l as [|a l IH]; intros p; cbn [Split]; [intros ->%list_elem_of_singleton; apply not_elem_of_nil|].
  destruct (Ascii.eqb_spec a c) as [->|Hne]; [intros [->|Hp]%elem_of_cons; [apply not_elem_of_nil|by apply IH]|].
  destruct (Split c l) as [|q ps]; [intros ->%list_elem_of_singleton; by intros ->%list_elem_of_singleton|].
  intros [->|Hp]%elem_of_cons; [|by apply IH; right]. intros [->|Hin]%elem_of_cons; [done|]. by apply (IH q (list_elem_of_here q ps)).
Qed.

Definition cleaned_component (rooted : bool) (c : list ascii) : Prop := c <> [] /\ c <> dot /\ (rooted = true -> c <> dotdot) /\ slash ∉ c.
Lemma clean_step_ok rooted out c : slash ∉ c -> Forall (cleaned_component rooted) out -> Forall (cleaned_component rooted) (clean_step rooted out c).
Proof.
  intros Hc Hout. unfold clean_step. destruct (bool_decide_reflect (c = [])) as [|He]; [done|]. destruct (bool_decide_reflect (c = dot)) as [|Hd]; [done|]. cbn [orb].
  destruct (bool_decide_reflect (c = dotdot)) as [->|Hdd]; [|constructor; [by split_and!|done]].
  destruct out as [|x out]; [destruct rooted; constructor; [by split_and!|done]|]. pose proof Hout as [(_ & _ & Hx & _) Hrest]%Forall_cons.
  destruct (bool_decide_reflect (x = dotdot)) as [->|Hne]; [|done]. constructor; [by split_and!|done].
Qed.
Lemma clean_components_ok path : Forall (cleaned_component (IsAbs path)) (clean_components path).
Proof.
  unfold clean_components. apply Forall_rev. assert (Hfree : Forall (fun c => slash ∉ c) (Split slash path)) by (apply Forall_forall; intros c; apply Split_free).
  assert (Hgen : forall l out, Forall (fun c => slash ∉ c) l -> Forall (cleaned_component (IsAbs path)) out ->
    Forall (cleaned_component (IsAbs path)) (foldl (clean_step (IsAbs path)) out l)).
  { induction l as [|c l IH]; intros out Hl Hout; [done|]. cbn [foldl]. apply Forall_cons in Hl as [Hc Hl]. by apply IH, clean_step_ok. }
  by apply Hgen.
Qed.

Lemma clean_components_normal path : IsAbs path = true -> Forall normal (clean_components path).
Proof. intros Habs. eapply Forall_impl; [apply clean_components_ok|]. intros c (? & ? & Hdd & ?). split_and!; [done|done|by apply Hdd|done]. Qed.

(** Cleaning does not make a path absolute. *)
Lemma Clean_abs path : IsAbs (Clean path) = true -> IsAbs path = true.
Proof.
  unfold Clean. destruct (IsAbs path) eqn:Ha; [done|]. pose proof (clean_components_ok path) as Hok. destruct (clean_components path) as [|c cs]; [by vm_compute|].
  apply Forall_cons in Hok as [(Hne & _ & _ & Hfree) _]. destruct c as [|a c]; [done|]. unfold IsAbs. rewrite bool_decide_eq_true.
  destruct cs; cbn; intros [= ->]; destruct Hfree; by left.
Qed.

(** An output path is a file's: it is absolute and in canonical form, components that are not
    empty, not dots and without separators between single separators, and there is at least
    one, whatever was given, so long as the working directory is absolute. *)
Theorem prepared_path wd p q : (forall d, wd = Ok d -> IsAbs (chars_of d) = true) -> prepareOutputPath wd p = Ok q ->
  exists components name, chars_of q = slash :: Join slash (components ++ [name]) /\ Forall normal (components ++ [name]).
Proof.
  intros Hwd. unfold prepareOutputPath. cbv zeta. rewrite !fail_if_bind. intros (_ & _ & (cleaned & Hc & Hq)%res_bind_ok).
  assert (Habs : exists path, IsAbs path = true /\ cleaned = Clean path).
  { destruct (IsAbs (Clean (chars_of p))) eqn:Ha.
    - injection Hc as <-. exists (chars_of p). split; [by apply Clean_abs|done].
    - apply wrap_ok in Hc. unfold Abs in Hc. rewrite Ha in Hc. apply res_bind_ok in Hc as (d & Hd & [= <-]). eexists. split; [|done]. apply Hwd in Hd. by destruct (chars_of d). }
  destruct Habs as (path & Hpath & ->). rewrite fail_if_bind in Hq. destruct Hq as [Hbase [= <-]]. pose proof (clean_components_normal path Hpath) as Hn.
  unfold Clean in *. rewrite Hpath in *. destruct (clean_components path) as [|c cs] using rev_ind; [by vm_compute in Hbase|].
  exists cs, c. split; [|done]. unfold chars_of, string_of. by rewrite String.list_ascii_of_string_of_list_ascii.
Qed.

(** ** Files that hold secrets *)

(** A secret is never in a file under another mode than 0600, wherever writing stops: if the file
    could not be opened nothing changed; otherwise only this file did, and it is empty, or has
    mode 0600 and holds a prefix of the data, even if it was there before with a wider mode;
    success means all of the data under that mode. *)
Theorem secret_file_private io path data d d' r : writeSecretFile io path data d = (d', r) ->
  d' = d /\ is_ok r = false \/
  exists f, files d' = <[path := f]> (files d) /\ stdout d' = stdout d /\
    (content f = [] \/ mode f = 384 /\ exists n, content f = take n data) /\ (r = Ok tt -> content f = data /\ mode f = 384).
Proof.
  unfold writeSecretFile, with_close, open_trunc, on_file. sm_steps. destruct (w_open io) as [[]|e]; [|intros [= <- <-]; by left].
  set (m := match files d !! path with Some f => mode f | None => _ end). cbn [files stdout]. intros Hw. right.
  destruct (w_chmod io) as [[]|e]; cbn [wrap] in *; [|injection Hw as <- <-; exists (mkFile [] m); cbn; split_and!; [done|done|by left|done]].
  destruct (w_short io) as [k|]; injection Hw as <- <-; cbn [files stdout]; rewrite !alter_insert_eq; cbn [content mode]; eexists; (split; [done|]); (split; [done|]); cbn [content mode app].
  - split; [right; split; [done|by exists k]|done].
  - split; [right; split; [done|exists (length data); by rewrite firstn_all]|done].
Qed.

(** ** From one command to the other *)

(** What go-ethereum documents: what it encodes it decodes, and a space is no part of it. *)
Class HexLaws `{HexLib} : Prop := {
  hex_round b : Forall (fun x => 0 <= x < 256) b -> hex_Decode (hex_Encode b) = Ok b;
  hex_tight b : TrimSpace (hex_Encode b) = hex_Encode b
}.

Section Commands.
Context `{Gnark} `{SymLib} `{EthAddr} `{HexLaws} `{RsaLib}.

Lemma written io path data d d' : writeSecretFile io path data d = (d', Ok tt) ->
  files d' = <[path := mkFile data 384]> (files d) /\ stdout d' = stdout d.
Proof.
  unfold writeSecretFile, with_close, open_trunc, on_file. sm_steps. destruct (w_open io); [|done]. destruct (w_chmod io); cbn [wrap]; [|done].
  destruct (w_short io); [done|]. intros [= <- _]. cbn [files stdout]. by rewrite !alter_insert_eq.
Qed.

(** C18: What [encrypt] wrote is what [decrypt] works on: after an [encrypt] to a file, the only
    change of the file system is that file, with mode 0600; and a [decrypt] of that path, on
    any network, decrypts exactly the ciphertext that the client made for the operators, and
    prints what that gives. *)
Theorem commands_meet env d d' : encryptCommand env d = (d', Ok tt) -> flag_String (flags env) "output" <> ""%string ->
  exists client operators ct path, createClient env = Ok client /\ GetOperators (net_operators client) = Ok operators /\
    client_Encrypt (rand_scalar env) (rand_nonce env) (net_pubkey client) (net_order client) (flag_String (flags env) "app-id")
      (text_bytes (chars_of (flag_String (flags env) "data"))) (net_arrived client) operators = Ok ct /\
    prepareOutputPath (Getwd env) (flag_String (flags env) "output") = Ok path /\
    files d' = <[path := mkFile (text_bytes (chars_of (hex_Encode ct))) 384]> (files d) /\
    (Forall (fun x => 0 <= x < 256) ct -> forall env' client', Stat env' = Ok tt -> ReadFile env' = Ok tt -> createClient env' = Ok client' ->
       flag_String (flags env') "encrypted-data" = path -> flag_String (flags env') "attestation" = ""%string -> flag_String (flags env') "output" = ""%string ->
       decryptCommand env' d' =
         match decryptWithoutAttestation client' (flag_String (flags env') "app-id") ct (flag_Int (flags env') "threshold") with
         | Ok m => (mkDisk (files d') (stdout d' ++ [m]), Ok tt)
         | Err e => (d', Err e)
         end).
Proof.
  unfold encryptCommand. intros He Hout. sm_ok He. unfold output in He. rewrite bool_decide_false in He by done. cbn [negb] in He. sm_ok He.
  apply sm_wrap_ok, written in He as [Hfiles Hstd]. do 4 eexists. split_and!; [eassumption..|]. intros Hbytes env' client' Hstat Hread Hc Hpath Hatt Hnoout.
  unfold decryptCommand, parseEncryptedInput, output. cbv zeta. rewrite Hatt, Hpath, Hnoout, (bool_decide_true ("" = "")%string), (bool_decide_false ("" = "ecdsa")%string) by done. cbn [fail_if negb orb]. sm_steps. rewrite Hc, Hstat, Hfiles, lookup_insert_eq, Hread.
  cbn [wrap content]. rewrite bytes_text_bytes. unfold string_of, chars_of. rewrite String.string_of_list_ascii_of_string, hex_tight, hex_round by done. cbn [wrap].
  destruct (decryptWithoutAttestation _ _ _ _); [|done]. unfold sm_modify. by rewrite Hfiles.
Qed.
End Commands.

(** ** Witnesses: three operators, a file that was readable by everyone *)

#[local] Existing Instances toy97 toy97_laws toy_sym toy_sym_laws toy_ecdsa toy_rsa Client.client_addr.

(** Hexadecimal and back. *)
#[local] Instance demo_hex : HexLib := {
  hex_Encode b := string_of (chars_of "0x" ++ hex_EncodeToString ((fun x => x mod 256) <$> b));
  hex_Decode s := match strip (chars_of "0x") (chars_of s) with Some l => hex_DecodeString l | None => Err "hex string without 0x prefix" end;
  key_FromHex _ := Err "unused"
}.
#[local] Instance demo_hex_laws : HexLaws.
Proof.
  constructor.
  - intros b Hb. cbn [hex_Encode hex_Decode demo_hex]. unfold chars_of at 3, string_of. rewrite String.list_ascii_of_string_of_list_ascii, (proj2 (strip_one_prefix _ _ _) eq_refl).
    assert (Hid : (fun x => x mod 256) <$> b = b) by (induction Hb as [|x b Hx _ IH]; [done|]; cbn; rewrite IH, Z.mod_small by done; done).
    by rewrite Hid, hex_decode_encode.
  - intros b. apply TrimSpace_all_firm, Forall_app. split; [by_compute|]. apply hex_firm. apply Forall_fmap, Forall_true. intros x. by apply Z.mod_pos_bound.
Qed.

Definition cli_flags (fs : list (string * string)) : cli_Context :=
  mkContext (fun name => default ""%string (list_to_map (M := gmap string string) fs !! name)) (fun _ => false) (fun _ => 2) (fun _ => 0) (fun _ => 0) (fun _ => []).
Definition cli_network : Network := mkNetwork _ (Ok client_peers) client_pubkey map_order client_sign (client_peer <$> [3; 1; 2]) client_env.
Definition cli_env (fs : list (string * string)) : CliEnv :=
  mkCliEnv _ _ (cli_flags fs) (fun name => bool_decide (name = "avs-address"%string)) (Ok (toy_fr 11)) (Ok toy_nonce) [] (Ok "/home/op"%string) (Ok tt) (Ok tt)
    (mkWriteIO (Ok tt) 18 (Ok tt) None (Ok tt)) (fun _ _ _ => Ok cli_network).
Definition encrypt_env : CliEnv := cli_env [("app-id", "app-1"); ("data", "Hi"); ("output", "out//../sealed")]%string.
Definition decrypt_env : CliEnv := cli_env [("app-id", "app-1"); ("encrypted-data", "/home/op/sealed")]%string.
Definition before_run : Disk := mkDisk {["/home/op/sealed"%string := mkFile [1; 2; 3] 420]} [].
Definition sealed : Disk := (encryptCommand encrypt_env before_run).1.

Lemma prepared_path_witness : exists components name, chars_of "/home/op/sealed" = slash :: Join slash (components ++ [name]) /\ Forall normal (components ++ [name]).
Proof. apply (prepared_path (Ok "/home/op"%string) "out//../sealed" "/home/op/sealed"); [by intros d [= <-]|vm_compute; reflexivity]. Defined.

(** The file was there, readable by everyone. *)
Lemma secret_file_private_witness : exists f,
  files (writeSecretFile (mkWriteIO (Ok tt) 18 (Ok tt) (Some 1%nat) (Ok tt)) "/home/op/sealed" [7; 8] before_run).1 = <["/home/op/sealed"%string := f]> (files before_run) /\
  mode f = 384 /\ content f = [7].
Proof.
  destruct (writeSecretFile (mkWriteIO (Ok tt) 18 (Ok tt) (Some 1%nat) (Ok tt)) "/home/op/sealed" [7; 8] before_run) as [d' r] eqn:Hw. exists (mkFile [7] 384).
  destruct (secret_file_private _ _ _ _ _ _ Hw) as [[-> _]|(f & Hf & _)]; [apply (f_equal (fun x => files x.1 !! "/home/op/sealed"%string)) in Hw; vm_compute in Hw; discriminate|].
  split; [|done]. cbn [fst]. rewrite Hf. f_equal. apply (f_equal (fun x => files x.1 !! "/home/op/sealed"%string)) in Hw. cbn [fst] in Hw. rewrite Hf, lookup_insert_eq in Hw.
  vm_compute in Hw. by injection Hw.
Defined.

Lemma commands_meet_witness : exists ct, files sealed = <["/home/op/sealed"%string := mkFile (text_bytes (chars_of (hex_Encode ct))) 384]> (files before_run) /\
  stdout (decryptCommand decrypt_env sealed).1 = [[72; 105]].
Proof.
  destruct (encryptCommand encrypt_env before_run) as [d' r] eqn:He. assert (Hr : r = Ok tt) by (change r with (d', r).2; rewrite <- He; vm_compute; reflexivity). subst r.
  destruct (commands_meet encrypt_env before_run d' He) as (client & operators & ct & path & _ & _ & _ & Hpath & Hfiles & _); [discriminate|].
  exists ct. split; [|vm_compute; reflexivity]. unfold sealed. rewrite He. cbn [fst]. vm_compute in Hpath. injection Hpath as <-. exact Hfiles.
Defined.
