(* ===== verification/ServerMain.v ===== *)
(** * The server: [runKMSServer] of [cmd/kmsServer/main.go]

    The main function after its flags: it validates the configuration, makes the two chain
    connections, the signers, the attestation manager, the contract callers and the store, and
    starts the node ([Node.Start]).  A [Fatalw] is an error, like a returned one.  The theorems
    join it to the components it builds: the methods a running server answers by are the ones
    of its flags, and what it releases was attested by one of them. *)

From stdpp Require Import gmap strings.
From S2P Require Import Prelude Bytes Types Fr Gnark Toy Crypto KeyStore Persistence Session NodeCore Platform NodeOps Lifecycle Messages GoText Attestation Encryption Handlers Secrets Config InitData Snp SnpSecrets Tpm Transport Web3Client TxSigner ContractCaller Registration.
From Stdlib Require Import Ascii.

(** ** The parts *)

Section Server.
Context `{ConfigLib} `{Gnark} `{FrText Fr} `{EthAddr} `{SignerLib} `{EthTxLib} `{TlsLib} `{RpcLib} `{ChainLib}.
Context `{EcdsaLib} `{JwtLib} `{SnpLib} `{InitDataLib} `{AttestLib} `{RsaLib} `{SecretsLib}.
Context {P : Type} `{INodePersistence Fr P}.

(** The outside: what a URL gives, the Web3Signer service, and as the transport signer sees it,
    a transaction signer in the caller's form, the keys [NewAttestationVerifier] fetches,
    the verifier and validator of reports, the bound controller, the stores, the poller. *)
Record ServerWorld := mkServerWorld {
  sw_dial : string -> res (Backend * EthClient);
  sw_service : Service;
  sw_answers : w3_Client -> web3signer_Client;
  sw_signs : tx_signer -> ITransactionSigner;
  sw_NewAttestationVerifier : string -> bool -> res AttestationVerifier;
  sw_verify : spb_Attestation -> verify_Options AMDRootCerts -> res unit;
  sw_validate : spb_Attestation -> validate_Options -> res unit;
  sw_NewAppControllerAdapter : Address -> Backend -> res AppControllerInterface;
  sw_open : store_choice -> res P;
  sw_HealthCheck : P -> res unit;
  sw_NewEVMChainPoller : Address -> Z -> res unit;
  sw_poller_Start : res unit
}.
Variable world : ServerWorld.

(** The signers of messages and of transactions. *)
Definition signers (kmsConfig : KMSServerConfig) (l2 : EthClient) : res (ITransportSigner * tx_signer) :=
  choice ← from_opt "panic: nil pointer dereference" (choose_signer kmsConfig);
  match choice with
  | RemoteSigner rsc =>
      web3SignerClient ← wrap "Failed to create Web3Signer client" (NewWeb3SignerClientFromRemoteSignerConfig (Some rsc) true);
      let fromAddr := HexToAddress (rsc_FromAddress rsc) in
      transport ← wrap "Failed to create Web3Signer transport signer"
        (NewWeb3TransportSigner (Some (sw_answers world web3SignerClient)) fromAddr (rsc_PublicKey rsc) Types.CurveTypeECDSA true);
      tx ← wrap "Failed to create Web3Signer transaction signer" (NewWeb3TransactionSigner web3SignerClient (sw_service world) fromAddr l2);
      Ok (web3 transport, RemoteTxSigner tx)
  | LocalKey privateKey =>
      pkBytes ← wrap "Failed to decode ECDSA private key" (hexutil_Decode privateKey);
      transport ← wrap "Failed to create ECDSA in-memory transport signer" (NewECDSAInMemoryTransportSigner pkBytes);
      tx ← wrap "Failed to create private key transaction signer" (NewPrivateKeySigner privateKey l2);
      Ok (in_memory transport, LocalSigner tx)
  end.

(** The attestation manager: each method behind its flag. *)
Definition register (method : AttestationMethod) (m : AttestationManager) : res AttestationManager :=
  wrap "failed to register attestation method" (RegisterMethod (Some method) m).

Definition attestation_provider (providerStr : string) : res AttestationProvider :=
  if bool_decide (providerStr = "google"%string) then Ok GoogleConfidentialSpace
  else if bool_decide (providerStr = "intel"%string) then Ok IntelTrustAuthority
  else Err "invalid attestation provider: %s (must be 'google' or 'intel')".

Definition gcp_method (c : cli_Context) : res AttestationMethod :=
  provider ← attestation_provider (flag_String c "attestation-provider");
  core ← wrap "failed to create attestation verifier" (sw_NewAttestationVerifier world (flag_String c "gcp-project-id") (flag_Bool c "attestation-debug-mode"));
  Ok (GCPAttestationMethod core provider).

Definition NewECDSAAttestationMethodDefault : AttestationMethod :=
  ECDSAAttestationMethod (NewECDSAAttestationMethod (mkECDSAAttestationConfig DefaultChallengeTimeWindow "")).

Definition parse_measurement (h : string) : res bytes :=
  wrap "invalid --eigenx-snp-measurement %q" (hex_DecodeString (chars_of (TrimPrefix (TrimSpace h) "0x"))).

Fixpoint parse_measurements (msHex : list string) : res (list bytes) :=
  match msHex with
  | [] => Ok []
  | h :: msHex => b ← parse_measurement h; rest ← parse_measurements msHex; Ok (b :: rest)
  end.

Definition NewEigenXSNPAttestationMethod : EigenXSNPAttestationMethod := newEigenXSNPMethod (sw_verify world) (sw_validate world) None.

Definition snp_method (c : cli_Context) : res AttestationMethod :=
  let eigenXSNPMethod := NewEigenXSNPAttestationMethod in
  let msHex := flag_StringSlice c "eigenx-snp-measurement" in
  if (0 <? length msHex)%nat then
    measurements ← parse_measurements msHex;
    let '(m, r) := SetMeasurementAllowlist measurements eigenXSNPMethod in
    _ ← wrap "set eigenx-snp measurement allowlist" r;
    Ok (EigenXSNPMethod m)
  else Ok (EigenXSNPMethod eigenXSNPMethod).

Definition register_if (enabled : bool) (method : res AttestationMethod) (m : AttestationManager) : res AttestationManager :=
  if enabled then method ← method; register method m else Ok m.

Definition attestation_manager (c : cli_Context) : res AttestationManager :=
  let enableGCP := flag_Bool c "enable-gcp-attestation" in
  let enableECDSA := flag_Bool c "enable-ecdsa-attestation" in
  let enableTPM := flag_Bool c "enable-tpm-attestation" in
  let enableEigenXSNP := flag_Bool c "enable-eigenx-snp-attestation" in
  _ ← fail_if (negb enableGCP && negb enableECDSA && negb enableTPM && negb enableEigenXSNP) "at least one attestation method must be enabled";
  m ← register_if enableGCP (gcp_method c) NewAttestationManager;
  m ← register_if enableECDSA (Ok NewECDSAAttestationMethodDefault) m;
  m ← register_if enableTPM (Ok NewTPMAttestationMethod) m;
  register_if enableEigenXSNP (snp_method c) m.

(** The caller of the Base chain reads releases through a controller bound on L1. *)
Definition wire_app_controller (c : cli_Context) (l1 : Backend) (base : ContractCaller) : res ContractCaller :=
  let appControllerAddr := flag_String c "app-controller-address" in
  if negb (bool_decide (appControllerAddr = ""%string)) then
    _ ← fail_if (negb (Config.IsHexAddress appControllerAddr)) "Invalid app-controller-address";
    appCtrl ← wrap "Failed to create AppController adapter" (sw_NewAppControllerAdapter world (HexToAddress appControllerAddr) l1);
    let '(base, r) := SetAppController (Some appCtrl) base in
    _ ← wrap "Failed to set AppController" r;
    Ok (SetAppControllerBlockClient (Some l1) base)
  else Ok base.

(** A caller without a signer: to send with it would follow a nil pointer. *)
Definition no_signer : ITransactionSigner := mkTransactionSigner (Err "panic: nil pointer dereference") (fun _ => Err "panic: nil pointer dereference").

(** What runs when [main] blocks. *)
Record Running := mkRunning {
  run_node : Node Fr P;
  run_manager : AttestationManager;
  run_transport : ITransportSigner;
  run_base : ContractCaller;
  run_l1 : ContractCaller;
  run_registrar : Address
}.

Definition runKMSServer (now : Z) (c : cli_Context) : res Running :=
  let '(kmsConfig, r) := KMSServerConfig_Validate (parseKMSConfig c) in
  _ ← wrap "invalid configuration" r;
  '(l1Client, _) ← wrap "Failed to get Ethereum contract caller" (sw_dial world (c_RpcUrl kmsConfig));
  '(l2Client, l2Eth) ← wrap "Failed to get Base contract caller" (sw_dial world (c_BaseRpcUrl kmsConfig));
  '(transport, transactionSigner) ← signers kmsConfig l2Eth;
  attestationManager ← attestation_manager c;
  baseContractCaller ← wrap "Failed to create Base contract caller" (NewContractCaller l2Client (sw_signs world transactionSigner));
  l1ContractCaller ← wrap "Failed to create contract caller" (NewContractCaller l1Client no_signer);
  baseContractCaller ← wire_app_controller c l1Client baseContractCaller;
  store ← from_opt "panic: nil pointer dereference" (choose_store kmsConfig);
  nodePersistence ← wrap "Failed to create persistence" (sw_open world store);
  _ ← wrap "Persistence health check failed" (sw_HealthCheck world nodePersistence);
  registrarAddr ← wrap "Failed to resolve EigenKMSRegistrar address on L1" (GetAvsRegistrar l1ContractCaller (HexToAddress (c_AVSAddress kmsConfig)));
  _ ← fail_if (registrarAddr =? 0) "EigenKMSRegistrar not found for AVS";
  _ ← wrap "Failed to create EVM chain poller" (sw_NewEVMChainPoller world registrarAddr (c_ChainID kmsConfig));
  n ← wrap "Failed to create node"
    (NewNode (node_config kmsConfig) true true (HexToAddress (c_CommitmentRegistryAddress kmsConfig)) nodePersistence);
  let '(n, r) := Start (sw_poller_Start world) now (GetAvsConfig l1ContractCaller (c_AVSAddress kmsConfig)) n in
  _ ← wrap "failed to start node" r;
  Ok (mkRunning n attestationManager transport baseContractCaller l1ContractCaller registrarAddr).

(** What the secrets handler of a running server sees. *)
Definition server_env (run : Running) (now : Z) (platform : option (string -> list App + platform_error)) (rand : bytes) : SecretsEnv :=
  mkSecretsEnv now (run_manager run) (GetAppCreator (run_base run)) (ContractCaller.GetLatestReleaseAsRelease (run_base run)) platform rand.
End Server.

(** ** Facts *)

Section ServerFacts.
Context `{ConfigLib} `{Gnark} `{FrText Fr} `{EthAddr} `{SignerLib} `{EthTxLib} `{TlsLib} `{RpcLib} `{ChainLib}.
Context `{EcdsaLib} `{JwtLib} `{SnpLib} `{InitDataLib} `{AttestLib} `{RsaLib} `{SecretsLib}.
Context {P : Type} `{INodePersistence Fr P}.
Variable world : ServerWorld (P := P).

(** A measurement flag and the pin it sets. *)
Definition pin_of (h : string) (pin : bytes) : Prop := parse_measurement h = Ok pin /\ length pin = MeasurementSize.

(** The method as the flags configure it. *)
Definition pinned (pins : list bytes) : EigenXSNPAttestationMethod :=
  let m := NewEigenXSNPAttestationMethod world in mkEigenXSNP (verifier m) (validator m) (options m) (validateOptions m) pins.

(** The methods that the flags enable. *)
Inductive enabled (c : cli_Context) : AttestationMethod -> Prop :=
| by_gcp_flag provider core :
    flag_Bool c "enable-gcp-attestation" = true -> attestation_provider (flag_String c "attestation-provider") = Ok provider ->
    sw_NewAttestationVerifier world (flag_String c "gcp-project-id") (flag_Bool c "attestation-debug-mode") = Ok core ->
    enabled c (GCPAttestationMethod core provider)
| by_ecdsa_flag : flag_Bool c "enable-ecdsa-attestation" = true -> enabled c NewECDSAAttestationMethodDefault
| by_tpm_flag : flag_Bool c "enable-tpm-attestation" = true -> enabled c NewTPMAttestationMethod
| by_snp_flag pins :
    flag_Bool c "enable-eigenx-snp-attestation" = true -> Forall2 pin_of (flag_StringSlice c "eigenx-snp-measurement") pins ->
    enabled c (EigenXSNPMethod (pinned pins)).

Lemma parse_measurements_ok hs pins : parse_measurements hs = Ok pins <-> Forall2 (fun h pin => parse_measurement h = Ok pin) hs pins.
Proof.
  revert pins. induction hs as [|h hs IH]; intros pins; cbn [parse_measurements].
  - split; [intros [= <-]; constructor|by intros ->%Forall2_nil_inv_l].
  - split.
    + intros (b & Hb & (rest & Hr & [= <-])%res_bind_ok)%res_bind_ok. constructor; [done|]. by apply IH.
    + intros Hf. apply Forall2_cons_inv_l in Hf as (b & rest & Hb & Hr & ->). rewrite Hb. cbn [mbind res_bind]. apply IH in Hr. by rewrite Hr.
Qed.

Lemma snp_method_ok c y : snp_method world c = Ok y <->
  exists pins, Forall2 pin_of (flag_StringSlice c "eigenx-snp-measurement") pins /\ y = EigenXSNPMethod (pinned pins).
Proof.
  unfold snp_method, SetMeasurementAllowlist. set (hs := flag_StringSlice c _). destruct (Nat.ltb_spec 0 (length hs)) as [Hl|Hl].
  - split.
    + intros (pins & Hp%parse_measurements_ok & Hy)%res_bind_ok. destruct (forallb _ pins) eqn:Hf; [|done]. cbn in Hy. injection Hy as <-.
      exists pins. split; [|done]. clear -Hp Hf. induction Hp as [|h pin hs pins Hh Hp IH]; constructor; cbn [forallb] in Hf; apply andb_true_iff in Hf as [Hl Hf].
      * split; [done|by apply Nat.eqb_eq].
      * by apply IH.
    + intros (pins & Hp & ->). rewrite (proj2 (parse_measurements_ok hs pins)) by (eapply Forall2_impl; [exact Hp|unfold pin_of; tauto]). cbn [mbind res_bind].
      replace (forallb _ pins) with true; [done|]. symmetry. apply forallb_forall. intros pin Hin%list_elem_of_In.
      apply Nat.eqb_eq. apply list_elem_of_lookup in Hin as [i Hi]. by destruct (Forall2_lookup_r _ _ _ _ _ Hp Hi) as (h & _ & _ & ?).
  - assert (hs = []) as -> by (destruct hs; [done|cbn in Hl; lia]). split.
    + intros [= <-]. exists []. split; [constructor|done].
    + intros (pins & Hp & ->). apply Forall2_nil_inv_l in Hp as ->. done.
Qed.

Lemma register_if_ok e r m m' : register_if e r m = Ok m' ->
  (e = false /\ m' = m) \/ (e = true /\ exists x, r = Ok x /\ m' = <[Name x := x]> m).
Proof.
  unfold register_if. destruct e; [|intros [= <-]; by left]. intros (x & Hx & Hr%wrap_ok)%res_bind_ok. unfold RegisterMethod in Hr.
  cbn [from_opt mbind res_bind] in Hr. apply fail_if_bind in Hr as [_ [= <-]]. right. split; [done|]. by exists x.
Qed.

(** The manager holds these methods under their names. *)
Definition holds (S : AttestationMethod -> Prop) (m : gmap string AttestationMethod) : Prop := forall name x, m !! name = Some x <-> S x /\ name = Name x.

Lemma holds_register S e r m m' : holds S m -> register_if e r m = Ok m' -> (forall x y, e = true -> r = Ok x -> S y -> Name y <> Name x) ->
  holds (fun y => S y \/ e = true /\ r = Ok y) m'.
Proof.
  intros Hm [[-> ->]|(-> & x & -> & ->)]%register_if_ok Hne name y.
  - rewrite (Hm name y). naive_solver.
  - rewrite lookup_insert_Some, (Hm name y). split.
    + intros [[<- <-]|(? & ? & ->)]; [by split; [right|]|by split; [left|]].
    + intros [[Hs|[_ [= ->]]] ->]; [right; split; [|done]; intros Hn; by eapply Hne|by left].
Qed.

Lemma gcp_method_ok c y : gcp_method world c = Ok y <-> exists provider core, attestation_provider (flag_String c "attestation-provider") = Ok provider /\
  sw_NewAttestationVerifier world (flag_String c "gcp-project-id") (flag_Bool c "attestation-debug-mode") = Ok core /\ y = GCPAttestationMethod core provider.
Proof.
  unfold gcp_method. split.
  - intros (provider & Hp & (core & Hc%wrap_ok & [= <-])%res_bind_ok)%res_bind_ok. by exists provider, core.
  - intros (provider & core & -> & Hc & ->). cbn [mbind res_bind]. by rewrite Hc.
Qed.

Lemma gcp_name c y : gcp_method world c = Ok y -> Name y = "gcp"%string \/ Name y = "intel"%string.
Proof.
  intros (provider & core & Hp & _ & ->)%gcp_method_ok. cbn. unfold attestation_provider in Hp.
  case_bool_decide; [injection Hp as <-; by left|]. case_bool_decide; [injection Hp as <-; by right|done].
Qed.
Lemma snp_name c y : snp_method world c = Ok y -> Name y = "eigenx-snp"%string.
Proof. by intros (pins & _ & ->)%snp_method_ok. Qed.

Lemma manager_methods c m : attestation_manager world c = Ok m -> holds (enabled c) m /\ m <> ∅.
Proof.
  unfold attestation_manager. rewrite fail_if_bind. intros [Hany (m1 & Hm1 & (m2 & Hm2 & (m3 & Hm3 & Hm)%res_bind_ok)%res_bind_ok)%res_bind_ok].
  assert (H0' : holds (fun _ => False) NewAttestationManager) 
    by (intros name x; assert ((NewAttestationManager : gmap string AttestationMethod) !! name = None) as -> by apply lookup_empty; naive_solver).
  assert (Hh : holds (enabled c) m).
  { eapply holds_register in Hm1; [|exact H0'|done].
    eapply holds_register in Hm2; [|exact Hm1|intros x y _ [= <-] [[]|[_ [-> | ->]%gcp_name]]; done].
    eapply holds_register in Hm3; [|exact Hm2|intros x y _ [= <-] [[[]|[_ [-> | ->]%gcp_name]]|[_ [= <-]]]; done].
    eapply holds_register in Hm; [|exact Hm3|intros x y _ ->%snp_name [[[[]|[_ [-> | ->]%gcp_name]]|[_ [= <-]]]|[_ [= <-]]]; done].
    intros name y. rewrite (Hm name y). apply and_iff_compat_r. split.
    - intros [[[[[]|[Hf (p & core & Hp & Hc & ->)%gcp_method_ok]]|[Hf [= <-]]]|[Hf [= <-]]]|[Hf (pins & Hp & ->)%snp_method_ok]]; by econstructor.
    - intros [p core Hf Hp Hc|Hf|Hf|pins Hf Hp]; [left; left; left; right|left; left; right|left; right|right]; (split; [done|]); [|done|done|].
      + apply gcp_method_ok. by exists p, core.
      + apply snp_method_ok. by exists pins. }
  split; [done|]. intros ->.
  assert (Hno : forall e r m m', register_if e r m = Ok m' -> m' = ∅ -> e = false /\ m = ∅).
  { intros e r n n' [[-> ->]|(-> & x & _ & ->)]%register_if_ok Hn; [done|]. by apply insert_non_empty in Hn. }
  apply Hno in Hm as [He4 ->]; [|done]. apply Hno in Hm3 as [He3 ->]; [|done]. apply Hno in Hm2 as [He2 ->]; [|done]. apply Hno in Hm1 as [He1 _]; [|done].
  by rewrite He1, He2, He3, He4 in Hany.
Qed.

(** What a start does not touch. *)
Definition identity (n : Node Fr P) : Address * Z * option (gset string) * string := (OperatorAddress_ n, NodeCore.ChainID n, appAllowlist n, platformURL n).

Lemma restore_sessions_identity now timeout l (n : Node Fr P) : identity (restore_sessions now timeout l n) = identity n.
Proof.
  revert n. induction l as [|x l IH]; intros n; [done|]. unfold restore_sessions in *. cbn [foldl].
  rewrite IH. unfold try_pers. by destruct (IsExpired _ _ _), (DeleteProtocolSession _ _).
Qed.

Lemma restore_tracker_identity st (n : Node Fr P) : identity (restore_tracker st n) = identity n.
Proof.
  unfold restore_tracker. destruct st as [st|]; [|done]. destruct (GetActiveVersion (keyStore n)) as [a|]; [|done]. by destruct (_ =? _).
Qed.

Lemma restore_identity now (n : Node Fr P) : identity (RestoreState now n).1 = identity n.
Proof.
  unfold RestoreState. destruct (wrap _ (LoadNodeState _)) as [st|e]; [|done].
  set (n1 := match st with Some _ => _ | None => n end). assert (H1' : identity n1 = identity n) by (unfold n1; destruct st as [st|]; [by destruct (_ >? 0)|done]).
  clearbody n1. destruct (wrap _ (ListKeyShareVersions _)) as [vs|e]; [|done]. destruct (foldl _ _ vs) as [ptrs ks].
  destruct (wrap _ (GetActiveVersionTimestamp _)) as [t|e]; [|done]. destruct (wrap _ (ListProtocolSessions _)) as [l|e]; cbn [fst].
  - rewrite restore_sessions_identity, restore_tracker_identity. by destruct (ListPoisonedVersions _).
  - rewrite restore_tracker_identity. by destruct (ListPoisonedVersions _).
Qed.

Lemma start_identity now cfg (n n' : Node Fr P) : Start (sw_poller_Start world) now cfg n = (n', Ok tt) -> platformURL n = ""%string ->
  (OperatorAddress_ n' = OperatorAddress_ n /\ NodeCore.ChainID n' = NodeCore.ChainID n /\ appAllowlist n' = appAllowlist n) /\
  (platformURL n' = ""%string \/ isSafePlatformURL (platformURL n') = true).
Proof.
  unfold Start. pose proof (restore_identity now n) as Hi. destruct (RestoreState now n) as [m r]. cbn [fst] in Hi. unfold identity in Hi.
  injection Hi as Ha Hc Hl Hu. destruct (wrap _ r); [|done]. destruct (wrap _ (sw_poller_Start world)); [|done]. intros [= <-] Hn. rewrite Hn in Hu.
  split; [by destruct m|]. cbn. unfold refreshPlatformConfig. destruct cfg as [[v url]|e]; cbn; [|by left; destruct m].
  destruct (decide (url = ""%string)) as [->|Hne]; [by left|]. rewrite bool_decide_false by done. cbn.
  destruct (isSafePlatformURL url) eqn:Hs; cbn; [by right|by left].
Qed.

(** How a running server was put together. *)
Record wired (now : Z) (c : cli_Context) (run : Running) : Prop := {
  wi_config : exists name contracts, acceptable (parseKMSConfig c) /\ ChainIdToName !! flag_Uint64 c "chain-id" = Some name /\
    KMSServerConfig_Validate (parseKMSConfig c) = (validated name contracts (parseKMSConfig c), Ok tt);
  wi_manager : attestation_manager world c = Ok (run_manager run);
  wi_chains : exists l1 l1Eth l2 l2Eth base l1Caller,
    sw_dial world (flag_String c "rpc-url") = Ok (l1, l1Eth) /\ sw_dial world (flag_String c "base-rpc-url") = Ok (l2, l2Eth) /\
    (exists tx, NewContractCaller l2 (sw_signs world tx) = Ok base) /\ wire_app_controller world c l1 base = Ok (run_base run) /\
    NewContractCaller l1 no_signer = Ok l1Caller /\ run_l1 run = l1Caller /\
    GetAvsRegistrar l1Caller (HexToAddress (flag_String c "avs-address")) = Ok (run_registrar run) /\ run_registrar run <> 0;
  wi_node : exists p n, NewNode (mkConfig (flag_String c "operator-address") (flag_Uint64 c "chain-id") (flag_StringSlice c "app-allowlist")) true true
      (HexToAddress (flag_String c "commitment-registry-address")) p = Ok n /\
    Start (sw_poller_Start world) now (GetAvsConfig (run_l1 run) (flag_String c "avs-address")) n = (run_node run, Ok tt)
}.

Lemma run_wired now c run : runKMSServer world now c = Ok run -> wired now c run.
Proof.
  unfold runKMSServer. destruct (KMSServerConfig_Validate (parseKMSConfig c)) as [cfg r] eqn:Hv. intros Hr.
  apply res_bind_ok in Hr as ([] & ->%wrap_ok & Hr). pose proof Hv as (Hacc & name & contracts & Hn & _ & ->)%KMSServerConfig_Validate_ok.
  apply res_bind_ok in Hr as ([l1 l1Eth] & Hl1%wrap_ok & Hr). apply res_bind_ok in Hr as ([l2 l2Eth] & Hl2%wrap_ok & Hr).
  apply res_bind_ok in Hr as ([transport tx] & _ & Hr). apply res_bind_ok in Hr as (m & Hm & Hr).
  apply res_bind_ok in Hr as (base & Hb%wrap_ok & Hr). apply res_bind_ok in Hr as (l1c & Hl1c%wrap_ok & Hr).
  apply res_bind_ok in Hr as (base' & Hb' & Hr). apply res_bind_ok in Hr as (store & _ & Hr). apply res_bind_ok in Hr as (p & _ & Hr).
  apply res_bind_ok in Hr as (? & _ & Hr). apply res_bind_ok in Hr as (registrar & Hreg%wrap_ok & Hr).
  apply fail_if_bind in Hr as [Hz%Z.eqb_neq Hr]. apply res_bind_ok in Hr as (? & _ & Hr). apply res_bind_ok in Hr as (n & Hnode%wrap_ok & Hr).
  destruct (Start (sw_poller_Start world) now _ n) as [n' rs] eqn:Hs. apply res_bind_ok in Hr as ([] & ->%wrap_ok & [= <-]).
  constructor; cbn [run_manager run_base run_l1 run_registrar run_node].
  - by exists name, contracts.
  - done.
  - exists l1, l1Eth, l2, l2Eth, base, l1c. split_and!; try done. by exists tx.
  - by exists p, n.
Qed.

(** The releases of a running server come through a controller bound on the first chain. *)
Lemma wired_controller now c run : wired now c run ->
  match appController (run_base run) with
  | None => flag_String c "app-controller-address" = ""%string
  | Some controller => exists l1 l1Eth, flag_String c "app-controller-address" <> ""%string /\ sw_dial world (flag_String c "rpc-url") = Ok (l1, l1Eth) /\
      sw_NewAppControllerAdapter world (HexToAddress (flag_String c "app-controller-address")) l1 = Ok controller /\ appControllerClient (run_base run) = Some l1
  end.
Proof.
  intros [_ _ (l1 & l1Eth & l2 & l2Eth & base & l1c & Hl1 & _ & [tx Hb] & Hw & _) _]. unfold wire_app_controller in Hw. case_bool_decide as Hf; cbn [negb] in Hw.
  - injection Hw as <-. unfold NewContractCaller in Hb. apply res_bind_ok in Hb as (? & _ & Hb). by apply res_bind_ok in Hb as (? & _ & [= <-]).
  - rewrite fail_if_bind in Hw. destruct Hw as [_ Hw]. apply res_bind_ok in Hw as (controller & Hc%wrap_ok & Hw). cbn in Hw. injection Hw as <-. cbn.
    by exists l1, l1Eth.
Qed.

Lemma listed_apps l (m : gset string) app : app ∈ foldl (fun m appID => {[TrimSpace appID]} ∪ m) m l <-> app ∈ m \/ app ∈ TrimSpace <$> l.
Proof.
  revert m. induction l as [|x l IH]; intros m; cbn [foldl]; [set_solver|]. rewrite IH. cbn [fmap list_fmap]. set_solver.
Qed.

(** A server that runs is the one of its flags: it answers by the attestation methods that the
    flags enable, under their names, and there is at least one; its node has the address and the
    chain of the flags, a supported chain, and serves the listed applications (all, when
    none is listed); the platform it would ask is none or a plain host and port; its registrar
    is the one the first chain gives for the AVS; and without a controller address it
    finds no release for any application. *)
Theorem server_as_configured now c run : runKMSServer world now c = Ok run ->
  holds (enabled c) (run_manager run) /\ run_manager run <> ∅ /\
  OperatorAddress_ (run_node run) = HexToAddress (flag_String c "operator-address") /\
  NodeCore.ChainID (run_node run) = flag_Uint64 c "chain-id" /\ is_Some (ChainIdToName !! flag_Uint64 c "chain-id") /\
  (forall app, not_allowed (run_node run) app = false <->
    flag_StringSlice c "app-allowlist" = [] \/ app ∈ TrimSpace <$> flag_StringSlice c "app-allowlist") /\
  (platformURL (run_node run) = ""%string \/ isSafePlatformURL (platformURL (run_node run)) = true) /\
  run_registrar run <> 0 /\ GetAvsRegistrar (run_l1 run) (HexToAddress (flag_String c "avs-address")) = Ok (run_registrar run) /\
  (flag_String c "app-controller-address" = ""%string -> forall app rel, ContractCaller.GetLatestReleaseAsRelease (run_base run) app <> Ok rel).
Proof.
  intros Hw%run_wired. pose proof (wired_controller _ _ _ Hw) as Hctl.
  destruct Hw as [(name & contracts & _ & Hname & _) [Hm Hne]%manager_methods (l1 & l1Eth & l2 & l2Eth & base & l1c & _ & _ & _ & _ & _ & <- & Hreg & Hnz) (p & n & Hn & Hs)].
  unfold NewNode in Hn. cbn [negb cfg_OperatorAddress cfg_ChainID cfg_AppAllowlist] in Hn. destruct (_ =? 0) in Hn; [done|]. injection Hn as <-.
  apply start_identity in Hs as [(Ha & Hc & Hal) Hu]; [|done]. cbn in Ha, Hc, Hal. split_and!; try done.
  - intros app. unfold not_allowed. rewrite Hal. destruct (flag_StringSlice c "app-allowlist") as [|x l] eqn:Hl; cbn [length Nat.ltb Nat.leb]; [naive_solver|].
    rewrite negb_false_iff, bool_decide_eq_true. rewrite listed_apps. set_solver.
  - intros Hf app rel Hrel. unfold ContractCaller.GetLatestReleaseAsRelease in Hrel. apply res_bind_ok in Hrel as (? & Hrel & _).
    unfold resolveLatestRelease, getAppController in Hrel. destruct (appController (run_base run)); [naive_solver|done].
Qed.

Lemma pinned_measurement c method later request claims : enabled c method -> Name method = EigenXSNPMethodName ->
  Verify method later (Some request) = Ok claims -> flag_StringSlice c "eigenx-snp-measurement" <> [] ->
  exists report chain h, evidence_of request report chain /\ h ∈ flag_StringSlice c "eigenx-snp-measurement" /\ pin_of h (GetMeasurement report).
Proof.
  intros [provider core _ Hp _|_|_|pins _ Hp] Hn Hv Hne; try done.
  { exfalso. unfold attestation_provider in Hp. case_bool_decide; [by injection Hp as <-|]. case_bool_decide; [by injection Hp as <-|done]. }
  apply eigenx_snp_accepted in Hv as (report & chain & _ & _ & Hev & _ & _ & Hmeas & _). cbn [measurementAllowlist pinned] in Hmeas.
  assert (Hin : GetMeasurement report ∈ pins) by (apply Hmeas; intros ->; by apply Forall2_nil_inv_r in Hp).
  apply list_elem_of_lookup in Hin as [i Hi]. destruct (Forall2_lookup_r _ _ _ _ _ Hp Hi) as (h & Hh & Hpin).
  exists report, chain, h. split_and!; [done|by eapply list_elem_of_lookup_2|done].
Qed.

Lemma chain_authorised (run : Running (P := P)) later platform rand req claims rel : authorised (server_env run later platform rand) req claims rel ->
  sreq_StackID req = ""%string -> exists controller, appController (run_base run) = Some controller.
Proof.
  intros [lookup apps app pre Hs|pub r _ _ _ _ Hc _|r _ _ Hr _ _ _ _] Hstack; [done|..].
  - cbn in Hc. unfold GetAppCreator, getAppController in Hc. destruct (appController (run_base run)); [by eexists|done].
  - cbn in Hr. unfold ContractCaller.GetLatestReleaseAsRelease in Hr. apply res_bind_ok in Hr as (? & Hr & _).
    unfold resolveLatestRelease, getAppController in Hr. destruct (appController (run_base run)); [by eexists|done].
Qed.

(** C19: What a running server releases, it releases by its flags: the method of an answered request
    is one that a flag enabled, and it accepted the attestation as one of the application; with
    measurements given, a SEV-SNP guest ran the firmware of one of them; and an answer about
    an application of the chain was authorised by the controller of the flag, read on the first
    chain. *)
Theorem running_server_releases now c run later platform rand r (s s' : Server Fr P) resp req :
  runKMSServer world now c = Ok run -> handleSecretsRequest (server_env run later platform rand) r s = (s', Reply resp) ->
  json_secrets (Body (limited maxSecretsBodyBytes r)) = Ok req ->
  exists method claims rel, enabled c method /\ Name method = sreq_AttestationMethod req /\
    Verify method later (Some (attestation_request req)) = Ok claims /\ claims_AppID claims = sreq_AppID req /\
    authorised (server_env run later platform rand) req claims rel /\ answers (server_env run later platform rand) req (srv_node s) rel resp /\
    (sreq_AttestationMethod req = EigenXSNPMethodName -> flag_StringSlice c "eigenx-snp-measurement" <> [] ->
      exists report chain h, evidence_of (attestation_request req) report chain /\ h ∈ flag_StringSlice c "eigenx-snp-measurement" /\ pin_of h (GetMeasurement report)) /\
    (sreq_StackID req = ""%string -> exists l1 l1Eth controller, flag_String c "app-controller-address" <> ""%string /\
      sw_dial world (flag_String c "rpc-url") = Ok (l1, l1Eth) /\ appController (run_base run) = Some controller /\
      sw_NewAppControllerAdapter world (HexToAddress (flag_String c "app-controller-address")) l1 = Ok controller /\
      appControllerClient (run_base run) = Some l1).
Proof.
  intros Hw%run_wired Hr Hq. pose proof (wired_controller _ _ _ Hw) as Hctl. destruct Hw as [_ [Hm _]%manager_methods _ _].
  apply handleSecretsRequest_ok in Hr as (req' & claims & rel & _ & Hq' & _ & _ & _ & Hat & _ & Hau & Hans). rewrite Hq in Hq'. injection Hq' as <-.
  unfold attested, VerifyWithMethod in Hat. cbn [attestationManager server_env] in Hat. destruct (run_manager run !! _) as [method|] eqn:Hlook; [|done].
  apply (Hm _ method) in Hlook as [Hen Hname]. cbn [from_opt mbind res_bind] in Hat. destruct (Verify method _ _) as [claims'|] eqn:Hv; [|done].
  cbn [wrap] in Hat. case_bool_decide as Happ; [|done]. injection Hat as <-. exists method, claims', rel. split_and!; try done.
  - intros Hsnp Hne. eapply pinned_measurement; [done|congruence|done..].
  - intros Hstack. destruct (chain_authorised _ _ _ _ _ _ _ Hau Hstack) as [controller Hcc]. rewrite Hcc in Hctl.
    destruct Hctl as (l1 & l1Eth & ? & ? & ? & ?). by exists l1, l1Eth, controller.
Qed.

(** A measurement printed in hexadecimal, with or without the prefix, is the pin it was. *)
Lemma printed_pin b : Forall (fun x => 0 <= x < 256) b -> length b = MeasurementSize ->
  pin_of (string_of (hex_EncodeToString b)) b /\ pin_of (string_of (chars_of "0x" ++ hex_EncodeToString b)) b.
Proof.
  intros Hb Hl. pose proof (hex_firm b Hb) as Hf. split; (split; [|done]); unfold parse_measurement, TrimPrefix; rewrite TrimSpace_all_firm.
  - rewrite chars_of_string_of, hex_unprefixed, chars_of_string_of by done. by rewrite hex_decode_encode.
  - done.
  - rewrite chars_of_string_of. change (strip (chars_of "0x") (chars_of "0x" ++ hex_EncodeToString b)%list) with (Some (hex_EncodeToString b)). cbv beta iota. by rewrite chars_of_string_of, hex_decode_encode.
  - apply Forall_app. split; [by_compute|done].
Qed.
End ServerFacts.

(** ** Witness: a server that pins one measurement, and an application of the chain *)

#[local] Existing Instances toy97 toy_snp InitData.toy_init_data Attestation.toy_ecdsa Attestation.demo_jwt Encryption.toy_rsa Tpm.toy_attest
  Messages.toy_text Memory.memory_persistence Config.demo_lib SnpSecrets.snp_secrets_lib
  Transport.key_signers ContractCaller.demo_chain ContractCaller.number_addr TxSigner.demo_eth TxSigner.one_rpc Web3Client.demo_tls.

Definition demo_measurement : string := string_of (chars_of "0x" ++ hex_EncodeToString (repeat 5 48)).
Definition server_flags : cli_Context := mkContext
  (fun name => default ""%string (list_to_map (M := gmap string string) [("operator-address", "0x00000000000000000000000000000000000000a1");
     ("ecdsa-private-key", "0x01"); ("rpc-url", "http://l1"); ("base-rpc-url", "http://l2"); ("avs-address", "12"); ("persistence-type", "memory");
     ("commitment-registry-address", "5"); ("app-controller-address", "0x00000000000000000000000000000000000000c2")]%string !! name))
  (fun name => bool_decide (name = "enable-eigenx-snp-attestation"%string) || bool_decide (name = "enable-tpm-attestation"%string))
  (fun name => if bool_decide (name = "port"%string) then 8080 else 0) (fun name => if bool_decide (name = "chain-id"%string) then 31337 else 0) (fun _ => 0)
  (fun name => if bool_decide (name = "eigenx-snp-measurement"%string) then [demo_measurement] else if bool_decide (name = "app-allowlist"%string) then [" 0xAb "%string] else []).

Definition server_event : AppUpgradedEvent :=
  mkAppUpgraded (mkAppRelease [mkArtifact (repeat 170 32) "ghcr.io/app"] [] [1; 2] (mkContractPolicy [] [] [] [] "")) 3 40.
Definition server_controller : AppControllerInterface :=
  mkAppController (fun _ => Ok 1) (fun _ => Ok 7) (fun _ => Ok 40) (fun _ => Ok 1) (fun _ _ _ => Ok ([server_event], None)).

Definition server_world : ServerWorld (P := Memory.MemoryPersistence (@Fr toy97)) := mkServerWorld
  (fun url => Ok (if bool_decide (url = "http://l1"%string) then 1000 else 2000 : @Backend demo_chain, TxSigner.demo_client)) (fun _ _ => Err "connection refused")
  (fun _ => mkWeb3Client (fun _ _ => Err "connection refused") (Err "connection refused")) (fun _ => demo_tx_signer) (fun _ _ => Err "no credentials")
  (verifier demo_method) (validator demo_method) (fun _ _ => Ok server_controller) (fun _ => Ok Memory.NewMemoryPersistence) Memory.HealthCheck
  (fun _ _ => Ok tt) (Ok tt).
Definition server_run := runKMSServer server_world 1700000000 server_flags.

(** The listed application is served and no other. *)
Lemma server_as_configured_witness : exists run, server_run = Ok run /\ holds (enabled server_world server_flags) (run_manager run) /\
  not_allowed (run_node run) "0xAb" = false /\ not_allowed (run_node run) "0xCd" = true.
Proof.
  assert (Hok : is_ok server_run = true) by (vm_compute; reflexivity). destruct server_run as [run|e] eqn:Hr; [|discriminate Hok]. exists run. split; [reflexivity|].
  destruct (server_as_configured server_world 1700000000 server_flags run Hr) as (Hm & _ & _ & _ & _ & Hal & _). split; [exact Hm|]. split.
  - apply Hal. right. apply (bool_decide_unpack _). vm_compute. exact I.
  - apply not_false_is_true. intros [Hc|Hc]%Hal; [discriminate Hc|]. apply (bool_decide_pack _) in Hc. vm_compute in Hc. exact Hc.
Defined.

Definition serving (n : Node (@Fr toy97) (Memory.MemoryPersistence (@Fr toy97))) : Server (@Fr toy97) (Memory.MemoryPersistence (@Fr toy97)) :=
  let '(l, ks) := alloc (mkKeyShareVersion 100 (Some (toy_fr 3)) [] None true [1]) (keyStore n) in mkServer (set_keyStore (AddVersion l ks) n) ∅.

Lemma running_server_releases_witness : exists run s' resp method claims,
  server_run = Ok run /\ handleSecretsRequest (server_env run 1700000100 None []) (mkRequest "POST" [1]) (serving (run_node run)) = (s', Reply resp) /\
  enabled server_world server_flags method /\ Verify method 1700000100 (Some (attestation_request SnpSecrets.snp_secrets)) = Ok claims /\
  exists report, pin_of demo_measurement (GetMeasurement report).
Proof.
  assert (Hok : is_ok server_run = true) by (vm_compute; reflexivity). destruct server_run as [run|e] eqn:Hr; [|discriminate Hok].
  destruct (handleSecretsRequest (server_env run 1700000100 None []) (mkRequest "POST" [1]) (serving (run_node run))) as [s' [resp|c e]] eqn:Hs.
  2: { assert (Hb : match server_run with Ok run => match (handleSecretsRequest (server_env run 1700000100 None []) (mkRequest "POST" [1]) (serving (run_node run))).2 with
                                          | Reply _ => true | _ => false end | Err _ => false end = true) by (vm_compute; reflexivity). rewrite Hr, Hs in Hb. discriminate Hb. }
  destruct (running_server_releases server_world 1700000000 server_flags run 1700000100 None [] (mkRequest "POST" [1]) _ s' resp SnpSecrets.snp_secrets Hr Hs eq_refl)
    as (method & claims & rel & Hen & _ & Hv & _ & _ & _ & Hpin & _).
  exists run, s', resp, method, claims. split_and!; [reflexivity|exact Hs|exact Hen|exact Hv|].
  destruct (Hpin eq_refl) as (report & chain & h & _ & Hh & Hp); [vm_compute; discriminate|].
  exists report. apply list_elem_of_singleton in Hh. by subst h.
Defined.
