(* ===== verification/Bls.v ===== *)
(** * Keys, signatures and encodings of [pkg/bls]

    The rest of [pkg/bls]: private keys, BLS signatures in both groups and their
    aggregation ([operations.go]), random polynomials ([polynomial.go]) and the points that
    [types.go] carries in big integers.  Hashing to G2, the equality of pairings and
    [SetBigInt] join the curve library here, with what they document.  The theorems: a
    signature verifies under a key exactly when it is the key's signature, aggregates
    verify under the sum of the keys, points survive their encodings, and a secret is the
    constant term of its polynomial. *)

From S2P Require Import Prelude Bytes Primality Fr Lagrange Gnark Toy Types Crypto CryptoFacts.
From Stdlib Require Import Znumtheory Field.

(** What [pkg/bls] calls beyond [Gnark]. *)
Class BlsLib `{Gnark} := {
  hash_to_g2 : bytes -> option G2;
  g1_equal : G1 -> G1 -> bool;
  gt_equal : GT -> GT -> bool;
  fr_Modulus : Z;
  fr_SetBigInt : Z -> Fr
}.

(** Following a [nil] pointer. *)
Definition deref {A} (o : option A) : res A := from_opt "panic: nil pointer dereference" o.

Section Keys.
Context `{BlsLib}.

(** ** [types.go] *)

(** The structs hold a pointer each. *)
Record PrivateKey := mkPrivateKey { scalar : option Fr }.
Record PublicKeyG1 := mkPublicKeyG1 { pk1_point : option G1 }.
Record PublicKeyG2 := mkPublicKeyG2 { pk2_point : option G2 }.
Record SignatureG1 := mkSignatureG1 { sig1_point : option G1 }.
Record SignatureG2 := mkSignatureG2 { sig2_point : option G2 }.
Record bls_G1Point := mkBlsG1 { b1_point : option G1 }.
Record bls_G2Point := mkBlsG2 { b2_point : option G2 }.

Definition NewG1Point (p : option G1) : bls_G1Point := mkBlsG1 p.
Definition NewG2Point (p : option G2) : bls_G2Point := mkBlsG2 p.

Definition G1_Marshal (p : bls_G1Point) : bytes := match b1_point p with None => repeat 0 48 | Some P => g1_bytes P end.
Definition G2_Marshal (p : bls_G2Point) : bytes := match b2_point p with None => repeat 0 96 | Some P => g2_bytes P end.
(** After an error the point is whatever the library left. *)
Definition G1_Unmarshal (data : bytes) (p : bls_G1Point) : res bls_G1Point := P ← from_opt "invalid G1 bytes" (g1_set_bytes data); Ok (mkBlsG1 (Some P)).
Definition G2_Unmarshal (data : bytes) (p : bls_G2Point) : res bls_G2Point := P ← from_opt "invalid G2 bytes" (g2_set_bytes data); Ok (mkBlsG2 (Some P)).

Definition bls_G1_IsZero (p : bls_G1Point) : bool := match b1_point p with None => true | Some P => g1_is_infinity P end.
Definition bls_G2_IsZero (p : bls_G2Point) : bool := match b2_point p with None => true | Some P => g2_is_infinity P end.

(** Two points without a value are not equal. *)
Definition G1_Equal (p other : bls_G1Point) : bool := match b1_point p, b1_point other with Some P, Some Q => g1_equal P Q | _, _ => false end.
Definition G2_Equal (p other : bls_G2Point) : bool := match b2_point p, b2_point other with Some P, Some Q => g2_equal P Q | _, _ => false end.

Definition G1_ToAffine (p : bls_G1Point) : option G1 := b1_point p.
Definition G2_ToAffine (p : bls_G2Point) : option G2 := b2_point p.

Definition G1_ToBigInt (p : bls_G1Point) : Z * Z := if bls_G1_IsZero p then (0, 0) else (be_val (G1_Marshal p), 0).
Definition G2_ToBigInt (p : bls_G2Point) : Z * Z := (be_val (G2_Marshal p), 0).

(** [big.Int.Bytes]: the absolute value without leading zeros. *)
Definition big_Bytes (x : Z) : bytes := if x =? 0 then [] else be_bytes (Z.to_nat (Z.log2 (Z.abs x) / 8 + 1)) (Z.abs x).

(** The bytes of [x] in [n] bytes or more. *)
Definition pad_bytes (n : nat) (x : Z) : bytes :=
  let xBytes := big_Bytes x in
  if (length xBytes <? n)%nat then repeat 0 (n - length xBytes) ++ xBytes else xBytes.

Definition G1PointFromBigInt (x y : option Z) : res bls_G1Point :=
  x ← from_opt "x is nil or zero" x;
  if Z.sgn x =? 0 then Ok (NewG1Point (Some g1_infinity))
  else point ← from_opt "invalid G1 bytes" (g1_set_bytes (pad_bytes 48 x)); Ok (NewG1Point (Some point)).
Definition G2PointFromBigInt (x y : option Z) : res bls_G2Point :=
  x ← from_opt "x is nil or zero" x;
  if Z.sgn x =? 0 then Ok (NewG2Point (Some g2_infinity))
  else point ← from_opt "invalid G2 bytes" (g2_set_bytes (pad_bytes 96 x)); Ok (NewG2Point (Some point)).

(** ** [operations.go] *)

Definition bls_HashToG2 (msg : bytes) : res G2 := from_opt "failed to hash to G2" (hash_to_g2 msg).

(** [random] is what [SetRandom] draws. *)
Definition GeneratePrivateKey (random : res Fr) : res PrivateKey :=
  s ← wrap "failed to generate random scalar" random; Ok (mkPrivateKey (Some s)).
Definition GeneratePrivateKeyFromSeed (seed : bytes) : res PrivateKey :=
  _ ← fail_if (length seed <? 32)%nat "seed must be at least 32 bytes";
  Ok (mkPrivateKey (Some (fr_SetBigInt (be_val (take 32 seed) mod fr_Modulus)))).

(** The error of the multiplication is dropped and its [nil] result followed. *)
Definition GetPublicKeyG1 (sk : PrivateKey) : res PublicKeyG1 :=
  pk ← deref (match bls_ScalarMulG1 (Some g1_gen) (scalar sk) with Ok p => Some p | Err _ => None end); Ok (mkPublicKeyG1 (Some pk)).
Definition GetPublicKeyG2 (sk : PrivateKey) : res PublicKeyG2 :=
  pk ← deref (match bls_ScalarMulG2 (Some g2_gen) (scalar sk) with Ok p => Some p | Err _ => None end); Ok (mkPublicKeyG2 (Some pk)).

Definition SignG1 (sk : PrivateKey) (msg : bytes) : res SignatureG1 :=
  msgPoint ← wrap "failed to hash to G1" (bls_HashToG1 msg);
  sig ← wrap "failed to sign G1" (bls_ScalarMulG1 (Some msgPoint) (scalar sk)); Ok (mkSignatureG1 (Some sig)).
Definition SignG2 (sk : PrivateKey) (msg : bytes) : res SignatureG2 :=
  msgPoint ← wrap "failed to hash to G2" (bls_HashToG2 msg);
  sig ← wrap "failed to sign G2" (bls_ScalarMulG2 (Some msgPoint) (scalar sk)); Ok (mkSignatureG2 (Some sig)).

(** The error of [Pair] on one pair of points is dropped; there is none. *)
Definition pair_one (P : G1) (Q : G2) : GT := default gt_one (Pair [P] [Q]).

Definition VerifyG1 (pubkey : option PublicKeyG2) (msg : bytes) (sig : option SignatureG1) : res bool :=
  match pubkey, sig with
  | Some pubkey, Some sig =>
      msgPoint ← wrap "failed to hash to G1" (bls_HashToG1 msg);
      point ← deref (sig1_point sig);
      key ← deref (pk2_point pubkey);
      Ok (gt_equal (pair_one point g2_gen) (pair_one msgPoint key))
  | _, _ => Err "pubkey or sig is nil"
  end.
Definition VerifyG2 (pubkey : option PublicKeyG1) (msg : bytes) (sig : option SignatureG2) : res bool :=
  match pubkey, sig with
  | Some pubkey, Some sig =>
      msgPoint ← wrap "failed to hash to G2" (bls_HashToG2 msg);
      point ← deref (sig2_point sig);
      key ← deref (pk1_point pubkey);
      Ok (gt_equal (pair_one g1_gen point) (pair_one key msgPoint))
  | _, _ => Err "pubkey or sig is nil"
  end.

(** Entries without a point and points outside of the group are passed over. *)
Definition AggregateG1 (sigs : list (option SignatureG1)) : SignatureG1 := mkSignatureG1 (Some (for_acc
  (fun sig result => match sig with
                     | Some (mkSignatureG1 (Some point)) => match bls_AddG1 (Some result) (Some point) with Ok sum => sum | Err _ => result end
                     | _ => result
                     end) sigs g1_infinity)).
Definition AggregateG2 (sigs : list (option SignatureG2)) : SignatureG2 := mkSignatureG2 (Some (for_acc
  (fun sig result => match sig with
                     | Some (mkSignatureG2 (Some point)) => match bls_AddG2 (Some result) (Some point) with Ok sum => sum | Err _ => result end
                     | _ => result
                     end) sigs g2_infinity)).

Definition GetScalar (sk : PrivateKey) : option Fr := scalar sk.
(** [Set] copies the value behind its argument. *)
Definition SetScalar (s : option Fr) (sk : PrivateKey) : res PrivateKey := s ← deref s; Ok (mkPrivateKey (Some s)).
Definition NewPrivateKeyFromScalar (s : option Fr) : res PrivateKey := s ← deref s; Ok (mkPrivateKey (Some s)).

(** ** [polynomial.go] *)

(** The [i]-th draw of [SetRandom]; a slice of negative length and an element out of range panic. *)
Definition GeneratePolynomial (random : nat -> res Fr) (secret : option Fr) (degree : Z) : res (list Fr) :=
  _ ← fail_if (degree <? -1) "panic: runtime error: makeslice: len out of range";
  _ ← fail_if (degree =? -1) "panic: runtime error: index out of range [0] with length 0";
  secret ← deref secret;
  rest ← mapM (M := res) (fun i => wrap "failed to generate random coefficient" (random i)) (seq 1 (Z.to_nat degree));
  Ok (secret :: rest).
End Keys.

(** ** Laws *)

(** The documentation of gnark: the generator of G1 is in the group, hashing lands in it, the
    pairing determines its second argument too, compressed points have 48 and 96 bytes, and
    only infinity may be encoded as zero (the flag of the first byte excludes it). *)
Class BlsLaws `{BlsLib} : Prop := {
  bls_gnark :: GnarkLaws;
  bls_modulus : 1 < fr_Modulus;
  fr_SetBigInt_value z : 0 <= z < fr_Modulus -> fr_bigint (fr_SetBigInt z) = z;
  fr_SetBigInt_bigint x : fr_SetBigInt (fr_bigint x) = x;
  fr_bigint_zero : fr_bigint fr_zero = 0;
  g1_ok_gen : g1_in_subgroup g1_gen = true;
  g2_ok_hash m P : hash_to_g2 m = Some P -> g2_in_subgroup P = true;
  g1_equal_spec P Q : g1_equal P Q = true <-> P = Q;
  gt_equal_spec x y : gt_equal x y = true <-> x = y;
  pairing_nondegenerate_r Q Q' : g2_in_subgroup Q = true -> g2_in_subgroup Q' = true -> pairing g1_gen Q = pairing g1_gen Q' -> Q = Q';
  act2_one Q : g2_in_subgroup Q = true -> act2 Q fr_one = Q;
  g1_bytes_length P : length (g1_bytes P) = 48%nat;
  g1_bytes_range P : Forall (fun b => 0 <= b < 256) (g1_bytes P);
  g2_bytes_range P : Forall (fun b => 0 <= b < 256) (g2_bytes P);
  g1_bytes_zero P : be_val (g1_bytes P) = 0 -> P = g1_infinity;
  g2_bytes_zero P : be_val (g2_bytes P) = 0 -> P = g2_infinity
}.

(** ** Encodings *)

Definition is_bytes (b : bytes) : Prop := Forall (fun x => 0 <= x < 256) b.

Lemma be_bytes_add n z k : be_bytes n (z + k * 256 ^ Z.of_nat n) = be_bytes n z.
Proof.
  revert k. induction n as [|n IH]; intros k; [done|]. cbn [be_bytes]. rewrite Nat2Z.inj_succ, Z.pow_succ_r by lia.
  replace (z + k * (256 * 256 ^ Z.of_nat n)) with (z + (k * 256) * 256 ^ Z.of_nat n) by ring. rewrite IH, Z.div_add by lia.
  by rewrite Z.mod_add by lia.
Qed.

Lemma be_val_bound b : is_bytes b -> 0 <= be_val b < 256 ^ Z.of_nat (length b).
Proof.
  induction 1 as [|x b Hx _ IH]; [done|]. rewrite be_val_cons. cbn [length]. rewrite Nat2Z.inj_succ, Z.pow_succ_r by lia. nia.
Qed.

Lemma be_bytes_be_val b : is_bytes b -> be_bytes (length b) (be_val b) = b.
Proof.
  induction 1 as [|x b Hx Hb IH]; [done|]. pose proof (be_val_bound b Hb). cbn [length be_bytes]. rewrite be_val_cons, (Z.add_comm (x * _)), be_bytes_add, IH.
  by rewrite Z.div_add, Z.div_small, Z.add_0_l, Z.mod_small by lia.
Qed.

Lemma be_bytes_range n z : is_bytes (be_bytes n z).
Proof. induction n as [|n IH]; constructor; [by apply Z.mod_pos_bound|exact IH]. Qed.

Lemma big_Bytes_spec n x : 0 < x < 256 ^ Z.of_nat n -> (length (big_Bytes x) <= n)%nat /\ be_val (big_Bytes x) = x /\ is_bytes (big_Bytes x).
Proof.
  intros Hx. unfold big_Bytes. rewrite (proj2 (Z.eqb_neq x 0)) by lia. rewrite Z.abs_eq, length_be_bytes by lia.
  destruct (Z.log2_spec x) as [_ Hup]; [lia|]. pose proof (Z.log2_nonneg x) as Hn0. set (k := Z.log2 x / 8).
  assert (Hdm : Z.log2 x = 8 * k + Z.log2 x mod 8) by (apply Z.div_mod; lia). pose proof (Z.mod_pos_bound (Z.log2 x) 8) as Hm.
  assert (Hk : 0 <= k) by (apply Z.div_pos; lia). split_and!; [| |apply be_bytes_range].
  - assert (Hlog : Z.log2 x < 8 * Z.of_nat n) by (apply Z.log2_lt_pow2; [lia|]; rewrite Z.pow_mul_r by lia; exact (proj2 Hx)). lia.
  - rewrite be_val_be_bytes, Z.mod_small; [done|]. rewrite Z2Nat.id by lia. split; [lia|]. change 256 with (2 ^ 8). rewrite <- Z.pow_mul_r by lia.
    eapply Z.lt_le_trans; [exact Hup|]. apply Z.pow_le_mono_r; lia.
Qed.

(** Padding finds the bytes again, leading zeros included. *)
Lemma pad_bytes_be_val b : is_bytes b -> 0 < be_val b -> pad_bytes (length b) (be_val b) = b.
Proof.
  intros Hb Hpos. pose proof (be_val_bound b Hb) as Hlt. destruct (big_Bytes_spec (length b) (be_val b)) as (Hlen & Hval & Hby); [lia|]. unfold pad_bytes.
  assert (Hz : forall k l, be_val (repeat 0 k ++ l) = be_val l) by (intros k l; induction k as [|k IH]; [done|]; cbn [repeat app]; by rewrite be_val_cons, IH).
  set (l := if _ : bool then _ else _). assert (Hl : length l = length b /\ be_val l = be_val b /\ is_bytes l).
  { unfold l. destruct (Nat.ltb_spec (length (big_Bytes (be_val b))) (length b)).
    - rewrite length_app, repeat_length, Hz. split_and!; [lia|done|]. apply Forall_app. split; [|done]. apply Forall_forall. intros y Hy%list_elem_of_In%repeat_spec. lia.
    - split_and!; [lia|done..]. }
  destruct Hl as (Hll & Hlv & Hlb). by rewrite <- (be_bytes_be_val l Hlb), Hll, Hlv, be_bytes_be_val.
Qed.

Section BlsFacts.
Context `{BlsLaws}.

Add Field fr_field_bls : (@fr_field Fr _ _).

Lemma g1_encoded P : P <> g1_infinity -> pad_bytes 48 (be_val (g1_bytes P)) = g1_bytes P.
Proof.
  intros HP. pose proof (g1_bytes_range P) as Hb. pose proof (be_val_bound _ Hb). pose proof (g1_bytes_zero P).
  rewrite <- (g1_bytes_length P). apply pad_bytes_be_val; [done|]. destruct (Z.eq_dec (be_val (g1_bytes P)) 0); [tauto|lia].
Qed.
Lemma g2_encoded P : be_val (g2_bytes P) <> 0 -> pad_bytes 96 (be_val (g2_bytes P)) = g2_bytes P.
Proof.
  intros HP. pose proof (g2_bytes_range P) as Hb. pose proof (be_val_bound _ Hb).
  rewrite <- (g2_bytes_length P). apply pad_bytes_be_val; [done|lia].
Qed.

(** A point of the group survives its encodings: marshalling and its big integer give it back,
    whatever leading zeros the integer lost and whatever comes as the second integer; a point
    without a value becomes infinity. *)
Theorem point_encodings y :
  (forall P q, g1_in_subgroup P = true -> G1_Unmarshal (G1_Marshal (mkBlsG1 (Some P))) q = Ok (mkBlsG1 (Some P)) /\
     G1PointFromBigInt (Some (G1_ToBigInt (mkBlsG1 (Some P))).1) y = Ok (mkBlsG1 (Some P))) /\
  (forall P q, g2_in_subgroup P = true -> G2_Unmarshal (G2_Marshal (mkBlsG2 (Some P))) q = Ok (mkBlsG2 (Some P)) /\
     G2PointFromBigInt (Some (G2_ToBigInt (mkBlsG2 (Some P))).1) y = Ok (mkBlsG2 (Some P))) /\
  G1PointFromBigInt (Some (G1_ToBigInt (mkBlsG1 None)).1) y = Ok (mkBlsG1 (Some g1_infinity)) /\
  G2PointFromBigInt (Some (G2_ToBigInt (mkBlsG2 None)).1) y = Ok (mkBlsG2 (Some g2_infinity)).
Proof.
  split_and!.
  - intros P q HP. split; [unfold G1_Unmarshal, G1_Marshal; cbn; by rewrite g1_set_bytes_bytes|].
    unfold G1PointFromBigInt, G1_ToBigInt, bls_G1_IsZero. cbn [b1_point from_opt mbind res_bind].
    destruct (g1_is_infinity P) eqn:Hi; [by apply g1_is_infinity_spec in Hi as ->|]. cbn [fst G1_Marshal b1_point].
    assert (Hne : P <> g1_infinity) by (intros HP'; apply g1_is_infinity_spec in HP'; congruence).
    rewrite (proj2 (Z.eqb_neq _ _)) by (rewrite Z.sgn_null_iff; intros Hz; by apply Hne, g1_bytes_zero). by rewrite g1_encoded, g1_set_bytes_bytes.
  - intros P q HP. split; [unfold G2_Unmarshal, G2_Marshal; cbn; by rewrite g2_set_bytes_bytes|].
    unfold G2PointFromBigInt, G2_ToBigInt. cbn [from_opt mbind res_bind fst G2_Marshal b2_point]. destruct (Z.eqb_spec (Z.sgn (be_val (g2_bytes P))) 0) as [Hz|Hz].
    + apply Z.sgn_null_iff, g2_bytes_zero in Hz as ->. done.
    + rewrite Z.sgn_null_iff in Hz. by rewrite g2_encoded, g2_set_bytes_bytes.
  - done.
  - unfold G2PointFromBigInt, G2_ToBigInt. by vm_compute (be_val (G2_Marshal _)).
Qed.

(** ** Signatures *)

Lemma pair_one_is P Q : pair_one P Q = pairing P Q.
Proof. unfold pair_one. by rewrite Pair_spec. Qed.

(** The scalar moves between the arguments of the pairing. *)
Lemma pairing_moves P Q s : g1_in_subgroup P = true -> g2_in_subgroup Q = true -> pairing P (act2 Q s) = pairing (act1 P s) Q.
Proof.
  intros HP HQ. pose proof (pairing_bilinear P Q fr_one s HP HQ) as Hl. pose proof (pairing_bilinear P Q s fr_one HP HQ) as Hr.
  rewrite act1_one in Hl by done. rewrite act2_one in Hr by done. rewrite Hl, Hr. do 2 f_equal. destruct fr_field as [[_ _ _ _ Hc _ _ _ _] _ _ _]. apply Hc.
Qed.

Lemma sign_g1 s m Q : hash_to_g1 m = Some Q -> SignG1 (mkPrivateKey (Some s)) m = Ok (mkSignatureG1 (Some (act1 Q s))).
Proof.
  intros Hq. unfold SignG1, bls_HashToG1. rewrite Hq. cbn. by rewrite (g1_ok_hash _ _ Hq).
Qed.
Lemma sign_g2 s m Q : hash_to_g2 m = Some Q -> SignG2 (mkPrivateKey (Some s)) m = Ok (mkSignatureG2 (Some (act2 Q s))).
Proof.
  intros Hq. unfold SignG2, bls_HashToG2. rewrite Hq. cbn. by rewrite (g2_ok_hash _ _ Hq).
Qed.
Lemma public_g1 s : GetPublicKeyG1 (mkPrivateKey (Some s)) = Ok (mkPublicKeyG1 (Some (act1 g1_gen s))).
Proof. unfold GetPublicKeyG1. cbn. by rewrite g1_ok_gen. Qed.
Lemma public_g2 s : GetPublicKeyG2 (mkPrivateKey (Some s)) = Ok (mkPublicKeyG2 (Some (act2 g2_gen s))).
Proof. unfold GetPublicKeyG2. cbn. by rewrite g2_ok_gen. Qed.

Lemma verify_g1 s m Q P : hash_to_g1 m = Some Q -> g1_in_subgroup P = true ->
  exists ok, VerifyG1 (Some (mkPublicKeyG2 (Some (act2 g2_gen s)))) m (Some (mkSignatureG1 (Some P))) = Ok ok /\ (ok = true <-> P = act1 Q s).
Proof.
  intros Hq HP. pose proof (g1_ok_hash _ _ Hq) as HQ. pose proof (g1_ok_act Q s HQ). unfold VerifyG1, bls_HashToG1. rewrite Hq. cbn. rewrite !pair_one_is.
  eexists. split; [done|]. rewrite gt_equal_spec, pairing_moves by (done || apply g2_ok_gen). split; [|by intros ->]. by apply pairing_nondegenerate.
Qed.
Lemma verify_g2 s m Q P : hash_to_g2 m = Some Q -> g2_in_subgroup P = true ->
  exists ok, VerifyG2 (Some (mkPublicKeyG1 (Some (act1 g1_gen s)))) m (Some (mkSignatureG2 (Some P))) = Ok ok /\ (ok = true <-> P = act2 Q s).
Proof.
  intros Hq HP. pose proof (g2_ok_hash _ _ Hq) as HQ. pose proof (g2_ok_act Q s HQ). unfold VerifyG2, bls_HashToG2. rewrite Hq. cbn. rewrite !pair_one_is.
  eexists. split; [done|]. rewrite gt_equal_spec, <- pairing_moves by (done || apply g1_ok_gen). split; [|by intros ->]. by apply pairing_nondegenerate_r.
Qed.

(** C21: A signature of the group verifies under a private key's public key exactly when it is the
    signature that the key makes: signing and verifying agree, and no message has two
    signatures, in either group. *)
Theorem signatures_unique s m :
  (forall P, g1_in_subgroup P = true -> is_Some (hash_to_g1 m) -> exists pk ok, GetPublicKeyG2 (mkPrivateKey (Some s)) = Ok pk /\
     VerifyG1 (Some pk) m (Some (mkSignatureG1 (Some P))) = Ok ok /\
     (ok = true <-> SignG1 (mkPrivateKey (Some s)) m = Ok (mkSignatureG1 (Some P)))) /\
  (forall P, g2_in_subgroup P = true -> is_Some (hash_to_g2 m) -> exists pk ok, GetPublicKeyG1 (mkPrivateKey (Some s)) = Ok pk /\
     VerifyG2 (Some pk) m (Some (mkSignatureG2 (Some P))) = Ok ok /\
     (ok = true <-> SignG2 (mkPrivateKey (Some s)) m = Ok (mkSignatureG2 (Some P)))).
Proof.
  split; intros P HP [Q Hq].
  - destruct (verify_g1 s m Q P Hq HP) as (ok & Hv & Hok). exists (mkPublicKeyG2 (Some (act2 g2_gen s))), ok. split_and!; [apply public_g2|done|].
    rewrite Hok, (sign_g1 s m Q Hq). split; [by intros ->|by intros [= ->]].
  - destruct (verify_g2 s m Q P Hq HP) as (ok & Hv & Hok). exists (mkPublicKeyG1 (Some (act1 g1_gen s))), ok. split_and!; [apply public_g1|done|].
    rewrite Hok, (sign_g2 s m Q Hq). split; [by intros ->|by intros [= ->]].
Qed.

(** The entries that an aggregate counts. *)
Definition counted (sig : option SignatureG1) : option G1 :=
  match sig with Some (mkSignatureG1 (Some P)) => if g1_in_subgroup P then Some P else None | _ => None end.

(** The loop adds the points that it counts. *)
Definition add_sig (result : G1) (sig : option SignatureG1) : G1 := match counted sig with Some P => g1_add result P | None => result end.

Lemma aggregate_counted sigs acc : g1_in_subgroup acc = true ->
  foldl (fun result sig => match sig with
         | Some (mkSignatureG1 (Some point)) => match bls_AddG1 (Some result) (Some point) with Ok sum => sum | Err _ => result end
         | _ => result end) acc sigs = foldl add_sig acc sigs.
Proof.
  revert acc. induction sigs as [|sig sigs IH]; intros acc Hacc; [done|]. cbn [foldl]. unfold add_sig at 2, counted.
  destruct sig as [[[P|]]|]; try (by apply IH). unfold bls_AddG1. rewrite Hacc. cbn [negb]. destruct (g1_in_subgroup P) eqn:HP; cbn [negb]; [|by apply IH].
  apply IH. by apply g1_ok_add.
Qed.

Lemma add_sigs_sum Q sigs ss acc : g1_in_subgroup Q = true -> omap counted sigs = act1 Q <$> ss ->
  foldl add_sig (act1 Q acc) sigs = act1 Q (fr_add acc (fsum id ss)).
Proof.
  intros HQ. revert ss acc. induction sigs as [|sig sigs IH]; intros ss acc Hss; cbn [foldl].
  - destruct ss; [|done]. unfold fsum. cbn [foldr]. f_equal. ring.
  - unfold add_sig at 2. cbn [omap list_omap] in Hss. destruct (counted sig) as [P|]; [|by apply IH].
    destruct ss as [|s ss]; [done|]. injection Hss as -> Hss. rewrite <- act1_add by done. rewrite (IH ss) by done.
    f_equal. unfold fsum. cbn [foldr id]. ring.
Qed.

Lemma aggregate_sum Q sigs ss : g1_in_subgroup Q = true -> omap counted sigs = act1 Q <$> ss -> AggregateG1 sigs = mkSignatureG1 (Some (act1 Q (fsum id ss))).
Proof.
  intros HQ Hss. unfold AggregateG1, for_acc. do 2 f_equal. etransitivity; [apply aggregate_counted, g1_ok_infinity|].
  rewrite <- (act1_zero Q HQ), (add_sigs_sum Q sigs ss) by done. f_equal. ring.
Qed.

(** An aggregate of signatures of one message verifies under the key that is the sum of the keys,
    whatever entries without a point or outside of the group it passed over. *)
Theorem aggregate_verifies m Q ss sigs : hash_to_g1 m = Some Q -> Forall2 (fun s P => SignG1 (mkPrivateKey (Some s)) m = Ok (mkSignatureG1 (Some P))) ss (omap counted sigs) ->
  exists pk, GetPublicKeyG2 (mkPrivateKey (Some (fsum id ss))) = Ok pk /\ VerifyG1 (Some pk) m (Some (AggregateG1 sigs)) = Ok true.
Proof.
  intros Hq Hss. pose proof (g1_ok_hash _ _ Hq) as HQ. assert (Hpts : omap counted sigs = act1 Q <$> ss).
  { induction Hss as [|s P ss Ps Hs _ IH]; [done|]. cbn. rewrite IH. f_equal. rewrite (sign_g1 _ _ _ Hq) in Hs. by injection Hs. }
  exists (mkPublicKeyG2 (Some (act2 g2_gen (fsum id ss)))). split; [apply public_g2|]. rewrite (aggregate_sum Q sigs ss HQ Hpts).
  destruct (verify_g1 (fsum id ss) m Q (act1 Q (fsum id ss)) Hq) as (ok & -> & Hok); [by apply g1_ok_act|]. by rewrite (proj2 Hok eq_refl).
Qed.

(** A seed of 32 bytes or more makes the key of its first 32 bytes modulo the group order; when
    they are a multiple of it the key is zero, and under its public key infinity is a
    signature of every message. *)
Theorem seed_keys seed : (32 <= length seed)%nat -> exists s, GeneratePrivateKeyFromSeed seed = Ok (mkPrivateKey (Some s)) /\
  fr_bigint s = be_val (take 32 seed) mod fr_Modulus /\
  (be_val (take 32 seed) mod fr_Modulus = 0 -> exists pk, GetPublicKeyG2 (mkPrivateKey (Some s)) = Ok pk /\
     forall m, is_Some (hash_to_g1 m) -> VerifyG1 (Some pk) m (Some (mkSignatureG1 (Some g1_infinity))) = Ok true).
Proof.
  intros Hlen. unfold GeneratePrivateKeyFromSeed. rewrite (proj2 (Nat.ltb_ge _ _) Hlen). cbn [fail_if mbind res_bind]. pose proof bls_modulus as Hm.
  eexists. split; [done|]. split; [apply fr_SetBigInt_value, Z.mod_pos_bound; lia|]. intros ->.
  rewrite <- fr_bigint_zero, fr_SetBigInt_bigint. exists (mkPublicKeyG2 (Some (act2 g2_gen fr_zero))). split; [apply public_g2|]. intros m [Q Hq].
  destruct (verify_g1 fr_zero m Q g1_infinity Hq) as (ok & -> & Hok); [apply g1_ok_infinity|]. rewrite act1_zero in Hok by (by eapply g1_ok_hash). by rewrite (proj2 Hok eq_refl).
Qed.

(** ** Polynomials *)

Lemma draws_length {A B} (f : A -> res B) l l' : mapM (M := res) f l = Ok l' -> length l' = length l.
Proof.
  revert l'. induction l as [|a l IH]; cbn [mapM]; intros l' Hl; [by injection Hl as <-|].
  apply res_bind_ok in Hl as (b & _ & (bs & Hbs & [= <-])%res_bind_ok). cbn [length]. by rewrite (IH bs).
Qed.

(** Any players' shares are the polynomial's values at them. *)
Lemma shares_values poly players (shares : gmap Address Fr) a s : shares ⊆ GenerateShares poly players -> shares !! a = Some s ->
  a ∈ players /\ s = peval poly (AddressToFr a).
Proof.
  intros Hsub Ha. apply (lookup_weaken _ _ _ _ Ha) in Hsub. unfold GenerateShares in Hsub. rewrite lookup_foldl_insert in Hsub.
  case_decide; [|done]. injection Hsub as <-. by rewrite EvaluatePolynomial_peval.
Qed.

Lemma NoDup_fmap_sub {A B} (f : A -> B) (k l : list A) : NoDup (f <$> l) -> NoDup k -> k ⊆ l -> NoDup (f <$> k).
Proof.
  intros Hl Hk Hsub. apply NoDup_fmap_2_strong; [|done]. intros x y [i Hi]%Hsub%list_elem_of_lookup_1 [j Hj]%Hsub%list_elem_of_lookup_1 Hxy.
  assert (i = j) as ->; [|congruence]. eapply (NoDup_lookup _ _ _ (f x) Hl); rewrite list_lookup_fmap; [by rewrite Hi|by rewrite Hj, Hxy].
Qed.

(** Recovery from enough of a polynomial's values. *)
Lemma RecoverSecret_peval poly (shares : gmap Address Fr) : NoDup (xcoords (map_to_list shares).*1) -> (length poly <= size shares)%nat ->
  (forall a s, shares !! a = Some s -> s = peval poly (AddressToFr a)) ->
  RecoverSecret shares = if decide (peval poly fr_zero = fr_zero) then Err "secret cannot be zero, this should not happen" else Ok (peval poly fr_zero).
Proof.
  intros Hnd Hlen Hval. unfold RecoverSecret. set (ps := (map_to_list shares).*1) in *.
  assert (Hloop : forall l acc, foldl (fun secret '(addr, share) => fr_add secret (fr_mul (ComputeLagrangeCoefficient addr ps) share)) acc l
    = fr_add acc (fsum (fun p : Address * Fr => fr_mul (ComputeLagrangeCoefficient p.1 ps) p.2) l)).
  { intros l acc. rewrite <- foldl_add_fsum. revert acc. induction l as [|[a s] l IH]; [done|intros acc; apply IH]. }
  rewrite Hloop. assert (Hsum : fsum (fun p : Address * Fr => fr_mul (ComputeLagrangeCoefficient p.1 ps) p.2) (map_to_list shares)
    = lagrange_sum (fun i => peval poly (AddressToFr i)) ps).
  { unfold lagrange_sum, ps at 3. rewrite fsum_fmap. apply fsum_ext. intros [a s] Has%elem_of_map_to_list. cbn. by rewrite (Hval a s Has). }
  rewrite Hsum, lagrange_sum_eval; [|done|unfold ps; rewrite length_fmap; by rewrite length_map_to_list].
  by replace (fr_add fr_zero (peval poly fr_zero)) with (peval poly fr_zero) by ring.
Qed.

(** A secret shared by a random polynomial is recovered from the shares of more players than the
    degree, of any such set of them, if the players' coordinates are distinct; a shared zero is
    an error. *)
Theorem secret_recovered random secret degree poly players shares : GeneratePolynomial random (Some secret) degree = Ok poly ->
  NoDup (xcoords players) -> shares ⊆ GenerateShares poly players -> degree < Z.of_nat (size shares) ->
  Z.of_nat (length poly) = degree + 1 /\
  RecoverSecret shares = if decide (secret = fr_zero) then Err "secret cannot be zero, this should not happen" else Ok secret.
Proof.
  unfold GeneratePolynomial. rewrite !fail_if_bind. intros [Hd1%Z.ltb_ge [Hd2%Z.eqb_neq Hg]] Hnd Hsub Hsize.
  apply res_bind_ok in Hg as (? & [= <-] & (rest & Hrest%draws_length & [= <-])%res_bind_ok). rewrite length_seq in Hrest.
  assert (Hlen : Z.of_nat (length (secret :: rest)) = degree + 1) by (cbn [length]; lia). split; [done|].
  rewrite (RecoverSecret_peval (secret :: rest)); [by rewrite peval_0| |lia|].
  - apply (NoDup_fmap_sub _ _ players Hnd); [apply NoDup_fst_map_to_list|]. intros a ([? s] & -> & Has%elem_of_map_to_list)%list_elem_of_fmap.
    by eapply shares_values.
  - intros a s Has. by eapply shares_values.
Qed.
End BlsFacts.

(** ** Examples *)

(** The toy curve with the rest of the interface. *)
Definition toy_bls : @BlsLib toy97 := @Build_BlsLib toy97 (fun m => Some (zp 97 (be_val (toy_digest m) + 1)))
  (fun P Q => bool_decide (P = Q)) (fun x y => @bool_decide (x = y) (zp_eq_dec 97 x y)) 97 (fun z => zp 97 z).

Lemma toy_bls_laws : @BlsLaws toy97 toy_bls.
Proof.
  assert (Hbound : forall x : Zp 97, 0 <= zp_val x < 97) by (intros x; apply zp_val_bound; (apply prime_97 || lia)).
  assert (Hval : forall n (x : Zp 97), (32 <= n)%nat -> be_val (be_bytes n (zp_val x)) = zp_val x).
  { intros n x Hn. rewrite be_val_be_bytes, Z.mod_small; [done|]. pose proof (Hbound x). assert (256 ^ 32 <= 256 ^ Z.of_nat n) by (apply Z.pow_le_mono_r; lia). lia. }
  assert (Hof : forall x : Zp 97, zp 97 (zp_val x) = x) by (intros x; apply zp_of_val).
  assert (Hz : forall n (x : Zp 97), (32 <= n)%nat -> be_val (be_bytes n (zp_val x)) = 0 -> x = zp 97 0).
  { intros n x Hn. rewrite Hval by done. intros Hx. by rewrite <- (Hof x), Hx. }
  assert (Hone : forall x : Zp 97, fr_mul fr_one x = x) by (intros x; apply zp_eq; cbn [fr_mul fr_one zp_ops]; vm_compute (zp_val (zp 97 1)); rewrite Z.mul_1_l; apply zp_val_mod).
  assert (Hone_r : forall x : Zp 97, fr_mul x fr_one = x) by (intros x; apply zp_eq; cbn [fr_mul fr_one zp_ops]; vm_compute (zp_val (zp 97 1)); rewrite Z.mul_1_r; apply zp_val_mod).
  constructor.
  - apply toy97_laws.
  - done.
  - intros z Hzz. cbn. by apply Z.mod_small.
  - intros x. apply Hof.
  - done.
  - done.
  - done.
  - intros P Q. apply bool_decide_eq_true.
  - intros x y. cbn. apply bool_decide_eq_true.
  - intros Q Q' _ _ Heq. change (fr_mul fr_one Q = fr_mul fr_one Q' :> Zp 97) in Heq. by rewrite !Hone in Heq.
  - intros Q _. change (fr_mul Q fr_one = Q :> Zp 97). by rewrite Hone_r.
  - intros P. apply length_be_bytes.
  - intros P. apply be_bytes_range.
  - intros P. apply be_bytes_range.
  - intros P. apply Hz. lia.
  - intros P. apply Hz. lia.
Qed.

#[local] Existing Instances toy97 toy_bls toy_bls_laws.

Lemma aggregate_verifies_witness : let sign s := match SignG1 (mkPrivateKey (Some (toy_fr s))) [7; 8] with Ok sig => Some sig | Err _ => None end in
  exists pk, GetPublicKeyG2 (mkPrivateKey (Some (fsum id [toy_fr 5; toy_fr 95]))) = Ok pk /\
    VerifyG1 (Some pk) [7; 8] (Some (AggregateG1 [sign 5; None; Some (mkSignatureG1 None); sign 95])) = Ok true.
Proof.
  intros sign. eapply (aggregate_verifies [7; 8]); [reflexivity|]. repeat constructor; vm_compute; reflexivity.
Defined.

Lemma seed_keys_witness : exists s, GeneratePrivateKeyFromSeed (repeat 0 32) = Ok (mkPrivateKey (Some s)) /\
  VerifyG1 (Some (mkPublicKeyG2 (Some (act2 g2_gen s)))) [1] (Some (mkSignatureG1 (Some g1_infinity))) = Ok true.
Proof.
  destruct (seed_keys (repeat 0 32)) as (s & Hs & _ & Hzero); [cbn; lia|].
  destruct Hzero as (pk & Hpk & Hv); [by vm_compute|]. exists s. split; [exact Hs|]. specialize (Hv [1]).
  rewrite public_g2 in Hpk. injection Hpk as <-. apply Hv. eexists. reflexivity.
Defined.


(** A polynomial of degree 1 shared among three players; two shares recover its constant term. *)
Definition demo_shares : gmap Address (@Fr toy97) := delete 2 (GenerateShares [toy_fr 42; toy_fr 7] [1; 2; 3]).

Lemma secret_recovered_witness : GeneratePolynomial (fun i => Ok (toy_fr 7)) (Some (toy_fr 42)) 1 = Ok [toy_fr 42; toy_fr 7] /\
  RecoverSecret demo_shares = Ok (toy_fr 42).
Proof.
  assert (Hg : GeneratePolynomial (fun i => Ok (toy_fr 7)) (Some (toy_fr 42)) 1 = Ok [toy_fr 42; toy_fr 7]) by reflexivity. split; [exact Hg|].
  destruct (secret_recovered (fun i => Ok (toy_fr 7)) (toy_fr 42) 1 [toy_fr 42; toy_fr 7] [1; 2; 3] demo_shares Hg) as [_ ->].
  - apply (bool_decide_eq_true_1 _). vm_compute. reflexivity.
  - apply delete_subseteq.
  - vm_compute. reflexivity.
  - rewrite decide_False; [reflexivity|]. apply (bool_decide_eq_false_1 _). vm_compute. reflexivity.
Defined.

Lemma signatures_unique_witness : exists sig pk, SignG2 (mkPrivateKey (Some (toy_fr 5))) [7] = Ok sig /\
  GetPublicKeyG1 (mkPrivateKey (Some (toy_fr 5))) = Ok pk /\ VerifyG2 (Some pk) [7] (Some sig) = Ok true.
Proof.
  destruct (signatures_unique (toy_fr 5) [7]) as [_ Hsig].
  destruct (Hsig (act2 (zp 97 (be_val (toy_digest [7]) + 1) : @G2 toy97) (toy_fr 5)) eq_refl ltac:(by eexists)) as (pk & ok & Hpk & Hv & Hok).
  eexists (mkSignatureG2 (Some _)), pk. split; [|split; [exact Hpk|]].
  - apply sign_g2. reflexivity.
  - rewrite Hv. f_equal. apply Hok. apply sign_g2. reflexivity.
Defined.

(** The toy point 5 has 47 leading zero bytes, and its integer none of them. *)
Lemma point_encodings_witness : G1PointFromBigInt (Some 5) None = Ok (mkBlsG1 (Some (toy_g1 5))).
Proof. destruct (point_encodings None) as [Henc _]. exact (proj2 (Henc (toy_g1 5) (mkBlsG1 None) eq_refl)). Defined.
