(* ===== verification/FakeKms.v ===== *)
(** * The stand-in server: [cmd/fakeKMS/main.go]

    One process that holds the master secret as its only share, reads releases from a TOML
    file and answers as a cluster of one operator does.  Attestation, the curve and RSA are
    the code of the real server.  The theorems: what a released secret implies; its replay
    cache; every request that a real server with the same share and releases answers for an
    SNP guest is answered alike; and the client recovers from this one operator what
    [encrypt-env] sealed. *)

From stdpp Require Import gmap strings.
From S2P Require Import Prelude Bytes Types Fr Lagrange Gnark Toy Crypto CryptoFacts Recover Ibe KeyStore Persistence Session NodeCore GoText Attestation Encryption Handlers Secrets Client Config InitData Snp SnpSecrets EnvCache.
From Stdlib Require Import Ascii Field.

(** ** The apps file *)

Record appEntry := mkAppEntry {
  ae_AppID : string;
  ae_ImageDigest : string;
  ae_Registry : string;
  ae_EncryptedEnv : string;
  ae_PublicEnv : string;
  ae_ContainerArgs : list string;
  ae_Env : gmap string string;
  ae_EnvOverride : gmap string string;
  ae_RestartPolicy : string
}.

(** The entries are not changed after they were read, so the index holds them and not
    pointers to them. *)
Record appsConfig := mkAppsConfig { Apps : list appEntry; index : gmap string appEntry }.

(** The TOML decoder. *)
Class TomlLib := { toml_apps : bytes -> res (list appEntry) }.

Definition toRelease (now : Z) (a : appEntry) : Release :=
  mkRelease (ae_ImageDigest a) (ae_Registry a) (ae_EncryptedEnv a) (ae_PublicEnv a) (now / Second - unixToInternal)
    (mkContainerPolicy (ae_ContainerArgs a) [] (ae_Env a) (ae_EnvOverride a) (ae_RestartPolicy a)).

Definition load_app (a : appEntry) (index : gmap string appEntry) : res (gmap string appEntry) :=
  _ ← fail_if (bool_decide (ae_AppID a = ""%string)) "apps[%d]: app_id is required";
  _ ← fail_if (negb (HasPrefix (chars_of (ae_ImageDigest a)) (chars_of "sha256:")) || negb (String.length (ae_ImageDigest a) =? 7 + 64)%nat)
        "apps[%d] (%s): image_digest must look like sha256:<64hex>";
  Ok (<[ae_AppID a := a]> index).

(** [file] is what reading the path gives. *)
Definition loadAppsConfig `{TomlLib} (file : res bytes) : res appsConfig :=
  b ← file;
  apps ← wrap "parse TOML" (toml_apps b);
  index ← for_each load_app apps ∅;
  Ok (mkAppsConfig apps index).

Definition appsConfig_lookup (a : appsConfig) (appID : string) : option appEntry := index a !! appID.

(** ** The server *)

Section Fake.
Context `{Gnark} `{SymLib} `{EthAddr} `{RsaLib} `{SecretsLib} `{SnpLib} `{InitDataLib} `{EnvJson} `{TomlLib}.

Record server := mkFake {
  masterScalar : Fr;
  masterPubKey : G2Point;
  operatorAddress : Address;
  fk_attestationManager : AttestationManager;
  appsCfg : appsConfig;
  bornAt : Z
}.

(** The replay cache, a nil map at first. *)
Definition JTIs : Type := option (gmap string Z).

Definition unix (now : Z) : Z := now / Second - unixToInternal.

Definition checkJTI (now : Z) (jti : string) (exp : Z) (seenJTIs : JTIs) : JTIs * bool :=
  let seen := filter (fun '(_, e) => ~ (0 < e /\ e < unix now)) (default ∅ seenJTIs) in
  if bool_decide (is_Some (seen !! jti)) then (Some seen, false) else (Some (<[jti := exp]> seen), true).

Notation M := (HM JTIs).

Definition handleHealth : M bytes := mret (string_bytes "ok" ++ [10]).

Definition handlePubkey (s : server) (r : Request) : M PubkeyResponse :=
  _ ← hm_reject (negb (bool_decide (Method r = "GET"%string))) 405 "method not allowed";
  mret (mkPubkeyResponse (Hex (operatorAddress s)) [masterPubKey s] (Some (masterPubKey s)) (unix (bornAt s)) true).

Definition partialSign (s : server) (appID : string) : res G1Point :=
  qID ← wrap "hash to G1" (HashToG1 appID);
  ScalarMulG1 qID (Some (masterScalar s)).

Definition fake_AppSign (s : server) (r : Request) : M SignResponse :=
  _ ← hm_reject (negb (bool_decide (Method r = "POST"%string))) 405 "method not allowed";
  req ← hm_or 400 "failed to parse request" (json_app_sign (Body r));
  _ ← hm_reject (bool_decide (asr_AppID req = ""%string)) 400 "app_id is required";
  partial ← hm_or 500 "internal error" (partialSign s (asr_AppID req));
  mret (mkSignResponse (Hex (operatorAddress s)) partial).

(** The request of the attestation manager; no metadata. *)
Definition fake_attestation_request (req : SecretsRequestV1) : AttestationRequest :=
  mkAttestationRequest (sreq_AttestationMethod req) (sreq_Attestation req) (sreq_AppID req) (sreq_Challenge req) (sreq_PublicKey req) ∅
    (sreq_RSAPubKeyTmp req) (sreq_ExtraData req) (sreq_CCInitData req).

Definition check_request (req : SecretsRequestV1) : M unit :=
  _ ← hm_reject (bool_decide (sreq_AppID req = ""%string)) 400 "app_id is required";
  _ ← hm_reject ((length (sreq_RSAPubKeyTmp req) =? 0)%nat || (Z.of_nat (length (sreq_RSAPubKeyTmp req)) >? 8192)) 400 "rsa_pubkey_tmp invalid";
  _ ← hm_reject (Z.of_nat (length (sreq_ExtraData req)) >? MaxExtraDataSize) 400 "extra_data too large";
  _ ← hm_reject (Z.of_nat (length (sreq_CCInitData req)) >? MaxExtraDataSize) 400 "cc_init_data too large";
  _ ← hm_reject (Z.of_nat (length (sreq_Attestation req)) >? MaxAttestationSize) 400 "attestation too large";
  hm_reject (bool_decide (sreq_AttestationMethod req = ""%string)) 400 "attestation_method is required".

Definition replayed (now : Z) (claims : AttestationClaims) : M unit := fun seen =>
  if negb (bool_decide (claims_JTI claims = ""%string)) then
    match checkJTI now (claims_JTI claims) (claims_ExpiresAt claims) seen with
    | (seen, true) => (seen, Reply tt)
    | (seen, false) => (seen, HttpError 401 "attestation already used")
    end
  else (seen, Reply tt).

(** The claims against the release of the file. *)
Definition bind_release (claims : AttestationClaims) (release : Release) : M unit :=
  _ ← hm_reject (negb (bool_decide (claims_ImageDigest claims = rel_ImageDigest release))) 403 "image digest mismatch";
  hm_reject (negb (bool_decide (claims_Registry claims = ""%string)) && negb (bool_decide (rel_Registry release = ""%string))
             && negb (bool_decide (claims_Registry claims = rel_Registry release))) 403 "registry mismatch".

(** [now] is the clock and [rand] what RSA draws. *)
Definition handleSecrets (s : server) (now : Z) (rand : bytes) (r : Request) : M SecretsResponseV1 :=
  _ ← hm_reject (negb (bool_decide (Method r = "POST"%string))) 405 "method not allowed";
  req ← hm_or 400 "failed to parse request: %v" (json_secrets (Body r));
  _ ← check_request req;
  claims ← hm_or 401 "invalid attestation: %v" (VerifyWithMethod (fk_attestationManager s) (sreq_AttestationMethod req) now (fake_attestation_request req));
  _ ← hm_reject (negb (bool_decide (claims_AppID claims = sreq_AppID req))) 403 "app_id mismatch";
  _ ← replayed now claims;
  entry ← hm_or 404 "release not found" (from_opt "" (appsConfig_lookup (appsCfg s) (sreq_AppID req)));
  let release := toRelease now entry in
  _ ← bind_release claims release;
  partial ← hm_or 500 "internal error" (partialSign s (sreq_AppID req));
  partialBytes ← hm_or 500 "internal error" (json_marshal_G1 partial);
  encryptedPartial ← hm_or 500 "encryption failed" (Encrypt rand partialBytes (sreq_RSAPubKeyTmp req));
  mret (mkSecretsResponseV1 (rel_EncryptedEnv release) (rel_PublicEnv release) encryptedPartial (sreq_ExtraData req)).

(** ** The commands *)

(** [strings.Cut] at the first equals sign. *)
Definition Cut (kv : list ascii) : option (list ascii * list ascii) :=
  (fun i => (take i kv, drop (S i) kv)) <$> IndexByte "=" kv.

(** [random] is what [SetRandom] draws. *)
Definition gen_key (random : res Fr) : res string :=
  s ← wrap "rand" random; Ok (string_of (hex_EncodeToString (fr_bytes s))).

Definition add_kv (kv : string) (env : gmap string string) : res (gmap string string) :=
  match Cut (chars_of kv) with
  | Some ((_ :: _) as k, v) => Ok (<[string_of k := string_of v]> env)
  | _ => Err "invalid --kv %q: want KEY=VALUE"
  end.

(** [random] and [nonce] are what the encryption draws. *)
Definition encrypt_env (random : res Fr) (nonce : res bytes) (c : cli_Context) : res string :=
  env ← for_each add_kv (flag_StringSlice c "kv") ∅;
  _ ← fail_if (size env =? 0)%nat "at least one --kv KEY=VALUE is required";
  plaintext ← wrap "marshal env" (json_marshal_env env);
  mb ← wrap "decode master-key-hex" (hex_DecodeString (chars_of (TrimPrefix (flag_String c "master-key-hex") "0x")));
  let s := fr_of_bytes mb in
  _ ← fail_if (bool_decide (s = fr_zero)) "master key is zero";
  mpk ← wrap "derive master pubkey" (ScalarMulG2 G2Generator (Some s));
  ct ← wrap "EncryptForApp" (EncryptForApp random nonce (flag_String c "app-id") mpk plaintext);
  Ok (string_of (hex_EncodeToString ct)).

Definition snp_pin (h : string) : res bytes :=
  wrap "invalid --snp-measurement %q" (hex_DecodeString (chars_of (TrimPrefix (TrimSpace h) "0x"))).

(** The verifier and the validator of reports come from go-sev-guest. *)
Definition fake_snp_method (verify : spb_Attestation -> verify_Options AMDRootCerts -> res unit) (validate : spb_Attestation -> validate_Options -> res unit)
    (c : cli_Context) : res AttestationMethod :=
  let snpOptions := if flag_Bool c "snp-allow-amd-kds-fetch" then Some (mkVerifyOptions false (TrustedRoots verify_DefaultOptions)) else None in
  let method := newEigenXSNPMethod verify validate snpOptions in
  let msHex := flag_StringSlice c "snp-measurement" in
  if (0 <? length msHex)%nat then
    measurements ← mapM (M := res) snp_pin msHex;
    let '(method, r) := SetMeasurementAllowlist measurements method in
    _ ← wrap "set snp measurement allowlist" r;
    Ok (EigenXSNPMethod method)
  else Ok (EigenXSNPMethod method).

(** [run] until it listens. *)
Definition run (verify : spb_Attestation -> verify_Options AMDRootCerts -> res unit) (validate : spb_Attestation -> validate_Options -> res unit)
    (ReadFile : string -> res bytes) (now : Z) (c : cli_Context) : res server :=
  _ ← fail_if (bool_decide (flag_String c "master-key-hex" = ""%string)) "--master-key-hex is required (use `fakeKMS gen-key` to mint one)";
  _ ← fail_if (bool_decide (flag_String c "apps-config" = ""%string)) "--apps-config is required";
  masterBytes ← wrap "--master-key-hex" (hex_DecodeString (chars_of (TrimPrefix (flag_String c "master-key-hex") "0x")));
  _ ← fail_if (negb (length masterBytes =? 32)%nat) "--master-key-hex must be 32 bytes (64 hex chars); got %d";
  let masterScalar := fr_of_bytes masterBytes in
  _ ← fail_if (bool_decide (masterScalar = fr_zero)) "--master-key-hex must not be zero";
  masterPubKey ← wrap "compute master pubkey" (ScalarMulG2 G2Generator (Some masterScalar));
  appsCfg ← wrap "load apps config" (loadAppsConfig (ReadFile (flag_String c "apps-config")));
  attestationManager ← (if flag_Bool c "enable-eigenx-snp-attestation" then
      method ← fake_snp_method verify validate c;
      wrap "register eigenx-snp" (RegisterMethod (Some method) NewAttestationManager)
    else Ok NewAttestationManager);
  _ ← fail_if (length (ListMethods attestationManager) =? 0)%nat "at least one attestation method must be enabled";
  Ok (mkFake masterScalar masterPubKey (HexToAddress (flag_String c "operator-address")) attestationManager appsCfg now).
End Fake.

(** ** Facts *)

Section FakeFacts.
Context `{GnarkLaws} `{SymLaws} `{EthAddr} `{EcdsaLib} `{RsaLib} `{SecretsLib} `{SnpLib} `{InitDataLib} `{EnvJson} `{TomlLib}.

Add Field fr_field_fake : (@fr_field Fr _ _).

(** *** The apps file *)

Definition app_ok (a : appEntry) : Prop :=
  ae_AppID a <> ""%string /\ HasPrefix (chars_of (ae_ImageDigest a)) (chars_of "sha256:") = true /\ String.length (ae_ImageDigest a) = 71%nat.

Lemma load_apps_ok apps idx idx' : for_each load_app apps idx = Ok idx' <->
  Forall app_ok apps /\ idx' = foldl (fun m a => <[ae_AppID a := a]> m) idx apps.
Proof.
  revert idx. induction apps as [|a apps IH]; intros idx; cbn [for_each foldl].
  - split; [by intros [= <-]|by intros [_ ->]].
  - rewrite Forall_cons. unfold load_app at 1, app_ok at 1. rewrite res_bind_ok. setoid_rewrite fail_if_bind. setoid_rewrite fail_if_bind.
    setoid_rewrite bool_decide_eq_false. setoid_rewrite orb_false_iff. setoid_rewrite negb_false_iff. setoid_rewrite Nat.eqb_eq. split.
    + intros (m & (Hid & (Hp & Hl) & [= <-]) & [Hf ->]%IH). done.
    + intros (((Hid & Hp & Hl) & Hf) & ->). eexists. split; [split_and!; try done|]. by apply IH.
Qed.

(** *** The replay cache *)

Definition calls (cs : list (Z * string * Z)) (seen : JTIs) : JTIs := foldl (fun seen '(now, jti, exp) => (checkJTI now jti exp seen).1) seen cs.

Lemma checkJTI_keeps now jti exp seen j e : default ∅ seen !! j = Some e -> ~ (0 < e /\ e < unix now) -> default ∅ (checkJTI now jti exp seen).1 !! j = Some e.
Proof.
  intros Hj He. unfold checkJTI. set (m := filter _ (default ∅ seen)).
  assert (Hm : m !! j = Some e) by (by apply map_lookup_filter_Some). case_bool_decide as Hs; cbn [fst default from_option id]; [done|].
  rewrite lookup_insert_ne; [done|]. intros ->. apply Hs. by eexists.
Qed.

(** An identifier is accepted once while it lives: after it was accepted, and whatever
    identifiers come at times not after its expiry, it is accepted again only after a
    positive expiry has passed; without one, never. *)
Theorem fake_jti_once now jti exp seen cs now' exp' : (checkJTI now jti exp seen).2 = true -> Forall (fun '(t, _, _) => exp <= 0 \/ unix t <= exp) cs ->
  (checkJTI now' jti exp' (calls cs (checkJTI now jti exp seen).1)).2 = bool_decide (0 < exp /\ exp < unix now').
Proof.
  intros Hok Hcs. assert (Hin : default ∅ (checkJTI now jti exp seen).1 !! jti = Some exp).
  { revert Hok. unfold checkJTI. case_bool_decide; [done|]. intros _. cbn. by rewrite lookup_insert_eq. }
  generalize dependent (checkJTI now jti exp seen). intros [seen1 ok] _ Hin. cbn [fst] in *. clear ok seen. revert seen1 Hin.
  induction Hcs as [|[[t j] e] cs Ht Hcs IH]; intros seen1 Hin; cbn [calls foldl].
  - unfold checkJTI. set (m := filter _ _). case_bool_decide as Hm; case_bool_decide as He; try done; exfalso.
    + destruct Hm as [e [Hj Hn]%map_lookup_filter_Some]. rewrite Hin in Hj. injection Hj as <-. by apply Hn.
    + apply Hm. exists exp. by apply map_lookup_filter_Some.
  - apply IH. apply checkJTI_keeps; [done|]. lia.
Qed.

(** *** Secrets *)

Lemma hm_step {S A B} (m : HM S A) (f : A -> HM S B) (s s1 s' : S) a o : m s = (s1, Reply a) -> f a s1 = (s', o) -> (m ≫= f) s = (s', o).
Proof. intros Hm Hf. unfold mbind, hm_bind. by rewrite Hm. Qed.

Lemma negb_bool_decide (Q : Prop) `{!Decision Q} : Q -> negb (bool_decide Q) = false.
Proof. intros Hq. by rewrite bool_decide_true. Qed.

(** The checks of a request. *)
Definition within_limits (req : SecretsRequestV1) : Prop :=
  sreq_AppID req <> ""%string /\ sreq_RSAPubKeyTmp req <> [] /\ Z.of_nat (length (sreq_RSAPubKeyTmp req)) <= 8192 /\
  Z.of_nat (length (sreq_ExtraData req)) <= MaxExtraDataSize /\ Z.of_nat (length (sreq_CCInitData req)) <= MaxExtraDataSize /\
  Z.of_nat (length (sreq_Attestation req)) <= MaxAttestationSize /\ sreq_AttestationMethod req <> ""%string.

Lemma check_request_ok req (seen seen' : JTIs) u : check_request req seen = (seen', Reply u) <-> within_limits req /\ seen' = seen.
Proof.
  unfold check_request, within_limits. split.
  - intros Hr. reply Hr. apply hm_reject_reply in Hr as [Hm ->]. rewrite bool_decide_eq_false in *. apply orb_false_iff in Ha0 as [Hz Hk].
    rewrite Nat.eqb_neq in Hz. split_and!; try done; try lia. intros Hn. by rewrite Hn in Hz.
  - intros [(Ha & Hk & Hk' & He & Hc & Hat & Hm) ->]. destruct u.
    eapply (hm_step _ _ _ _ _ tt); [apply hm_reject_reply; split; [by apply bool_decide_eq_false|done]|].
    eapply (hm_step _ _ _ _ _ tt); [apply hm_reject_reply; split; [|done]; apply orb_false_iff; split; [apply Nat.eqb_neq; by destruct (sreq_RSAPubKeyTmp req)|lia]|].
    do 3 (eapply (hm_step _ _ _ _ _ tt); [apply hm_reject_reply; split; [lia|done]|]). apply hm_reject_reply. split; [by apply bool_decide_eq_false|done].
Qed.

(** The registries agree, or one of the two is not known. *)
Definition same_registry (claims : AttestationClaims) (release : Release) : Prop :=
  claims_Registry claims = ""%string \/ rel_Registry release = ""%string \/ claims_Registry claims = rel_Registry release.

Lemma bind_release_ok claims release (seen seen' : JTIs) u : bind_release claims release seen = (seen', Reply u) <->
  claims_ImageDigest claims = rel_ImageDigest release /\ same_registry claims release /\ seen' = seen.
Proof.
  unfold bind_release, same_registry. rewrite hm_bind_reply. setoid_rewrite hm_reject_reply.
  assert (Hr : forall a b : string, negb (bool_decide (a = "")) && negb (bool_decide (b = "")) && negb (bool_decide (a = b)) = false <-> a = ""%string \/ b = ""%string \/ a = b).
  { intros a b. repeat case_bool_decide; cbn; naive_solver. }
  setoid_rewrite Hr. split.
  - intros (s1 & [] & [Hd%negb_false_iff%bool_decide_eq_true ->] & Hs). by destruct Hs.
  - intros (Hd & Hs & ->). exists seen, tt. rewrite negb_false_iff, bool_decide_eq_true. done.
Qed.

(** The replay check of a request that is answered. *)
Definition fresh (now : Z) (claims : AttestationClaims) (seen seen' : JTIs) : Prop :=
  (claims_JTI claims = ""%string /\ seen' = seen) \/
  (claims_JTI claims <> ""%string /\ checkJTI now (claims_JTI claims) (claims_ExpiresAt claims) seen = (seen', true)).

Lemma replayed_ok now claims (seen seen' : JTIs) u : replayed now claims seen = (seen', Reply u) <-> fresh now claims seen seen'.
Proof.
  unfold replayed, fresh. case_bool_decide as Hj; cbn [negb].
  - split; [intros [= <- <-]; by left|]. destruct u. by intros [[_ ->]|[Hn _]].
  - destruct (checkJTI _ _ _ seen) as [m [|]]; split; try done; [intros [= <- <-]; by right|destruct u; by intros [[Hn _]|[_ [= ->]]]|by intros [[Hn _]|[_ ?]]].
Qed.

(** A request that is answered, and its answer: it is within the limits, a registered method
    verified its attestation for the application it names, with an identifier that was not
    seen, the file has a release of the attested image, and the answer is the master
    scalar's signature on the application, under the key of the request, with the release's
    environment. *)
Definition releases (s : server) now rand r (seen seen' : JTIs) (resp : SecretsResponseV1) : Prop :=
  exists req claims entry partial b c, Method r = "POST"%string /\ json_secrets (Body r) = Ok req /\ within_limits req /\
    VerifyWithMethod (fk_attestationManager s) (sreq_AttestationMethod req) now (fake_attestation_request req) = Ok claims /\
    claims_AppID claims = sreq_AppID req /\ fresh now claims seen seen' /\ index (appsCfg s) !! sreq_AppID req = Some entry /\
    claims_ImageDigest claims = ae_ImageDigest entry /\ same_registry claims (toRelease now entry) /\ partialSign s (sreq_AppID req) = Ok partial /\
    json_marshal_G1 partial = Ok b /\ Encrypt rand b (sreq_RSAPubKeyTmp req) = Ok c /\
    resp = mkSecretsResponseV1 (ae_EncryptedEnv entry) (ae_PublicEnv entry) c (sreq_ExtraData req).

Lemma handleSecrets_ok (s : server) now rand r (seen seen' : JTIs) resp :
  handleSecrets s now rand r seen = (seen', Reply resp) <-> releases s now rand r seen seen' resp.
Proof.
  unfold handleSecrets, releases. split.
  - intros Hr. apply hm_bind_reply in Hr as (s0 & u & [Hm ->]%hm_reject_reply & Hr). rewrite negb_false_iff, bool_decide_eq_true in Hm.
    apply hm_bind_reply in Hr as (s0 & req & [Hq ->]%hm_or_reply & Hr). apply hm_bind_reply in Hr as (s0 & u0 & [Hl ->]%check_request_ok & Hr).
    apply hm_bind_reply in Hr as (s0 & claims & [Hv ->]%hm_or_reply & Hr). apply hm_bind_reply in Hr as (s0 & u1 & [Happ ->]%hm_reject_reply & Hr).
    apply hm_bind_reply in Hr as (s1 & u2 & Hf%replayed_ok & Hr). apply hm_bind_reply in Hr as (s0 & entry & [He%from_opt_ok ->]%hm_or_reply & Hr).
    apply hm_bind_reply in Hr as (s0 & u3 & (Hd & Hreg & ->)%bind_release_ok & Hr). apply hm_bind_reply in Hr as (s0 & partial & [Hp ->]%hm_or_reply & Hr).
    apply hm_bind_reply in Hr as (s0 & b & [Hb ->]%hm_or_reply & Hr). apply hm_bind_reply in Hr as (s0 & c & [Hc ->]%hm_or_reply & Hr).
    apply hm_ret_reply in Hr as [<- ->]. rewrite negb_false_iff, bool_decide_eq_true in Happ. exists req, claims, entry, partial, b, c. done.
  - intros (req & claims & entry & partial & b & c & Hm & Hq & Hl & Hv & Happ & Hf & He & Hd & Hreg & Hp & Hb & Hc & ->).
    apply (negb_bool_decide _) in Hm, Happ. eapply (hm_step _ _ _ _ _ tt); [by apply hm_reject_reply|]. eapply hm_step; [by apply hm_or_reply|].
    eapply (hm_step _ _ _ _ _ tt); [by apply check_request_ok|]. eapply hm_step; [by apply hm_or_reply|]. eapply (hm_step _ _ _ _ _ tt); [by apply hm_reject_reply|].
    eapply (hm_step _ _ _ _ _ tt); [by apply replayed_ok|]. eapply hm_step; [by apply hm_or_reply; rewrite from_opt_ok|]. eapply (hm_step _ _ _ _ _ tt); [by apply bind_release_ok|].
    do 3 (eapply hm_step; [by apply hm_or_reply|]). by apply hm_ret_reply.
Qed.

(** *** Beside the real server *)

Lemma request_within_limits {P} env r (srv srv' : Server Fr P) resp req : handleSecretsRequest env r srv = (srv', Reply resp) ->
  json_secrets (Body (limited maxSecretsBodyBytes r)) = Ok req -> within_limits req.
Proof.
  unfold handleSecretsRequest. intros Hr Hq. apply hm_bind_reply in Hr as (s0 & u & [_ ->]%hm_reject_reply & Hr).
  apply hm_bind_reply in Hr as (s0 & req' & [Hq' ->]%hm_or_reply & Hr). rewrite Hq in Hq'. injection Hq' as <-.
  apply hm_bind_reply in Hr as (s0 & u0 & Hv & _). unfold validate_request in Hv. reply Hv. apply hm_reject_reply in Hv as [Hm _].
  rewrite bool_decide_eq_false in *. unfold within_limits. split_and!; try done; lia.
Qed.

Lemma partialSign_version (s : server) app v g : PrivateShare v = Some (masterScalar s) -> signAppIDWithVersion app (Some v) = Ok g -> partialSign s app = Ok g.
Proof.
  unfold signAppIDWithVersion, partialSign. cbn [mbind option_bind]. intros ->. cbn [from_opt mbind res_bind].
  destruct (HashToG1 app); [|done]. cbn [wrap mbind res_bind]. by destruct (ScalarMulG1 _ _).
Qed.

(** The entry stands for the release. *)
Definition stands_for (a : appEntry) (rel : Release) : Prop :=
  ae_ImageDigest a = rel_ImageDigest rel /\ ae_Registry a = rel_Registry rel /\ ae_EncryptedEnv a = rel_EncryptedEnv rel /\ ae_PublicEnv a = rel_PublicEnv rel.

(** C20: The stand-in answers what a real server answers: with the same methods and clock, the
    real server's share as its master scalar, an entry for every release of the chain and no
    identifier seen that the real one has not seen, a request on the chain path that the real
    server answers is answered by the stand-in, with the very same response.  It answers more:
    it has no allow list and does not look at the container policy. *)
Theorem fake_stands_in {P} env r (srv srv' : Server Fr P) resp (s : server) (seen : JTIs) :
  handleSecretsRequest env r srv = (srv', Reply resp) -> Z.of_nat (length (Body r)) <= maxSecretsBodyBytes ->
  (forall req, json_secrets (Body r) = Ok req -> sreq_StackID req = ""%string /\ sreq_AttestationMethod req <> "ecdsa"%string /\ sreq_AttestationMethod req <> "tpm"%string) ->
  fk_attestationManager s = attestationManager env ->
  (forall app rel, GetLatestReleaseAsRelease env app = Ok rel -> exists a, index (appsCfg s) !! app = Some a /\ stands_for a rel) ->
  (forall t v, version_for (srv_node srv) t = Some v -> PrivateShare v = Some (masterScalar s)) ->
  (forall j, jtiCache srv !! j = None -> default ∅ seen !! j = None) ->
  exists seen', handleSecrets s (se_now env) (se_rand env) r seen = (seen', Reply resp).
Proof.
  intros Hr Hb Hpath Hman Hrel Hshare Hseen. destruct (handleSecretsRequest_ok _ _ _ _ _ Hr) as (req & claims & rel & Hm & Hq & _ & _ & _ & Hat & Hc & Hau & Hans).
  pose proof (request_within_limits _ _ _ _ _ _ Hr Hq) as Hlim.
  assert (Hbody : Body (limited maxSecretsBodyBytes r) = Body r) by (cbn [limited Body]; apply take_ge; lia). rewrite Hbody in Hq.
  destruct (Hpath req Hq) as (Hst & Hne & Hnt). destruct Hau as [? ? ? ? Hs|? ? ? He|rel _ _ Hrl Hd Hreg _ _]; [done|done|].
  destruct (Hrel _ _ Hrl) as (a & Ha & Hda & Hra & Hea & Hpa). destruct Hans as (v & g & b & Hv & _ & Hg & Hmar & Henc & Hx & Hee & Hpe).
  unfold attested in Hat. destruct (VerifyWithMethod _ _ _ _) as [cl|] eqn:Hver; [|done]. case_bool_decide as Happ; [|done]. injection Hat as ->.
  exists (if bool_decide (claims_JTI claims = ""%string) then seen else (checkJTI (se_now env) (claims_JTI claims) (claims_ExpiresAt claims) seen).1).
  apply handleSecrets_ok. exists req, claims, a, g, b, (sresp_EncryptedPartialSig resp). split_and!; try done.
  - rewrite Hman, <- Hver. do 2 f_equal. unfold fake_attestation_request, attestation_request. by rewrite (bool_decide_false (_ = "tpm"%string)).
  - unfold fresh. case_bool_decide as Hj; [by left|right]. split; [done|]. destruct Hc as [[Hj' _]|(_ & Hnew & _)]; [done|]. apply Hseen in Hnew.
    unfold checkJTI. rewrite bool_decide_false; [done|]. intros [e [He _]%map_lookup_filter_Some]. congruence.
  - congruence.
  - unfold same_registry. cbn [toRelease rel_Registry]. rewrite Hra.
    destruct (decide (claims_Registry claims = ""%string)) as [|Hn1]; [by left|]. destruct (decide (rel_Registry rel = ""%string)) as [|Hn2]; [by right; left|]. right; right. by apply Hreg.
  - eapply partialSign_version; [by eapply Hshare|done].
  - cbn in Hee, Hpe. destruct resp. cbn in *. congruence.
Qed.

(** *** With the client *)

(** What a handler answers to one request, on its own. *)
Definition asked {A} (m : HM JTIs A) : res A := match (m None).2 with Reply a => Ok a | HttpError _ body => Err body end.

Lemma fake_run_ok verify validate ReadFile now c (s : server) : run verify validate ReadFile now c = Ok s -> exists mb,
  hex_DecodeString (chars_of (TrimPrefix (flag_String c "master-key-hex") "0x")) = Ok mb /\ length mb = 32%nat /\
  masterScalar s = fr_of_bytes mb /\ masterScalar s <> fr_zero /\ masterPubKey s = com (masterScalar s) /\
  loadAppsConfig (ReadFile (flag_String c "apps-config")) = Ok (appsCfg s) /\ operatorAddress s = HexToAddress (flag_String c "operator-address") /\ bornAt s = now.
Proof.
  unfold run. rewrite !fail_if_bind. intros (_ & _ & Hr). apply res_bind_ok in Hr as (mb & Hmb%wrap_ok & Hr). rewrite !fail_if_bind in Hr.
  destruct Hr as (Hlen & Hz & Hr). rewrite ScalarMulG2_generator in Hr. cbn [wrap mbind res_bind] in Hr.
  apply res_bind_ok in Hr as (cfg & Hcfg%wrap_ok & Hr). apply res_bind_ok in Hr as (mgr & _ & Hr). rewrite fail_if_bind in Hr. destruct Hr as [_ [= <-]].
  rewrite negb_false_iff, Nat.eqb_eq in Hlen. rewrite bool_decide_eq_false in Hz. by exists mb.
Qed.

Lemma partialSign_is (s : server) id Q : hash_to_g1 (string_bytes id) = Some Q -> partialSign s id = Ok (psig Q (masterScalar s)).
Proof.
  intros Hid. assert (HQ : g1_in_subgroup Q = true) by by eapply g1_ok_hash. unfold partialSign, HashToG1, bls_HashToG1. rewrite Hid.
  cbn [from_opt mbind res_bind wrap]. rewrite sig_1, ScalarMulG1_sig by done. do 2 f_equal. ring.
Qed.

(** The votes of one operator. *)
Lemma fake_master_key (s : server) order op : masterPubKey s = com (masterScalar s) -> (forall v, order v ≡ₚ (map_to_list v).*1) ->
  GetMasterPublicKey (fun _ => asked (handlePubkey s (mkRequest "GET" []))) order [op] [op] = Ok (masterPubKey s).
Proof.
  intros Hmpk Horder. assert (Hvalid : valid_mpk (Some (masterPubKey s)) = Some (masterPubKey s)).
  { unfold valid_mpk. cbn [mbind option_bind]. rewrite Hmpk, (decode_opens _ (masterScalar s)) by (by apply opens_com). cbn [com g2_compressed]. by rewrite g2_bytes_length. }
  destruct (master_key_agreement (fun _ => asked (handlePubkey s (mkRequest "GET" []))) order [op] [op] (masterPubKey s)) as [_ Hagree]; [done|done|..];
    change (omap valid_mpk _) with (omap valid_mpk [Some (masterPubKey s)]) in *; cbn [omap list_omap] in *; rewrite Hvalid in *.
  - done.
  - by rewrite filter_cons_False, filter_nil by naive_solver.
  - apply Hagree. by rewrite filter_cons_True.
Qed.

(** Its signature, as the client collects it. *)
Lemma fake_signature (s : server) id Q sign_body t op : hash_to_g1 (string_bytes id) = Some Q -> Q <> g1_infinity -> id <> ""%string ->
  masterScalar s <> fr_zero -> OperatorAddress op = operatorAddress s -> json_app_sign (sign_body id t) = Ok (mkAppSignRequest id t) ->
  sign_answer (fun _ => asked (fake_AppSign s (mkRequest "POST" (sign_body id t)))) op = Some (OperatorAddress op, psig Q (masterScalar s)).
Proof.
  intros Hid HQne Hne Hs Hop Hj. assert (HQ : g1_in_subgroup Q = true) by by eapply g1_ok_hash.
  assert (Ha : asked (fake_AppSign s (mkRequest "POST" (sign_body id t))) = Ok (mkSignResponse (Hex (operatorAddress s)) (psig Q (masterScalar s)))).
  { unfold asked, fake_AppSign. cbn [Method Body]. rewrite Hj. unfold mbind, hm_bind. cbn. rewrite (bool_decide_false (id = _)) by done. cbn. by rewrite (partialSign_is s id Q Hid). }
  unfold sign_answer. rewrite Ha. cbn [sgr_PartialSignature sgr_OperatorAddress]. rewrite G1_IsZero_sig, bool_decide_false by done.
  unfold EqualFold. by rewrite Hop, bool_decide_true.
Qed.

(** The client and the stand-in: a client whose only operator is a running stand-in takes its
    master key, and what [encrypt-env] sealed under the same master key for an application
    the client opens with the operator's signature. *)
Theorem fake_seals_and_opens verify validate ReadFile now c (s : server) cc r nonce sealed Q order sign_body op :
  run verify validate ReadFile now c = Ok s -> encrypt_env (Ok r) (Ok nonce) cc = Ok sealed ->
  flag_String cc "master-key-hex" = flag_String c "master-key-hex" -> let id := flag_String cc "app-id" in
  hash_to_g1 (string_bytes id) = Some Q -> Q <> g1_infinity -> length nonce = nonceSize -> OperatorAddress op = operatorAddress s ->
  (forall v, order v ≡ₚ (map_to_list v).*1) -> (forall app t, json_app_sign (sign_body app t) = Ok (mkAppSignRequest app t)) ->
  GetMasterPublicKey (fun _ => asked (handlePubkey s (mkRequest "GET" []))) order [op] [op] = Ok (masterPubKey s) /\
  exists env plaintext ct, for_each add_kv (flag_StringSlice cc "kv") ∅ = Ok env /\ json_marshal_env env = Ok plaintext /\
    EncryptForApp (Ok r) (Ok nonce) id (masterPubKey s) plaintext = Ok ct /\ sealed = string_of (hex_EncodeToString ct) /\
    client_Decrypt (fun app t _ => asked (fake_AppSign s (mkRequest "POST" (sign_body app t)))) id ct [op] [op] 0 = Ok plaintext.
Proof.
  intros Hrun Henc Hkey id Hid HQne Hn Hop Horder Hj. destruct (fake_run_ok _ _ _ _ _ _ Hrun) as (mb & Hmb & _ & Hs & Hs0 & Hmpk & _).
  split; [by apply fake_master_key|]. unfold encrypt_env in Henc. rewrite Hkey, Hmb in Henc.
  apply res_bind_ok in Henc as (env & Henv & Henc). rewrite fail_if_bind in Henc. destruct Henc as [_ Henc].
  apply res_bind_ok in Henc as (plaintext & Hp%wrap_ok & Henc). cbn [wrap mbind res_bind] in Henc. rewrite fail_if_bind, <- Hs, ScalarMulG2_generator in Henc.
  destruct Henc as [_ Henc]. cbn [wrap mbind res_bind] in Henc. apply res_bind_ok in Henc as (ct & Hct%wrap_ok & Hsealed). injection Hsealed as <-. fold id in Hct. exists env, plaintext, ct. rewrite Hmpk. split_and!; try done.
  assert (Hopen : opens (com (masterScalar s)) (peval [masterScalar s] fr_zero)) by (apply opens_com; cbn [peval]; ring).
  destruct (encrypted_nonempty _ _ _ _ _ _ _ _ Hid Hopen Hct) as [Hidne Hlct].
  set (sigs := {[OperatorAddress op := psig Q (masterScalar s)]} : gmap Address G1Point).
  destruct (decrypts_collected id Q [masterScalar s] 1 _ r nonce plaintext ct sigs [OperatorAddress op] Hid HQne Hopen Hn Hct) as (_ & m & Hdec & Hm).
  { apply NoDup_singleton. }
  { intros a ->%list_elem_of_singleton. unfold sigs. rewrite lookup_singleton_eq. do 2 f_equal. cbn [peval]. ring. }
  { done. }
  { done. }
  { unfold sigs. by rewrite map_size_singleton. }
  assert (m = plaintext) as ->.
  { destruct Hm as [|Hw]; [done|]. exfalso. revert Hw. apply honest_no_wrong_key.
    - by eapply g1_ok_hash.
    - rewrite act1_eq_infinity by (done || by eapply g1_ok_hash). cbn [peval]. intros Hz. apply Hs0. rewrite <- Hz. ring.
    - cbn. lia.
    - intros a x [<- <-]%lookup_singleton_Some. do 2 f_equal. cbn [peval]. ring.
    - unfold sigs. rewrite map_to_list_singleton. apply NoDup_singleton. }
  assert (Hcol : collectPartialSignaturesForDecrypt (fun _ => asked (fake_AppSign s (mkRequest "POST" (sign_body id 0)))) [op] 1 = Ok sigs).
  { unfold collectPartialSignaturesForDecrypt. cbn [omap list_omap]. rewrite (fake_signature s id Q sign_body 0 op) by done.
    change (collect [(OperatorAddress op, psig Q (masterScalar s))]) with sigs. rewrite fail_if_bind. split; [|done]. unfold sigs. by rewrite map_size_singleton. }
  unfold client_Decrypt, CollectPartialSignatures. rewrite !fail_if_bind, bool_decide_eq_false, !Nat.eqb_neq. split_and!; [done..|]. cbv zeta.
  change (if 0 =? 0 then _ else _) with 1. apply res_bind_ok. exists sigs. rewrite wrap_ok, !fail_if_bind, bool_decide_eq_false, Nat.eqb_neq.
  split; [done|]. by apply wrap_ok.
Qed.
End FakeFacts.

(** ** Witnesses: the demonstration evidence; a stand-in with the master scalar 5 *)

#[local] Existing Instances toy97 toy97_laws toy_sym toy_sym_laws toy_ecdsa toy_rsa client_addr toy_init_data.
#[local] Instance fake_secrets_lib : SecretsLib := {
  IsHexAddress _ := true;
  json_secrets _ := Ok snp_secrets;
  json_app_sign b := match b with [Zpos p] => '(app, t) ← from_opt "EOF" (decode p); Ok (mkAppSignRequest app t) | _ => Err "EOF" end;
  json_marshal_G1 g := Ok (g1_compressed g) }.
Definition fake_entry : appEntry := mkAppEntry "0xAb" ("sha256:" +:+ string_of hex_a) "ghcr.io/app" "env" "public" [] ∅ ∅ "".
#[local] Instance fake_toml : TomlLib := { toml_apps _ := Ok [fake_entry] }.

(** Lines, instead of JSON. *)
#[local] Instance fake_env_json : EnvJson := {
  json_marshal_env env := Ok (flat_map (fun '(k, v) => string_bytes k ++ [61] ++ string_bytes v ++ [10]) (map_to_list env));
  json_env _ := Err "unused" }.
Definition fake_flags : cli_Context := mkContext
  (fun name => if bool_decide (name = "master-key-hex") then "0x0000000000000000000000000000000000000000000000000000000000000005"
               else if bool_decide (name = "app-id") then "app-1" else "apps.toml")
  (fun name => bool_decide (name = "enable-eigenx-snp-attestation")) (fun _ => 0) (fun _ => 0) (fun _ => 0)
  (fun name => if bool_decide (name = "kv") then ["A=1"; "B=x=y"] else [])%string.
Definition fake_run : res server := run (fun _ _ => Ok tt) (fun _ _ => Ok tt) (fun _ => Ok []) 7 fake_flags.
Definition fake_sign_body (app : string) (t : Z) : bytes := [Zpos (encode (app, t))].

Definition at_second (t : Z) : Z := (unixToInternal + t) * Second.
Lemma unix_at t : unix (at_second t) = t.
Proof. unfold unix, at_second. rewrite Z.div_mul by done. lia. Qed.

(** An identifier that expires at 6, another call at 5, again at 6 and at 7. *)
Lemma fake_jti_once_witness : let seen := calls [(at_second 5, "b"%string, 7)] (checkJTI (at_second 0) "a" 6 None).1 in
  (checkJTI (at_second 6) "a" 9 seen).2 = false /\ (checkJTI (at_second 7) "a" 9 seen).2 = true.
Proof.
  assert (Hcs : Forall (fun '(t, _, _) => 6 <= 0 \/ unix t <= 6) [(at_second 5, "b"%string, 7)]) by (constructor; [right; rewrite unix_at; lia|constructor]).
  cbv zeta. rewrite !(fake_jti_once (at_second 0) "a" 6 None [(at_second 5, "b"%string, 7)]) by (done || exact Hcs). rewrite !unix_at. split; reflexivity.
Defined.

Definition beside : server := mkFake (toy_fr 3) (com (toy_fr 3)) 1 {["eigenx-snp"%string := EigenXSNPMethod demo_method]} (mkAppsConfig [fake_entry] {["0xAb"%string := fake_entry]}) 0.
(** The chain with a release of the one application. *)
Definition beside_env : SecretsEnv := mkSecretsEnv 0 {["eigenx-snp"%string := EigenXSNPMethod demo_method]} (fun _ => Err "execution reverted")
  (fun app => if bool_decide (app = "0xAb"%string) then Ok (mkRelease ("sha256:" +:+ string_of hex_a) "ghcr.io/app" "env" "public" 0 (mkContainerPolicy [] [] ∅ ∅ "")) else Err "no release")
  None [].

Lemma fake_stands_in_witness : exists resp seen', (handleSecretsRequest beside_env (mkRequest "POST" [1]) snp_server).2 = Reply resp /\
  handleSecrets beside 0 [] (mkRequest "POST" [1]) None = (seen', Reply resp).
Proof.
  destruct (handleSecretsRequest beside_env (mkRequest "POST" [1]) snp_server) as [srv' [resp|c e]] eqn:Hr; [|vm_compute in Hr; discriminate Hr].
  destruct (fake_stands_in beside_env (mkRequest "POST" [1]) snp_server srv' resp beside None) as [seen' Hf]; try exact Hr.
  - vm_compute. discriminate.
  - intros req Hq. cbn [json_secrets fake_secrets_lib Body] in Hq. assert (req = snp_secrets) as -> by congruence. split; [reflexivity|split; intros Hm; discriminate Hm].
  - reflexivity.
  - intros app rel. cbn [GetLatestReleaseAsRelease beside_env]. case_bool_decide as Ha; [|done]. intros [= <-]. exists fake_entry. rewrite Ha. split; [apply lookup_singleton_eq|repeat split].
  - intros t v. unfold version_for. destruct (t >? 0).
    + intros Hv. pose proof (key_version_at_time (keyStore (srv_node snp_server)) t) as Hk. rewrite Hv in Hk. destruct Hk as [Hin _].
      apply list_elem_of_singleton in Hin. rewrite Hin. reflexivity.
    + intros Hv. injection Hv as <-. reflexivity.
  - intros j _. apply lookup_empty.
  - exists resp, seen'. split; [reflexivity|exact Hf].
Defined.

Lemma fake_seals_and_opens_witness : exists s ct, fake_run = Ok s /\
  client_Decrypt (fun app t _ => asked (fake_AppSign s (mkRequest "POST" (fake_sign_body app t)))) "app-1" ct [client_peer 0] [client_peer 0] 0 =
    json_marshal_env (<["B" := "x=y"]> {["A" := "1"]})%string.
Proof.
  assert (Hm : match fake_run with Ok s => Some (masterPubKey s, operatorAddress s) | Err _ => None end = Some (com (toy_fr 5), 0)) by (vm_compute; reflexivity).
  assert (He : is_ok (encrypt_env (Ok (toy_fr 11)) (Ok toy_nonce) fake_flags) = true) by (vm_compute; reflexivity).
  destruct fake_run as [s|] eqn:Hrun; [|discriminate Hm]. injection Hm as Hmpk Hop.
  destruct (encrypt_env (Ok (toy_fr 11)) (Ok toy_nonce) fake_flags) as [sealed|] eqn:Henc; [|discriminate He].
  destruct (fake_seals_and_opens _ _ _ _ _ s fake_flags _ _ _ toy_id map_order fake_sign_body (client_peer 0) Hrun Henc) as [_ (env & pt & ct & Henv & Hpt & Hct & _ & Hdec)].
  - reflexivity.
  - reflexivity.
  - by_compute.
  - reflexivity.
  - by rewrite Hop.
  - done.
  - intros app t. unfold fake_sign_body. cbn [json_app_sign fake_secrets_lib]. by rewrite decode_encode.
  - vm_compute in Henv. injection Henv as <-. vm_compute in Hpt. injection Hpt as <-. rewrite Hmpk in Hct. vm_compute in Hct. injection Hct as <-.
    eexists s, _. split; [reflexivity|]. etransitivity; [exact Hdec|vm_compute; reflexivity].
Defined.
