(* ===== verification/KeyGen.v ===== *)
(** * Signing keys: [internal/keyGenerator]

    The interface of key generators and its two implementations, the store of local keys and
    AWS KMS, with the conversion of a KMS signature to the 65 bytes of Ethereum.  The curve
    libraries, ASN.1, the identifiers and the KMS service are parameters.  The theorems: both
    implementations keep the promise of the interface; a local key signs under its
    identifier until the store is cleared; and a KMS signature that is answered is low, has
    the length and the recovery byte of Ethereum, and recovers to the key, and is answered
    whenever one of the four recovery identifiers does. *)

From stdpp Require Import gmap strings.
From S2P Require Import Prelude Bytes Types NodeCore Persistence GoText Bls.

(** The struct of crypto-libs. *)
Record PublicKey := mkPublicKey { X : Z; Y : Z }.
#[export] Instance PublicKey_eq_dec : EqDecision PublicKey.
Proof. solve_decision. Defined.

Record GeneratedECDSAKey := mkGenerated { gen_PublicKey : option PublicKey; gen_Address : string; KeyId : string }.

(** crypto-libs on key pairs, go-ethereum on public keys and recovery, and the contents of
    the two ASN.1 structures. *)
Class KeyGenLib := {
  PrivateKey : Type;
  priv_Public : PrivateKey -> PublicKey;
  priv_DeriveAddress : PrivateKey -> res Address;
  priv_Sign : PrivateKey -> bytes -> res bytes;
  pub_DeriveAddress : PublicKey -> res Address;
  pub_Bytes : PublicKey -> bytes;
  NewPrivateKeyFromHexString : string -> res PrivateKey;
  UnmarshalPubkey : bytes -> res PublicKey;
  Ecrecover : bytes -> bytes -> res bytes;
  asn1_EcPublicKey : bytes -> res bytes;
  asn1_EcSig : bytes -> res (bytes * bytes)
}.

(** ** [keyGenerator.go] *)

(** The interface over a state [S], and what a caller may rely on: a generated key can be got
    by its identifier, and its address is that of its public key. *)
Class IKeyGenerator (S : Type) := {
  GenerateECDSAKey : string -> string -> SM S GeneratedECDSAKey;
  GetECDSAKeyById : string -> SM S GeneratedECDSAKey;
  SignMessage : string -> bytes -> SM S bytes
}.

Definition hexutil_Encode (b : bytes) : string := string_of (chars_of "0x" ++ hex_EncodeToString b).

Section KeyBytes.
Context `{KeyGenLib}.

Definition GetPublicKeyBytes (gek : GeneratedECDSAKey) : res bytes := pk ← from_opt "public key is nil" (gen_PublicKey gek); Ok (pub_Bytes pk).
Definition GetPublicKeyHex (gek : GeneratedECDSAKey) : res string :=
  b ← wrap "failed to get public key bytes" (GetPublicKeyBytes gek); Ok (hexutil_Encode b).

Definition GetPublicKeyBytesUnprefixed (gek : GeneratedECDSAKey) : res bytes :=
  b ← GetPublicKeyBytes gek;
  if (length b =? 65)%nat && bool_decide (head b = Some 4) then Ok (tail b)
  else if (length b =? 64)%nat then Ok b
  else Err "unexpected public key length: %d".
Definition GetPublicKeyHexUnprefixed (gek : GeneratedECDSAKey) : res string :=
  b ← wrap "failed to get unprefixed public key bytes" (GetPublicKeyBytesUnprefixed gek); Ok (hexutil_Encode b).
End KeyBytes.

Class KeyGeneratorLaws (S : Type) `{KeyGenLib} `{EthAddr} `{IKeyGenerator S} : Prop := {
  generated_found name alias (s s' : S) g : GenerateECDSAKey name alias s = (s', Ok g) -> GetECDSAKeyById (KeyId g) s' = (s', Ok g);
  generated_address name alias (s s' : S) g : GenerateECDSAKey name alias s = (s', Ok g) ->
    exists pk a, gen_PublicKey g = Some pk /\ pub_DeriveAddress pk = Ok a /\ gen_Address g = Hex a
}.

(** ** [localKeyGenerator.go] *)

Section Local.
Context `{KeyGenLib} `{EthAddr}.

Record keyEntry := mkKeyEntry { privateKey : PrivateKey; publicKey : PublicKey; keyName : string; aliasName : string; address : string }.

(** The map of keys; the entries are never changed.  Each method runs under the lock. *)
Notation LocalKeyGenerator := (gmap string keyEntry).
Definition NewLocalKeyGenerator : LocalKeyGenerator := ∅.

Notation M := (SM LocalKeyGenerator).

(** [keyPair] and [uuid] are what the two generators draw. *)
Definition local_GenerateECDSAKey (keyPair : res (PrivateKey * PublicKey)) (uuid : string) (name alias : string) : M GeneratedECDSAKey :=
  '(priv, pub) ← sm_lift (wrap "failed to generate ECDSA key" keyPair);
  addr ← sm_lift (wrap "failed to derive Ethereum address from public key" (priv_DeriveAddress priv));
  let keyId := ("local-key-" +:+ uuid)%string in
  _ ← sm_modify (<[keyId := mkKeyEntry priv pub name alias (Hex addr)]>);
  mret (mkGenerated (Some pub) (Hex addr) keyId).

Definition local_GetECDSAKeyById (keyId : string) : M GeneratedECDSAKey :=
  l ← sm_get;
  entry ← sm_lift (from_opt "key with ID %s not found" (l !! keyId));
  mret (mkGenerated (Some (publicKey entry)) (address entry) keyId).

(** The message is signed as it is. *)
Definition local_SignMessage (keyId : string) (message : bytes) : M bytes :=
  l ← sm_get;
  entry ← sm_lift (from_opt "key with ID %s not found" (l !! keyId));
  sm_lift (wrap "failed to sign message with key %s" (priv_Sign (privateKey entry) message)).

Definition LoadPrivateKey (keyId : string) (priv : option PrivateKey) (name alias : string) : M unit :=
  priv ← sm_lift (from_opt "private key cannot be nil" priv);
  addr ← sm_lift (wrap "failed to derive Ethereum address from private key" (priv_DeriveAddress priv));
  l ← sm_get;
  _ ← sm_lift (fail_if (bool_decide (is_Some (l !! keyId))) "key with ID %s already exists");
  sm_modify (<[keyId := mkKeyEntry priv (priv_Public priv) name alias (Hex addr)]>).

Definition LoadPrivateKeyFromHex (keyId privateKeyHex name alias : string) : M unit :=
  priv ← sm_lift (wrap "failed to parse private key from hex" (NewPrivateKeyFromHexString privateKeyHex));
  LoadPrivateKey keyId (Some priv) name alias.

Definition GenerateAndLoadKey (keyPair : res (PrivateKey * PublicKey)) (uuid : string) (name alias : string) : M unit :=
  '(priv, _) ← sm_lift (wrap "failed to generate ECDSA key" keyPair);
  LoadPrivateKey ("local-key-" +:+ uuid) (Some priv) name alias.

Definition GetKeyCount : M Z := fun l => (l, Ok (Z.of_nat (size l))).
Definition ClearKeys : M unit := sm_modify (fun _ => NewLocalKeyGenerator).
Definition KeyExists (keyId : string) : M bool := fun l => (l, Ok (bool_decide (is_Some (l !! keyId)))).
(** [order] is the iteration order of the map. *)
Definition GetKeyByAlias (order : list string) (alias : string) : M (option keyEntry) := fun l =>
  (l, Ok (find (fun entry => bool_decide (aliasName entry = alias)) (omap (fun keyId => l !! keyId) order))).
End Local.
Notation LocalKeyGenerator := (gmap string keyEntry).

(** ** [awsKmsKeyGenerator.go] *)

Definition curveOrder : Z := 0xFFFFFFFFFFFFFFFFFFFFFFFFFFFFFFFEBAAEDCE6AF48A03BBFD25E8CD0364141.
Definition halfOrder : Z := Z.shiftr curveOrder 1.

(** The input of [CreateKey], its tags in order. *)
Record CreateKeyInput := mkCreateKey { KeyUsage : string; KeySpec : string; Description : string; Tags : list (string * string) }.

(** The KMS service: its state, and the calls the program makes.  [CreateKey] answers the
    identifier, [kms_Sign] signs a digest with [ECDSA_SHA_256]. *)
Record KmsClient (W : Type) := mkKms {
  CreateKey : CreateKeyInput -> SM W string;
  CreateAlias : string -> string -> SM W unit;
  GetPublicKey : string -> SM W bytes;
  kms_Sign : string -> bytes -> SM W bytes
}.
Arguments CreateKey {W} _.
Arguments CreateAlias {W} _.
Arguments GetPublicKey {W} _.
Arguments kms_Sign {W} _.

(** [x.FillBytes(make([]byte, n))]: the absolute value, which must fit. *)
Definition FillBytes (n : nat) (x : Z) : res bytes :=
  _ ← fail_if (256 ^ Z.of_nat n <=? Z.abs x) "panic: math/big: buffer too small to fit value"; Ok (be_bytes n (Z.abs x)).

Section Aws.
Context `{KeyGenLib} `{EthAddr} {W : Type}.
Variable k : KmsClient W.
Variable ChainName : string.

Definition createEthereumSigningKey (keyName environment : string) : SM W string :=
  sm_wrap "failed to create KMS key" (CreateKey k (mkCreateKey "SIGN_VERIFY" "ECC_SECG_P256K1"
    ("ECDSA key for Ethereum transaction signing - " +:+ keyName)%string
    [("Name", keyName); ("Environment", environment); ("Purpose", "signing-key"); ("KeyType", "ECDSA"); ("Curve", "secp256k1"); ("EigenCompute", "true")]%string)).

Definition createKeyAlias (keyId aliasName : string) : SM W unit :=
  sm_wrap "failed to create key alias" (CreateAlias k ("alias/" +:+ aliasName)%string keyId).

Definition getPublicKey (keyId : string) : SM W bytes := sm_wrap "failed to get public key" (GetPublicKey k keyId).

Definition parseECDSAPublicKey (derBytes : bytes) : res PublicKey :=
  b ← wrap "failed to parse ASN.1 public key" (asn1_EcPublicKey derBytes); UnmarshalPubkey b.

Definition aws_GetECDSAKeyById (keyId : string) : SM W GeneratedECDSAKey :=
  der ← sm_wrap "failed to get public key for key %s in region %s" (getPublicKey keyId);
  pk ← sm_lift (wrap "failed to parse public key for key %s in region %s" (parseECDSAPublicKey der));
  addr ← sm_lift (wrap "failed to derive Ethereum address from public key for key %s in region %s" (pub_DeriveAddress pk));
  mret (mkGenerated (Some pk) (Hex addr) keyId).

(** A key whose alias fails stays in the service. *)
Definition aws_GenerateECDSAKey (keyName aliasName : string) : SM W GeneratedECDSAKey :=
  keyId ← sm_wrap "failed to create ECDSA key %s in region %s" (createEthereumSigningKey keyName ChainName);
  _ ← sm_wrap "failed to create alias %s for key %s in region %s" (createKeyAlias keyId aliasName);
  aws_GetECDSAKeyById keyId.

(** One turn of the loop over the recovery identifiers: whether this one recovers the key. *)
Definition recovers (hash rBytes sBytes : bytes) (expected : PublicKey) (recoveryId : Z) : bool :=
  match (b ← Ecrecover hash (rBytes ++ sBytes ++ [recoveryId]); UnmarshalPubkey b) with
  | Ok pk => (X pk =? X expected) && (Y pk =? Y expected)
  | Err _ => false
  end.

(** The lower of the two signatures of the same point. *)
Definition low_s (s : Z) : Z := if s >? halfOrder then curveOrder - s else s.

Definition getSignatureFromKms (keyId : string) (txHashBytes : bytes) : SM W bytes :=
  _ ← sm_lift (fail_if (negb (length txHashBytes =? 32)%nat) "hash must be exactly 32 bytes, got %d");
  der ← sm_wrap "failed to get public key" (getPublicKey keyId);
  expectedPubKey ← sm_lift (wrap "failed to parse public key" (parseECDSAPublicKey der));
  signature ← kms_Sign k keyId txHashBytes;
  '(rRaw, sRaw) ← sm_lift (asn1_EcSig signature);
  rBytes ← sm_lift (FillBytes 32 (be_val rRaw));
  sBytes ← sm_lift (FillBytes 32 (low_s (be_val sRaw)));
  recoveryId ← sm_lift (from_opt "could not determine valid recovery ID - signature recovery failed"
    (find (recovers txHashBytes rBytes sBytes expectedPubKey) [0; 1; 2; 3]));
  mret (rBytes ++ sBytes ++ [27 + recoveryId]).

Definition aws_SignMessage (keyId : string) (message : bytes) : SM W bytes := getSignatureFromKms keyId message.
End Aws.

(** ** Facts *)

Section KeyGenFacts.
Context `{KeyGenLib} `{EthAddr}.

(** The form Web3Signer takes is 64 bytes: the key without its prefix. *)
Theorem unprefixed_key gek b : GetPublicKeyBytesUnprefixed gek = Ok b ->
  length b = 64%nat /\ exists pk, gen_PublicKey gek = Some pk /\ (pub_Bytes pk = b \/ pub_Bytes pk = 4 :: b).
Proof.
  unfold GetPublicKeyBytesUnprefixed, GetPublicKeyBytes. destruct (gen_PublicKey gek) as [pk|]; [|done]. cbn [from_opt mbind res_bind].
  destruct (Nat.eqb_spec (length (pub_Bytes pk)) 65) as [Hl|Hl]; cbn [andb].
  - case_bool_decide as Hh.
    + intros [= <-]. destruct (pub_Bytes pk) as [|x b] eqn:Hb; [done|]. cbn in Hl, Hh. injection Hh as ->. split; [cbn; lia|]. exists pk. split; [done|]. by right.
    + rewrite (proj2 (Nat.eqb_neq _ _)) by lia. done.
  - destruct (Nat.eqb_spec (length (pub_Bytes pk)) 64); [|done]. intros [= <-]. split; [done|]. exists pk. split; [done|]. by left.
Qed.

(** *** The local store *)

(** The two implementations of the interface; [keyPair] and [uuid] are what the state of the
    random sources makes. *)
#[local] Instance local_generator (keyPair : LocalKeyGenerator -> res (PrivateKey * PublicKey)) (uuid : LocalKeyGenerator -> string) : IKeyGenerator LocalKeyGenerator := {
  GenerateECDSAKey name alias := fun l => local_GenerateECDSAKey (keyPair l) (uuid l) name alias l;
  GetECDSAKeyById := local_GetECDSAKeyById;
  SignMessage := local_SignMessage
}.

Lemma local_generate_ok keyPair uuid name alias (l l' : LocalKeyGenerator) g : local_GenerateECDSAKey keyPair uuid name alias l = (l', Ok g) ->
  exists priv pub a, keyPair = Ok (priv, pub) /\ priv_DeriveAddress priv = Ok a /\ g = mkGenerated (Some pub) (Hex a) ("local-key-" +:+ uuid) /\
    l' = <[("local-key-" +:+ uuid)%string := mkKeyEntry priv pub name alias (Hex a)]> l.
Proof.
  unfold local_GenerateECDSAKey. sm_steps. destruct keyPair as [[priv pub]|]; cbn [wrap]; [|done].
  destruct (priv_DeriveAddress priv) as [a|] eqn:Ha; cbn [wrap]; [|done]. intros [= <- <-]. by exists priv, pub, a.
Qed.

Lemma local_keeps_promise keyPair uuid :
  (forall l priv pub a, keyPair l = Ok (priv, pub) -> priv_DeriveAddress priv = Ok a -> pub_DeriveAddress pub = Ok a) ->
  @KeyGeneratorLaws LocalKeyGenerator _ _ (local_generator keyPair uuid).
Proof.
  intros Hpair. constructor; intros name alias l l' g Hg; cbn [GenerateECDSAKey local_generator] in Hg;
    apply local_generate_ok in Hg as (priv & pub & a & Hp & Ha & -> & ->).
  - cbn [GetECDSAKeyById local_generator KeyId]. unfold local_GetECDSAKeyById. sm_steps. by rewrite lookup_insert_eq.
  - exists pub, a. split_and!; [done|by eapply Hpair|done].
Qed.

(** What happens to the store. *)
Inductive local_op :=
| OpGenerate (keyPair : res (PrivateKey * PublicKey)) (uuid name alias : string)
| OpLoad (keyId : string) (priv : option PrivateKey) (name alias : string)
| OpLoadHex (keyId hex name alias : string)
| OpGenerateAndLoad (keyPair : res (PrivateKey * PublicKey)) (uuid name alias : string).

Definition local_step (l : LocalKeyGenerator) (op : local_op) : LocalKeyGenerator :=
  match op with
  | OpGenerate keyPair uuid name alias => (local_GenerateECDSAKey keyPair uuid name alias l).1
  | OpLoad keyId priv name alias => (LoadPrivateKey keyId priv name alias l).1
  | OpLoadHex keyId hex name alias => (LoadPrivateKeyFromHex keyId hex name alias l).1
  | OpGenerateAndLoad keyPair uuid name alias => (GenerateAndLoadKey keyPair uuid name alias l).1
  end.

(** The identifier that a generation overwrites; loading overwrites none. *)
Definition fresh_for (keyId : string) (op : local_op) : Prop :=
  match op with OpGenerate _ uuid _ _ => keyId <> ("local-key-" +:+ uuid)%string | _ => True end.

Lemma load_keeps keyId priv name alias (l : LocalKeyGenerator) id e : l !! id = Some e -> (LoadPrivateKey keyId priv name alias l).1 !! id = Some e.
Proof.
  intros Hid. unfold LoadPrivateKey. sm_steps. destruct priv as [priv|]; [|done]. cbn [from_opt]. destruct (priv_DeriveAddress priv); [|done]. cbn [wrap].
  case_bool_decide as Hk; [done|]. cbn [fail_if fst]. rewrite lookup_insert_ne; [done|]. intros ->. apply Hk. by eexists.
Qed.

Lemma local_step_keeps l op id e : l !! id = Some e -> fresh_for id op -> local_step l op !! id = Some e.
Proof.
  intros Hid Hf. destruct op as [keyPair uuid name alias|keyId priv name alias|keyId hex name alias|keyPair uuid name alias]; cbn [local_step].
  - destruct (local_GenerateECDSAKey keyPair uuid name alias l) as [l' [g|err]] eqn:Hg.
    + apply local_generate_ok in Hg as (priv & pub & a & _ & _ & _ & ->). cbn [fst]. by rewrite lookup_insert_ne.
    + revert Hg. unfold local_GenerateECDSAKey. sm_steps. destruct keyPair as [[priv pub]|]; cbn [wrap]; [|by intros [= <- _]].
      destruct (priv_DeriveAddress priv); [done|]. by intros [= <- _].
  - by apply load_keeps.
  - unfold LoadPrivateKeyFromHex. sm_steps. destruct (NewPrivateKeyFromHexString hex); cbn [wrap]; [by apply load_keeps|done].
  - unfold GenerateAndLoadKey. sm_steps. destruct keyPair as [[priv pub]|]; cbn [wrap]; [by apply load_keeps|done].
Qed.

(** A key that was loaded under an identifier is the key that signs under it, whatever is
    loaded and generated afterwards, unless a generated identifier collides with it; loading
    under a taken identifier is refused and changes nothing. *)
Theorem loaded_key_signs keyId priv name alias l l' ops message : LoadPrivateKey keyId (Some priv) name alias l = (l', Ok tt) -> Forall (fresh_for keyId) ops ->
  let after := foldl local_step l' ops in
  local_SignMessage keyId message after = (after, wrap "failed to sign message with key %s" (priv_Sign priv message)) /\
  local_GetECDSAKeyById keyId after = (after, a ← priv_DeriveAddress priv; Ok (mkGenerated (Some (priv_Public priv)) (Hex a) keyId)) /\
  (forall priv' name' alias', exists err, LoadPrivateKey keyId priv' name' alias' after = (after, Err err)).
Proof.
  intros Hl Hops after. assert (He : exists e a, after !! keyId = Some e /\ privateKey e = priv /\ publicKey e = priv_Public priv /\ priv_DeriveAddress priv = Ok a /\ address e = Hex a).
  { revert Hl. unfold LoadPrivateKey. sm_steps. cbn [from_opt]. destruct (priv_DeriveAddress priv) as [a|] eqn:Ha; [|done]. cbn [wrap].
    case_bool_decide; [done|]. intros [= <-]. exists (mkKeyEntry priv (priv_Public priv) name alias (Hex a)), a. split; [|done]. unfold after. clear after. generalize (<[keyId := mkKeyEntry priv (priv_Public priv) name alias (Hex a)]> l) (lookup_insert_eq l keyId (mkKeyEntry priv (priv_Public priv) name alias (Hex a))).
    induction Hops as [|op ops Hf _ IH]; [done|]. intros m Hm. apply IH. by apply local_step_keeps. }
  destruct He as (e & a & He & Hk & Hp & Ha & Had). unfold local_SignMessage, local_GetECDSAKeyById, LoadPrivateKey. sm_steps. rewrite He. cbn [from_opt]. split_and!.
  - by rewrite Hk.
  - by rewrite Hp, Had, Ha.
  - intros [priv'|] ? ?; cbn [from_opt]; [|by eexists]. destruct (priv_DeriveAddress priv'); cbn [wrap]; [|by eexists]. rewrite bool_decide_true by done. by eexists.
Qed.

(** *** AWS KMS *)

Context {W : Type}.
Variable k : KmsClient W.
Variable ChainName : string.

#[local] Instance aws_generator : IKeyGenerator W := {
  GenerateECDSAKey := aws_GenerateECDSAKey k ChainName;
  GetECDSAKeyById := aws_GetECDSAKeyById k;
  SignMessage := aws_SignMessage k
}.

Lemma aws_get_ok keyId (w w' : W) g : aws_GetECDSAKeyById k keyId w = (w', Ok g) <-> exists der pk a, GetPublicKey k keyId w = (w', Ok der) /\
  parseECDSAPublicKey der = Ok pk /\ pub_DeriveAddress pk = Ok a /\ g = mkGenerated (Some pk) (Hex a) keyId.
Proof.
  unfold aws_GetECDSAKeyById, getPublicKey, sm_wrap. sm_steps. destruct (GetPublicKey k keyId w) as [w1 [der|e]]; cbn [wrap]; [|split; [done|by intros (d & p & a' & ? & _)]].
  destruct (parseECDSAPublicKey der) as [pk|] eqn:Hpk; cbn [wrap]; [|split; [done|intros (d & p & a' & [= <- <-] & Hp & _); congruence]].
  destruct (pub_DeriveAddress pk) as [a|] eqn:Ha; cbn [wrap]; split; try done.
  - intros [= <- <-]. by exists der, pk, a.
  - intros (d & p & a' & [= <- <-] & Hp & Ha' & ->). rewrite Hpk in Hp. injection Hp as <-. rewrite Ha in Ha'. by injection Ha' as <-.
  - intros (d & p & a' & [= <- <-] & Hp & Ha' & _). congruence.
Qed.

(** Reading a public key twice gives it twice: then the service keeps the promise too. *)
Lemma aws_keeps_promise : (forall keyId w w' der, GetPublicKey k keyId w = (w', Ok der) -> GetPublicKey k keyId w' = (w', Ok der)) -> KeyGeneratorLaws W.
Proof.
  intros Hread. assert (Hg : forall name alias w w' g, aws_GenerateECDSAKey k ChainName name alias w = (w', Ok g) -> exists w1, aws_GetECDSAKeyById k (KeyId g) w1 = (w', Ok g)).
  { intros name alias w w' g Hg. unfold aws_GenerateECDSAKey in Hg. apply sm_bind_ok in Hg as (w1 & keyId & _ & Hg). apply sm_bind_ok in Hg as (w2 & [] & _ & Hg).
    pose proof Hg as (der & pk & a & _ & _ & _ & Hgen)%aws_get_ok. exists w2. by rewrite Hgen in *. }
  constructor; intros name alias w w' g (w1 & Hget)%Hg; apply aws_get_ok in Hget as (der & pk & a & Hr & Hp & Ha & Hgen).
  - apply aws_get_ok. exists der, pk, a. split_and!; try done. by eapply Hread.
  - exists pk, a. by rewrite Hgen.
Qed.

Lemma low_s_bounds s : 0 <= s < curveOrder -> 0 <= low_s s <= halfOrder.
Proof.
  intros Hs. unfold low_s. assert (Hh : halfOrder = curveOrder / 2) by reflexivity. assert (Ho : curveOrder = 2 * halfOrder + 1) by reflexivity.
  destruct (Z.gtb_spec s halfOrder); lia.
Qed.

Lemma FillBytes_ok x : 0 <= x < curveOrder -> FillBytes 32 x = Ok (be_bytes 32 x).
Proof.
  intros Hx. assert (Ho : curveOrder < 256 ^ Z.of_nat 32) by reflexivity. unfold FillBytes. rewrite Z.abs_eq by lia.
  by rewrite (proj2 (Z.leb_gt _ _)) by lia.
Qed.

Lemma recovers_spec h r s pk id : recovers h r s pk id = true <-> exists b, Ecrecover h (r ++ s ++ [id]) = Ok b /\ UnmarshalPubkey b = Ok pk.
Proof.
  unfold recovers. destruct (Ecrecover h (r ++ s ++ [id])) as [b|]; cbn [mbind res_bind]; [|by split; [|intros (? & ? & _)]].
  destruct (UnmarshalPubkey b) as [pk'|] eqn:Hu; [|split; [done|intros (? & [= <-] & ?); congruence]]. rewrite andb_true_iff, !Z.eqb_eq. split.
  - intros [Hx Hy]. exists b. split; [done|]. destruct pk', pk. cbn in *. congruence.
  - intros (b' & [= <-] & Hb). rewrite Hu in Hb. by injection Hb as ->.
Qed.

(** C22: The signature of the service becomes one of Ethereum: when the service answers the key and a
    signature with both numbers below the order, an answer of the program has 65 bytes,
    carries the lower of the two signatures and the identifier plus 27, and recovers to the
    key of the service; and there is an answer whenever one of the four identifiers recovers
    to it.  Anything but 32 bytes is refused before the service is asked. *)
Theorem kms_signature keyId h (w w1 w2 : W) der pk raw rRaw sRaw : GetPublicKey k keyId w = (w1, Ok der) -> parseECDSAPublicKey der = Ok pk ->
  kms_Sign k keyId h w1 = (w2, Ok raw) -> asn1_EcSig raw = Ok (rRaw, sRaw) -> be_val rRaw < curveOrder -> be_val sRaw < curveOrder -> 0 <= be_val rRaw -> 0 <= be_val sRaw ->
  let r := be_bytes 32 (be_val rRaw) in let s := be_bytes 32 (low_s (be_val sRaw)) in
  let recovered id := exists b, Ecrecover h (r ++ s ++ [id]) = Ok b /\ UnmarshalPubkey b = Ok pk in
  (length h <> 32%nat -> exists err, getSignatureFromKms k keyId h w = (w, Err err)) /\
  (forall sig, getSignatureFromKms k keyId h w = (w2, Ok sig) ->
     length sig = 65%nat /\ be_val (take 32 (drop 32 sig)) <= halfOrder /\ exists id, id ∈ [0; 1; 2; 3] /\ sig = (r ++ s ++ [27 + id])%list /\ recovered id) /\
  (length h = 32%nat -> (exists id, id ∈ [0; 1; 2; 3] /\ recovered id) -> exists sig, getSignatureFromKms k keyId h w = (w2, Ok sig)).
Proof.
  intros Hpub Hpk Hsign Hasn Hr Hs Hr0 Hs0 r s recovered. pose proof (low_s_bounds (be_val sRaw) ltac:(lia)) as Hlow.
  assert (Hho : halfOrder < curveOrder) by reflexivity.
  assert (Hget : getSignatureFromKms k keyId h w = if (length h =? 32)%nat then (w2, match find (recovers h r s pk) [0; 1; 2; 3] with
      Some id => Ok (r ++ s ++ [27 + id]) | None => Err "could not determine valid recovery ID - signature recovery failed" end)
    else (w, Err "hash must be exactly 32 bytes, got %d")).
  { unfold getSignatureFromKms, getPublicKey, sm_wrap. sm_steps. destruct (length h =? 32)%nat; cbn [negb fail_if]; [|done]. rewrite Hpub. cbn [wrap].
    rewrite Hpk. cbn [wrap]. rewrite Hsign, Hasn, !FillBytes_ok by lia. fold r s. by destruct (find _ _). }
  rewrite Hget. split_and!.
  - intros Hl. rewrite (proj2 (Nat.eqb_neq _ _)) by done. by eexists.
  - intros sig Hsig. destruct (length h =? 32)%nat; [|done]. destruct (find _ _) as [id|] eqn:Hf; [|done]. assert (sig = (r ++ s ++ [27 + id])%list) as -> by congruence. clear Hsig. apply find_some in Hf as [Hin Hrec].
    assert (Hlr : length r = 32%nat) by apply length_be_bytes. assert (Hls : length s = 32%nat) by apply length_be_bytes. split_and!.
    + rewrite !length_app, Hlr, Hls. done.
    + rewrite drop_app_length', take_app_length' by done. unfold s. rewrite be_val_be_bytes, Z.mod_small; [lia|]. split; [lia|].
      eapply Z.le_lt_trans; [apply Hlow|reflexivity].
    + exists id. split_and!; [by apply list_elem_of_In|done|by apply recovers_spec].
  - intros Hl (id & Hin & Hrec%recovers_spec). rewrite Hl, Nat.eqb_refl. destruct (find _ _) eqn:Hf; [by eexists|].
    exfalso. eapply find_none in Hf; [|by apply list_elem_of_In]. congruence.
Qed.
End KeyGenFacts.

(** ** Witnesses: keys that are numbers, a service whose keys sign with identifier 1 *)

#[local] Instance toy_keys : KeyGenLib := {
  PrivateKey := Z;
  priv_Public k := mkPublicKey k (k + 1);
  priv_DeriveAddress k := Ok k;
  priv_Sign k m := Ok (k :: m);
  pub_DeriveAddress pk := Ok (X pk);
  pub_Bytes pk := 4 :: be_bytes 32 (X pk) ++ be_bytes 32 (Y pk);
  NewPrivateKeyFromHexString _ := Err "invalid hex";
  UnmarshalPubkey b := Ok (mkPublicKey (be_val b) (be_val b + 1));
  Ecrecover h sig := if bool_decide (last sig = Some 1) then Ok [9] else Err "recovery failed";
  asn1_EcPublicKey b := Ok b;
  asn1_EcSig b := Ok (take 2 b, drop 2 b)
}.
#[local] Instance key_addr : EthAddr := { Hex a := if a =? 7 then "0x7" else "0x"; HexToAddress _ := 0 }.

Lemma unprefixed_key_witness : exists b, GetPublicKeyBytesUnprefixed (mkGenerated (Some (mkPublicKey 5 6)) "0x5" "id") = Ok b /\ length b = 64%nat.
Proof.
  eexists. split; [reflexivity|]. eapply (unprefixed_key (mkGenerated (Some (mkPublicKey 5 6)) "0x5" "id")). reflexivity.
Defined.

Definition demo_ops : list local_op := [OpLoad "a" (Some 8) "" ""; OpGenerate (Ok (9, mkPublicKey 9 10)) "u" "" ""; OpGenerateAndLoad (Ok (3, mkPublicKey 3 4)) "u" "" ""].
Definition demo_loaded : LocalKeyGenerator := (LoadPrivateKey "a" (Some 7) "first" "x" NewLocalKeyGenerator).1.

(** A second load under the same identifier does not replace the first. *)
Lemma loaded_key_signs_witness : local_SignMessage "a" [1; 2] (foldl local_step demo_loaded demo_ops) = (foldl local_step demo_loaded demo_ops, Ok [7; 1; 2]).
Proof.
  destruct (@loaded_key_signs toy_keys key_addr "a" 7 "first" "x" NewLocalKeyGenerator demo_loaded demo_ops [1; 2]) as [Hs _]; [reflexivity| |exact Hs].
  repeat constructor; discriminate.
Defined.

(** A high [s], the order less 5. *)
Definition demo_s : Z := curveOrder - 5.
Definition demo_kms : KmsClient unit := mkKms _ (fun _ w => (w, Ok "id"%string)) (fun _ _ w => (w, Ok tt)) (fun _ w => (w, Ok [9]))
  (fun _ _ w => (w, Ok ([0; 3] ++ be_bytes 33 demo_s))).

Lemma kms_signature_witness : exists sig, getSignatureFromKms demo_kms "id" (repeat 6 32) tt = (tt, Ok sig) /\ last sig = Some 28 /\ sig !! 63%nat = Some 5.
Proof.
  destruct (kms_signature demo_kms "id" (repeat 6 32) tt tt tt [9] (mkPublicKey 9 10) ([0; 3] ++ be_bytes 33 demo_s) [0; 3] (be_bytes 33 demo_s)) as (_ & Hok & Hex);
    try reflexivity; try (vm_compute; discriminate).
  destruct Hex as [sig Hsig]; [reflexivity| |].
  { exists 1. split; [right; left|]. eexists. split; vm_compute; reflexivity. }
  exists sig. split; [exact Hsig|]. vm_compute in Hsig. injection Hsig as <-. split; reflexivity.
Defined.
